(* ===== verification/_CoqProject ===== *)
-Q . S2P
Prelude.v
Ring.v
Kstate.v
Spinlock.v
Smp.v
Cprintf.v
Proc.v
Wakeup.v
Scheduler.v
Admission.v
Kdata.v
Sleeplock.v
Hw.v
Mp.v
Desc.v
Kalloc.v
Bio.v
Ide.v
Bcache.v
Block.v
Log.v
Vm.v
CString.v
Fs.v
Dir.v
Reads.v
Write.v
Link.v
Pipe.v
File.v
Filewrite.v
ConsoleIn.v
Kbd.v
ProcLife.v
Umem.v
Sysarg.v
Exec.v
Boot.v
Sysproc.v
Sysfile.v
Trap.v
Main.v
Grep.v
Umalloc.v
Sh.v
Shrun.v
Ulib.v
Usys.v
Shmain.v
Uprog.v
Assig.v
Usertests.v
Mkfs.v
Urun.v
Realtime.v
