(* ===== verification/Prelude.v ===== *)
(** * A verification library for the xv6 kernel with EDF/RM scheduling

    The program is the xv6 teaching kernel for x86 with two real-time scheduling
    classes added to it, earliest deadline first and rate monotonic, and its user programs.

    ** How the code is modelled

    A kernel function is a function of the monad [M] of Kstate.v.  A world [W m co p s] is the
    machine one CPU sees (interrupt flag, page table and task registers, the cpus with their descriptor tables, and the spin locks), the console output,
    the process table with the scheduling counters, and the remaining state, which above the
    process table is the record [kst] of Kdata.v (buffers, log, inodes, open files, pipes, physical
    memory, console input, and the accesses to devices).  A run returns, panics, gives the CPU away ([Swtch w k], where [k] is what
    the process does when it is scheduled again, in whatever world it finds then), reads an object
    that is not there, or runs out of fuel.  [wp] is total correctness: the run returns.  C integers
    are integers with the wrap-around of their width written out.

    ** Parts

    - Prelude, Ring: record update, C integers, byte arrays, ring buffers with wrapping counters.
    - Kstate, Kdata: the data of proc.h, spinlock.h, buf.h, fs.h, file.h, pipe.c, log.c and the monad.
    - Spinlock (spinlock.c, mycpu, myproc), Smp (the same code on several CPUs at once), Sleeplock (sleeplock.c),
      Cprintf (output of console.c and uart.c).
    - Proc, Scheduler, Admission, ProcLife: proc.c, in that order sleeping and switching; choosing a
      process; the admission test and the real-time parameters; creating, exiting and reaping.  Wakeup: the steps of sleep and wakeup on many
      processes at once.
    - Kalloc (kalloc.c), Vm (vm.c, mmu.h), Umem (user memory through the page table), CString (string.c).
    - Bio, Bcache, Block: bio.c and memide.c, the cache invariant, and the class [BlockCache] of what the
      cache promises; Log (log.c) and Fs (fs.c) are proved against that class only.
    - Dir, Reads, Write, Link: theorems about fs.c, in that order path names; reading files and looking up names; [writei]; [dirlink].
    - Pipe (pipe.c), File (file.c), Filewrite (the theorem about [filewrite]), ConsoleIn (input of console.c), Kbd (kbd.c).
    - Hw (lapic.c, ioapic.c, picirq.c), Mp (mp.c), Ide (ide.c), Boot (bootmain.c): code that drives hardware, over a machine that answers
      as a function of the accesses made so far, which the state records; Desc (mmu.h, seginit, tvinit): what the processor reads in the descriptors;
      Main (main.c): the order of the initialisers, and starting the other CPUs.
    - Sysarg, Sysproc, Sysfile, Exec, Trap: syscall.c, sysproc.c, sysfile.c, exec.c and trap.c, from the
      trap frame and the words of the user stack down to the parts above.
    - Grep (grep.c), Umalloc (umalloc.c), Ulib (ulib.c, printf.c), Sh (the parser of sh.c): user code as functions.
    - Shrun (runcmd and a line of sh.c), Usys, Shmain (getcmd and main of sh.c), Uprog (echo, cat, wc, grep, ls, ln, rm, mkdir, kill, zombie,
      init, stressfs, forktest), Assig (assig2_1 to assig2_5, ppi) and Usertests (usertests.c): user programs as trees of system calls;
      Usys has their events and proof rules.
    - Mkfs (mkfs.c): the tool that writes the file system image, read back by the functions of Fs and Dir.
    - Urun (usys.S): a user program run on the kernel, each system call through [trap]; Realtime: programs of the real-time calls run this way.

    ** What the theorems show

    - Scheduling: the process dispatched is first by (deadline, pid) or (priority, pid); a pass gives the
      CPU to a runnable process when there is one, and otherwise ends and changes nothing.
    - Admission: both tests on every branch, the totals over any sequence of calls, the
      table of bounds against Liu and Layland, the call made from user mode, user programs of such calls on the whole path through the
      stubs and the trap, and the division by a deadline of 0, which panics the kernel.
    - Locks: one CPU at a time is in a critical section, whatever the interleaving of the CPUs.
    - Switching: no wakeup is lost, whatever the interleaving of the steps of [sleep] and [wakeup]; a clock tick ends a time slice; [exit], [wait] and
      the system call [sleep].
    - Storage: a commit is repaired to all or nothing after a crash at any of its disk writes; the cache,
      block allocation, reading and writing files, looking up names and adding them, the inode encoding; [read] from user stack to user memory; a [filewrite] that
      has returned is on the disk; the
      image of mkfs holds the files it was given, with a correct free map.
    - Hardware: a disk request moves its data and requests are served in order; the processors and interrupt routes
      found at boot; the date; what the processor reads in the descriptor tables; the loader puts the kernel in memory.
    - Memory: the page allocator, page tables, the argument checks, the stack [exec] builds.
    - Queues: a pipe is a bounded queue, the console input a line editor, the keyboard driver a US keyboard.
    - User code: grep's matcher decides the pattern's language; malloc and free refine a set of free addresses; the shell parses what
      is printed and starts the programs of a command on the right descriptors; cat, wc, grep and forktest print what they
      should.

    ** Bounds and fuel

    Loops that the code bounds run on that bound.  A loop without one (a scan of a ring, [while(1)], a
    sleeping loop) takes fuel, [Fuel] in the kernel; theorems that a call returns say how much is enough, or
    need none because the loop gives the CPU away first.  The scan of the scheduler needs more than NPROC, malloc
    twice the length of its free list and three, [mpinit] more than the entries of its table, the shell's parser four times the
    length of the line and four.  Programs in Usys are interaction trees and need no fuel: [ensures] is that they end.
    [urun] takes as many turns as the program makes calls and silent steps.

    ** Parameters

    The linker's [end] and [data] symbols, the address of the table of CPUs and of the division that can trap, the program images, the disk driver's [iderw] and its interrupt,
    the device table and the answer of [sbrk] in Umalloc are arguments, and so are the answers of the hardware (class [Hardware], with records of
    what a disk must do), the memory that mp.c searches, the interrupt vectors, and for mkfs.c the byte order of the
    build machine and the files.  The cache is proved for the memory disk of memide.c.

    ** Not modelled

    Kernel code of other CPUs running at the same time, except for the spin lock in Smp, sleep and wakeup in Wakeup and a CPU being started in Main: the other theorems are
    about one CPU that holds the locks it took, and what other processes do while it is switched away is any world.  Of the assembly, usys.S
    and the end of entryother.S are modelled; swtch.S is the outcome [Swtch], and a trap starts at [trap].  In usertests.c the tests mem, sbrktest,
    validatetest, uio and argptest, which use memory or ports at addresses of their own, are arguments of its [main].  main, fork, the
    reaping half of wait, the programs ln, rm, mkdir, kill, init and stressfs, the tests of usertests.c and the children of the scheduler's test programs are
    modelled without a theorem of their own. *)

From stdpp Require Import gmap strings list fin_maps.
From Stdlib Require Import ZArith Lia.
Open Scope Z_scope.

(** ** Record update *)

(** [x <| f := v |>] is the C assignment [x.f = v] on a copy of the struct
    [x].  The setter of a field is computed from the eta expansion of the
    record, so every struct declares one [Eta] instance and nothing else. *)
Class Eta (T : Type) := eta_expand : T -> T.

Class Setter {T A : Type} (proj : T -> A) := set_field : A -> T -> T.

Ltac derive_setter proj :=
  lazymatch type of proj with
  | ?T -> ?A =>
    let f := constr:(fun (v : A) (x : T) =>
      ltac:(let e := eval cbv beta delta [eta_expand] in (eta_expand x) in
            let e := eval hnf in e in
            let g := eval pattern (proj x) in e in
            lazymatch g with
            | ?h _ => let r := eval cbv beta in (h v) in exact r
            end)) in
    exact f
  end.

#[export] Hint Extern 1 (Setter ?p) => derive_setter p : typeclass_instances.

#[warnings="-postfix-notation-not-level-1"]
Notation "x <| f := v |>" := (set_field (proj := f) v x)
  (at level 12, left associativity, f at next level,
   format "x  <| f  :=  v |>").

(** ** C integers *)

(** [uint], [int], [ushort], [short] and [uchar] are integers kept in range by
    the wrap-around of the width; signed overflow wraps as it does on x86. *)
Definition u32 (z : Z) : Z := z mod 4294967296.
Definition s32 (z : Z) : Z := (z + 2147483648) mod 4294967296 - 2147483648.
Definition u16 (z : Z) : Z := z mod 65536.
Definition s16 (z : Z) : Z := (z + 32768) mod 65536 - 32768.
Definition u8 (z : Z) : Z := z mod 256.
Definition s8 (z : Z) : Z := (z + 128) mod 256 - 128.

Definition is_u32 (z : Z) : Prop := 0 <= z < 4294967296.
Definition is_s32 (z : Z) : Prop := -2147483648 <= z < 2147483648.
Definition is_u16 (z : Z) : Prop := 0 <= z < 65536.
Definition is_s16 (z : Z) : Prop := -32768 <= z < 32768.
Definition is_u8 (z : Z) : Prop := 0 <= z < 256.

Lemma u32_id z : is_u32 z -> u32 z = z.
Proof. unfold is_u32, u32. intros; apply Z.mod_small; lia. Qed.

Lemma s32_id z : is_s32 z -> s32 z = z.
Proof. unfold is_s32, s32. intros; rewrite Z.mod_small; lia. Qed.

Lemma u16_id z : is_u16 z -> u16 z = z.
Proof. unfold is_u16, u16. intros; apply Z.mod_small; lia. Qed.

Lemma s16_id z : is_s16 z -> s16 z = z.
Proof. unfold is_s16, s16. intros; rewrite Z.mod_small; lia. Qed.

Lemma u8_id z : is_u8 z -> u8 z = z.
Proof. unfold is_u8, u8. intros; apply Z.mod_small; lia. Qed.

Lemma u32_range z : is_u32 (u32 z).
Proof. unfold is_u32, u32. apply Z.mod_pos_bound; lia. Qed.

Lemma s32_u32 z : is_s32 z -> s32 (u32 z) = z.
Proof.
  unfold is_s32, s32, u32. intros Hz. rewrite Zplus_mod_idemp_l, Z.mod_small by lia. lia.
Qed.

Lemma s32_range z : is_s32 (s32 z).
Proof.
  unfold is_s32, s32.
  pose proof (Z.mod_pos_bound (z + 2147483648) 4294967296); lia.
Qed.

Lemma u8_range z : is_u8 (u8 z).
Proof. unfold is_u8, u8. apply Z.mod_pos_bound; lia. Qed.

(** ** Byte arrays *)

(** Kernel memory pages, disk blocks and user buffers are lists of bytes; an
    [uint] or [ushort] field inside one is read and written little endian. *)
Fixpoint le_Z (bs : list Z) : Z :=
  match bs with
  | [] => 0
  | b :: bs => b + 256 * le_Z bs
  end.

Fixpoint le_bytes (n : nat) (z : Z) : list Z :=
  match n with
  | O => []
  | S n => z mod 256 :: le_bytes n (z / 256)
  end.

(** [rd off n bs] is the [n] bytes at offset [off]; [wr off xs bs] stores [xs]
    there (a store that runs past the end is cut, which no caller does). *)
Definition rd (off n : nat) (bs : list Z) : list Z := take n (drop off bs).
Definition wr (off : nat) (xs bs : list Z) : list Z :=
  take off bs ++ take (length bs - off) xs ++ drop (off + length xs) bs.

Definition get32 (off : nat) (bs : list Z) : Z := le_Z (rd off 4 bs).
Definition put32 (off : nat) (z : Z) (bs : list Z) : list Z := wr off (le_bytes 4 z) bs.
Definition get16 (off : nat) (bs : list Z) : Z := le_Z (rd off 2 bs).
Definition put16 (off : nat) (z : Z) (bs : list Z) : list Z := wr off (le_bytes 2 z) bs.

Lemma length_le_bytes n z : length (le_bytes n z) = n.
Proof. revert z; induction n; intros z; simpl; auto. Qed.

Lemma le_Z_bytes n z : le_Z (le_bytes n z) = z mod 256 ^ Z.of_nat n.
Proof.
  revert z; induction n as [|n IH]; intros z.
  - simpl. rewrite Z.mod_1_r. done.
  - cbn [le_bytes le_Z]. rewrite IH, Nat2Z.inj_succ, Z.pow_succ_r by lia.
    rewrite Z.rem_mul_r by lia. lia.
Qed.

Lemma le_Z_range bs :
  Forall is_u8 bs -> 0 <= le_Z bs < 256 ^ Z.of_nat (length bs).
Proof.
  unfold is_u8. induction 1 as [|b bs Hb Hbs IH].
  - cbn; lia.
  - cbn [length le_Z]. rewrite Nat2Z.inj_succ, Z.pow_succ_r by lia. lia.
Qed.

Lemma le_bytes_u8 n z : Forall is_u8 (le_bytes n z).
Proof.
  unfold is_u8. revert z; induction n as [|n IH]; intros z; constructor; auto.
  pose proof (Z.mod_pos_bound z 256); lia.
Qed.

Lemma le_bytes_Z bs : Forall is_u8 bs -> le_bytes (length bs) (le_Z bs) = bs.
Proof.
  unfold is_u8. induction 1 as [|b bs Hb Hbs IH]; [done|].
  cbn [length le_Z le_bytes].
  replace (b + 256 * le_Z bs) with (b + le_Z bs * 256) by lia.
  rewrite Z.mod_add, Z.div_add, Z.mod_small, Z.div_small by lia.
  by rewrite Z.add_0_l, IH.
Qed.

Lemma length_wr off xs bs : length (wr off xs bs) = length bs.
Proof.
  unfold wr. rewrite !length_app, !length_take, length_drop. lia.
Qed.

Lemma length_rd off n bs : (off + n <= length bs)%nat -> length (rd off n bs) = n.
Proof. unfold rd. rewrite length_take, length_drop. lia. Qed.

Lemma length_put32 off z bs : length (put32 off z bs) = length bs.
Proof. apply length_wr. Qed.

Lemma length_put16 off z bs : length (put16 off z bs) = length bs.
Proof. apply length_wr. Qed.

Lemma rd_wr_same off xs bs :
  (off + length xs <= length bs)%nat -> rd off (length xs) (wr off xs bs) = xs.
Proof.
  intros H. unfold rd, wr.
  rewrite drop_app_length' by (rewrite length_take; lia).
  rewrite (take_ge xs) by lia. by rewrite take_app_length.
Qed.

Lemma lookup_wr off xs bs i :
  (off + length xs <= length bs)%nat ->
  wr off xs bs !! i =
    if decide (off <= i < off + length xs)%nat then xs !! (i - off)%nat else bs !! i.
Proof.
  intros H. unfold wr. rewrite (take_ge xs) by lia.
  case_decide as Hd.
  - rewrite lookup_app_r by (rewrite length_take; lia).
    rewrite length_take, Nat.min_l by lia.
    rewrite lookup_app_l by lia. done.
  - destruct (decide (i < off)%nat).
    + rewrite lookup_app_l by (rewrite length_take; lia).
      by rewrite lookup_take_lt.
    + rewrite lookup_app_r by (rewrite length_take; lia).
      rewrite length_take, Nat.min_l by lia.
      rewrite lookup_app_r by lia.
      rewrite lookup_drop. f_equal. lia.
Qed.

Lemma insert_wr i x bs : (i < length bs)%nat -> <[i := x]> bs = wr i [x] bs.
Proof.
  intros Hi. apply list_eq. intros j. rewrite lookup_wr by (cbn; lia). cbn [length]. case_decide as Hd.
  - assert (j = i) as -> by lia. rewrite list_lookup_insert_eq by done. by rewrite Nat.sub_diag.
  - by rewrite list_lookup_insert_ne by lia.
Qed.

Lemma rd_wr_disj off xs bs off' n :
  (off + length xs <= length bs)%nat ->
  (off' + n <= off \/ off + length xs <= off')%nat ->
  rd off' n (wr off xs bs) = rd off' n bs.
Proof.
  intros H Hd. unfold rd. apply list_eq. intros i.
  destruct (decide (i < n)%nat).
  - rewrite !lookup_take_lt, !lookup_drop, lookup_wr by lia.
    case_decide; [lia|done].
  - rewrite !lookup_take_ge by lia. done.
Qed.

Lemma get_put32 off z bs :
  (off + 4 <= length bs)%nat -> get32 off (put32 off z bs) = u32 z.
Proof.
  intros H. unfold get32, put32.
  change 4%nat with (length (le_bytes 4 z)).
  rewrite rd_wr_same by (rewrite length_le_bytes; done).
  rewrite le_Z_bytes. done.
Qed.

Lemma get_put32_ne off z bs off' :
  (off + 4 <= length bs)%nat -> (off' + 4 <= off \/ off + 4 <= off')%nat ->
  get32 off' (put32 off z bs) = get32 off' bs.
Proof.
  intros. unfold get32, put32. f_equal.
  apply rd_wr_disj; rewrite length_le_bytes; lia.
Qed.

Lemma get_put16 off z bs :
  (off + 2 <= length bs)%nat -> get16 off (put16 off z bs) = u16 z.
Proof.
  intros H. unfold get16, put16.
  change 2%nat with (length (le_bytes 2 z)).
  rewrite rd_wr_same by (rewrite length_le_bytes; done).
  rewrite le_Z_bytes. done.
Qed.

(** ** Scanning a table *)

(** [find_idx f l] is the index of the first element that satisfies [f]: the
    [for(p = tab; p < &tab[N]; p++) if(f(p)) goto found;] loops. *)
Fixpoint find_idx {A} (f : A -> bool) (l : list A) : option nat :=
  match l with
  | [] => None
  | x :: l => if f x then Some O else S <$> find_idx f l
  end.

Lemma find_idx_Some {A} (f : A -> bool) l i :
  find_idx f l = Some i <->
  (exists x, l !! i = Some x /\ f x = true) /\
  (forall j x, (j < i)%nat -> l !! j = Some x -> f x = false).
Proof.
  revert i; induction l as [|y l IH]; intros i; simpl.
  - split; [done|]. intros [(x & Hx & _) _]. done.
  - destruct (f y) eqn:Hy.
    + split.
      * intros [= <-]. split; [exists y; done|]. intros; lia.
      * intros [(x & Hx & Hf) Hmin]. destruct i as [|i]; [done|].
        specialize (Hmin O y ltac:(lia) eq_refl). congruence.
    + rewrite fmap_Some. split.
      * intros (j & Hj & ->). apply IH in Hj as [Hx Hmin]. split; [done|].
        intros [|j'] x ?; simpl; [congruence|]. intros; eapply Hmin; eauto; lia.
      * intros [(x & Hx & Hf) Hmin]. destruct i as [|i].
        { simpl in Hx; congruence. }
        exists i. split; [|done]. apply IH. split; [eauto|].
        intros j x' ? ?. apply (Hmin (S j) x'); [lia|done].
Qed.

Lemma find_idx_None {A} (f : A -> bool) l :
  find_idx f l = None <-> forall i x, l !! i = Some x -> f x = false.
Proof.
  induction l as [|y l IH]; simpl.
  - split; done.
  - destruct (f y) eqn:Hy.
    + split; [done|]. intros H. specialize (H O y eq_refl). congruence.
    + rewrite fmap_None, IH. split.
      * intros H [|i] x; simpl; [congruence|]. apply H.
      * intros H i x ?. apply (H (S i) x). done.
Qed.

Lemma find_idx_lt {A} (f : A -> bool) l i :
  find_idx f l = Some i -> (i < length l)%nat.
Proof.
  intros [(x & Hx & _) _]%find_idx_Some. by eapply lookup_lt_Some.
Qed.

(** ** Character codes *)

Definition chr (a : Ascii.ascii) : Z := Z.of_nat (Ascii.nat_of_ascii a).
Fixpoint str (s : string) : list Z :=
  match s with
  | EmptyString => []
  | String a s => chr a :: str s
  end.

Lemma str_app a b : str (a ++ b) = str a ++ str b.
Proof. induction a as [|c a IH]; [done|]. simpl. f_equal. exact IH. Qed.

(** The bytes of a C string in a character array. *)
Fixpoint cstr (bs : list Z) : list Z :=
  match bs with
  | [] => []
  | b :: bs => if b =? 0 then [] else b :: cstr bs
  end.

(** ** Automation shared by the component files *)

Create HintDb xv6.

#[export] Hint Resolve u32_range s32_range u8_range le_bytes_u8 : xv6.
#[export] Hint Rewrite @length_insert length_wr length_put32 length_put16
  @length_replicate length_le_bytes : xv6_len.

(** [len_lia] closes arithmetic goals about the lengths of updated arrays. *)
Ltac len_lia := autorewrite with xv6_len in *; simpl in *; lia.

Lemma find_idx_insert {A} (f : A -> bool) l i x y :
  l !! i = Some x -> f y = f x -> find_idx f (<[i := y]> l) = find_idx f l.
Proof.
  revert i; induction l as [|z l IH]; intros [|i] Hx Hf; simplify_eq/=; try done.
  - by rewrite Hf.
  - by rewrite IH.
Qed.

Lemma alter_is_insert {A} (f : A -> A) (l : list A) i x :
  l !! i = Some x -> alter f i l = <[i := f x]> l.
Proof.
  intros Hi. assert (i < length l)%nat by by eapply lookup_lt_Some.
  apply list_eq. intros j. rewrite list_lookup_alter.
  case_decide; subst; [by rewrite Hi, list_lookup_insert_eq|by rewrite list_lookup_insert_ne].
Qed.

Lemma alter_twice {A} (f g : A -> A) (l : list A) i x :
  l !! i = Some x -> alter f i (alter g i l) = <[i := f (g x)]> l.
Proof.
  intros Hi. rewrite (alter_is_insert g l i x Hi).
  rewrite (alter_is_insert f _ i (g x)) by (apply list_lookup_insert_eq; by eapply lookup_lt_Some).
  apply list_insert_insert_eq.
Qed.

Lemma alter_same {A} (f g : A -> A) (l : list A) i :
  alter f i (alter g i l) = alter (fun x => f (g x)) i l.
Proof. revert i; induction l as [|x l IH]; intros [|i]; cbn; [done..|]. f_equal. apply IH. Qed.
