(* ===== verification/Ring.v ===== *)
(** * Ring buffers with free-running counters

    Pipes and the console input keep bytes in an array indexed by 32-bit counters that only grow,
    modulo the size of the array.  [window N buf s n] is the list of the [n] bytes from counter [s] on; the
    lemmas say what storing at the end and advancing the start do to it, and that the
    wrap-around of the counters at 2^32 is never seen when the size divides it. *)

From S2P Require Import Prelude.
From stdpp Require Import list.
Open Scope Z_scope.

Definition window (N : Z) (buf : list Z) (s n : Z) : list Z :=
  (fun j => default 0 (buf !! Z.to_nat ((s + j) mod N))) <$> seqZ 0 n.

Section ring.
Context (N : Z) (Npos : 0 < N) (Ndiv : (N | 4294967296)).

Lemma u32_mod_ring z : u32 z mod N = z mod N.
Proof. unfold u32. by apply Z.mod_mod_divide. Qed.

Lemma ring_length buf s n : 0 <= n -> Z.of_nat (length (window N buf s n)) = n.
Proof. intros Hn. unfold window. rewrite length_fmap, length_seqZ. lia. Qed.

Lemma ring_nil buf s : window N buf s 0 = [].
Proof. done. Qed.

Lemma ring_start buf s s' n : s mod N = s' mod N -> window N buf s n = window N buf s' n.
Proof.
  intros Hs. apply list_fmap_ext. intros j x _. do 3 f_equal.
  rewrite <- (Zplus_mod_idemp_l s), <- (Zplus_mod_idemp_l s'). by rewrite Hs.
Qed.

Lemma ring_u32 buf s n : window N buf (u32 s) n = window N buf s n.
Proof. apply ring_start, u32_mod_ring. Qed.

Lemma ring_app buf s n n' : 0 <= n -> 0 <= n' -> window N buf s (n + n') = window N buf s n ++ window N buf (s + n) n'.
Proof.
  intros Hn Hn'. unfold window. rewrite seqZ_app, fmap_app by lia. f_equal.
  replace (0 + n) with (n + 0) by lia. rewrite <- (fmap_add_seqZ n 0), <- list_fmap_compose. apply list_fmap_ext.
  intros j x _. unfold compose. by rewrite Z.add_assoc.
Qed.

Lemma ring_one buf s : window N buf s 1 = [default 0 (buf !! Z.to_nat (s mod N))].
Proof. unfold window. rewrite seqZ_cons by lia. change (Z.pred 1) with 0. cbn. by rewrite Z.add_0_r. Qed.

Lemma ring_cons buf s n :
  0 < n -> window N buf s n = default 0 (buf !! Z.to_nat (s mod N)) :: window N buf (s + 1) (n - 1).
Proof. intros Hn. replace n with (1 + (n - 1)) at 1 by lia. rewrite ring_app, ring_one by lia. done. Qed.

(** A slot outside the bytes of the ring may be written. *)
Lemma ring_insert_out buf s n i c :
  0 <= n -> (forall j, 0 <= j < n -> Z.to_nat ((s + j) mod N) ≠ i) ->
  window N (<[i := c]> buf) s n = window N buf s n.
Proof.
  intros Hn Hi. apply list_fmap_ext. intros j x Hx. apply lookup_seqZ in Hx as [-> Hx].
  rewrite list_lookup_insert_ne; [done|]. intros ->. by apply (Hi (0 + Z.of_nat j)); [lia|].
Qed.

(** Storing past the last byte changes no byte. *)
Lemma ring_store_past buf s k n c :
  0 <= k <= n -> n < N -> window N (<[Z.to_nat ((s + n) mod N) := c]> buf) s k = window N buf s k.
Proof.
  intros Hk Hn. apply ring_insert_out; [lia|]. intros j Hj He.
  apply Z2Nat.inj in He; [|by apply Z.mod_pos_bound..].
  assert (Hd : (s + n - (s + j)) mod N = 0) by (rewrite Zminus_mod, He, Z.sub_diag; apply Zmod_0_l).
  replace (s + n - (s + j)) with (n - j) in Hd by lia. rewrite Z.mod_small in Hd; lia.
Qed.

Lemma ring_snoc buf s n c :
  Z.of_nat (length buf) = N -> 0 <= n < N ->
  window N (<[Z.to_nat ((s + n) mod N) := c]> buf) s (n + 1) = window N buf s n ++ [c].
Proof.
  intros Hl Hn. rewrite ring_app, ring_one by lia. rewrite ring_store_past by lia. f_equal.
  rewrite list_lookup_insert_eq; [done|]. pose proof (Z.mod_pos_bound (s + n) N). lia.
Qed.

End ring.

(** Two counters as a count of bytes. *)
Definition distance (r w : Z) : Z := u32 (w - r).

Lemma distance_range r w : 0 <= distance r w < 4294967296.
Proof. apply u32_range. Qed.

Lemma distance_add r w : is_u32 w -> w = u32 (r + distance r w).
Proof.
  intros Hw. unfold distance, u32. rewrite Zplus_mod_idemp_r.
  replace (r + (w - r)) with w by lia. symmetry. by apply u32_id.
Qed.

Lemma distance_0 r w : is_u32 r -> is_u32 w -> (r =? w) = (distance r w =? 0).
Proof.
  unfold distance, u32, is_u32. intros Hr Hw. apply Bool.eq_iff_eq_true. rewrite !Z.eqb_eq. split.
  - intros ->. by rewrite Z.sub_diag.
  - intros H0. Z.div_mod_to_equations. lia.
Qed.

(** The counter [r + n] is reached exactly when [n] bytes are between the two. *)
Lemma distance_full r w n : is_u32 r -> is_u32 w -> 0 <= n < 4294967296 -> (w =? u32 (r + n)) = (distance r w =? n).
Proof.
  intros Hr Hw Hn. apply Bool.eq_iff_eq_true. rewrite !Z.eqb_eq. pose proof (distance_range r w) as Hd.
  pose proof (distance_add r w Hw) as Ha. unfold is_u32, u32 in *. split.
  - intros He. remember (distance r w) as d eqn:Hq. clear Hq. Z.div_mod_to_equations. lia.
  - intros <-. exact Ha.
Qed.

Lemma distance_push r w : is_u32 r -> is_u32 w -> distance r w < 4294967295 -> distance r (u32 (w + 1)) = distance r w + 1.
Proof. unfold distance, u32, is_u32. intros Hr Hw Hd. Z.div_mod_to_equations. lia. Qed.

Lemma distance_unpush r w : is_u32 r -> is_u32 w -> 0 < distance r w -> distance r (u32 (w - 1)) = distance r w - 1.
Proof. unfold distance, u32, is_u32. intros Hr Hw Hd. Z.div_mod_to_equations. lia. Qed.

Lemma distance_pop r w : is_u32 r -> is_u32 w -> 0 < distance r w -> distance (u32 (r + 1)) w = distance r w - 1.
Proof. unfold distance, u32, is_u32. intros Hr Hw Hd. Z.div_mod_to_equations. lia. Qed.
