(* ===== verification/Kstate.v ===== *)
(** * Kernel state and the kernel monad

    The data of [proc.h], [spinlock.h], [x86.h] and the constants of
    [param.h], the segment descriptors of [mmu.h], the state a CPU sees while it runs kernel code, and the monad
    in which every kernel function of the library is written. *)

From S2P Require Import Prelude.
From stdpp Require Import gmap strings list fin_maps.
Open Scope Z_scope.

(** ** Constants of param.h *)

Definition NPROC : nat := 64.
Definition KSTACKSIZE : Z := 4096.
Definition NCPU : nat := 8.
Definition NOFILE : nat := 16.
Definition NFILE : nat := 100.
Definition NINODE : nat := 50.
Definition NDEV : Z := 10.
Definition ROOTDEV : Z := 1.
Definition MAXARG : nat := 32.
Definition MAXOPBLOCKS : Z := 10.
Definition LOGSIZE : Z := MAXOPBLOCKS * 3.
Definition NBUF : nat := 30.
Definition FSSIZE : Z := 1000.

(** ** Constants and macros of memlayout.h and mmu.h *)

Definition EXTMEM : Z := 0x100000.
Definition PHYSTOP : Z := 0xE000000.
Definition DEVSPACE : Z := 0xFE000000.
Definition KERNBASE : Z := 0x80000000.
Definition KERNLINK : Z := KERNBASE + EXTMEM.
Definition V2P (a : Z) : Z := u32 (a - KERNBASE).
Definition P2V (a : Z) : Z := u32 (a + KERNBASE).
Definition PGSIZE : Z := 4096.
Definition PGROUNDUP (sz : Z) : Z := Z.land (u32 (sz + PGSIZE - 1)) (Z.lnot (PGSIZE - 1)).
Definition PGROUNDDOWN (a : Z) : Z := Z.land a (Z.lnot (PGSIZE - 1)).

Lemma PGROUNDDOWN_spec a : PGROUNDDOWN a = a - a mod PGSIZE.
Proof.
  unfold PGROUNDDOWN, PGSIZE. rewrite <- Z.ldiff_land. change (4096 - 1) with (Z.ones 12).
  rewrite Z.ldiff_ones_r, Z.shiftl_mul_pow2, Z.shiftr_div_pow2 by lia. change (2 ^ 12) with 4096.
  pose proof (Z.div_mod a 4096). lia.
Qed.

Lemma PGROUNDUP_spec a :
  0 <= a -> a + PGSIZE <= 4294967296 ->
  PGROUNDUP a mod PGSIZE = 0 /\ a <= PGROUNDUP a < a + PGSIZE.
Proof.
  intros Ha Hb. unfold PGROUNDUP. rewrite u32_id by (unfold is_u32, PGSIZE in *; lia).
  fold (PGROUNDDOWN (a + PGSIZE - 1)). rewrite PGROUNDDOWN_spec. unfold PGSIZE in *.
  pose proof (Z.div_mod (a + 4096 - 1) 4096). pose proof (Z.mod_pos_bound (a + 4096 - 1) 4096).
  split; [|lia]. replace (a + 4096 - 1 - (a + 4096 - 1) mod 4096) with ((a + 4096 - 1) / 4096 * 4096) by lia.
  apply Z.mod_mul. lia.
Qed.

Definition FL_IF : Z := 0x200.
Definition SEG_KCODE : Z := 1.
Definition SEG_KDATA : Z := 2.
Definition SEG_UCODE : Z := 3.
Definition SEG_UDATA : Z := 4.
Definition SEG_TSS : Z := 5.
Definition DPL_USER : Z := 3.

(** ** mmu.h: segment descriptors and the task state segment *)

(** A structure of bit-fields, given by widths and values from the least significant on: each value is cut to its width. *)
Definition pack (fs : list (Z * Z)) : Z := foldr (fun f acc => f.2 mod 2 ^ f.1 + 2 ^ f.1 * acc) 0 fs.

Definition NSEGS : nat := 6.
Definition STA_X : Z := 0x8.
Definition STA_W : Z := 0x2.
Definition STA_R : Z := 0x2.
Definition STS_T32A : Z := 0x9.
Definition STS_IG32 : Z := 0xE.
Definition STS_TG32 : Z := 0xF.

Record segdesc := mkSeg {
  lim_15_0 : Z; base_15_0 : Z; base_23_16 : Z; sd_type : Z; sd_s : Z; sd_dpl : Z; sd_p : Z;
  lim_19_16 : Z; sd_avl : Z; sd_rsv1 : Z; sd_db : Z; sd_g : Z; base_31_24 : Z;
}.
Definition seg_word (d : segdesc) : Z :=
  pack [(16, lim_15_0 d); (16, base_15_0 d); (8, base_23_16 d); (4, sd_type d); (1, sd_s d); (2, sd_dpl d); (1, sd_p d);
        (4, lim_19_16 d); (1, sd_avl d); (1, sd_rsv1 d); (1, sd_db d); (1, sd_g d); (8, base_31_24 d)].

Definition SEG (type base lim dpl : Z) : segdesc :=
  mkSeg (Z.land (Z.shiftr lim 12) 0xffff) (Z.land (u32 base) 0xffff) (Z.land (Z.shiftr (u32 base) 16) 0xff) type 1 dpl 1
    (Z.shiftr (u32 lim) 28) 0 0 1 1 (Z.shiftr (u32 base) 24).
Definition SEG16 (type base lim dpl : Z) : segdesc :=
  mkSeg (Z.land lim 0xffff) (Z.land (u32 base) 0xffff) (Z.land (Z.shiftr (u32 base) 16) 0xff) type 1 dpl 1
    (Z.shiftr (u32 lim) 16) 0 0 1 0 (Z.shiftr (u32 base) 24).

Definition seg_zero : segdesc := mkSeg 0 0 0 0 0 0 0 0 0 0 0 0 0.

(** The sizes of the fields of [struct taskstate]: the previous task, three stacks, the registers, the segment selectors with their
    padding, the trap flag and the I/O map base. *)
Definition taskstate : list Z :=
  [4] ++ [4; 2; 2] ++ [4; 2; 2] ++ [4; 2; 2] ++ replicate 11 4 ++ replicate 14 2 ++ [2; 2].
Definition sizeof_taskstate : Z := foldr Z.add 0 taskstate.

(** The descriptor that [switchuvm] puts in the table, for the task state at the address [ts]. *)
Definition tss_desc (ts : Z) : segdesc :=
  let d := SEG16 STS_T32A ts (sizeof_taskstate - 1) 0 in
  mkSeg (lim_15_0 d) (base_15_0 d) (base_23_16 d) (sd_type d) 0 (sd_dpl d) (sd_p d) (lim_19_16 d) (sd_avl d) (sd_rsv1 d)
    (sd_db d) (sd_g d) (base_31_24 d).

(** ** Identities of locks and sleep channels *)

(** A spin lock is known by the object that contains it, a sleep channel by the
    address handed to [sleep]; both are addresses of distinct C objects. *)
Inductive slid := SLbuf (i : nat) | SLinode (i : nat).

Inductive lockid :=
| Lptable | Ltickslock | Lkmem | Lcons | Lide | Lbcache | Llog | Licache | Lftable
| Lsleep (s : slid)
| Lpipe (a : Z).

Inductive chan :=
| Cproc (i : nat)          (* a struct proc *)
| Cticks                   (* &ticks *)
| Csleep (s : slid)        (* a struct sleeplock *)
| Cbuf (i : nat)           (* a struct buf *)
| Clog                     (* &log *)
| Cpiper (a : Z)           (* &p->nread *)
| Cpipew (a : Z)           (* &p->nwrite *)
| Cinput.                  (* &input.r *)

#[export] Instance slid_eq_dec : EqDecision slid.
Proof. solve_decision. Defined.
#[export] Instance lockid_eq_dec : EqDecision lockid.
Proof. solve_decision. Defined.
#[export] Instance chan_eq_dec : EqDecision chan.
Proof. solve_decision. Defined.

Definition lockid_code (l : lockid) : nat * Z :=
  match l with
  | Lptable => (0%nat, 0) | Ltickslock => (1%nat, 0) | Lkmem => (2%nat, 0)
  | Lcons => (3%nat, 0) | Lide => (4%nat, 0) | Lbcache => (5%nat, 0)
  | Llog => (6%nat, 0) | Licache => (7%nat, 0) | Lftable => (8%nat, 0)
  | Lsleep (SLbuf i) => (9%nat, Z.of_nat i)
  | Lsleep (SLinode i) => (10%nat, Z.of_nat i)
  | Lpipe a => (11%nat, a)
  end.

Definition lockid_decode (c : nat * Z) : option lockid :=
  match c with
  | (0%nat, _) => Some Lptable | (1%nat, _) => Some Ltickslock | (2%nat, _) => Some Lkmem
  | (3%nat, _) => Some Lcons | (4%nat, _) => Some Lide | (5%nat, _) => Some Lbcache
  | (6%nat, _) => Some Llog | (7%nat, _) => Some Licache | (8%nat, _) => Some Lftable
  | (9%nat, i) => Some (Lsleep (SLbuf (Z.to_nat i)))
  | (10%nat, i) => Some (Lsleep (SLinode (Z.to_nat i)))
  | (_, a) => Some (Lpipe a)
  end.

#[export] Instance lockid_countable : Countable lockid.
Proof.
  refine (inj_countable lockid_code lockid_decode _).
  intros [| | | | | | | | | [i|i] | a]; simpl; rewrite ?Nat2Z.id; done.
Defined.

(** ** spinlock.h *)

(** [pcs], the debugging copy of the call stack, is not kept. *)
Record spinlock := mkSpinlock {
  locked : Z;
  lk_name : string;
  lk_cpu : option nat;   (* index into cpus[], None for the null pointer *)
}.
#[export] Instance eta_spinlock : Eta spinlock := fun l =>
  mkSpinlock (locked l) (lk_name l) (lk_cpu l).

(** ** proc.h: struct cpu *)

(** Of the task state segment the fields that [switchuvm] writes are kept; the scheduler's
    saved context is not: it is the continuation of the outcome [Swtch]. *)
Record cpu := mkCpu {
  apicid : Z;
  started : Z;
  ncli : Z;
  intena : bool;
  c_proc : option nat;   (* index into ptable.proc[] *)
  ts_esp0 : Z;
  ts_ss0 : Z;
  ts_iomb : Z;
  c_gdt : list segdesc;
}.
#[export] Instance eta_cpu : Eta cpu := fun c =>
  mkCpu (apicid c) (started c) (ncli c) (intena c) (c_proc c)
    (ts_esp0 c) (ts_ss0 c) (ts_iomb c) (c_gdt c).

(** The addresses in the kernel image that the code can see: of [cpus], and of the instruction that divides in [sched_policy]. *)
Record kimage := mkImage { im_cpus : Z; im_idiv : Z }.

(** The machine as the executing CPU sees it: its own registers (the APIC id
    the local APIC reports, the FL_IF bit of eflags, cr3, the task register, cr2), the addresses the linker gave
    to the kernel, and the memory shared by all CPUs ([cpus[0..ncpu)] and the locks). *)
Record machine := mkMachine {
  lapic_id : Z;
  fl_if : bool;
  cr3 : Z;
  tr : Z;
  cr2 : Z;
  m_image : kimage;
  cpus : list cpu;
  locks : gmap lockid spinlock;
}.
#[export] Instance eta_machine : Eta machine := fun m =>
  mkMachine (lapic_id m) (fl_if m) (cr3 m) (tr m) (cr2 m) (m_image m) (cpus m) (locks m).

(** [sizeof(struct cpu)] and [&cpus[k].ts]: the task state follows [apicid], with its padding, and [scheduler]; after it come the
    descriptor table and four words. *)
Definition sizeof_cpu : Z := 8 + sizeof_taskstate + 8 * Z.of_nat NSEGS + 16.
Definition ts_addr (m : machine) (k : nat) : Z := u32 (im_cpus (m_image m) + sizeof_cpu * Z.of_nat k + 8).

(** ** x86.h: struct trapframe; proc.h: struct context *)

Record trapframe := mkTf {
  tf_edi : Z; tf_esi : Z; tf_ebp : Z; tf_oesp : Z; tf_ebx : Z; tf_edx : Z;
  tf_ecx : Z; tf_eax : Z; tf_gs : Z; tf_fs : Z; tf_es : Z; tf_ds : Z;
  tf_trapno : Z; tf_err : Z; tf_eip : Z; tf_cs : Z; tf_eflags : Z;
  tf_esp : Z; tf_ss : Z;
}.
#[export] Instance eta_trapframe : Eta trapframe := fun t =>
  mkTf (tf_edi t) (tf_esi t) (tf_ebp t) (tf_oesp t) (tf_ebx t) (tf_edx t)
    (tf_ecx t) (tf_eax t) (tf_gs t) (tf_fs t) (tf_es t) (tf_ds t)
    (tf_trapno t) (tf_err t) (tf_eip t) (tf_cs t) (tf_eflags t)
    (tf_esp t) (tf_ss t).
Definition tf_zero : trapframe := mkTf 0 0 0 0 0 0 0 0 0 0 0 0 0 0 0 0 0 0 0.
Definition sizeof_trapframe : Z := 76.

Record context := mkCtx {
  ctx_edi : Z; ctx_esi : Z; ctx_ebx : Z; ctx_ebp : Z; ctx_eip : Z;
}.
#[export] Instance eta_context : Eta context := fun c =>
  mkCtx (ctx_edi c) (ctx_esi c) (ctx_ebx c) (ctx_ebp c) (ctx_eip c).
Definition ctx_zero : context := mkCtx 0 0 0 0 0.
Definition sizeof_context : Z := 20.

(** ** proc.h: struct proc *)

Inductive procstate := UNUSED | EMBRYO | SLEEPING | RUNNABLE | RUNNING | ZOMBIE.
#[export] Instance procstate_eq_dec : EqDecision procstate.
Proof. solve_decision. Defined.

(** [p_tf] and [p_context] are the addresses stored in [p->tf] and
    [p->context]; [p_tfv], [p_ctxv] and [p_ret] are the words they point to on
    the process's kernel stack (the trap frame, the saved context and the
    return address between them). *)
Record proc := mkProc {
  p_sz : Z;
  p_pgdir : Z;
  p_kstack : Z;
  p_state : procstate;
  p_pid : Z;
  p_parent : option nat;
  p_tf : Z;
  p_tfv : trapframe;
  p_ret : Z;
  p_context : Z;
  p_ctxv : context;
  p_chan : option chan;
  p_killed : Z;
  p_ofile : list (option nat);
  p_cwd : option nat;
  p_name : list Z;
  p_priority : Z;
  p_deadline : Z;
  p_sched_policy : Z;
  p_execution_time : Z;
  p_elapsed_time : Z;
  p_arrival_time : Z;
  p_rate : Z;
}.
#[export] Instance eta_proc : Eta proc := fun p =>
  mkProc (p_sz p) (p_pgdir p) (p_kstack p) (p_state p) (p_pid p) (p_parent p)
    (p_tf p) (p_tfv p) (p_ret p) (p_context p) (p_ctxv p) (p_chan p) (p_killed p)
    (p_ofile p) (p_cwd p) (p_name p) (p_priority p) (p_deadline p)
    (p_sched_policy p) (p_execution_time p) (p_elapsed_time p)
    (p_arrival_time p) (p_rate p).

(** A slot of the zero-initialised process table. *)
Definition proc_zero : proc :=
  mkProc 0 0 0 UNUSED 0 None 0 tf_zero 0 0 ctx_zero None 0
    (replicate NOFILE None) None (replicate 16 0) 0 0 0 0 0 0 0.

(** The global variables of proc.c and trap.c, and [kpgdir] of vm.c. *)
Record procs := mkProcs {
  ptable : list proc;
  initproc : option nat;
  utf_edf : Z;
  utf_rm : Z;
  nextpid : Z;
  first : Z;       (* the static variable of forkret *)
  ticks : Z;
  kpgdir : Z;
}.
#[export] Instance eta_procs : Eta procs := fun p =>
  mkProcs (ptable p) (initproc p) (utf_edf p) (utf_rm p) (nextpid p) (first p) (ticks p) (kpgdir p).

(** The console device: [cons.locking] and [panicked] of console.c, the serial
    port's presence and output, and the CGA text memory with its cursor. *)
Record console := mkConsole {
  cons_locking : bool;
  panicked : bool;
  uart : bool;
  uart_out : list Z;
  crt : list Z;
  crt_pos : Z;
}.
#[export] Instance eta_console : Eta console := fun c =>
  mkConsole (cons_locking c) (panicked c) (uart c) (uart_out c) (crt c) (crt_pos c).

(** ** The kernel monad *)

(** The world in which a kernel function runs: the machine, the console, the
    process table and the state [S] of the component the function belongs to. *)
Record world (S : Type) := W {
  w_m : machine;
  w_c : console;
  w_p : procs;
  w_s : S;
}.
Arguments W {S}.
Arguments w_m {S}.
Arguments w_c {S}.
Arguments w_p {S}.
Arguments w_s {S}.

(** The outcome of a kernel function.
    - [Ret a w]: it returned [a];
    - [Panic msg w]: it called [panic(msg)], which freezes the machine;
    - [Swtch w k]: it called [swtch]: the CPU now runs something else, and when
      it is switched back in world [w'] the function goes on as [k w'];
    - [Undef w]: it read an object that is not there (a null or wild pointer);
    - [Hang w]: a busy loop did not end within its fuel. *)
Inductive res (S A : Type) : Type :=
| Ret (a : A) (w : world S)
| Panic (msg : string) (w : world S)
| Swtch (w : world S) (k : world S -> res S A)
| Undef (w : world S)
| Hang (w : world S).
Arguments Ret {S A}.
Arguments Panic {S A}.
Arguments Swtch {S A}.
Arguments Undef {S A}.
Arguments Hang {S A}.

Definition M (S A : Type) : Type := world S -> res S A.

Fixpoint bind_res {S A B} (r : res S A) (f : A -> M S B) : res S B :=
  match r with
  | Ret a w => f a w
  | Panic msg w => Panic msg w
  | Swtch w k => Swtch w (fun w' => bind_res (k w') f)
  | Undef w => Undef w
  | Hang w => Hang w
  end.

Definition ret {S A} (a : A) : M S A := fun w => Ret a w.
Definition bind {S A B} (m : M S A) (f : A -> M S B) : M S B :=
  fun w => bind_res (m w) f.

Declare Scope kernel_scope.
Delimit Scope kernel_scope with kernel.
Open Scope kernel_scope.

Notation "'let!' x := c 'in' d" := (bind c (fun x => d))
  (at level 10, x name, d at level 200) : kernel_scope.
Notation "'let!' ' p := c 'in' d" := (bind c (fun x => match x with p => d end))
  (at level 10, p pattern, d at level 200) : kernel_scope.
Notation "c ;;; d" := (bind c (fun _ => d))
  (at level 199, d at level 200, right associativity) : kernel_scope.

(** Primitive operations. *)
Definition panic {S A} (msg : string) : M S A := fun w => Panic msg w.
Definition undef {S A} : M S A := fun w => Undef w.
Definition hang {S A} : M S A := fun w => Hang w.
Definition swtch {S} : M S unit := fun w => Swtch w (fun w' => Ret tt w').

Definition get_m {S} : M S machine := fun w => Ret (w_m w) w.
Definition get_c {S} : M S console := fun w => Ret (w_c w) w.
Definition get_p {S} : M S procs := fun w => Ret (w_p w) w.
Definition get_s {S} : M S S := fun w => Ret (w_s w) w.
Definition put_m {S} (m : machine) : M S unit := fun w => Ret tt (W m (w_c w) (w_p w) (w_s w)).
Definition put_c {S} (c : console) : M S unit := fun w => Ret tt (W (w_m w) c (w_p w) (w_s w)).
Definition put_p {S} (p : procs) : M S unit := fun w => Ret tt (W (w_m w) (w_c w) p (w_s w)).
Definition put_s {S} (s : S) : M S unit := fun w => Ret tt (W (w_m w) (w_c w) (w_p w) s).
Definition upd_p {S} (f : procs -> procs) : M S unit :=
  fun w => Ret tt (W (w_m w) (w_c w) (f (w_p w)) (w_s w)).
Definition upd_s {S} (f : S -> S) : M S unit :=
  fun w => Ret tt (W (w_m w) (w_c w) (w_p w) (f (w_s w))).

(** [when b m] is [if(b) m;]. *)
Definition when {S} (b : bool) (m : M S unit) : M S unit := if b then m else ret tt.

(** [deref o] follows a pointer that must not be null. *)
Definition deref {S A} (o : option A) : M S A :=
  match o with Some a => ret a | None => undef end.

(** [loop fuel body] runs [body] until it returns [Some]; [while(1)] loops and
    [while(c)] loops are written with it. *)
Fixpoint loop {S A B} (fuel : nat) (body : A -> M S (A + B)) (a : A) : M S B :=
  match fuel with
  | O => hang
  | S fuel =>
      let! r := body a in
      match r with inl a' => loop fuel body a' | inr b => ret b end
  end.

(** [for_list l body]: run [body] on every element of [l] in order. *)
Fixpoint for_list {S A} (l : list A) (body : A -> M S unit) : M S unit :=
  match l with
  | [] => ret tt
  | x :: l => body x ;;; for_list l body
  end.

(** A component that is part of a larger one: reading and writing it. *)
Record lens (T S : Type) := mkLens {
  lget : T -> S;
  lset : S -> T -> T;
}.
Arguments lget {T S}.
Arguments lset {T S}.

Definition in_world {T S} (t : T) (l : lens T S) (w : world S) : world T :=
  W (w_m w) (w_c w) (w_p w) (lset l (w_s w) t).
Definition out_world {T S} (l : lens T S) (w : world T) : world S :=
  W (w_m w) (w_c w) (w_p w) (lget l (w_s w)).

Fixpoint zoom_res {T S A} (l : lens T S) (t : T) (r : res S A) : res T A :=
  match r with
  | Ret a w => Ret a (in_world t l w)
  | Panic msg w => Panic msg (in_world t l w)
  | Swtch w k =>
      Swtch (in_world t l w) (fun w' => zoom_res l (w_s w') (k (out_world l w')))
  | Undef w => Undef (in_world t l w)
  | Hang w => Hang (in_world t l w)
  end.

(** [zoom l m] runs a function of a component inside a larger state. *)
Definition zoom {T S A} (l : lens T S) (m : M S A) : M T A :=
  fun w => zoom_res l (w_s w) (m (out_world l w)).

(** ** Total correctness *)

(** [wp m Q w]: from world [w], [m] returns (without panic, hang, undefined
    behaviour or giving up the CPU), and its result and final world satisfy [Q]. *)
Definition wp_res {S A} (r : res S A) (Q : A -> world S -> Prop) : Prop :=
  match r with Ret a w => Q a w | _ => False end.
Definition wp {S A} (m : M S A) (Q : A -> world S -> Prop) (w : world S) : Prop :=
  wp_res (m w) Q.

Lemma wp_ret {S A} (a : A) (Q : A -> world S -> Prop) w : Q a w -> wp (ret a) Q w.
Proof. done. Qed.

Lemma wp_bind {S A B} (m : M S A) (f : A -> M S B) Q w :
  wp m (fun a w' => wp (f a) Q w') w -> wp (bind m f) Q w.
Proof. unfold wp, bind. destruct (m w); simpl; done. Qed.

Lemma wp_bind_inv {S A B} (m : M S A) (f : A -> M S B) Q w :
  wp (bind m f) Q w -> wp m (fun a w' => wp (f a) Q w') w.
Proof. unfold wp, bind. destruct (m w); simpl; done. Qed.

Lemma wp_mono {S A} (m : M S A) (Q Q' : A -> world S -> Prop) w :
  wp m Q w -> (forall a w', Q a w' -> Q' a w') -> wp m Q' w.
Proof. unfold wp. destruct (m w); simpl; auto. Qed.

Lemma wp_eq {S A} (m : M S A) (Q : A -> world S -> Prop) w a w' :
  m w = Ret a w' -> Q a w' -> wp m Q w.
Proof. unfold wp. by intros ->. Qed.

Lemma wp_run {S A} (m : M S A) (Q : A -> world S -> Prop) w :
  wp m Q w <-> exists a w', m w = Ret a w' /\ Q a w'.
Proof.
  unfold wp. destruct (m w); simpl; split; try done; try (by intros (?&?&?&?)).
  - eauto.
  - intros (?&?&[= <- <-]&?); done.
Qed.

Lemma wp_elim {S A} (m : M S A) (Q : A -> world S -> Prop) w :
  wp m Q w -> exists a w', m w = Ret a w' /\ Q a w'.
Proof. apply wp_run. Qed.

Lemma wp_zoom {T S A} (l : lens T S) (m : M S A) Q (w : world T) :
  wp m (fun a w' => Q a (in_world (w_s w) l w')) (out_world l w) -> wp (zoom l m) Q w.
Proof. unfold wp, zoom. destruct (m (out_world l w)); simpl; done. Qed.

Lemma wp_for_list {S A} (I : list A -> world S -> Prop) (body : A -> M S unit)
    (Q : unit -> world S -> Prop) l w :
  I l w ->
  (forall x l' w', I (x :: l') w' -> wp (body x) (fun _ w'' => I l' w'') w') ->
  (forall w', I [] w' -> Q tt w') ->
  wp (for_list l body) Q w.
Proof.
  intros HI Hbody HQ. revert w HI. induction l as [|x l IH]; intros w HI; simpl.
  - apply wp_ret. auto.
  - apply wp_bind. eapply wp_mono; [by apply Hbody|]. auto.
Qed.

(** ** Running functions that give up the CPU *)

(** [bind] followed by its continuation, on each outcome. *)
Lemma bind_Ret {S A B} (m : M S A) (f : A -> M S B) w a w' :
  m w = Ret a w' -> bind m f w = f a w'.
Proof. unfold bind. by intros ->. Qed.

Lemma bind_Panic {S A B} (m : M S A) (f : A -> M S B) w msg w' :
  m w = Panic msg w' -> bind m f w = Panic msg w'.
Proof. unfold bind. by intros ->. Qed.

Lemma bind_Swtch {S A B} (m : M S A) (f : A -> M S B) w w' k :
  m w = Swtch w' k -> bind m f w = Swtch w' (fun w2 => bind_res (k w2) f).
Proof. unfold bind. by intros ->. Qed.

(** A loop whose turn gives up the CPU goes on with the next turn. *)
Lemma loop_Swtch {S A B} n (f : A -> M S (A + B)) a w w1 k :
  f a w = Swtch w1 k ->
  loop (Datatypes.S n) f a w =
  Swtch w1 (fun w2 => bind_res (k w2) (fun r => match r with inl a' => loop n f a' | inr b => ret b end)).
Proof. intros Hf. cbn [loop]. by apply bind_Swtch. Qed.
