(* ===== verification/Spinlock.v ===== *)
(** * Spin locks and the current CPU (spinlock.c, mycpu and myproc of proc.c)

    The functions are written over the machine of [Kstate]; the library then
    never looks inside a lock again: [held m H] is the machine [m] in which this
    CPU holds exactly the locks of the list [H], and [acquire] and [release]
    move between such machines.  The theorems are about one CPU; [Smp] runs
    the same functions on several. *)

From S2P Require Import Prelude Kstate.
From stdpp Require Import gmap strings list fin_maps.
From Stdlib Require Import Ascii.
Open Scope Z_scope.

Definition nl : string := String "010"%char EmptyString.

Section spinlock_c.
Context {S : Type}.

(** x86.h: the FL_IF bit of [readeflags], [cli], [sti]; lapic.c: [lapicid]. *)
Definition readeflags_if : M S bool := let! m := get_m in ret (fl_if m).
Definition cli : M S unit := let! m := get_m in put_m (m <| fl_if := false |>).
Definition sti : M S unit := let! m := get_m in put_m (m <| fl_if := true |>).
Definition lapicid : M S Z := let! m := get_m in ret (lapic_id m).

(** The cpu whose [apicid] is the one the local APIC reports. *)
Definition my_cpu (m : machine) : option nat :=
  find_idx (fun c => apicid c =? lapic_id m) (cpus m).

Definition mycpu : M S nat :=
  let! intr := readeflags_if in
  if intr then panic ("mycpu called with interrupts enabled" ++ nl)
  else
    let! id := lapicid in
    let! m := get_m in
    match find_idx (fun c => apicid c =? id) (cpus m) with
    | Some i => ret i
    | None => panic ("unknown apicid" ++ nl)
    end.

Definition cpuid : M S Z := let! i := mycpu in ret (Z.of_nat i).

(** [cpus[i]], read and written. *)
Definition cpu_at (i : nat) : M S cpu := let! m := get_m in deref (cpus m !! i).
Definition set_cpu (i : nat) (c : cpu) : M S unit :=
  let! m := get_m in put_m (m <| cpus := <[i := c]> (cpus m) |>).

Definition pushcli : M S unit :=
  let! eflags := readeflags_if in
  cli ;;;
  let! i := mycpu in
  let! c := cpu_at i in
  when (ncli c =? 0) (set_cpu i (c <| intena := eflags |>)) ;;;
  let! i := mycpu in
  let! c := cpu_at i in
  set_cpu i (c <| ncli := ncli c + 1 |>).

Definition popcli : M S unit :=
  let! intr := readeflags_if in
  if intr then panic "popcli - interruptible"
  else
    let! i := mycpu in
    let! c := cpu_at i in
    set_cpu i (c <| ncli := ncli c - 1 |>) ;;;
    if ncli c - 1 <? 0 then panic "popcli"
    else
      let! i := mycpu in
      let! c := cpu_at i in
      when ((ncli c =? 0) && intena c) sti.

(** A lock that was never initialised is zero-filled memory. *)
Definition lock_zero : spinlock := mkSpinlock 0 EmptyString None.
Definition lock_of (m : machine) (lk : lockid) : spinlock := default lock_zero (locks m !! lk).
Definition set_lock (lk : lockid) (l : spinlock) : M S unit :=
  let! m := get_m in put_m (m <| locks := <[lk := l]> (locks m) |>).

Definition initlock (lk : lockid) (name : string) : M S unit :=
  set_lock lk (mkSpinlock 0 name None).

Definition holding (lk : lockid) : M S bool :=
  pushcli ;;;
  let! m := get_m in
  let! i := mycpu in
  let r := negb (locked (lock_of m lk) =? 0) && bool_decide (lk_cpu (lock_of m lk) = Some i) in
  popcli ;;;
  ret r.

(** x86.h: the atomic exchange on [lk->locked]. *)
Definition xchg_locked (lk : lockid) (new : Z) : M S Z :=
  let! m := get_m in
  set_lock lk (lock_of m lk <| locked := new |>) ;;;
  ret (locked (lock_of m lk)).

(** [acquire] in three parts: up to the exchange, one turn of the spin loop, and
    after it.  On one CPU nothing changes the lock while it spins, so the
    loop that did not get the lock at once never does. *)
Definition acquire_enter (lk : lockid) : M S unit :=
  pushcli ;;;
  let! h := holding lk in
  if h then panic "acquire" else ret tt.

Definition acquire_spin (lk : lockid) : M S bool :=
  let! old := xchg_locked lk 1 in ret (old =? 0).

Definition acquire_done (lk : lockid) : M S unit :=
  let! i := mycpu in
  let! m := get_m in
  set_lock lk (lock_of m lk <| lk_cpu := Some i |>).

Definition acquire (lk : lockid) : M S unit :=
  acquire_enter lk ;;;
  let! got := acquire_spin lk in
  if got then acquire_done lk else hang.

(** [release] up to and from the store that frees the lock. *)
Definition release_enter (lk : lockid) : M S unit :=
  let! h := holding lk in
  if negb h then panic "release"
  else
    let! m := get_m in
    set_lock lk (lock_of m lk <| lk_cpu := None |>).

Definition release_store (lk : lockid) : M S unit :=
  let! m := get_m in
  set_lock lk (lock_of m lk <| locked := 0 |>) ;;;
  popcli.

Definition release (lk : lockid) : M S unit := release_enter lk ;;; release_store lk.

Definition myproc : M S (option nat) :=
  pushcli ;;;
  let! i := mycpu in
  let! c := cpu_at i in
  popcli ;;;
  ret (c_proc c).

End spinlock_c.

(** [getcallerpcs(v, pcs)] over the words of memory [mem]: the return addresses of at
    most [n] frames, then zeros. *)
Fixpoint callerpcs (mem : Z -> Z) (n : nat) (ebp : Z) : list Z :=
  match n with
  | O => []
  | S n =>
      if (ebp =? 0) || (ebp <? KERNBASE) || (ebp =? 0xffffffff) then replicate (S n) 0
      else mem (u32 (ebp + 4)) :: callerpcs mem n (mem ebp)
  end.
Definition getcallerpcs (mem : Z -> Z) (v : Z) : list Z := callerpcs mem 10 (u32 (v - 8)).

(** ** Machines with a set of locks held *)

(** This CPU is known, holds nothing and is not inside pushcli; every
    lock is free. *)
Definition idle (m : machine) : Prop :=
  (exists i c, my_cpu m = Some i /\ cpus m !! i = Some c /\ ncli c = 0) /\
  (forall lk, locked (lock_of m lk) = 0 /\ lk_cpu (lock_of m lk) = None).

(** The process this CPU runs. *)
Definition cur (m : machine) : option nat :=
  i ← my_cpu m; c ← cpus m !! i; c_proc c.

Definition hold (i : nat) (l : spinlock) : spinlock := l <| locked := 1 |> <| lk_cpu := Some i |>.

Definition held_cpu (m : machine) (n : nat) (c : cpu) : cpu :=
  c <| ncli := Z.of_nat n |> <| intena := fl_if m |>.

(** [pushed m H n]: [m] after this CPU acquired the locks of [H] and is [n] deep in
    pushcli; [held m H] is the machine between calls, where the two depths agree. *)
Definition pushed (m : machine) (H : list lockid) (n : nat) : machine :=
  match i ← my_cpu m; c ← cpus m !! i; Some (i, c) with
  | Some (i, c) =>
      mkMachine (lapic_id m)
        (match n with O => fl_if m | _ => false end) (cr3 m) (tr m) (cr2 m) (m_image m)
        (<[i := held_cpu m n c]> (cpus m))
        (map_imap (fun lk l => Some (if decide (lk ∈ H) then hold i l else l)) (locks m))
  | None => m
  end.

Definition held (m : machine) (H : list lockid) : machine := pushed m H (length H).

(** The lock [lk] has been initialised. *)
Definition has_lock (m : machine) (lk : lockid) : Prop := is_Some (locks m !! lk).

(** ** Symbolic execution of the primitives *)

Lemma my_cpu_insert m m' i c c' :
  cpus m' = <[i := c']> (cpus m) -> cpus m !! i = Some c -> apicid c' = apicid c ->
  lapic_id m' = lapic_id m -> my_cpu m' = my_cpu m.
Proof.
  intros Hcs Hc Ha Hid. unfold my_cpu. rewrite Hid, Hcs.
  eapply find_idx_insert; [done|]. by rewrite Ha.
Qed.

Lemma my_cpu_lookup m i : my_cpu m = Some i -> exists c, cpus m !! i = Some c.
Proof. intros [(c & Hc & _) _]%find_idx_Some. eauto. Qed.

Lemma mycpu_run {S} m co p (s : S) i :
  my_cpu m = Some i -> fl_if m = false -> mycpu (W m co p s) = Ret i (W m co p s).
Proof.
  intros Hme Hif. unfold mycpu, bind, readeflags_if, lapicid, get_m, bind; cbn.
  rewrite Hif; cbn. unfold my_cpu in Hme. by rewrite Hme.
Qed.

Lemma cpu_at_run {S} m co p (s : S) i c :
  cpus m !! i = Some c -> cpu_at i (W m co p s) = Ret c (W m co p s).
Proof. intros Hc. unfold cpu_at, bind, get_m; cbn. by rewrite Hc. Qed.

Lemma pushcli_run {S} m co p (s : S) i c :
  my_cpu m = Some i -> cpus m !! i = Some c ->
  pushcli (W m co p s) =
  Ret tt (W (mkMachine (lapic_id m) false (cr3 m) (tr m) (cr2 m) (m_image m)
    (<[i := c <| intena := if ncli c =? 0 then fl_if m else intena c |>
              <| ncli := ncli c + 1 |>]> (cpus m)) (locks m)) co p s).
Proof.
  intros Hme Hc. unfold pushcli, readeflags_if, cli.
  erewrite bind_Ret by reflexivity. cbn [w_m w_c w_p w_s].
  erewrite bind_Ret by reflexivity.
  erewrite bind_Ret by (eapply mycpu_run; done).
  erewrite bind_Ret by by apply cpu_at_run.
  destruct (ncli c =? 0) eqn:Hn; cbn [when].
  - erewrite bind_Ret by reflexivity.
    erewrite bind_Ret.
    2:{ eapply mycpu_run; [|done]. rewrite <- Hme. by eapply my_cpu_insert. }
    erewrite bind_Ret.
    2:{ apply cpu_at_run. apply list_lookup_insert_eq. by eapply lookup_lt_Some. }
    unfold set_cpu, bind, get_m, put_m; cbn. by rewrite list_insert_insert_eq.
  - erewrite bind_Ret by reflexivity.
    erewrite bind_Ret by (eapply mycpu_run; done).
    erewrite bind_Ret by by apply cpu_at_run. done.
Qed.

Lemma popcli_run {S} m co p (s : S) i c :
  my_cpu m = Some i -> cpus m !! i = Some c -> fl_if m = false -> 0 < ncli c ->
  popcli (W m co p s) =
  Ret tt (W (mkMachine (lapic_id m) ((ncli c - 1 =? 0) && intena c) (cr3 m) (tr m) (cr2 m) (m_image m)
    (<[i := c <| ncli := ncli c - 1 |>]> (cpus m)) (locks m)) co p s).
Proof.
  intros Hme Hc Hif Hn. unfold popcli.
  erewrite bind_Ret by reflexivity. cbn [w_m w_c w_p w_s]. rewrite Hif.
  erewrite bind_Ret by (eapply mycpu_run; done).
  erewrite bind_Ret by by apply cpu_at_run.
  erewrite bind_Ret by reflexivity.
  rewrite (proj2 (Z.ltb_ge _ _)) by lia.
  erewrite bind_Ret.
  2:{ eapply mycpu_run; [|done]. rewrite <- Hme. by eapply my_cpu_insert. }
  erewrite bind_Ret.
  2:{ apply cpu_at_run. apply list_lookup_insert_eq. by eapply lookup_lt_Some. }
  unfold when, set_field; cbn. destruct (ncli c - 1 =? 0); cbn; [|by rewrite Hif].
  destruct (intena c); cbn; [done|by rewrite Hif].
Qed.

(** *** Reading a held machine *)

Lemma pushed_eq m H n i c :
  my_cpu m = Some i -> cpus m !! i = Some c ->
  pushed m H n = mkMachine (lapic_id m) (match n with O => fl_if m | _ => false end) (cr3 m) (tr m) (cr2 m) (m_image m)
    (<[i := held_cpu m n c]> (cpus m))
    (map_imap (fun lk l => Some (if decide (lk ∈ H) then hold i l else l)) (locks m)).
Proof. intros Hme Hc. unfold pushed. rewrite Hme; cbn. by rewrite Hc. Qed.

Lemma my_cpu_pushed m H n : my_cpu (pushed m H n) = my_cpu m.
Proof.
  destruct (my_cpu m) as [i|] eqn:Hme.
  - destruct (my_cpu_lookup _ _ Hme) as [c Hc].
    rewrite (pushed_eq m H n i c), <- Hme by done. by eapply my_cpu_insert.
  - unfold pushed. by rewrite Hme.
Qed.

Lemma cpus_pushed m H n i c :
  my_cpu m = Some i -> cpus m !! i = Some c ->
  cpus (pushed m H n) !! i = Some (held_cpu m n c).
Proof.
  intros Hme Hc. rewrite (pushed_eq m H n i c) by done; cbn.
  apply list_lookup_insert_eq. by eapply lookup_lt_Some.
Qed.

Lemma locks_pushed m H n lk i :
  my_cpu m = Some i ->
  locks (pushed m H n) !! lk = (fun l => if decide (lk ∈ H) then hold i l else l) <$> locks m !! lk.
Proof.
  intros Hme. destruct (my_cpu_lookup _ _ Hme) as [c Hc].
  rewrite (pushed_eq m H n i c) by done; cbn. rewrite map_lookup_imap.
  by destruct (locks m !! lk).
Qed.

Lemma lock_of_pushed m H n lk i :
  my_cpu m = Some i -> has_lock m lk ->
  lock_of (pushed m H n) lk = if decide (lk ∈ H) then hold i (lock_of m lk) else lock_of m lk.
Proof.
  intros Hme [l Hl]. unfold lock_of. rewrite (locks_pushed m H n lk i) by done.
  rewrite Hl; cbn. done.
Qed.

Lemma fl_if_pushed m H n : is_Some (my_cpu m) -> fl_if (pushed m H (S n)) = false.
Proof.
  intros [i Hme]. destruct (my_cpu_lookup _ _ Hme) as [c Hc].
  by rewrite (pushed_eq m H (S n) i c).
Qed.

Lemma cur_pushed m H n : cur (pushed m H n) = cur m.
Proof.
  unfold cur. rewrite my_cpu_pushed. destruct (my_cpu m) as [i|] eqn:Hme; [|done]. cbn.
  destruct (my_cpu_lookup _ _ Hme) as [c Hc].
  by rewrite (cpus_pushed m H n i c), Hc by done.
Qed.

Lemma cur_held m H : cur (held m H) = cur m.
Proof. apply cur_pushed. Qed.

Lemma has_lock_pushed m H n lk :
  is_Some (my_cpu m) -> has_lock (pushed m H n) lk <-> has_lock m lk.
Proof.
  intros [i Hme]. unfold has_lock. rewrite (locks_pushed m H n lk i) by done.
  by rewrite fmap_is_Some.
Qed.

Lemma has_lock_held m H lk : is_Some (my_cpu m) -> has_lock (held m H) lk <-> has_lock m lk.
Proof. apply has_lock_pushed. Qed.

(** Which locks are held is a set. *)
Lemma pushed_ext m H H' n :
  (forall lk, lk ∈ H <-> lk ∈ H') -> pushed m H n = pushed m H' n.
Proof.
  intros He. unfold pushed. destruct (my_cpu m) as [i|]; [|done]; cbn.
  destruct (cpus m !! i) as [c|]; [|done]; cbn. f_equal.
  apply map_imap_ext. intros lk. destruct (locks m !! lk); [|done]; cbn.
  f_equal. f_equal. destruct (He lk). repeat case_decide; tauto.
Qed.

Lemma idle_my_cpu m : idle m -> is_Some (my_cpu m).
Proof. intros [(i & c & Hme & _) _]. eauto. Qed.

Lemma idle_held m : idle m -> idle (held m []).
Proof.
  intros [(i & c & Hme & Hc & Hn) Hl]. split.
  - exists i, (held_cpu m 0 c). unfold held. rewrite my_cpu_pushed. split; [done|].
    split; [|done]. by apply cpus_pushed.
  - intros lk. unfold lock_of, held. rewrite (locks_pushed m [] _ lk i) by done.
    specialize (Hl lk). unfold lock_of in Hl. by destruct (locks m !! lk).
Qed.

(** Settling the interrupt bookkeeping twice is settling it once. *)
Lemma pushed_settled m H n : pushed (held m []) H n = pushed m H n.
Proof.
  unfold held; cbn [length].
  destruct (my_cpu m) as [i|] eqn:Hme; [|unfold pushed; rewrite Hme; cbn; rewrite Hme; done].
  destruct (my_cpu_lookup _ _ Hme) as [c Hc].
  rewrite (pushed_eq (pushed m [] 0) H n i (held_cpu m 0 c)).
  2:{ by rewrite my_cpu_pushed. } 2:{ by apply cpus_pushed. }
  rewrite (pushed_eq m H n i c), (pushed_eq m [] 0 i c) by done; cbn. f_equal.
  - by rewrite list_insert_insert_eq.
  - apply map_eq. intros lk. rewrite !map_lookup_imap. by destruct (locks m !! lk).
Qed.

Lemma held_settled m H : held (held m []) H = held m H.
Proof. apply pushed_settled. Qed.

(** ** pushcli and popcli move along the depth *)

Lemma pushcli_pushed {S} m H n co p (s : S) :
  is_Some (my_cpu m) ->
  pushcli (W (pushed m H n) co p s) = Ret tt (W (pushed m H (1 + n)) co p s).
Proof.
  intros [i Hme]. destruct (my_cpu_lookup _ _ Hme) as [c Hc].
  rewrite (pushcli_run _ co p s i (held_cpu m n c)).
  2:{ by rewrite my_cpu_pushed. } 2:{ by apply cpus_pushed. }
  do 2 f_equal. rewrite (pushed_eq m H n i c), (pushed_eq m H (1 + n) i c) by done; cbn.
  f_equal. rewrite list_insert_insert_eq. f_equal.
  destruct c. unfold held_cpu, set_field; cbn. f_equal; [lia|].
  by destruct n.
Qed.

Lemma popcli_pushed {S} m H n co p (s : S) :
  is_Some (my_cpu m) ->
  popcli (W (pushed m H (1 + n)) co p s) = Ret tt (W (pushed m H n) co p s).
Proof.
  intros [i Hme]. destruct (my_cpu_lookup _ _ Hme) as [c Hc].
  rewrite (popcli_run _ co p s i (held_cpu m (1 + n) c)).
  - do 2 f_equal. rewrite (pushed_eq m H n i c), (pushed_eq m H (1 + n) i c) by done; cbn.
    f_equal.
    + destruct n; [done|]. unfold held_cpu, set_field; cbn [ncli intena].
      rewrite (proj2 (Z.eqb_neq _ _)) by lia. done.
    + rewrite list_insert_insert_eq. f_equal. destruct c.
      unfold held_cpu, set_field; cbn. f_equal. lia.
  - by rewrite my_cpu_pushed.
  - by apply cpus_pushed.
  - by apply fl_if_pushed.
  - unfold held_cpu, set_field; cbn. lia.
Qed.

(** The first pushcli records the interrupt flag, so it may start from a machine whose
    saved flag is stale. *)
Lemma pushcli_idle {S} m co p (s : S) :
  idle m -> pushcli (W m co p s) = pushcli (W (held m []) co p s).
Proof.
  intros [(i & c & Hme & Hc & Hn) Hfree].
  unfold held; cbn [length]. rewrite (pushcli_pushed m [] 0) by eauto.
  rewrite (pushcli_run _ co p s i c), (pushed_eq m [] (1 + 0) i c) by done. do 2 f_equal. f_equal.
  - f_equal. rewrite Hn. by destruct c.
  - apply map_eq. intros lk. rewrite map_lookup_imap. by destruct (locks m !! lk).
Qed.

Lemma mycpu_pushed {S} m H n co p (s : S) i :
  my_cpu m = Some i ->
  mycpu (W (pushed m H (1 + n)) co p s) = Ret i (W (pushed m H (1 + n)) co p s).
Proof.
  intros Hme. apply mycpu_run; [by rewrite my_cpu_pushed|]. apply fl_if_pushed; eauto.
Qed.

Lemma myproc_held {S} m H co p (s : S) :
  is_Some (my_cpu m) ->
  myproc (W (held m H) co p s) = Ret (cur m) (W (held m H) co p s).
Proof.
  intros [i Hme]. destruct (my_cpu_lookup _ _ Hme) as [c Hc]. unfold myproc, held.
  erewrite bind_Ret by (apply pushcli_pushed; eauto).
  erewrite bind_Ret by by apply mycpu_pushed.
  erewrite bind_Ret by by apply cpu_at_run, cpus_pushed.
  erewrite bind_Ret by (apply popcli_pushed; eauto).
  unfold cur. rewrite Hme; cbn. by rewrite Hc.
Qed.

(** ** holding, acquire and release *)

Lemma holding_pushed {S} m H n lk co p (s : S) :
  idle m -> has_lock m lk ->
  holding lk (W (pushed m H n) co p s) = Ret (bool_decide (lk ∈ H)) (W (pushed m H n) co p s).
Proof.
  intros [(i & c & Hme & Hc & Hn) Hfree] Hlk. unfold holding.
  erewrite bind_Ret by (apply pushcli_pushed; eauto).
  erewrite bind_Ret by reflexivity.
  erewrite bind_Ret by by apply mycpu_pushed.
  erewrite bind_Ret by (apply popcli_pushed; eauto).
  unfold ret; cbn [w_m]. f_equal.
  rewrite (lock_of_pushed m H (1 + n) lk i) by done.
  destruct (Hfree lk) as [Hz _].
  destruct (decide (lk ∈ H)); unfold hold, set_field; cbn.
  - rewrite !bool_decide_eq_true_2 by done. done.
  - rewrite Hz; cbn. by rewrite bool_decide_eq_false_2.
Qed.

Lemma acquire_held {S} m H lk co p (s : S) :
  idle m -> has_lock m lk -> lk ∉ H ->
  acquire lk (W (held m H) co p s) = Ret tt (W (held m (lk :: H)) co p s).
Proof.
  intros Hidle Hlk Hni. assert (Hidle' := Hidle).
  destruct Hidle' as [(i & c & Hme & Hc & Hn) Hfree].
  unfold acquire, acquire_enter, held.
  erewrite bind_Ret.
  2:{ erewrite bind_Ret by (apply pushcli_pushed; eauto).
      erewrite bind_Ret by by apply holding_pushed.
      rewrite bool_decide_eq_false_2 by done. reflexivity. }
  unfold acquire_spin, xchg_locked.
  erewrite bind_Ret.
  2:{ erewrite bind_Ret by (erewrite bind_Ret by reflexivity; reflexivity).
      cbn [w_m]. rewrite (lock_of_pushed m H (1 + length H) lk i) by done.
      rewrite decide_False by done. rewrite (proj1 (Hfree lk)). reflexivity. }
  cbn [Z.eqb]. unfold acquire_done.
  erewrite bind_Ret.
  2:{ eapply mycpu_run; [|cbn; apply fl_if_pushed; eauto].
      transitivity (my_cpu (pushed m H (1 + length H))); [done|by rewrite my_cpu_pushed]. }
  unfold bind, get_m, set_lock, bind, get_m, put_m; cbn. do 2 f_equal.
  unfold set_field, lock_of; cbn. rewrite lookup_insert_eq; cbn.
  rewrite (pushed_eq m H _ i c), (pushed_eq m (lk :: H) _ i c) by done; cbn. f_equal.
  apply map_eq. intros lk'. rewrite map_lookup_imap.
  destruct Hlk as [l Hl]. destruct (decide (lk' = lk)) as [->|Hne].
  - rewrite lookup_insert_eq, Hl; cbn. rewrite decide_True by set_solver.
    done.
  - rewrite !lookup_insert_ne, map_lookup_imap by done.
    destruct (locks m !! lk'); [|done]; cbn. do 2 f_equal. repeat case_decide; set_solver.
Qed.

(** The first lock can be taken from a machine with a stale saved flag. *)
Lemma acquire_idle {S} m lk co p (s : S) :
  idle m -> has_lock m lk ->
  acquire lk (W m co p s) = Ret tt (W (held m [lk]) co p s).
Proof.
  intros Hidle Hlk. transitivity (acquire lk (W (held m []) co p s)).
  - unfold acquire, acquire_enter, bind. by rewrite pushcli_idle.
  - apply acquire_held; [done..|]. set_solver.
Qed.

Lemma myproc_idle {S} m co p (s : S) :
  idle m -> myproc (W m co p s) = Ret (cur m) (W (held m []) co p s).
Proof.
  intros Hidle. rewrite <- (myproc_held m [] co p s) by by apply idle_my_cpu.
  unfold myproc, bind. by rewrite pushcli_idle.
Qed.

Lemma release_held {S} m H H' lk co p (s : S) :
  idle m -> has_lock m lk -> lk ∉ H' -> lk ∈ H -> length H = Datatypes.S (length H') ->
  (forall lk', lk' ≠ lk -> lk' ∈ H <-> lk' ∈ H') ->
  release lk (W (held m H) co p s) = Ret tt (W (held m H') co p s).
Proof.
  intros Hidle Hlk Hni Hin Hlen Hrest. assert (Hidle' := Hidle).
  destruct Hidle' as [(i & c & Hme & Hc & Hn) Hfree].
  unfold release, release_enter, release_store, held.
  erewrite bind_Ret.
  2:{ erewrite bind_Ret by by apply holding_pushed.
      rewrite bool_decide_eq_true_2 by done; cbn [negb]. reflexivity. }
  transitivity (popcli (W (pushed m H' (1 + length H')) co p s)).
  2:{ apply popcli_pushed; eauto. }
  unfold bind, get_m, set_lock, bind, get_m, put_m.
  cbn [bind_res w_m w_c w_p w_s]. f_equal. f_equal.
  rewrite Hlen. rewrite (pushed_eq m H _ i c), (pushed_eq m H' _ i c) by done.
  unfold set_field, lock_of; cbn. rewrite lookup_insert_eq; cbn. f_equal.
  apply map_eq. intros lk'. rewrite map_lookup_imap.
  destruct Hlk as [l Hl]. destruct (decide (lk' = lk)) as [->|Hne].
  - rewrite lookup_insert_eq, Hl; cbn. rewrite map_lookup_imap, Hl; cbn.
    rewrite (decide_True (P := lk ∈ H)), (decide_False (P := lk ∈ H')) by done.
    unfold hold, set_field; cbn. specialize (Hfree lk). unfold lock_of in Hfree.
    rewrite Hl in Hfree; cbn in Hfree. destruct l; naive_solver.
  - rewrite !lookup_insert_ne, !map_lookup_imap by done.
    destruct (locks m !! lk'); [|done]; cbn. do 2 f_equal.
    specialize (Hrest lk' Hne). repeat case_decide; naive_solver.
Qed.

(** The common cases: the last lock taken, and the one taken before it. *)
Lemma release_last {S} m H lk co p (s : S) :
  idle m -> has_lock m lk -> lk ∉ H ->
  release lk (W (held m (lk :: H)) co p s) = Ret tt (W (held m H) co p s).
Proof. intros. apply release_held; set_solver. Qed.

Lemma release_second {S} m H lk lk' co p (s : S) :
  idle m -> has_lock m lk -> lk ∉ H -> lk ≠ lk' ->
  release lk (W (held m (lk' :: lk :: H)) co p s) = Ret tt (W (held m (lk' :: H)) co p s).
Proof. intros. apply release_held; set_solver. Qed.

(** ** Rules for proofs about kernel functions *)

Section rules.
Context {S : Type} (m : machine) (co : console) (p : procs) (s : S).

Lemma wp_get_m (Q : machine -> world S -> Prop) :
  Q m (W m co p s) -> wp get_m Q (W m co p s).
Proof. done. Qed.
Lemma wp_get_c (Q : console -> world S -> Prop) :
  Q co (W m co p s) -> wp get_c Q (W m co p s).
Proof. done. Qed.
Lemma wp_get_p (Q : procs -> world S -> Prop) :
  Q p (W m co p s) -> wp get_p Q (W m co p s).
Proof. done. Qed.
Lemma wp_get_s (Q : S -> world S -> Prop) :
  Q s (W m co p s) -> wp get_s Q (W m co p s).
Proof. done. Qed.
Lemma wp_put_c (Q : unit -> world S -> Prop) co' :
  Q tt (W m co' p s) -> wp (put_c co') Q (W m co p s).
Proof. done. Qed.
Lemma wp_put_p (Q : unit -> world S -> Prop) p' :
  Q tt (W m co p' s) -> wp (put_p p') Q (W m co p s).
Proof. done. Qed.
Lemma wp_put_s (Q : unit -> world S -> Prop) s' :
  Q tt (W m co p s') -> wp (put_s s') Q (W m co p s).
Proof. done. Qed.
Lemma wp_upd_p (Q : unit -> world S -> Prop) f :
  Q tt (W m co (f p) s) -> wp (upd_p f) Q (W m co p s).
Proof. done. Qed.
Lemma wp_upd_s (Q : unit -> world S -> Prop) f :
  Q tt (W m co p (f s)) -> wp (upd_s f) Q (W m co p s).
Proof. done. Qed.
Lemma wp_deref {A} (Q : A -> world S -> Prop) o a w :
  o = Some a -> Q a w -> wp (deref o) Q w.
Proof. by intros ->. Qed.

Lemma wp_acquire H lk (Q : unit -> world S -> Prop) :
  idle m -> has_lock m lk -> lk ∉ H ->
  Q tt (W (held m (lk :: H)) co p s) -> wp (acquire lk) Q (W (held m H) co p s).
Proof. intros. eapply wp_eq; [by apply acquire_held|done]. Qed.

Lemma wp_acquire_idle lk (Q : unit -> world S -> Prop) :
  idle m -> has_lock m lk ->
  Q tt (W (held m [lk]) co p s) -> wp (acquire lk) Q (W m co p s).
Proof. intros. eapply wp_eq; [by apply acquire_idle|done]. Qed.

Lemma wp_release H lk (Q : unit -> world S -> Prop) :
  idle m -> has_lock m lk -> lk ∉ H ->
  Q tt (W (held m H) co p s) -> wp (release lk) Q (W (held m (lk :: H)) co p s).
Proof. intros. eapply wp_eq; [by apply release_last|done]. Qed.

Lemma wp_myproc H (Q : option nat -> world S -> Prop) :
  idle m -> Q (cur m) (W (held m H) co p s) -> wp myproc Q (W (held m H) co p s).
Proof. intros. eapply wp_eq; [apply myproc_held; by apply idle_my_cpu|done]. Qed.

Lemma wp_myproc_idle (Q : option nat -> world S -> Prop) :
  idle m -> Q (cur m) (W (held m []) co p s) -> wp myproc Q (W m co p s).
Proof. intros. eapply wp_eq; [by apply myproc_idle|done]. Qed.

End rules.

#[export] Hint Resolve idle_my_cpu idle_held : xv6.

(** [not_held] decides that a lock is not in a list of locks. *)
Ltac not_held := rewrite ?elem_of_cons, ?elem_of_nil; naive_solver.

(** [kstep] takes one step of a kernel function: it uncovers a bind, runs a
    primitive, or takes or frees a lock. *)
Ltac kstep :=
  lazymatch goal with
  | |- wp (bind _ _) _ _ => apply wp_bind
  | |- wp (ret _) _ _ => apply wp_ret
  | |- wp get_m _ _ => apply wp_get_m
  | |- wp get_c _ _ => apply wp_get_c
  | |- wp get_p _ _ => apply wp_get_p
  | |- wp get_s _ _ => apply wp_get_s
  | |- wp (put_c _) _ _ => apply wp_put_c
  | |- wp (put_p _) _ _ => apply wp_put_p
  | |- wp (put_s _) _ _ => apply wp_put_s
  | |- wp (upd_p _) _ _ => apply wp_upd_p
  | |- wp (upd_s _) _ _ => apply wp_upd_s
  | |- wp (when true ?f) ?Q ?w => change (wp f Q w)
  | |- wp (when false _) _ _ => apply wp_ret
  | |- wp (deref (Some _)) _ _ => apply wp_ret
  | |- wp (deref _) _ _ => eapply wp_deref; [eassumption|]
  | |- wp (acquire _) _ (W (held _ _) _ _ _) => apply wp_acquire; [eassumption|eauto|not_held|]
  | |- wp (acquire _) _ _ => apply wp_acquire_idle; [eassumption|eauto|]
  | |- wp (release _) _ _ => apply wp_release; [eassumption|eauto|not_held|]
  | |- wp myproc _ (W (held _ _) _ _ _) => apply wp_myproc; [eassumption|]
  | |- wp myproc _ _ => apply wp_myproc_idle; [eassumption|]
  end; cbn beta.

Ltac ksteps := repeat kstep.

(** ** Updating the cpu structure while locks are held *)

Definition on_cpu (f : cpu -> cpu) (c : nat) (m : machine) : machine :=
  m <| cpus := alter f c (cpus m) |>.

(** [f] leaves alone what the locks use. *)
Class CpuFrame (f : cpu -> cpu) : Prop := {
  frame_apicid : forall x, apicid (f x) = apicid x;
  frame_ncli : forall x, ncli (f x) = ncli x;
  frame_intena : forall x b n, f (x <| ncli := n |> <| intena := b |>) = f x <| ncli := n |> <| intena := b |>;
}.

Lemma my_cpu_on_cpu f c m : CpuFrame f -> my_cpu m = Some c -> my_cpu (on_cpu f c m) = Some c.
Proof.
  intros Hf Hme. destruct (my_cpu_lookup _ _ Hme) as [k Hk]. rewrite <- Hme.
  eapply my_cpu_insert; [|exact Hk|apply (frame_apicid k)|done].
  unfold on_cpu; cbn. apply list_eq. intros j.
  rewrite list_lookup_alter. destruct (decide (c = j)) as [<-|Hne].
  - rewrite list_lookup_insert_eq, Hk by (by eapply lookup_lt_Some). done.
  - by rewrite list_lookup_insert_ne.
Qed.

Lemma idle_on_cpu f c m : CpuFrame f -> my_cpu m = Some c -> idle m -> idle (on_cpu f c m).
Proof.
  intros Hf Hme [(i & k & Hme' & Hk & Hn) Hl]. simplify_eq. split; [|exact Hl].
  exists c, (f k). split; [by apply my_cpu_on_cpu|].
  unfold on_cpu; cbn. rewrite list_lookup_alter_eq, Hk. split; [done|].
  by rewrite frame_ncli.
Qed.

Lemma cur_on_cpu f c m k :
  CpuFrame f -> my_cpu m = Some c -> cpus m !! c = Some k -> cur (on_cpu f c m) = c_proc (f k).
Proof.
  intros Hf Hme Hk. unfold cur. rewrite my_cpu_on_cpu by done. cbn.
  by rewrite list_lookup_alter_eq, Hk.
Qed.

Lemma pushed_on_cpu f c m H n k :
  CpuFrame f -> my_cpu m = Some c -> cpus m !! c = Some k ->
  pushed (on_cpu f c m) H n = pushed m H n <| cpus := <[c := f (held_cpu m n k)]> (cpus (pushed m H n)) |>.
Proof.
  intros Hf Hme Hk.
  rewrite (pushed_eq m H n c k) by done.
  rewrite (pushed_eq (on_cpu f c m) H n c (f k)).
  2:{ by apply my_cpu_on_cpu. } 2:{ unfold on_cpu; cbn. by rewrite list_lookup_alter_eq, Hk. }
  unfold set_field, on_cpu; cbn. f_equal. rewrite list_insert_insert_eq.
  apply list_eq. intros j. destruct (decide (c = j)) as [<-|Hne].
  - assert (Hlt : (c < length (cpus m))%nat) by by eapply lookup_lt_Some.
    rewrite !list_lookup_insert_eq by (rewrite ?length_alter; done).
    f_equal. unfold held_cpu. by rewrite frame_intena.
  - rewrite !list_lookup_insert_ne by done. by rewrite list_lookup_alter_ne.
Qed.

Lemma set_cpu_pushed {S} f c m H n k co p (s : S) :
  CpuFrame f -> my_cpu m = Some c -> cpus m !! c = Some k ->
  set_cpu c (f (held_cpu m n k)) (W (pushed m H n) co p s) =
  Ret tt (W (pushed (on_cpu f c m) H n) co p s).
Proof. intros Hf Hme Hk. by rewrite (pushed_on_cpu f c m H n k). Qed.

(** ** A one-CPU machine *)

(** The machine the examples run on: one CPU, which runs [pr], and the locks
    [lks], initialised and free. *)
Definition free_locks (lks : list lockid) : gmap lockid spinlock :=
  list_to_map ((fun lk => (lk, mkSpinlock 0 "lock" None)) <$> lks).

Definition one_cpu (lks : list lockid) (pr : option nat) : machine :=
  mkMachine 0 true 0 0 0 (mkImage 0x80112780 0x801042c5) [mkCpu 0 1 0 true pr 0 0 0 (replicate NSEGS seg_zero)] (free_locks lks).

Lemma free_locks_Some lks lk l : free_locks lks !! lk = Some l -> l = mkSpinlock 0 "lock" None.
Proof.
  intros Hl%elem_of_list_to_map_2. apply list_elem_of_fmap in Hl as (k & Hk & _). by simplify_eq.
Qed.

Lemma one_cpu_idle lks pr : idle (one_cpu lks pr).
Proof.
  split; [exists 0%nat; eexists; done|]. intros lk. unfold lock_of; cbn.
  destruct (free_locks lks !! lk) as [l|] eqn:Hl; cbn; [|done].
  apply free_locks_Some in Hl as ->. done.
Qed.

Lemma one_cpu_lock lks pr lk : lk ∈ lks -> has_lock (one_cpu lks pr) lk.
Proof.
  unfold has_lock, free_locks; cbn. induction lks as [|k lks IH]; intros Hin; [set_solver|]. cbn.
  destruct (decide (lk = k)) as [->|Hne]; [by rewrite lookup_insert_eq|].
  rewrite lookup_insert_ne by done. apply IH. set_solver.
Qed.

#[export] Hint Resolve one_cpu_idle : xv6.
#[export] Hint Extern 1 (has_lock (one_cpu _ _) _) => apply one_cpu_lock; set_solver : xv6.

(** ** Properties *)

(** The calls that break the locking discipline. *)
Lemma acquire_twice_run {S} m H lk co p (s : S) :
  idle m -> has_lock m lk -> lk ∈ H ->
  acquire lk (W (held m H) co p s) = Panic "acquire" (W (pushed m H (1 + length H)) co p s).
Proof.
  intros Hm Hlk Hin. unfold acquire, acquire_enter, held. erewrite bind_Panic; [done|].
  erewrite bind_Ret by (apply pushcli_pushed; auto with xv6).
  erewrite bind_Ret by by apply holding_pushed. by rewrite bool_decide_eq_true_2.
Qed.

Lemma release_unheld_run {S} m H lk co p (s : S) :
  idle m -> has_lock m lk -> lk ∉ H ->
  release lk (W (held m H) co p s) = Panic "release" (W (held m H) co p s).
Proof.
  intros Hm Hlk Hni. unfold release, release_enter, held. erewrite bind_Panic; [done|].
  erewrite bind_Ret by by apply holding_pushed. by rewrite bool_decide_eq_false_2.
Qed.

(** [acquire] on a lock this CPU does not hold returns with the lock taken
    by this CPU, interrupts off and one more level of pushcli; the matching [release] gives back
    exactly the world before, with the interrupt flag it had when the first lock was taken. *)
Theorem acquire_release {S} m H lk co p (s : S) i c :
  idle m -> my_cpu m = Some i -> cpus m !! i = Some c -> has_lock m lk -> lk ∉ H ->
  exists m1,
    acquire lk (W (held m H) co p s) = Ret tt (W m1 co p s) /\
    locked (lock_of m1 lk) = 1 /\ lk_cpu (lock_of m1 lk) = Some i /\ fl_if m1 = false /\
    (exists c1, cpus m1 !! i = Some c1 /\ ncli c1 = Z.of_nat (length H) + 1 /\ intena c1 = fl_if m) /\
    (forall lk', lk' ≠ lk -> lock_of m1 lk' = lock_of (held m H) lk') /\
    release lk (W m1 co p s) = Ret tt (W (held m H) co p s).
Proof.
  intros Hm Hme Hc Hlk Hni. exists (held m (lk :: H)). split; [by apply acquire_held|].
  unfold held at 1 2. rewrite !(lock_of_pushed m (lk :: H) _ lk i) by done.
  rewrite decide_True by set_solver. do 2 (split; [done|]).
  split; [apply fl_if_pushed; eauto|]. split.
  { eexists. split; [by apply cpus_pushed|]. cbn. split; [lia|done]. }
  split; [|by apply release_last]. intros lk' Hne. unfold lock_of, held.
  rewrite !(locks_pushed m _ _ lk' i) by done. destruct (locks m !! lk'); [|done]; cbn.
  repeat case_decide; set_solver.
Qed.

(** The kernel panics when a CPU acquires a lock it holds, and when it releases a lock
    it does not hold. *)
Theorem lock_misuse_panics {S} m H lk co p (s : S) :
  idle m -> has_lock m lk ->
  (lk ∈ H -> exists w, acquire lk (W (held m H) co p s) = Panic "acquire" w) /\
  (lk ∉ H -> exists w, release lk (W (held m H) co p s) = Panic "release" w).
Proof. split; intros; eexists; [by apply acquire_twice_run|by apply release_unheld_run]. Qed.

Definition ex_con0 : console := mkConsole true false true [] [] 0.
Definition ex_procs0 : procs := mkProcs [] None 0 0 1 1 0 0.

Lemma acquire_release_witness : exists m1,
  acquire Lkmem (W (held (one_cpu [Lkmem; Lptable] None) [Lptable]) ex_con0 ex_procs0 tt) =
    Ret tt (W m1 ex_con0 ex_procs0 tt) /\ locked (lock_of m1 Lkmem) = 1 /\
  release Lkmem (W m1 ex_con0 ex_procs0 tt) =
    Ret tt (W (held (one_cpu [Lkmem; Lptable] None) [Lptable]) ex_con0 ex_procs0 tt).
Proof.
  destruct (acquire_release (one_cpu [Lkmem; Lptable] None) [Lptable] Lkmem ex_con0 ex_procs0 tt
    0 (mkCpu 0 1 0 true None 0 0 0 (replicate NSEGS seg_zero))) as (m1 & ? & ? & _ & _ & _ & _ & ?);
    [auto with xv6|reflexivity|reflexivity|auto with xv6|set_solver|]. exists m1. repeat split; assumption.
Defined.

Lemma lock_misuse_panics_witness :
  exists w, acquire Lptable (W (held (one_cpu [Lptable] None) [Lptable]) ex_con0 ex_procs0 tt) = Panic "acquire" w.
Proof.
  destruct (lock_misuse_panics (one_cpu [Lptable] None) [Lptable] Lptable ex_con0 ex_procs0 tt) as [Ha _];
    [auto with xv6..|]. apply Ha. set_solver.
Defined.
