(* ===== verification/Smp.v ===== *)
(** * Spin locks on several CPUs (spinlock.c)

    [acquire] and [release] of one lock, run by any number of CPUs at once.  A CPU is at a program point ([pc]);
    [turn] is what it does from there to the next point, which is one access to the shared lock or a stretch
    that touches only its own [struct cpu] and flags.  The theorems show that under every interleaving at
    most one CPU is between the exchange of [acquire] and the store of [release], that no CPU runs into a
    panic of spinlock.c, and that a CPU which holds or waits for the lock cannot be interrupted.
    Memory is sequentially consistent, which the fences of the code are there for. *)

From S2P Require Import Prelude Kstate Spinlock.
From stdpp Require Import gmap strings list relations.
Open Scope Z_scope.

(** The points of [acquire] and [release] between which a CPU can be overtaken; [b] is what it
    read of [lk->locked] in [holding]. *)
Inductive pc :=
| Out
| AcqLocked | AcqCpu (b : bool) | Spin | Got
| Crit
| RelLocked | RelCpu (b : bool) | RelClear | RelStore | RelPop.
#[export] Instance pc_eq_dec : EqDecision pc.
Proof. solve_decision. Defined.

Section turn.
Context {S : Type} (lk : lockid).

(** The two reads of [holding]. *)
Definition read_locked : M S bool := let! m := get_m in ret (negb (locked (lock_of m lk) =? 0)).
Definition read_cpu (b : bool) : M S bool :=
  let! m := get_m in
  let! i := mycpu in
  popcli ;;;
  ret (b && bool_decide (lk_cpu (lock_of m lk) = Some i)).

Definition turn (at_ : pc) : M S pc :=
  match at_ with
  | Out => pushcli ;;; pushcli ;;; ret AcqLocked
  | AcqLocked => let! b := read_locked in ret (AcqCpu b)
  | AcqCpu b => let! h := read_cpu b in if h then panic "acquire" else ret Spin
  | Spin => let! got := acquire_spin lk in ret (if got then Got else Spin)
  | Got => acquire_done lk ;;; ret Crit
  | Crit => pushcli ;;; ret RelLocked
  | RelLocked => let! b := read_locked in ret (RelCpu b)
  | RelCpu b => let! h := read_cpu b in if negb h then panic "release" else ret RelClear
  | RelClear => let! m := get_m in set_lock lk (lock_of m lk <| lk_cpu := None |>) ;;; ret RelStore
  | RelStore => let! m := get_m in set_lock lk (lock_of m lk <| locked := 0 |>) ;;; ret RelPop
  | RelPop => popcli ;;; ret Out
  end.

(** A CPU on its own: the turns one after the other up to a point. *)
Fixpoint turns (fuel : nat) (stop at_ : pc) : M S unit :=
  match fuel with
  | O => hang
  | Datatypes.S fuel => let! at_ := turn at_ in if decide (at_ = stop) then ret tt else turns fuel stop at_
  end.

End turn.

(** ** The CPUs together *)

(** The registers and the program point of a CPU. *)
Record core := mkCore { co_id : Z; co_if : bool; co_cr3 : Z; co_tr : Z; co_cr2 : Z; co_pc : pc }.

Record smp := mkSmp { sm_cores : list core; sm_image : kimage; sm_cpus : list cpu; sm_locks : gmap lockid spinlock }.

(** The machine as CPU [c] sees it. *)
Definition seen (g : smp) (c : core) : machine := mkMachine (co_id c) (co_if c) (co_cr3 c) (co_tr c) (co_cr2 c) (sm_image g) (sm_cpus g) (sm_locks g).

Definition seen_back (i : nat) (at_ : pc) (m : machine) (g : smp) : smp :=
  mkSmp (<[i := mkCore (lapic_id m) (fl_if m) (cr3 m) (tr m) (cr2 m) at_]> (sm_cores g)) (m_image m) (cpus m) (locks m).

Section smp.
Context {S : Type} (lk : lockid) (co : console) (p : procs) (s : S).

(** One turn of CPU [i]; [None] when it does not return, by a panic. *)
Definition cpu_step (i : nat) (g : smp) : option smp :=
  c ← sm_cores g !! i;
  match turn lk (co_pc c) (W (seen g c) co p s) with
  | Ret at_ w => Some (seen_back i at_ (w_m w) g)
  | _ => None
  end.

(** Outside of the lock's code a CPU may turn interrupts on or off, as an interrupt and its return do. *)
Definition flag_step (i : nat) (b : bool) (g : smp) : option smp :=
  c ← sm_cores g !! i;
  if decide (co_pc c = Out) then Some (seen_back i Out (seen g (mkCore (co_id c) b (co_cr3 c) (co_tr c) (co_cr2 c) Out)) g) else None.

Inductive step (g : smp) : smp -> Prop :=
| step_cpu i g' : cpu_step i g = Some g' -> step g g'
| step_flag i b g' : flag_step i b g = Some g' -> step g g'.

(** All CPUs are outside, with distinct ids, and the lock is free. *)
Definition started_up (g : smp) : Prop :=
  NoDup (co_id <$> sm_cores g) /\
  Forall2 (fun c k => co_pc c = Out /\ apicid k = co_id c /\ ncli k = 0) (sm_cores g) (sm_cpus g) /\
  default lock_zero (sm_locks g !! lk) = lock_zero <| lk_name := lk_name (default lock_zero (sm_locks g !! lk)) |>.

(** ** The invariant *)

(** Past the exchange and before the store; and named by [lk->cpu]. *)
Definition owns (at_ : pc) : bool :=
  match at_ with Got | Crit | RelLocked | RelCpu _ | RelClear | RelStore => true | _ => false end.
Definition named (at_ : pc) : bool :=
  match at_ with Crit | RelLocked | RelCpu _ | RelClear => true | _ => false end.

Definition depth (at_ : pc) : Z :=
  match at_ with Out => 0 | AcqLocked | AcqCpu _ | RelLocked | RelCpu _ => 2 | _ => 1 end.

(** The [struct cpu] of a CPU and its registers. *)
Record core_ok (c : core) (k : cpu) : Prop := {
  ck_id : apicid k = co_id c;
  ck_ncli : ncli k = depth (co_pc c);
  ck_if : co_pc c ≠ Out -> co_if c = false;
  ck_read : co_pc c ≠ RelCpu false;
}.

Definition pc_of (g : smp) (i : nat) : pc := match sm_cores g !! i with Some c => co_pc c | None => Out end.

Record inv (g : smp) : Prop := {
  iv_ids : NoDup (co_id <$> sm_cores g);
  iv_cores : Forall2 core_ok (sm_cores g) (sm_cpus g);
  iv_lock : exists o : option nat,
    locked (default lock_zero (sm_locks g !! lk)) = (if o then 1 else 0) /\
    (forall j, owns (pc_of g j) = true <-> o = Some j);
  iv_named : forall j, named (pc_of g j) = true <-> lk_cpu (default lock_zero (sm_locks g !! lk)) = Some j;
}.

Lemma find_me g i c : inv g -> sm_cores g !! i = Some c ->
  exists k, sm_cpus g !! i = Some k /\ core_ok c k /\ my_cpu (seen g c) = Some i.
Proof using Type.
  intros [Hids Hcs _ _] Hc. destruct (Forall2_lookup_l _ _ _ _ _ Hcs Hc) as (k & Hk & Hok). exists k. split_and!; [done|done|].
  unfold my_cpu. cbn [seen cpus lapic_id]. apply find_idx_Some. split.
  - exists k. split; [done|]. by rewrite (ck_id _ _ Hok), Z.eqb_refl.
  - intros j k' Hj Hk'. destruct (Forall2_lookup_r _ _ _ _ _ Hcs Hk') as (c' & Hc' & Hok'). rewrite (ck_id _ _ Hok'). apply Z.eqb_neq. intros Heq.
    assert (j = i); [|lia]. eapply NoDup_lookup; [exact Hids| |]; rewrite list_lookup_fmap; [by rewrite Hc'|rewrite Hc; cbn; by rewrite Heq].
Qed.

Lemma pc_of_at g i c : sm_cores g !! i = Some c -> pc_of g i = co_pc c.
Proof using Type. unfold pc_of. by intros ->. Qed.

(** The program points after CPU [i] has moved to [at_]. *)
Definition moved (g : smp) (i : nat) (at_ : pc) (j : nat) : pc := if decide (j = i) then at_ else pc_of g j.

Lemma inv_upd g i c k at_ b k' locks' :
  inv g -> sm_cores g !! i = Some c -> sm_cpus g !! i = Some k -> core_ok (mkCore (co_id c) b (co_cr3 c) (co_tr c) (co_cr2 c) at_) k' ->
  (exists o : option nat, locked (default lock_zero (locks' !! lk)) = (if o then 1 else 0) /\
    forall j, owns (moved g i at_ j) = true <-> o = Some j) ->
  (forall j, named (moved g i at_ j) = true <-> lk_cpu (default lock_zero (locks' !! lk)) = Some j) ->
  inv (seen_back i at_ (mkMachine (co_id c) b (co_cr3 c) (co_tr c) (co_cr2 c) (sm_image g) (<[i := k']> (sm_cpus g)) locks') g).
Proof using Type.
  intros [Hids Hcs _ _] Hc Hk Hok Ho Hn. unfold seen_back. cbn [lapic_id fl_if cr3 tr cr2 m_image cpus locks].
  assert (Hpc : forall j, pc_of (mkSmp (<[i := mkCore (co_id c) b (co_cr3 c) (co_tr c) (co_cr2 c) at_]> (sm_cores g)) (sm_image g) (<[i := k']> (sm_cpus g)) locks') j = moved g i at_ j).
  { intros j. unfold pc_of, moved. cbn [sm_cores]. destruct (decide (j = i)) as [->|Hne].
    - rewrite list_lookup_insert_eq; [done|]. by eapply lookup_lt_Some.
    - by rewrite list_lookup_insert_ne. }
  split; cbn [sm_cores sm_cpus sm_locks].
  - rewrite list_fmap_insert. cbn [co_id]. rewrite list_insert_id; [done|]. by rewrite list_lookup_fmap, Hc.
  - by apply Forall2_insert.
  - destruct Ho as (o & Hl & Ho). exists o. split; [done|]. intros j. by rewrite Hpc.
  - intros j. by rewrite Hpc.
Qed.

(** A move that leaves the lock as it is, and the CPU on the same side of the exchange, the store and the name. *)
Lemma inv_same g i c k at_ b k' :
  inv g -> sm_cores g !! i = Some c -> sm_cpus g !! i = Some k -> core_ok (mkCore (co_id c) b (co_cr3 c) (co_tr c) (co_cr2 c) at_) k' ->
  owns at_ = owns (co_pc c) -> named at_ = named (co_pc c) ->
  inv (seen_back i at_ (mkMachine (co_id c) b (co_cr3 c) (co_tr c) (co_cr2 c) (sm_image g) (<[i := k']> (sm_cpus g)) (sm_locks g)) g).
Proof using Type.
  intros Hinv Hc Hk Hok Ho Hn. eapply inv_upd; [done..| |].
  - destruct (iv_lock _ Hinv) as (o & Hl & Hown). exists o. split; [done|]. intros j. rewrite <- Hown. unfold moved.
    destruct (decide (j = i)) as [->|]; [|done]. by rewrite Ho, (pc_of_at g i c).
  - intros j. rewrite <- (iv_named _ Hinv). unfold moved. destruct (decide (j = i)) as [->|]; [|done]. by rewrite Hn, (pc_of_at g i c).
Qed.

(** What the turns of a CPU do to its own [struct cpu]: [pushcli] and [popcli] on a list of cpus. *)
Lemma pushcli_own id f r t e a cs ls i k :
  my_cpu (mkMachine id f r t e a cs ls) = Some i -> cs !! i = Some k ->
  exists k', pushcli (W (mkMachine id f r t e a cs ls) co p s) = Ret tt (W (mkMachine id false r t e a (<[i := k']> cs) ls) co p s) /\
    apicid k' = apicid k /\ ncli k' = ncli k + 1 /\ my_cpu (mkMachine id false r t e a (<[i := k']> cs) ls) = Some i.
Proof using Type.
  intros Hme Hk. eexists. split; [by rewrite (pushcli_run _ _ _ _ i k)|]. split_and!; [done|done|].
  rewrite <- Hme. by eapply my_cpu_insert.
Qed.

Lemma popcli_own id r t e a cs ls i k :
  my_cpu (mkMachine id false r t e a cs ls) = Some i -> cs !! i = Some k -> 0 < ncli k ->
  exists k' f, popcli (W (mkMachine id false r t e a cs ls) co p s) = Ret tt (W (mkMachine id f r t e a (<[i := k']> cs) ls) co p s) /\
    apicid k' = apicid k /\ ncli k' = ncli k - 1 /\ (ncli k ≠ 1 -> f = false).
Proof using Type.
  intros Hme Hk Hn. eexists _, _. split; [by rewrite (popcli_run _ _ _ _ i k)|]. split_and!; [done|done|].
  intros Hne. by rewrite (proj2 (Z.eqb_neq _ _)) by lia.
Qed.

Lemma read_cpu_own b id r t e a cs ls i k :
  my_cpu (mkMachine id false r t e a cs ls) = Some i -> cs !! i = Some k -> ncli k = 2 ->
  exists k', read_cpu lk b (W (mkMachine id false r t e a cs ls) co p s) =
      Ret (b && bool_decide (lk_cpu (default lock_zero (ls !! lk)) = Some i)) (W (mkMachine id false r t e a (<[i := k']> cs) ls) co p s) /\
    apicid k' = apicid k /\ ncli k' = 1.
Proof using Type.
  intros Hme Hk Hn. destruct (popcli_own id r t e a cs ls i k Hme Hk ltac:(lia)) as (k' & f & Hrun & Ha & Hn' & Hf).
  rewrite Hf in Hrun by lia. exists k'. split_and!; [|done|lia]. unfold read_cpu.
  erewrite bind_Ret by reflexivity. cbn [w_m]. erewrite bind_Ret by (eapply mycpu_run; done).
  erewrite bind_Ret by exact Hrun. done.
Qed.

Definition steps_to (i : nat) (g : smp) : Prop := exists g', cpu_step i g = Some g' /\ inv g'.

Section at_point.
Context (g : smp) (i : nat) (c : core) (k : cpu).
Context (Hinv : inv g) (Hc : sm_cores g !! i = Some c) (Hk : sm_cpus g !! i = Some k) (Hok : core_ok c k).
Context (Hme : my_cpu (seen g c) = Some i).

Lemma step_at at_ m' : turn lk (co_pc c) (W (seen g c) co p s) = Ret at_ (W m' co p s) -> inv (seen_back i at_ m' g) -> steps_to i g.
Proof using Hc. intros Hrun Hi. exists (seen_back i at_ m' g). split; [|done]. unfold cpu_step. rewrite Hc. cbn [mbind option_bind]. by rewrite Hrun. Qed.

Lemma seen_off : co_pc c ≠ Out -> seen g c = mkMachine (co_id c) false (co_cr3 c) (co_tr c) (co_cr2 c) (sm_image g) (sm_cpus g) (sm_locks g).
Proof using Hok. intros Hne. unfold seen. by rewrite (ck_if _ _ Hok Hne). Qed.

Lemma at_Out : co_pc c = Out -> steps_to i g.
Proof using All.
  intros Hpc. destruct (pushcli_own _ _ _ _ _ _ _ _ i k Hme Hk) as (k1 & H1 & Ha1 & Hn1 & Hme1).
  destruct (pushcli_own _ _ _ _ _ _ _ _ i k1 Hme1) as (k2 & H2 & Ha2 & Hn2 & _).
  { apply list_lookup_insert_eq. by eapply lookup_lt_Some. }
  rewrite list_insert_insert_eq in H2.
  eapply step_at.
  - rewrite Hpc. cbn [turn]. erewrite bind_Ret by exact H1. erewrite bind_Ret by exact H2. reflexivity.
  - apply (inv_same g i c k); try done; [|by rewrite Hpc..]. pose proof Hok as [H3 H4 _ _]. rewrite Hpc in H4.
    split; cbn [co_id co_pc co_if depth] in *; [congruence|lia|done|done].
Qed.
(** A turn that leaves the [struct cpu] alone. *)
Lemma own_same : sm_cpus g = <[i := k]> (sm_cpus g).
Proof using Hk. symmetry. by apply list_insert_id. Qed.

Lemma stays at_ : depth at_ = depth (co_pc c) -> co_pc c ≠ Out -> at_ ≠ RelCpu false -> core_ok (mkCore (co_id c) false (co_cr3 c) (co_tr c) (co_cr2 c) at_) k.
Proof using Hok. intros Hd Hne Hr. destruct Hok. split; cbn [co_id co_pc co_if] in *; congruence. Qed.

Lemma owner_locked : owns (co_pc c) = true -> locked (default lock_zero (sm_locks g !! lk)) = 1.
Proof using Hinv Hc. destruct (iv_lock _ Hinv) as (o & Hl & Ho). rewrite <- (pc_of_at g i c Hc). intros Hi%Ho. by rewrite Hl, Hi. Qed.

Lemma named_cpu : named (co_pc c) = true <-> lk_cpu (default lock_zero (sm_locks g !! lk)) = Some i.
Proof using Hinv Hc. rewrite <- (pc_of_at g i c Hc). apply (iv_named _ Hinv). Qed.

Lemma at_read at_ : co_pc c = AcqLocked \/ co_pc c = RelLocked -> turn (S := S) lk (co_pc c) = (let! b := read_locked lk in ret (at_ b)) ->
  (forall b, depth (at_ b) = 2 /\ owns (at_ b) = owns (co_pc c) /\ named (at_ b) = named (co_pc c)) ->
  (owns (co_pc c) = false -> forall b, at_ b ≠ RelCpu false) -> at_ true ≠ RelCpu false -> steps_to i g.
Proof using Hinv Hc Hk Hok.
  intros Hpc Ht Hat Hr Htrue. assert (Hne : co_pc c ≠ Out) by (destruct Hpc; congruence).
  eapply step_at; [rewrite Ht, seen_off by done; reflexivity|].
  set (b := negb (locked (default lock_zero (sm_locks g !! lk)) =? 0)). change (inv (seen_back i (at_ b) (mkMachine (co_id c) false (co_cr3 c) (co_tr c) (co_cr2 c) (sm_image g) (sm_cpus g) (sm_locks g)) g)).
  rewrite own_same. destruct (Hat b) as (Hd & Ho & Hn). apply (inv_same g i c k); try done. apply stays; [|done|].
  - rewrite Hd. destruct Hpc as [-> | ->]; done.
  - destruct (owns (co_pc c)) eqn:Hown; [|by apply Hr]. unfold b. by rewrite owner_locked.
Qed.

Lemma at_AcqCpu b : co_pc c = AcqCpu b -> steps_to i g.
Proof using All.
  intros Hpc. assert (Hne : co_pc c ≠ Out) by congruence. rewrite (seen_off Hne) in Hme.
  destruct (read_cpu_own b _ _ _ _ _ _ _ i k Hme Hk) as (k' & Hrun & Ha & Hn); [rewrite (ck_ncli _ _ Hok), Hpc; done|].
  assert (Hnot : lk_cpu (default lock_zero (sm_locks g !! lk)) ≠ Some i).
  { intros Hi. apply named_cpu in Hi. by rewrite Hpc in Hi. }
  rewrite (bool_decide_eq_false_2 _ Hnot), andb_false_r in Hrun.
  eapply step_at.
  - rewrite Hpc, (seen_off Hne). cbn [turn]. erewrite bind_Ret by exact Hrun. reflexivity.
  - apply (inv_same g i c k); try done; [|by rewrite Hpc..]. split; cbn [co_id co_pc co_if]; [by rewrite Ha, (ck_id _ _ Hok)|done..].
Qed.

Lemma at_RelCpu b : co_pc c = RelCpu b -> steps_to i g.
Proof using All.
  intros Hpc. assert (Hne : co_pc c ≠ Out) by congruence. rewrite (seen_off Hne) in Hme.
  destruct (read_cpu_own b _ _ _ _ _ _ _ i k Hme Hk) as (k' & Hrun & Ha & Hn); [rewrite (ck_ncli _ _ Hok), Hpc; done|].
  assert (Hi : lk_cpu (default lock_zero (sm_locks g !! lk)) = Some i) by (apply named_cpu; by rewrite Hpc).
  assert (b = true) as -> by (pose proof (ck_read _ _ Hok) as Hr; rewrite Hpc in Hr; by destruct b).
  rewrite (bool_decide_eq_true_2 _ Hi) in Hrun.
  eapply step_at.
  - rewrite Hpc, (seen_off Hne). cbn [turn]. erewrite bind_Ret by exact Hrun. reflexivity.
  - apply (inv_same g i c k); try done; [|by rewrite Hpc..]. split; cbn [co_id co_pc co_if]; [by rewrite Ha, (ck_id _ _ Hok)|done..].
Qed.

Lemma at_Crit : co_pc c = Crit -> steps_to i g.
Proof using All.
  intros Hpc. assert (Hne : co_pc c ≠ Out) by congruence. rewrite (seen_off Hne) in Hme.
  destruct (pushcli_own _ _ _ _ _ _ _ _ i k Hme Hk) as (k' & Hrun & Ha & Hn & _).
  eapply step_at.
  - rewrite Hpc, (seen_off Hne). cbn [turn]. erewrite bind_Ret by exact Hrun. reflexivity.
  - apply (inv_same g i c k); try done; [|by rewrite Hpc..]. pose proof Hok as [H1 H2 _ _]. rewrite Hpc in H2.
    split; cbn [co_id co_pc co_if depth] in *; [congruence|lia|done|done].
Qed.

Lemma at_RelPop : co_pc c = RelPop -> steps_to i g.
Proof using All.
  intros Hpc. assert (Hne : co_pc c ≠ Out) by congruence. rewrite (seen_off Hne) in Hme.
  pose proof Hok as [H1 H2 _ _]. rewrite Hpc in H2. cbn [depth] in H2.
  destruct (popcli_own _ _ _ _ _ _ _ i k Hme Hk) as (k' & f & Hrun & Ha & Hn & _); [lia|].
  eapply step_at.
  - rewrite Hpc, (seen_off Hne). cbn [turn]. erewrite bind_Ret by exact Hrun. reflexivity.
  - apply (inv_same g i c k); try done; [|by rewrite Hpc..]. split; cbn [co_id co_pc co_if depth]; [congruence|lia|done|done].
Qed.

(** A turn that stores [l] in the lock; [o] is who is past the exchange afterwards. *)
Lemma at_store at_ l (o : option nat) : co_pc c ≠ Out -> at_ ≠ RelCpu false -> depth at_ = depth (co_pc c) ->
  turn lk (co_pc c) (W (seen g c) co p s) =
    Ret at_ (W (mkMachine (co_id c) false (co_cr3 c) (co_tr c) (co_cr2 c) (sm_image g) (sm_cpus g) (<[lk := l]> (sm_locks g))) co p s) ->
  locked l = (if o then 1 else 0) -> (forall j, owns (moved g i at_ j) = true <-> o = Some j) ->
  (forall j, named (moved g i at_ j) = true <-> lk_cpu l = Some j) -> steps_to i g.
Proof using Hinv Hc Hk Hok.
  intros Hne Hr Hd Hrun Hl Ho Hn. eapply step_at; [exact Hrun|]. rewrite own_same.
  eapply (inv_upd g i c k); try done; [by apply stays| |]; rewrite lookup_insert_eq; cbn [default from_option id]; eauto.
Qed.

(** The CPU that is past the exchange is alone there. *)
Lemma others_out j : owns (co_pc c) = true -> j ≠ i -> owns (pc_of g j) = false.
Proof using Hinv Hc.
  intros Hi Hj. destruct (iv_lock _ Hinv) as (o & _ & Ho). apply not_true_is_false. intros Hoj%Ho.
  rewrite <- (pc_of_at g i c Hc) in Hi. apply Ho in Hi. congruence.
Qed.

Lemma named_owns at_ : named at_ = true -> owns at_ = true.
Proof using Type. by destruct at_. Qed.

Lemma at_Spin : co_pc c = Spin -> steps_to i g.
Proof using All.
  intros Hpc. assert (Hne : co_pc c ≠ Out) by congruence. destruct (iv_lock _ Hinv) as (o & Hl & Ho).
  assert (Hi : o ≠ Some i) by (intros Hi; apply Ho in Hi; rewrite (pc_of_at g i c Hc), Hpc in Hi; done).
  assert (Hni : lk_cpu (default lock_zero (sm_locks g !! lk)) ≠ Some i) by (intros Hi'; apply named_cpu in Hi'; by rewrite Hpc in Hi').
  apply (at_store (if o then Spin else Got) (default lock_zero (sm_locks g !! lk) <| locked := 1 |>) (Some (default i o))); try done.
  - by destruct o.
  - rewrite Hpc. by destruct o.
  - rewrite Hpc, (seen_off Hne). cbn [turn]. unfold acquire_spin, xchg_locked, bind, get_m, set_lock, put_m, ret, lock_of; cbn.
    rewrite Hl. by destruct o.
  - intros j. unfold moved. destruct (decide (j = i)) as [->|Hj]; destruct o as [h|]; cbn [default from_option id] in *.
    + split; [done|]. intros [= ->]. congruence.
    + done.
    + apply Ho.
    + rewrite Ho. split; [done|]. intros [= ->]. congruence.
  - intros j. change (lk_cpu (_ <| locked := 1 |>)) with (lk_cpu (default lock_zero (sm_locks g !! lk))). unfold moved.
    destruct (decide (j = i)) as [->|Hj]; [|apply (iv_named _ Hinv)]. destruct o; (split; [done|intros Hi'; congruence]).
Qed.

(** The three stores of the CPU past the exchange. *)
Lemma at_owner at_ l : co_pc c ≠ Out -> owns (co_pc c) = true -> at_ ≠ RelCpu false -> depth at_ = depth (co_pc c) ->
  turn lk (co_pc c) (W (seen g c) co p s) =
    Ret at_ (W (mkMachine (co_id c) false (co_cr3 c) (co_tr c) (co_cr2 c) (sm_image g) (sm_cpus g) (<[lk := l]> (sm_locks g))) co p s) ->
  locked l = (if owns at_ then 1 else 0) -> lk_cpu l = (if named at_ then Some i else None) -> steps_to i g.
Proof using Hinv Hc Hk Hok.
  intros Hne Hi Hr Hd Hrun Hl Hn. apply (at_store at_ l (if owns at_ then Some i else None)); try done.
  - rewrite Hl. by destruct (owns at_).
  - intros j. unfold moved. destruct (decide (j = i)) as [->|Hj]; [by destruct (owns at_)|]. rewrite (others_out j Hi Hj).
    destruct (owns at_); (split; [done|congruence]).
  - intros j. rewrite Hn. unfold moved. destruct (decide (j = i)) as [->|Hj]; [by destruct (named at_)|]. split; [|destruct (named at_); congruence].
    intros Hj'%named_owns. by rewrite (others_out j Hi Hj) in Hj'.
Qed.

Lemma steps_ok : steps_to i g.
Proof using All.
  assert (Hown := owner_locked). destruct (co_pc c) as [| |b| | | | |b| | |] eqn:Hpc.
  - by apply at_Out.
  - apply (at_read AcqCpu); rewrite ?Hpc; (done || by left).
  - by apply (at_AcqCpu b).
  - by apply at_Spin.
  - apply (at_owner Crit (default lock_zero (sm_locks g !! lk) <| lk_cpu := Some i |>)); rewrite ?Hpc; try done; [|by apply Hown].
    rewrite (seen_off ltac:(congruence)) in Hme |- *. cbn [turn]. unfold acquire_done.
    erewrite bind_Ret; [reflexivity|]. erewrite bind_Ret by by eapply mycpu_run. reflexivity.
  - by apply at_Crit.
  - apply (at_read RelCpu); rewrite ?Hpc; (done || by right).
  - by apply (at_RelCpu b).
  - apply (at_owner RelStore (default lock_zero (sm_locks g !! lk) <| lk_cpu := None |>)); rewrite ?Hpc; try done; [|by apply Hown].
    by rewrite (seen_off ltac:(congruence)).
  - apply (at_owner RelPop (default lock_zero (sm_locks g !! lk) <| locked := 0 |>)); rewrite ?Hpc; try done.
    + by rewrite (seen_off ltac:(congruence)).
    + cbn [named]. change (lk_cpu (_ <| locked := 0 |>)) with (lk_cpu (default lock_zero (sm_locks g !! lk))).
      destruct (lk_cpu _) as [j|] eqn:Hj; [|done]. apply (iv_named _ Hinv) in Hj. destruct (decide (j = i)) as [->|Hne].
      * by rewrite (pc_of_at g i c Hc), Hpc in Hj.
      * apply named_owns in Hj. rewrite (others_out j) in Hj; [done|by rewrite Hpc|done].
  - by apply at_RelPop.
Qed.
End at_point.

Lemma cpu_step_ok g i c : inv g -> sm_cores g !! i = Some c -> steps_to i g.
Proof using Type. intros Hinv Hc. destruct (find_me g i c Hinv Hc) as (k & Hk & Hok & Hme). by eapply steps_ok. Qed.

Lemma flag_step_ok g i b g' : inv g -> flag_step i b g = Some g' -> inv g'.
Proof using Type.
  intros Hinv. unfold flag_step. destruct (sm_cores g !! i) as [c|] eqn:Hc; [|done]. cbn [mbind option_bind].
  destruct (decide _) as [Hpc|]; [|done]. intros [= <-]. destruct (find_me g i c Hinv Hc) as (k & Hk & [H1 H2 _ _] & _).
  unfold seen. cbn [co_id co_if co_cr3 co_tr co_cr2]. rewrite (own_same g i k Hk). apply (inv_same g i c k); try done; [|by rewrite Hpc..].
  rewrite Hpc in H2. by split.
Qed.

Lemma inv_reachable g g' : inv g -> rtc step g g' -> inv g'.
Proof using Type.
  intros Hinv. induction 1 as [|g1 g2 g3 Hstep _ IH]; [done|]. apply IH. destruct Hstep as [i g2 Hrun|i b g2 Hrun].
  - destruct (sm_cores g1 !! i) as [c|] eqn:Hc; [|unfold cpu_step in Hrun; by rewrite Hc in Hrun].
    destruct (cpu_step_ok g1 i c Hinv Hc) as (g2' & Hrun' & Hi). congruence.
  - by eapply flag_step_ok.
Qed.

Lemma started_inv g : started_up g -> inv g.
Proof using Type.
  intros (Hids & Hcs & Hl).
  assert (Hout : forall j, pc_of g j = Out).
  { intros j. unfold pc_of. destruct (sm_cores g !! j) as [c|] eqn:Hc; [|done]. destruct (Forall2_lookup_l _ _ _ _ _ Hcs Hc) as (k & _ & Hpc & _). done. }
  split; [done| | |].
  - eapply Forall2_impl; [exact Hcs|]. intros c k (Hpc & Ha & Hn). split; rewrite ?Hpc; done.
  - exists None. rewrite Hl. split; [done|]. intros j. rewrite Hout. done.
  - intros j. rewrite Hl, Hout. done.
Qed.

End smp.

Lemma spin_free {S} lk co p (s : S) id f r t e a cs ls :
  locked (default lock_zero (ls !! lk)) = 0 ->
  acquire_spin lk (W (mkMachine id f r t e a cs ls) co p s) =
  Ret true (W (mkMachine id f r t e a cs (<[lk := default lock_zero (ls !! lk) <| locked := 1 |>]> ls)) co p s).
Proof. intros Hl. unfold acquire_spin, xchg_locked, bind, get_m, set_lock, put_m, ret, lock_of; cbn. by rewrite Hl. Qed.

(** Left alone, a CPU that goes through the points of [acquire] on a free lock, and later through those of [release],
    does what the functions of spinlock.c do. *)
Lemma turns_acquire {S} lk co p (s : S) id f r t e a cs ls i k :
  my_cpu (mkMachine id f r t e a cs ls) = Some i -> cs !! i = Some k -> 0 <= ncli k -> locked (default lock_zero (ls !! lk)) = 0 ->
  turns lk 5 Crit Out (W (mkMachine id f r t e a cs ls) co p s) = acquire lk (W (mkMachine id f r t e a cs ls) co p s).
Proof.
  intros Hme Hk Hn Hl. assert (Hlt : (i < length cs)%nat) by by eapply lookup_lt_Some.
  destruct (pushcli_own co p s _ _ _ _ _ _ _ _ i k Hme Hk) as (k1 & H1 & _ & Hn1 & Hme1).
  destruct (pushcli_own co p s _ _ _ _ _ _ _ _ i k1 Hme1) as (k2 & H2 & _ & Hn2 & Hme2); [by apply list_lookup_insert_eq|].
  rewrite list_insert_insert_eq in H2, Hme2.
  destruct (popcli_own co p s _ _ _ _ _ _ _ i k2 Hme2) as (k3 & f3 & H3 & Ha3 & Hn3 & Hf); [by apply list_lookup_insert_eq|lia|].
  rewrite Hf in H3 by lia. rewrite list_insert_insert_eq in H3.
  assert (Hme3 : my_cpu (mkMachine id false r t e a (<[i := k3]> cs) (<[lk := default lock_zero (ls !! lk) <| locked := 1 |>]> ls)) = Some i).
  { rewrite <- Hme2. eapply (my_cpu_insert _ _ i k2 k3); cbn [cpus lapic_id]; [by rewrite list_insert_insert_eq|by apply list_lookup_insert_eq|done|done]. }
  transitivity (acquire_done lk (W (mkMachine id false r t e a (<[i := k3]> cs) (<[lk := default lock_zero (ls !! lk) <| locked := 1 |>]> ls)) co p s)).
  - cbn [turns turn].
    erewrite bind_Ret by (erewrite bind_Ret by exact H1; erewrite bind_Ret by exact H2; reflexivity).
    rewrite decide_False by done. erewrite bind_Ret by reflexivity. rewrite decide_False by done.
    erewrite bind_Ret; cycle 1.
    { cbn [turn]. unfold read_cpu. erewrite bind_Ret; cycle 1.
      { erewrite bind_Ret by reflexivity. erewrite bind_Ret by (by eapply mycpu_run). erewrite bind_Ret by exact H3. reflexivity. }
      unfold lock_of. cbn [w_m locks]. rewrite Hl. reflexivity. }
    rewrite decide_False by done. erewrite bind_Ret; cycle 1.
    { cbn [turn]. erewrite bind_Ret by (by apply spin_free). reflexivity. }
    rewrite decide_False by done.
    erewrite bind_Ret; cycle 1. { cbn [turn]. unfold acquire_done. erewrite bind_Ret; [reflexivity|]. erewrite bind_Ret by by eapply mycpu_run. reflexivity. }
    rewrite decide_True by done. unfold acquire_done. erewrite bind_Ret by by eapply mycpu_run. reflexivity.
  - unfold acquire, acquire_enter, holding.
    erewrite bind_Ret; cycle 1.
    { erewrite bind_Ret by exact H1. erewrite bind_Ret; cycle 1.
      { erewrite bind_Ret by exact H2. erewrite bind_Ret by reflexivity. erewrite bind_Ret by (by eapply mycpu_run).
        erewrite bind_Ret by exact H3. reflexivity. }
      unfold lock_of. cbn [w_m locks]. rewrite Hl. reflexivity. }
    by erewrite bind_Ret by (by apply spin_free).
Qed.

Lemma turns_release {S} lk co p (s : S) id r t e a cs ls i k :
  my_cpu (mkMachine id false r t e a cs ls) = Some i -> cs !! i = Some k -> 1 <= ncli k ->
  locked (default lock_zero (ls !! lk)) = 1 -> lk_cpu (default lock_zero (ls !! lk)) = Some i ->
  turns lk 6 Out Crit (W (mkMachine id false r t e a cs ls) co p s) = release lk (W (mkMachine id false r t e a cs ls) co p s).
Proof.
  intros Hme Hk Hn Hl Hc. assert (Hlt : (i < length cs)%nat) by by eapply lookup_lt_Some.
  destruct (pushcli_own co p s _ _ _ _ _ _ _ _ i k Hme Hk) as (k1 & H1 & _ & Hn1 & Hme1).
  destruct (popcli_own co p s _ _ _ _ _ _ _ i k1 Hme1) as (k2 & f & H2 & Ha2 & Hn2 & Hf); [by apply list_lookup_insert_eq|lia|].
  rewrite Hf in H2 by lia. rewrite list_insert_insert_eq in H2.
  set (ls1 := <[lk := default lock_zero (ls !! lk) <| lk_cpu := None |>]> ls).
  transitivity (release_store lk (W (mkMachine id false r t e a (<[i := k2]> cs) ls1) co p s)).
  - cbn [turns turn]. erewrite bind_Ret by (erewrite bind_Ret by exact H1; reflexivity).
    rewrite decide_False by done. erewrite bind_Ret by reflexivity. rewrite decide_False by done.
    erewrite bind_Ret; cycle 1.
    { cbn [turn]. unfold read_cpu. erewrite bind_Ret; cycle 1.
      { erewrite bind_Ret by reflexivity. erewrite bind_Ret by (by eapply mycpu_run). erewrite bind_Ret by exact H2. reflexivity. }
      unfold lock_of. cbn [w_m locks]. rewrite Hl, Hc, bool_decide_eq_true_2 by done. reflexivity. }
    rewrite decide_False by done. erewrite bind_Ret by reflexivity. rewrite decide_False by done.
    erewrite bind_Ret by reflexivity. rewrite decide_False by done. unfold release_store.
    assert (Hme2 : my_cpu (mkMachine id false r t e a (<[i := k2]> cs) (<[lk := default lock_zero (ls1 !! lk) <| locked := 0 |>]> ls1)) = Some i).
    { rewrite <- Hme1. eapply (my_cpu_insert _ _ i k1 k2); cbn [cpus lapic_id]; [by rewrite list_insert_insert_eq|by apply list_lookup_insert_eq|done|done]. }
    destruct (popcli_own co p s _ _ _ _ _ _ _ i k2 Hme2) as (k3 & f3 & H3 & _); [by apply list_lookup_insert_eq|lia|].
    transitivity (Ret tt (W (mkMachine id f3 r t e a (<[i := k3]> (<[i := k2]> cs)) (<[lk := default lock_zero (ls1 !! lk) <| locked := 0 |>]> ls1)) co p s)).
    + erewrite bind_Ret by (cbn [turn]; erewrite bind_Ret by exact H3; reflexivity). by rewrite decide_True.
    + symmetry. erewrite bind_Ret by reflexivity. erewrite bind_Ret by reflexivity. exact H3.
  - unfold release, release_enter, holding. symmetry.
    erewrite bind_Ret; [done|]. erewrite bind_Ret; cycle 1.
    { erewrite bind_Ret by exact H1. erewrite bind_Ret by reflexivity. erewrite bind_Ret by (by eapply mycpu_run).
      erewrite bind_Ret by exact H2. reflexivity. }
    unfold lock_of. cbn [w_m locks]. rewrite Hl, Hc, bool_decide_eq_true_2 by done. reflexivity.
Qed.

(** ** Properties *)

(** C7.  Mutual exclusion.  From a start with all CPUs outside and the lock free, in every state that any interleaving of
    the CPUs (and of their interrupts) reaches: at most one CPU is past the exchange of [acquire] and before
    the store of [release]; the CPU in its critical section is the one [lk->cpu] names, with the lock taken; a CPU
    that has entered [acquire] and not left [release] has interrupts off, so no handler can wait on it for
    the lock; no CPU's next turn panics; and when no CPU has the lock, a CPU that spins gets it with its next turn. *)
Theorem smp_exclusion {S} lk co p (s : S) g g' :
  started_up lk g -> rtc (step lk co p s) g g' ->
  let l := default lock_zero (sm_locks g' !! lk) in
  (forall i j, owns (pc_of g' i) = true -> owns (pc_of g' j) = true -> i = j) /\
  (forall i, pc_of g' i = Crit -> lk_cpu l = Some i /\ locked l = 1) /\
  (forall i c, sm_cores g' !! i = Some c -> co_pc c ≠ Out -> co_if c = false) /\
  (forall i c, sm_cores g' !! i = Some c -> exists g2, cpu_step lk co p s i g' = Some g2 /\
    (co_pc c = Spin -> (forall j, owns (pc_of g' j) = false) -> pc_of g2 i = Got)).
Proof.
  intros Hst Hsteps l. pose proof (inv_reachable lk co p s _ _ (started_inv lk _ Hst) Hsteps) as Hinv.
  destruct (iv_lock _ _ Hinv) as (o & Hl & Ho). split_and!.
  - intros i j Hi%Ho Hj%Ho. congruence.
  - intros i Hi. split; [apply (iv_named _ _ Hinv); by rewrite Hi|]. unfold l. rewrite Hl.
    assert (o = Some i) as -> by (apply Ho; by rewrite Hi). done.
  - intros i c Hc Hne. destruct (find_me lk g' i c Hinv Hc) as (k & _ & Hok & _). by apply (ck_if _ _ Hok).
  - intros i c Hc. destruct (cpu_step_ok lk co p s g' i c Hinv Hc) as (g2 & Hrun & _). exists g2. split; [done|].
    intros Hpc Hfree. assert (o = None) as -> by (destruct o as [h|]; [|done]; specialize (Hfree h); rewrite (proj2 (Ho h) eq_refl) in Hfree; done).
    revert Hrun. unfold cpu_step. rewrite Hc. cbn [mbind option_bind]. rewrite Hpc. unfold seen. cbn [turn].
    erewrite bind_Ret by (by apply spin_free). cbn [ret]. intros [= <-]. unfold pc_of, seen_back. cbn [sm_cores].
    rewrite list_lookup_insert_eq; [done|]. by eapply lookup_lt_Some.
Qed.

(** A schedule: the CPUs that take a turn, in order. *)
Fixpoint scheduled {S} lk co p (s : S) (l : list nat) (g : smp) : option smp :=
  match l with [] => Some g | i :: l => g ← cpu_step lk co p s i g; scheduled lk co p s l g end.

Lemma scheduled_steps {S} lk co p (s : S) l : forall g g', scheduled lk co p s l g = Some g' -> rtc (step lk co p s) g g'.
Proof.
  induction l as [|i l IH]; intros g g' Hrun; [by injection Hrun as ->|]. cbn [scheduled] in Hrun.
  destruct (cpu_step lk co p s i g) as [g1|] eqn:Hs; [|done]. eapply rtc_l; [by eapply step_cpu|]. by apply IH.
Qed.

(** Two CPUs; CPU 1 enters first, CPU 0 overtakes it, and CPU 1 spins while CPU 0 is in its critical section. *)
Definition ex_smp : smp :=
  mkSmp [mkCore 0 true 0 0 0 Out; mkCore 1 false 0 0 0 Out] (mkImage 0x80112780 0x801042c5)
    [mkCpu 0 1 0 true None 0 0 0 (replicate NSEGS seg_zero);
     mkCpu 1 1 0 false None 0 0 0 (replicate NSEGS seg_zero)] ∅.
Definition ex_schedule : list nat := [1; 0; 0; 0; 1; 0; 1; 1; 0; 1; 1]%nat.
Definition ex_overtaken : smp := default ex_smp (scheduled Lptable ex_con0 ex_procs0 tt ex_schedule ex_smp).

Lemma smp_exclusion_witness :
  pc_of ex_overtaken 0 = Crit /\ pc_of ex_overtaken 1 = Spin /\
  lk_cpu (default lock_zero (sm_locks ex_overtaken !! Lptable)) = Some 0%nat.
Proof.
  assert (Hst : started_up Lptable ex_smp).
  { split_and!; [|by repeat constructor|done]. by apply (bool_decide_unpack _); vm_compute. }
  assert (Hrun : scheduled Lptable ex_con0 ex_procs0 tt ex_schedule ex_smp = Some ex_overtaken) by (vm_compute; reflexivity).
  pose proof (smp_exclusion Lptable ex_con0 ex_procs0 tt ex_smp ex_overtaken Hst (scheduled_steps _ _ _ _ _ _ _ Hrun)) as (_ & Hcrit & _ & _).
  assert (H0 : pc_of ex_overtaken 0 = Crit) by (vm_compute; reflexivity).
  split_and!; [exact H0|vm_compute; reflexivity|exact (proj1 (Hcrit 0%nat H0))].
Defined.
