(* ===== verification/Cprintf.v ===== *)
(** * Console output (the output half of console.c, uartputc of uart.c)

    The kernel's [cprintf] down to the serial port and the CGA text memory.
    [render] says what a format and its arguments spell; the theorems show
    that [cprintf] puts exactly those bytes on the serial line, keeps the
    cursor on the screen, and leaves everything else alone. *)

From S2P Require Import Prelude Kstate Spinlock.
From stdpp Require Import gmap strings list fin_maps.
From Stdlib Require Import Ascii.
Open Scope Z_scope.

Definition BACKSPACE : Z := 256.
Definition crt_size : nat := 2000.

(** An argument of [cprintf]: a word, or a pointer to a string. *)
Inductive carg := AInt (z : Z) | AStr (s : option (list Z)).

Section cprintf.
Context {S : Type}.

Definition uartputc (c : Z) : M S unit :=
  let! co := get_c in
  if negb (uart co) then ret tt
  else put_c (co <| uart_out := uart_out co ++ [u8 c] |>).

(** [crt[i] = x] in the text memory of the visible page. *)
Definition crt_poke (i x : Z) : M S unit :=
  let! co := get_c in
  put_c (co <| crt := <[Z.to_nat i := x]> (crt co) |>).

Definition crt_scroll (pos : Z) : M S unit :=
  let! co := get_c in
  let t := crt co in
  let t := take (23 * 80) (drop 80 t) ++ drop (23 * 80) t in
  let n := Z.to_nat (24 * 80 - pos) in
  let t := take (Z.to_nat pos) t ++ replicate n 0 ++ drop (Z.to_nat pos + n) t in
  put_c (co <| crt := t |>).

Definition cgaputc (c : Z) : M S unit :=
  let! co := get_c in
  let pos := crt_pos co in
  let! pos :=
    (if c =? 10 then ret (pos + (80 - Z.rem pos 80))
     else if c =? BACKSPACE then ret (if 0 <? pos then pos - 1 else pos)
     else crt_poke pos (Z.lor (Z.land c 255) 1792) ;;; ret (pos + 1)) in
  if (pos <? 0) || (25 * 80 <? pos) then panic "pos under/overflow"
  else
    let! pos :=
      (if 24 <=? Z.quot pos 80 then crt_scroll (pos - 80) ;;; ret (pos - 80)
       else ret pos) in
    let! co := get_c in
    put_c (co <| crt_pos := Z.lor (Z.shiftl (u8 (Z.shiftr pos 8)) 8) (u8 pos) |>) ;;;
    crt_poke pos (Z.lor 32 1792).

Definition consputc (c : Z) : M S unit :=
  let! co := get_c in
  if panicked co then cli ;;; hang
  else
    (if c =? BACKSPACE then uartputc 8 ;;; uartputc 32 ;;; uartputc 8
     else uartputc c) ;;;
    cgaputc c.

(** [do buf[i++] = digits[x % base]; while((x /= base) != 0)]: the digits, least
    significant first. *)
Definition digit (d : Z) : Z := if d <? 10 then 48 + d else 97 + (d - 10).

Fixpoint digits_loop (fuel : nat) (x base : Z) : list Z :=
  match fuel with
  | O => []
  | Datatypes.S fuel =>
      digit (x mod base) :: (if x / base =? 0 then [] else digits_loop fuel (x / base) base)
  end.

(** The buffer [printint] fills: sixteen digits are enough for 32 bits in base 10 and 16. *)
Definition printint_buf (xx base : Z) (sign : bool) : list Z :=
  let neg := sign && (xx <? 0) in
  let x := if neg then u32 (- xx) else u32 xx in
  digits_loop 16 x base ++ (if neg then [45] else []).

Definition puts (bs : list Z) : M S unit := for_list bs consputc.

Definition printint (xx base : Z) (sign : bool) : M S unit :=
  puts (rev (printint_buf xx base sign)).

Fixpoint cprintf_loop (fmt : list Z) (args : list carg) : M S unit :=
  match fmt with
  | [] => ret tt
  | c :: fmt =>
      if negb (c =? chr "%") then consputc c ;;; cprintf_loop fmt args
      else
        match fmt with
        | [] => ret tt
        | c :: fmt =>
            if c =? chr "d" then
              match args with
              | AInt z :: args => printint z 10 true ;;; cprintf_loop fmt args
              | _ => undef
              end
            else if (c =? chr "x") || (c =? chr "p") then
              match args with
              | AInt z :: args => printint z 16 false ;;; cprintf_loop fmt args
              | _ => undef
              end
            else if c =? chr "s" then
              match args with
              | AStr o :: args => puts (default (str "(null)") o) ;;; cprintf_loop fmt args
              | _ => undef
              end
            else if c =? chr "%" then consputc (chr "%") ;;; cprintf_loop fmt args
            else consputc (chr "%") ;;; consputc c ;;; cprintf_loop fmt args
        end
  end.

Definition cprintf (fmt : string) (args : list carg) : M S unit :=
  let! co := get_c in
  let locking := cons_locking co in
  when locking (acquire Lcons) ;;;
  cprintf_loop (str fmt) args ;;;
  when locking (release Lcons).

End cprintf.

(** ** What cprintf spells *)

(** The bytes a format spells with its arguments; [None] when an argument is
    missing or of the wrong kind. *)
Fixpoint render (fmt : list Z) (args : list carg) : option (list Z) :=
  match fmt with
  | [] => Some []
  | c :: fmt =>
      if negb (c =? chr "%") then cons c <$> render fmt args
      else
        match fmt with
        | [] => Some []
        | c :: fmt =>
            if c =? chr "d" then
              match args with
              | AInt z :: args => app (rev (printint_buf z 10 true)) <$> render fmt args
              | _ => None
              end
            else if (c =? chr "x") || (c =? chr "p") then
              match args with
              | AInt z :: args => app (rev (printint_buf z 16 false)) <$> render fmt args
              | _ => None
              end
            else if c =? chr "s" then
              match args with
              | AStr o :: args => app (default (str "(null)") o) <$> render fmt args
              | _ => None
              end
            else if c =? chr "%" then cons (chr "%") <$> render fmt args
            else (fun r => chr "%" :: c :: r) <$> render fmt args
        end
  end.

(** The console between calls: not panicked, the cursor on the first 24 rows. *)
Definition con_ok (co : console) : Prop :=
  panicked co = false /\ length (crt co) = crt_size /\ 0 <= crt_pos co < 24 * 80.

(** [con_add co co' bs]: [co'] is [co] after [bs] were printed. *)
Definition con_add (co co' : console) (bs : list Z) : Prop :=
  con_ok co' /\ cons_locking co' = cons_locking co /\ uart co' = uart co /\
  uart_out co' = uart_out co ++ (if uart co then bs else []).

Lemma con_add_nil co : con_ok co -> con_add co co [].
Proof.
  intros Hok. unfold con_add. split; [done|]. split; [done|]. split; [done|].
  by destruct (uart co); rewrite app_nil_r.
Qed.

Lemma con_add_trans co co' co'' bs bs' :
  con_add co co' bs -> con_add co' co'' bs' -> con_add co co'' (bs ++ bs').
Proof.
  intros (_ & Hl & Hu & Ho) (Hok & Hl' & Hu' & Ho'). unfold con_add.
  rewrite Hl', Hl, Hu', Hu, Ho', Ho, Hu. by destruct (uart co); rewrite <- ?app_assoc.
Qed.

(** ** Correctness *)

Lemma pos_regs pos :
  0 <= pos < 65536 -> Z.lor (Z.shiftl (u8 (Z.shiftr pos 8)) 8) (u8 pos) = pos.
Proof.
  intros Hp. unfold u8. rewrite Z.shiftr_div_pow2, Z.shiftl_mul_pow2 by lia.
  change (2 ^ 8) with 256. rewrite (Z.mod_small (pos / 256)).
  2:{ split; [apply Z.div_pos; lia|]. apply Z.div_lt_upper_bound; lia. }
  pose proof (Z.div_mod pos 256 ltac:(lia)) as Hd.
  pose proof (Z.mod_pos_bound pos 256 ltac:(lia)) as Hm.
  assert (Z.land (pos / 256 * 256) (pos mod 256) = 0) as H0.
  { apply Z.bits_inj'. intros n Hn. rewrite Z.land_spec, Z.bits_0.
    change 256 with (2 ^ 8). destruct (decide (n < 8)).
    - by rewrite Z.mul_pow2_bits_low by lia.
    - rewrite (Z.mod_pow2_bits_high pos 8 n) by lia. by rewrite andb_false_r. }
  rewrite <- Z.lxor_lor, <- Z.add_nocarry_lxor by done. lia.
Qed.

Section correctness.
Context {S : Type} (m : machine) (p : procs) (s : S).

Lemma uartputc_ok co c (Q : unit -> world S -> Prop) :
  con_ok co -> is_u8 c ->
  (forall co', con_add co co' [c] -> crt_pos co' = crt_pos co -> Q tt (W m co' p s)) ->
  wp (uartputc c) Q (W m co p s).
Proof.
  intros Hok Hc HQ. unfold uartputc. ksteps. destruct (uart co) eqn:Hu; cbn [negb]; ksteps.
  - apply HQ; [|done]. unfold con_add, con_ok. cbn. rewrite Hu, u8_id by done. done.
  - apply HQ; [|done]. unfold con_add. by rewrite Hu, app_nil_r.
Qed.

(** [co'] differs from [co] at most in the text memory and the cursor. *)
Definition con_same (co co' : console) : Prop :=
  cons_locking co' = cons_locking co /\ panicked co' = panicked co /\
  uart co' = uart co /\ uart_out co' = uart_out co /\
  length (crt co') = length (crt co).

Lemma con_same_trans co co' co'' : con_same co co' -> con_same co' co'' -> con_same co co''.
Proof. unfold con_same. intuition congruence. Qed.

Lemma con_same_add co co' :
  con_ok co -> con_same co co' -> 0 <= crt_pos co' < 24 * 80 -> con_add co co' [].
Proof.
  intros (Hp & Hl & _) (Hc & Hpan & Hu & Ho & Hlen) Hpos.
  unfold con_add, con_ok. rewrite Hc, Hpan, Hu, Ho, Hlen.
  destruct (uart co); rewrite app_nil_r; done.
Qed.

Lemma crt_poke_ok co i x (Q : unit -> world S -> Prop) :
  (forall co', con_same co co' -> crt_pos co' = crt_pos co -> Q tt (W m co' p s)) ->
  wp (crt_poke i x) Q (W m co p s).
Proof.
  intros HQ. unfold crt_poke. ksteps. apply HQ; [|done].
  unfold con_same; cbn. by rewrite length_insert.
Qed.

Lemma crt_scroll_ok co pos (Q : unit -> world S -> Prop) :
  length (crt co) = crt_size -> 0 <= pos <= 24 * 80 ->
  (forall co', con_same co co' -> crt_pos co' = crt_pos co -> Q tt (W m co' p s)) ->
  wp (crt_scroll pos) Q (W m co p s).
Proof.
  intros Hl Hp HQ. unfold crt_scroll. ksteps. apply HQ; [|done].
  unfold con_same, crt_size in *; cbn -[take drop].
  rewrite !length_app, !length_take, !length_drop, !length_app, length_replicate,
    !length_take, !length_drop. repeat split; try done. lia.
Qed.

(** The tail of [cgaputc]: scroll if needed, move the cursor, blank the cell. *)
Lemma cgaputc_tail_ok co0 co pos (Q : unit -> world S -> Prop) :
  con_ok co0 -> con_same co0 co -> 0 <= pos <= 24 * 80 ->
  (forall co', con_add co0 co' [] -> Q tt (W m co' p s)) ->
  wp (let! pos :=
        (if 24 <=? Z.quot pos 80 then crt_scroll (pos - 80) ;;; ret (pos - 80)
         else ret pos) in
      let! co := get_c in
      put_c (co <| crt_pos := Z.lor (Z.shiftl (u8 (Z.shiftr pos 8)) 8) (u8 pos) |>) ;;;
      crt_poke pos (Z.lor 32 1792)) Q (W m co p s).
Proof.
  intros Hok Hsame Hpos HQ.
  assert (Hend : forall co1 pos1, con_same co0 co1 -> 0 <= pos1 < 24 * 80 ->
    wp (let! co := get_c in
        put_c (co <| crt_pos := Z.lor (Z.shiftl (u8 (Z.shiftr pos1 8)) 8) (u8 pos1) |>) ;;;
        crt_poke pos1 (Z.lor 32 1792)) Q (W m co1 p s)).
  { intros co1 pos1 Hs1 Hp1. ksteps. apply crt_poke_ok. intros co' Hs' Hp'.
    apply HQ. apply con_same_add; [done| |].
    - eapply con_same_trans; [exact Hs1|].
      eapply con_same_trans; [|exact Hs']. done.
    - rewrite Hp'. cbn. rewrite pos_regs; lia. }
  kstep. rewrite Z.quot_div_nonneg by lia.
  destruct (Z.leb_spec 24 (pos / 80)) as [Hge|Hlt].
  - pose proof (Z.mul_div_le pos 80 ltac:(lia)) as Hmul.
    kstep. apply crt_scroll_ok; [destruct Hsame as (_&_&_&_&->); by destruct Hok as (_&?&_)|lia|].
    intros co' Hs' _. kstep. apply Hend; [by eapply con_same_trans|lia].
  - kstep. apply Hend; [done|].
    pose proof (Z.div_le_lower_bound pos 80 24). lia.
Qed.

Lemma cgaputc_ok co c (Q : unit -> world S -> Prop) :
  con_ok co ->
  (forall co', con_add co co' [] -> Q tt (W m co' p s)) ->
  wp (cgaputc c) Q (W m co p s).
Proof.
  intros Hok HQ. pose proof Hok as (Hpan & Hl & Hpos). unfold cgaputc. ksteps.
  assert (Hrest : forall co1 pos1, con_same co co1 -> 0 <= pos1 <= 24 * 80 ->
    wp (if (pos1 <? 0) || (25 * 80 <? pos1) then panic "pos under/overflow"
        else let! pos :=
        (if 24 <=? Z.quot pos1 80 then crt_scroll (pos1 - 80) ;;; ret (pos1 - 80)
         else ret pos1) in
      let! co := get_c in
      put_c (co <| crt_pos := Z.lor (Z.shiftl (u8 (Z.shiftr pos 8)) 8) (u8 pos) |>) ;;;
      crt_poke pos (Z.lor 32 1792)) Q (W m co1 p s)).
  { intros co1 pos1 Hs Hp1.
    rewrite (proj2 (Z.ltb_ge pos1 0)), (proj2 (Z.ltb_ge (25 * 80) pos1)) by lia.
    by eapply cgaputc_tail_ok. }
  destruct (c =? 10); [|destruct (c =? BACKSPACE)].
  - kstep. apply Hrest; [done|]. rewrite Z.rem_mod_nonneg by lia.
    pose proof (Z.mod_pos_bound (crt_pos co) 80). pose proof (Z.div_mod (crt_pos co) 80).
    assert (crt_pos co / 80 < 24) by (apply Z.div_lt_upper_bound; lia). lia.
  - kstep. apply Hrest; [done|]. destruct (Z.ltb_spec 0 (crt_pos co)); lia.
  - kstep. apply crt_poke_ok. intros co' Hs _. kstep. apply Hrest; [done|lia].
Qed.

Lemma consputc_ok co c (Q : unit -> world S -> Prop) :
  con_ok co -> is_u8 c ->
  (forall co', con_add co co' [c] -> Q tt (W m co' p s)) ->
  wp (consputc c) Q (W m co p s).
Proof.
  intros Hok Hc HQ. unfold consputc. ksteps.
  rewrite (proj1 Hok). kstep. destruct (Z.eqb_spec c BACKSPACE) as [->|].
  { unfold is_u8, BACKSPACE in Hc. lia. }
  apply uartputc_ok; [done|done|]. intros co1 Hadd1 _.
  apply cgaputc_ok; [apply Hadd1|]. intros co2 Hadd2. apply HQ.
  apply (con_add_trans _ _ _ _ _ Hadd1 Hadd2).
Qed.

Lemma puts_ok co bs (Q : unit -> world S -> Prop) :
  con_ok co -> Forall is_u8 bs ->
  (forall co', con_add co co' bs -> Q tt (W m co' p s)) ->
  wp (puts bs) Q (W m co p s).
Proof.
  unfold puts. intros Hok Hbs. revert co Q Hok. induction Hbs as [|b bs Hb Hbs IH];
    intros co Q Hok HQ; cbn [for_list].
  - kstep. by apply HQ, con_add_nil.
  - kstep. apply consputc_ok; [done..|]. intros co1 H1.
    apply IH; [apply H1|]. intros co2 H2. apply HQ.
    apply (con_add_trans _ _ _ _ _ H1 H2).
Qed.

(** Every byte printed fits a byte. *)
Definition arg_ok (a : carg) : Prop :=
  match a with AStr (Some bs) => Forall is_u8 bs | _ => True end.

Lemma chr_u8 a : is_u8 (chr a).
Proof. unfold is_u8, chr. pose proof (nat_ascii_bounded a). lia. Qed.

Lemma str_u8 f : Forall is_u8 (str f).
Proof. induction f; constructor; auto using chr_u8. Qed.

Lemma digits_loop_u8 fuel x base :
  0 < base <= 16 -> Forall is_u8 (digits_loop fuel x base).
Proof.
  intros Hb. revert x; induction fuel as [|fuel IH]; intros x; constructor.
  - unfold digit, is_u8. pose proof (Z.mod_pos_bound x base). case_match; lia.
  - case_match; auto.
Qed.

Lemma printint_buf_u8 xx base sign :
  0 < base <= 16 -> Forall is_u8 (rev (printint_buf xx base sign)).
Proof.
  intros Hb. apply Forall_rev, Forall_app. split; [by apply digits_loop_u8|].
  case_match; repeat constructor; lia.
Qed.

Lemma cprintf_loop_ok co fmt args bs (Q : unit -> world S -> Prop) :
  con_ok co -> Forall is_u8 fmt -> Forall arg_ok args -> render fmt args = Some bs ->
  (forall co', con_add co co' bs -> Q tt (W m co' p s)) ->
  wp (cprintf_loop fmt args) Q (W m co p s).
Proof.
  remember (length fmt) as n eqn:Hn. assert (Hle : (length fmt <= n)%nat) by lia. clear Hn.
  revert fmt co args bs Q Hle.
  induction n as [|n IH]; intros [|c fmt] co args bs Q Hle Hok Hf Ha Hr HQ;
    cbn [length] in *; try lia; cbn [cprintf_loop render] in *.
  1,2: simplify_eq; kstep; by apply HQ, con_add_nil.
  assert (Hcont : forall co1 fmt1 args1 bs1 bs2,
    (length fmt1 <= n)%nat -> Forall is_u8 fmt1 -> Forall arg_ok args1 ->
    render fmt1 args1 = Some bs2 -> bs = bs1 ++ bs2 -> con_add co co1 bs1 ->
    wp (cprintf_loop fmt1 args1) Q (W m co1 p s)).
  { intros co1 fmt1 args1 bs1 bs2 Hl1 Hf1 Ha1 Hr1 -> H1.
    eapply (IH fmt1); [done|apply H1|done..|]. intros co2 H2. apply HQ.
    by eapply con_add_trans. }
  apply Forall_cons in Hf as [Hc Hf].
  destruct (c =? chr "%"); cbn [negb] in *.
  2:{ apply fmap_Some in Hr as (r & Hr & ->).
      kstep. apply consputc_ok; [done..|]. intros co1 H1.
      eapply (Hcont _ _ _ [c]); [|done..]. lia. }
  destruct fmt as [|c' fmt]; [simplify_eq; kstep; by apply HQ, con_add_nil|].
  apply Forall_cons in Hf as [Hc' Hf]. cbn [length] in Hle.
  destruct (c' =? chr "d"); [|destruct ((c' =? chr "x") || (c' =? chr "p"));
    [|destruct (c' =? chr "s"); [|destruct (c' =? chr "%")]]].
  1-3: destruct args as [|[z|o] args]; try done; apply Forall_cons in Ha as [Ha0 Ha];
    apply fmap_Some in Hr as (r & Hr & ->); kstep; unfold printint; apply puts_ok;
    [done| |intros co1 H1; eapply Hcont; [|done..]; lia].
  1,2: by apply printint_buf_u8.
  - destruct o; [done|apply str_u8].
  - apply fmap_Some in Hr as (r & Hr & ->). kstep. apply consputc_ok; [done|apply chr_u8|].
    intros co1 H1. eapply (Hcont _ _ _ [chr "%"]); [|done..]. lia.
  - apply fmap_Some in Hr as (r & Hr & ->). kstep. apply consputc_ok; [done|apply chr_u8|].
    intros co1 H1. kstep. apply consputc_ok; [apply H1|done|]. intros co2 H2.
    eapply (Hcont _ _ _ [chr "%"; c']); [|done..|]; [lia|].
    apply (con_add_trans _ _ _ _ _ H1 H2).
Qed.
End correctness.

(** A kernel message is a format that its arguments match. *)
Definition printable (fmt : string) (args : list carg) : Prop :=
  Forall arg_ok args /\ is_Some (render (str fmt) args).

(** The rule for callers: [cprintf] prints and changes nothing else. *)
Lemma wp_cprintf {S} m H co p (s : S) fmt args (Q : unit -> world S -> Prop) :
  idle m -> has_lock m Lcons -> Lcons ∉ H -> con_ok co -> printable fmt args ->
  (forall co' bs, render (str fmt) args = Some bs -> con_add co co' bs ->
     Q tt (W (held m H) co' p s)) ->
  wp (cprintf fmt args) Q (W (held m H) co p s).
Proof.
  intros Hm Hlk Hni Hok [Ha [bs Hr]] HQ. unfold cprintf. ksteps.
  assert (Hloop : forall H', wp (cprintf_loop (str fmt) args)
    (fun _ w' => exists co', con_add co co' bs /\ w' = W (held m H') co' p s)
    (W (held m H') co p s)).
  { intros H'. eapply cprintf_loop_ok; [done|apply str_u8|done..|]. eauto. }
  destruct (cons_locking co) eqn:Hlock; cbn [when].
  - apply wp_acquire; [done..|]. kstep. eapply wp_mono; [apply Hloop|].
    cbn beta. intros _ w' (co' & Hadd & ->). apply wp_release; [done..|]. eauto.
  - ksteps. eapply wp_mono; [apply Hloop|]. cbn beta. intros _ w' (co' & Hadd & ->).
    kstep. eauto.
Qed.

(** The console the examples use. *)
Definition ex_console : console := mkConsole true false true [] (replicate crt_size 0) 0.

Lemma ex_console_ok : con_ok ex_console.
Proof. unfold con_ok, crt_size, ex_console; cbn -[replicate]. by rewrite length_replicate. Qed.

(** ** Properties *)

(** [cprintf] returns with exactly the bytes the format spells added to the serial
    output (when there is a serial port), the cursor still on the screen, every lock as it was, and
    the rest of the kernel state unchanged. *)
Theorem cprintf_prints {S} m H co p (s : S) fmt args bs :
  idle m -> has_lock m Lcons -> Lcons ∉ H -> con_ok co -> Forall arg_ok args ->
  render (str fmt) args = Some bs ->
  exists co', cprintf fmt args (W (held m H) co p s) = Ret tt (W (held m H) co' p s) /\
    con_ok co' /\ cons_locking co' = cons_locking co /\ uart co' = uart co /\
    uart_out co' = uart_out co ++ (if uart co then bs else []).
Proof.
  intros Hm Hlk Hni Hok Ha Hr.
  assert (Hwp : wp (cprintf fmt args)
    (fun _ w => exists co', w = W (held m H) co' p s /\ con_add co co' bs) (W (held m H) co p s)).
  { apply wp_cprintf; [done..|by split|]. intros co' bs' Hr' Hadd. simplify_eq. eauto. }
  apply wp_elim in Hwp as ([] & w & Hrun & co' & -> & Hadd). eauto.
Qed.

(** Reading back a numeral, most significant digit first. *)
Definition digit_val (c : Z) : Z := if c <? 58 then c - 48 else c - 87.
Definition numeral_val (base : Z) (ds : list Z) : Z := foldl (fun n c => n * base + digit_val c) 0 ds.

Lemma digit_val_digit d : 0 <= d < 16 -> digit_val (digit d) = d.
Proof. intros Hd. unfold digit_val, digit. repeat case_match; lia. Qed.

Lemma digits_loop_val fuel x base :
  2 <= base <= 16 -> 0 <= x < base ^ Z.of_nat fuel -> (0 < fuel)%nat ->
  numeral_val base (rev (digits_loop fuel x base)) = x.
Proof.
  intros Hb. revert x; induction fuel as [|fuel IH]; intros x Hx Hf; [lia|].
  cbn [digits_loop rev]. unfold numeral_val. rewrite foldl_app. cbn [foldl].
  pose proof (Z.mod_pos_bound x base ltac:(lia)). rewrite digit_val_digit by lia.
  rewrite Nat2Z.inj_succ, Z.pow_succ_r in Hx by lia.
  assert (0 <= x / base < base ^ Z.of_nat fuel).
  { split; [apply Z.div_pos; lia|]. apply Z.div_lt_upper_bound; lia. }
  destruct (Z.eqb_spec (x / base) 0) as [Hz|Hz].
  - cbn. rewrite Z.mod_eq, Hz by lia. lia.
  - fold (numeral_val base (rev (digits_loop fuel (x / base) base))). rewrite IH; [|lia|].
    + rewrite (Z.div_mod x base) at 3 by lia. lia.
    + destruct fuel; [|lia]. cbn in *. lia.
Qed.

(** The sixteen-byte buffer of [printint] is never overrun, and what it prints is the
    number: a minus sign exactly for a negative [%d], then the numeral of its absolute value; for
    [%x] the numeral of the word. *)
Theorem printint_value z base sign :
  is_s32 z -> base = 10 \/ base = 16 ->
  (length (printint_buf z base sign) <= 16)%nat /\
  exists ds, rev (printint_buf z base sign) = (if sign && (z <? 0) then [45] else []) ++ ds /\
    numeral_val base ds = if sign then Z.abs z else u32 z.
Proof.
  intros Hz Hb. unfold printint_buf.
  set (x := if sign && (z <? 0) then u32 (- z) else u32 z).
  assert (Hx : is_u32 x) by (unfold x; case_match; apply u32_range).
  assert (Hval : numeral_val base (rev (digits_loop 16 x base)) = x).
  { apply digits_loop_val; [lia| |lia]. unfold is_u32 in Hx.
    assert (4294967296 <= base ^ Z.of_nat 16) by (destruct Hb as [-> | ->]; vm_compute; done). lia. }
  assert (Hlen : forall n fuel x, 0 <= x < base ^ Z.of_nat n -> (0 < n)%nat ->
    (length (digits_loop fuel x base) <= n)%nat).
  { clear -Hb. intros n fuel; revert n; induction fuel as [|fuel IH]; intros n x Hx Hn; cbn; [lia|].
    case_match eqn:E; cbn; [lia|]. apply Z.eqb_neq in E. destruct n as [|n]; [lia|].
    rewrite Nat2Z.inj_succ, Z.pow_succ_r in Hx by lia.
    assert (0 <= x / base < base ^ Z.of_nat n)
      by (split; [apply Z.div_pos; lia|apply Z.div_lt_upper_bound; lia]).
    assert (n ≠ O) by (intros ->; cbn in *; lia).
    specialize (IH n (x / base) ltac:(lia) ltac:(lia)). lia. }
  split.
  - rewrite length_app. specialize (Hlen 15%nat 16%nat x).
    assert (4294967296 <= base ^ Z.of_nat 15) by (destruct Hb as [-> | ->]; vm_compute; done).
    unfold is_u32 in Hx. specialize (Hlen ltac:(lia) ltac:(lia)). case_match; cbn [length]; lia.
  - exists (rev (digits_loop 16 x base)). rewrite rev_app_distr, Hval. split.
    + by destruct (sign && (z <? 0)).
    + unfold x, is_s32 in *. destruct sign; cbn; [|done].
      destruct (Z.ltb_spec z 0); rewrite u32_id by (unfold is_u32; lia); lia.
Qed.

Lemma cprintf_prints_witness : exists co',
  cprintf "pid %d %s" [AInt (-7); AStr (Some (str "sh"))]
    (W (held (one_cpu [Lcons] None) []) ex_console ex_procs0 tt) =
    Ret tt (W (held (one_cpu [Lcons] None) []) co' ex_procs0 tt) /\
  con_ok co' /\ cons_locking co' = cons_locking ex_console /\ uart co' = uart ex_console /\
  uart_out co' = uart_out ex_console ++ str "pid -7 sh".
Proof.
  apply (cprintf_prints (one_cpu [Lcons] None) [] ex_console ex_procs0 tt); [auto with xv6|auto with xv6|set_solver|exact ex_console_ok| |].
  - constructor; [exact I|]. constructor; [apply str_u8|constructor].
  - vm_compute. reflexivity.
Defined.

Lemma printint_value_witness :
  (length (printint_buf (-2147483648) 10 true) <= 16)%nat /\
  exists ds, rev (printint_buf (-2147483648) 10 true) = [45] ++ ds /\ numeral_val 10 ds = 2147483648.
Proof. apply (printint_value (-2147483648) 10 true); [unfold is_s32; lia|by left]. Defined.
