(* ===== verification/Proc.v ===== *)
(** * Processes: sleeping, waking, switching and killing (proc.c)

    The part of proc.c that works on the process table alone: [wakeup1],
    [wakeup], [sleep], [sched], [yield], [kill], and [switchuvm]/[switchkvm] of
    vm.c, which the scheduler calls.  Creating and reaping processes is in
    [ProcLife], choosing one in [Scheduler], admission in [Admission]. *)

From S2P Require Import Prelude Kstate Spinlock Cprintf.
From stdpp Require Import gmap strings list fin_maps.
Open Scope Z_scope.

Section proc_c.
Context {S : Type}.

(** ** The process table *)

Definition pinit : M S unit := initlock Lptable "ptable".

Definition proc_at (i : nat) : M S proc := let! ps := get_p in deref (ptable ps !! i).
Definition set_proc (i : nat) (f : proc -> proc) : M S unit :=
  upd_p (fun ps => ps <| ptable := alter f i (ptable ps) |>).

(** [wakeup1(chan)]: every process sleeping on [chan] becomes runnable. *)
Definition wake (ch : option chan) (p : proc) : proc :=
  if bool_decide (p_state p = SLEEPING) && bool_decide (p_chan p = ch)
  then p <| p_state := RUNNABLE |> else p.

Definition wakeup1 (ch : option chan) : M S unit :=
  upd_p (fun ps => ps <| ptable := wake ch <$> ptable ps |>).

Definition wakeup (ch : chan) : M S unit :=
  acquire Lptable ;;;
  wakeup1 (Some ch) ;;;
  release Lptable.

(** [kill(pid)]: the first slot with that pid is marked and woken. *)
Definition kill (pid : Z) : M S Z :=
  acquire Lptable ;;;
  let! ps := get_p in
  match find_idx (fun p => p_pid p =? pid) (ptable ps) with
  | Some i =>
      set_proc i (fun p => p <| p_killed := 1 |>) ;;;
      let! p := proc_at i in
      when (bool_decide (p_state p = SLEEPING))
        (set_proc i (fun p => p <| p_state := RUNNABLE |>)) ;;;
      release Lptable ;;;
      ret 0
  | None =>
      release Lptable ;;;
      ret (-1)
  end.

(** ** Switching *)

Definition lcr3 (v : Z) : M S unit := let! m := get_m in put_m (m <| cr3 := v |>).
Definition ltr (sel : Z) : M S unit := let! m := get_m in put_m (m <| tr := sel |>).

Definition switchkvm : M S unit := let! ps := get_p in lcr3 (V2P (kpgdir ps)).

Definition switchuvm (p : option nat) : M S unit :=
  match p with
  | None => panic "switchuvm: no process"
  | Some i =>
      let! p := proc_at i in
      if p_kstack p =? 0 then panic "switchuvm: no kstack"
      else if p_pgdir p =? 0 then panic "switchuvm: no pgdir"
      else
        pushcli ;;;
        let! k := mycpu in
        let! c := cpu_at k in
        let! m := get_m in
        set_cpu k (c <| c_gdt := <[Z.to_nat SEG_TSS := tss_desc (ts_addr m k)]> (c_gdt c) |>
                     <| ts_ss0 := Z.shiftl SEG_KDATA 3 |>
                     <| ts_esp0 := u32 (p_kstack p + KSTACKSIZE) |>
                     <| ts_iomb := 0xFFFF |>) ;;;
        ltr (Z.shiftl SEG_TSS 3) ;;;
        lcr3 (V2P (p_pgdir p)) ;;;
        popcli
  end.

(** [sched()]: enter the scheduler; comes back when the process runs again. *)
Definition sched : M S unit :=
  let! me := myproc in
  let! h := holding Lptable in
  if negb h then panic "sched ptable.lock"
  else
    let! k := mycpu in
    let! c := cpu_at k in
    if negb (ncli c =? 1) then panic "sched locks"
    else
      let! i := deref me in
      let! p := proc_at i in
      if bool_decide (p_state p = RUNNING) then panic "sched running"
      else
        let! intr := readeflags_if in
        if intr then panic "sched interruptible"
        else
          let! k := mycpu in
          let! c := cpu_at k in
          let intena0 := intena c in
          swtch ;;;
          let! k := mycpu in
          let! c := cpu_at k in
          set_cpu k (c <| intena := intena0 |>).

Definition yield : M S unit :=
  acquire Lptable ;;;
  let! me := myproc in
  let! i := deref me in
  set_proc i (fun p => p <| p_state := RUNNABLE |>) ;;;
  sched ;;;
  release Lptable.

Definition sleep (ch : chan) (lk : lockid) : M S unit :=
  let! me := myproc in
  match me with
  | None => panic "sleep"
  | Some i =>
      when (negb (bool_decide (lk = Lptable)))
        (acquire Lptable ;;; release lk) ;;;
      set_proc i (fun p => p <| p_chan := Some ch |>) ;;;
      set_proc i (fun p => p <| p_state := SLEEPING |>) ;;;
      sched ;;;
      set_proc i (fun p => p <| p_chan := None |>) ;;;
      when (negb (bool_decide (lk = Lptable)))
        (release Lptable ;;; acquire lk)
  end.

End proc_c.

(** ** Waking up *)

Lemma wp_wakeup {S} m H co p (s : S) ch (Q : unit -> world S -> Prop) :
  idle m -> has_lock m Lptable -> Lptable ∉ H ->
  Q tt (W (held m H) co (p <| ptable := wake (Some ch) <$> ptable p |>) s) ->
  wp (wakeup ch) Q (W (held m H) co p s).
Proof.
  intros Hm Hlk Hni HQ. unfold wakeup, wakeup1. kstep.
  apply wp_acquire; [done..|]. ksteps. done.
Qed.

Lemma wake_pid ch p : p_pid (wake ch p) = p_pid p.
Proof. unfold wake. by case_match. Qed.

Lemma wake_state ch p :
  p_state (wake ch p) =
    if bool_decide (p_state p = SLEEPING) && bool_decide (p_chan p = ch)
    then RUNNABLE else p_state p.
Proof. unfold wake. by case_match. Qed.

Lemma wake_idemp ch p : wake ch (wake ch p) = wake ch p.
Proof.
  unfold wake at 1. rewrite wake_state.
  destruct (bool_decide (p_state p = SLEEPING) && bool_decide (p_chan p = ch)) eqn:E; [done|].
  replace (p_chan (wake ch p)) with (p_chan p); [by rewrite E|].
  unfold wake. by rewrite E.
Qed.

(** ** Entering the scheduler *)

(** What [sched] does when the process is switched back in: the interrupt
    flag it saved is a property of the process. *)
Definition sched_resume {S} (f : bool) : M S unit :=
  let! k := mycpu in
  let! c := cpu_at k in
  set_cpu k (c <| intena := f |>).

Lemma sched_resume_run {S} m lk f co p (s : S) :
  is_Some (my_cpu m) ->
  sched_resume f (W (held m [lk]) co p s) = Ret tt (W (held (m <| fl_if := f |>) [lk]) co p s).
Proof.
  intros [i Hme]. destruct (my_cpu_lookup _ _ Hme) as [c Hc]. unfold sched_resume, held.
  erewrite bind_Ret by (by apply (mycpu_pushed m [lk] 0)).
  erewrite bind_Ret by by apply cpu_at_run, cpus_pushed.
  unfold set_cpu, bind, get_m, put_m; cbn -[pushed]. do 2 f_equal.
  rewrite (pushed_eq m [lk] _ i c) by done.
  rewrite (pushed_eq (m <| fl_if := f |>) [lk] _ i c) by done.
  unfold set_field; cbn. f_equal. by rewrite list_insert_insert_eq.
Qed.

Lemma sched_run {S} m co p (s : S) i pr :
  idle m -> has_lock m Lptable -> cur m = Some i -> ptable p !! i = Some pr ->
  p_state pr ≠ RUNNING ->
  sched (W (held m [Lptable]) co p s) =
  Swtch (W (held m [Lptable]) co p s) (sched_resume (fl_if m)).
Proof.
  intros Hm Hlk Hcur Hi Hst. pose proof (idle_my_cpu _ Hm) as [k Hme].
  destruct (my_cpu_lookup _ _ Hme) as [c Hc]. unfold sched, held.
  erewrite bind_Ret by (apply myproc_held; eauto).
  erewrite bind_Ret by by apply holding_pushed.
  rewrite bool_decide_eq_true_2 by set_solver; cbn [negb].
  erewrite bind_Ret by (by apply (mycpu_pushed m [Lptable] 0)).
  erewrite bind_Ret by by apply cpu_at_run, cpus_pushed.
  change (ncli (held_cpu m (1 + 0) c) =? 1) with true; cbn [negb].
  rewrite Hcur. erewrite bind_Ret by reflexivity.
  erewrite bind_Ret.
  2:{ unfold proc_at, bind, get_p; cbn. rewrite Hi. reflexivity. }
  rewrite bool_decide_eq_false_2 by done.
  erewrite bind_Ret by reflexivity. cbn [w_m].
  rewrite (fl_if_pushed m [Lptable] 0) by eauto.
  erewrite bind_Ret by (by apply (mycpu_pushed m [Lptable] 0)).
  erewrite bind_Ret by by apply cpu_at_run, cpus_pushed.
  reflexivity.
Qed.

(** ** sleep *)

(** The process table after process [i] went to sleep on [ch]. *)
Definition asleep (i : nat) (ch : chan) (p : procs) : procs :=
  p <| ptable := alter (fun pr => pr <| p_state := SLEEPING |>) i
                   (alter (fun pr => pr <| p_chan := Some ch |>) i (ptable p)) |>.

(** The process table after process [i] came back from sleep. *)
Definition awake (i : nat) (p : procs) : procs :=
  p <| ptable := alter (fun pr => pr <| p_chan := None |>) i (ptable p) |>.

Lemma sleep_run {S} m lk ch co p (s : S) i pr :
  idle m -> has_lock m Lptable -> has_lock m lk -> lk ≠ Lptable ->
  cur m = Some i -> ptable p !! i = Some pr ->
  exists k,
    sleep ch lk (W (held m [lk]) co p s) = Swtch (W (held m [Lptable]) co (asleep i ch p) s) k /\
    forall m' co' p' s', idle m' -> has_lock m' Lptable -> has_lock m' lk ->
      k (W (held m' [Lptable]) co' p' s') =
      Ret tt (W (held (m' <| fl_if := fl_if m |>) [lk]) co' (awake i p') s').
Proof.
  intros Hm Hpt Hlk Hne Hcur Hi. unfold sleep.
  erewrite bind_Ret by (apply myproc_held; eauto with xv6). rewrite Hcur.
  rewrite bool_decide_eq_false_2 by done. cbn [negb when].
  erewrite bind_Ret.
  2:{ erewrite bind_Ret by (apply acquire_held; [done..|set_solver]).
      apply release_second; [done..|set_solver|done]. }
  erewrite bind_Ret by reflexivity. erewrite bind_Ret by reflexivity.
  erewrite bind_Swtch.
  2:{ cbn [w_m w_c w_p w_s]. eapply (sched_run m co _ s i); [done..| |].
      - cbn. rewrite !list_lookup_alter_eq, Hi. reflexivity.
      - done. }
  eexists. split.
  - reflexivity.
  - intros m' co' p' s' Hm' Hpt' Hlk'. cbn beta. rewrite sched_resume_run by eauto with xv6.
    cbn [bind_res]. erewrite bind_Ret by reflexivity.
    assert (Hm2 : idle (m' <| fl_if := fl_if m |>)) by done.
    erewrite bind_Ret by (apply release_last; [done..|set_solver]).
    apply acquire_held; [done..|set_solver].
Qed.

(** ** Loading a process's address space *)

Definition tss_of (ts : Z) (pr : proc) (c : cpu) : cpu :=
  c <| c_gdt := <[Z.to_nat SEG_TSS := tss_desc ts]> (c_gdt c) |> <| ts_ss0 := Z.shiftl SEG_KDATA 3 |>
    <| ts_esp0 := u32 (p_kstack pr + KSTACKSIZE) |> <| ts_iomb := 0xFFFF |>.

#[export] Instance tss_frame ts pr : CpuFrame (tss_of ts pr).
Proof. split; done. Qed.

Lemma pushed_cr3 m H n v :
  pushed m H n <| cr3 := v |> = pushed (m <| cr3 := v |>) H n.
Proof.
  destruct (my_cpu m) as [i|] eqn:Hme.
  - destruct (my_cpu_lookup _ _ Hme) as [c Hc].
    by rewrite (pushed_eq m H n i c), (pushed_eq (m <| cr3 := v |>) H n i c).
  - unfold pushed.
    replace (my_cpu (m <| cr3 := v |>)) with (my_cpu m) by done. by rewrite Hme.
Qed.

Lemma pushed_tr m H n v :
  pushed m H n <| tr := v |> = pushed (m <| tr := v |>) H n.
Proof.
  destruct (my_cpu m) as [i|] eqn:Hme.
  - destruct (my_cpu_lookup _ _ Hme) as [c Hc].
    by rewrite (pushed_eq m H n i c), (pushed_eq (m <| tr := v |>) H n i c).
  - unfold pushed.
    replace (my_cpu (m <| tr := v |>)) with (my_cpu m) by done. by rewrite Hme.
Qed.

Lemma ts_addr_pushed m H n k : ts_addr (pushed m H n) k = ts_addr m k.
Proof.
  unfold ts_addr, pushed. destruct (my_cpu m) as [i|]; [|done]. cbn. by destruct (cpus m !! i).
Qed.

(** The machine after [switchuvm(p)]. *)
Definition uvm_machine (c : nat) (pr : proc) (m : machine) : machine :=
  on_cpu (tss_of (ts_addr m c) pr) c m <| tr := Z.shiftl SEG_TSS 3 |> <| cr3 := V2P (p_pgdir pr) |>.

Lemma switchuvm_run {S} m H co p (s : S) c i pr :
  my_cpu m = Some c -> ptable p !! i = Some pr -> p_kstack pr ≠ 0 -> p_pgdir pr ≠ 0 ->
  switchuvm (Some i) (W (held m H) co p s) = Ret tt (W (held (uvm_machine c pr m) H) co p s).
Proof.
  intros Hme Hi Hks Hpg. unfold switchuvm, held.
  erewrite bind_Ret. 2:{ unfold proc_at, bind, get_p; cbn. rewrite Hi. reflexivity. }
  rewrite (proj2 (Z.eqb_neq (p_kstack pr) 0)), (proj2 (Z.eqb_neq (p_pgdir pr) 0)) by done.
  erewrite bind_Ret by (apply pushcli_pushed; eauto).
  erewrite bind_Ret by by apply mycpu_pushed.
  destruct (my_cpu_lookup _ _ Hme) as [k Hk].
  erewrite bind_Ret by by apply cpu_at_run, cpus_pushed.
  erewrite bind_Ret by reflexivity. cbn [w_m]. rewrite ts_addr_pushed.
  erewrite bind_Ret by by apply (set_cpu_pushed (tss_of (ts_addr m c) pr) c m H _ k).
  erewrite bind_Ret by (unfold ltr, bind, get_m, put_m; cbn; rewrite pushed_tr; reflexivity).
  erewrite bind_Ret by (unfold lcr3, bind, get_m, put_m; cbn; rewrite pushed_cr3; reflexivity).
  apply popcli_pushed. exists c. by apply my_cpu_on_cpu.
Qed.

(** [sched] with more than ptable.lock held. *)
Lemma sched_locks_run {S} m lks co p (s : S) i pr :
  idle m -> has_lock m Lptable -> cur m = Some i -> ptable p !! i = Some pr ->
  lks ≠ [] -> Lptable ∉ lks ->
  sched (W (held m (Lptable :: lks)) co p s) = Panic "sched locks" (W (held m (Lptable :: lks)) co p s).
Proof.
  intros Hm Hlk Hcur Hi Hne Hni. pose proof (idle_my_cpu _ Hm) as [k Hme].
  destruct (my_cpu_lookup _ _ Hme) as [c Hc]. unfold sched, held.
  erewrite bind_Ret by (apply myproc_held; eauto).
  erewrite bind_Ret by by apply holding_pushed.
  rewrite bool_decide_eq_true_2 by set_solver; cbn [negb].
  erewrite bind_Ret by (by apply (mycpu_pushed m (Lptable :: lks) (length lks))).
  erewrite bind_Ret by by apply cpu_at_run, cpus_pushed.
  destruct lks as [|lk lks]; [done|]. cbn [length]. unfold held_cpu, set_field; cbn [ncli].
  by rewrite (proj2 (Z.eqb_neq _ _)) by lia.
Qed.

Lemma yield_run {S} m co p (s : S) i pr :
  idle m -> has_lock m Lptable -> cur m = Some i -> ptable p !! i = Some pr ->
  exists k,
    yield (W m co p s) =
      Swtch (W (held m [Lptable]) co
               (p <| ptable := alter (fun q => q <| p_state := RUNNABLE |>) i (ptable p) |>) s) k /\
    forall m' co' p' s', idle m' -> has_lock m' Lptable ->
      k (W (held m' [Lptable]) co' p' s') = Ret tt (W (held (m' <| fl_if := fl_if m |>) []) co' p' s').
Proof.
  intros Hm Hlk Hcur Hi. unfold yield.
  erewrite bind_Ret by by apply acquire_idle.
  erewrite bind_Ret by (apply myproc_held; eauto with xv6). rewrite Hcur.
  erewrite bind_Ret by reflexivity. erewrite bind_Ret by reflexivity.
  erewrite bind_Swtch.
  2:{ cbn [w_m w_c w_p w_s]. eapply (sched_run m co _ s i); [done..| |].
      - cbn. rewrite list_lookup_alter_eq, Hi. reflexivity.
      - done. }
  eexists. split; [reflexivity|]. intros m' co' p' s' Hm' Hlk'. cbn beta.
  rewrite sched_resume_run by eauto with xv6. cbn [bind_res].
  assert (idle (m' <| fl_if := fl_if m |>)) by done.
  apply release_last; [done..|set_solver].
Qed.

(** ** A small process table for the examples *)

(** Three runnable processes; [policy] is the class of the first. *)
Definition ex_proc (pid policy dl prio : Z) : proc :=
  proc_zero <| p_pid := pid |> <| p_state := RUNNABLE |> <| p_kstack := 0x8DFFF000 |>
            <| p_pgdir := 0x8DFFE000 |> <| p_sched_policy := policy |>
            <| p_deadline := dl |> <| p_priority := prio |>.

Definition ex_procs (policy : Z) : procs :=
  mkProcs ([proc_zero; ex_proc 4 policy 18 3; ex_proc 5 policy 12 2; ex_proc 3 policy 12 2]
           ++ replicate 60 proc_zero) None 0 0 6 0 0 0x803FF000.

(** ** Properties *)

(** [sleep(chan, lk)], called with only [lk] held, gives the CPU away in
    a state where [lk] is free, ptable.lock is held, and the process is SLEEPING on [chan];
    a [wakeup1(chan)] from then on makes it RUNNABLE; and when it is scheduled again, whatever
    happened meanwhile, it returns with [lk] held again, its channel cleared and its own interrupt
    flag restored. *)
Theorem sleep_spec {S} m lk ch co p (s : S) i pr :
  idle m -> has_lock m Lptable -> has_lock m lk -> lk ≠ Lptable ->
  cur m = Some i -> ptable p !! i = Some pr ->
  exists p1 pr1 k,
    sleep ch lk (W (held m [lk]) co p s) = Swtch (W (held m [Lptable]) co p1 s) k /\
    ptable p1 !! i = Some pr1 /\ p_state pr1 = SLEEPING /\ p_chan pr1 = Some ch /\
    (forall j, j ≠ i -> ptable p1 !! j = ptable p !! j) /\
    p_state (wake (Some ch) pr1) = RUNNABLE /\
    forall m' co' p' s', idle m' -> has_lock m' Lptable -> has_lock m' lk ->
      k (W (held m' [Lptable]) co' p' s') =
      Ret tt (W (held (m' <| fl_if := fl_if m |>) [lk]) co' (awake i p') s').
Proof.
  intros Hm Hpt Hlk Hne Hcur Hi.
  destruct (sleep_run m lk ch co p s i pr) as (k & Hrun & Hk); [done..|].
  exists (asleep i ch p), (pr <| p_chan := Some ch |> <| p_state := SLEEPING |>), k.
  split; [done|]. split; [by cbn; rewrite !list_lookup_alter_eq, Hi|]. do 2 (split; [done|]).
  split; [intros j Hj; cbn; by rewrite !list_lookup_alter_ne by done|].
  split; [|done]. rewrite wake_state. by rewrite !bool_decide_eq_true_2.
Qed.

(** A process that calls [sleep] while it holds a second lock stops the kernel with
    "sched locks" instead of sleeping with that lock held. *)
Theorem sleep_second_lock_panics {S} m lk lk2 ch co p (s : S) i pr :
  idle m -> has_lock m Lptable -> has_lock m lk -> lk ≠ Lptable -> lk2 ≠ Lptable -> lk ≠ lk2 ->
  cur m = Some i -> ptable p !! i = Some pr ->
  exists w, sleep ch lk (W (held m [lk; lk2]) co p s) = Panic "sched locks" w.
Proof.
  intros Hm Hpt Hlk Hne Hne2 Hd Hcur Hi. unfold sleep.
  erewrite bind_Ret by (apply myproc_held; eauto with xv6). rewrite Hcur.
  rewrite bool_decide_eq_false_2 by done. cbn [negb when].
  erewrite bind_Ret.
  2:{ erewrite bind_Ret by (apply acquire_held; [done..|set_solver]).
      apply release_second; [done..|set_solver|done]. }
  erewrite bind_Ret by reflexivity. erewrite bind_Ret by reflexivity.
  eexists. erewrite bind_Panic; [done|]. eapply sched_locks_run; [done..| |done|set_solver].
  cbn. rewrite !list_lookup_alter_eq, Hi. reflexivity.
Qed.

(** [wakeup(chan)] makes runnable exactly the processes that sleep on [chan], and changes
    nothing else. *)
Theorem wakeup_spec {S} m H co p (s : S) ch :
  idle m -> has_lock m Lptable -> Lptable ∉ H ->
  exists p', wakeup ch (W (held m H) co p s) = Ret tt (W (held m H) co p' s) /\
    p' = p <| ptable := ptable p' |> /\ length (ptable p') = length (ptable p) /\
    forall i q, ptable p !! i = Some q ->
      ptable p' !! i = Some (if bool_decide (p_state q = SLEEPING /\ p_chan q = Some ch)
                             then q <| p_state := RUNNABLE |> else q).
Proof.
  intros Hm Hlk Hni.
  assert (Hwp : wp (wakeup ch) (fun _ w => w = W (held m H) co (p <| ptable := wake (Some ch) <$> ptable p |>) s)
    (W (held m H) co p s)) by by apply wp_wakeup.
  apply wp_elim in Hwp as ([] & w & Hrun & ->). eexists. split; [exact Hrun|].
  split; [done|]. split; [cbn; by rewrite length_fmap|]. intros i q Hi. cbn.
  rewrite list_lookup_fmap, Hi. cbn. unfold wake. f_equal.
  by repeat case_bool_decide; cbn; try tauto; naive_solver.
Qed.

(** [kill(pid)] marks the first process with that pid as killed, wakes it if it
    sleeps, and returns 0; with no such process it returns -1 and changes nothing. *)
Theorem kill_spec {S} m co p (s : S) pid :
  idle m -> has_lock m Lptable ->
  kill pid (W m co p s) =
  match find_idx (fun q => p_pid q =? pid) (ptable p) with
  | Some i =>
      Ret 0 (W (held m []) co (p <| ptable := alter (fun q =>
        q <| p_killed := 1 |>
          <| p_state := if bool_decide (p_state q = SLEEPING) then RUNNABLE else p_state q |>)
        i (ptable p) |>) s)
  | None => Ret (-1) (W (held m []) co p s)
  end.
Proof.
  intros Hm Hlk. unfold kill. erewrite bind_Ret by by apply acquire_idle.
  erewrite bind_Ret by reflexivity. cbn [w_p].
  destruct (find_idx _ _) as [i|] eqn:Hf.
  2:{ by erewrite bind_Ret by (apply release_last; [done..|set_solver]). }
  destruct (lookup_lt_is_Some_2 (ptable p) i) as [q Hi]; [by eapply find_idx_lt|].
  erewrite bind_Ret by reflexivity.
  erewrite bind_Ret.
  2:{ unfold proc_at, bind, get_p; cbn. rewrite list_lookup_alter_eq, Hi. reflexivity. }
  erewrite bind_Ret.
  2:{ instantiate (1 := W (held m [Lptable]) co (p <| ptable := alter (fun q =>
        q <| p_killed := 1 |>
          <| p_state := if bool_decide (p_state q = SLEEPING) then RUNNABLE else p_state q |>)
        i (ptable p) |>) s).
      unfold when, set_proc, upd_p, ret, set_field; cbn -[alter].
      case_bool_decide as E; f_equal; cbn -[alter].
      - rewrite (alter_twice _ _ _ i q Hi), (alter_is_insert _ _ i q Hi). by rewrite bool_decide_eq_true_2.
      - rewrite !(alter_is_insert _ _ i q Hi). by rewrite bool_decide_eq_false_2. }
  by erewrite bind_Ret by (apply release_last; [done..|set_solver]).
Qed.

Lemma sleep_spec_witness :
  let m := one_cpu [Lptable; Ltickslock] (Some 1%nat) in
  exists p1 k,
    sleep Cticks Ltickslock (W (held m [Ltickslock]) ex_console (ex_procs 0) tt) =
      Swtch (W (held m [Lptable]) ex_console p1 tt) k.
Proof.
  intros m.
  destruct (sleep_spec m Ltickslock Cticks ex_console (ex_procs 0) tt 1 (ex_proc 4 0 18 3))
    as (p1 & pr1 & k & Hrun & _);
    [subst m; auto with xv6|subst m; auto with xv6|subst m; auto with xv6|done|reflexivity|reflexivity|].
  exists p1, k. assumption.
Defined.

Lemma sleep_second_lock_panics_witness :
  exists w, sleep Cticks Ltickslock
    (W (held (one_cpu [Lptable; Ltickslock; Lkmem] (Some 1%nat)) [Ltickslock; Lkmem]) ex_console (ex_procs 0) tt)
    = Panic "sched locks" w.
Proof.
  apply (sleep_second_lock_panics (one_cpu [Lptable; Ltickslock; Lkmem] (Some 1%nat)) Ltickslock Lkmem
    Cticks ex_console (ex_procs 0) tt 1 (ex_proc 4 0 18 3));
    [auto with xv6|auto with xv6|auto with xv6|done|done|done|reflexivity|reflexivity].
Defined.

Lemma wakeup_spec_witness : exists p',
  wakeup Cticks (W (held (one_cpu [Lptable] None) []) ex_console (ex_procs 0) tt) =
    Ret tt (W (held (one_cpu [Lptable] None) []) ex_console p' tt) /\
  length (ptable p') = length (ptable (ex_procs 0)).
Proof.
  destruct (wakeup_spec (one_cpu [Lptable] None) [] ex_console (ex_procs 0) tt Cticks)
    as (p' & Hrun & _ & Hlen & _); [auto with xv6|auto with xv6|set_solver|]. exists p'. split; assumption.
Defined.

Lemma kill_spec_witness :
  kill 99 (W (one_cpu [Lptable] None) ex_console (ex_procs 0) tt) =
  Ret (-1) (W (held (one_cpu [Lptable] None) []) ex_console (ex_procs 0) tt).
Proof. rewrite (kill_spec (one_cpu [Lptable] None)) by auto with xv6. reflexivity. Defined.
