(* ===== verification/Wakeup.v ===== *)
(** * Sleeping and waking on several CPUs (sleep and wakeup of proc.c)

    [sleep] and [wakeup] as sequences of atomic steps, and any number of processes that run them at once around a condition and
    its lock, in the way sleep locks, pipes, the log, the disk queue and the console use them: a waiter holds the lock and sleeps while the
    condition does not hold, a signaller holds the lock, makes it hold and wakes the channel.  A step takes a lock when it is free, as
    [Smp] shows of [acquire]; a process in [sched] gives ptable.lock to the scheduler, which lets it go, and the scheduler takes it again to
    run the process when it is RUNNABLE.  The theorem shows that the two functions are these sequences, that under every
    interleaving a process asleep while the condition holds has a wakeup on its way, and that the system stops only when every process is done
    or asleep with the condition false. *)

From S2P Require Import Prelude Kstate Spinlock Cprintf Proc.
From stdpp Require Import gmap strings list relations fin_maps.
From Stdlib Require Import FunctionalExtensionality.
Open Scope Z_scope.

(** ** The steps of sleep and wakeup *)

Inductive act :=
| Acq (lk : lockid)
| Rel (lk : lockid)
| SetChan (ch : option chan)
| SetSleeping
| Sched
| Wake1 (ch : chan).

(** What a step of process [i] makes of the process table. *)
Definition act_table (i : nat) (a : act) (tab : list proc) : list proc :=
  match a with
  | SetChan ch => alter (fun p => p <| p_chan := ch |>) i tab
  | SetSleeping => alter (fun p => p <| p_state := SLEEPING |>) i tab
  | Wake1 ch => wake (Some ch) <$> tab
  | _ => tab
  end.

Definition act_exec {S} (i : nat) (a : act) : M S unit :=
  match a with
  | Acq lk => acquire lk
  | Rel lk => release lk
  | Sched => sched
  | _ => upd_p (fun ps => ps <| ptable := act_table i a (ptable ps) |>)
  end.

Fixpoint act_run {S} (i : nat) (l : list act) : M S unit :=
  match l with
  | [] => ret tt
  | a :: l => act_exec i a ;;; act_run i l
  end.

Definition sleep_acts (ch : chan) (lk : lockid) : list act :=
  (if bool_decide (lk = Lptable) then [] else [Acq Lptable; Rel lk]) ++
  [SetChan (Some ch); SetSleeping; Sched; SetChan None] ++
  (if bool_decide (lk = Lptable) then [] else [Rel Lptable; Acq lk]).

Definition wakeup_acts (ch : chan) : list act := [Acq Lptable; Wake1 ch; Rel Lptable].

Lemma bind_assoc {S A B C} (c : M S A) (f : A -> M S B) (g : B -> M S C) w :
  bind (bind c f) g w = bind c (fun a => bind (f a) g) w.
Proof.
  unfold bind. induction (c w) as [a w'|msg w'|w' k IH|w'|w']; cbn [bind_res]; try done.
  f_equal. apply functional_extensionality. exact IH.
Qed.

Lemma bind_ext {S A B} (c : M S A) (f g : A -> M S B) w : (forall a w', f a w' = g a w') -> bind c f w = bind c g w.
Proof.
  intros Hfg. assert (f = g) as ->; [|done]. apply functional_extensionality. intros a. apply functional_extensionality. apply Hfg.
Qed.

Lemma bind_ret_r {S} (c : M S unit) w : bind c (fun _ => ret tt) w = c w.
Proof.
  unfold bind. induction (c w) as [[] w'|msg w'|w' k IH|w'|w']; cbn [bind_res]; try done.
  f_equal. apply functional_extensionality. exact IH.
Qed.

Lemma sleep_is_acts {S} ch lk (w : world S) :
  sleep ch lk w =
  (let! me := myproc in match me with None => panic "sleep" | Some i => act_run i (sleep_acts ch lk) end) w.
Proof.
  unfold sleep, sleep_acts. apply bind_ext. intros [i|] w1; [|done]. destruct (bool_decide (lk = Lptable)); cbn [negb when app act_run act_exec].
  - change (bind (ret tt) ?f w1) with (f tt w1). cbn beta. do 3 (apply bind_ext; intros _ ?). apply bind_ext. done.
  - rewrite bind_assoc. do 6 (apply bind_ext; intros _ ?). apply bind_ext. intros _ ?. symmetry. apply bind_ret_r.
Qed.

Lemma wakeup_is_acts {S} ch i (w : world S) : wakeup ch w = act_run i (wakeup_acts ch) w.
Proof. unfold wakeup, wakeup_acts. cbn [act_run act_exec]. do 2 (apply bind_ext; intros _ ?). symmetry. apply bind_ret_r. Qed.

(** ** Processes around a condition *)

Section protocol.
Context (ch : chan) (lk : lockid).

(** The steps of a process: those of [sleep] and [wakeup], coming back from [sched], testing the condition (and sleeping if it does not
    hold), and changing it. *)
Inductive step_of :=
| K (a : act)
| Resume
| Test
| SetCond (b : bool).

(** A process waits for the condition, and may use it up, or makes it hold:
    [acquire(lk); while(!cond) sleep(ch, lk); if(consume) cond = 0; release(lk)] and
    [acquire(lk); cond = 1; wakeup(ch); release(lk)]. *)
Inductive job := Wait (consume : bool) | Signal.

Definition after_wait (consume : bool) : list step_of := (if consume then [SetCond false] else []) ++ [K (Rel lk)].
Definition job_code (j : job) : list step_of :=
  match j with
  | Wait consume => [K (Acq lk); Test] ++ after_wait consume
  | Signal => [K (Acq lk); SetCond true] ++ (K <$> wakeup_acts ch) ++ [K (Rel lk)]
  end.

(** Process [i] is in slot [i] of the table and has still to run [g_code !! i]. *)
Record protocol := mkProtocol {
  g_owner : gmap lockid nat;
  g_table : list proc;
  g_cond : bool;
  g_code : list (list step_of);
}.

Definition with_table (t : nat) (tab : list proc) (l : list step_of) (g : protocol) : protocol :=
  mkProtocol (g_owner g) tab (g_cond g) (<[t := l]> (g_code g)).
Definition with_owner (t : nat) (o : gmap lockid nat) (l : list step_of) (g : protocol) : protocol :=
  mkProtocol o (g_table g) (g_cond g) (<[t := l]> (g_code g)).

(** One step of process [t]; [None] when it is done, waits for a lock or sleeps. *)
Definition process_step (t : nat) (g : protocol) : option protocol :=
  match g_code g !! t with
  | Some (K (Acq k) :: l) =>
      if decide (g_owner g !! k = None) then Some (with_owner t (<[k := t]> (g_owner g)) l g) else None
  | Some (K (Rel k) :: l) =>
      if decide (g_owner g !! k = Some t) then Some (with_owner t (delete k (g_owner g)) l g) else None
  | Some (K Sched :: l) =>
      if decide (g_owner g !! Lptable = Some t) then Some (with_owner t (delete Lptable (g_owner g)) (Resume :: l) g) else None
  | Some (K a :: l) => Some (with_table t (act_table t a (g_table g)) l g)
  | Some (Resume :: l) =>
      if decide (g_owner g !! Lptable = None /\ p_state <$> g_table g !! t = Some RUNNABLE) then
        Some (mkProtocol (<[Lptable := t]> (g_owner g)) (alter (fun p => p <| p_state := RUNNING |>) t (g_table g)) (g_cond g)
                (<[t := l]> (g_code g)))
      else None
  | Some (Test :: l) => Some (with_table t (g_table g) (if g_cond g then l else (K <$> sleep_acts ch lk) ++ Test :: l) g)
  | Some (SetCond b :: l) => Some (mkProtocol (g_owner g) (g_table g) b (<[t := l]> (g_code g)))
  | Some [] | None => None
  end.

Definition protocol_step (g g' : protocol) : Prop := exists t, process_step t g = Some g'.

(** The processes run, hold no lock, and have their jobs before them. *)
Definition protocol_init (jobs : list (list job)) (g : protocol) : Prop :=
  g_owner g = ∅ /\ g_code g = (fun js => mjoin (job_code <$> js)) <$> jobs /\
  forall t, (t < length jobs)%nat -> p_state <$> g_table g !! t = Some RUNNING.

(** Process [u] has set the condition and has its [wakeup1] before it. *)
Definition wakes (g : protocol) (u : nat) : Prop :=
  exists l, g_code g !! u = Some (K (Wake1 ch) :: l) \/ g_code g !! u = Some (K (Acq Lptable) :: K (Wake1 ch) :: l).

Definition sleeps (g : protocol) (t : nat) : Prop :=
  exists pr, g_table g !! t = Some pr /\ p_state pr = SLEEPING /\ p_chan pr = Some ch.

(** ** The points of a process *)

(** Where a process is: before its jobs; in a wait ([Test0] at the test, [Used] before using the condition up, [Sl1] to [Sl9] in
    [sleep]); in a signal; or about to release the lock. *)
Inductive waitpt := Test0 | Used | Sl1 | Sl2 | Sl3 | Sl4 | Sl5 | Sl6 | Sl7 | Sl8 | Sl9.
Inductive sigpt := Sg0 | Sg1 | Sg2 | Sg3.
Inductive point :=
| Start (js : list job)
| Waiting (s : waitpt) (b : bool) (js : list job)
| Signalling (s : sigpt) (js : list job)
| Leaving (js : list job).

Definition jobs_code (js : list job) : list step_of := mjoin (job_code <$> js).

Definition sleep_code (s : waitpt) : list step_of :=
  match s with
  | Test0 | Used => []
  | Sl1 => K <$> [Acq Lptable; Rel lk; SetChan (Some ch); SetSleeping; Sched; SetChan None; Rel Lptable; Acq lk]
  | Sl2 => K <$> [Rel lk; SetChan (Some ch); SetSleeping; Sched; SetChan None; Rel Lptable; Acq lk]
  | Sl3 => K <$> [SetChan (Some ch); SetSleeping; Sched; SetChan None; Rel Lptable; Acq lk]
  | Sl4 => K <$> [SetSleeping; Sched; SetChan None; Rel Lptable; Acq lk]
  | Sl5 => K <$> [Sched; SetChan None; Rel Lptable; Acq lk]
  | Sl6 => Resume :: (K <$> [SetChan None; Rel Lptable; Acq lk])
  | Sl7 => K <$> [SetChan None; Rel Lptable; Acq lk]
  | Sl8 => K <$> [Rel Lptable; Acq lk]
  | Sl9 => K <$> [Acq lk]
  end.

Definition point_code (P : point) : list step_of :=
  match P with
  | Start js => jobs_code js
  | Waiting Used _ js => SetCond false :: K (Rel lk) :: jobs_code js
  | Waiting s b js => sleep_code s ++ Test :: after_wait b ++ jobs_code js
  | Signalling Sg0 js => SetCond true :: (K <$> [Acq Lptable; Wake1 ch; Rel Lptable; Rel lk]) ++ jobs_code js
  | Signalling Sg1 js => (K <$> [Acq Lptable; Wake1 ch; Rel Lptable; Rel lk]) ++ jobs_code js
  | Signalling Sg2 js => (K <$> [Wake1 ch; Rel Lptable; Rel lk]) ++ jobs_code js
  | Signalling Sg3 js => (K <$> [Rel Lptable; Rel lk]) ++ jobs_code js
  | Leaving js => K (Rel lk) :: jobs_code js
  end.

(** Which points hold the lock, and which ptable.lock. *)
Definition has_lk (P : point) : bool :=
  match P with
  | Start _ | Waiting (Sl3 | Sl4 | Sl5 | Sl6 | Sl7 | Sl8 | Sl9) _ _ => false
  | _ => true
  end.
Definition has_pt (P : point) : bool :=
  match P with
  | Waiting (Sl2 | Sl3 | Sl4 | Sl5 | Sl7 | Sl8) _ _ | Signalling (Sg2 | Sg3) _ => true
  | _ => false
  end.
Definition waking (P : point) : bool := match P with Signalling (Sg1 | Sg2) _ => true | _ => false end.

Definition pending (pts : list point) : Prop := exists u P, pts !! u = Some P /\ waking P = true.

(** The slot of a process at a point: one that has tested the condition and not yet released the lock finds it still false, and one on its way to
    sleep, or asleep, has a wakeup pending if the condition has come to hold. *)
Definition slot_ok (pend : Prop) (cond : bool) (P : point) (pr : proc) : Prop :=
  match P with
  | Waiting (Sl1 | Sl2) _ _ => p_state pr = RUNNING /\ cond = false
  | Waiting Sl3 _ _ => p_state pr = RUNNING /\ (cond = true -> pend)
  | Waiting Sl4 _ _ => p_state pr = RUNNING /\ p_chan pr = Some ch /\ (cond = true -> pend)
  | Waiting Sl5 _ _ => p_state pr = SLEEPING /\ p_chan pr = Some ch /\ (cond = true -> pend)
  | Waiting Sl6 _ _ => p_state pr = SLEEPING /\ p_chan pr = Some ch /\ (cond = true -> pend) \/ p_state pr = RUNNABLE
  | _ => p_state pr = RUNNING
  end.

Definition owned (o : option nat) (holds : point -> bool) (pts : list point) : Prop :=
  forall t, o = Some t <-> exists P, pts !! t = Some P /\ holds P = true.

Record protocol_inv (g : protocol) (pts : list point) : Prop := {
  pi_code : g_code g = point_code <$> pts;
  pi_lk : owned (g_owner g !! lk) has_lk pts;
  pi_pt : owned (g_owner g !! Lptable) has_pt pts;
  pi_slot : forall t P, pts !! t = Some P -> exists pr, g_table g !! t = Some pr /\ slot_ok (pending pts) (g_cond g) P pr;
}.

(** ** Steps keep the invariant *)

Section owned.
Context (holds : point -> bool) (pts : list point) (t : nat) (P P' : point) (HP : pts !! t = Some P).

Lemma owned_same o : owned o holds pts -> holds P' = holds P -> owned o holds (<[t := P']> pts).
Proof using HP.
  intros Ho Heq u. rewrite (Ho u). destruct (decide (u = t)) as [->|Hne]; [|by rewrite list_lookup_insert_ne].
  rewrite list_lookup_insert_eq by by eapply lookup_lt_Some. rewrite HP. split; intros (Q & HQ & Hh); injection HQ as <-; eexists; (split; [done|congruence]).
Qed.

Lemma owned_acq : owned None holds pts -> holds P' = true -> owned (Some t) holds (<[t := P']> pts).
Proof using HP.
  intros Ho Heq u. destruct (decide (u = t)) as [->|Hne].
  - rewrite list_lookup_insert_eq by by eapply lookup_lt_Some. split; [by exists P'|done].
  - rewrite list_lookup_insert_ne by done. rewrite <- (Ho u). split; congruence.
Qed.

Lemma owned_rel : owned (Some t) holds pts -> holds P' = false -> owned None holds (<[t := P']> pts).
Proof using HP.
  intros Ho Heq u. split; [done|]. intros (Q & HQ & Hh). destruct (decide (u = t)) as [->|Hne].
  - rewrite list_lookup_insert_eq in HQ by by eapply lookup_lt_Some. congruence.
  - rewrite list_lookup_insert_ne in HQ by done. assert (Hu : Some t = Some u) by (apply Ho; eauto). congruence.
Qed.

(** A lock is free, or held by a process at a point that holds it. *)
Lemma owned_here o : owned o holds pts -> holds P = true -> o = Some t.
Proof using HP. intros Ho Hh. apply Ho. eauto. Qed.

Lemma owned_free o : owned o holds pts -> o = None -> holds P = false.
Proof using HP. intros Ho ->. destruct (holds P) eqn:E; [|done]. by pose proof (owned_here None Ho E). Qed.

Lemma owned_else u Q : owned (Some t) holds pts -> pts !! u = Some Q -> u ≠ t -> holds Q = false.
Proof using Type. intros Ho HQ Hne. destruct (holds Q) eqn:E; [|done]. assert (Hu : Some t = Some u) by (apply Ho; eauto). congruence. Qed.

End owned.

Lemma slot_mono (pend pend' : Prop) cond P pr : (pend -> pend') -> slot_ok pend cond P pr -> slot_ok pend' cond P pr.
Proof using Type. intros Hp. destruct P as [|[] ? ?| |]; cbn; tauto. Qed.

Lemma pending_mono pts t P P' :
  pts !! t = Some P -> (waking P = true -> waking P' = true) -> pending pts -> pending (<[t := P']> pts).
Proof using Type.
  intros HP Hw (u & Q & HQ & Hq). destruct (decide (u = t)) as [->|Hne].
  - exists t, P'. rewrite list_lookup_insert_eq by by eapply lookup_lt_Some. split; [done|]. apply Hw. congruence.
  - exists u, Q. by rewrite list_lookup_insert_ne.
Qed.

(** Process [t] goes from [P] to [P']; the other slots stay right. *)
Lemma inv_move g g' pts t P P' :
  protocol_inv g pts -> pts !! t = Some P ->
  g_code g' = <[t := point_code P']> (g_code g) ->
  owned (g_owner g' !! lk) has_lk (<[t := P']> pts) -> owned (g_owner g' !! Lptable) has_pt (<[t := P']> pts) ->
  (exists pr, g_table g' !! t = Some pr /\ slot_ok (pending (<[t := P']> pts)) (g_cond g') P' pr) ->
  (forall u Q pr, u ≠ t -> pts !! u = Some Q -> g_table g !! u = Some pr -> slot_ok (pending pts) (g_cond g) Q pr ->
     exists pr', g_table g' !! u = Some pr' /\ slot_ok (pending (<[t := P']> pts)) (g_cond g') Q pr') ->
  protocol_inv g' (<[t := P']> pts).
Proof using Type.
  intros [Hc _ _ Hs] HP Hcode Hlk Hpt Hme Hothers. split; [|done|done|].
  - rewrite Hcode, Hc. symmetry. apply list_fmap_insert.
  - intros u Q HQ. destruct (decide (u = t)) as [->|Hne].
    + rewrite list_lookup_insert_eq in HQ by by eapply lookup_lt_Some. injection HQ as <-. exact Hme.
    + rewrite list_lookup_insert_ne in HQ by done. destruct (Hs u Q HQ) as (pr & Hpr & Hok). by eapply Hothers.
Qed.

(** The same when no other slot and not the condition changes, and no pending wakeup is lost. *)
Lemma inv_local g g' pts t P P' :
  protocol_inv g pts -> pts !! t = Some P ->
  g_code g' = <[t := point_code P']> (g_code g) -> g_cond g' = g_cond g ->
  owned (g_owner g' !! lk) has_lk (<[t := P']> pts) -> owned (g_owner g' !! Lptable) has_pt (<[t := P']> pts) ->
  (forall u, u ≠ t -> g_table g' !! u = g_table g !! u) -> (waking P = true -> waking P' = true) ->
  (forall pr pend, (pending pts -> pend) -> g_table g !! t = Some pr -> slot_ok (pending pts) (g_cond g) P pr ->
     exists pr', g_table g' !! t = Some pr' /\ slot_ok pend (g_cond g) P' pr') ->
  protocol_inv g' (<[t := P']> pts).
Proof using Type.
  intros Hinv HP Hcode Hcond Hlk Hpt Htab Hw Hme. pose proof (pending_mono pts t P P' HP Hw) as Hpend.
  apply (inv_move g g' pts t P P'); try done.
  - destruct (pi_slot _ _ Hinv t P HP) as (pr & Hpr & Hok). rewrite Hcond. by eapply Hme.
  - intros u Q pr Hne HQ Hpr Hok. exists pr. rewrite Htab, Hcond by done. split; [done|]. by eapply slot_mono.
Qed.

Hypothesis lk_ne : lk ≠ Lptable.

(** A step on a lock leaves the table and the condition. *)
Lemma move_lock g pts t P P' o :
  protocol_inv g pts -> pts !! t = Some P ->
  owned (o !! lk) has_lk (<[t := P']> pts) -> owned (o !! Lptable) has_pt (<[t := P']> pts) -> (waking P = true -> waking P' = true) ->
  (forall pr (pend : Prop), (pending pts -> pend) -> slot_ok (pending pts) (g_cond g) P pr -> slot_ok pend (g_cond g) P' pr) ->
  protocol_inv (with_owner t o (point_code P') g) (<[t := P']> pts).
Proof using Type. intros Hinv HP Hlk Hpt Hw Hslot. eapply inv_local; try done. intros pr pend Hpend Hpr Hok. exists pr. split; [done|]. by eapply Hslot. Qed.

Section locks.
Context (g : protocol) (pts : list point) (t : nat) (P P' : point).
Context (Hinv : protocol_inv g pts) (HP : pts !! t = Some P) (Hw : waking P = true -> waking P' = true).
Context (Hslot : forall pr (pend : Prop), (pending pts -> pend) -> slot_ok (pending pts) (g_cond g) P pr -> slot_ok pend (g_cond g) P' pr).

Lemma acq_lk : g_owner g !! lk = None -> has_lk P' = true -> has_pt P' = has_pt P ->
  protocol_inv (with_owner t (<[lk := t]> (g_owner g)) (point_code P') g) (<[t := P']> pts).
Proof using All.
  intros Ho Hl Hp. apply (move_lock g pts t P P'); try done.
  - rewrite lookup_insert_eq. pose proof (pi_lk _ _ Hinv) as H. rewrite Ho in H. by eapply owned_acq.
  - rewrite lookup_insert_ne by done. eapply owned_same; [done|apply (pi_pt _ _ Hinv)|done].
Qed.

Lemma acq_pt : g_owner g !! Lptable = None -> has_pt P' = true -> has_lk P' = has_lk P ->
  protocol_inv (with_owner t (<[Lptable := t]> (g_owner g)) (point_code P') g) (<[t := P']> pts).
Proof using All.
  intros Ho Hp Hl. apply (move_lock g pts t P P'); try done.
  - rewrite lookup_insert_ne by done. eapply owned_same; [done|apply (pi_lk _ _ Hinv)|done].
  - rewrite lookup_insert_eq. pose proof (pi_pt _ _ Hinv) as H. rewrite Ho in H. by eapply owned_acq.
Qed.

Lemma rel_lk : g_owner g !! lk = Some t -> has_lk P' = false -> has_pt P' = has_pt P ->
  protocol_inv (with_owner t (delete lk (g_owner g)) (point_code P') g) (<[t := P']> pts).
Proof using All.
  intros Ho Hl Hp. apply (move_lock g pts t P P'); try done.
  - rewrite lookup_delete_eq. pose proof (pi_lk _ _ Hinv) as H. rewrite Ho in H. by eapply owned_rel.
  - rewrite lookup_delete_ne by done. eapply owned_same; [done|apply (pi_pt _ _ Hinv)|done].
Qed.

Lemma rel_pt : g_owner g !! Lptable = Some t -> has_pt P' = false -> has_lk P' = has_lk P ->
  protocol_inv (with_owner t (delete Lptable (g_owner g)) (point_code P') g) (<[t := P']> pts).
Proof using All.
  intros Ho Hp Hl. apply (move_lock g pts t P P'); try done.
  - rewrite lookup_delete_ne by done. eapply owned_same; [done|apply (pi_lk _ _ Hinv)|done].
  - rewrite lookup_delete_eq. pose proof (pi_pt _ _ Hinv) as H. rewrite Ho in H. by eapply owned_rel.
Qed.

End locks.

(** A step on the process's own slot, with its locks unchanged. *)
Lemma move_slot g pts t P P' f :
  protocol_inv g pts -> pts !! t = Some P -> has_lk P' = has_lk P -> has_pt P' = has_pt P -> waking P = false ->
  (forall pr (pend : Prop), (pending pts -> pend) -> slot_ok (pending pts) (g_cond g) P pr -> slot_ok pend (g_cond g) P' (f pr)) ->
  protocol_inv (with_table t (alter f t (g_table g)) (point_code P') g) (<[t := P']> pts).
Proof using Type.
  intros Hinv HP Hl Hp Hw Hslot. eapply inv_local; try done; cbn [with_table g_owner g_table].
  - eapply owned_same; [done|apply (pi_lk _ _ Hinv)|done].
  - eapply owned_same; [done|apply (pi_pt _ _ Hinv)|done].
  - intros u Hne. by rewrite list_lookup_alter_ne.
  - by rewrite Hw.
  - intros pr pend Hpend Hpr Hok. exists (f pr). rewrite list_lookup_alter_eq, Hpr. split; [done|]. by eapply Hslot.
Qed.

(** The test of the condition changes nothing but where the process is. *)
Lemma move_test g pts t P P' :
  protocol_inv g pts -> pts !! t = Some P -> has_lk P' = has_lk P -> has_pt P' = has_pt P -> waking P = false ->
  (forall pr (pend : Prop), (pending pts -> pend) -> slot_ok (pending pts) (g_cond g) P pr -> slot_ok pend (g_cond g) P' pr) ->
  protocol_inv (with_table t (g_table g) (point_code P') g) (<[t := P']> pts).
Proof using Type.
  intros Hinv HP Hl Hp Hw Hslot. eapply inv_local; try done; cbn [with_table g_owner g_table].
  - eapply owned_same; [done|apply (pi_lk _ _ Hinv)|done].
  - eapply owned_same; [done|apply (pi_pt _ _ Hinv)|done].
  - by rewrite Hw.
  - intros pr pend Hpend Hpr Hok. exists pr. split; [done|]. by eapply Hslot.
Qed.

(** Coming back from [sched]. *)
Lemma move_resume g pts t b js :
  protocol_inv g pts -> pts !! t = Some (Waiting Sl6 b js) -> g_owner g !! Lptable = None ->
  protocol_inv (mkProtocol (<[Lptable := t]> (g_owner g)) (alter (fun p => p <| p_state := RUNNING |>) t (g_table g)) (g_cond g)
                  (<[t := point_code (Waiting Sl7 b js)]> (g_code g))) (<[t := Waiting Sl7 b js]> pts).
Proof using lk_ne.
  intros Hinv HP Ho. eapply inv_local; try done; cbn [g_owner g_table].
  - rewrite lookup_insert_ne by done. eapply owned_same; [done|apply (pi_lk _ _ Hinv)|done].
  - rewrite lookup_insert_eq. pose proof (pi_pt _ _ Hinv) as H. rewrite Ho in H. by eapply owned_acq.
  - intros u Hne. by rewrite list_lookup_alter_ne.
  - intros pr pend _ Hpr _. exists (pr <| p_state := RUNNING |>). by rewrite list_lookup_alter_eq, Hpr.
Qed.

(** [wakeup1]: every process asleep becomes runnable; none is on its way to sleep, for it would hold ptable.lock. *)
Lemma move_wake g pts t js :
  protocol_inv g pts -> pts !! t = Some (Signalling Sg2 js) ->
  protocol_inv (with_table t (wake (Some ch) <$> g_table g) (point_code (Signalling Sg3 js)) g) (<[t := Signalling Sg3 js]> pts).
Proof using Type.
  intros Hinv HP. pose proof (owned_here has_pt _ _ _ HP _ (pi_pt _ _ Hinv) eq_refl) as Ho.
  eapply inv_move; try done; cbn [with_table g_owner g_table].
  - eapply owned_same; [done|apply (pi_lk _ _ Hinv)|done].
  - eapply owned_same; [done|apply (pi_pt _ _ Hinv)|done].
  - destruct (pi_slot _ _ Hinv t _ HP) as (pr & Hpr & Hok). cbn in Hok. exists (wake (Some ch) pr). rewrite list_lookup_fmap, Hpr.
    split; [done|]. cbn. by rewrite wake_state, Hok.
  - intros u Q pr Hne HQ Hpr Hok. exists (wake (Some ch) pr). rewrite list_lookup_fmap, Hpr. split; [done|].
    pose proof (pi_pt _ _ Hinv) as Hpt. rewrite Ho in Hpt. pose proof (owned_else _ _ _ u Q Hpt HQ Hne) as Hno.
    assert (Hrun : p_state pr = RUNNING -> wake (Some ch) pr = pr).
    { intros Hr. unfold wake. by rewrite bool_decide_eq_false_2 by congruence. }
    destruct Q as [|[] ? ?| |]; cbn in Hok, Hno |- *; try discriminate Hno; try (by rewrite Hrun); try (destruct Hok as [Hr Hc]; by rewrite Hrun).
    right. rewrite wake_state. destruct Hok as [(Hs & Hc & _)|Hr]; [by rewrite !bool_decide_eq_true_2|].
    by rewrite Hr, bool_decide_eq_false_2.
Qed.

(** Making the condition hold: no process is between its test and the release of the lock; those past it now have a wakeup pending. *)
Lemma move_set g pts t js :
  protocol_inv g pts -> pts !! t = Some (Signalling Sg0 js) ->
  protocol_inv (mkProtocol (g_owner g) (g_table g) true (<[t := point_code (Signalling Sg1 js)]> (g_code g))) (<[t := Signalling Sg1 js]> pts).
Proof using Type.
  intros Hinv HP. pose proof (owned_here has_lk _ _ _ HP _ (pi_lk _ _ Hinv) eq_refl) as Ho.
  assert (Hpend : pending (<[t := Signalling Sg1 js]> pts)).
  { exists t. eexists. split; [apply list_lookup_insert_eq; by eapply lookup_lt_Some|done]. }
  eapply inv_move; try done; cbn [g_owner g_table g_cond].
  - eapply owned_same; [done|apply (pi_lk _ _ Hinv)|done].
  - eapply owned_same; [done|apply (pi_pt _ _ Hinv)|done].
  - destruct (pi_slot _ _ Hinv t _ HP) as (pr & Hpr & Hok). by exists pr.
  - intros u Q pr Hne HQ Hpr Hok. exists pr. split; [done|].
    pose proof (pi_lk _ _ Hinv) as Hlk. rewrite Ho in Hlk. pose proof (owned_else _ _ _ u Q Hlk HQ Hne) as Hno.
    destruct Q as [|[] ? ?| |]; cbn in Hok, Hno |- *; try discriminate Hno; tauto.
Qed.

(** Using the condition up. *)
Lemma move_use g pts t b js :
  protocol_inv g pts -> pts !! t = Some (Waiting Used b js) ->
  protocol_inv (mkProtocol (g_owner g) (g_table g) false (<[t := point_code (Leaving js)]> (g_code g))) (<[t := Leaving js]> pts).
Proof using Type.
  intros Hinv HP. eapply inv_move; try done; cbn [g_owner g_table g_cond].
  - eapply owned_same; [done|apply (pi_lk _ _ Hinv)|done].
  - eapply owned_same; [done|apply (pi_pt _ _ Hinv)|done].
  - destruct (pi_slot _ _ Hinv t _ HP) as (pr & Hpr & Hok). by exists pr.
  - intros u Q pr Hne HQ Hpr Hok. exists pr. split; [done|].
    destruct Q as [|[] ? ?| |]; cbn in Hok |- *; intuition discriminate.
Qed.

Lemma sleep_acts_code : K <$> sleep_acts ch lk = sleep_code Sl1.
Proof using lk_ne. unfold sleep_acts. by rewrite bool_decide_eq_false_2. Qed.

Lemma jobs_code_cons j js : jobs_code (j :: js) = job_code j ++ jobs_code js.
Proof using Type. done. Qed.

Lemma at_point g pts t l : protocol_inv g pts -> g_code g !! t = Some l -> exists P, pts !! t = Some P /\ l = point_code P.
Proof using Type.
  intros Hinv Hl. rewrite (pi_code _ _ Hinv), list_lookup_fmap in Hl. apply fmap_Some in Hl as (P & HP & ->). eauto.
Qed.

Lemma point_at g pts t P : protocol_inv g pts -> pts !! t = Some P -> g_code g !! t = Some (point_code P).
Proof using Type. intros Hinv HP. by rewrite (pi_code _ _ Hinv), list_lookup_fmap, HP. Qed.

Ltac slot := intros pr pend Hpend Hok; cbn in Hok |- *; intuition congruence.

Lemma wait_step g pts t g' s b js :
  protocol_inv g pts -> pts !! t = Some (Waiting s b js) -> process_step t g = Some g' -> exists pts', protocol_inv g' pts'.
Proof using lk_ne.
  intros Hinv HP Hstep. unfold process_step in Hstep. rewrite (point_at g pts t _ Hinv HP) in Hstep.
  destruct s; cbn [point_code sleep_code fmap list_fmap app] in Hstep; try case_decide as Hd; try discriminate Hstep; injection Hstep as <-.
  - destruct (g_cond g) eqn:Hc.
    + destruct b.
      * exists (<[t := Waiting Used true js]> pts). eapply (move_test g pts t _ (Waiting Used true js)); try done; slot.
      * exists (<[t := Leaving js]> pts). eapply (move_test g pts t _ (Leaving js)); try done; slot.
    + exists (<[t := Waiting Sl1 b js]> pts). rewrite sleep_acts_code. eapply (move_test g pts t _ (Waiting Sl1 b js)); try done; slot.
  - exists (<[t := Leaving js]> pts). by eapply move_use.
  - exists (<[t := Waiting Sl2 b js]> pts). eapply (acq_pt g pts t _ (Waiting Sl2 b js)); try done; slot.
  - exists (<[t := Waiting Sl3 b js]> pts). eapply (rel_lk g pts t _ (Waiting Sl3 b js)); try done; slot.
  - exists (<[t := Waiting Sl4 b js]> pts). eapply (move_slot g pts t _ (Waiting Sl4 b js)); try done; slot.
  - exists (<[t := Waiting Sl5 b js]> pts). eapply (move_slot g pts t _ (Waiting Sl5 b js)); try done; slot.
  - exists (<[t := Waiting Sl6 b js]> pts). eapply (rel_pt g pts t _ (Waiting Sl6 b js)); try done; slot.
  - exists (<[t := Waiting Sl7 b js]> pts). destruct Hd as [Hd _]. by apply (move_resume g pts t b js).
  - exists (<[t := Waiting Sl8 b js]> pts). eapply (move_slot g pts t _ (Waiting Sl8 b js)); try done; slot.
  - exists (<[t := Waiting Sl9 b js]> pts). eapply (rel_pt g pts t _ (Waiting Sl9 b js)); try done; slot.
  - exists (<[t := Waiting Test0 b js]> pts). eapply (acq_lk g pts t _ (Waiting Test0 b js)); try done; slot.
Qed.

Lemma inv_step g pts t g' : protocol_inv g pts -> process_step t g = Some g' -> exists pts', protocol_inv g' pts'.
Proof using lk_ne.
  intros Hinv Hstep. destruct (g_code g !! t) as [l|] eqn:Hl; [|unfold process_step in Hstep; by rewrite Hl in Hstep].
  destruct (at_point g pts t l Hinv Hl) as (P & HP & ->). destruct P as [[|[b|] js]|s b js|s js|js]; [|..|by eapply wait_step| |].
  all: unfold process_step in Hstep; rewrite Hl in Hstep.
  - done.
  - cbn [point_code] in Hstep.
    change (jobs_code (Wait b :: js)) with (K (Acq lk) :: point_code (Waiting Test0 b js)) in Hstep.
    cbn match in Hstep. case_decide; [|done]. injection Hstep as <-. exists (<[t := Waiting Test0 b js]> pts).
    eapply (acq_lk g pts t _ (Waiting Test0 b js)); try done; slot.
  - cbn [point_code] in Hstep.
    change (jobs_code (Signal :: js)) with (K (Acq lk) :: point_code (Signalling Sg0 js)) in Hstep.
    cbn match in Hstep. case_decide; [|done]. injection Hstep as <-. exists (<[t := Signalling Sg0 js]> pts).
    eapply (acq_lk g pts t _ (Signalling Sg0 js)); try done; slot.
  - destruct s; cbn [point_code fmap list_fmap app] in Hstep; try case_decide as Hd; try discriminate Hstep; injection Hstep as <-.
    + exists (<[t := Signalling Sg1 js]> pts). by apply move_set.
    + exists (<[t := Signalling Sg2 js]> pts). eapply (acq_pt g pts t _ (Signalling Sg2 js)); try done; slot.
    + exists (<[t := Signalling Sg3 js]> pts). by apply move_wake.
    + exists (<[t := Leaving js]> pts). eapply (rel_pt g pts t _ (Leaving js)); try done; slot.
  - cbn [point_code] in Hstep. case_decide; [|done]. injection Hstep as <-. exists (<[t := Start js]> pts).
    eapply (rel_lk g pts t _ (Start js)); try done; slot.
Qed.

Lemma inv_init jobs g : protocol_init jobs g -> protocol_inv g (Start <$> jobs).
Proof using Type.
  intros (Ho & Hc & Hs). split.
  - rewrite Hc, <- list_fmap_compose. done.
  - rewrite Ho, lookup_empty. intros t. split; [done|]. intros (P & HP & Hh). rewrite list_lookup_fmap in HP. by apply fmap_Some in HP as (js & _ & ->).
  - rewrite Ho, lookup_empty. intros t. split; [done|]. intros (P & HP & Hh). rewrite list_lookup_fmap in HP. by apply fmap_Some in HP as (js & _ & ->).
  - intros t P HP. rewrite list_lookup_fmap in HP. apply fmap_Some in HP as (js & Hjs & ->).
    specialize (Hs t (lookup_lt_Some _ _ _ Hjs)). apply fmap_Some in Hs as (pr & Hpr & Hr). by exists pr.
Qed.

Lemma inv_reach jobs g g' : protocol_init jobs g -> rtc protocol_step g g' -> exists pts, protocol_inv g' pts.
Proof using lk_ne.
  intros Hinit Hr. assert (Hinv : exists pts, protocol_inv g pts) by (eexists; by apply inv_init). clear Hinit.
  induction Hr as [|g g1 g2 [t Hs] _ IH]; [done|]. apply IH. destruct Hinv as [pts Hinv]. by eapply inv_step.
Qed.

(** ** Progress *)

Section progress.
Context (g : protocol) (pts : list point) (Hinv : protocol_inv g pts) (Hstuck : forall t, process_step t g = None).

Ltac moves t HP :=
  pose proof (Hstuck t) as Hs; unfold process_step in Hs; rewrite (point_at g pts t _ Hinv HP) in Hs;
  cbn [point_code sleep_code fmap list_fmap app] in Hs; rewrite ?jobs_code_cons in Hs; cbn [job_code app] in Hs; repeat case_decide; try discriminate Hs; try tauto; try congruence.

(** Whoever holds ptable.lock can go on, so nobody does. *)
Lemma stuck_pt : g_owner g !! Lptable = None.
Proof using All.
  destruct (g_owner g !! Lptable) as [t|] eqn:Ho; [|done]. exfalso.
  destruct (proj1 (pi_pt _ _ Hinv t) Ho) as (P & HP & Hh).
  destruct P as [js|[] b js|[] js|js]; try discriminate Hh; try (by moves t HP).
  pose proof (owned_here has_lk _ _ _ HP _ (pi_lk _ _ Hinv) eq_refl). by moves t HP.
Qed.

(** Then whoever holds the lock can go on. *)
Lemma stuck_lk : g_owner g !! lk = None.
Proof using All.
  pose proof stuck_pt as Hpt. destruct (g_owner g !! lk) as [t|] eqn:Ho; [|done]. exfalso.
  destruct (proj1 (pi_lk _ _ Hinv t) Ho) as (P & HP & Hh).
  pose proof (owned_free has_pt _ _ _ HP _ (pi_pt _ _ Hinv) Hpt) as Hp.
  destruct P as [js|[] b js|[] js|js]; try discriminate Hh; try discriminate Hp; by moves t HP.
Qed.

(** Then every process that is not done sleeps, and the condition does not hold. *)
Lemma stuck_sleeps t P : pts !! t = Some P -> point_code P ≠ [] -> g_cond g = false /\ sleeps g t.
Proof using All.
  intros HP Hne. pose proof stuck_pt as Hpt. pose proof stuck_lk as Hlk.
  pose proof (owned_free has_lk _ _ _ HP _ (pi_lk _ _ Hinv) Hlk) as Hl.
  pose proof (owned_free has_pt _ _ _ HP _ (pi_pt _ _ Hinv) Hpt) as Hp.
  destruct P as [[|[b|] js]|[] b js|[] js|js]; try discriminate Hl; try discriminate Hp; try done; try (exfalso; by moves t HP).
  destruct (pi_slot _ _ Hinv t _ HP) as (pr & Hpr & [(Hst & Hch & Hpend)|Hr]).
  - split; [|by exists pr]. destruct (g_cond g); [|done]. destruct (Hpend eq_refl) as (u & Q & HQ & Hw).
    pose proof (owned_free has_lk _ _ _ HQ _ (pi_lk _ _ Hinv) Hlk). by destruct Q as [|[]| []|].
  - exfalso. moves t HP. rewrite Hpr in *. cbn in *. intuition congruence.
Qed.

End progress.

(** A process that sleeps while the condition holds has a wakeup on its way. *)
Lemma asleep_pending g pts t : protocol_inv g pts -> (t < length (g_code g))%nat -> sleeps g t -> g_cond g = true -> exists u, wakes g u.
Proof using Type.
  intros Hinv Ht (pr & Hpr & Hst & Hch) Hc. assert (Hpend : pending pts).
  { rewrite (pi_code _ _ Hinv), length_fmap in Ht. destruct (lookup_lt_is_Some_2 _ _ Ht) as [P HP].
    destruct (pi_slot _ _ Hinv t P HP) as (pr' & Hpr' & Hok). rewrite Hpr in Hpr'. injection Hpr' as <-.
    destruct P as [|[] ? ?| |]; cbn in Hok; rewrite ?Hst in Hok; intuition (discriminate || congruence). }
  destruct Hpend as (u & P & HP & Hw). exists u. unfold wakes. rewrite (point_at g pts u P Hinv HP).
  destruct P as [|[]|[] js|]; try discriminate Hw; eexists; [right|left]; reflexivity.
Qed.

End protocol.

(** ** Properties *)

(** C23.  No lost wakeup.  [sleep(ch, lk)] and [wakeup(ch)] are their sequences of steps; and when any number of processes run these
    steps around a condition guarded by [lk], waiting for it with [sleep] and making it hold with [wakeup], then under every interleaving a
    process that is SLEEPING on [ch] while the condition holds has a [wakeup1(ch)] still to come, and if no process can take a
    step, every process that is not done with its jobs is SLEEPING on [ch] and the condition does not hold: no process sleeps for ever on a condition that
    holds, and there is no deadlock between [lk] and ptable.lock. *)
Theorem no_lost_wakeup {S} ch lk jobs g g' :
  lk ≠ Lptable -> protocol_init ch lk jobs g -> rtc (protocol_step ch lk) g g' ->
  (forall w : world S, sleep ch lk w =
     (let! me := myproc in match me with None => panic "sleep" | Some i => act_run i (sleep_acts ch lk) end) w) /\
  (forall i (w : world S), wakeup ch w = act_run i (wakeup_acts ch) w) /\
  (forall t, (t < length (g_code g'))%nat -> sleeps ch g' t -> g_cond g' = true -> exists u, wakes ch g' u) /\
  ((forall g'', ~ protocol_step ch lk g' g'') ->
   forall t a l, g_code g' !! t = Some (a :: l) -> g_cond g' = false /\ sleeps ch g' t).
Proof.
  intros Hne Hinit Hr. destruct (inv_reach ch lk Hne jobs g g' Hinit Hr) as [pts Hinv].
  split; [apply sleep_is_acts|]. split; [apply wakeup_is_acts|]. split; [intros t; by eapply asleep_pending|].
  intros Hstuck t a l Hl. destruct (at_point ch lk g' pts t _ Hinv Hl) as (P & HP & Hcode).
  eapply (stuck_sleeps ch lk Hne g' pts Hinv); [|done|congruence].
  intros u. destruct (process_step ch lk u g') as [g''|] eqn:E; [|done]. destruct (Hstuck g''). by exists u.
Qed.

(** The processes in the order of [l], each one step at a time. *)
Fixpoint interleaved (ch : chan) (lk : lockid) (l : list nat) (g : protocol) : option protocol :=
  match l with [] => Some g | t :: l => g ← process_step ch lk t g; interleaved ch lk l g end.

Lemma interleaved_steps ch lk l : forall g g', interleaved ch lk l g = Some g' -> rtc (protocol_step ch lk) g g'.
Proof.
  induction l as [|t l IH]; intros g g' Hrun; [by injection Hrun as ->|]. cbn [interleaved] in Hrun.
  destruct (process_step ch lk t g) as [g1|] eqn:Hs; [|done]. eapply rtc_l; [by exists t|]. by apply IH.
Qed.

(** Process 0 waits, process 1 signals: it overtakes process 0 between its test and its sleep. *)
Definition ex_jobs : list (list job) := [[Wait true]; [Signal]].
Definition ex_protocol : protocol :=
  mkProtocol ∅ [ex_proc 3 (-1) 0 0 <| p_state := RUNNING |>; ex_proc 4 (-1) 0 0 <| p_state := RUNNING |>] false
    ((fun js => mjoin (job_code Cticks Ltickslock <$> js)) <$> ex_jobs).
Definition ex_steps : list nat := [0; 0; 0; 0; 1; 1; 0; 0; 0]%nat.
Definition ex_asleep : protocol := default ex_protocol (interleaved Cticks Ltickslock ex_steps ex_protocol).

Lemma no_lost_wakeup_witness : g_cond ex_asleep = true /\ sleeps Cticks ex_asleep 0 /\ exists u, wakes Cticks ex_asleep u.
Proof.
  assert (Hinit : protocol_init Cticks Ltickslock ex_jobs ex_protocol).
  { split_and!; [done|done|]. intros t Ht. do 2 (destruct t as [|t]; [done|]). cbn in Ht. lia. }
  assert (Hrun : interleaved Cticks Ltickslock ex_steps ex_protocol = Some ex_asleep) by (vm_compute; reflexivity).
  assert (Hs : sleeps Cticks ex_asleep 0) by (eexists; split; [vm_compute; reflexivity|done]).
  destruct (no_lost_wakeup (S := unit) Cticks Ltickslock ex_jobs ex_protocol ex_asleep ltac:(done) Hinit (interleaved_steps _ _ _ _ _ Hrun)) as (_ & _ & Hw & _).
  split; [vm_compute; reflexivity|]. split; [exact Hs|]. apply (Hw 0%nat); [vm_compute; lia|exact Hs|vm_compute; reflexivity].
Defined.
