(* ===== verification/Scheduler.v ===== *)
(** * The scheduler (scheduler of proc.c)

    One turn of the per-CPU scheduler: which process it picks under the EDF
    policy (0), the rate-monotonic policy (1) and the default policy, and the
    state in which it switches to it. *)

From S2P Require Import Prelude Kstate Spinlock Cprintf Proc.
From stdpp Require Import gmap strings list fin_maps.
Open Scope Z_scope.

Section scheduler_c.
Context {S : Type}.

(** The two inner loops over [p1], which look for a better [highP]. *)
Definition edf_step (tab : list proc) (highP p1 : nat) : nat :=
  match tab !! p1, tab !! highP with
  | Some q, Some h =>
      if negb (bool_decide (p_state q = RUNNABLE)) then highP
      else if p_deadline q <=? p_deadline h then
        if p_deadline q =? p_deadline h then
          if p_pid q <? p_pid h then p1 else highP
        else p1
      else highP
  | _, _ => highP
  end.

Definition rm_step (tab : list proc) (highP p1 : nat) : nat :=
  match tab !! p1, tab !! highP with
  | Some q, Some h =>
      if negb (bool_decide (p_state q = RUNNABLE)) then highP
      else if p_priority q <=? p_priority h then
        if p_priority q =? p_priority h then
          if p_pid q <? p_pid h then p1 else highP
        else p1
      else highP
  | _, _ => highP
  end.

Definition edf_scan (tab : list proc) (p : nat) : nat :=
  foldl (edf_step tab) p (seq 0 (length tab)).
Definition rm_scan (tab : list proc) (p : nat) : nat :=
  foldl (rm_step tab) p (seq 0 (length tab)).

Definition tick_elapsed (pr : proc) : proc :=
  pr <| p_elapsed_time := s32 (p_elapsed_time pr + 1) |>.

(** The choice made when the scan finds [p] runnable. *)
Definition choose (p : nat) (policy_to_use : Z) : M S nat :=
  let! ps := get_p in
  if policy_to_use =? 0 then
    let highP := edf_scan (ptable ps) p in
    set_proc highP tick_elapsed ;;;
    ret highP
  else if policy_to_use =? 1 then
    let highP := rm_scan (ptable ps) p in
    set_proc highP tick_elapsed ;;;
    ret highP
  else ret p.

(** [c->proc = v] for the cpu the scheduler runs on. *)
Definition set_c_proc (c : nat) (v : option nat) : M S unit :=
  let! k := cpu_at c in set_cpu c (k <| c_proc := v |>).

(** The body of the loop over the table; the result is the next [p], since
    [p = highP] moves the scan. *)
Definition scheduler_body (c p : nat) : M S (nat + unit) :=
  if (NPROC <=? p)%nat then ret (inr tt)
  else
    let! pr := proc_at p in
    if negb (bool_decide (p_state pr = RUNNABLE)) then ret (inl (Datatypes.S p))
    else
      let! p := choose p (p_sched_policy pr) in
      set_c_proc c (Some p) ;;;
      switchuvm (Some p) ;;;
      set_proc p (fun pr => pr <| p_state := RUNNING |>) ;;;
      swtch ;;;
      switchkvm ;;;
      set_c_proc c None ;;;
      ret (inl (Datatypes.S p)).

Definition scheduler_scan (fuel c : nat) : M S unit := loop fuel (scheduler_body c) 0%nat.

Definition scheduler (fuel : nat) : M S unit :=
  let! c := mycpu in
  set_c_proc c None ;;;
  loop fuel (fun _ : unit =>
    sti ;;;
    acquire Lptable ;;;
    scheduler_scan fuel c ;;;
    release Lptable ;;;
    ret (inl tt)) tt.

End scheduler_c.

(** ** What the inner loops compute *)

(** Both loops keep the smallest element of a lexicographic order on
    (deadline or priority, pid) over the runnable processes. *)
Section best.
Variable key : proc -> Z.

Definition lex_lt (q h : proc) : bool :=
  (key q <? key h) || ((key q =? key h) && (p_pid q <? p_pid h)).

Definition best_step (tab : list proc) (highP p1 : nat) : nat :=
  match tab !! p1, tab !! highP with
  | Some q, Some h =>
      if bool_decide (p_state q = RUNNABLE) && lex_lt q h then p1 else highP
  | _, _ => highP
  end.

Definition lex_le (h q : proc) : Prop :=
  key h < key q \/ (key h = key q /\ p_pid h <= p_pid q).

Lemma lex_le_refl h : lex_le h h.
Proof. right. lia. Qed.

Lemma lex_le_trans a b c : lex_le a b -> lex_le b c -> lex_le a c.
Proof. unfold lex_le. lia. Qed.

Lemma best_step_spec tab h i :
  (exists ph, tab !! h = Some ph /\ p_state ph = RUNNABLE) ->
  exists ph ph', tab !! h = Some ph /\
    tab !! best_step tab h i = Some ph' /\ p_state ph' = RUNNABLE /\ lex_le ph' ph /\
    (forall q, tab !! i = Some q -> p_state q = RUNNABLE -> lex_le ph' q).
Proof.
  intros (ph & Hh & Hst). unfold best_step. rewrite Hh.
  destruct (tab !! i) as [q|] eqn:Hi.
  2:{ exists ph, ph. repeat split; auto using lex_le_refl. done. }
  unfold lex_lt, lex_le in *.
  destruct (bool_decide_reflect (p_state q = RUNNABLE)) as [Hq|Hq]; cbn [andb].
  2:{ exists ph, ph. repeat split; auto; try lia; intros q' [= <-] ?; done. }
  destruct (Z.ltb_spec (key q) (key ph)); cbn [orb].
  { exists ph, q. repeat split; auto; try lia; intros q' [= <-] _; lia. }
  destruct (Z.eqb_spec (key q) (key ph)); cbn [andb].
  2:{ exists ph, ph. repeat split; auto; try lia; intros q' [= <-] _; lia. }
  destruct (Z.ltb_spec (p_pid q) (p_pid ph)).
  - exists ph, q. repeat split; auto; try lia; intros q' [= <-] _; lia.
  - exists ph, ph. repeat split; auto; try lia; intros q' [= <-] _; lia.
Qed.

Lemma best_scan_spec tab l h :
  (exists ph, tab !! h = Some ph /\ p_state ph = RUNNABLE) ->
  exists ph ph', tab !! h = Some ph /\
    tab !! foldl (best_step tab) h l = Some ph' /\ p_state ph' = RUNNABLE /\ lex_le ph' ph /\
    (forall i q, i ∈ l -> tab !! i = Some q -> p_state q = RUNNABLE -> lex_le ph' q).
Proof.
  revert h. induction l as [|i l IH]; intros h Hh; cbn [foldl].
  - destruct Hh as (ph & Hh & Hst). exists ph, ph. repeat split; auto using lex_le_refl.
    intros i q Hi. by apply elem_of_nil in Hi.
  - destruct (best_step_spec tab h i Hh) as (ph & p1 & Hph & Hp1 & Hst1 & Hle1 & Hq1).
    destruct (IH (best_step tab h i)) as (p1' & p2 & Hp1' & Hp2 & Hst2 & Hle2 & Hq2); [eauto|].
    simplify_eq. exists ph, p2. repeat split; auto.
    + by eapply lex_le_trans.
    + intros j q Hj Hjq Hstq. apply elem_of_cons in Hj as [->|Hj]; [|eauto].
      eapply lex_le_trans; [exact Hle2|eauto].
Qed.
End best.

Lemma edf_step_best tab h i : edf_step tab h i = best_step p_deadline tab h i.
Proof.
  unfold edf_step, best_step, lex_lt. destruct (tab !! i) as [q|], (tab !! h) as [ph|]; try done.
  destruct (bool_decide (p_state q = RUNNABLE)); cbn; [|done].
  destruct (Z.leb_spec (p_deadline q) (p_deadline ph)), (Z.ltb_spec (p_deadline q) (p_deadline ph)),
    (Z.eqb_spec (p_deadline q) (p_deadline ph)); cbn; try lia; done.
Qed.

Lemma rm_step_best tab h i : rm_step tab h i = best_step p_priority tab h i.
Proof.
  unfold rm_step, best_step, lex_lt. destruct (tab !! i) as [q|], (tab !! h) as [ph|]; try done.
  destruct (bool_decide (p_state q = RUNNABLE)); cbn; [|done].
  destruct (Z.leb_spec (p_priority q) (p_priority ph)), (Z.ltb_spec (p_priority q) (p_priority ph)),
    (Z.eqb_spec (p_priority q) (p_priority ph)); cbn; try lia; done.
Qed.

Lemma foldl_ext_eq {A B} (f g : A -> B -> A) l a :
  (forall x y, f x y = g x y) -> foldl f a l = foldl g a l.
Proof. intros He. revert a; induction l; intros; cbn; [done|]. by rewrite He. Qed.

Lemma edf_scan_best tab p : edf_scan tab p = foldl (best_step p_deadline tab) p (seq 0 (length tab)).
Proof. apply foldl_ext_eq. apply edf_step_best. Qed.

Lemma rm_scan_best tab p : rm_scan tab p = foldl (best_step p_priority tab) p (seq 0 (length tab)).
Proof. apply foldl_ext_eq. apply rm_step_best. Qed.

Lemma scan_spec key tab p pr :
  tab !! p = Some pr -> p_state pr = RUNNABLE ->
  exists h, tab !! foldl (best_step key tab) p (seq 0 (length tab)) = Some h /\
    p_state h = RUNNABLE /\
    forall i q, tab !! i = Some q -> p_state q = RUNNABLE -> lex_le key h q.
Proof.
  intros Hp Hst.
  destruct (best_scan_spec key tab (seq 0 (length tab)) p) as (_ & h & _ & Hh & Hsth & _ & Hmin);
    [eauto|].
  exists h. repeat split; auto. intros i q Hi. apply (Hmin i); [|done].
  apply elem_of_seq. apply lookup_lt_Some in Hi. lia.
Qed.

(** ** The state in which a process is started *)

Definition cproc_of (v : option nat) (c : cpu) : cpu := c <| c_proc := v |>.

#[export] Instance cproc_frame v : CpuFrame (cproc_of v).
Proof. split; done. Qed.

Lemma set_c_proc_run {S} m H co p (s : S) c v :
  my_cpu m = Some c ->
  set_c_proc c v (W (held m H) co p s) = Ret tt (W (held (on_cpu (cproc_of v) c m) H) co p s).
Proof.
  intros Hme. destruct (my_cpu_lookup _ _ Hme) as [k Hk]. unfold set_c_proc, held.
  erewrite bind_Ret by by apply cpu_at_run, cpus_pushed.
  by apply (set_cpu_pushed (cproc_of v) c m H _ k).
Qed.

(** The process the scan at [p] starts, and the field it orders by. *)
Definition chosen (tab : list proc) (p : nat) (policy : Z) : nat :=
  if policy =? 0 then edf_scan tab p else if policy =? 1 then rm_scan tab p else p.

Definition realtime (policy : Z) : bool := (policy =? 0) || (policy =? 1).

(** The chosen process's slot when it is started. *)
Definition start_proc (policy : Z) (pr : proc) : proc :=
  (if realtime policy then tick_elapsed pr else pr) <| p_state := RUNNING |>.

Lemma choose_run {S} i policy m H co p (s : S) :
  choose i policy (W (held m H) co p s) =
  Ret (chosen (ptable p) i policy)
    (W (held m H) co
       (if realtime policy
        then p <| ptable := alter tick_elapsed (chosen (ptable p) i policy) (ptable p) |>
        else p) s).
Proof.
  unfold choose, chosen, realtime. erewrite bind_Ret by reflexivity. cbn [w_p].
  destruct (policy =? 0); cbn [orb]; [done|]. destruct (policy =? 1); done.
Qed.

(** The machine on which the chosen process starts: it is this CPU's current
    process, on its own page table and kernel stack. *)
Definition start_machine (c h : nat) (pr : proc) (m : machine) : machine :=
  uvm_machine c pr (on_cpu (cproc_of (Some h)) c m).

Lemma cur_start_machine c h pr m k :
  my_cpu m = Some c -> cpus m !! c = Some k -> cur (start_machine c h pr m) = Some h.
Proof.
  intros Hme Hk. unfold start_machine, uvm_machine.
  change (cur (on_cpu (tss_of (ts_addr m c) pr) c (on_cpu (cproc_of (Some h)) c m)) = Some h).
  rewrite (cur_on_cpu _ c _ (cproc_of (Some h) k)); [done|apply _|by apply my_cpu_on_cpu; [apply _|]|].
  unfold on_cpu; cbn. by rewrite list_lookup_alter_eq, Hk.
Qed.

(** What the scheduler does with the CPU when it gets it back. *)
Definition scheduler_back {S} (c h : nat) : M S (nat + unit) :=
  switchkvm ;;; set_c_proc c None ;;; ret (inl (Datatypes.S h)).

Lemma scheduler_body_run {S} m co p (s : S) c i pr ph :
  my_cpu m = Some c -> (i < NPROC)%nat ->
  ptable p !! i = Some pr -> p_state pr = RUNNABLE ->
  ptable p !! chosen (ptable p) i (p_sched_policy pr) = Some ph ->
  p_kstack ph ≠ 0 -> p_pgdir ph ≠ 0 ->
  let h := chosen (ptable p) i (p_sched_policy pr) in
  scheduler_body c i (W (held m [Lptable]) co p s) =
  Swtch (W (held (start_machine c h ph m) [Lptable]) co
           (p <| ptable := <[h := start_proc (p_sched_policy pr) ph]> (ptable p) |>) s)
        (scheduler_back c h).
Proof.
  intros Hme Hlt Hi Hst Hh Hks Hpg h. unfold scheduler_body.
  rewrite (proj2 (Nat.leb_gt NPROC i)) by done.
  erewrite bind_Ret. 2:{ unfold proc_at, bind, get_p; cbn. rewrite Hi. reflexivity. }
  rewrite bool_decide_eq_true_2 by done. cbn [negb].
  erewrite bind_Ret by apply choose_run.
  erewrite bind_Ret by by apply set_c_proc_run.
  fold h in Hh |- *. set (policy := p_sched_policy pr) in *.
  set (ph' := if realtime policy then tick_elapsed ph else ph).
  erewrite bind_Ret.
  2:{ eapply (switchuvm_run _ _ _ _ _ c h ph'); [by apply my_cpu_on_cpu; [apply _|]|..].
      - unfold ph'. destruct (realtime policy); [|done]. cbn.
        by rewrite list_lookup_alter_eq, Hh.
      - unfold ph'. by destruct (realtime policy).
      - unfold ph'. by destruct (realtime policy). }
  erewrite bind_Ret by reflexivity. unfold bind, swtch. cbn [bind_res].
  unfold scheduler_back. f_equal. cbn [w_m w_c w_p w_s]. f_equal.
  - unfold start_machine, uvm_machine. by unfold ph'; destruct (realtime policy).
  - unfold start_proc. fold ph'. destruct p; unfold set_field; cbn in *. destruct (realtime policy); cbn.
    all: f_equal; apply list_eq; intros j; destruct (decide (h = j)) as [<-|Hne].
    all: assert (Hlen : (h < length ptable)%nat) by by eapply lookup_lt_Some.
    all: rewrite ?list_lookup_alter_eq, ?list_lookup_insert_eq by done.
    all: rewrite ?list_lookup_alter_ne, ?list_lookup_insert_ne by done.
    all: rewrite ?list_lookup_alter_eq, ?list_lookup_alter_ne by done.
    all: rewrite ?Hh; done.
Qed.

(** ** What a turn of the scheduler does *)

(** A runnable process has a kernel stack and a page table. *)
Definition startable (tab : list proc) : Prop :=
  forall j q, tab !! j = Some q -> p_state q = RUNNABLE -> p_kstack q ≠ 0 /\ p_pgdir q ≠ 0.

(** The [struct cpu] of the CPU that starts the process [ph] of slot [h]: it is the current process, the stack pointer for traps
    from user mode is the end of its kernel stack page, in the kernel's data segment, the I/O map is out of reach, and the
    descriptor 5 is that of this task state, which is at [ts]; the rest is as in [k]. *)
Definition starting_cpu (ts : Z) (h : nat) (ph : proc) (k : cpu) : cpu :=
  mkCpu (apicid k) (started k) (ncli k) (intena k) (Some h)
    (u32 (p_kstack ph + 4096)) 0x10 0xFFFF (<[5%nat := tss_desc ts]> (c_gdt k)).

(** The machine: CPU [c] alone has changed, its page table is that of the process, and its task register selects descriptor 5. *)
Definition starting (c h : nat) (ph : proc) (k : cpu) (m : machine) : machine :=
  mkMachine (lapic_id m) (fl_if m) (V2P (p_pgdir ph)) 0x28 (cr2 m) (m_image m)
    (<[c := starting_cpu (ts_addr m c) h ph k]> (cpus m)) (locks m).

(** [r], the outcome of the scheduler holding ptable.lock in process table [p],
    switches to slot [h], which holds [ph]: the process is RUNNING and [policy]
    decides whether its quantum is counted, it is the current process of CPU [c] on its
    own page table and kernel stack, with interrupts off and ptable.lock held; no other slot, no other CPU
    and no other lock changed, and [k] is what runs when it gives the CPU back. *)
Definition starts {S A} (c : nat) (m : machine) (co : console) (p : procs) (s : S)
    (policy : Z) (h : nat) (ph : proc) (r : res S A) (k : world S -> res S A) : Prop :=
  exists kc, cpus m !! c = Some kc /\
    r = Swtch (W (held (starting c h ph kc m) [Lptable]) co
                 (p <| ptable := <[h := start_proc policy ph]> (ptable p) |>) s) k /\
    cur (starting c h ph kc m) = Some h /\ my_cpu (starting c h ph kc m) = Some c.

Lemma start_machine_eq c h pr m k : cpus m !! c = Some k -> start_machine c h pr m = starting c h pr k m.
Proof.
  intros Hk. unfold start_machine, uvm_machine, starting. change (ts_addr (on_cpu (cproc_of (Some h)) c m) c) with (ts_addr m c).
  unfold on_cpu, set_field. cbn. f_equal. apply list_eq. intros j. destruct (decide (j = c)) as [->|Hne].
  - rewrite !list_lookup_alter_eq, list_lookup_insert_eq, Hk by by eapply lookup_lt_Some. done.
  - by rewrite !list_lookup_alter_ne, list_lookup_insert_ne by done.
Qed.

(** [ph] is runnable and comes first in the order ([key], pid) among the
    runnable processes of the table. *)
Definition first_by (key : proc -> Z) (tab : list proc) (ph : proc) : Prop :=
  p_state ph = RUNNABLE /\
  forall j q, tab !! j = Some q -> p_state q = RUNNABLE -> lex_le key ph q.

Lemma chosen_spec tab i pr :
  tab !! i = Some pr -> p_state pr = RUNNABLE ->
  exists ph, tab !! chosen tab i (p_sched_policy pr) = Some ph /\ p_state ph = RUNNABLE /\
    (p_sched_policy pr = 0 -> first_by p_deadline tab ph) /\
    (p_sched_policy pr = 1 -> first_by p_priority tab ph) /\
    (realtime (p_sched_policy pr) = false -> chosen tab i (p_sched_policy pr) = i).
Proof.
  intros Hi Hst. unfold chosen, realtime.
  destruct (Z.eqb_spec (p_sched_policy pr) 0) as [->|]; [|destruct (Z.eqb_spec (p_sched_policy pr) 1) as [->|]].
  - rewrite edf_scan_best. destruct (scan_spec p_deadline tab i pr) as (h & ? & ? & ?); [done..|].
    exists h. unfold first_by. naive_solver.
  - rewrite rm_scan_best. destruct (scan_spec p_priority tab i pr) as (h & ? & ? & ?); [done..|].
    exists h. unfold first_by. naive_solver.
  - exists pr. naive_solver.
Qed.

Lemma body_starts {S} m co p (s : S) c i pr ph :
  my_cpu m = Some c -> (i < NPROC)%nat -> startable (ptable p) ->
  ptable p !! i = Some pr -> p_state pr = RUNNABLE ->
  ptable p !! chosen (ptable p) i (p_sched_policy pr) = Some ph -> p_state ph = RUNNABLE ->
  let h := chosen (ptable p) i (p_sched_policy pr) in
  starts c m co p s (p_sched_policy pr) h ph
    (scheduler_body c i (W (held m [Lptable]) co p s)) (scheduler_back c h).
Proof.
  intros Hme Hlt Hready Hi Hst Hh Hsth h. destruct (Hready _ _ Hh Hsth) as [Hks Hpg].
  destruct (my_cpu_lookup _ _ Hme) as [k Hk].
  exists k. rewrite <- (start_machine_eq c h ph m k Hk).
  split; [done|]. split; [by apply scheduler_body_run|]. split; [by eapply cur_start_machine|].
  unfold start_machine, uvm_machine.
  change (my_cpu (on_cpu (tss_of (ts_addr m c) ph) c (on_cpu (cproc_of (Some h)) c m)) = Some c).
  by do 2 (apply my_cpu_on_cpu; [apply _|]).
Qed.

(** The scan passes over the slots that are not runnable. *)
Lemma scan_skip {S} c n i fuel m co p (s : S) :
  (i + n <= NPROC)%nat -> length (ptable p) = NPROC ->
  (forall j q, (i <= j < i + n)%nat -> ptable p !! j = Some q -> p_state q ≠ RUNNABLE) ->
  loop (n + fuel) (scheduler_body c) i (W m co p s) =
  loop fuel (scheduler_body c) (i + n)%nat (W m co p s).
Proof.
  revert i; induction n as [|n IH]; intros i Hle Hlen Hno; [by rewrite Nat.add_0_r|].
  cbn [loop Nat.add]. erewrite bind_Ret.
  2:{ unfold scheduler_body. rewrite (proj2 (Nat.leb_gt NPROC i)) by lia.
      destruct (lookup_lt_is_Some_2 (ptable p) i) as [q Hq]; [lia|].
      erewrite bind_Ret.
      2:{ unfold proc_at, bind, get_p; cbn. rewrite Hq. reflexivity. }
      rewrite bool_decide_eq_false_2 by (eapply Hno; [|done]; lia). reflexivity. }
  cbn beta iota. rewrite IH; [f_equal; lia|lia|done|]. intros j q ?. apply Hno. lia.
Qed.

(** ** Properties *)

Definition runnable (q : proc) : bool := bool_decide (p_state q = RUNNABLE).

(** C1.  EDF dispatch.  When the scan meets a runnable process of the EDF class, the
    process switched to is a runnable process with the least (deadline, pid) of the
    whole table, in exactly this state: one quantum is added to its elapsed time, it is RUNNING and current on this
    CPU, on its own page table, with the task state segment pointing to the end of its kernel stack and loaded, interrupts off and
    ptable.lock held; every other slot, CPU and lock, the console and the rest of the kernel state are unchanged. *)
Theorem edf_dispatch {S} m co p (s : S) c i pr :
  my_cpu m = Some c -> (i < NPROC)%nat -> startable (ptable p) ->
  ptable p !! i = Some pr -> p_state pr = RUNNABLE -> p_sched_policy pr = 0 ->
  exists h ph, ptable p !! h = Some ph /\ first_by p_deadline (ptable p) ph /\
    starts c m co p s 0 h ph (scheduler_body c i (W (held m [Lptable]) co p s)) (scheduler_back c h).
Proof.
  intros Hme Hlt Hready Hi Hst Hpol.
  destruct (chosen_spec _ _ _ Hi Hst) as (ph & Hh & Hsth & Hedf & _).
  eexists _, ph. split; [exact Hh|]. split; [auto|]. rewrite <- Hpol at 1. by apply body_starts.
Qed.

(** C2.  Rate-monotonic dispatch.  When the scan meets a runnable process of the RM
    class, the process switched to is a runnable process with the least
    (priority, pid) of the whole table, started in the same way. *)
Theorem rm_dispatch {S} m co p (s : S) c i pr :
  my_cpu m = Some c -> (i < NPROC)%nat -> startable (ptable p) ->
  ptable p !! i = Some pr -> p_state pr = RUNNABLE -> p_sched_policy pr = 1 ->
  exists h ph, ptable p !! h = Some ph /\ first_by p_priority (ptable p) ph /\
    starts c m co p s 1 h ph (scheduler_body c i (W (held m [Lptable]) co p s)) (scheduler_back c h).
Proof.
  intros Hme Hlt Hready Hi Hst Hpol.
  destruct (chosen_spec _ _ _ Hi Hst) as (ph & Hh & Hsth & _ & Hrm & _).
  eexists _, ph. split; [exact Hh|]. split; [auto|]. rewrite <- Hpol at 1. by apply body_starts.
Qed.

(** C20.  The pass over the table is work conserving: if some process is runnable, the
    pass that starts at slot 0 with ptable.lock held gives the CPU away, to a process that was
    runnable, under the policy of the first runnable slot [i]; and if that policy is
    neither EDF nor RM it is the process in that very slot. *)
Theorem scan_dispatches {S} m co p (s : S) c i pr fuel :
  my_cpu m = Some c -> length (ptable p) = NPROC -> startable (ptable p) ->
  find_idx runnable (ptable p) = Some i -> ptable p !! i = Some pr -> (NPROC < fuel)%nat ->
  exists h ph k, ptable p !! h = Some ph /\ p_state ph = RUNNABLE /\
    (realtime (p_sched_policy pr) = false -> h = i) /\
    starts c m co p s (p_sched_policy pr) h ph (scheduler_scan fuel c (W (held m [Lptable]) co p s)) k.
Proof.
  intros Hme Hlen Hready Hfind Hi Hfuel.
  pose proof (find_idx_lt _ _ _ Hfind) as Hlt. rewrite Hlen in Hlt.
  apply find_idx_Some in Hfind as [(q & Hq & Hst) Hbefore]. rewrite Hi in Hq; injection Hq as <-.
  apply bool_decide_eq_true in Hst.
  destruct (chosen_spec _ _ _ Hi Hst) as (ph & Hh & Hsth & _ & _ & Hself).
  destruct (body_starts m co p s c i pr ph) as (kc & Hkc & Hrun & Hcur & Hme'); [done..|].
  assert (exists n, fuel = (i + Datatypes.S n)%nat) as [n ->] by (exists (fuel - i - 1)%nat; lia).
  eexists _, ph, _. do 3 (split; [done|]). exists kc. split; [done|]. split; [|done]. unfold scheduler_scan.
  rewrite scan_skip by (try lia; try done; intros j q ? Hj Hr;
    specialize (Hbefore j q ltac:(lia) Hj); by apply bool_decide_eq_false in Hbefore).
  cbn [loop Nat.add]. unfold bind at 1. rewrite Hrun. reflexivity.
Qed.

(** A pass over a table with no runnable process ends after its NPROC turns and
    changes nothing. *)
Theorem scan_idle {S} m co p (s : S) c fuel :
  length (ptable p) = NPROC -> find_idx runnable (ptable p) = None -> (NPROC < fuel)%nat ->
  scheduler_scan fuel c (W m co p s) = Ret tt (W m co p s).
Proof.
  intros Hlen Hno Hfuel. unfold scheduler_scan.
  replace fuel with (NPROC + Datatypes.S (fuel - NPROC - 1))%nat by lia.
  rewrite scan_skip by (try lia; try done; intros j q _ Hj;
    by eapply bool_decide_eq_false, (proj1 (find_idx_None _ _) Hno)).
  done.
Qed.

(** When the process gives the CPU back, still holding ptable.lock, the scheduler is on
    the kernel page table with no current process, and goes on after that slot. *)
Theorem scheduler_back_spec {S} m co p (s : S) c h :
  my_cpu m = Some c ->
  exists m', scheduler_back c h (W (held m [Lptable]) co p s) =
      Ret (inl (Datatypes.S h)) (W (held m' [Lptable]) co p s) /\
    cur m' = None /\ cr3 m' = V2P (kpgdir p) /\ my_cpu m' = Some c /\ locks m' = locks m.
Proof.
  intros Hme. destruct (my_cpu_lookup _ _ Hme) as [k Hk].
  exists (on_cpu (cproc_of None) c (m <| cr3 := V2P (kpgdir p) |>)).
  unfold scheduler_back, switchkvm, held.
  erewrite bind_Ret.
  2:{ erewrite bind_Ret by reflexivity. unfold lcr3, bind, get_m, put_m; cbn.
      rewrite pushed_cr3. reflexivity. }
  erewrite bind_Ret by by apply (set_c_proc_run _ [Lptable]).
  split; [done|]. split; [by erewrite (cur_on_cpu (cproc_of None)) by (apply _ || done)|].
  split; [done|]. split; [|done]. by apply my_cpu_on_cpu; [apply _|].
Qed.

(** ** The properties at a concrete table *)

Lemma ex_startable policy : startable (ptable (ex_procs policy)).
Proof.
  intros j q Hj Hst. do 4 (destruct j as [|j]; [cbn in Hj; simplify_eq; done|]).
  cbn -[replicate] in Hj. apply lookup_replicate in Hj as [-> _]. done.
Qed.

Lemma edf_dispatch_witness : exists h ph,
  ptable (ex_procs 0) !! h = Some ph /\ first_by p_deadline (ptable (ex_procs 0)) ph /\
  starts 0 (one_cpu [Lptable] None) ex_console (ex_procs 0) tt 0 h ph
    (scheduler_body 0 1 (W (held (one_cpu [Lptable] None) [Lptable]) ex_console (ex_procs 0) tt))
    (scheduler_back 0 h).
Proof.
  apply (edf_dispatch _ _ _ _ 0 1 (ex_proc 4 0 18 3)); try reflexivity; [unfold NPROC; lia|apply ex_startable].
Defined.

Lemma rm_dispatch_witness : exists h ph,
  ptable (ex_procs 1) !! h = Some ph /\ first_by p_priority (ptable (ex_procs 1)) ph /\
  starts 0 (one_cpu [Lptable] None) ex_console (ex_procs 1) tt 1 h ph
    (scheduler_body 0 1 (W (held (one_cpu [Lptable] None) [Lptable]) ex_console (ex_procs 1) tt))
    (scheduler_back 0 h).
Proof.
  apply (rm_dispatch _ _ _ _ 0 1 (ex_proc 4 1 18 3)); try reflexivity; [unfold NPROC; lia|apply ex_startable].
Defined.

Lemma scan_dispatches_witness : exists h ph k,
  ptable (ex_procs (-1)) !! h = Some ph /\ p_state ph = RUNNABLE /\ (realtime (-1) = false -> h = 1%nat) /\
  starts 0 (one_cpu [Lptable] None) ex_console (ex_procs (-1)) tt (-1) h ph
    (scheduler_scan 65 0 (W (held (one_cpu [Lptable] None) [Lptable]) ex_console (ex_procs (-1)) tt)) k.
Proof.
  apply (scan_dispatches _ _ _ _ 0 1 (ex_proc 4 (-1) 18 3)); try reflexivity; [apply ex_startable|].
  unfold NPROC; lia.
Defined.

Lemma scan_idle_witness :
  let p := mkProcs (replicate NPROC proc_zero) None 0 0 1 1 0 0 in
  scheduler_scan 65 0 (W (one_cpu [] None) ex_console p tt) = Ret tt (W (one_cpu [] None) ex_console p tt).
Proof. apply scan_idle; [reflexivity..|]. unfold NPROC; lia. Defined.

Lemma scheduler_back_spec_witness : exists m',
  scheduler_back 0 2 (W (held (one_cpu [Lptable] (Some 2%nat)) [Lptable]) ex_console (ex_procs 0) tt) =
    Ret (inl 3%nat) (W (held m' [Lptable]) ex_console (ex_procs 0) tt) /\
  cur m' = None /\ cr3 m' = V2P (kpgdir (ex_procs 0)) /\ my_cpu m' = Some 0%nat /\
  locks m' = locks (one_cpu [Lptable] (Some 2%nat)).
Proof. apply scheduler_back_spec. reflexivity. Defined.
