(* ===== verification/Admission.v ===== *)
(** * Real-time admission (sched_policy, exec_time, deadline, rate of proc.c)

    The system calls that give a process its real-time parameters and the
    admission test that lets it into the EDF or rate-monotonic class, with the divide trap it can take and the
    debugging listings of proc.c. *)

From S2P Require Import Prelude Kstate Spinlock Cprintf Proc.
From stdpp Require Import gmap strings list fin_maps.
From Stdlib Require Import Ascii.
Open Scope Z_scope.

Section admission_c.
Context {S : Type}.

Definition kernel_fmt : string := ("unexpected trap %d from cpu %d eip %x (cr2=0x%x)" ++ nl)%string.
Definition T_DIVIDE : Z := 0.

(** The divide error of the instruction at [im_idiv]: the gate turns interrupts off, and [trap], entered from the kernel,
    says so and panics. *)
Definition divide_error {A} : M S A :=
  cli ;;;
  let! _ := myproc in
  let! c := cpuid in
  let! m := get_m in
  cprintf kernel_fmt [AInt T_DIVIDE; AInt c; AInt (s32 (im_idiv (m_image m))); AInt (s32 (cr2 m))] ;;;
  panic "trap".

(** Signed division: a zero divisor, or an overflowing quotient, raises the divide error. *)
Definition idiv (a b : Z) : M S Z :=
  if (b =? 0) || ((a =? -2147483648) && (b =? -1)) then divide_error
  else ret (Z.quot a b).

(** The chain of comparisons that sets [chk_lproc]. *)
Definition chk_lproc (lproc : Z) : Z :=
  match lproc with
  | 1 => 1000 | 2 => 828 | 3 => 779 | 4 => 756 | 5 => 743 | 6 => 734 | 7 => 728
  | 8 => 724 | 9 => 720 | 10 => 717 | 11 => 715 | 12 => 713 | 13 => 711 | 14 => 710
  | 15 => 709 | 16 => 708 | 17 => 707 | 18 => 706 | 19 => 705 | 20 => 705
  | 21 => 704 | 22 => 704 | 23 => 703 | 24 => 703 | 25 => 702 | 26 => 702 | 27 => 702
  | 28 => 701 | 29 => 701 | 30 => 701 | 31 => 700 | 32 => 700 | 33 => 700 | 34 => 700
  | 35 => 700 | 36 => 699 | 37 => 699 | 38 => 699 | 39 => 699 | 40 => 699 | 41 => 699
  | 42 => 698 | 43 => 698 | 44 => 698 | 45 => 698 | 46 => 698 | 47 => 698 | 48 => 698
  | 49 => 698 | 50 => 697 | 51 => 697 | 52 => 697 | 53 => 697 | 54 => 697 | 55 => 697
  | 56 => 697 | 57 => 697 | 58 => 697 | 59 => 697 | 60 => 697 | 61 => 697 | 62 => 697
  | 63 => 696
  | _ => 696
  end.

Definition reject (pr : proc) : proc := pr <| p_killed := 1 |> <| p_state := ZOMBIE |>.

(** The two admission tests, on the slot [i] of the process; the result is [check]. *)
Definition admit_edf (i : nat) (policy : Z) : M S Z :=
  let! p := proc_at i in
  let! u := idiv (s32 (p_execution_time p * 100)) (p_deadline p) in
  upd_p (fun ps => ps <| utf_edf := s32 (utf_edf ps + u) |>) ;;;
  let! ps := get_p in
  if 100 <=? utf_edf ps then
    let! p := proc_at i in
    let! u := idiv (s32 (p_execution_time p * 100)) (p_deadline p) in
    upd_p (fun ps => ps <| utf_edf := s32 (utf_edf ps - u) |>) ;;;
    set_proc i reject ;;;
    ret 1
  else
    set_proc i (fun p => p <| p_sched_policy := policy |>) ;;;
    ret 0.

Definition admit_rm (i : nat) (policy lproc : Z) : M S Z :=
  let! p := proc_at i in
  let! ps := get_p in
  let curr_utf_rm := s32 (s32 (p_execution_time p * p_rate p) * 10) in
  let tempChk := s32 (utf_rm ps + curr_utf_rm) in
  if tempChk <=? chk_lproc lproc then
    upd_p (fun ps => ps <| utf_rm := s32 (utf_rm ps + curr_utf_rm) |>) ;;;
    set_proc i (fun p => p <| p_arrival_time := s32 (ticks ps) |>
                           <| p_sched_policy := policy |>) ;;;
    ret 0
  else
    set_proc i reject ;;;
    ret 1.

(** The loop of [sched_policy] over the table; the result is [check]. *)
Definition policy_check (pid policy lproc : Z) : M S Z :=
  let! ps := get_p in
  match find_idx (fun p => p_pid p =? pid) (ptable ps) with
  | Some i =>
      let! check := (if policy =? 0 then admit_edf i policy else ret 0) in
      if policy =? 1 then admit_rm i policy lproc else ret check
  | None => ret 0
  end.

Definition sched_policy (pid policy : Z) : M S Z :=
  let lproc := s32 (pid - 2) in
  sti ;;;
  acquire Lptable ;;;
  let! check := policy_check pid policy lproc in
  release Lptable ;;;
  if 0 <? check then ret (-22) else ret 0.

(** The three parameter calls share their search. *)
Definition with_pid (pid : Z) (f : proc -> proc) : M S Z :=
  sti ;;;
  acquire Lptable ;;;
  let! found :=
    (let! ps := get_p in
     match find_idx (fun p => p_pid p =? pid) (ptable ps) with
     | Some i => set_proc i f ;;; ret 1
     | None => ret 0
     end) in
  release Lptable ;;;
  if found =? 0 then ret (-22) else ret 0.

Definition exec_time (pid time : Z) : M S Z :=
  with_pid pid (fun p => p <| p_execution_time := time |>).

Definition deadline (pid d : Z) : M S Z :=
  with_pid pid (fun p => p <| p_deadline := d |>).

Definition priority_of_rate (rate : Z) : Z :=
  let priority_temp := Z.quot (s32 (s32 (90 - s32 (3 * rate)) + 28)) 29 in
  if priority_temp <? 1 then 1 else priority_temp.

Definition rate (pid r : Z) : M S Z :=
  with_pid pid (fun p => p <| p_rate := r |> <| p_priority := priority_of_rate r |>).

(** ** Listings *)

(** The three calls of [cprintf] in [printinfo] differ in the name of the state. *)
Definition info_fmt (st : string) : string :=
  "Process State - " ++ st ++ ", Process Name - %s, Process Id - %d, Policy - %d, Exec time - %d, Deadline - %d" ++ nl.
Definition info_args (p : proc) : list carg :=
  [AStr (Some (cstr (p_name p))); AInt (p_pid p); AInt (p_sched_policy p);
   AInt (p_execution_time p); AInt (p_deadline p)].
Definition printinfo_line (st : string) (p : proc) : M S unit := cprintf (info_fmt st) (info_args p).

Definition printinfo : M S Z :=
  sti ;;;
  acquire Lptable ;;;
  let! ps := get_p in
  for_list (ptable ps) (fun p =>
    if bool_decide (p_state p = SLEEPING) then printinfo_line "SLEEPING" p
    else if bool_decide (p_state p = RUNNING) then printinfo_line "RUNNING" p
    else if bool_decide (p_state p = RUNNABLE) then printinfo_line "RUNNABLE" p
    else ret tt) ;;;
  release Lptable ;;;
  ret 22.

(** [states[]] of procdump. *)
Definition state_name (st : procstate) : string :=
  match st with
  | UNUSED => "unused" | EMBRYO => "embryo" | SLEEPING => "sleep "
  | RUNNABLE => "runble" | RUNNING => "run   " | ZOMBIE => "zombie"
  end.

(** The addresses up to the first zero: [i < 10 && pc[i] != 0]. *)
Definition procdump (mem : Z -> Z) : M S unit :=
  let! ps := get_p in
  for_list (ptable ps) (fun p =>
    if bool_decide (p_state p = UNUSED) then ret tt
    else
      cprintf "%d %s %s" [AInt (p_pid p); AStr (Some (str (state_name (p_state p))));
                          AStr (Some (cstr (p_name p)))] ;;;
      when (bool_decide (p_state p = SLEEPING))
        (for_list (cstr (getcallerpcs mem (u32 (ctx_ebp (p_ctxv p) + 8))))
           (fun pc => cprintf " %p" [AInt pc])) ;;;
      cprintf nl []).

End admission_c.

(** ** Running the admission test *)

(** The machine after [sti()]. *)
Definition sti_machine (m : machine) : machine := m <| fl_if := true |>.

Lemma sti_run {S} m co p (s : S) :
  sti (W m co p s) = Ret tt (W (sti_machine m) co p s).
Proof. done. Qed.

Lemma idle_sti m : idle m -> idle (sti_machine m).
Proof. done. Qed.

Lemma has_lock_sti m lk : has_lock m lk -> has_lock (sti_machine m) lk.
Proof. done. Qed.

#[export] Hint Resolve idle_sti has_lock_sti : xv6.

(** The frame all five calls have: [sti], the lock, the work on the table, the lock. *)
Lemma locked_run {S A B} m co p p' (s : S) (f : M S A) (a : A) (k : A -> M S B) r :
  idle m -> has_lock m Lptable ->
  f (W (held (sti_machine m) [Lptable]) co p s) = Ret a (W (held (sti_machine m) [Lptable]) co p' s) ->
  k a (W (held (sti_machine m) []) co p' s) = r ->
  (sti ;;; acquire Lptable ;;; let! x := f in release Lptable ;;; k x) (W m co p s) = r.
Proof.
  intros Hm Hlk Hf Hk. erewrite bind_Ret by apply sti_run.
  erewrite bind_Ret by (apply acquire_idle; auto with xv6).
  erewrite bind_Ret by exact Hf.
  erewrite bind_Ret by (apply release_last; [auto with xv6..|set_solver]). done.
Qed.

(** *** The specification of the two tests *)

(** The load a process asks for: percent of its deadline for EDF, per mille
    for RM. *)
Definition edf_load (pr : proc) : Z := Z.quot (s32 (p_execution_time pr * 100)) (p_deadline pr).
Definition rm_load (pr : proc) : Z := s32 (s32 (p_execution_time pr * p_rate pr) * 10).

(** The table after the process in slot [i] was turned down, or admitted. *)
Definition rejected (i : nat) (p : procs) : procs := p <| ptable := alter reject i (ptable p) |>.

Definition admitted_edf (i : nat) (pr : proc) (p : procs) : procs :=
  p <| utf_edf := s32 (utf_edf p + edf_load pr) |>
    <| ptable := alter (fun q => q <| p_sched_policy := 0 |>) i (ptable p) |>.

Definition admitted_rm (i : nat) (pr : proc) (p : procs) : procs :=
  p <| utf_rm := s32 (utf_rm p + rm_load pr) |>
    <| ptable := alter (fun q => q <| p_arrival_time := s32 (ticks p) |> <| p_sched_policy := 1 |>)
                   i (ptable p) |>.

Definition edf_fits (p : procs) (pr : proc) : bool := negb (100 <=? s32 (utf_edf p + edf_load pr)).
Definition rm_fits (p : procs) (pr : proc) (lproc : Z) : bool :=
  s32 (utf_rm p + rm_load pr) <=? chk_lproc lproc.

Lemma s32_sub_add a b : is_s32 a -> s32 (s32 (a + b) - b) = a.
Proof.
  intros Ha. unfold s32. rewrite <- (s32_id a Ha) at 2. unfold s32. f_equal.
  replace ((a + b + 2147483648) mod 4294967296 - 2147483648 - b + 2147483648)
    with ((a + b + 2147483648) mod 4294967296 - b) by lia.
  rewrite Zminus_mod_idemp_l. f_equal. lia.
Qed.

Lemma proc_at_run {S} m co p (s : S) i pr :
  ptable p !! i = Some pr -> proc_at i (W m co p s) = Ret pr (W m co p s).
Proof. intros Hi. unfold proc_at, bind, get_p; cbn. by rewrite Hi. Qed.

Lemma idiv_run {S} m co p (s : S) a b :
  b ≠ 0 -> ~ (a = -2147483648 /\ b = -1) -> idiv a b (W m co p s) = Ret (Z.quot a b) (W m co p s).
Proof.
  intros Hb Ho. unfold idiv.
  destruct (Z.eqb_spec b 0), (Z.eqb_spec a (-2147483648)), (Z.eqb_spec b (-1)); cbn; tauto.
Qed.

(** The quotient of a signed division that does not trap is in range. *)
Definition divides_ok (pr : proc) : Prop :=
  p_deadline pr ≠ 0 /\ ~ (s32 (p_execution_time pr * 100) = -2147483648 /\ p_deadline pr = -1).

Lemma admit_edf_run {S} m co p (s : S) i pr :
  ptable p !! i = Some pr -> divides_ok pr -> is_s32 (utf_edf p) ->
  admit_edf i 0 (W m co p s) =
  if edf_fits p pr then Ret 0 (W m co (admitted_edf i pr p) s)
  else Ret 1 (W m co (rejected i p) s).
Proof.
  intros Hi [Hd Ho] Hu. unfold admit_edf, edf_fits.
  erewrite bind_Ret by by apply proc_at_run.
  erewrite bind_Ret by by apply idiv_run.
  erewrite bind_Ret by reflexivity. erewrite bind_Ret by reflexivity.
  fold (edf_load pr). cbn [w_m w_c w_p w_s]. unfold set_field at 1; cbn [utf_edf].
  destruct (100 <=? s32 (utf_edf p + edf_load pr)); cbn [negb]; [|done].
  erewrite bind_Ret by by apply proc_at_run.
  erewrite bind_Ret by by apply idiv_run. fold (edf_load pr).
  unfold upd_p, set_proc, upd_p, bind, ret, set_field; cbn.
  rewrite s32_sub_add by done. by destruct p.
Qed.

Lemma admit_rm_run {S} m co p (s : S) i pr lproc :
  ptable p !! i = Some pr ->
  admit_rm i 1 lproc (W m co p s) =
  if rm_fits p pr lproc then Ret 0 (W m co (admitted_rm i pr p) s)
  else Ret 1 (W m co (rejected i p) s).
Proof.
  intros Hi. unfold admit_rm, rm_fits.
  erewrite bind_Ret by by apply proc_at_run. erewrite bind_Ret by reflexivity.
  fold (rm_load pr). cbn [w_p]. by destruct (s32 (utf_rm p + rm_load pr) <=? chk_lproc lproc).
Qed.

(** What one call of [sched_policy] decides, and the table after it. *)
Definition policy_step (pid policy : Z) (p : procs) : bool * procs :=
  match find_idx (fun q => p_pid q =? pid) (ptable p) with
  | None => (true, p)
  | Some i =>
      match ptable p !! i with
      | None => (true, p)
      | Some pr =>
          if policy =? 0 then
            if edf_fits p pr then (true, admitted_edf i pr p) else (false, rejected i p)
          else if policy =? 1 then
            if rm_fits p pr (s32 (pid - 2)) then (true, admitted_rm i pr p) else (false, rejected i p)
          else (true, p)
      end
  end.

(** The process asked for does not make the EDF division trap. *)
Definition params_ok (pid : Z) (p : procs) : Prop :=
  is_s32 (utf_edf p) /\
  forall i pr, find_idx (fun q => p_pid q =? pid) (ptable p) = Some i ->
    ptable p !! i = Some pr -> divides_ok pr.

Lemma policy_check_run {S} m co p (s : S) pid policy :
  (policy = 0 -> params_ok pid p) ->
  policy_check pid policy (s32 (pid - 2)) (W m co p s) =
  Ret (if (policy_step pid policy p).1 then 0 else 1) (W m co (policy_step pid policy p).2 s).
Proof.
  intros Hpar. unfold policy_check, policy_step.
  erewrite bind_Ret by reflexivity. cbn [w_p].
  destruct (find_idx _ (ptable p)) as [i|] eqn:Hf; [|done].
  destruct (lookup_lt_is_Some_2 (ptable p) i) as [pr Hi]; [by eapply find_idx_lt|]. rewrite Hi.
  destruct (Z.eqb_spec policy 0) as [->|H0]; [|destruct (Z.eqb_spec policy 1) as [->|H1]].
  - destruct (Hpar eq_refl) as [Hu Hdiv]. cbn [Z.eqb]. unfold bind. rewrite (admit_edf_run _ _ _ _ i pr) by eauto.
    by destruct (edf_fits p pr).
  - erewrite bind_Ret by reflexivity. cbn [Z.eqb]. rewrite (admit_rm_run _ _ _ _ i pr) by done.
    by destruct (rm_fits p pr (s32 (pid - 2))).
  - done.
Qed.

Lemma sched_policy_run {S} m co p (s : S) pid policy :
  idle m -> has_lock m Lptable -> (policy = 0 -> params_ok pid p) ->
  sched_policy pid policy (W m co p s) =
  Ret (if (policy_step pid policy p).1 then 0 else -22)
      (W (held (sti_machine m) []) co (policy_step pid policy p).2 s).
Proof.
  intros Hm Hlk Hpar. eapply locked_run; [done..|by apply policy_check_run|].
  by destruct ((policy_step pid policy p).1).
Qed.

(** ** Sequences of calls *)

Fixpoint policies {S} (reqs : list (Z * Z)) : M S (list Z) :=
  match reqs with
  | [] => ret []
  | (pid, policy) :: reqs =>
      let! r := sched_policy pid policy in
      let! rs := policies reqs in
      ret (r :: rs)
  end.

(** The parameters [sched_policy] reads, of the process with a given pid. *)
Definition task_of (p : procs) (pid : Z) : option proc :=
  i ← find_idx (fun q => p_pid q =? pid) (ptable p); ptable p !! i.

Definition load_of (policy : Z) (pr : proc) : Z := if policy =? 0 then edf_load pr else rm_load pr.

(** The load of the requests for [policy] that were answered with 0. *)
Fixpoint granted (p : procs) (policy : Z) (reqs : list (Z * Z)) (rs : list Z) : Z :=
  match reqs, rs with
  | (pid, pol) :: reqs, r :: rs =>
      (if (pol =? policy) && (r =? 0) then from_option (load_of policy) 0 (task_of p pid) else 0)
      + granted p policy reqs rs
  | _, _ => 0
  end.

(** Parameters a caller may set: no product overflows and, for EDF, deadlines are positive. *)
Definition rate_sane (pr : proc) : Prop := 0 <= p_execution_time pr <= 1000 /\ 0 <= p_rate pr <= 100000.
Definition edf_sane (pr : proc) : Prop := 0 <= p_execution_time pr <= 1000 /\ 0 < p_deadline pr < 2147483648.
Definition sane (pr : proc) : Prop := rate_sane pr /\ 0 < p_deadline pr < 2147483648.
(** What a request for [policy] needs of the process it names. *)
Definition sane_for (policy : Z) (pr : proc) : Prop := (policy = 0 -> edf_sane pr) /\ (policy = 1 -> rate_sane pr).

(** The answers to a sequence of requests, from the parameters of the processes alone: the EDF requests are granted while the
    percentages add up to less than 100, the RM requests while the sum of the per milles is within the bound of the table. *)
Fixpoint verdicts (p : procs) (edf rm : Z) (reqs : list (Z * Z)) : list Z :=
  match reqs with
  | [] => []
  | (pid, policy) :: reqs =>
      match task_of p pid, policy with
      | Some pr, 0 =>
          let u := p_execution_time pr * 100 / p_deadline pr in
          if edf + u <? 100 then 0 :: verdicts p (edf + u) rm reqs else -22 :: verdicts p edf rm reqs
      | Some pr, 1 =>
          let u := p_execution_time pr * p_rate pr * 10 in
          if rm + u <=? chk_lproc (s32 (pid - 2)) then 0 :: verdicts p edf (rm + u) reqs else -22 :: verdicts p edf rm reqs
      | _, _ => 0 :: verdicts p edf rm reqs
      end
  end.

(** Two tables that [sched_policy] cannot tell apart, up to the loads. *)
Definition same_task (q q' : proc) : Prop :=
  p_pid q = p_pid q' /\ p_execution_time q = p_execution_time q' /\
  p_deadline q = p_deadline q' /\ p_rate q = p_rate q'.
Definition same_tasks (p p' : procs) : Prop := Forall2 same_task (ptable p) (ptable p').

#[export] Instance same_task_equiv : Equivalence same_task.
Proof. unfold same_task. split; repeat intro; intuition congruence. Qed.

#[export] Instance same_tasks_equiv : Equivalence same_tasks.
Proof.
  unfold same_tasks. split; repeat intro; [reflexivity|by symmetry|by etrans].
Qed.

#[export] Instance load_of_proper policy : Proper (same_task ==> eq) (load_of policy).
Proof. intros q q' (_ & He & Hd & Hr). unfold load_of, edf_load, rm_load. by rewrite He, Hd, Hr. Qed.

#[export] Instance sane_for_proper policy : Proper (same_task ==> iff) (sane_for policy).
Proof. intros q q' (_ & He & Hd & Hr). unfold sane_for, edf_sane, rate_sane. by rewrite He, Hd, Hr. Qed.

Lemma same_tasks_find p p' pid :
  same_tasks p p' ->
  find_idx (fun q => p_pid q =? pid) (ptable p) = find_idx (fun q => p_pid q =? pid) (ptable p').
Proof. induction 1 as [|q q' l l' [Hpid _] _ IH]; cbn; [done|]. by rewrite Hpid, IH. Qed.

Lemma same_tasks_task p p' pid :
  same_tasks p p' -> option_Forall2 same_task (task_of p pid) (task_of p' pid).
Proof.
  intros Hs. unfold task_of. rewrite (same_tasks_find p p') by done.
  destruct (find_idx _ _) as [i|]; cbn; [|constructor]. by apply Forall2_lookup.
Qed.

#[export] Instance granted_proper :
  Proper (same_tasks ==> eq ==> eq ==> eq ==> eq) granted.
Proof.
  intros p p' Hs pol _ <- reqs _ <- rs _ <-. revert rs.
  induction reqs as [|[pid po] reqs IH]; intros [|r rs]; cbn; try done. rewrite IH. f_equal.
  case_match; [|done]. destruct (same_tasks_task p p' pid Hs) as [q q' Hq|]; cbn; [|done].
  by rewrite Hq.
Qed.

#[export] Instance verdicts_proper :
  Proper (same_tasks ==> eq ==> eq ==> eq ==> eq) verdicts.
Proof.
  intros p p' Hs e _ <- u _ <- reqs _ <-. revert e u.
  induction reqs as [|[pid po] reqs IH]; intros e u; cbn [verdicts]; [done|].
  destruct (same_tasks_task p p' pid Hs) as [q q' (_ & He & Hd & Hr)|]; [|by rewrite IH].
  rewrite He, Hd, Hr. repeat case_match; by rewrite IH.
Qed.

Lemma same_tasks_alter (f : proc -> proc) i p p' :
  (forall q, same_task q (f q)) -> ptable p' = alter f i (ptable p) -> same_tasks p p'.
Proof.
  intros Hf Hp. unfold same_tasks. rewrite Hp. apply Forall2_lookup. intros j.
  rewrite list_lookup_alter. case_decide; subst; destruct (ptable p !! j); cbn; constructor; auto.
  reflexivity.
Qed.

Lemma policy_step_same pid policy p : same_tasks p (policy_step pid policy p).2.
Proof.
  unfold policy_step. destruct (find_idx _ _) as [i|]; [|reflexivity].
  destruct (ptable p !! i); [|reflexivity].
  repeat case_match; try reflexivity; (eapply same_tasks_alter; [|reflexivity]); done.
Qed.

Lemma chk_lproc_range n : 696 <= chk_lproc n <= 1000.
Proof. unfold chk_lproc. repeat case_match; lia. Qed.

Lemma sane_edf pr : sane pr -> edf_sane pr.
Proof. unfold sane, rate_sane, edf_sane. lia. Qed.

Lemma sane_divides pr : edf_sane pr -> divides_ok pr.
Proof. unfold edf_sane, divides_ok. lia. Qed.

Lemma edf_load_sane pr :
  edf_sane pr -> edf_load pr = p_execution_time pr * 100 / p_deadline pr /\ 0 <= edf_load pr <= 100000.
Proof.
  intros (He & Hd). unfold edf_load. rewrite s32_id by (unfold is_s32; lia).
  rewrite Z.quot_div_nonneg by lia. split; [done|].
  split; [apply Z.div_pos; lia|]. apply Z.div_le_upper_bound; nia.
Qed.

Lemma rm_load_sane pr :
  rate_sane pr -> rm_load pr = p_execution_time pr * p_rate pr * 10 /\ 0 <= rm_load pr <= 1000000000.
Proof.
  intros (He & Hr). assert (0 <= p_execution_time pr * p_rate pr <= 100000000) by nia.
  unfold rm_load. rewrite (s32_id (p_execution_time pr * p_rate pr)) by (unfold is_s32; lia).
  rewrite s32_id by (unfold is_s32; lia). lia.
Qed.

(** The two utilisation counters in their range. *)
Definition loads_ok (p : procs) : Prop := 0 <= utf_edf p < 100 /\ 0 <= utf_rm p <= 1000.

Lemma task_of_Some p pid i :
  find_idx (fun q => p_pid q =? pid) (ptable p) = Some i ->
  exists pr, ptable p !! i = Some pr /\ task_of p pid = Some pr.
Proof.
  intros Hf. destruct (lookup_lt_is_Some_2 (ptable p) i) as [pr Hi]; [by eapply find_idx_lt|].
  exists pr. unfold task_of. rewrite Hf; cbn. done.
Qed.

Lemma policy_step_loads pid policy reqs p :
  loads_ok p -> (forall pr, task_of p pid = Some pr -> sane_for policy pr) ->
  let r := if (policy_step pid policy p).1 then 0 else -22 in
  let p' := (policy_step pid policy p).2 in
  loads_ok p' /\
  utf_edf p' = utf_edf p + granted p 0 [(pid, policy)] [r] /\
  utf_rm p' = utf_rm p + granted p 1 [(pid, policy)] [r] /\
  verdicts p (utf_edf p) (utf_rm p) ((pid, policy) :: reqs) = r :: verdicts p (utf_edf p') (utf_rm p') reqs.
Proof.
  intros Hok Hsane. unfold policy_step. cbn [granted verdicts].
  destruct (find_idx _ _) as [i|] eqn:Hf.
  2:{ assert (task_of p pid = None) as -> by (unfold task_of; by rewrite Hf). cbn [from_option fst snd]. split; [done|].
      split_and!; [by case_match; lia..|done]. }
  destruct (task_of_Some _ _ _ Hf) as (pr & Hi & Ht). rewrite Hi, Ht. destruct (Hsane pr Ht) as [Hse Hsr].
  pose proof (chk_lproc_range (s32 (pid - 2))) as Hchk. destruct Hok as [Hu Hv]. unfold edf_fits, rm_fits, loads_ok.
  destruct (Z.eqb_spec policy 0) as [->|H0]; [|destruct (Z.eqb_spec policy 1) as [->|H1]].
  - destruct (edf_load_sane pr (Hse eq_refl)) as [He Hb]. rewrite <- He.
    rewrite (s32_id (utf_edf p + edf_load pr)) by (unfold is_s32; lia).
    destruct (Z.leb_spec 100 (utf_edf p + edf_load pr)), (Z.ltb_spec (utf_edf p + edf_load pr) 100); try lia;
      cbn -[verdicts]; unfold load_of; cbn -[verdicts]; [split_and!; done || lia|].
    rewrite s32_id by (unfold is_s32; lia). split_and!; try done; lia.
  - destruct (rm_load_sane pr (Hsr eq_refl)) as [He Hb]. rewrite <- He.
    rewrite (s32_id (utf_rm p + rm_load pr)) by (unfold is_s32; lia).
    destruct (Z.leb_spec (utf_rm p + rm_load pr) (chk_lproc (s32 (pid - 2)))); cbn -[verdicts];
      unfold load_of; cbn -[verdicts]; [|split_and!; done || lia].
    rewrite s32_id by (unfold is_s32; lia). split_and!; try done; lia.
  - cbn -[verdicts]. split_and!; try lia. destruct policy as [|[]|]; done.
Qed.

Lemma sane_params pid p :
  loads_ok p -> (forall pr, task_of p pid = Some pr -> edf_sane pr) -> params_ok pid p.
Proof.
  intros [Hu _] Hs. split; [unfold is_s32; lia|]. intros i pr Hf Hi.
  apply sane_divides, Hs. unfold task_of. by rewrite Hf.
Qed.

(** ** Properties *)

(** C3.  Over any sequence of [sched_policy] calls whose named processes have parameters in range, the answers are those of the two
    admission tests applied to the running totals, the two counters are exactly the loads of
    the requests that were granted, EDF admissions never bring the total to 100 percent,
    and RM admissions never bring it over 1000 per mille. *)
Theorem admission_total {S} reqs m co p (s : S) :
  idle m -> has_lock m Lptable -> loads_ok p ->
  (forall pid policy pr, (pid, policy) ∈ reqs -> task_of p pid = Some pr -> sane_for policy pr) ->
  exists rs m' p',
    policies reqs (W m co p s) = Ret rs (W m' co p' s) /\ rs = verdicts p (utf_edf p) (utf_rm p) reqs /\
    length rs = length reqs /\
    utf_edf p' = utf_edf p + granted p 0 reqs rs /\ 0 <= utf_edf p' < 100 /\
    utf_rm p' = utf_rm p + granted p 1 reqs rs /\ 0 <= utf_rm p' <= 1000.
Proof.
  revert m p. induction reqs as [|[pid policy] reqs IH]; intros m p Hm Hlk Hok Hsane.
  { destruct Hok. exists [], m, p. cbn. repeat split; try done; lia. }
  cbn [policies]. assert (Hme : forall pr, task_of p pid = Some pr -> sane_for policy pr) by (intros; apply (Hsane pid); [left|done]).
  pose proof (policy_step_loads pid policy reqs p Hok Hme) as (Hok' & He & Hr & Hv).
  pose proof (policy_step_same pid policy p) as Hsame.
  set (r := if (policy_step pid policy p).1 then 0 else -22) in *.
  set (p1 := (policy_step pid policy p).2) in *.
  destruct (IH (held (sti_machine m) []) p1) as (rs & m' & p' & Hrun & Hrs & Hlen & He' & ? & Hr' & ?).
  - auto with xv6.
  - apply has_lock_held; auto with xv6.
  - done.
  - intros pid' policy' pr Hin Ht. pose proof (same_tasks_task p p1 pid' Hsame) as Ho. rewrite Ht in Ho.
    inversion Ho as [q q' Hq Hpq|]; subst. rewrite <- Hq. by apply (Hsane pid'); [right|].
  - exists (r :: rs), m', p'.
    erewrite bind_Ret by (apply sched_policy_run; [done..|intros ->; apply sane_params; [done|intros pr Ht; by apply (Hme pr Ht)]]).
    fold r p1. erewrite bind_Ret by exact Hrun. split; [done|]. split; [by rewrite Hv, Hsame, Hrs|]. cbn [length granted] in *.
    assert (Hg : forall pol, granted p1 pol reqs rs = granted p pol reqs rs)
      by (intros; by rewrite Hsame).
    rewrite Hg in He', Hr'. repeat split; try done; lia.
Qed.

Definition has_pid (pid : Z) (q : proc) : bool := p_pid q =? pid.

(** C14.  EDF admission.  [sched_policy(pid, 0)] admits the process with execution time C and
    deadline D exactly when the admitted percentage plus C*100/D stays below 100: then it answers 0,
    adds the load and sets the policy; otherwise it answers -22, keeps the counter and turns
    the process into a killed zombie.  Nothing else changes. *)
Theorem edf_admission {S} m co p (s : S) pid i pr :
  idle m -> has_lock m Lptable -> loads_ok p -> sane pr ->
  find_idx (has_pid pid) (ptable p) = Some i -> ptable p !! i = Some pr ->
  let u := p_execution_time pr * 100 / p_deadline pr in
  let w' p' := W (held (sti_machine m) []) co p' s in
  sched_policy pid 0 (W m co p s) =
  if utf_edf p + u <? 100 then
    Ret 0 (w' (p <| utf_edf := utf_edf p + u |>
                 <| ptable := <[i := pr <| p_sched_policy := 0 |>]> (ptable p) |>))
  else
    Ret (-22) (w' (p <| ptable := <[i := pr <| p_killed := 1 |> <| p_state := ZOMBIE |>]> (ptable p) |>)).
Proof.
  intros Hm Hlk Hok Hsane Hf Hi u w'. destruct (task_of_Some p pid i Hf) as (pr' & Hi' & Ht).
  simplify_eq. destruct (edf_load_sane pr (sane_edf pr Hsane)) as [Hu Hr]. fold u in Hu. pose proof Hok as [He _].
  rewrite sched_policy_run; [|done..|].
  2:{ intros _. apply sane_params; [done|]. intros ? ?. simplify_eq. by apply sane_edf. }
  unfold policy_step, has_pid in *. rewrite Hf, Hi. cbn [Z.eqb]. unfold edf_fits, admitted_edf, rejected.
  rewrite Hu, s32_id by (unfold is_s32; lia).
  rewrite !(alter_is_insert _ _ i pr) by done.
  destruct (Z.leb_spec 100 (utf_edf p + u)), (Z.ltb_spec (utf_edf p + u) 100); try lia; done.
Qed.

(** C15.  Rate-monotonic admission.  [sched_policy(pid, 1)] admits the process exactly when the
    admitted per mille plus C*rate*10 is at most the table's bound for pid-2: then it answers 0,
    adds the load, stamps the arrival time and sets the policy; otherwise it answers -22 and
    turns the process into a killed zombie.  Nothing else changes. *)
Theorem rm_admission {S} m co p (s : S) pid i pr :
  idle m -> has_lock m Lptable -> loads_ok p -> rate_sane pr -> 0 < pid < 2147483648 ->
  find_idx (has_pid pid) (ptable p) = Some i -> ptable p !! i = Some pr ->
  let u := p_execution_time pr * p_rate pr * 10 in
  let w' p' := W (held (sti_machine m) []) co p' s in
  sched_policy pid 1 (W m co p s) =
  if utf_rm p + u <=? chk_lproc (pid - 2) then
    Ret 0 (w' (p <| utf_rm := utf_rm p + u |>
                 <| ptable := <[i := pr <| p_arrival_time := s32 (ticks p) |>
                                        <| p_sched_policy := 1 |>]> (ptable p) |>))
  else
    Ret (-22) (w' (p <| ptable := <[i := pr <| p_killed := 1 |> <| p_state := ZOMBIE |>]> (ptable p) |>)).
Proof.
  intros Hm Hlk Hok Hsane Hpid Hf Hi u w'. destruct (task_of_Some p pid i Hf) as (pr' & Hi' & Ht).
  simplify_eq. destruct (rm_load_sane pr Hsane) as [Hu Hr]. fold u in Hu. pose proof Hok as [_ Hv].
  rewrite sched_policy_run by done.
  unfold policy_step, has_pid in *. rewrite Hf, Hi. cbn [Z.eqb]. unfold rm_fits, admitted_rm, rejected.
  rewrite Hu, (s32_id (pid - 2)), s32_id by (unfold is_s32; lia).
  rewrite !(alter_is_insert _ _ i pr) by done.
  by destruct (utf_rm p + u <=? chk_lproc (pid - 2)).
Qed.

(** The table of bounds is the Liu and Layland bound n(2^(1/n) - 1), in per mille
    rounded down, for every n the table lists: b is the largest integer with
    (1 + b/1000n)^n <= 2. *)
Theorem liu_layland_table n :
  1 <= n <= 63 ->
  (1000 * n + chk_lproc n) ^ n <= 2 * (1000 * n) ^ n < (1000 * n + chk_lproc n + 1) ^ n.
Proof.
  intros Hn.
  assert (Hall : forallb (fun k => let n := Z.of_nat k in
    ((1000 * n + chk_lproc n) ^ n <=? 2 * (1000 * n) ^ n) &&
    (2 * (1000 * n) ^ n <? (1000 * n + chk_lproc n + 1) ^ n)) (seq 1 63) = true) by (vm_compute; done).
  rewrite forallb_forall in Hall. specialize (Hall (Z.to_nat n)).
  rewrite in_seq, Z2Nat.id in Hall by lia. specialize (Hall ltac:(lia)).
  apply andb_prop in Hall as [H1%Z.leb_le H2%Z.ltb_lt]. done.
Qed.

(** Past the table the bound stays at 696, above the Liu and Layland bound of
    100 processes. *)
Lemma bound_too_large : 2 * (1000 * 100) ^ 100 < (1000 * 100 + chk_lproc 100) ^ 100.
Proof. vm_compute. done. Qed.

(** The text of the divide error on CPU [c]. *)
Definition divide_text (c : nat) (m : machine) : list Z :=
  str "unexpected trap 0 from cpu " ++ rev (printint_buf (Z.of_nat c) 10 true) ++ str " eip " ++
  rev (printint_buf (s32 (im_idiv (m_image m))) 16 false) ++ str " (cr2=0x" ++ rev (printint_buf (s32 (cr2 m)) 16 false) ++ str (")" ++ nl).

Lemma cli_held m lk H : is_Some (my_cpu m) -> held m (lk :: H) <| fl_if := false |> = held m (lk :: H).
Proof.
  intros [i Hme]. destruct (my_cpu_lookup _ _ Hme) as [c Hc]. unfold held. by rewrite (pushed_eq m (lk :: H) _ i c).
Qed.

Lemma divide_error_run {S A} m H lk co p (s : S) c :
  idle m -> my_cpu m = Some c -> has_lock m Lcons -> Lcons ∉ lk :: H -> con_ok co ->
  exists co', @divide_error S A (W (held m (lk :: H)) co p s) = Panic "trap" (W (held m (lk :: H)) co' p s) /\
    con_add co co' (divide_text c m).
Proof.
  intros Hm Hme Hlk Hni Hok. unfold divide_error.
  erewrite bind_Ret by (unfold cli, bind, get_m, put_m; cbn -[held]; rewrite cli_held by eauto; reflexivity).
  erewrite bind_Ret by (apply myproc_held; eauto).
  erewrite bind_Ret by (unfold cpuid; erewrite bind_Ret by (by apply (mycpu_pushed m (lk :: H) (length H))); reflexivity).
  erewrite bind_Ret by reflexivity. cbn [w_m]. change (pushed m (lk :: H) (1 + length H)) with (held m (lk :: H)).
  assert (m_image (held m (lk :: H)) = m_image m /\ cr2 (held m (lk :: H)) = cr2 m) as [-> ->].
  { destruct (my_cpu_lookup _ _ Hme) as [k Hk]. unfold held. by rewrite (pushed_eq m (lk :: H) _ c k). }
  edestruct (cprintf_prints m (lk :: H) co p s kernel_fmt) as (co' & Hrun & Hadd); [done..| | |].
  3:{ exists co'. erewrite bind_Ret by exact Hrun. split; [reflexivity|]. exact Hadd. }
  - by repeat constructor.
  - done.
Qed.

(** C40.  [sched_policy(pid, 0)] on a process whose deadline is still 0, the value [allocproc]
    gives it, divides by zero with ptable.lock held: the kernel takes the divide trap, reports it on the console and panics, with
    ptable.lock still held and the table unchanged. *)
Theorem edf_deadline_zero_panics {S} m co p (s : S) pid i pr c :
  idle m -> my_cpu m = Some c -> has_lock m Lptable -> has_lock m Lcons -> con_ok co ->
  find_idx (has_pid pid) (ptable p) = Some i -> ptable p !! i = Some pr -> p_deadline pr = 0 ->
  exists co', sched_policy pid 0 (W m co p s) = Panic "trap" (W (held (sti_machine m) [Lptable]) co' p s) /\
    con_add co co' (divide_text c m).
Proof.
  intros Hm Hme Hlk Hcons Hok Hf Hi Hd.
  destruct (divide_error_run (A := Z) (sti_machine m) [] Lptable co p s c) as (co' & Hrun & Hadd); [auto with xv6..|set_solver|done|].
  exists co'. split; [|exact Hadd]. unfold sched_policy. erewrite bind_Ret by apply sti_run.
  erewrite bind_Ret by (apply acquire_idle; auto with xv6).
  erewrite bind_Panic; [done|]. unfold policy_check.
  erewrite bind_Ret by reflexivity. cbn [w_p]. unfold has_pid in Hf. rewrite Hf.
  erewrite bind_Panic; [done|]. cbn [Z.eqb]. unfold admit_edf.
  erewrite bind_Ret by by apply proc_at_run. rewrite Hd. erewrite bind_Panic; [done|]. exact Hrun.
Qed.

Lemma with_pid_run {S} m co p (s : S) pid f :
  idle m -> has_lock m Lptable ->
  with_pid pid f (W m co p s) =
  match find_idx (has_pid pid) (ptable p) with
  | Some i => Ret 0 (W (held (sti_machine m) []) co (p <| ptable := alter f i (ptable p) |>) s)
  | None => Ret (-22) (W (held (sti_machine m) []) co p s)
  end.
Proof.
  intros Hm Hlk. unfold has_pid. destruct (find_idx _ _) as [i|] eqn:Hf.
  all: (eapply locked_run; [done..| |]); [erewrite bind_Ret by reflexivity; cbn [w_p]; rewrite Hf|]; done.
Qed.

(** [exec_time], [deadline] and [rate] each set their field (and, for [rate], the
    priority) of the first process with that pid and answer 0; with no such process they
    answer -22 and change nothing. *)
Theorem parameter_calls {S} m co p (s : S) pid v :
  idle m -> has_lock m Lptable ->
  let w' p' := W (held (sti_machine m) []) co p' s in
  let put f := match find_idx (has_pid pid) (ptable p) with
    | Some i => Ret 0 (w' (p <| ptable := alter f i (ptable p) |>))
    | None => Ret (-22) (w' p)
    end in
  exec_time pid v (W m co p s) = put (fun q => q <| p_execution_time := v |>) /\
  deadline pid v (W m co p s) = put (fun q => q <| p_deadline := v |>) /\
  rate pid v (W m co p s) = put (fun q => q <| p_rate := v |> <| p_priority := priority_of_rate v |>).
Proof. intros Hm Hlk w' put. split; [|split]; by apply with_pid_run. Qed.

(** The priority given to a rate between 1 and 30 is
    max(1, ceil(3(30 - rate)/29)): the least w of at least 1 with 29 w >= 3 (30 - rate); it lies
    between 1 and 3, and a higher rate never gets a numerically larger priority. *)
Theorem priority_of_rate_spec r :
  1 <= r <= 30 ->
  (forall w, priority_of_rate r <= w <-> 1 <= w /\ 3 * (30 - r) <= 29 * w) /\
  1 <= priority_of_rate r <= 3 /\
  (forall r', r <= r' <= 30 -> priority_of_rate r' <= priority_of_rate r).
Proof.
  assert (Heq : forall r, 1 <= r <= 30 -> priority_of_rate r = Z.max 1 ((118 - 3 * r) / 29)).
  { intros x Hx. unfold priority_of_rate. rewrite (s32_id (3 * x)) by (unfold is_s32; lia).
    rewrite (s32_id (90 - 3 * x)), s32_id by (unfold is_s32; lia).
    rewrite Z.quot_div_nonneg by lia. replace (90 - 3 * x + 28) with (118 - 3 * x) by lia.
    destruct (Z.ltb_spec ((118 - 3 * x) / 29) 1); lia. }
  intros Hr. rewrite (Heq r Hr). pose proof (Z.div_mod (118 - 3 * r) 29 ltac:(lia)).
  pose proof (Z.mod_pos_bound (118 - 3 * r) 29 ltac:(lia)). split; [intros w; split; lia|].
  split; [lia|]. intros r' Hr'. rewrite Heq by lia.
  assert ((118 - 3 * r') / 29 <= (118 - 3 * r) / 29) by (apply Z.div_le_mono; lia). lia.
Qed.

(** The line [printinfo] prints for a process. *)
Definition info_text (st : string) (p : proc) : list Z :=
  str ("Process State - " ++ st) ++ str ", Process Name - " ++ cstr (p_name p) ++
  str ", Process Id - " ++ rev (printint_buf (p_pid p) 10 true) ++
  str ", Policy - " ++ rev (printint_buf (p_sched_policy p) 10 true) ++
  str ", Exec time - " ++ rev (printint_buf (p_execution_time p) 10 true) ++
  str ", Deadline - " ++ rev (printint_buf (p_deadline p) 10 true) ++ str nl.

Definition info_line (p : proc) : list Z :=
  match p_state p with
  | SLEEPING => info_text "SLEEPING" p
  | RUNNING => info_text "RUNNING" p
  | RUNNABLE => info_text "RUNNABLE" p
  | _ => []
  end.

Definition names_ok (tab : list proc) : Prop := Forall (fun p => Forall is_u8 (p_name p)) tab.

Lemma cstr_u8 bs : Forall is_u8 bs -> Forall is_u8 (cstr bs).
Proof. induction 1; cbn; [done|]. case_match; auto. Qed.

#[local] Opaque printint_buf cstr rev.

(** A prefix without a percent sign is printed as it is. *)
Lemma render_literal (pre : list Z) fmt args :
  Forall (fun c => c ≠ chr "%") pre -> render (pre ++ fmt) args = app pre <$> render fmt args.
Proof.
  induction 1 as [|c pre Hc _ IH]; cbn [app render]; [by destruct (render fmt args)|].
  rewrite (proj2 (Z.eqb_neq _ _) Hc), IH; cbn [negb]. by destruct (render fmt args).
Qed.

Lemma render_info st q :
  Forall (fun c => c ≠ chr "%") (str st) ->
  render (str (info_fmt st)) (info_args q) = Some (info_text st q).
Proof.
  intros Hst. unfold info_fmt, info_text. rewrite !str_app, <- !app_assoc.
  rewrite render_literal by (repeat constructor; done).
  rewrite render_literal by done. done.
Qed.

Lemma wp_info {S} m H co p (s : S) q (Q : unit -> world S -> Prop) :
  idle m -> has_lock m Lcons -> Lcons ∉ H -> con_ok co -> Forall is_u8 (p_name q) ->
  (forall co', con_add co co' (info_line q) -> Q tt (W (held m H) co' p s)) ->
  wp (if bool_decide (p_state q = SLEEPING) then printinfo_line "SLEEPING" q
      else if bool_decide (p_state q = RUNNING) then printinfo_line "RUNNING" q
      else if bool_decide (p_state q = RUNNABLE) then printinfo_line "RUNNABLE" q
      else ret tt) Q (W (held m H) co p s).
Proof.
  intros Hm Hlk Hni Hok Hname HQ. unfold printinfo_line, info_line in *.
  destruct (p_state q); cbn [bool_decide decide procstate_eq_dec procstate_rec procstate_rect sumbool_rec sumbool_rect decide_rel].
  all: try (apply wp_ret, HQ, con_add_nil, Hok).
  all: apply wp_cprintf; [done..| |];
    [split; [repeat constructor; by apply cstr_u8|]|intros co' bs]; rewrite render_info by (repeat constructor; done);
    [done|intros [= <-] Hadd; by apply HQ].
Qed.

(** [printinfo] prints, under ptable.lock, one line for every sleeping, running or
    runnable process in table order, and nothing else; it changes neither the table nor the rest of
    the kernel state, and returns 22. *)
Theorem printinfo_spec {S} m co p (s : S) :
  idle m -> has_lock m Lptable -> has_lock m Lcons -> con_ok co -> names_ok (ptable p) ->
  exists co', printinfo (W m co p s) = Ret 22 (W (held (sti_machine m) []) co' p s) /\
    con_add co co' (concat (info_line <$> ptable p)).
Proof.
  intros Hm Hlk Hlc Hok Hnames.
  set (I := fun (l : list proc) (w : world S) => exists pre co', ptable p = pre ++ l /\
    con_add co co' (concat (info_line <$> pre)) /\ w = W (held (sti_machine m) [Lptable]) co' p s).
  assert (Hwp : wp printinfo (fun r w => r = 22 /\ exists co',
    w = W (held (sti_machine m) []) co' p s /\ con_add co co' (concat (info_line <$> ptable p)))
    (W m co p s)).
  { unfold printinfo. kstep. eapply wp_eq; [apply sti_run|]. cbn beta.
    pose proof (idle_sti m Hm). pose proof (has_lock_sti m Lptable Hlk). ksteps.
    eapply (wp_for_list I).
    - exists [], co. split; [done|]. split; [by apply con_add_nil|done].
    - intros q l w (pre & co' & Hp & Hadd & ->).
      apply wp_info; [auto with xv6..|set_solver|apply Hadd| |].
      { unfold names_ok in Hnames. rewrite Hp in Hnames.
        by apply Forall_app in Hnames as [_ [? _]%Forall_cons]. }
      intros co'' Hadd'. exists (pre ++ [q]), co''. split; [by rewrite <- app_assoc|]. split; [|done].
      rewrite fmap_app, concat_app; cbn. rewrite app_nil_r. by eapply con_add_trans.
    - intros w (pre & co' & Hp & Hadd & ->). rewrite app_nil_r in Hp. subst pre. ksteps. eauto. }
  apply wp_elim in Hwp as (r & w & Hrun & -> & co' & -> & Hadd). eauto.
Qed.

(** ** The properties at a concrete table *)

Definition ex_task (pid c d r : Z) : proc :=
  ex_proc pid (-1) d 1 <| p_execution_time := c |> <| p_rate := r |>.

(** Four processes with pids 3 to 6; the last two are small. *)
Definition ex_tasks : procs :=
  mkProcs ([ex_task 3 1 2 10; ex_task 4 1 3 20; ex_task 5 1 101 5; ex_task 6 40 50 30]
           ++ replicate 60 proc_zero) None 0 0 7 0 1000 0x803FF000.

#[local] Abbreviation ex_m := (one_cpu [Lptable; Lcons] None).

Lemma ex_loads : loads_ok ex_tasks.
Proof. unfold loads_ok, ex_tasks; cbn. lia. Qed.

(** An ordinary table: init and the shell, which have no real-time parameters, asleep, the four processes, and free slots. *)
Definition ex_shell (pid : Z) : proc := ex_proc pid (-1) 0 0 <| p_state := SLEEPING |> <| p_chan := Some (Cproc 0) |>.
Definition ex_table : procs :=
  mkProcs ([ex_shell 1; ex_shell 2; ex_task 3 1 2 10; ex_task 4 1 3 20; ex_task 5 1 101 5; ex_task 6 40 50 30]
           ++ replicate 58 proc_zero) (Some 0%nat) 0 0 7 0 1000 0x803FF000.
Definition ex_reqs : list (Z * Z) := [(3, 0); (6, 0); (4, 0); (5, 1); (2, 2)].

Lemma admission_total_witness :
  exists rs m' p',
    policies ex_reqs (W ex_m ex_console ex_table tt) = Ret rs (W m' ex_console p' tt) /\ rs = [0; -22; 0; 0; 0] /\
    utf_edf p' = 83 /\ utf_rm p' = 50.
Proof.
  destruct (admission_total ex_reqs ex_m ex_console ex_table tt) as (rs & m' & p' & Hrun & -> & _ & He & _ & Hr & _).
  - auto with xv6.
  - auto with xv6.
  - unfold loads_ok, ex_table; cbn. lia.
  - intros pid policy pr Hin Ht. unfold ex_reqs in Hin. apply list_elem_of_In in Hin.
    destruct Hin as [Hin|[Hin|[Hin|[Hin|[Hin|[]]]]]]; injection Hin as <- <-; vm_compute in Ht; injection Ht as <-;
      unfold sane_for, edf_sane, rate_sane; cbn; lia.
  - eexists _, m', p'. split; [exact Hrun|]. split; [vm_compute; reflexivity|]. rewrite He, Hr. split; vm_compute; reflexivity.
Defined.

Lemma edf_admission_witness :
  sched_policy 6 0 (W ex_m ex_console ex_tasks tt) =
  Ret 0 (W (held (sti_machine ex_m) []) ex_console
    (ex_tasks <| utf_edf := 80 |>
       <| ptable := <[3%nat := ex_task 6 40 50 30 <| p_sched_policy := 0 |>]> (ptable ex_tasks) |>) tt).
Proof.
  apply (edf_admission ex_m ex_console ex_tasks tt 6 3 (ex_task 6 40 50 30));
    [auto with xv6|auto with xv6|exact ex_loads|unfold sane, rate_sane; cbn; lia|reflexivity..].
Defined.

Lemma rm_admission_witness :
  sched_policy 6 1 (W ex_m ex_console ex_tasks tt) =
  Ret (-22) (W (held (sti_machine ex_m) []) ex_console
    (ex_tasks <| ptable := <[3%nat := ex_task 6 40 50 30 <| p_killed := 1 |> <| p_state := ZOMBIE |>]>
                             (ptable ex_tasks) |>) tt).
Proof.
  apply (rm_admission ex_m ex_console ex_tasks tt 6 3 (ex_task 6 40 50 30));
    [auto with xv6|auto with xv6|exact ex_loads|unfold sane, rate_sane; cbn; lia|lia|reflexivity..].
Defined.

Lemma liu_layland_table_witness :
  (1000 * 4 + chk_lproc 4) ^ 4 <= 2 * (1000 * 4) ^ 4 < (1000 * 4 + chk_lproc 4 + 1) ^ 4.
Proof. apply liu_layland_table. lia. Defined.

Lemma edf_deadline_zero_panics_witness :
  exists co', sched_policy 2 0 (W ex_m ex_console ex_table tt) =
    Panic "trap" (W (held (sti_machine ex_m) [Lptable]) co' ex_table tt) /\
  con_add ex_console co' (str ("unexpected trap 0 from cpu 0 eip 801042c5 (cr2=0x0)" ++ nl)).
Proof.
  apply (edf_deadline_zero_panics ex_m ex_console ex_table tt 2 1 (ex_shell 2) 0);
    [auto with xv6|reflexivity|auto with xv6|auto with xv6|exact ex_console_ok|reflexivity..].
Defined.

Lemma parameter_calls_witness :
  deadline 5 7 (W ex_m ex_console ex_tasks tt) =
  Ret 0 (W (held (sti_machine ex_m) []) ex_console
    (ex_tasks <| ptable := alter (fun q => q <| p_deadline := 7 |>) 2%nat (ptable ex_tasks) |>) tt).
Proof. apply (parameter_calls ex_m ex_console ex_tasks tt 5 7); auto with xv6. Defined.

Lemma priority_of_rate_spec_witness : 1 <= priority_of_rate 10 <= 3.
Proof. apply (priority_of_rate_spec 10). lia. Defined.

Lemma printinfo_spec_witness : exists co',
  printinfo (W ex_m ex_console ex_tasks tt) = Ret 22 (W (held (sti_machine ex_m) []) co' ex_tasks tt) /\
  con_add ex_console co' (concat (info_line <$> ptable ex_tasks)).
Proof.
  apply printinfo_spec; [auto with xv6..|exact ex_console_ok|].
  repeat constructor; unfold is_u8; cbn; lia.
Defined.

(** Each load is rounded down, so tasks that need more than the whole CPU are admitted:
    51/101 + 50/101 + 1/101 is over 1, and the three loads are 50 + 49 + 0. *)
Lemma edf_overload :
  exists w, policies [(3, 0); (4, 0); (5, 0)]
    (W ex_m ex_console (ex_tasks <| ptable := [ex_task 3 51 101 0; ex_task 4 50 101 0; ex_task 5 1 101 0] |>) tt)
  = Ret [0; 0; 0] w /\ 101 < 51 + 50 + 1.
Proof. eexists. split; [vm_compute; reflexivity|lia]. Qed.
