(* ===== verification/Kdata.v ===== *)
(** * The rest of the kernel's data

    The structures of buf.h, sleeplock.h, fs.h, file.h, stat.h, pipe.c, log.c,
    kalloc.c and console.c's input buffer, and the record [kst] of all the
    kernel's global variables that are not in [Kstate].  Every component above
    the process table runs in the monad over [kst]. *)

From S2P Require Import Prelude Kstate.
From stdpp Require Import gmap strings list fin_maps.
Open Scope Z_scope.

(** ** sleeplock.h *)

(** The spin lock inside is the lock [Lsleep] of the same identity. *)
Record sleeplock := mkSl {
  sl_locked : Z;
  sl_name : string;
  sl_pid : Z;
}.
#[export] Instance eta_sleeplock : Eta sleeplock := fun l => mkSl (sl_locked l) (sl_name l) (sl_pid l).
Definition sl_zero : sleeplock := mkSl 0 EmptyString 0.

(** ** buf.h and bio.c *)

Definition BSIZE : nat := 512.
Definition B_VALID : Z := 2.
Definition B_DIRTY : Z := 4.

(** A pointer into the LRU list is the index of a buffer, or [None] for
    [&bcache.head]; a pointer in the disk queue is an index or null. *)
Record buf := mkBuf {
  b_flags : Z;
  b_dev : Z;
  b_blockno : Z;
  b_lock : sleeplock;
  b_refcnt : Z;
  b_prev : option nat;
  b_next : option nat;
  b_qnext : option nat;
  b_data : list Z;
}.
#[export] Instance eta_buf : Eta buf := fun b =>
  mkBuf (b_flags b) (b_dev b) (b_blockno b) (b_lock b) (b_refcnt b) (b_prev b) (b_next b)
    (b_qnext b) (b_data b).
Definition buf_zero : buf := mkBuf 0 0 0 sl_zero 0 None None None (replicate BSIZE 0).

(** ** log.c *)

Record logheader := mkLh { lh_n : Z; lh_block : list Z }.
#[export] Instance eta_logheader : Eta logheader := fun l => mkLh (lh_n l) (lh_block l).

Record log := mkLog {
  l_start : Z;
  l_size : Z;
  l_outstanding : Z;
  l_committing : Z;
  l_dev : Z;
  l_lh : logheader;
}.
#[export] Instance eta_log : Eta log := fun l =>
  mkLog (l_start l) (l_size l) (l_outstanding l) (l_committing l) (l_dev l) (l_lh l).

(** ** fs.h and stat.h *)

Definition ROOTINO : Z := 1.
Definition NDIRECT : nat := 12.
Definition NINDIRECT : nat := 128.
Definition MAXFILE : Z := 140.
Definition IPB : Z := 8.
Definition BPB : Z := 4096.
Definition DIRSIZ : nat := 14.
Definition T_DIR : Z := 1.
Definition T_FILE : Z := 2.
Definition T_DEV : Z := 3.

Record superblock := mkSb {
  sb_size : Z;
  sb_nblocks : Z;
  sb_ninodes : Z;
  sb_nlog : Z;
  sb_logstart : Z;
  sb_inodestart : Z;
  sb_bmapstart : Z;
}.
#[export] Instance eta_superblock : Eta superblock := fun s =>
  mkSb (sb_size s) (sb_nblocks s) (sb_ninodes s) (sb_nlog s) (sb_logstart s) (sb_inodestart s)
    (sb_bmapstart s).

Definition IBLOCK (i : Z) (sb : superblock) : Z := i / IPB + sb_inodestart sb.
Definition BBLOCK (b : Z) (sb : superblock) : Z := b / BPB + sb_bmapstart sb.

(** A directory entry: [inum] and the [DIRSIZ] bytes of [name]. *)
Record dirent := mkDe { de_inum : Z; de_name : list Z }.
#[export] Instance eta_dirent : Eta dirent := fun d => mkDe (de_inum d) (de_name d).

Record stat := mkStat {
  st_type : Z;
  st_dev : Z;
  st_ino : Z;
  st_nlink : Z;
  st_size : Z;
}.

(** ** file.h *)

Record inode := mkInode {
  i_dev : Z;
  i_inum : Z;
  i_ref : Z;
  i_lock : sleeplock;
  i_valid : Z;
  i_type : Z;
  i_major : Z;
  i_minor : Z;
  i_nlink : Z;
  i_size : Z;
  i_addrs : list Z;
}.
#[export] Instance eta_inode : Eta inode := fun i =>
  mkInode (i_dev i) (i_inum i) (i_ref i) (i_lock i) (i_valid i) (i_type i) (i_major i) (i_minor i)
    (i_nlink i) (i_size i) (i_addrs i).
Definition inode_zero : inode :=
  mkInode 0 0 0 sl_zero 0 0 0 0 0 0 (replicate (NDIRECT + 1) 0).

Inductive ftype := FD_NONE | FD_PIPE | FD_INODE.
#[export] Instance ftype_eq_dec : EqDecision ftype.
Proof. solve_decision. Defined.

Record file := mkFile {
  f_type : ftype;
  f_ref : Z;
  f_readable : Z;
  f_writable : Z;
  f_pipe : Z;            (* the address of a struct pipe, or 0 *)
  f_ip : option nat;     (* an index into icache.inode[] *)
  f_off : Z;
}.
#[export] Instance eta_file : Eta file := fun f =>
  mkFile (f_type f) (f_ref f) (f_readable f) (f_writable f) (f_pipe f) (f_ip f) (f_off f).
Definition file_zero : file := mkFile FD_NONE 0 0 0 0 None 0.

(** The functions a device driver registers in [devsw]. *)
Inductive devfun := ConsoleDev.
Definition CONSOLE : Z := 1.

(** ** pipe.c *)

Definition PIPESIZE : nat := 512.

Record pipe := mkPipe {
  pi_data : list Z;
  pi_nread : Z;
  pi_nwrite : Z;
  pi_readopen : Z;
  pi_writeopen : Z;
}.
#[export] Instance eta_pipe : Eta pipe := fun p =>
  mkPipe (pi_data p) (pi_nread p) (pi_nwrite p) (pi_readopen p) (pi_writeopen p).

(** ** console.c: the input buffer *)

Definition INPUT_BUF : nat := 128.

Record cinput := mkInput {
  in_buf : list Z;
  in_r : Z;
  in_w : Z;
  in_e : Z;
}.
#[export] Instance eta_cinput : Eta cinput := fun i => mkInput (in_buf i) (in_r i) (in_w i) (in_e i).

(** ** Device registers *)

(** What the drivers do to the hardware: a port is written, a port is read and the hardware answers [v], a block of
    bytes goes to or comes from a port ([outsl], [insl]), a register in memory is written or read, and the processor
    gets the address of a table of descriptors ([lgdt], [lidt]), whose words are given. *)
Inductive hwev :=
| PortOut (port v : Z)
| PortIn (port v : Z)
| PortOuts (port : Z) (d : list Z)
| PortIns (port : Z) (d : list Z)
| MemW (a v : Z)
| MemR (a v : Z)
| LoadGdt (words : list Z)
| LoadIdt (words : list Z).

(** The accesses so far, oldest first, and the globals [lapic] and [ioapicid]. *)
Record hwst := mkHw { hw_trace : list hwev; hw_lapic : Z; hw_ioapicid : Z }.
#[export] Instance eta_hwst : Eta hwst := fun h => mkHw (hw_trace h) (hw_lapic h) (hw_ioapicid h).

(** ** All the global variables *)

Record kst := mkKst {
  (* kalloc.c, and the bytes of the physical pages it hands out *)
  k_mem : gmap Z (list Z);
  k_freelist : Z;
  k_use_lock : bool;
  (* bio.c *)
  k_bufs : list buf;
  k_head_prev : option nat;
  k_head_next : option nat;
  (* the disk, its driver's queue, and the blocks written so far, oldest first *)
  k_disk : list (list Z);
  k_written : list (Z * list Z);
  k_idequeue : option nat;
  k_havedisk1 : bool;
  (* log.c, fs.c *)
  k_log : log;
  k_sb : superblock;
  k_inodes : list inode;
  (* file.c, pipe.c, console.c *)
  k_files : list file;
  k_pipes : gmap Z pipe;
  k_devsw : list (option devfun);
  k_input : cinput;
  k_shift : Z;           (* the static variable of kbdgetc *)
  (* lapic.c, mp.c, and the device registers *)
  k_hw : hwst;
}.
#[export] Instance eta_kst : Eta kst := fun k =>
  mkKst (k_mem k) (k_freelist k) (k_use_lock k) (k_bufs k) (k_head_prev k) (k_head_next k)
    (k_disk k) (k_written k) (k_idequeue k) (k_havedisk1 k) (k_log k) (k_sb k) (k_inodes k)
    (k_files k) (k_pipes k) (k_devsw k) (k_input k) (k_shift k) (k_hw k).

Abbreviation MK := (M kst).

(** ** Reading and writing one element of a table *)

Definition buf_at (i : nat) : MK buf := let! k := get_s in deref (k_bufs k !! i).
Definition set_buf (i : nat) (f : buf -> buf) : MK unit :=
  upd_s (fun k => k <| k_bufs := alter f i (k_bufs k) |>).
Definition inode_at (i : nat) : MK inode := let! k := get_s in deref (k_inodes k !! i).
Definition set_inode (i : nat) (f : inode -> inode) : MK unit :=
  upd_s (fun k => k <| k_inodes := alter f i (k_inodes k) |>).
Definition file_at (i : nat) : MK file := let! k := get_s in deref (k_files k !! i).
Definition set_file (i : nat) (f : file -> file) : MK unit :=
  upd_s (fun k => k <| k_files := alter f i (k_files k) |>).
Definition get_log : MK log := let! k := get_s in ret (k_log k).
Definition upd_log (f : log -> log) : MK unit := upd_s (fun k => k <| k_log := f (k_log k) |>).

(** The sleep lock of a buffer or an inode. *)
Definition sl_of (k : kst) (id : slid) : option sleeplock :=
  match id with
  | SLbuf i => b_lock <$> k_bufs k !! i
  | SLinode i => i_lock <$> k_inodes k !! i
  end.
Definition sl_upd (id : slid) (f : sleeplock -> sleeplock) (k : kst) : kst :=
  match id with
  | SLbuf i => k <| k_bufs := alter (fun b => b <| b_lock := f (b_lock b) |>) i (k_bufs k) |>
  | SLinode i => k <| k_inodes := alter (fun n => n <| i_lock := f (i_lock n) |>) i (k_inodes k) |>
  end.
Definition sl_at (id : slid) : MK sleeplock := let! k := get_s in deref (sl_of k id).
Definition set_sl (id : slid) (f : sleeplock -> sleeplock) : MK unit := upd_s (sl_upd id f).

(** A kernel with empty tables, for the examples. *)
Definition kst0 : kst :=
  mkKst ∅ 0 true (replicate NBUF buf_zero) None None [] [] None true
    (mkLog 0 0 0 0 0 (mkLh 0 (replicate (Z.to_nat LOGSIZE) 0))) (mkSb 0 0 0 0 0 0 0)
    (replicate NINODE inode_zero) (replicate NFILE file_zero) ∅ (replicate (Z.to_nat NDEV) None)
    (mkInput (replicate INPUT_BUF 0) 0 0 0) 0 (mkHw [] 0 0).
