(* ===== verification/Sleeplock.v ===== *)
(** * Sleep locks (sleeplock.c)

    Locks that put the caller to sleep while they are taken.  The rules at the
    end are what the file system uses; they are about a lock that is free. *)

From S2P Require Import Prelude Kstate Spinlock Cprintf Proc Kdata.
From stdpp Require Import gmap strings list fin_maps.
Open Scope Z_scope.

(** How often a loop around [sleep] goes to sleep again before the model
    gives up with [Hang]; every statement holds for every bound. *)
Class Fuel := fuel : nat.

Section sleeplock_c.
Context `{Fu : Fuel}.

(** [while(c) body;] where [body] sleeps. *)
Definition while_sleep (c : MK bool) (body : MK unit) : MK unit :=
  loop (Datatypes.S fuel) (fun _ =>
    let! b := c in
    if b then body ;;; ret (inl tt) else ret (inr tt)) tt.

Definition initsleeplock (id : slid) (name : string) : MK unit :=
  initlock (Lsleep id) "sleep lock" ;;;
  set_sl id (fun _ => mkSl 0 name 0).

(** [myproc()->pid]. *)
Definition mypid : MK Z :=
  let! me := myproc in
  let! i := deref me in
  let! p := proc_at i in
  ret (p_pid p).

Definition acquiresleep (id : slid) : MK unit :=
  acquire (Lsleep id) ;;;
  while_sleep (let! l := sl_at id in ret (negb (sl_locked l =? 0)))
    (sleep (Csleep id) (Lsleep id)) ;;;
  set_sl id (fun l => l <| sl_locked := 1 |>) ;;;
  let! pid := mypid in
  set_sl id (fun l => l <| sl_pid := pid |>) ;;;
  release (Lsleep id).

Definition releasesleep (id : slid) : MK unit :=
  acquire (Lsleep id) ;;;
  set_sl id (fun l => l <| sl_locked := 0 |>) ;;;
  set_sl id (fun l => l <| sl_pid := 0 |>) ;;;
  wakeup (Csleep id) ;;;
  release (Lsleep id).

Definition holdingsleep (id : slid) : MK bool :=
  acquire (Lsleep id) ;;;
  let! l := sl_at id in
  let! r := (if sl_locked l =? 0 then ret false
             else let! pid := mypid in ret (sl_pid l =? pid)) in
  release (Lsleep id) ;;;
  ret r.

End sleeplock_c.

(** ** The thread that runs *)

(** The locks the file system uses have been initialised. *)
Definition locks_ready (m : machine) : Prop :=
  Forall (has_lock m) [Lptable; Ltickslock; Lkmem; Lcons; Lide; Lbcache; Llog; Licache; Lftable] /\
  (forall i, (i < NBUF)%nat -> has_lock m (Lsleep (SLbuf i))) /\
  (forall i, (i < NINODE)%nat -> has_lock m (Lsleep (SLinode i))).

(** CPU [m] is between critical sections and runs process [me], whose slot holds a
    process with id [pid]. *)
Record running (m : machine) (p : procs) (me : nat) (pid : Z) : Prop := {
  run_idle : idle m;
  run_locks : locks_ready m;
  run_cur : cur m = Some me;
  run_proc : exists pr, ptable p !! me = Some pr /\ p_pid pr = pid;
}.

Lemma ready_lock m lk :
  locks_ready m -> lk ∈ [Lptable; Ltickslock; Lkmem; Lcons; Lide; Lbcache; Llog; Licache; Lftable] ->
  has_lock m lk.
Proof. intros [Hall _]. by rewrite Forall_forall in Hall; apply Hall. Qed.

Lemma buf_lock_ready m i : locks_ready m -> (i < NBUF)%nat -> has_lock m (Lsleep (SLbuf i)).
Proof. intros (_ & Hb & _). apply Hb. Qed.

Lemma inode_lock_ready m i : locks_ready m -> (i < NINODE)%nat -> has_lock m (Lsleep (SLinode i)).
Proof. intros (_ & _ & Hi). apply Hi. Qed.

Lemma running_wake m p me pid ch :
  running m p me pid -> running m (p <| ptable := wake ch <$> ptable p |>) me pid.
Proof.
  intros [Hm Hl Hc (pr & Hp & Hpid)]. split; [done..|]. exists (wake ch pr).
  cbn. rewrite list_lookup_fmap, Hp. by rewrite wake_pid.
Qed.

#[export] Hint Resolve run_idle run_locks running_wake : xv6.
#[export] Hint Extern 1 (has_lock _ (Lsleep (SLbuf _))) =>
  solve [apply (proj1 (proj2 (run_locks _ _ _ _ ltac:(eassumption)))); lia] : xv6.
#[export] Hint Extern 1 (has_lock _ (Lsleep (SLinode _))) =>
  solve [apply (proj2 (proj2 (run_locks _ _ _ _ ltac:(eassumption)))); lia] : xv6.
#[export] Hint Extern 2 (has_lock _ _) =>
  solve [eapply ready_lock; [eapply run_locks; eassumption|set_solver]] : xv6.

(** ** Sleep locks as values *)

Lemma sl_of_upd id f k l : sl_of k id = Some l -> sl_of (sl_upd id f k) id = Some (f l).
Proof.
  destruct id; cbn; rewrite fmap_Some; intros (x & Hx & ->); by rewrite list_lookup_alter_eq, Hx.
Qed.

Lemma sl_upd_upd id f g k : sl_upd id f (sl_upd id g k) = sl_upd id (fun l => f (g l)) k.
Proof.
  destruct id; unfold sl_upd, set_field; cbn -[alter]; rewrite alter_same; reflexivity.
Qed.

Definition sl_take (pid : Z) (l : sleeplock) : sleeplock := l <| sl_locked := 1 |> <| sl_pid := pid |>.
Definition sl_drop (l : sleeplock) : sleeplock := l <| sl_locked := 0 |> <| sl_pid := 0 |>.

Section rules.
Context `{Fu : Fuel} (m : machine) (co : console) (me : nat) (pid : Z) (id : slid).
Context (Hlk : has_lock m (Lsleep id)).

Lemma wp_mypid H p k (Q : Z -> world kst -> Prop) :
  running m p me pid -> Q pid (W (held m H) co p k) -> wp mypid Q (W (held m H) co p k).
Proof.
  intros [Hm _ Hc (pr & Hp & Hpid)] HQ. unfold mypid. ksteps.
  unfold proc_at. ksteps. by rewrite Hpid.
Qed.

Lemma wp_acquiresleep H p k l (Q : unit -> world kst -> Prop) :
  running m p me pid -> Lsleep id ∉ H -> sl_of k id = Some l -> sl_locked l = 0 ->
  Q tt (W (held m H) co p (sl_upd id (sl_take pid) k)) ->
  wp (acquiresleep id) Q (W (held m H) co p k).
Proof.
  intros Hrun Hni Hl H0 HQ. pose proof (run_idle _ _ _ _ Hrun). unfold acquiresleep. kstep.
  apply wp_acquire; [done..|]. kstep.
  unfold while_sleep. cbn [loop]. ksteps. unfold sl_at. ksteps. rewrite H0. cbn [Z.eqb negb]. ksteps.
  unfold set_sl. ksteps. apply wp_mypid; [done|]. ksteps. by rewrite sl_upd_upd.
Qed.

Lemma wp_releasesleep H p k (Q : unit -> world kst -> Prop) :
  running m p me pid -> Lsleep id ∉ H -> Lptable ∉ H ->
  Q tt (W (held m H) co (p <| ptable := wake (Some (Csleep id)) <$> ptable p |>)
          (sl_upd id sl_drop k)) ->
  wp (releasesleep id) Q (W (held m H) co p k).
Proof.
  intros Hrun Hni Hnp HQ. pose proof (run_idle _ _ _ _ Hrun). unfold releasesleep. kstep.
  apply wp_acquire; [done..|]. unfold set_sl. ksteps.
  apply wp_wakeup; [done|eauto with xv6|set_solver|]. ksteps. by rewrite sl_upd_upd.
Qed.

Lemma wp_holdingsleep H p k l (Q : bool -> world kst -> Prop) :
  running m p me pid -> Lsleep id ∉ H -> sl_of k id = Some l ->
  Q (negb (sl_locked l =? 0) && (sl_pid l =? pid)) (W (held m H) co p k) ->
  wp (holdingsleep id) Q (W (held m H) co p k).
Proof.
  intros Hrun Hni Hl HQ. pose proof (run_idle _ _ _ _ Hrun). unfold holdingsleep. kstep.
  apply wp_acquire; [done..|]. kstep. unfold sl_at. ksteps.
  destruct (sl_locked l =? 0); cbn [negb andb] in HQ.
  - ksteps. done.
  - ksteps. apply wp_mypid; [done|]. ksteps. done.
Qed.

End rules.

(** ** Properties *)

(** The loop ends when its condition is false. *)
Lemma while_exit n (c : MK bool) (body : MK unit) (w : world kst) :
  c w = Ret false w ->
  loop (Datatypes.S n) (fun _ : unit =>
    let! b := c in if b then body ;;; ret (inl tt) else ret (inr tt)) tt w = Ret tt w.
Proof. intros Hc. cbn [loop]. unfold bind. by rewrite Hc. Qed.

(** The loop sleeps when its condition holds, and goes on when the process wakes up. *)
Lemma while_sleeps n (c : MK bool) (body : MK unit) w w1 kb :
  c w = Ret true w -> body w = Swtch w1 kb ->
  let f := fun _ : unit => let! b := c in if b then body ;;; ret (inl tt) else ret (inr tt) in
  exists kl : world kst -> res kst unit, loop (Datatypes.S n) f tt w = Swtch w1 kl /\
    forall w2 w3, kb w2 = Ret tt w3 -> kl w2 = loop n f tt w3.
Proof.
  intros Hc Hb f. eexists. split.
  - cbn [loop]. unfold bind at 1. unfold f at 1. unfold bind at 1. rewrite Hc. cbn [bind_res].
    unfold bind at 1. rewrite Hb. reflexivity.
  - intros w2 w3 Hk. cbn. by rewrite Hk.
Qed.

(** [acquiresleep] on a taken lock puts the process to sleep on the lock with the inner spin
    lock free; when it runs again and finds the lock free, it takes it in its own name
    and returns with no spin lock held. *)
Theorem acquiresleep_blocks (n : nat) m co p k id l me pid :
  running m p me pid -> has_lock m (Lsleep id) -> sl_of k id = Some l -> sl_locked l ≠ 0 ->
  exists kont,
    @acquiresleep (Datatypes.S n) id (W (held m []) co p k) =
      Swtch (W (held m [Lptable]) co (asleep me (Csleep id) p) k) kont /\
    forall m' co' p' k' l', running m' p' me pid -> has_lock m' (Lsleep id) ->
      sl_of k' id = Some l' -> sl_locked l' = 0 ->
      kont (W (held m' [Lptable]) co' p' k') =
      Ret tt (W (held (m' <| fl_if := fl_if m |>) []) co' (awake me p') (sl_upd id (sl_take pid) k')).
Proof.
  intros Hrun Hlk Hl Hne. pose proof Hrun as [Hm Hr Hc (pr & Hp & Hpid)].
  unfold acquiresleep. erewrite bind_Ret by (apply acquire_held; [done..|set_solver]).
  destruct (sleep_run m (Lsleep id) (Csleep id) co p k me pr) as (k0 & Hs & Hk0);
    [done|eauto with xv6|done..|].
  assert (Hcond : (let! l := sl_at id in ret (negb (sl_locked l =? 0))) (W (held m [Lsleep id]) co p k)
    = Ret true (W (held m [Lsleep id]) co p k)).
  { unfold sl_at, bind, get_s, deref, ret; cbn. rewrite Hl. cbn. by rewrite (proj2 (Z.eqb_neq _ _) Hne). }
  destruct (while_sleeps (Datatypes.S n) _ _ _ _ _ Hcond Hs) as (kl & Hloop & Hkl).
  unfold while_sleep, fuel. erewrite bind_Swtch by exact Hloop.
  eexists. split; [reflexivity|]. intros m' co' p' k' l' Hrun' Hlk' Hl' H0.
  pose proof Hrun' as [Hm' Hr' Hc' (pr' & Hp' & Hpid')]. cbn beta.
  rewrite (Hkl _ _ (Hk0 m' co' p' k' ltac:(done) ltac:(eauto with xv6) Hlk')).
  rewrite while_exit by (unfold sl_at, bind, get_s, deref, ret; cbn; rewrite Hl'; cbn; by rewrite H0).
  cbn [bind_res]. erewrite bind_Ret by reflexivity. cbn [w_m w_c w_p w_s].
  assert (Hrun2 : running (m' <| fl_if := fl_if m |>) (awake me p') me pid).
  { split; [done..|]. exists (pr' <| p_chan := None |>). cbn. by rewrite list_lookup_alter_eq, Hp'. }
  assert (Hwp : wp (let! pid := mypid in set_sl id (fun l => l <| sl_pid := pid |>) ;;; release (Lsleep id))
    (fun _ w => w = W (held (m' <| fl_if := fl_if m |>) []) co' (awake me p') (sl_upd id (sl_take pid) k'))
    (W (held (m' <| fl_if := fl_if m |>) [Lsleep id]) co' (awake me p')
       (sl_upd id (fun l => l <| sl_locked := 1 |>) k'))).
  { kstep. eapply wp_mypid; [done|]. unfold set_sl. kstep. kstep.
    apply wp_release; [done|done|set_solver|]. by rewrite sl_upd_upd. }
  apply wp_elim in Hwp as ([] & w & Hw & ->). exact Hw.
Qed.

(** A free sleep lock is taken without blocking, [holdingsleep] then says the caller
    holds it, and [releasesleep] frees it and wakes the processes that wait for it. *)
Theorem sleeplock_cycle `{Fuel} m co p k id l me pid :
  running m p me pid -> has_lock m (Lsleep id) -> sl_of k id = Some l -> sl_locked l = 0 ->
  wp (acquiresleep id ;;; let! r := holdingsleep id in releasesleep id ;;; ret r)
    (fun r w => r = true /\ w = W (held m []) co (p <| ptable := wake (Some (Csleep id)) <$> ptable p |>)
                                  (sl_upd id sl_drop k))
    (W (held m []) co p k).
Proof.
  intros Hrun Hlk Hl H0. kstep. eapply wp_acquiresleep; [done|exact Hrun|set_solver|done..|]. kstep.
  eapply wp_holdingsleep; [done|exact Hrun|set_solver|by apply sl_of_upd|]. cbn. rewrite Z.eqb_refl. kstep.
  eapply wp_releasesleep; [done|exact Hrun|set_solver..|]. kstep. split; [done|].
  by rewrite sl_upd_upd.
Qed.

(** ** The properties on a concrete machine *)

Definition fs_locks : list lockid :=
  [Lptable; Ltickslock; Lkmem; Lcons; Lide; Lbcache; Llog; Licache; Lftable] ++
  ((fun i => Lsleep (SLbuf i)) <$> seq 0 NBUF) ++ ((fun i => Lsleep (SLinode i)) <$> seq 0 NINODE).

(** One CPU, all the locks, process 1 of the example table running. *)
Definition ex_machine : machine := one_cpu fs_locks (Some 1%nat).

Lemma ex_running policy : running ex_machine (ex_procs policy) 1 4.
Proof.
  split; [apply one_cpu_idle| |done|eexists; done].
  split; [|split]; [apply Forall_forall|..]; intros x Hx; apply one_cpu_lock; unfold fs_locks.
  - apply elem_of_app. by left.
  - apply elem_of_app. right. apply elem_of_app. left. apply list_elem_of_fmap. exists x. split; [done|].
    apply elem_of_seq. lia.
  - apply elem_of_app. right. apply elem_of_app. right. apply list_elem_of_fmap. exists x. split; [done|].
    apply elem_of_seq. lia.
Qed.

Lemma ex_lock i : (i < NINODE)%nat -> has_lock ex_machine (Lsleep (SLinode i)).
Proof. intros. by apply (run_locks _ _ _ _ (ex_running 0)). Qed.

Lemma acquiresleep_blocks_witness :
  let k := sl_upd (SLinode 3) (sl_take 9) kst0 in
  exists kont, @acquiresleep 1%nat (SLinode 3) (W (held ex_machine []) ex_console (ex_procs 0) k) =
    Swtch (W (held ex_machine [Lptable]) ex_console (asleep 1 (Csleep (SLinode 3)) (ex_procs 0)) k) kont.
Proof.
  intros k.
  destruct (acquiresleep_blocks 0 ex_machine ex_console (ex_procs 0) k (SLinode 3) (sl_take 9 sl_zero) 1 4)
    as (kont & Hrun & _); [apply ex_running|apply ex_lock; unfold NINODE; lia|reflexivity|done|].
  exists kont. exact Hrun.
Defined.

Lemma sleeplock_cycle_witness :
  wp (@acquiresleep 0%nat (SLinode 3) ;;; let! r := holdingsleep (SLinode 3) in releasesleep (SLinode 3) ;;; ret r)
    (fun r w => r = true /\ w = W (held ex_machine []) ex_console
       ((ex_procs 0) <| ptable := wake (Some (Csleep (SLinode 3))) <$> ptable (ex_procs 0) |>)
       (sl_upd (SLinode 3) sl_drop kst0))
    (W (held ex_machine []) ex_console (ex_procs 0) kst0).
Proof.
  apply (sleeplock_cycle (H := 0%nat) ex_machine ex_console (ex_procs 0) kst0 (SLinode 3) sl_zero 1 4);
    [apply ex_running|apply ex_lock; unfold NINODE; lia|reflexivity|reflexivity].
Defined.
