(* ===== verification/Hw.v ===== *)
(** * Interrupt controllers and the clock (ioapic.c, lapic.c, picirq.c)

    The functions that program the hardware.  The hardware is a parameter: what it answers is a function of the
    accesses so far, which the model records.  The theorems are about what the accesses amount to: the redirection
    table of the I/O APIC after [ioapicinit] and [ioapicenable], and the date that [cmostime] returns. *)

From S2P Require Import Prelude Kstate Spinlock Cprintf Kdata Sleeplock.
From stdpp Require Import strings list fin_maps.
Open Scope Z_scope.

(** What the hardware answers after the accesses [h]: to [inb], to [insl] of [n] words, and to a read in memory. *)
Class Hardware := {
  hw_in : list hwev -> Z -> Z;
  hw_ins : list hwev -> Z -> nat -> list Z;
  hw_mmio : list hwev -> Z -> Z;
}.

(** ** traps.h *)

Definition T_SYSCALL : Z := 64.
Definition T_IRQ0 : Z := 32.
Definition IRQ_TIMER : Z := 0.
Definition IRQ_KBD : Z := 1.
Definition IRQ_COM1 : Z := 4.
Definition IRQ_IDE : Z := 14.
Definition IRQ_ERROR : Z := 19.
Definition IRQ_SPURIOUS : Z := 31.

Definition hw_add (ev : hwev) (k : kst) : kst := k <| k_hw := k_hw k <| hw_trace := hw_trace (k_hw k) ++ [ev] |> |>.

Section hw_c.
Context `{Fu : Fuel} `{Hd : Hardware}.

(** ** x86.h: the accesses *)

Definition outb (port v : Z) : MK unit := upd_s (hw_add (PortOut port (u8 v))).
Definition inb (port : Z) : MK Z :=
  let! k := get_s in
  let v := u8 (hw_in (hw_trace (k_hw k)) port) in
  upd_s (hw_add (PortIn port v)) ;;;
  ret v.
Definition outsl (port : Z) (d : list Z) : MK unit := upd_s (hw_add (PortOuts port d)).
Definition insl (port : Z) (n : nat) : MK (list Z) :=
  let! k := get_s in
  let d := hw_ins (hw_trace (k_hw k)) port n in
  upd_s (hw_add (PortIns port d)) ;;;
  ret d.

(** A volatile variable of the device. *)
Definition mmio_write (a v : Z) : MK unit := upd_s (hw_add (MemW a (u32 v))).
Definition mmio_read (a : Z) : MK Z :=
  let! k := get_s in
  let v := u32 (hw_mmio (hw_trace (k_hw k)) a) in
  upd_s (hw_add (MemR a v)) ;;;
  ret v.

(** ** picirq.c *)

Definition IO_PIC1 : Z := 0x20.
Definition IO_PIC2 : Z := 0xA0.

Definition picinit : MK unit :=
  outb (IO_PIC1 + 1) 0xFF ;;;
  outb (IO_PIC2 + 1) 0xFF.

(** ** ioapic.c *)

Definition IOAPIC : Z := 0xFEC00000.
Definition REG_ID : Z := 0x00.
Definition REG_VER : Z := 0x01.
Definition REG_TABLE : Z := 0x10.
Definition INT_DISABLED : Z := 0x00010000.

(** [&ioapic->reg] and [&ioapic->data] *)
Definition ioapic_reg : Z := IOAPIC.
Definition ioapic_data : Z := IOAPIC + 16.

Definition ioapicread (reg : Z) : MK Z :=
  mmio_write ioapic_reg reg ;;;
  mmio_read ioapic_data.

Definition ioapicwrite (reg data : Z) : MK unit :=
  mmio_write ioapic_reg reg ;;;
  mmio_write ioapic_data data.

Definition ioapicinit : MK unit :=
  let! v := ioapicread REG_VER in
  let maxintr := Z.land (Z.shiftr v 16) 0xFF in
  let! v := ioapicread REG_ID in
  let id := Z.shiftr v 24 in
  let! k := get_s in
  when (negb (id =? hw_ioapicid (k_hw k)))
    (cprintf ("ioapicinit: id isn't equal to ioapicid; not a MP" ++ nl)%string []) ;;;
  for_list (Z.of_nat <$> seq 0 (Z.to_nat (maxintr + 1))) (fun i =>
    ioapicwrite (REG_TABLE + 2 * i) (Z.lor INT_DISABLED (T_IRQ0 + i)) ;;;
    ioapicwrite (REG_TABLE + 2 * i + 1) 0).

Definition ioapicenable (irq cpunum : Z) : MK unit :=
  ioapicwrite (REG_TABLE + 2 * irq) (T_IRQ0 + irq) ;;;
  ioapicwrite (REG_TABLE + 2 * irq + 1) (Z.shiftl cpunum 24).

(** ** lapic.c *)

Definition ID : Z := 0x0020 / 4.
Definition VER : Z := 0x0030 / 4.
Definition TPR : Z := 0x0080 / 4.
Definition EOI : Z := 0x00B0 / 4.
Definition SVR : Z := 0x00F0 / 4.
Definition ENABLE : Z := 0x00000100.
Definition ESR : Z := 0x0280 / 4.
Definition ICRLO : Z := 0x0300 / 4.
Definition INIT : Z := 0x00000500.
Definition STARTUP : Z := 0x00000600.
Definition DELIVS : Z := 0x00001000.
Definition ASSERT : Z := 0x00004000.
Definition LEVEL : Z := 0x00008000.
Definition BCAST : Z := 0x00080000.
Definition ICRHI : Z := 0x0310 / 4.
Definition TIMER : Z := 0x0320 / 4.
Definition X1 : Z := 0x0000000B.
Definition PERIODIC : Z := 0x00020000.
Definition PCINT : Z := 0x0340 / 4.
Definition LINT0 : Z := 0x0350 / 4.
Definition LINT1 : Z := 0x0360 / 4.
Definition ERROR : Z := 0x0370 / 4.
Definition MASKED : Z := 0x00010000.
Definition TICR : Z := 0x0380 / 4.
Definition TDCR : Z := 0x03E0 / 4.

(** [lapic], and [&lapic[index]] *)
Definition get_lapic : MK Z := let! k := get_s in ret (hw_lapic (k_hw k)).
Definition lapic_at (lapic index : Z) : Z := lapic + 4 * index.

Definition lapicw (index value : Z) : MK unit :=
  let! lapic := get_lapic in
  mmio_write (lapic_at lapic index) value ;;;
  let! _ := mmio_read (lapic_at lapic ID) in
  ret tt.

Definition lapicinit : MK unit :=
  let! lapic := get_lapic in
  if lapic =? 0 then ret tt
  else
    lapicw SVR (Z.lor ENABLE (T_IRQ0 + IRQ_SPURIOUS)) ;;;
    lapicw TDCR X1 ;;;
    lapicw TIMER (Z.lor PERIODIC (T_IRQ0 + IRQ_TIMER)) ;;;
    lapicw TICR 10000000 ;;;
    lapicw LINT0 MASKED ;;;
    lapicw LINT1 MASKED ;;;
    let! v := mmio_read (lapic_at lapic VER) in
    when (4 <=? Z.land (Z.shiftr v 16) 0xFF) (lapicw PCINT MASKED) ;;;
    lapicw ERROR (T_IRQ0 + IRQ_ERROR) ;;;
    lapicw ESR 0 ;;;
    lapicw ESR 0 ;;;
    lapicw EOI 0 ;;;
    lapicw ICRHI 0 ;;;
    lapicw ICRLO (Z.lor BCAST (Z.lor INIT LEVEL)) ;;;
    loop fuel (fun _ =>
      let! v := mmio_read (lapic_at lapic ICRLO) in
      if Z.land v DELIVS =? 0 then ret (inr tt) else ret (inl tt)) tt ;;;
    lapicw TPR 0.

(** [lapicid], which the current CPU is found with ([Spinlock] reads the same register through [lapic_id]). *)
Definition lapicid_read : MK Z :=
  let! lapic := get_lapic in
  if lapic =? 0 then ret 0
  else
    let! v := mmio_read (lapic_at lapic ID) in
    ret (Z.shiftr v 24).

Definition lapiceoi : MK unit :=
  let! lapic := get_lapic in
  when (negb (lapic =? 0)) (lapicw EOI 0).

Definition CMOS_PORT : Z := 0x70.
Definition CMOS_RETURN : Z := 0x71.

(** [wrv] is an array of [ushort] in memory. *)
Definition lapicstartap (apicid addr : Z) : MK unit :=
  outb CMOS_PORT 0xF ;;;
  outb (CMOS_PORT + 1) 0x0A ;;;
  let wrv := P2V (Z.lor (Z.shiftl 0x40 4) 0x67) in
  upd_s (hw_add (MemW wrv 0)) ;;;
  upd_s (hw_add (MemW (wrv + 2) (u16 (Z.shiftr addr 4)))) ;;;
  lapicw ICRHI (Z.shiftl apicid 24) ;;;
  lapicw ICRLO (Z.lor INIT (Z.lor LEVEL ASSERT)) ;;;
  lapicw ICRLO (Z.lor INIT LEVEL) ;;;
  for_list [0; 1] (fun _ =>
    lapicw ICRHI (Z.shiftl apicid 24) ;;;
    lapicw ICRLO (Z.lor STARTUP (Z.shiftr addr 12))).

(** ** The clock *)

Definition CMOS_STATA : Z := 0x0a.
Definition CMOS_STATB : Z := 0x0b.
Definition CMOS_UIP : Z := Z.shiftl 1 7.
Definition SECS : Z := 0x00.
Definition MINS : Z := 0x02.
Definition HOURS : Z := 0x04.
Definition DAY : Z := 0x07.
Definition MONTH : Z := 0x08.
Definition YEAR : Z := 0x09.

(** date.h *)
Record rtcdate := mkDate { second : Z; minute : Z; hour : Z; day : Z; month : Z; year : Z }.

Definition cmos_read (reg : Z) : MK Z :=
  outb CMOS_PORT reg ;;;
  inb CMOS_RETURN.

Definition fill_rtcdate : MK rtcdate :=
  let! s := cmos_read SECS in
  let! mi := cmos_read MINS in
  let! h := cmos_read HOURS in
  let! d := cmos_read DAY in
  let! mo := cmos_read MONTH in
  let! y := cmos_read YEAR in
  ret (mkDate s mi h d mo y).

Definition CONV (x : Z) : Z := Z.shiftr x 4 * 10 + Z.land x 0xf.

(** [memcmp(&t1, &t2, sizeof(t1)) == 0] *)
Definition date_eqb (a b : rtcdate) : bool :=
  (second a =? second b) && (minute a =? minute b) && (hour a =? hour b) && (day a =? day b) && (month a =? month b) &&
  (year a =? year b).

Definition convert (t : rtcdate) : rtcdate :=
  mkDate (CONV (second t)) (CONV (minute t)) (CONV (hour t)) (CONV (day t)) (CONV (month t)) (CONV (year t)).

Definition cmostime : MK rtcdate :=
  let! sb := cmos_read CMOS_STATB in
  let bcd := Z.land sb (Z.shiftl 1 2) =? 0 in
  let! t1 := loop fuel (fun _ =>
    let! t1 := fill_rtcdate in
    let! st := cmos_read CMOS_STATA in
    if negb (Z.land st CMOS_UIP =? 0) then ret (inl tt)
    else
      let! t2 := fill_rtcdate in
      if date_eqb t1 t2 then ret (inr t1) else ret (inl tt)) tt in
  let t1 := if bcd then convert t1 else t1 in
  ret (mkDate (second t1) (minute t1) (hour t1) (day t1) (month t1) (year t1 + 2000)).

End hw_c.

(** ** Running the accesses *)

Definition hw_log (evs : list hwev) (k : kst) : kst :=
  k <| k_hw := k_hw k <| hw_trace := hw_trace (k_hw k) ++ evs |> |>.

Lemma hw_log_nil k : hw_log [] k = k.
Proof. unfold hw_log. destruct k, k_hw. cbn. by rewrite app_nil_r. Qed.

Lemma hw_log_app evs evs' k : hw_log evs' (hw_log evs k) = hw_log (evs ++ evs') k.
Proof. unfold hw_log. destruct k, k_hw. cbn. by rewrite <- app_assoc. Qed.

Lemma hw_log_trace evs k : hw_trace (k_hw (hw_log evs k)) = hw_trace (k_hw k) ++ evs.
Proof. done. Qed.

Section runs.
Context `{Fu : Fuel} `{Hd : Hardware}.

Lemma mmio_write_run a v m co p k : mmio_write a v (W m co p k) = Ret tt (W m co p (hw_log [MemW a (u32 v)] k)).
Proof. done. Qed.

Lemma outb_run port v m co p k : outb port v (W m co p k) = Ret tt (W m co p (hw_log [PortOut port (u8 v)] k)).
Proof. done. Qed.

Lemma inb_run port m co p k :
  let v := u8 (hw_in (hw_trace (k_hw k)) port) in inb port (W m co p k) = Ret v (W m co p (hw_log [PortIn port v] k)).
Proof. done. Qed.

Lemma outsl_run port d m co p k : outsl port d (W m co p k) = Ret tt (W m co p (hw_log [PortOuts port d] k)).
Proof. done. Qed.

Lemma insl_run port n m co p k :
  let d := hw_ins (hw_trace (k_hw k)) port n in insl port n (W m co p k) = Ret d (W m co p (hw_log [PortIns port d] k)).
Proof. done. Qed.

Lemma ioapicwrite_run reg data m co p k :
  ioapicwrite reg data (W m co p k) =
  Ret tt (W m co p (hw_log [MemW ioapic_reg (u32 reg); MemW ioapic_data (u32 data)] k)).
Proof.
  unfold ioapicwrite. rewrite (bind_Ret _ _ _ _ _ (mmio_write_run _ _ _ _ _ _)), mmio_write_run, hw_log_app. done.
Qed.

(** The value read, and the accesses. *)
Lemma ioapicread_run reg m co p k :
  let h := hw_trace (k_hw k) ++ [MemW ioapic_reg (u32 reg)] in
  let v := u32 (hw_mmio h ioapic_data) in
  ioapicread reg (W m co p k) = Ret v (W m co p (hw_log [MemW ioapic_reg (u32 reg); MemR ioapic_data v] k)).
Proof.
  intros h v. unfold ioapicread. rewrite (bind_Ret _ _ _ _ _ (mmio_write_run _ _ _ _ _ _)).
  transitivity (Ret v (W m co p (hw_log [MemR ioapic_data v] (hw_log [MemW ioapic_reg (u32 reg)] k)))); [done|].
  by rewrite hw_log_app.
Qed.

(** The table entries that a run of [ioapicwrite]s writes. *)
Definition pair_evs (rd : Z * Z) : list hwev := [MemW ioapic_reg (u32 rd.1); MemW ioapic_data (u32 rd.2)].

Lemma ioapic_for_run l (f : Z -> list (Z * Z)) body m co p : forall k,
  (forall i k, body i (W m co p k) = Ret tt (W m co p (hw_log (concat (pair_evs <$> f i)) k))) ->
  for_list l body (W m co p k) = Ret tt (W m co p (hw_log (concat (pair_evs <$> concat (f <$> l))) k)).
Proof.
  induction l as [|i l IH]; intros k Hb; cbn [for_list].
  - by rewrite hw_log_nil.
  - rewrite (bind_Ret _ _ _ _ _ (Hb _ _)), IH by done. rewrite hw_log_app. cbn [fmap list_fmap concat].
    rewrite fmap_app, concat_app. done.
Qed.

(** The accesses of [lapiceoi]. *)
Definition eoi_evs (k : kst) : list hwev :=
  let lapic := hw_lapic (k_hw k) in
  if lapic =? 0 then []
  else
    let w := MemW (lapic_at lapic EOI) 0 in
    [w; MemR (lapic_at lapic ID) (u32 (hw_mmio (hw_trace (k_hw k) ++ [w]) (lapic_at lapic ID)))].

Lemma lapiceoi_run m co p k : lapiceoi (W m co p k) = Ret tt (W m co p (hw_log (eoi_evs k) k)).
Proof.
  unfold lapiceoi, eoi_evs, get_lapic. unfold bind at 1. cbn [bind_res bind get_s ret w_s]. cbv zeta.
  destruct (Z.eqb_spec (hw_lapic (k_hw k)) 0); cbn [negb when]; [by rewrite hw_log_nil|].
  unfold lapicw, get_lapic. unfold bind at 1. cbn [bind_res bind get_s ret w_s].
  rewrite (bind_Ret _ _ _ _ _ (mmio_write_run _ _ _ _ _ _)). change (u32 0) with 0.
  set (w := MemW (lapic_at (hw_lapic (k_hw k)) EOI) 0).
  match goal with |- context [MemR ?a ?v] => transitivity (Ret tt (W m co p (hw_log [MemR a v] (hw_log [w] k)))); [done|] end.
  by rewrite hw_log_app.
Qed.

End runs.

(** ** The registers of the I/O APIC *)

(** The I/O APIC as its data sheet describes it: [ioapic->reg] selects a register, [ioapic->data] writes it. *)
Record ioregs := mkIo { io_sel : Z; io_reg : Z -> Z }.
Definition io_step (s : ioregs) (ev : hwev) : ioregs :=
  match ev with
  | MemW a v =>
      if a =? ioapic_reg then mkIo v (io_reg s)
      else if a =? ioapic_data then mkIo (io_sel s) (fun r => if r =? io_sel s then v else io_reg s r)
      else s
  | _ => s
  end.
Definition io_run (evs : list hwev) (s : ioregs) : ioregs := foldl io_step s evs.

Lemma io_run_app evs evs' s : io_run (evs ++ evs') s = io_run evs' (io_run evs s).
Proof. apply foldl_app. Qed.

Lemma io_run_writes ws s r :
  Forall (fun rd => is_u32 rd.1 /\ is_u32 rd.2) ws ->
  io_reg (io_run (concat (pair_evs <$> ws)) s) r = foldl (fun v rd => if r =? rd.1 then rd.2 else v) (io_reg s r) ws.
Proof.
  intros Hws. revert s. induction Hws as [|[r' d] ws [Hr Hd] _ IH]; intros s; [done|].
  cbn [fmap list_fmap concat pair_evs fst snd app] in *. unfold io_run in *. cbn [foldl]. rewrite IH. cbn [foldl fst snd]. f_equal.
  rewrite !u32_id by done. cbn [io_step]. rewrite Z.eqb_refl. cbn [io_sel io_reg].
  change (ioapic_data =? ioapic_reg) with false. rewrite Z.eqb_refl. cbn [io_reg io_sel]. done.
Qed.

(** ** Routing interrupts *)

(** What [ioapicinit] writes for the interrupts below [n], and what [ioapicenable] writes. *)
Definition init_writes (i : Z) : list (Z * Z) :=
  [(REG_TABLE + 2 * i, Z.lor INT_DISABLED (T_IRQ0 + i)); (REG_TABLE + 2 * i + 1, 0)].
Definition enable_writes (irq cpunum : Z) : list (Z * Z) :=
  [(REG_TABLE + 2 * irq, T_IRQ0 + irq); (REG_TABLE + 2 * irq + 1, Z.shiftl cpunum 24)].

Lemma lor_u32 a b : is_u32 a -> is_u32 b -> is_u32 (Z.lor a b).
Proof.
  unfold is_u32. intros Ha Hb. split; [apply Z.lor_nonneg; lia|].
  destruct (decide (Z.lor a b = 0)) as [->|Hne]; [lia|]. change 4294967296 with (2 ^ 32) in *.
  apply Z.log2_lt_pow2; [pose proof (proj2 (Z.lor_nonneg a b)); lia|].
  rewrite Z.log2_lor by lia. assert (Hlog : forall x, 0 <= x < 2 ^ 32 -> Z.log2 x < 32).
  { intros x Hx. destruct (decide (x = 0)) as [->|]; [done|]. apply Z.log2_lt_pow2; lia. }
  pose proof (Hlog a). pose proof (Hlog b). lia.
Qed.

(** The last write to a register decides; the registers of different interrupts are different. *)
Lemma last_write (f : Z -> list (Z * Z)) r n v0 :
  (forall i, f i = init_writes i) ->
  foldl (fun v rd => if r =? rd.1 then rd.2 else v) v0 (concat (f <$> (Z.of_nat <$> seq 0 n))) =
    if decide (REG_TABLE <= r < REG_TABLE + 2 * Z.of_nat n) then
      if Z.odd (r - REG_TABLE) then 0 else Z.lor INT_DISABLED (T_IRQ0 + (r - REG_TABLE) / 2)
    else v0.
Proof.
  intros Hf. induction n as [|n IH].
  - cbn. rewrite decide_False by lia. done.
  - rewrite seq_S, !fmap_app, concat_app, foldl_app, IH. cbn [fmap list_fmap concat Nat.add]. rewrite Hf, app_nil_r.
    unfold init_writes. cbn [foldl fst snd].
    destruct (Z.eqb_spec r (REG_TABLE + 2 * Z.of_nat n + 1)) as [->|H1].
    + rewrite decide_True by lia. replace (REG_TABLE + 2 * Z.of_nat n + 1 - REG_TABLE) with (1 + 2 * Z.of_nat n) by lia.
      by rewrite Z.odd_add_mul_2.
    + destruct (Z.eqb_spec r (REG_TABLE + 2 * Z.of_nat n)) as [->|H2].
      * rewrite decide_True by lia. replace (REG_TABLE + 2 * Z.of_nat n - REG_TABLE) with (0 + Z.of_nat n * 2) by lia.
        replace (Z.odd (0 + Z.of_nat n * 2)) with false by (rewrite Z.mul_comm, Z.odd_add_mul_2; done).
        rewrite Z.div_add by lia. done.
      * destruct (decide (REG_TABLE <= r < REG_TABLE + 2 * Z.of_nat n)); [rewrite decide_True by lia|rewrite decide_False by lia]; done.
Qed.

Lemma writes_u32 n irq cpunum :
  (n <= 256)%nat -> 0 <= irq < 256 -> 0 <= cpunum < 256 ->
  Forall (fun rd => is_u32 rd.1 /\ is_u32 rd.2)
    (concat (init_writes <$> (Z.of_nat <$> seq 0 n)) ++ enable_writes irq cpunum).
Proof.
  intros Hn Hi Hc. apply Forall_app. split.
  - apply List.Forall_concat, list.Forall_fmap, list.Forall_fmap, list.Forall_forall. intros i Hin%elem_of_seq.
    unfold init_writes, REG_TABLE, T_IRQ0, is_u32. constructor; cbn [fst snd]; [|constructor; cbn [fst snd]; [lia|constructor]].
    split; [lia|]. apply lor_u32; unfold is_u32, INT_DISABLED; lia.
  - unfold enable_writes, REG_TABLE, T_IRQ0, is_u32. rewrite Z.shiftl_mul_pow2 by lia. repeat constructor; cbn [fst snd]; lia.
Qed.

Lemma pair_evs_app ws ws' : concat (pair_evs <$> ws) ++ concat (pair_evs <$> ws') = concat (pair_evs <$> (ws ++ ws')).
Proof. by rewrite fmap_app, concat_app. Qed.

Section ioapic.
Context `{Fu : Fuel} `{Hd : Hardware}.

(** The number of the last interrupt of the I/O APIC, as it answers after the accesses [h]. *)
Definition hw_maxintr (h : list hwev) : Z :=
  Z.land (Z.shiftr (u32 (hw_mmio (h ++ [MemW ioapic_reg REG_VER]) ioapic_data)) 16) 0xFF.
Definition hw_apicno (h : list hwev) : Z :=
  let v := u32 (hw_mmio (h ++ [MemW ioapic_reg REG_VER]) ioapic_data) in
  Z.shiftr (u32 (hw_mmio (h ++ [MemW ioapic_reg REG_VER; MemR ioapic_data v; MemW ioapic_reg REG_ID]) ioapic_data)) 24.

Lemma maxintr_range h : 0 <= hw_maxintr h < 256.
Proof.
  unfold hw_maxintr. change 0xFF with (Z.ones 8). rewrite Z.land_ones by lia. apply Z.mod_pos_bound. done.
Qed.

(** [ioapicinit], when the I/O APIC has the id that [mpinit] found. *)
Lemma ioapicinit_run m co p k :
  let h := hw_trace (k_hw k) in
  hw_apicno h = hw_ioapicid (k_hw k) ->
  exists reads, ioapicinit (W m co p k) = Ret tt (W m co p (hw_log (reads ++
    concat (pair_evs <$> concat (init_writes <$> (Z.of_nat <$> seq 0 (Z.to_nat (hw_maxintr h + 1)))))) k)) /\
    forall s, io_reg (io_run reads s) = io_reg s.
Proof.
  intros h Hid. unfold ioapicinit.
  rewrite (bind_Ret _ _ _ _ _ (ioapicread_run _ _ _ _ _)). fold h. change (u32 REG_VER) with REG_VER.
  set (v := u32 (hw_mmio (h ++ [MemW ioapic_reg REG_VER]) ioapic_data)). cbn zeta.
  rewrite (bind_Ret _ _ _ _ _ (ioapicread_run _ _ _ _ _)). rewrite hw_log_app, hw_log_trace. fold h. cbn zeta.
  rewrite <- app_assoc. cbn [app]. change (u32 REG_ID) with REG_ID.
  change (Z.shiftr (u32 (hw_mmio (h ++ [MemW ioapic_reg REG_VER; MemR ioapic_data v; MemW ioapic_reg REG_ID]) ioapic_data)) 24)
    with (hw_apicno h). rewrite Hid.
  match goal with |- context [hw_log ?r k] => set (reads := r) end. exists reads. split; [|done].
  rewrite (bind_Ret get_s _ (W m co p (hw_log reads k)) (hw_log reads k) (W m co p (hw_log reads k)) eq_refl).
  change (hw_ioapicid (k_hw (hw_log reads k))) with (hw_ioapicid (k_hw k)). rewrite Z.eqb_refl. cbn [negb].
  rewrite (bind_Ret (when false _) _ (W m co p (hw_log reads k)) tt (W m co p (hw_log reads k)) eq_refl).
  rewrite (ioapic_for_run _ init_writes); [by rewrite hw_log_app|].
  intros i k0. rewrite (bind_Ret _ _ _ _ _ (ioapicwrite_run _ _ _ _ _ _)), ioapicwrite_run, hw_log_app. done.
Qed.

Lemma ioapicenable_run irq cpunum m co p k :
  ioapicenable irq cpunum (W m co p k) = Ret tt (W m co p (hw_log (concat (pair_evs <$> enable_writes irq cpunum)) k)).
Proof.
  unfold ioapicenable. rewrite (bind_Ret _ _ _ _ _ (ioapicwrite_run _ _ _ _ _ _)), ioapicwrite_run, hw_log_app. done.
Qed.

(** After [ioapicinit] and [ioapicenable(irq, cpunum)] the redirection table of the I/O APIC sends the interrupt [irq] to the
    CPU [cpunum] with the vector [T_IRQ0 + irq], and masks every other interrupt and routes it to no CPU, when the
    I/O APIC answers with the id that [mpinit] found. *)
Theorem ioapic_routing m co p k irq cpunum regs :
  let h := hw_trace (k_hw k) in
  hw_apicno h = hw_ioapicid (k_hw k) -> 0 <= irq <= hw_maxintr h -> 0 <= cpunum < 256 ->
  exists evs, (ioapicinit ;;; ioapicenable irq cpunum) (W m co p k) = Ret tt (W m co p (hw_log evs k)) /\
    forall i, 0 <= i <= hw_maxintr h ->
      let lo := io_reg (io_run evs regs) (REG_TABLE + 2 * i) in
      let hi := io_reg (io_run evs regs) (REG_TABLE + 2 * i + 1) in
      if decide (i = irq) then lo = T_IRQ0 + irq /\ hi = cpunum * 2 ^ 24
      else Z.land lo INT_DISABLED = INT_DISABLED /\ hi = 0.
Proof.
  intros h Hid Hirq Hcpu. pose proof (maxintr_range h) as Hmax. destruct (ioapicinit_run m co p k Hid) as (reads & Hrun & Hreads).
  fold h in Hrun. rewrite (bind_Ret _ _ _ _ _ Hrun), ioapicenable_run, hw_log_app. eexists. split; [reflexivity|].
  intros i Hi. rewrite <- app_assoc, pair_evs_app, io_run_app, !io_run_writes by (apply writes_u32; lia).
  rewrite !foldl_app, !(last_write init_writes), Hreads by done.
  set (n := hw_maxintr h) in *. cbn [enable_writes foldl fst snd].
  rewrite (decide_True (P := REG_TABLE <= REG_TABLE + 2 * i < _)), (decide_True (P := REG_TABLE <= REG_TABLE + 2 * i + 1 < _)) by lia.
  assert (Hodd : Z.odd (REG_TABLE + 2 * i + 1 - REG_TABLE) = true).
  { replace (REG_TABLE + 2 * i + 1 - REG_TABLE) with (1 + 2 * i) by lia. by rewrite Z.odd_add_mul_2. }
  assert (Heven : Z.odd (REG_TABLE + 2 * i - REG_TABLE) = false).
  { replace (REG_TABLE + 2 * i - REG_TABLE) with (0 + 2 * i) by lia. by rewrite Z.odd_add_mul_2. }
  assert (Hhalf : (REG_TABLE + 2 * i - REG_TABLE) / 2 = i).
  { replace (REG_TABLE + 2 * i - REG_TABLE) with (i * 2) by lia. by apply Z.div_mul. }
  rewrite Hodd, Heven, Hhalf. case_decide as E.
  - subst i. rewrite !Z.eqb_refl. rewrite Z.shiftl_mul_pow2 by lia.
    rewrite (proj2 (Z.eqb_neq (REG_TABLE + 2 * irq) (REG_TABLE + 2 * irq + 1))) by lia. done.
  - rewrite !(proj2 (Z.eqb_neq _ _)) by lia. split; [|done]. apply Z.bits_inj'. intros n' _. rewrite Z.land_spec, Z.lor_spec.
    by destruct (Z.testbit INT_DISABLED n'), (Z.testbit (T_IRQ0 + i) n').
Qed.
End ioapic.

(** An I/O APIC with 24 interrupts and id 0. *)
Definition ex_hardware : Hardware :=
  {| hw_in _ _ := 0; hw_ins _ _ n := replicate (4 * n) 0;
     hw_mmio h _ := match last h with Some (MemW _ r) => if r =? REG_VER then 0x170011 else 0 | _ => 0 end |}.

Lemma ioapic_routing_witness :
  exists evs,
    (ioapicinit (Hd := ex_hardware) ;;; ioapicenable IRQ_IDE 1) (W ex_machine ex_console ex_procs0 kst0) =
      Ret tt (W ex_machine ex_console ex_procs0 (hw_log evs kst0)) /\
    io_reg (io_run evs (mkIo 0 (fun _ => 0))) (REG_TABLE + 2 * 14) = T_IRQ0 + 14.
Proof.
  destruct (ioapic_routing (Hd := ex_hardware) ex_machine ex_console ex_procs0 kst0 IRQ_IDE 1 (mkIo 0 (fun _ => 0)))
    as (evs & Hrun & Hregs).
  - reflexivity.
  - vm_compute. split; intros [=].
  - lia.
  - exists evs. split; [exact Hrun|].
    destruct (Hregs 14 ltac:(vm_compute; split; intros [=])) as [Hlo _]. exact Hlo.
Defined.

(** ** The date *)

(** Two digits, as the clock stores them. *)
Definition bcd (n : Z) : Z := 16 * (n / 10) + n mod 10.

Lemma CONV_bcd n : 0 <= n < 100 -> CONV (bcd n) = n.
Proof.
  intros Hn. unfold CONV, bcd. rewrite Z.shiftr_div_pow2 by lia. change 0xf with (Z.ones 4). rewrite Z.land_ones by lia.
  change (2 ^ 4) with 16. pose proof (Z.mod_pos_bound n 10). pose proof (Z.div_mod n 10).
  assert (0 <= n / 10 < 10) by (split; [apply Z.div_pos; lia|apply Z.div_lt_upper_bound; lia]).
  replace (16 * (n / 10) + n mod 10) with (n mod 10 + n / 10 * 16) by lia. rewrite Z.div_add, Z.mod_add by lia.
  rewrite (Z.div_small (n mod 10)), (Z.mod_small (n mod 10)) by lia. lia.
Qed.

Section clock.
Context `{Fu : Fuel} `{Hd : Hardware}.
(** The clock chip while its time does not change: after a register is selected, reading returns the register. *)
Context (rtc : Z -> Z).
Hypothesis Hrtc : forall h r, 0 <= r < 128 -> hw_in (h ++ [PortOut CMOS_PORT r]) CMOS_RETURN = rtc r.
Hypothesis Hbyte : forall r, is_u8 (rtc r).

Definition rtc_date : rtcdate := mkDate (rtc SECS) (rtc MINS) (rtc HOURS) (rtc DAY) (rtc MONTH) (rtc YEAR).

Lemma cmos_read_run r m co p k : 0 <= r < 128 ->
  exists evs, cmos_read r (W m co p k) = Ret (rtc r) (W m co p (hw_log evs k)).
Proof.
  intros Hr. unfold cmos_read. exists [PortOut CMOS_PORT r; PortIn CMOS_RETURN (rtc r)].
  assert (Hu : u8 r = r) by (unfold u8; apply Z.mod_small; lia).
  rewrite (bind_Ret _ _ _ _ _ (outb_run _ _ _ _ _ _)), Hu, inb_run, hw_log_trace, Hrtc by done.
  replace (u8 (rtc r)) with (rtc r) by (symmetry; apply Z.mod_small, Hbyte). by rewrite hw_log_app.
Qed.

Lemma fill_rtcdate_run m co p k : exists evs, fill_rtcdate (W m co p k) = Ret rtc_date (W m co p (hw_log evs k)).
Proof.
  unfold fill_rtcdate.
  destruct (cmos_read_run SECS m co p k) as [e1 H1]; [done|]. rewrite (bind_Ret _ _ _ _ _ H1).
  destruct (cmos_read_run MINS m co p (hw_log e1 k)) as [e2 H2]; [done|]. rewrite (bind_Ret _ _ _ _ _ H2), hw_log_app.
  destruct (cmos_read_run HOURS m co p (hw_log (e1 ++ e2) k)) as [e3 H3]; [done|]. rewrite (bind_Ret _ _ _ _ _ H3), hw_log_app.
  destruct (cmos_read_run DAY m co p (hw_log ((e1 ++ e2) ++ e3) k)) as [e4 H4]; [done|].
  rewrite (bind_Ret _ _ _ _ _ H4), hw_log_app.
  destruct (cmos_read_run MONTH m co p (hw_log (((e1 ++ e2) ++ e3) ++ e4) k)) as [e5 H5]; [done|].
  rewrite (bind_Ret _ _ _ _ _ H5), hw_log_app.
  destruct (cmos_read_run YEAR m co p (hw_log ((((e1 ++ e2) ++ e3) ++ e4) ++ e5) k)) as [e6 H6]; [done|].
  rewrite (bind_Ret _ _ _ _ _ H6), hw_log_app. by eexists.
Qed.

Lemma date_eqb_refl t : date_eqb t t = true.
Proof. unfold date_eqb. by rewrite !Z.eqb_refl. Qed.

Lemma cmostime_run m co p k :
  (0 < fuel)%nat -> Z.land (rtc CMOS_STATA) CMOS_UIP = 0 ->
  exists evs, cmostime (W m co p k) = Ret
    (let t := if Z.land (rtc CMOS_STATB) 4 =? 0 then convert rtc_date else rtc_date in
     mkDate (second t) (minute t) (hour t) (day t) (month t) (year t + 2000)) (W m co p (hw_log evs k)).
Proof.
  intros Hfuel Huip. unfold cmostime.
  destruct (cmos_read_run CMOS_STATB m co p k) as [e1 H1]; [done|]. rewrite (bind_Ret _ _ _ _ _ H1).
  destruct fuel as [|n] eqn:E; [lia|]. cbn [loop].
  destruct (fill_rtcdate_run m co p (hw_log e1 k)) as [e2 H2].
  destruct (cmos_read_run CMOS_STATA m co p (hw_log e2 (hw_log e1 k))) as [e3 H3]; [unfold CMOS_STATA; lia|].
  destruct (fill_rtcdate_run m co p (hw_log e3 (hw_log e2 (hw_log e1 k)))) as [e4 H4].
  exists (((e1 ++ e2) ++ e3) ++ e4).
  assert (Hloop : forall (f : Datatypes.unit + rtcdate -> MK rtcdate),
    bind (let! t1 := fill_rtcdate in let! st := cmos_read CMOS_STATA in
          if negb (Z.land st CMOS_UIP =? 0) then ret (inl tt)
          else let! t2 := fill_rtcdate in if date_eqb t1 t2 then ret (inr t1) else ret (inl tt)) f
      (W m co p (hw_log e1 k)) = f (inr rtc_date) (W m co p (hw_log (((e1 ++ e2) ++ e3) ++ e4) k))).
  { intros f. rewrite <- !hw_log_app. apply bind_Ret. rewrite (bind_Ret _ _ _ _ _ H2), (bind_Ret _ _ _ _ _ H3), Huip.
    cbn [Z.eqb negb]. rewrite (bind_Ret _ _ _ _ _ H4), date_eqb_refl. done. }
  erewrite bind_Ret; [reflexivity|]. rewrite Hloop. done.
Qed.
End clock.

(** While the clock chip shows a date and no update is in progress, [cmostime] returns that date, with the year counted from
    2000, whether the chip stores two decimal digits or binary numbers in its registers. *)
Theorem cmostime_spec `{Fu : Fuel} `{Hd : Hardware} (rtc : Z -> Z) (t : rtcdate) m co p k :
  (forall h r, 0 <= r < 128 -> hw_in (h ++ [PortOut CMOS_PORT r]) CMOS_RETURN = rtc r) -> (forall r, is_u8 (rtc r)) ->
  (0 < fuel)%nat -> Z.land (rtc CMOS_STATA) CMOS_UIP = 0 ->
  Forall (fun n => 0 <= n < 100) [second t; minute t; hour t; day t; month t; year t] ->
  (let enc := if Z.land (rtc CMOS_STATB) 4 =? 0 then bcd else id in
   rtc SECS = enc (second t) /\ rtc MINS = enc (minute t) /\ rtc HOURS = enc (hour t) /\ rtc DAY = enc (day t) /\
   rtc MONTH = enc (month t) /\ rtc YEAR = enc (year t)) ->
  exists k', cmostime (W m co p k) =
    Ret (mkDate (second t) (minute t) (hour t) (day t) (month t) (2000 + year t)) (W m co p k').
Proof.
  intros Hrtc Hbyte Hfuel Huip Hrange Henc. destruct (cmostime_run rtc Hrtc Hbyte m co p k Hfuel Huip) as [evs Hrun].
  eexists. rewrite Hrun. f_equal. destruct Henc as (H1 & H2 & H3 & H4 & H5 & H6).
  rewrite !list.Forall_cons in Hrange. destruct Hrange as (R1 & R2 & R3 & R4 & R5 & R6 & _).
  unfold rtc_date, convert. destruct (Z.land (rtc CMOS_STATB) 4 =? 0); cbn [second minute hour day month year];
    rewrite H1, H2, H3, H4, H5, H6, ?CONV_bcd by done; unfold id; f_equal; lia.
Qed.

Definition ex_clock_regs (r : Z) : Z :=
  if r =? SECS then 0x59 else if r =? MINS then 0x07 else if r =? HOURS then 0x23 else if r =? DAY then 0x31
  else if r =? MONTH then 0x12 else if r =? YEAR then 0x19 else 0.
Definition ex_clock : Hardware :=
  {| hw_in h _ := match last h with Some (PortOut _ r) => ex_clock_regs r | _ => 0 end;
     hw_ins _ _ n := replicate (4 * n) 0; hw_mmio _ _ := 0 |}.

Lemma cmostime_witness :
  exists k', cmostime (Fu := 1%nat) (Hd := ex_clock) (W ex_machine ex_console ex_procs0 kst0) =
    Ret (mkDate 59 7 23 31 12 2019) (W ex_machine ex_console ex_procs0 k').
Proof.
  apply (cmostime_spec (Fu := 1%nat) (Hd := ex_clock) ex_clock_regs (mkDate 59 7 23 31 12 19)).
  - intros h r _. cbn [ex_clock hw_in]. rewrite last_snoc. reflexivity.
  - intros r. unfold ex_clock_regs, is_u8. repeat case_match; lia.
  - cbv. lia.
  - reflexivity.
  - repeat constructor; cbn; lia.
  - repeat split.
Defined.
