(* ===== verification/Mp.v ===== *)
(** * Finding the processors (mp.c, mp.h)

    [mpinit] reads the tables that the BIOS leaves in memory.  The memory is a parameter: the byte at every kernel
    address.  [cpus[0..ncpu)] is the list of CPUs of the machine, so [ncpu] is its length.  The theorems show which CPUs
    a well-formed table gives, and what happens at an entry of a type that the code does not know. *)

From S2P Require Import Prelude Kstate Spinlock Cprintf Kdata Sleeplock Hw.
From stdpp Require Import strings list.
Open Scope Z_scope.

(** ** mp.h *)

Definition MPPROC : Z := 0.
Definition MPBUS : Z := 1.
Definition MPIOAPIC : Z := 2.
Definition MPIOINTR : Z := 3.
Definition MPLINTR : Z := 4.

Definition sizeof_mp : Z := 16.
Definition sizeof_mpconf : Z := 44.
Definition sizeof_mpproc : Z := 20.
Definition sizeof_mpioapic : Z := 8.

Section mp_c.
Context (mem : Z -> Z).

(** The [n] bytes at [a]. *)
Definition bytes_at (a : Z) (n : nat) : list Z := (fun i => mem (a + Z.of_nat i)) <$> seq 0 n.

(** Fields of [struct mp] and of [struct mpconf]. *)
Definition mp_physaddr (mp : Z) : Z := le_Z (bytes_at (mp + 4) 4).
Definition mp_imcrp (mp : Z) : Z := mem (mp + 12).
Definition conf_length (conf : Z) : Z := le_Z (bytes_at (conf + 4) 2).
Definition conf_version (conf : Z) : Z := mem (conf + 6).
Definition conf_lapicaddr (conf : Z) : Z := le_Z (bytes_at (conf + 36) 4).

Definition sum (addr : Z) (len : Z) : Z := u8 (foldl Z.add 0 (bytes_at addr (Z.to_nat len))).

(** [memcmp(p, s, 4) == 0] *)
Definition signed (p : Z) (s : list Z) : bool := bool_decide (bytes_at p 4 = s).

(** The [for] loop of [mpsearch1], which has [n] turns left. *)
Fixpoint mpsearch1_loop (n : nat) (p : Z) : option Z :=
  match n with
  | O => None
  | Datatypes.S n =>
      if signed p (str "_MP_") && (sum p sizeof_mp =? 0) then Some p
      else mpsearch1_loop n (p + sizeof_mp)
  end.

(** [len] is a multiple of [sizeof(struct mp)] in every call. *)
Definition mpsearch1 (a len : Z) : option Z := mpsearch1_loop (Z.to_nat (len / sizeof_mp)) (P2V a).

Definition mpsearch : option Z :=
  let bda := P2V 0x400 in
  let p := u32 (Z.shiftl (Z.lor (Z.shiftl (mem (bda + 0x0F)) 8) (mem (bda + 0x0E))) 4) in
  let mp :=
    if negb (p =? 0) then mpsearch1 p 1024
    else
      let p := u32 (Z.lor (Z.shiftl (mem (bda + 0x14)) 8) (mem (bda + 0x13)) * 1024) in
      mpsearch1 (u32 (p - 1024)) 1024 in
  match mp with
  | Some mp => Some mp
  | None => mpsearch1 0xF0000 0x10000
  end.

(** The configuration table and the floating pointer. *)
Definition mpconfig : option (Z * Z) :=
  match mpsearch with
  | None => None
  | Some mp =>
      if mp_physaddr mp =? 0 then None
      else
        let conf := P2V (mp_physaddr mp) in
        if negb (signed conf (str "PCMP")) then None
        else if negb (conf_version conf =? 1) && negb (conf_version conf =? 4) then None
        else if negb (sum conf (conf_length conf) =? 0) then None
        else Some (conf, mp)
  end.

Context `{Fu : Fuel} `{Hd : Hardware}.

Definition new_cpu (apicid : Z) : cpu := mkCpu apicid 0 0 false None 0 0 0 (replicate NSEGS seg_zero).

(** [if(ncpu < NCPU){ cpus[ncpu].apicid = proc->apicid; ncpu++; }] *)
Definition add_cpu (apicid : Z) : MK unit :=
  let! m := get_m in
  when (length (cpus m) <? NCPU)%nat
    (put_m (m <| cpus := cpus m ++ [new_cpu apicid] |>)).

Definition set_ioapicid (v : Z) : MK unit := upd_s (fun k => k <| k_hw := k_hw k <| hw_ioapicid := v |> |>).
Definition set_lapic (v : Z) : MK unit := upd_s (fun k => k <| k_hw := k_hw k <| hw_lapic := v |> |>).

(** A turn of the [for] loop over the entries, which end at [e], and the loop.  The [break] of the default case leaves the [switch] only, so the
    loop goes on with the same entry. *)
Definition mp_entry (e : Z) (st : Z * bool) : MK ((Z * bool) + bool) :=
  let '(p, ismp) := st in
  if negb (p <? e) then ret (inr ismp)
  else
    let type := mem p in
    if type =? MPPROC then
      add_cpu (mem (p + 1)) ;;;
      ret (inl (p + sizeof_mpproc, ismp))
    else if type =? MPIOAPIC then
      set_ioapicid (mem (p + 1)) ;;;
      ret (inl (p + sizeof_mpioapic, ismp))
    else if (type =? MPBUS) || (type =? MPIOINTR) || (type =? MPLINTR) then
      ret (inl (p + 8, ismp))
    else ret (inl (p, false)).

Definition mp_entries (p e : Z) (ismp : bool) : MK bool := loop fuel (mp_entry e) (p, ismp).

Definition mpinit : MK unit :=
  match mpconfig with
  | None => panic "Expect to run on an SMP"
  | Some (conf, mp) =>
      set_lapic (conf_lapicaddr conf) ;;;
      let! ismp := mp_entries (conf + sizeof_mpconf) (conf + conf_length conf) true in
      if negb ismp then panic "Didn't find a suitable machine"
      else
        when (negb (mp_imcrp mp =? 0))
          (outb 0x22 0x70 ;;;
           let! v := inb 0x23 in
           outb 0x23 (Z.lor v 1))
  end.

End mp_c.

(** ** Tables *)

(** An entry of the table; [rest] are the bytes that the code does not look at. *)
Inductive mpentry :=
| EProc (apicid : Z) (rest : list Z)
| EIoapic (apicno : Z) (rest : list Z)
| EOther (type : Z) (rest : list Z).

Definition entry_ok (e : mpentry) : Prop :=
  match e with
  | EProc _ rest => length rest = 18%nat
  | EIoapic _ rest => length rest = 6%nat
  | EOther ty rest => ty ∈ [MPBUS; MPIOINTR; MPLINTR] /\ length rest = 7%nat
  end.

Definition entry_bytes (e : mpentry) : list Z :=
  match e with
  | EProc id rest => MPPROC :: id :: rest
  | EIoapic id rest => MPIOAPIC :: id :: rest
  | EOther ty rest => ty :: rest
  end.
Definition table (es : list mpentry) : list Z := concat (entry_bytes <$> es).

(** The processors of the table, and its last I/O APIC. *)
Definition proc_ids (es : list mpentry) : list Z := omap (fun e => match e with EProc id _ => Some id | _ => None end) es.
Definition ioapic_id (es : list mpentry) (old : Z) : Z :=
  foldl (fun v e => match e with EIoapic id _ => id | _ => v end) old es.

Definition in_mem (mem : Z -> Z) (a : Z) (bs : list Z) : Prop :=
  forall i b, bs !! i = Some b -> mem (a + Z.of_nat i) = b.

Lemma in_mem_app mem a bs bs' :
  in_mem mem a (bs ++ bs') -> in_mem mem a bs /\ in_mem mem (a + Z.of_nat (length bs)) bs'.
Proof.
  intros H. split; intros i b Hi.
  - apply H. by apply lookup_app_l_Some.
  - replace (a + Z.of_nat (length bs) + Z.of_nat i) with (a + Z.of_nat (length bs + i)) by lia. apply H.
    rewrite lookup_app_r by lia. rewrite <- Hi. f_equal. lia.
Qed.

Lemma in_mem_rd mem a bs o n : in_mem mem a bs -> (o + n <= length bs)%nat -> bytes_at mem (a + Z.of_nat o) n = rd o n bs.
Proof.
  intros H Hl. apply list_eq. intros i. unfold bytes_at, rd. rewrite list_lookup_fmap. destruct (decide (i < n)%nat).
  - rewrite lookup_seq_lt, lookup_take_lt, lookup_drop by done. cbn [fmap option_fmap option_map Nat.add].
    destruct (lookup_lt_is_Some_2 bs (o + i)) as [b Hb]; [lia|]. rewrite Hb. f_equal. rewrite <- (H _ _ Hb). f_equal. lia.
  - rewrite lookup_seq_ge, lookup_take_ge by lia. done.
Qed.

(** The machine and the I/O APIC id after the entries. *)
Definition with_cpus (ids : list Z) (m : machine) : machine :=
  mkMachine (lapic_id m) (fl_if m) (cr3 m) (tr m) (cr2 m) (m_image m) (take NCPU (cpus m ++ (new_cpu <$> ids))) (locks m).
Definition with_ioapicid (v : Z) (k : kst) : kst := k <| k_hw := k_hw k <| hw_ioapicid := v |> |>.

Section tables.
Context (mem : Z -> Z) `{Fu : Fuel} `{Hd : Hardware}.

Lemma with_cpus_nil m : (length (cpus m) <= NCPU)%nat -> with_cpus [] m = m.
Proof. intros H. unfold with_cpus. destruct m as [a b c t r im cs l]. cbn [lapic_id fl_if cr3 tr cr2 m_image Kstate.cpus locks fmap list_fmap] in *. by rewrite app_nil_r, take_ge. Qed.

Lemma with_cpus_cons id ids m : (length (cpus m) <= NCPU)%nat ->
  with_cpus ids (with_cpus [id] m) = with_cpus (id :: ids) m /\ (length (cpus (with_cpus [id] m)) <= NCPU)%nat.
Proof.
  intros H. unfold with_cpus. destruct m as [a b c t r im cs l].
  cbn [lapic_id fl_if cr3 tr cr2 m_image Kstate.cpus locks fmap list_fmap] in *. split; [|rewrite length_take; lia].
  f_equal. destruct (decide (length cs < NCPU)%nat).
  - rewrite (take_ge (cs ++ [_])) by (rewrite length_app; cbn [length]; lia). by rewrite <- app_assoc.
  - rewrite (take_app_length' cs) by lia. rewrite !take_app_length' by lia. done.
Qed.

Lemma add_cpu_run id m co p k : (length (cpus m) <= NCPU)%nat ->
  add_cpu id (W m co p k) = Ret tt (W (with_cpus [id] m) co p k).
Proof.
  intros H. unfold add_cpu. rewrite (bind_Ret get_m _ (W m co p k) m (W m co p k) eq_refl).
  destruct m as [a b c t r im cs l]. unfold with_cpus. cbn [lapic_id fl_if cr3 tr cr2 m_image Kstate.cpus locks fmap list_fmap] in *.
  destruct (Nat.ltb_spec (length cs) NCPU).
  - rewrite take_ge by (rewrite length_app; cbn [length]; lia). done.
  - rewrite take_app_length' by lia. done.
Qed.

(** One turn, at an entry of a known type. *)
Lemma mp_entry_run e x p m co ps k :
  entry_ok x -> in_mem mem p (entry_bytes x) -> p < e -> (length (cpus m) <= NCPU)%nat ->
  mp_entry mem e (p, true) (W m co ps k) =
    Ret (inl (p + Z.of_nat (length (entry_bytes x)), true))
      (W (with_cpus (proc_ids [x]) m) co ps (with_ioapicid (ioapic_id [x] (hw_ioapicid (k_hw k))) k)).
Proof.
  intros Hok Hmem Hlt Hm. unfold mp_entry. destruct (Z.ltb_spec p e); [|lia]. cbn [negb].
  assert (Hk : with_ioapicid (hw_ioapicid (k_hw k)) k = k) by (by destruct k, k_hw).
  destruct x as [id rest|id rest|ty rest]; cbn [entry_ok entry_bytes] in *.
  1,2: pose proof (Hmem 0%nat _ eq_refl) as H0; pose proof (Hmem 1%nat _ eq_refl) as H1; rewrite Z.add_0_r in H0.
  - rewrite H0. cbn [Z.eqb MPPROC]. change (Z.of_nat 1) with 1 in H1. rewrite H1.
    rewrite (bind_Ret _ _ _ _ _ (add_cpu_run id m co ps k Hm)). cbn [proc_ids omap list_omap ioapic_id foldl].
    rewrite Hk. cbn [length]. rewrite Hok. done.
  - rewrite H0. change (MPIOAPIC =? MPPROC) with false. change (MPIOAPIC =? MPIOAPIC) with true. cbn iota.
    change (Z.of_nat 1) with 1 in H1. rewrite H1. cbn [proc_ids omap list_omap ioapic_id foldl length].
    rewrite with_cpus_nil, Hok by done. done.
  - destruct Hok as [Hty Hl]. pose proof (Hmem 0%nat _ eq_refl) as H0. rewrite Z.add_0_r in H0. rewrite H0.
    cbn [proc_ids omap list_omap ioapic_id foldl length]. rewrite with_cpus_nil, Hk, Hl by done.
    rewrite !elem_of_cons, elem_of_nil in Hty. destruct Hty as [->|[->|[->|[]]]]; done.
Qed.

Lemma mp_entries_run es : forall n p m co ps k rest,
  Forall entry_ok es -> in_mem mem p (table es) -> (length (cpus m) <= NCPU)%nat ->
  let e := p + Z.of_nat (length (table es)) in
  loop (length es + n) (mp_entry mem (e + Z.of_nat rest)) (p, true) (W m co ps k) =
  loop n (mp_entry mem (e + Z.of_nat rest)) (e, true)
    (W (with_cpus (proc_ids es) m) co ps (with_ioapicid (ioapic_id es (hw_ioapicid (k_hw k))) k)).
Proof.
  induction es as [|x es IH]; intros n p m co ps k rest Hok Hmem Hm e.
  - unfold e. cbn [table fmap list_fmap concat length Nat.add proc_ids omap list_omap ioapic_id foldl].
    rewrite with_cpus_nil by done. rewrite Z.add_0_r. do 2 f_equal. by destruct k, k_hw.
  - apply list.Forall_cons in Hok as [Hx Hok]. unfold e, table in *. cbn [fmap list_fmap concat] in *.
    apply in_mem_app in Hmem as [Hmx Hmem]. rewrite length_app, Nat2Z.inj_add. cbn [length Nat.add loop].
    assert (0 < length (entry_bytes x))%nat by (destruct x; cbn; lia).
    erewrite bind_Ret; [|eapply mp_entry_run; [exact Hx|exact Hmx|lia|exact Hm]]. rewrite Z.add_assoc.
    assert (Hm' : (length (cpus (with_cpus (proc_ids [x]) m)) <= NCPU)%nat).
    { cbn [with_cpus cpus]. rewrite length_take. lia. }
    rewrite (IH n _ _ co ps _ rest Hok Hmem Hm'). do 2 f_equal.
    destruct x; cbn [proc_ids omap list_omap]; [|by rewrite with_cpus_nil..]. by apply with_cpus_cons.
Qed.

(** A configuration table in memory: a header that [mpconfig] accepts, followed by [es] and, after them, [rest]. *)
Record conf_ok (mp conf : Z) (hdr : list Z) (es : list mpentry) (rest : list Z) : Prop := {
  co_search : mpsearch mem = Some mp;
  co_addr : mp_physaddr mem mp ≠ 0;
  co_conf : conf = P2V (mp_physaddr mem mp);
  co_mem : in_mem mem conf (hdr ++ table es ++ rest);
  co_hdr : Z.of_nat (length hdr) = sizeof_mpconf;
  co_sig : rd 0 4 hdr = str "PCMP";
  co_version : hdr !! 6%nat = Some 1 \/ hdr !! 6%nat = Some 4;
  co_length : le_Z (rd 4 2 hdr) = Z.of_nat (length (hdr ++ table es ++ rest));
  co_sum : u8 (foldl Z.add 0 (hdr ++ table es ++ rest)) = 0;
  co_entries : Forall entry_ok es;
}.

Lemma conf_ok_config mp conf hdr es rest : conf_ok mp conf hdr es rest ->
  mpconfig mem = Some (conf, mp) /\
  conf + conf_length mem conf = conf + sizeof_mpconf + Z.of_nat (length (table es)) + Z.of_nat (length rest) /\
  in_mem mem (conf + sizeof_mpconf) (table es).
Proof.
  intros [Hs Ha -> Hm Hh Hsig Hv Hl Hsum _]. set (conf := P2V (mp_physaddr mem mp)) in *. set (bs := hdr ++ table es ++ rest) in *.
  unfold sizeof_mpconf in *. assert (Hhl : (length hdr = 44)%nat) by lia.
  assert (Hrd : forall o n, (o + n <= 44)%nat -> bytes_at mem (conf + Z.of_nat o) n = rd o n hdr).
  { intros o n Hon. apply in_mem_rd; [|lia]. by apply in_mem_app in Hm as [Hm _]. }
  assert (Hlen : conf_length mem conf = Z.of_nat (length bs)).
  { unfold conf_length. change 4 with (Z.of_nat 4). rewrite Hrd by lia. done. }
  split_and!.
  - unfold mpconfig. rewrite Hs, (proj2 (Z.eqb_neq _ 0)) by done. fold conf.
    assert (signed mem conf (str "PCMP") = true) as ->.
    { unfold signed. apply bool_decide_eq_true_2. rewrite <- Hsig. rewrite <- (Hrd 0%nat 4%nat) by lia. by rewrite Z.add_0_r. }
    assert (Hver : conf_version mem conf = 1 \/ conf_version mem conf = 4).
    { unfold conf_version. change 6 with (Z.of_nat 6).
      destruct Hv as [Hv|Hv]; rewrite (Hm 6%nat _ (lookup_app_l_Some _ _ _ _ Hv)); auto. }
    assert (Hsum' : sum mem conf (conf_length mem conf) = 0).
    { unfold sum. rewrite Hlen, Nat2Z.id. replace conf with (conf + Z.of_nat 0) by lia.
      rewrite (in_mem_rd mem conf bs) by done. unfold rd. rewrite drop_0, firstn_all. exact Hsum. }
    rewrite Hsum'. cbn [negb Z.eqb]. destruct Hver as [->| ->]; done.
  - rewrite Hlen. unfold bs. rewrite !length_app. lia.
  - unfold bs in Hm. apply in_mem_app in Hm as [_ Hm]. apply in_mem_app in Hm as [Hm _]. by rewrite Hh in Hm.
Qed.

(** The state after [es], with [lapic] set. *)
Definition found (es : list mpentry) (lapic : Z) (k : kst) : kst :=
  k <| k_hw := mkHw (hw_trace (k_hw k)) lapic (ioapic_id es (hw_ioapicid (k_hw k))) |>.

(** The part of [mpinit] up to the entries [es]. *)
Lemma mpinit_prefix mp conf hdr es rest m co ps k n :
  conf_ok mp conf hdr es rest -> (length (cpus m) <= NCPU)%nat -> fuel = (length es + n)%nat ->
  let e := conf + sizeof_mpconf + Z.of_nat (length (table es)) in
  mpinit mem (W m co ps k) =
    bind (loop n (mp_entry mem (e + Z.of_nat (length rest))) (e, true)) (fun ismp =>
      if negb ismp then panic "Didn't find a suitable machine"
      else when (negb (mp_imcrp mem mp =? 0)) (outb 0x22 0x70 ;;; let! v := inb 0x23 in outb 0x23 (Z.lor v 1)))
    (W (with_cpus (proc_ids es) m) co ps (found es (conf_lapicaddr mem conf) k)).
Proof.
  intros Hc Hm Hf e. destruct (conf_ok_config _ _ _ _ _ Hc) as (Hcfg & He & Hmem). unfold mpinit. rewrite Hcfg.
  set (k1 := k <| k_hw := mkHw (hw_trace (k_hw k)) (conf_lapicaddr mem conf) (hw_ioapicid (k_hw k)) |>).
  rewrite (bind_Ret (set_lapic (conf_lapicaddr mem conf)) _ (W m co ps k) tt (W m co ps k1) eq_refl).
  unfold mp_entries. rewrite He, Hf. fold e. unfold bind.
  pose proof (mp_entries_run es n _ m co ps k1 (length rest) (co_entries _ _ _ _ _ Hc) Hmem Hm) as Hrun. fold e in Hrun.
  cbn zeta in Hrun. rewrite Hrun. done.
Qed.

End tables.

(** C34.  On a machine whose configuration table has a correct checksum and entries of the known types, [mpinit] finds exactly the
    processors of the table, in its order and at most [NCPU] with those known before, the address of the local APIC
    and the id of the last I/O APIC, and accesses the hardware only when the table asks for it. *)
Theorem mpinit_spec (mem : Z -> Z) `{Fu : Fuel} `{Hd : Hardware} mp conf hdr es m co ps k :
  conf_ok mem mp conf hdr es [] -> (length (cpus m) <= NCPU)%nat -> (length es < fuel)%nat ->
  exists evs, mpinit mem (W m co ps k) =
      Ret tt (W (with_cpus (proc_ids es) m) co ps (hw_log evs (found es (conf_lapicaddr mem conf) k))) /\
    (mp_imcrp mem mp = 0 -> evs = []).
Proof.
  intros Hc Hm Hf. rewrite (mpinit_prefix mem mp conf hdr es [] m co ps k (fuel - length es)) by (done || lia).
  destruct (fuel - length es)%nat as [|n] eqn:E; [lia|]. cbn [length loop mp_entry]. rewrite Z.add_0_r, Z.ltb_irrefl. cbn [negb].
  set (w := W _ _ _ _). erewrite (bind_Ret _ _ w true w); [|reflexivity]. cbn [negb].
  destruct (Z.eqb_spec (mp_imcrp mem mp) 0) as [H0|H0]; cbn [negb when].
  - exists []. rewrite hw_log_nil. done.
  - unfold w. rewrite (bind_Ret _ _ _ _ _ (outb_run _ _ _ _ _ _)).
    rewrite (bind_Ret _ _ _ _ _ (inb_run _ _ _ _ _)), outb_run, !hw_log_app. eexists. split; [reflexivity|done].
Qed.

(** At an entry of a type that mp.h does not list, [mpinit] never returns, and does not reach the panic that the code has for
    this case: the [break] of the [default] case leaves only the [switch]. *)
Theorem mpinit_unknown_entry_hangs (mem : Z -> Z) `{Hd : Hardware} mp conf hdr es ty rest m co ps k :
  conf_ok mem mp conf hdr es (ty :: rest) -> (length (cpus m) <= NCPU)%nat -> 5 <= ty ->
  forall n, exists w, mpinit mem (Fu := (length es + n)%nat) (W m co ps k) = Hang w.
Proof.
  intros Hc Hm Hty n. rewrite (mpinit_prefix mem (Fu := (length es + n)%nat) mp conf hdr es (ty :: rest) m co ps k n) by done.
  set (e := conf + sizeof_mpconf + Z.of_nat (length (table es))). set (w := W _ _ _ _).
  assert (Hmem : mem e = ty).
  { pose proof (co_mem _ _ _ _ _ _ Hc) as Hin. apply in_mem_app in Hin as [_ Hin]. apply in_mem_app in Hin as [_ Hin].
    rewrite (co_hdr _ _ _ _ _ _ Hc) in Hin. specialize (Hin 0%nat ty eq_refl). rewrite Z.add_0_r in Hin. exact Hin. }
  assert (Hloop : forall b, loop n (mp_entry mem (e + Z.of_nat (length (ty :: rest)))) (e, b) w = Hang w).
  { induction n as [|n IH]; intros b; [done|]. cbn [loop]. rewrite (bind_Ret _ _ w (inl (e, false)) w); [apply IH|].
    unfold mp_entry. destruct (Z.ltb_spec e (e + Z.of_nat (length (ty :: rest)))); [|cbn [length] in *; lia]. cbn [negb].
    rewrite Hmem. unfold MPPROC, MPIOAPIC, MPBUS, MPIOINTR, MPLINTR. rewrite !(proj2 (Z.eqb_neq ty _)) by lia. done. }
  exists w. unfold bind. rewrite Hloop. done.
Qed.

(** A machine with two processors, a bus and an I/O APIC: the floating pointer in the extended BIOS data area, and the
    table at 0xE0000. *)
Definition ex_entries : list mpentry :=
  [EProc 0 (replicate 18 0); EProc 1 (replicate 18 0); EOther MPBUS (replicate 7 0); EIoapic 2 (replicate 6 0)].
Definition ex_bytes (len ck : Z) : list Z :=
  str "PCMP" ++ [len; 0; 4; ck] ++ replicate 28 0 ++ [0; 0; 0xE0; 0xFE] ++ replicate 4 0.
Definition ex_mp : list Z := str "_MP_" ++ [0; 0; 0x0E; 0; 1; 4; 0x92; 0; 0; 0; 0; 0].
Definition ex_mem (tbl : list Z) (a : Z) : Z :=
  if (P2V 0x9FC00 <=? a) && (a <? P2V 0x9FC00 + 16) then default 0 (ex_mp !! Z.to_nat (a - P2V 0x9FC00))
  else if P2V 0xE0000 <=? a then default 0 (tbl !! Z.to_nat (a - P2V 0xE0000))
  else if a =? P2V 0x400 + 0x0F then 0x9F else if a =? P2V 0x400 + 0x0E then 0xC0 else 0.

Lemma ex_conf_ok ck es rest :
  let tbl := ex_bytes (44 + Z.of_nat (length (table es ++ rest))) ck ++ table es ++ rest in
  mpsearch (ex_mem tbl) = Some (P2V 0x9FC00) -> mp_physaddr (ex_mem tbl) (P2V 0x9FC00) = 0xE0000 ->
  Forall entry_ok es -> u8 (foldl Z.add 0 tbl) = 0 ->
  conf_ok (ex_mem tbl) (P2V 0x9FC00) (P2V 0xE0000) (ex_bytes (44 + Z.of_nat (length (table es ++ rest))) ck) es rest.
Proof.
  intros tbl Hs Hp He Hsum. split; [done|by rewrite Hp|by rewrite Hp| |done|done|by right| |done|done].
  - fold tbl. intros i b Hi. unfold ex_mem.
    destruct (Z.ltb_spec (P2V 0xE0000 + Z.of_nat i) (P2V 0x9FC00 + 16)) as [Hlt|]; 
      [change (P2V 0xE0000) with 0x800E0000 in Hlt; change (P2V 0x9FC00) with 0x8009FC00 in Hlt; lia|]. rewrite andb_false_r.
    destruct (Z.leb_spec (P2V 0xE0000) (P2V 0xE0000 + Z.of_nat i)); [|lia].
    replace (Z.to_nat (P2V 0xE0000 + Z.of_nat i - P2V 0xE0000)) with i by lia. by rewrite Hi.
  - rewrite (length_app (ex_bytes _ _)). cbn [length ex_bytes app str]. cbn [rd drop take le_Z]. rewrite Nat2Z.inj_add. cbn. lia.
Qed.

Lemma mpinit_spec_witness :
  exists evs,
    mpinit (ex_mem (ex_bytes 100 0x84 ++ table ex_entries)) (Fu := 5%nat) (Hd := ex_hardware)
      (W (ex_machine <| cpus := [] |>) ex_console ex_procs0 kst0) =
    Ret tt (W (with_cpus [0; 1] (ex_machine <| cpus := [] |>)) ex_console ex_procs0 (hw_log evs (found ex_entries 0xFEE00000 kst0))).
Proof.
  destruct (mpinit_spec (ex_mem (ex_bytes 100 0x84 ++ table ex_entries)) (Fu := 5%nat) (Hd := ex_hardware) (P2V 0x9FC00) (P2V 0xE0000)
    (ex_bytes 100 0x84) ex_entries (ex_machine <| cpus := [] |>) ex_console ex_procs0 kst0) as (evs & Hrun & _).
  - apply (ex_conf_ok 0x84 ex_entries []); [reflexivity|reflexivity| |reflexivity].
    repeat constructor; by vm_compute.
  - cbn; lia.
  - cbv. lia.
  - exists evs. exact Hrun.
Defined.

Lemma mpinit_unknown_entry_hangs_witness :
  exists w, mpinit (ex_mem (ex_bytes 65 0xA4 ++ table [EProc 0 (replicate 18 0)] ++ [9])) (Fu := 101%nat) (Hd := ex_hardware)
    (W (ex_machine <| cpus := [] |>) ex_console ex_procs0 kst0) = Hang w.
Proof.
  apply (mpinit_unknown_entry_hangs (ex_mem (ex_bytes 65 0xA4 ++ table [EProc 0 (replicate 18 0)] ++ [9])) (Hd := ex_hardware)
    (P2V 0x9FC00) (P2V 0xE0000) (ex_bytes 65 0xA4) [EProc 0 (replicate 18 0)] 9 [] (ex_machine <| cpus := [] |>) ex_console ex_procs0 kst0)
    with (n := 100%nat).
  - apply (ex_conf_ok 0xA4 [EProc 0 (replicate 18 0)] [9]); [reflexivity|reflexivity| |reflexivity].
    repeat constructor.
  - cbn; lia.
  - lia.
Defined.
