(* ===== verification/Desc.v ===== *)
(** * Segment and gate descriptors (mmu.h, asm.h, seginit of vm.c, tvinit of trap.c)

    The descriptors as the C bit-fields lay them out in eight bytes (segments in [Kstate], gates here), and the functions by which the processor reads
    them (base, limit, privilege level and type of a segment; entry point and privilege level of a gate).  The theorems
    show that the processor reads what SEG, SEG16 and SETGATE were given, that the segments of [seginit] are flat, and that
    [tvinit] leaves the system call as the only gate that user code can call. *)

From S2P Require Import Prelude Kstate Kdata Hw.
From stdpp Require Import list.
Open Scope Z_scope.

(** ** Bit-fields *)

(** The [w] bits of [x] from bit [lo] on. *)
Definition bits (lo w x : Z) : Z := x / 2 ^ lo mod 2 ^ w.

(** ** mmu.h *)

Record gatedesc := mkGate {
  off_15_0 : Z; gd_cs : Z; gd_args : Z; gd_rsv1 : Z; gd_type : Z; gd_s : Z; gd_dpl : Z; gd_p : Z; off_31_16 : Z;
}.
Definition gate_zero : gatedesc := mkGate 0 0 0 0 0 0 0 0 0.
Definition gate_word (g : gatedesc) : Z :=
  pack [(16, off_15_0 g); (16, gd_cs g); (5, gd_args g); (3, gd_rsv1 g); (4, gd_type g); (1, gd_s g); (2, gd_dpl g);
        (1, gd_p g); (16, off_31_16 g)].

Definition SETGATE (istrap : bool) (sel off d : Z) : gatedesc :=
  mkGate (Z.land (u32 off) 0xffff) sel 0 0 (if istrap then STS_TG32 else STS_IG32) 0 d 1 (Z.shiftr (u32 off) 16).

(** ** asm.h *)

(** [SEG_ASM] of the boot loader's table: two words and four bytes. *)
Definition SEG_ASM (type base lim : Z) : list Z :=
  le_bytes 2 (Z.land (Z.shiftr lim 12) 0xffff) ++ le_bytes 2 (Z.land base 0xffff) ++
  [Z.land (Z.shiftr base 16) 0xff; Z.lor 0x90 type; Z.lor 0xC0 (Z.land (Z.shiftr lim 28) 0xf); Z.land (Z.shiftr base 24) 0xff].

(** ** seginit, switchuvm and tvinit *)

(** The table of the CPU after [seginit]. *)
Definition seginit (gdt : list segdesc) : list segdesc :=
  let gdt := <[Z.to_nat SEG_KCODE := SEG (Z.lor STA_X STA_R) 0 0xffffffff 0]> gdt in
  let gdt := <[Z.to_nat SEG_KDATA := SEG STA_W 0 0xffffffff 0]> gdt in
  let gdt := <[Z.to_nat SEG_UCODE := SEG (Z.lor STA_X STA_R) 0 0xffffffff DPL_USER]> gdt in
  <[Z.to_nat SEG_UDATA := SEG STA_W 0 0xffffffff DPL_USER]> gdt.

(** The table [idt] after [tvinit]; [vectors] are the entry points of vectors.S. *)
Definition tvinit_idt (vectors : Z -> Z) (idt : list gatedesc) : list gatedesc :=
  let idt := foldl (fun idt i => <[i := SETGATE false (Z.shiftl SEG_KCODE 3) (vectors (Z.of_nat i)) 0]> idt) idt (seq 0 256) in
  <[Z.to_nat T_SYSCALL := SETGATE true (Z.shiftl SEG_KCODE 3) (vectors T_SYSCALL) DPL_USER]> idt.

(** ** How the processor reads them *)

Definition seg_base (x : Z) : Z := bits 16 16 x + 2 ^ 16 * bits 32 8 x + 2 ^ 24 * bits 56 8 x.
(** The last offset in the segment; the limit counts pages when the granularity bit is set. *)
Definition seg_limit (x : Z) : Z :=
  let l := bits 0 16 x + 2 ^ 16 * bits 48 4 x in
  if bits 55 1 x =? 1 then 4096 * l + 4095 else l.
Definition seg_type (x : Z) : Z := bits 40 4 x.
Definition seg_app (x : Z) : bool := bits 44 1 x =? 1.
Definition seg_dpl (x : Z) : Z := bits 45 2 x.
Definition seg_present (x : Z) : bool := bits 47 1 x =? 1.

Definition gate_offset (x : Z) : Z := bits 0 16 x + 2 ^ 16 * bits 48 16 x.
Definition gate_cs (x : Z) : Z := bits 16 16 x.
Definition gate_type (x : Z) : Z := bits 40 4 x.
Definition gate_dpl (x : Z) : Z := bits 45 2 x.
Definition gate_present (x : Z) : bool := bits 47 1 x =? 1.

(** Code at privilege level [cpl] may go through the gate with an [int] instruction. *)
Definition callable (cpl : Z) (x : Z) : bool := gate_present x && (cpl <=? gate_dpl x).
(** Entering through it turns interrupts off. *)
Definition clears_if (x : Z) : bool := gate_type x =? STS_IG32.

(** ** Reading a field *)

Definition width (fs : list (Z * Z)) : Z := foldr (fun f n => f.1 + n) 0 fs.

Lemma width_nonneg fs : Forall (fun f => 0 <= f.1) fs -> 0 <= width fs.
Proof. induction 1 as [|f fs Hf _ IH]; cbn [width foldr]; [lia|]. fold (width fs). lia. Qed.

Lemma pack_bound fs : Forall (fun f => 0 <= f.1) fs -> 0 <= pack fs < 2 ^ width fs.
Proof.
  induction 1 as [|[w v] fs Hw Hfs IH]; cbn [pack width foldr fst snd] in *; [done|]. fold (pack fs) (width fs) in *.
  pose proof (width_nonneg fs Hfs). rewrite Z.pow_add_r by lia. pose proof (Z.mod_pos_bound v (2 ^ w) ltac:(apply Z.pow_pos_nonneg; lia)).
  nia.
Qed.

Lemma pack_app a b : Forall (fun f => 0 <= f.1) a -> pack (a ++ b) = pack a + 2 ^ width a * pack b.
Proof.
  induction 1 as [|[w v] a Hw Ha IH]; [change (pack b = 0 + 1 * pack b); lia|].
  change (v mod 2 ^ w + 2 ^ w * pack (a ++ b) = v mod 2 ^ w + 2 ^ w * pack a + 2 ^ (w + width a) * pack b).
  cbn [fst] in Hw. pose proof (width_nonneg a Ha). rewrite IH, Z.pow_add_r by lia. ring.
Qed.

Lemma pack_bits a w v b lo : Forall (fun f => 0 <= f.1) a -> 0 <= w -> width a = lo -> bits lo w (pack (a ++ (w, v) :: b)) = v mod 2 ^ w.
Proof.
  intros Ha Hw <-. pose proof (pack_bound a Ha) as Hb. pose proof (width_nonneg a Ha). unfold bits. rewrite pack_app by done.
  rewrite Z.mul_comm, Z.div_add, Z.div_small by lia. cbn [pack foldr fst snd]. fold (pack b).
  rewrite Z.add_0_l, (Z.mul_comm (2 ^ w)), Z.mod_add, Z.mod_mod by lia. done.
Qed.

Lemma pack_bits_at fs i w v lo :
  Forall (fun f => 0 <= f.1) fs -> fs !! i = Some (w, v) -> width (take i fs) = lo -> bits lo w (pack fs) = v mod 2 ^ w.
Proof.
  intros Hfs Hi Hlo. rewrite <- (take_drop_middle fs i (w, v) Hi). pose proof (Forall_lookup_1 _ _ _ _ Hfs Hi) as Hw.
  apply pack_bits; [by apply Forall_take|exact Hw|exact Hlo].
Qed.

Ltac field_at i := apply (pack_bits_at _ i); [repeat constructor; cbn; lia|reflexivity|reflexivity].

Lemma seg_fields d : let x := seg_word d in
  bits 0 16 x = lim_15_0 d mod 2 ^ 16 /\ bits 16 16 x = base_15_0 d mod 2 ^ 16 /\ bits 32 8 x = base_23_16 d mod 2 ^ 8 /\
  bits 40 4 x = sd_type d mod 2 ^ 4 /\ bits 44 1 x = sd_s d mod 2 ^ 1 /\ bits 45 2 x = sd_dpl d mod 2 ^ 2 /\
  bits 47 1 x = sd_p d mod 2 ^ 1 /\ bits 48 4 x = lim_19_16 d mod 2 ^ 4 /\ bits 55 1 x = sd_g d mod 2 ^ 1 /\
  bits 56 8 x = base_31_24 d mod 2 ^ 8.
Proof.
  cbn zeta. unfold seg_word. split_and!;
    [field_at 0%nat|field_at 1%nat|field_at 2%nat|field_at 3%nat|field_at 4%nat|field_at 5%nat|field_at 6%nat|field_at 7%nat|field_at 11%nat|field_at 12%nat].
Qed.

Lemma gate_fields g : let x := gate_word g in
  bits 0 16 x = off_15_0 g mod 2 ^ 16 /\ bits 16 16 x = gd_cs g mod 2 ^ 16 /\ bits 40 4 x = gd_type g mod 2 ^ 4 /\
  bits 45 2 x = gd_dpl g mod 2 ^ 2 /\ bits 47 1 x = gd_p g mod 2 ^ 1 /\ bits 48 16 x = off_31_16 g mod 2 ^ 16.
Proof.
  cbn zeta. unfold gate_word.
  split_and!; [field_at 0%nat|field_at 1%nat|field_at 4%nat|field_at 6%nat|field_at 7%nat|field_at 8%nat].
Qed.

(** The parts of a 32-bit address. *)
Lemma addr_parts a : is_u32 a ->
  Z.land (u32 a) 0xffff mod 2 ^ 16 + 2 ^ 16 * (Z.land (Z.shiftr (u32 a) 16) 0xff mod 2 ^ 8) + 2 ^ 24 * (Z.shiftr (u32 a) 24 mod 2 ^ 8) = a.
Proof.
  intros Ha. rewrite u32_id by done. unfold is_u32 in Ha. change 0xffff with (Z.ones 16). change 0xff with (Z.ones 8).
  rewrite !Z.land_ones, !Z.mod_mod, !Z.shiftr_div_pow2 by lia. change (2 ^ 16) with 65536. change (2 ^ 8) with 256. change (2 ^ 24) with 16777216.
  Z.to_euclidean_division_equations. lia.
Qed.

Lemma seg_base_parts d a : is_u32 a -> base_15_0 d = Z.land (u32 a) 0xffff -> base_23_16 d = Z.land (Z.shiftr (u32 a) 16) 0xff ->
  base_31_24 d = Z.shiftr (u32 a) 24 -> seg_base (seg_word d) = a.
Proof.
  intros Ha H1 H2 H3. destruct (seg_fields d) as (_ & F1 & F2 & _ & _ & _ & _ & _ & _ & F3). unfold seg_base.
  rewrite F1, F2, F3, H1, H2, H3. by apply addr_parts.
Qed.

(** SEG: the limit is cut to pages. *)
Lemma SEG_read type base lim dpl : 0 <= type < 16 -> is_u32 base -> is_u32 lim -> 0 <= dpl < 4 ->
  let x := seg_word (SEG type base lim dpl) in
  seg_base x = base /\ seg_limit x = lim / 4096 * 4096 + 4095 /\ seg_type x = type /\ seg_app x = true /\ seg_dpl x = dpl /\ seg_present x = true.
Proof.
  intros Ht Hb Hl Hd x. destruct (seg_fields (SEG type base lim dpl)) as (F0 & _ & _ & F3 & F4 & F5 & F6 & F7 & F8 & _).
  split; [by apply seg_base_parts|]. unfold seg_limit, seg_type, seg_app, seg_dpl, seg_present. fold x in F0, F3, F4, F5, F6, F7, F8.
  rewrite F0, F3, F4, F5, F6, F7, F8. cbn [SEG lim_15_0 lim_19_16 sd_type sd_s sd_dpl sd_p sd_g].
  split; [|split_and!; [apply Z.mod_small; lia|done|apply Z.mod_small; lia|done]]. change (1 mod 2 ^ 1 =? 1) with true. cbn match.
  rewrite u32_id by done. unfold is_u32 in Hl. change 0xffff with (Z.ones 16). rewrite Z.land_ones, Z.mod_mod, !Z.shiftr_div_pow2 by lia.
  change (2 ^ 16) with 65536. change (2 ^ 12) with 4096. change (2 ^ 28) with 268435456. change (2 ^ 4) with 16.
  Z.to_euclidean_division_equations. lia.
Qed.

(** SEG16: the limit counts bytes. *)
Lemma SEG16_read type base lim dpl : 0 <= type < 16 -> is_u32 base -> 0 <= lim < 2 ^ 20 -> 0 <= dpl < 4 ->
  let x := seg_word (SEG16 type base lim dpl) in
  seg_base x = base /\ seg_limit x = lim /\ seg_type x = type /\ seg_dpl x = dpl /\ seg_present x = true.
Proof.
  intros Ht Hb Hl Hd x. destruct (seg_fields (SEG16 type base lim dpl)) as (F0 & _ & _ & F3 & _ & F5 & F6 & F7 & F8 & _).
  split; [by apply seg_base_parts|]. unfold seg_limit, seg_type, seg_dpl, seg_present. fold x in F0, F3, F5, F6, F7, F8.
  rewrite F0, F3, F5, F6, F7, F8. cbn [SEG16 lim_15_0 lim_19_16 sd_type sd_dpl sd_p sd_g].
  split; [|split_and!; [apply Z.mod_small; lia|apply Z.mod_small; lia|done]]. change (0 mod 2 ^ 1 =? 1) with false. cbn match.
  rewrite u32_id by (unfold is_u32; lia). change 0xffff with (Z.ones 16). rewrite Z.land_ones, Z.mod_mod, Z.shiftr_div_pow2 by lia.
  change (2 ^ 16) with 65536 in *. change (2 ^ 4) with 16. change (2 ^ 20) with 1048576 in Hl. Z.to_euclidean_division_equations. lia.
Qed.

Lemma SETGATE_read istrap sel off d : 0 <= sel < 2 ^ 16 -> is_u32 off -> 0 <= d < 4 ->
  let x := gate_word (SETGATE istrap sel off d) in
  gate_offset x = off /\ gate_cs x = sel /\ clears_if x = negb istrap /\ forall cpl, callable cpl x = (cpl <=? d).
Proof.
  intros Hs Ho Hd x. destruct (gate_fields (SETGATE istrap sel off d)) as (F0 & F1 & F2 & F3 & F4 & F5).
  fold x in F0, F1, F2, F3, F4, F5. unfold gate_offset, gate_cs, clears_if, callable, gate_type, gate_dpl, gate_present.
  rewrite F0, F1, F2, F3, F4, F5. cbn [SETGATE off_15_0 gd_cs gd_type gd_dpl gd_p off_31_16]. split_and!.
  - rewrite u32_id by done. unfold is_u32 in Ho. change 0xffff with (Z.ones 16). rewrite Z.land_ones, Z.mod_mod, Z.shiftr_div_pow2 by lia.
    change (2 ^ 16) with 65536. Z.to_euclidean_division_equations. lia.
  - apply Z.mod_small. lia.
  - by destruct istrap.
  - intros cpl. rewrite (Z.mod_small d) by lia. done.
Qed.

(** ** The tables *)

Lemma fill_lookup {A} (f : nat -> A) (l : list A) n i : (n <= length l)%nat -> (i < n)%nat ->
  foldl (fun l i => <[i := f i]> l) l (seq 0 n) !! i = Some (f i) /\ length (foldl (fun l i => <[i := f i]> l) l (seq 0 n)) = length l.
Proof.
  intros Hl Hi. induction n as [|n IH]; [lia|]. rewrite seq_S, foldl_app. cbn [foldl Nat.add].
  assert (Hlen : length (foldl (fun l i => <[i := f i]> l) l (seq 0 n)) = length l).
  { clear. revert l. generalize 0%nat. induction n as [|n IH]; intros k l; [done|]. cbn [seq foldl]. by rewrite IH, length_insert. }
  split; [|by rewrite length_insert]. destruct (decide (i = n)) as [->|Hne].
  - apply list_lookup_insert_eq. lia.
  - rewrite list_lookup_insert_ne by done. apply IH; lia.
Qed.

Lemma tvinit_lookup vectors idt i : length idt = 256%nat -> (i < 256)%nat ->
  tvinit_idt vectors idt !! i =
    Some (if decide (i = 64)%nat then SETGATE true 8 (vectors 64) DPL_USER else SETGATE false 8 (vectors (Z.of_nat i)) 0).
Proof.
  intros Hl Hi. unfold tvinit_idt. change (Z.to_nat T_SYSCALL) with 64%nat. change (Z.shiftl SEG_KCODE 3) with 8.
  destruct (fill_lookup (fun i => SETGATE false 8 (vectors (Z.of_nat i)) 0) idt 256 i ltac:(lia) Hi) as [Hf Hlen]. case_decide as Hd.
  - subst i. apply list_lookup_insert_eq. lia.
  - rewrite list_lookup_insert_ne by done. exact Hf.
Qed.

Lemma seginit_lookup gdt : length gdt = NSEGS ->
  seginit gdt !! 1%nat = Some (SEG 10 0 0xffffffff 0) /\ seginit gdt !! 2%nat = Some (SEG 2 0 0xffffffff 0) /\
  seginit gdt !! 3%nat = Some (SEG 10 0 0xffffffff 3) /\ seginit gdt !! 4%nat = Some (SEG 2 0 0xffffffff 3).
Proof. intros Hl. do 7 (destruct gdt as [|? gdt]; try discriminate Hl). done. Qed.

(** C37.  What the processor finds in the tables.  The four segments of [seginit] cover the whole address space, at privilege level 0 for the
    kernel's and 3 for the user's, and only the code segments are executable; the task state segment of [switchuvm] is
    at its address and ends at its last byte, so the I/O map at 0xFFFF is outside.  Every gate of [tvinit] enters the kernel's code segment
    at its vector; user code can call the system call gate and no other; and the system call is the only entry that
    leaves interrupts on. *)
Theorem descriptors_spec vectors gdt idt ts :
  (forall i, 0 <= i < 256 -> is_u32 (vectors i)) -> length gdt = NSEGS -> length idt = 256%nat -> is_u32 ts ->
  (forall i, (1 <= i <= 4)%nat -> exists d, seginit gdt !! i = Some d /\ let x := seg_word d in
     seg_present x = true /\ seg_base x = 0 /\ seg_limit x = 2 ^ 32 - 1 /\ seg_dpl x = (if decide (i <= 2)%nat then 0 else 3) /\
     Z.testbit (seg_type x) 3 = bool_decide (i = 1 \/ i = 3)%nat) /\
  (let x := seg_word (tss_desc ts) in
   seg_base x = ts /\ seg_limit x = sizeof_taskstate - 1 /\ seg_limit x < 0xFFFF /\ seg_type x = STS_T32A /\ seg_app x = false) /\
  (forall i, (i < 256)%nat -> exists g, tvinit_idt vectors idt !! i = Some g /\ let x := gate_word g in
     gate_offset x = vectors (Z.of_nat i) /\ gate_cs x = Z.shiftl SEG_KCODE 3 /\ callable 0 x = true /\
     callable DPL_USER x = bool_decide (Z.of_nat i = T_SYSCALL) /\ clears_if x = bool_decide (Z.of_nat i ≠ T_SYSCALL)).
Proof.
  intros Hvec Hgdt Hidt Hts. split_and!.
  - intros i Hi. destruct (seginit_lookup gdt Hgdt) as (H1 & H2 & H3 & H4).
    assert (Hflat : forall type dpl, 0 <= type < 16 -> 0 <= dpl < 4 -> let x := seg_word (SEG type 0 0xffffffff dpl) in
      seg_present x = true /\ seg_base x = 0 /\ seg_limit x = 2 ^ 32 - 1 /\ seg_dpl x = dpl /\ seg_type x = type).
    { intros type dpl Ht Hd. destruct (SEG_read type 0 0xffffffff dpl Ht) as (? & Hl & ? & _ & ? & ?); [unfold is_u32; lia..|done|]. by split_and!. }
    assert (i = 1 \/ i = 2 \/ i = 3 \/ i = 4)%nat as [->|[->|[->| ->]]] by lia; (eexists; split; [eassumption|]).
    all: match goal with |- context [SEG ?t _ _ ?d] => destruct (Hflat t d) as (F1 & F2 & F3 & F4 & F5); [lia|lia|] end.
    all: cbn zeta; rewrite F1, F2, F3, F4, F5; split_and!; reflexivity.
  - change sizeof_taskstate with 104 in *. destruct (SEG16_read STS_T32A ts (104 - 1) 0) as (F1 & F2 & F3 & _); [by vm_compute|done|by vm_compute|lia|].
    destruct (seg_fields (tss_desc ts)) as (G0 & G1 & G2 & G3 & G4 & _ & _ & G7 & G8 & G9).
    destruct (seg_fields (SEG16 STS_T32A ts (104 - 1) 0)) as (K0 & K1 & K2 & K3 & _ & _ & _ & K7 & K8 & K9).
    unfold seg_base, seg_limit, seg_type, seg_app in *. cbn zeta in *. rewrite G0, G1, G2, G3, G4, G7, G8, G9.
    rewrite K0, K7, K8 in F2. rewrite K1, K2, K9 in F1. rewrite K3 in F3. split_and!; [exact F1|exact F2| |exact F3|done].
    change (lim_15_0 (tss_desc ts)) with (lim_15_0 (SEG16 STS_T32A ts (104 - 1) 0)).
    change (lim_19_16 (tss_desc ts)) with (lim_19_16 (SEG16 STS_T32A ts (104 - 1) 0)).
    change (sd_g (tss_desc ts)) with (sd_g (SEG16 STS_T32A ts (104 - 1) 0)). rewrite F2. done.
  - intros i Hi. rewrite (tvinit_lookup vectors idt i Hidt Hi). eexists. split; [done|]. case_decide as Hd.
    + subst i. destruct (SETGATE_read true 8 (vectors 64) DPL_USER) as (F1 & F2 & F3 & F4); [lia|apply Hvec; lia|by vm_compute|].
      cbn zeta. rewrite F1, F2, F3, !F4. done.
    + destruct (SETGATE_read false 8 (vectors (Z.of_nat i)) 0) as (F1 & F2 & F3 & F4); [lia|apply Hvec; lia|lia|].
      cbn zeta. rewrite F1, F2, F3, !F4. unfold T_SYSCALL. rewrite bool_decide_eq_false_2, bool_decide_eq_true_2 by lia. done.
Qed.

(** The segments of the boot loader's table are those of [seginit], byte for byte. *)
Lemma boot_segments :
  le_bytes 8 (seg_word (SEG (Z.lor STA_X STA_R) 0 0xffffffff 0)) = SEG_ASM (Z.lor STA_X STA_R) 0 0xffffffff /\
  le_bytes 8 (seg_word (SEG STA_W 0 0xffffffff 0)) = SEG_ASM STA_W 0 0xffffffff.
Proof. split; vm_compute; reflexivity. Qed.

Lemma descriptors_spec_witness :
  exists g, tvinit_idt (fun i => 0x80106000 + 10 * i) (replicate 256 gate_zero) !! 64%nat = Some g /\
    callable DPL_USER (gate_word g) = true.
Proof.
  destruct (descriptors_spec (fun i => 0x80106000 + 10 * i) (replicate NSEGS (SEG 0 0 0 0)) (replicate 256 gate_zero) 0x80112000) as (_ & _ & Hg).
  - intros i Hi. unfold is_u32. lia.
  - reflexivity.
  - reflexivity.
  - unfold is_u32. lia.
  - destruct (Hg 64%nat ltac:(lia)) as (g & Hl & _ & _ & _ & Hc & _). exists g. exact (conj Hl Hc).
Defined.
