(* ===== verification/Kalloc.v ===== *)
(** * The page allocator (kalloc.c)

    The free list runs through the free pages themselves: the first word of a
    free page is the address of the next.  [free_pages] reads it as a list of
    distinct pages; the theorems show the allocator is a stack of pages. *)

From S2P Require Import Prelude Kstate Spinlock Cprintf Proc Kdata Sleeplock.
From stdpp Require Import gmap strings list fin_maps.
Open Scope Z_scope.

(** The linker symbol [end], the first address after the kernel. *)
Class Linker := kend : Z.

Section kalloc_c.
Context `{Lk : Linker}.

(** Reading and writing words and pages of memory. *)
Definition page_at (a : Z) : MK (list Z) := let! k := get_s in deref (k_mem k !! a).
Definition set_page (a : Z) (bs : list Z) : MK unit :=
  upd_s (fun k => k <| k_mem := <[a := bs]> (k_mem k) |>).

Definition bad_page (v : Z) : bool :=
  negb (v mod PGSIZE =? 0) || (v <? kend) || (PHYSTOP <=? V2P v).

Definition kfree (v : Z) : MK unit :=
  if bad_page v then panic "kfree"
  else
    set_page v (replicate (Z.to_nat PGSIZE) 1) ;;;
    let! k := get_s in
    when (k_use_lock k) (acquire Lkmem) ;;;
    let! k := get_s in
    let! r := page_at v in
    set_page v (put32 0 (k_freelist k) r) ;;;
    upd_s (fun k => k <| k_freelist := v |>) ;;;
    let! k := get_s in
    when (k_use_lock k) (release Lkmem).

Definition kalloc : MK Z :=
  let! k := get_s in
  when (k_use_lock k) (acquire Lkmem) ;;;
  let! k := get_s in
  let r := k_freelist k in
  when (negb (r =? 0))
    (let! pg := page_at r in
     upd_s (fun k => k <| k_freelist := get32 0 pg |>)) ;;;
  let! k := get_s in
  when (k_use_lock k) (release Lkmem) ;;;
  ret r.

(** [for(; p + PGSIZE <= vend; p += PGSIZE) kfree(p);]; a 32-bit address space has
    fewer than 2^20 pages. *)
Definition freerange_loop (n : nat) (vend p : Z) : MK unit :=
  loop n (fun p =>
    if u32 (p + PGSIZE) <=? vend then kfree p ;;; ret (inl (u32 (p + PGSIZE)))
    else ret (inr tt)) p.

Definition freerange (vstart vend : Z) : MK unit :=
  freerange_loop (Z.to_nat (vend / PGSIZE) + 1) vend (PGROUNDUP vstart).

Definition kinit1 (vstart vend : Z) : MK unit :=
  initlock Lkmem "kmem" ;;;
  upd_s (fun k => k <| k_use_lock := false |>) ;;;
  freerange vstart vend.

Definition kinit2 (vstart vend : Z) : MK unit :=
  freerange vstart vend ;;;
  upd_s (fun k => k <| k_use_lock := true |>).

End kalloc_c.

(** ** The free list as a list of pages *)

Section spec.
Context `{Lk : Linker}.
Hypothesis kend_pos : 0 < kend.

Definition valid_page (a : Z) : Prop :=
  a mod PGSIZE = 0 /\ kend <= a < KERNBASE + PHYSTOP /\ KERNBASE <= a.

(** [chain mem a l]: following the next words from [a] visits the pages [l] and
    ends at the null pointer. *)
Fixpoint chain (mem : gmap Z (list Z)) (a : Z) (l : list Z) : Prop :=
  match l with
  | [] => a = 0
  | b :: l => a = b /\ exists pg, mem !! b = Some pg /\ length pg = Z.to_nat PGSIZE /\
                chain mem (get32 0 pg) l
  end.

Definition free_pages (k : kst) (l : list Z) : Prop :=
  chain (k_mem k) (k_freelist k) l /\ NoDup l /\ Forall valid_page l.

Lemma valid_page_bad a : valid_page a -> bad_page a = false.
Proof.
  unfold valid_page, bad_page, V2P, PHYSTOP, KERNBASE. intros (Hm & Hr & Hk).
  rewrite Hm, (u32_id (a - 2147483648)) by (unfold is_u32; lia). cbn.
  destruct (Z.ltb_spec a kend), (Z.leb_spec 234881024 (a - 2147483648)); cbn; lia.
Qed.

Lemma valid_page_u32 a : valid_page a -> is_u32 a /\ 0 < a.
Proof. unfold valid_page, is_u32, PHYSTOP, KERNBASE. lia. Qed.

Lemma chain_insert mem a l b pg : b ∉ l -> chain mem a l -> chain (<[b := pg]> mem) a l.
Proof.
  revert a; induction l as [|c l IH]; intros a Hni; cbn; [done|].
  intros (-> & pg' & Hpg & Hlen & Hch). split; [done|]. exists pg'.
  rewrite lookup_insert_ne by set_solver. split; [done|]. split; [done|]. apply IH; [set_solver|done].
Qed.

Lemma chain_head mem a l : chain mem a l -> Forall valid_page l -> is_u32 a.
Proof.
  destruct l as [|b l]; cbn; [intros -> _; unfold is_u32; lia|].
  intros [-> _] [Hb _]%Forall_cons. by apply valid_page_u32.
Qed.

(** Taking the lock of the allocator, when it is in use. *)
Definition kmem_free (m : machine) (H : list lockid) (k : kst) : Prop :=
  idle m /\ (k_use_lock k = true -> has_lock m Lkmem /\ Lkmem ∉ H).

(** The kernel after [kfree(a)] and after [kalloc()] returned the first page. *)
Definition kfreed (a : Z) (k : kst) : kst :=
  k <| k_mem := <[a := put32 0 (k_freelist k) (replicate (Z.to_nat PGSIZE) 1)]> (k_mem k) |>
    <| k_freelist := a |>.
Definition kalloced (pg : list Z) (k : kst) : kst := k <| k_freelist := get32 0 pg |>.

Ltac same_use_lock k :=
  match goal with
  | |- context [when (k_use_lock ?x) _] => change (k_use_lock x) with (k_use_lock k)
  end.

Lemma wp_kfree m H co p k a (Q : unit -> world kst -> Prop) :
  kmem_free m H k -> valid_page a ->
  Q tt (W (held m H) co p (kfreed a k)) -> wp (kfree a) Q (W (held m H) co p k).
Proof.
  intros [Hm Hl] Ha HQ. unfold kfree. rewrite valid_page_bad by done. unfold set_page, page_at.
  replace (kfreed a k) with (k <| k_mem := <[a := put32 0 (k_freelist k) (replicate (Z.to_nat PGSIZE) 1)]>
    (<[a := replicate (Z.to_nat PGSIZE) 1]> (k_mem k)) |> <| k_freelist := a |>) in HQ
    by (unfold kfreed; by rewrite insert_insert_eq).
  do 4 kstep. same_use_lock k. destruct (k_use_lock k) eqn:Hu; cbn [when]; kstep.
  - destruct (Hl eq_refl). kstep. do 4 kstep. eapply wp_deref; [apply lookup_insert_eq|]. ksteps.
    same_use_lock k. rewrite Hu. cbn [when]. by apply wp_release.
  - do 5 kstep. eapply wp_deref; [apply lookup_insert_eq|]. ksteps. same_use_lock k. rewrite Hu. by kstep.
Qed.

Lemma wp_kalloc m H co p k l (Q : Z -> world kst -> Prop) :
  kmem_free m H k -> free_pages k l ->
  match l with
  | [] => Q 0 (W (held m H) co p k)
  | a :: l' => forall pg, k_mem k !! a = Some pg -> free_pages (kalloced pg k) l' ->
                 Q a (W (held m H) co p (kalloced pg k))
  end ->
  wp kalloc Q (W (held m H) co p k).
Proof.
  intros [Hm Hl] (Hch & Hnd & Hv) HQ. unfold kalloc, page_at. do 2 kstep.
  destruct l as [|a l].
  - cbn in Hch. destruct (k_use_lock k) eqn:Hu; cbn [when]; kstep.
    + destruct (Hl eq_refl). kstep. ksteps. rewrite Hch. cbn [Z.eqb negb]. ksteps. rewrite Hu. cbn [when].
      apply wp_release; [done..|]. by ksteps.
    + ksteps. rewrite Hch. cbn [Z.eqb negb]. ksteps. rewrite Hu. by ksteps.
  - destruct Hch as (Hfl & pg & Hpg & Hlen & Hch).
    apply NoDup_cons in Hnd as [_ Hnd]. apply Forall_cons in Hv as [Ha Hv].
    assert (HQ' : Q a (W (held m H) co p (kalloced pg k))) by (apply HQ; by repeat split).
    pose proof (valid_page_u32 a Ha) as [_ Hpos].
    destruct (k_use_lock k) eqn:Hu; cbn [when]; kstep.
    + destruct (Hl eq_refl). kstep. ksteps. rewrite Hfl, (proj2 (Z.eqb_neq a 0)) by lia. cbn [negb].
      ksteps. same_use_lock k. rewrite Hu. cbn [when]. apply wp_release; [done..|]. by ksteps.
    + ksteps. rewrite Hfl, (proj2 (Z.eqb_neq a 0)) by lia. cbn [negb].
      ksteps. same_use_lock k. rewrite Hu. by ksteps.
Qed.

Lemma free_pages_kfree k l a :
  valid_page a -> a ∉ l -> free_pages k l -> free_pages (kfreed a k) (a :: l).
Proof.
  intros Ha Hni (Hch & Hnd & Hv). split; [|split; [by apply NoDup_cons|by apply Forall_cons]].
  cbn. split; [done|]. rewrite lookup_insert_eq. eexists. split; [done|].
  rewrite length_put32, length_replicate. split; [done|].
  rewrite get_put32 by (rewrite length_replicate; unfold PGSIZE; lia).
  rewrite u32_id by by eapply chain_head. by apply chain_insert.
Qed.

(** The [n] pages from [a] on. *)
Fixpoint pages (n : nat) (a : Z) : list Z :=
  match n with
  | O => []
  | Datatypes.S n => a :: pages n (a + PGSIZE)
  end.

Fixpoint kfreed_all (l : list Z) (k : kst) : kst :=
  match l with
  | [] => k
  | a :: l => kfreed_all l (kfreed a k)
  end.

Lemma wp_freerange_loop n fu vend m H co p a k (Q : unit -> world kst -> Prop) :
  kmem_free m H k -> Forall valid_page (pages n a) -> (n < fu)%nat ->
  0 <= a -> a + PGSIZE * Z.of_nat n <= vend < a + PGSIZE * (Z.of_nat n + 1) -> vend + PGSIZE < 4294967296 ->
  Q tt (W (held m H) co p (kfreed_all (pages n a) k)) ->
  wp (freerange_loop fu vend a) Q (W (held m H) co p k).
Proof.
  unfold freerange_loop, PGSIZE.
  revert n a k; induction fu as [|fu IH]; intros n a k Hk Hv Hn Ha Hend Hmax HQ; [lia|]. cbn [loop]. kstep.
  rewrite u32_id by (unfold is_u32; lia). destruct n as [|n].
  - rewrite (proj2 (Z.leb_gt _ _)) by lia. by ksteps.
  - rewrite (proj2 (Z.leb_le _ _)) by lia. cbn [pages] in Hv. apply Forall_cons in Hv as [Hva Hv].
    kstep. apply wp_kfree; [done..|]. ksteps. eapply (IH n); try done; lia.
Qed.

Lemma free_pages_all n a k l :
  Forall valid_page (pages n a) -> Forall (fun b => b ∉ l) (pages n a) ->
  free_pages k l -> free_pages (kfreed_all (pages n a) k) (rev (pages n a) ++ l).
Proof.
  assert (Hge : forall n a b, b ∈ pages n a -> a <= b).
  { intros j; induction j as [|j IH]; intros a' b Hb; cbn in Hb; [by apply elem_of_nil in Hb|].
    apply elem_of_cons in Hb as [->|Hb]; [lia|].
    specialize (IH _ _ Hb). unfold PGSIZE in IH. lia. }
  revert a k l; induction n as [|n IH]; intros a k l Hv Hni Hf; [done|]. cbn [pages kfreed_all rev] in *.
  apply Forall_cons in Hv as [Hva Hv]. apply Forall_cons in Hni as [Hna Hni].
  rewrite <- app_assoc. cbn [app]. apply IH; [done| |by apply free_pages_kfree].
  apply Forall_forall. intros b Hb. rewrite not_elem_of_cons. split; [|by rewrite Forall_forall in Hni; apply Hni].
  specialize (Hge _ _ _ Hb). unfold PGSIZE in Hge. lia.
Qed.

End spec.

(** ** Properties *)

(** The allocator is a stack of distinct pages.  [kalloc] returns the first free page and
    leaves the others free, or 0 when there is none; it writes no page. *)
Theorem kalloc_spec `{Lk : Linker} m H co p k l :
  0 < kend -> kmem_free m H k -> free_pages k l ->
  exists k', kalloc (W (held m H) co p k) = Ret (hd 0 l) (W (held m H) co p k') /\
    free_pages k' (tail l) /\ k' = k <| k_freelist := k_freelist k' |>.
Proof.
  intros Hend Hk Hf.
  assert (Hwp : wp kalloc (fun r w => r = hd 0 l /\ exists k', w = W (held m H) co p k' /\
    free_pages k' (tail l) /\ k' = k <| k_freelist := k_freelist k' |>) (W (held m H) co p k)).
  { eapply wp_kalloc; [done..|]. destruct l as [|a l]; cbn.
    - split; [done|]. exists k. split; [done|]. split; [done|]. by destruct k.
    - intros pg Hpg Hf'. eauto. }
  apply wp_elim in Hwp as (r & w & Hrun & -> & k' & -> & ?). eauto.
Qed.

(** [kfree] of a page that is not free puts it in front of the free list, filled with
    junk except for the link, and touches no other page; so the next [kalloc]
    returns that page. *)
Theorem kfree_spec `{Lk : Linker} m H co p k l a :
  0 < kend -> kmem_free m H k -> free_pages k l -> valid_page a -> a ∉ l ->
  exists k', kfree a (W (held m H) co p k) = Ret tt (W (held m H) co p k') /\
    free_pages k' (a :: l) /\ (forall b, b ≠ a -> k_mem k' !! b = k_mem k !! b) /\
    (exists k2, kalloc (W (held m H) co p k') = Ret a (W (held m H) co p k2) /\ free_pages k2 l).
Proof.
  intros Hend Hk Hf Ha Hni. exists (kfreed a k).
  assert (Hwp : wp (kfree a) (fun _ w => w = W (held m H) co p (kfreed a k)) (W (held m H) co p k))
    by by apply wp_kfree.
  apply wp_elim in Hwp as ([] & w & Hrun & ->). split; [done|].
  assert (Hf' : free_pages (kfreed a k) (a :: l)) by by apply free_pages_kfree.
  split; [done|]. split; [intros b Hb; cbn; by rewrite lookup_insert_ne|].
  assert (Hwp : wp kalloc (fun r w => r = a /\ exists k2, w = W (held m H) co p k2 /\ free_pages k2 l)
    (W (held m H) co p (kfreed a k))).
  { eapply (wp_kalloc _ _ _ _ _ (a :: l)); [done|exact Hf'|]. eauto. }
  apply wp_elim in Hwp as (r & w & Hrun2 & -> & k2 & -> & ?). eauto.
Qed.

(** [kfree] of an address that is not the start of an allocatable page panics. *)
Theorem kfree_bad_panics `{Lk : Linker} (w : world kst) a :
  a mod PGSIZE ≠ 0 \/ a < kend \/ PHYSTOP <= V2P a -> kfree a w = Panic "kfree" w.
Proof.
  intros Hbad. unfold kfree, bad_page.
  destruct (Z.eqb_spec (a mod PGSIZE) 0), (Z.ltb_spec a kend), (Z.leb_spec PHYSTOP (V2P a)); cbn; try done; lia.
Qed.

(** [freerange(vstart, vend)] returns after freeing exactly the whole pages between the two
    addresses: they are all on the free list, in front of the pages that were. *)
Theorem freerange_spec `{Lk : Linker} m H co p k l vstart vend n :
  0 < kend -> kmem_free m H k -> free_pages k l -> 0 <= vstart ->
  PGROUNDUP vstart + PGSIZE * Z.of_nat n <= vend < PGROUNDUP vstart + PGSIZE * (Z.of_nat n + 1) ->
  vstart + PGSIZE <= 4294967296 -> vend + PGSIZE < 4294967296 ->
  Forall valid_page (pages n (PGROUNDUP vstart)) -> Forall (fun b => b ∉ l) (pages n (PGROUNDUP vstart)) ->
  exists k', freerange vstart vend (W (held m H) co p k) = Ret tt (W (held m H) co p k') /\
    free_pages k' (rev (pages n (PGROUNDUP vstart)) ++ l).
Proof.
  intros Hend Hk Hf Hvs Hr Hmax Hmax' Hv Hni. exists (kfreed_all (pages n (PGROUNDUP vstart)) k).
  pose proof (PGROUNDUP_spec vstart Hvs Hmax) as [_ Hup].
  assert (Hwp : wp (freerange vstart vend)
    (fun _ w => w = W (held m H) co p (kfreed_all (pages n (PGROUNDUP vstart)) k)) (W (held m H) co p k)).
  { eapply (wp_freerange_loop n); try done; [|lia]. unfold PGSIZE in *.
    assert (Z.of_nat n <= vend / 4096) by (apply Z.div_le_lower_bound; lia). lia. }
  apply wp_elim in Hwp as ([] & w & Hrun & ->). split; [done|]. by apply free_pages_all.
Qed.

(** ** The properties on a concrete machine *)

Definition ex_end : Linker := 0x80110000.

(** One free page. *)
Definition ex_kmem : kst :=
  kst0 <| k_mem := {[ 0x80400000 := put32 0 0 (replicate 4096 1) ]} |> <| k_freelist := 0x80400000 |>.

Lemma ex_kmem_free : kmem_free ex_machine [] ex_kmem.
Proof.
  split; [apply ex_running with (policy := 0)|]. intros _. split; [|set_solver].
  eapply ready_lock; [apply (run_locks _ _ _ _ (ex_running 0))|set_solver].
Qed.

Lemma ex_valid a : a mod 4096 = 0 -> 0x80400000 <= a < 0x80800000 -> @valid_page ex_end a.
Proof. unfold valid_page, PGSIZE, kend, ex_end, PHYSTOP, KERNBASE. lia. Qed.

Lemma ex_free_pages : @free_pages ex_end ex_kmem [0x80400000].
Proof.
  split; [|split].
  - cbn [chain]. split; [done|]. eexists. split; [apply lookup_singleton_eq|].
    rewrite length_put32, length_replicate. split; [done|].
    rewrite get_put32 by (rewrite length_replicate; lia). done.
  - apply NoDup_singleton.
  - constructor; [|constructor]. apply ex_valid; [done|lia].
Qed.

Lemma kalloc_spec_witness : exists k',
  kalloc (W (held ex_machine []) ex_console (ex_procs 0) ex_kmem) =
    Ret 0x80400000 (W (held ex_machine []) ex_console (ex_procs 0) k') /\ @free_pages ex_end k' [].
Proof.
  destruct (@kalloc_spec ex_end ex_machine [] ex_console (ex_procs 0) ex_kmem [0x80400000])
    as (k' & Hrun & Hf & _); [reflexivity|exact ex_kmem_free|exact ex_free_pages|].
  exists k'. split; [exact Hrun|exact Hf].
Defined.

Lemma kfree_spec_witness : exists k',
  @kfree ex_end 0x80401000 (W (held ex_machine []) ex_console (ex_procs 0) ex_kmem) =
    Ret tt (W (held ex_machine []) ex_console (ex_procs 0) k') /\
  @free_pages ex_end k' [0x80401000; 0x80400000].
Proof.
  destruct (@kfree_spec ex_end ex_machine [] ex_console (ex_procs 0) ex_kmem [0x80400000] 0x80401000)
    as (k' & Hrun & Hf & _); [reflexivity|exact ex_kmem_free|exact ex_free_pages|apply ex_valid; [done|lia]|set_solver|].
  exists k'. split; [exact Hrun|exact Hf].
Defined.

Lemma kfree_bad_panics_witness :
  @kfree ex_end 0x80400004 (W ex_machine ex_console (ex_procs 0) kst0) =
  Panic "kfree" (W ex_machine ex_console (ex_procs 0) kst0).
Proof. apply (@kfree_bad_panics ex_end). left. done. Defined.

Lemma freerange_spec_witness : exists k',
  @freerange ex_end 0x80400FFF 0x80403FFF (W (held ex_machine []) ex_console (ex_procs 0) ex_kmem) =
    Ret tt (W (held ex_machine []) ex_console (ex_procs 0) k') /\
  @free_pages ex_end k' [0x80402000; 0x80401000; 0x80400000].
Proof.
  assert (Hup : PGROUNDUP 0x80400FFF = 0x80401000) by reflexivity.
  destruct (@freerange_spec ex_end ex_machine [] ex_console (ex_procs 0) ex_kmem [0x80400000]
    0x80400FFF 0x80403FFF 2) as (k' & Hrun & Hf);
    [reflexivity|exact ex_kmem_free|exact ex_free_pages|lia|rewrite Hup; unfold PGSIZE; lia|unfold PGSIZE; lia
    |unfold PGSIZE; lia|rewrite Hup; repeat constructor; apply ex_valid; done || lia
    |rewrite Hup; repeat constructor; set_solver|].
  exists k'. split; [exact Hrun|exact Hf].
Defined.
