(* ===== verification/Bio.v ===== *)
(** * The buffer cache and the memory disk (bio.c, memide.c)

    [bget] and [brelse] keep every buffer on a doubly linked ring in the order
    of last use.  The ring is read as a list of buffers ([seg]); the lemmas here say what
    searching the ring and moving a buffer to its front do.  What readers see through the
    cache is the subject of [Bcache].  Functions are written against a disk driver's
    [iderw], the memory disk's being the one modelled here. *)

From S2P Require Import Prelude Kstate Spinlock Cprintf Proc Kdata Sleeplock.
From stdpp Require Import gmap strings list fin_maps.
Open Scope Z_scope.

(** What the cache needs of a disk driver. *)
Class DiskDriver := iderw : nat -> MK unit.

Definition has_flag (flags bit : Z) : bool := negb (Z.land flags bit =? 0).

Section memide_c.
Context `{Fu : Fuel}.

Definition memide_iderw (i : nat) : MK unit :=
  let! h := holdingsleep (SLbuf i) in
  if negb h then panic "iderw: buf not locked"
  else
    let! b := buf_at i in
    if Z.land (b_flags b) (Z.lor B_VALID B_DIRTY) =? B_VALID then panic "iderw: nothing to do"
    else if negb (b_dev b =? 1) then panic "iderw: request not for disk 1"
    else
      let! k := get_s in
      if Z.of_nat (length (k_disk k)) <=? b_blockno b then panic "iderw: block out of range"
      else
        let p := Z.to_nat (b_blockno b) in
        (if has_flag (b_flags b) B_DIRTY then
           set_buf i (fun b => b <| b_flags := Z.land (b_flags b) (Z.lnot B_DIRTY) |>) ;;;
           upd_s (fun k => k <| k_disk := <[p := b_data b]> (k_disk k) |>
                             <| k_written := k_written k ++ [(b_blockno b, b_data b)] |>)
         else
           let! blk := deref (k_disk k !! p) in
           set_buf i (fun b => b <| b_data := blk |>)) ;;;
        set_buf i (fun b => b <| b_flags := Z.lor (b_flags b) B_VALID |>).

End memide_c.

#[export] Instance memide `{Fu : Fuel} : DiskDriver := memide_iderw.

Section bio_c.
Context `{Fu : Fuel} `{Drv : DiskDriver}.

(** [p->next] and [p->prev] for a pointer to a buffer or to the list head. *)
Definition nxt (k : kst) (a : option nat) : option nat :=
  match a with None => k_head_next k | Some i => b ← k_bufs k !! i; b_next b end.
Definition prv (k : kst) (a : option nat) : option nat :=
  match a with None => k_head_prev k | Some i => b ← k_bufs k !! i; b_prev b end.
Definition upd_nxt (a v : option nat) (k : kst) : kst :=
  match a with
  | None => k <| k_head_next := v |>
  | Some i => k <| k_bufs := alter (fun b => b <| b_next := v |>) i (k_bufs k) |>
  end.
Definition upd_prv (a v : option nat) (k : kst) : kst :=
  match a with
  | None => k <| k_head_prev := v |>
  | Some i => k <| k_bufs := alter (fun b => b <| b_prev := v |>) i (k_bufs k) |>
  end.
Definition get_next (a : option nat) : MK (option nat) := let! k := get_s in ret (nxt k a).
Definition get_prev (a : option nat) : MK (option nat) := let! k := get_s in ret (prv k a).
Definition set_next (a v : option nat) : MK unit := upd_s (upd_nxt a v).
Definition set_prev (a v : option nat) : MK unit := upd_s (upd_prv a v).

(** Insert [b] after the head: the last four assignments of [binit] and [brelse]
    (there [initsleeplock] comes between the second and the third). *)
Definition push_front (i : nat) (mid : MK unit) : MK unit :=
  let! hn := get_next None in
  set_next (Some i) hn ;;;
  set_prev (Some i) None ;;;
  mid ;;;
  let! hn := get_next None in
  set_prev hn (Some i) ;;;
  set_next None (Some i).

Definition binit : MK unit :=
  initlock Lbcache "bcache" ;;;
  set_prev None None ;;;
  set_next None None ;;;
  for_list (seq 0 NBUF) (fun i => push_front i (initsleeplock (SLbuf i) "buffer")).

(** The two scans of [bget]: from [a] along [next] or [prev] to the head, for a buffer
    that satisfies [f].  The ring has [NBUF] buffers. *)
Definition scan (step : buf -> option nat) (f : buf -> bool) (a : option nat) : MK (option nat) :=
  loop (Datatypes.S NBUF) (fun a =>
    match a with
    | None => ret (inr None)
    | Some i =>
        let! b := buf_at i in
        if f b then ret (inr (Some i)) else ret (inl (step b))
    end) a.

Definition is_block (dev blockno : Z) (b : buf) : bool :=
  (b_dev b =? dev) && (b_blockno b =? blockno).
Definition is_unused (b : buf) : bool :=
  (b_refcnt b =? 0) && (Z.land (b_flags b) B_DIRTY =? 0).

Definition bget (dev blockno : Z) : MK nat :=
  acquire Lbcache ;;;
  let! hn := get_next None in
  let! r := scan b_next (is_block dev blockno) hn in
  match r with
  | Some i =>
      set_buf i (fun b => b <| b_refcnt := u32 (b_refcnt b + 1) |>) ;;;
      release Lbcache ;;;
      acquiresleep (SLbuf i) ;;;
      ret i
  | None =>
      let! hp := get_prev None in
      let! r := scan b_prev is_unused hp in
      match r with
      | Some i =>
          set_buf i (fun b => b <| b_dev := dev |> <| b_blockno := blockno |>
                                <| b_flags := 0 |> <| b_refcnt := 1 |>) ;;;
          release Lbcache ;;;
          acquiresleep (SLbuf i) ;;;
          ret i
      | None => panic "bget: no buffers"
      end
  end.

Definition bread (dev blockno : Z) : MK nat :=
  let! i := bget dev blockno in
  let! b := buf_at i in
  when (Z.land (b_flags b) B_VALID =? 0) (iderw i) ;;;
  ret i.

Definition bwrite (i : nat) : MK unit :=
  let! h := holdingsleep (SLbuf i) in
  if negb h then panic "bwrite"
  else
    set_buf i (fun b => b <| b_flags := Z.lor (b_flags b) B_DIRTY |>) ;;;
    iderw i.

Definition brelse (i : nat) : MK unit :=
  let! h := holdingsleep (SLbuf i) in
  if negb h then panic "brelse"
  else
    releasesleep (SLbuf i) ;;;
    acquire Lbcache ;;;
    set_buf i (fun b => b <| b_refcnt := u32 (b_refcnt b - 1) |>) ;;;
    let! b := buf_at i in
    when (b_refcnt b =? 0)
      (let! n := get_next (Some i) in
       let! p := get_prev (Some i) in
       set_prev n p ;;;
       let! p := get_prev (Some i) in
       let! n := get_next (Some i) in
       set_next p n ;;;
       push_front i (ret tt)) ;;;
    release Lbcache.

End bio_c.

(** ** Doubly linked rings *)

Definition ptr : Type := option nat.

Definition pupd (f : ptr -> ptr) (x v : ptr) : ptr -> ptr := fun y => if decide (y = x) then v else f y.

Lemma pupd_eq f x v : pupd f x v x = v.
Proof. unfold pupd. by rewrite decide_True. Qed.
Lemma pupd_ne f x v y : y ≠ x -> pupd f x v y = f y.
Proof. intros. unfold pupd. by rewrite decide_False. Qed.

(** [seg n p a l b]: from [a], following [n], one passes the buffers [l] and comes
    to [b]; and following [p] back from [b] to [a]. *)
Fixpoint seg (n p : ptr -> ptr) (a : ptr) (l : list nat) (b : ptr) : Prop :=
  match l with
  | [] => n a = b /\ p b = a
  | x :: l => n a = Some x /\ p (Some x) = a /\ seg n p (Some x) l b
  end.

Lemma seg_app n p a l1 x l2 b :
  seg n p a (l1 ++ x :: l2) b <-> seg n p a l1 (Some x) /\ seg n p (Some x) l2 b.
Proof. revert a; induction l1 as [|y l1 IH]; intros a; cbn; [|rewrite IH]; tauto. Qed.

Lemma seg_ext n p n' p' a l b :
  seg n p a l b ->
  (forall y, y = a \/ y ∈ Some <$> l -> n' y = n y) ->
  (forall y, y = b \/ y ∈ Some <$> l -> p' y = p y) ->
  seg n' p' a l b.
Proof.
  revert a; induction l as [|x l IH]; intros a Hs Hn Hp; cbn in *.
  - rewrite Hn, Hp by auto. done.
  - destruct Hs as (H1 & H2 & H3). rewrite Hn, Hp by (auto; right; set_solver).
    split; [done|]. split; [done|].
    apply IH; [done|..]; intros y [->|Hy]; (apply Hn || apply Hp); set_solver.
Qed.

Lemma seg_first n p a l b : seg n p a l b -> n a = b \/ n a ∈ Some <$> l.
Proof. destruct l; cbn; [naive_solver|]. intros (-> & _). right. set_solver. Qed.

Lemma seg_last n p a l b : seg n p a l b -> (l = [] /\ p b = a) \/ p b ∈ Some <$> l.
Proof.
  revert a; induction l as [|x l IH]; intros a; cbn; [naive_solver|].
  intros (_ & _ & Hs). right. destruct (IH _ Hs) as [[-> ->]|Hin]; set_solver.
Qed.

Lemma not_in_some (i : nat) (l : list nat) : i ∉ l -> Some i ∉ Some <$> l.
Proof. rewrite list_elem_of_fmap. naive_solver. Qed.

Lemma none_not_in_some (l : list nat) : (None : ptr) ∉ Some <$> l.
Proof. rewrite list_elem_of_fmap. naive_solver. Qed.

(** Taking an element out of the ring. *)
Lemma seg_unlink n p a l1 i l2 c :
  seg n p a l1 (Some i) -> seg n p (Some i) l2 c -> NoDup (l1 ++ i :: l2) ->
  a ∉ Some <$> (l1 ++ i :: l2) -> c ∉ Some <$> (l1 ++ i :: l2) ->
  seg (pupd n (p (Some i)) (n (Some i))) (pupd p (n (Some i)) (p (Some i))) a (l1 ++ l2) c.
Proof.
  revert a; induction l1 as [|y l1 IH]; intros a Hs1 Hs2 Hnd Ha Hc; cbn [app] in *.
  - destruct Hs1 as [Hni Hpi]. rewrite Hpi. destruct l2 as [|x l2]; cbn in *.
    + destruct Hs2 as [-> _]. by rewrite !pupd_eq.
    + destruct Hs2 as (-> & Hpx & Hs2). rewrite !pupd_eq. do 2 (split; [done|]).
      apply NoDup_cons in Hnd as [_ [Hx Hnd]%NoDup_cons].
      eapply seg_ext; [exact Hs2|..]; intros z Hz; apply pupd_ne.
      * intros ->. apply Ha. set_solver.
      * intros ->. destruct Hz as [Hz|Hz]; [subst c; apply Hc; set_solver|].
        by apply (not_in_some x l2).
  - destruct Hs1 as (Hna & Hpy & Hs1). pose proof Hnd as [Hy Hnd']%NoDup_cons.
    assert (Hu : p (Some i) ≠ a).
    { intros <-. apply Ha. destruct (seg_last _ _ _ _ _ Hs1) as [[_ ->]|Hin]; [set_solver|].
      rewrite fmap_cons, fmap_app. set_solver. }
    assert (Hv : n (Some i) ≠ Some y).
    { intros He. destruct (seg_first _ _ _ _ _ Hs2) as [Hin|Hin]; rewrite He in Hin.
      - apply Hc. rewrite <- Hin. set_solver.
      - apply (not_in_some y l2); [set_solver|done]. }
    cbn. rewrite pupd_ne, (pupd_ne p) by done. do 2 (split; [done|]).
    apply IH; [done..| |set_solver]. by apply not_in_some.
Qed.

(** Putting an element in front of the ring. *)
Lemma seg_push n p i l :
  seg n p None l None -> NoDup (i :: l) ->
  seg (pupd (pupd n (Some i) (n None)) None (Some i))
      (pupd (pupd p (Some i) None) (n None) (Some i)) None (i :: l) None.
Proof.
  intros Hs [Hi Hnd]%NoDup_cons. cbn [seg]. rewrite pupd_eq. split; [done|].
  destruct l as [|x l]; cbn in *.
  - destruct Hs as [-> _]. rewrite pupd_ne, !pupd_eq by done.
    by rewrite pupd_ne, pupd_eq by done.
  - destruct Hs as (-> & Hpx & Hs). apply not_elem_of_cons in Hi as [Hix Hil].
    rewrite (pupd_ne _ (Some x)), pupd_eq by congruence. split; [done|].
    rewrite pupd_ne, !pupd_eq by done. do 2 (split; [done|]).
    apply NoDup_cons in Hnd as [Hx Hnd].
    eapply seg_ext; [exact Hs|..]; intros z Hz.
    + rewrite !pupd_ne; [done|..]; intros ->; destruct Hz as [Hz|Hz]; try congruence.
      * by apply (not_in_some i l).
      * by apply (none_not_in_some l).
    + rewrite !pupd_ne; [done|..]; intros ->; destruct Hz as [Hz|Hz]; try congruence.
      * by apply (not_in_some i l).
      * by apply (not_in_some x l).
Qed.

(** ** The scans of bget *)

Fixpoint walk (g : ptr -> ptr) (a : ptr) (l : list nat) : Prop :=
  match l with
  | [] => a = None
  | x :: l => a = Some x /\ walk g (g (Some x)) l
  end.

Lemma seg_walk n p a l : seg n p a l None -> walk n (n a) l.
Proof. revert a; induction l as [|x l IH]; intros a; cbn; [tauto|]. intros (-> & _ & Hs). auto. Qed.

Lemma seg_rev n p a l b : seg n p a l b -> seg p n b (rev l) a.
Proof.
  revert a; induction l as [|x l IH]; intros a; cbn; [tauto|].
  intros (Hn & Hp & Hs). apply seg_app. split; [auto|]. done.
Qed.

Fixpoint find_buf (f : buf -> bool) (bufs : list buf) (l : list nat) : option nat :=
  match l with
  | [] => None
  | i :: l => if from_option f false (bufs !! i) then Some i else find_buf f bufs l
  end.

Lemma find_buf_Some f bufs l i :
  find_buf f bufs l = Some i -> i ∈ l /\ exists b, bufs !! i = Some b /\ f b = true.
Proof.
  induction l as [|j l IH]; cbn; [done|]. case_match eqn:E.
  - intros [= ->]. destruct (bufs !! i); [|done]. cbn in E. split; [set_solver|eauto].
  - intros Hf. destruct (IH Hf). split; [set_solver|done].
Qed.

Lemma find_buf_None f bufs l i b :
  find_buf f bufs l = None -> i ∈ l -> bufs !! i = Some b -> f b = false.
Proof.
  induction l as [|j l IH]; cbn; [set_solver|]. case_match eqn:E; [done|].
  intros Hf [->|Hi]%elem_of_cons Hb; [by rewrite Hb in E|auto].
Qed.

Lemma wp_scan step f g a l m co p k (Q : option nat -> world kst -> Prop) :
  walk g a l -> (length l <= NBUF)%nat ->
  (forall i, i ∈ l -> exists b, k_bufs k !! i = Some b /\ step b = g (Some i)) ->
  Q (find_buf f (k_bufs k) l) (W m co p k) -> wp (scan step f a) Q (W m co p k).
Proof.
  unfold scan. generalize NBUF as n. intros n. revert a l.
  induction n as [|n IH]; intros a l Hw Hlen Hl HQ.
  - destruct l; [|cbn in Hlen; lia]. cbn in Hw. subst a. cbn [loop]. by ksteps.
  - cbn [loop]. kstep. destruct l as [|i l]; cbn in Hw; [subst a; by ksteps|].
    destruct Hw as [-> Hw]. destruct (Hl i ltac:(set_solver)) as (b & Hb & Hst).
    kstep. unfold buf_at. ksteps. cbn in HQ. rewrite Hb in HQ. cbn in HQ.
    destruct (f b); kstep.
    + by ksteps.
    + rewrite Hst. cbn in Hlen. apply (IH _ l); [done|lia|set_solver|done].
Qed.

(** ** Link fields *)

Definition in_bufs (k : kst) (a : ptr) : Prop :=
  match a with None => True | Some i => (i < length (k_bufs k))%nat end.

Lemma nxt_upd_nxt k a v x : in_bufs k a -> nxt (upd_nxt a v k) x = pupd (nxt k) a v x.
Proof.
  intros Ha. unfold pupd. destruct a as [i|], x as [j|]; cbn in *; case_decide as Hd; simplify_eq; try done.
  - destruct (lookup_lt_is_Some_2 _ _ Ha) as [b Hb]. by rewrite list_lookup_alter_eq, Hb.
  - by rewrite list_lookup_alter_ne by congruence.
Qed.

Lemma prv_upd_prv k a v x : in_bufs k a -> prv (upd_prv a v k) x = pupd (prv k) a v x.
Proof.
  intros Ha. unfold pupd. destruct a as [i|], x as [j|]; cbn in *; case_decide as Hd; simplify_eq; try done.
  - destruct (lookup_lt_is_Some_2 _ _ Ha) as [b Hb]. by rewrite list_lookup_alter_eq, Hb.
  - by rewrite list_lookup_alter_ne by congruence.
Qed.

Lemma alter_field {A} (g : buf -> A) (f : buf -> buf) i (l : list buf) j :
  (forall b, g (f b) = g b) -> g <$> alter f i l !! j = g <$> l !! j.
Proof.
  intros Hf. rewrite list_lookup_alter. case_decide; [|done]. subst.
  destruct (l !! j); cbn; [|done]. by rewrite Hf.
Qed.

Lemma prv_upd_nxt k a v x : prv (upd_nxt a v k) x = prv k x.
Proof.
  destruct a as [i|], x as [j|]; cbn; try done.
  pose proof (alter_field b_prev (fun b => b <| b_next := v |>) i (k_bufs k) j ltac:(done)) as H.
  destruct (alter _ i (k_bufs k) !! j), (k_bufs k !! j); cbn in *; congruence.
Qed.

Lemma nxt_upd_prv k a v x : nxt (upd_prv a v k) x = nxt k x.
Proof.
  destruct a as [i|], x as [j|]; cbn; try done.
  pose proof (alter_field b_next (fun b => b <| b_prev := v |>) i (k_bufs k) j ltac:(done)) as H.
  destruct (alter _ i (k_bufs k) !! j), (k_bufs k !! j); cbn in *; congruence.
Qed.

(** ** Separating the ring from the rest *)

(** A buffer without its links, and the kernel without the ring. *)
Definition core (b : buf) : buf := b <| b_prev := None |> <| b_next := None |>.
Definition cores (k : kst) : list buf := core <$> k_bufs k.
Definition unlinked (k : kst) : kst :=
  k <| k_bufs := cores k |> <| k_head_prev := None |> <| k_head_next := None |>.

Definition ring (k : kst) (l : list nat) : Prop :=
  seg (nxt k) (prv k) None l None /\ l ≡ₚ seq 0 (length (k_bufs k)).

Lemma fmap_alter_id {A B} (g : A -> B) (f : A -> A) i (l : list A) :
  (forall x, g (f x) = g x) -> g <$> alter f i l = g <$> l.
Proof.
  intros Hf. apply list_eq. intros j. rewrite !list_lookup_fmap, list_lookup_alter.
  case_decide; [|done]. subst. destruct (l !! j); cbn; [by rewrite Hf|done].
Qed.

Lemma fmap_alter_comm {A} (g f f' : A -> A) i (l : list A) :
  (forall x, g (f x) = f' (g x)) -> g <$> alter f i l = alter f' i (g <$> l).
Proof.
  intros Hf. apply list_eq. intros j. rewrite list_lookup_fmap, !list_lookup_alter.
  case_decide; subst; rewrite list_lookup_fmap; [|done].
  destruct (l !! j); cbn; [by rewrite Hf|done].
Qed.

Lemma unlinked_upd_nxt a v k : unlinked (upd_nxt a v k) = unlinked k.
Proof.
  destruct a as [i|]; [|done]. unfold unlinked, cores, upd_nxt, set_field; cbn -[alter fmap].
  by rewrite fmap_alter_id.
Qed.

Lemma unlinked_upd_prv a v k : unlinked (upd_prv a v k) = unlinked k.
Proof.
  destruct a as [i|]; [|done]. unfold unlinked, cores, upd_prv, set_field; cbn -[alter fmap].
  by rewrite fmap_alter_id.
Qed.

Lemma unlinked_cores k k' : unlinked k = unlinked k' -> cores k = cores k'.
Proof. by intros H%(f_equal k_bufs). Qed.

Lemma unlinked_disk k k' : unlinked k = unlinked k' -> k_disk k = k_disk k'.
Proof. by intros H%(f_equal k_disk). Qed.

Lemma unlinked_length k k' : unlinked k = unlinked k' -> length (k_bufs k) = length (k_bufs k').
Proof. intros H%unlinked_cores%(f_equal length). unfold cores in H. by rewrite !length_fmap in H. Qed.

Lemma in_bufs_unlinked k k' a : unlinked k = unlinked k' -> in_bufs k a -> in_bufs k' a.
Proof. intros H%unlinked_length. unfold in_bufs. destruct a; [lia|done]. Qed.

(** An update of the other fields leaves the ring alone. *)
Lemma ring_set_buf f i k l :
  (forall b, b_next (f b) = b_next b) -> (forall b, b_prev (f b) = b_prev b) ->
  ring k l -> ring (k <| k_bufs := alter f i (k_bufs k) |>) l.
Proof.
  intros Hn Hp [Hs Hl]. split; [|cbn; by rewrite length_alter].
  eapply seg_ext; [exact Hs|..]; intros [j|] _; cbn; try done.
  - pose proof (alter_field b_next f i (k_bufs k) j Hn) as H.
    destruct (alter f i (k_bufs k) !! j), (k_bufs k !! j); cbn in *; congruence.
  - pose proof (alter_field b_prev f i (k_bufs k) j Hp) as H.
    destruct (alter f i (k_bufs k) !! j), (k_bufs k !! j); cbn in *; congruence.
Qed.

Lemma ring_in k l i : ring k l -> i ∈ l <-> (i < length (k_bufs k))%nat.
Proof. intros [_ ->]. rewrite elem_of_seq. lia. Qed.

Lemma ring_ptr k l a : ring k l -> a = None \/ a ∈ Some <$> l -> in_bufs k a.
Proof.
  intros Hr [->|Ha]; [done|]. apply list_elem_of_fmap in Ha as (i & -> & Hi). by apply (ring_in k l).
Qed.

(** [push_front] on the state. *)
Definition pushed_front (i : nat) (k : kst) : kst :=
  let k := upd_prv (Some i) None (upd_nxt (Some i) (nxt k None) k) in
  upd_nxt None (Some i) (upd_prv (nxt k None) (Some i) k).

Lemma pushed_front_seg i k l :
  seg (nxt k) (prv k) None l None -> NoDup (i :: l) ->
  (forall j, j ∈ i :: l -> (j < length (k_bufs k))%nat) ->
  seg (nxt (pushed_front i k)) (prv (pushed_front i k)) None (i :: l) None.
Proof.
  intros Hs Hnd Hin.
  assert (Hi : (i < length (k_bufs k))%nat) by (apply Hin; set_solver).
  pose proof (seg_push _ _ i l Hs Hnd) as Hp.
  assert (Hn : in_bufs k (nxt k None)).
  { destruct (seg_first _ _ _ _ _ Hs) as [->|Hf]; [done|].
    apply list_elem_of_fmap in Hf as (j & -> & Hj). apply Hin. set_solver. }
  unfold pushed_front. set (k1 := upd_nxt (Some i) (nxt k None) k).
  assert (Hn0 : nxt (upd_prv (Some i) None k1) None = nxt k None) by done. rewrite Hn0.
  set (k2 := upd_prv (Some i) None k1).
  assert (Hk1 : unlinked k1 = unlinked k) by apply unlinked_upd_nxt.
  assert (Hk2 : unlinked k2 = unlinked k) by (unfold k2; by rewrite unlinked_upd_prv).
  eapply seg_ext; [exact Hp|..]; intros y _.
  - rewrite nxt_upd_nxt by done. unfold pupd. case_decide; [done|].
    rewrite nxt_upd_prv. unfold k2. rewrite nxt_upd_prv. unfold k1. by rewrite nxt_upd_nxt.
  - rewrite prv_upd_nxt, prv_upd_prv by by eapply in_bufs_unlinked.
    unfold pupd. case_decide; [done|]. unfold k2. rewrite prv_upd_prv.
    2:{ by eapply (in_bufs_unlinked k). }
    unfold pupd. case_decide; [done|]. unfold k1. by rewrite prv_upd_nxt.
Qed.

Lemma unlinked_pushed_front i k : unlinked (pushed_front i k) = unlinked k.
Proof. unfold pushed_front. by rewrite unlinked_upd_nxt, !unlinked_upd_prv, unlinked_upd_nxt. Qed.

(** The two assignments of [brelse] that take the buffer out of the ring. *)
Definition unlink (i : nat) (k : kst) : kst :=
  let k1 := upd_prv (nxt k (Some i)) (prv k (Some i)) k in
  upd_nxt (prv k1 (Some i)) (nxt k1 (Some i)) k1.

Lemma unlinked_unlink i k : unlinked (unlink i k) = unlinked k.
Proof. unfold unlink. by rewrite unlinked_upd_nxt, unlinked_upd_prv. Qed.

Lemma unlink_seg k l1 i l2 :
  ring k (l1 ++ i :: l2) -> seg (nxt (unlink i k)) (prv (unlink i k)) None (l1 ++ l2) None.
Proof.
  intros Hr. pose proof Hr as [Hs Hperm]. apply seg_app in Hs as [Hs1 Hs2].
  assert (Hnd : NoDup (l1 ++ i :: l2)) by (rewrite Hperm; apply NoDup_seq).
  assert (Hnn : nxt k (Some i) ≠ Some i).
  { intros He. apply NoDup_app in Hnd as (_ & _ & [Hi _]%NoDup_cons).
    destruct (seg_first _ _ _ _ _ Hs2) as [Hf|Hf]; rewrite He in Hf; [done|].
    by apply (not_in_some i l2). }
  assert (Hvn : in_bufs k (nxt k (Some i))).
  { eapply ring_ptr; [done|]. destruct (seg_first _ _ _ _ _ Hs2) as [Hf|Hf]; [by left|right].
    rewrite fmap_app, fmap_cons. set_solver. }
  assert (Hvp : in_bufs k (prv k (Some i))).
  { eapply ring_ptr; [done|]. destruct (seg_last _ _ _ _ _ Hs1) as [[_ Hf]|Hf]; [by left|right].
    rewrite fmap_app. set_solver. }
  pose proof (seg_unlink _ _ None l1 i l2 None Hs1 Hs2 Hnd (none_not_in_some _) (none_not_in_some _)) as Hu.
  unfold unlink. set (k1 := upd_prv (nxt k (Some i)) (prv k (Some i)) k).
  assert (Hp1 : prv k1 (Some i) = prv k (Some i)).
  { unfold k1. rewrite prv_upd_prv by done. apply pupd_ne. congruence. }
  assert (Hn1 : nxt k1 (Some i) = nxt k (Some i)) by (unfold k1; by rewrite nxt_upd_prv).
  rewrite Hp1, Hn1. eapply seg_ext; [exact Hu|..]; intros y _.
  - rewrite nxt_upd_nxt.
    2:{ eapply in_bufs_unlinked; [|exact Hvp]. unfold k1. by rewrite unlinked_upd_prv. }
    unfold pupd. case_decide; [done|]. unfold k1. by rewrite nxt_upd_prv.
  - rewrite prv_upd_nxt. unfold k1. by rewrite prv_upd_prv.
Qed.

(** Moving a buffer to the front of the ring. *)
Lemma move_front_ring k l i :
  ring k l -> i ∈ l -> exists l', ring (pushed_front i (unlink i k)) (i :: l') /\ l ≡ₚ i :: l'.
Proof.
  intros Hr Hi. apply list_elem_of_split in Hi as (l1 & l2 & ->). exists (l1 ++ l2).
  assert (Hperm : l1 ++ i :: l2 ≡ₚ i :: l1 ++ l2) by by rewrite Permutation_middle.
  split; [|done]. pose proof Hr as [_ Hl]. split.
  - apply pushed_front_seg; [by apply unlink_seg|rewrite <- Hperm, Hl; apply NoDup_seq|].
    intros j Hj. rewrite <- Hperm in Hj. rewrite (unlinked_length _ k) by apply unlinked_unlink.
    by apply (ring_in k (l1 ++ i :: l2)).
  - rewrite <- Hperm, Hl. rewrite (unlinked_length (pushed_front i (unlink i k)) k); [done|].
    by rewrite unlinked_pushed_front, unlinked_unlink.
Qed.
