(* ===== verification/Ide.v ===== *)
(** * The disk driver (ide.c)

    The driver of the IDE disk: requests wait in a queue that is linked through the buffers, the first one is the one the
    disk works on, and the interrupt handler finishes it and starts the next.  The disk is a parameter: what it answers is
    a function of the port accesses so far.  The theorems show that requests are served in the order of their arrival,
    and that, with a disk that follows the ATA protocol, [iderw] and the interrupt that ends it move the data between
    the buffer and the sector of its block. *)

From S2P Require Import Prelude Kstate Spinlock Cprintf Proc Kdata Sleeplock Hw Bio.
From stdpp Require Import strings list fin_maps functions.
Open Scope Z_scope.

Definition SECTOR_SIZE : Z := 512.
Definition IDE_BSY : Z := 0x80.
Definition IDE_DRDY : Z := 0x40.
Definition IDE_DF : Z := 0x20.
Definition IDE_ERR : Z := 0x01.
Definition IDE_CMD_READ : Z := 0x20.
Definition IDE_CMD_WRITE : Z := 0x30.
Definition IDE_CMD_RDMUL : Z := 0xc4.
Definition IDE_CMD_WRMUL : Z := 0xc5.

Section ide_c.
Context `{Fu : Fuel} `{Hd : Hardware}.

(** [((r = inb(0x1f7)) & (IDE_BSY|IDE_DRDY)) != IDE_DRDY] *)
Definition disk_ready (r : Z) : bool := Z.land r (Z.lor IDE_BSY IDE_DRDY) =? IDE_DRDY.

(** The loop of [idewait], and of [waitdisk] in the boot loader. *)
Definition wait_ready : MK Z :=
  loop fuel (fun _ =>
    let! r := inb 0x1f7 in
    if disk_ready r then ret (inr r) else ret (inl tt)) tt.

Definition idewait (checkerr : bool) : MK Z :=
  let! r := wait_ready in
  if checkerr && negb (Z.land r (Z.lor IDE_DF IDE_ERR) =? 0) then ret (-1) else ret 0.

Definition ideinit : MK unit :=
  initlock Lide "ide" ;;;
  let! m := get_m in
  ioapicenable IRQ_IDE (Z.of_nat (length (cpus m)) - 1) ;;;
  let! _ := idewait false in
  outb 0x1f6 (Z.lor 0xe0 (Z.shiftl 1 4)) ;;;
  loop 1001 (fun i =>
    if negb (i <? 1000) then ret (inr tt)
    else
      let! v := inb 0x1f7 in
      if negb (v =? 0) then
        upd_s (fun k => k <| k_havedisk1 := true |>) ;;;
        ret (inr tt)
      else ret (inl (i + 1))) 0 ;;;
  outb 0x1f6 (Z.lor 0xe0 (Z.shiftl 0 4)).

Definition idestart (b : option nat) : MK unit :=
  match b with
  | None => panic "idestart"
  | Some i =>
      let! b := buf_at i in
      if FSSIZE <=? b_blockno b then panic "incorrect blockno"
      else
        let sector_per_block := Z.of_nat BSIZE / SECTOR_SIZE in
        let sector := b_blockno b * sector_per_block in
        let read_cmd := if sector_per_block =? 1 then IDE_CMD_READ else IDE_CMD_RDMUL in
        let write_cmd := if sector_per_block =? 1 then IDE_CMD_WRITE else IDE_CMD_WRMUL in
        if 7 <? sector_per_block then panic "idestart"
        else
          let! _ := idewait false in
          outb 0x3f6 0 ;;;
          outb 0x1f2 sector_per_block ;;;
          outb 0x1f3 (Z.land sector 0xff) ;;;
          outb 0x1f4 (Z.land (Z.shiftr sector 8) 0xff) ;;;
          outb 0x1f5 (Z.land (Z.shiftr sector 16) 0xff) ;;;
          outb 0x1f6 (Z.lor (Z.lor 0xe0 (Z.shiftl (Z.land (b_dev b) 1) 4)) (Z.land (Z.shiftr sector 24) 0x0f)) ;;;
          if has_flag (b_flags b) B_DIRTY then
            outb 0x1f7 write_cmd ;;;
            outsl 0x1f0 (b_data b)
          else outb 0x1f7 read_cmd
  end.

Definition get_idequeue : MK (option nat) := let! k := get_s in ret (k_idequeue k).
Definition set_idequeue (q : option nat) : MK unit := upd_s (fun k => k <| k_idequeue := q |>).

(** The first request leaves the queue: [idequeue = b->qnext] up to [b->flags &= ~B_DIRTY] of [ideintr]. *)
Definition ide_finish (i : nat) (b : buf) : MK unit :=
  set_idequeue (b_qnext b) ;;;
  (if has_flag (b_flags b) B_DIRTY then ret tt
   else
     let! r := idewait true in
     when (0 <=? r)
       (let! d := insl 0x1f0 (BSIZE / 4) in
        set_buf i (fun b => b <| b_data := d |>))) ;;;
  set_buf i (fun b => b <| b_flags := Z.lor (b_flags b) B_VALID |>) ;;;
  set_buf i (fun b => b <| b_flags := Z.land (b_flags b) (Z.lnot B_DIRTY) |>).

Definition ide_ideintr : MK unit :=
  acquire Lide ;;;
  let! q := get_idequeue in
  match q with
  | None => release Lide
  | Some i =>
      let! b := buf_at i in
      ide_finish i b ;;;
      wakeup (Cbuf i) ;;;
      let! q := get_idequeue in
      match q with
      | Some _ => idestart q
      | None => ret tt
      end ;;;
      release Lide
  end.

(** [pp] points to [idequeue] ([None]) or to the field [qnext] of a buffer: reading and writing [*pp]. *)
Definition get_pp (pp : option nat) : MK (option nat) :=
  match pp with
  | None => get_idequeue
  | Some j => let! b := buf_at j in ret (b_qnext b)
  end.
Definition set_pp (pp : option nat) (v : option nat) : MK unit :=
  match pp with
  | None => set_idequeue v
  | Some j => set_buf j (fun b => b <| b_qnext := v |>)
  end.

(** [for(pp=&idequeue; *pp; pp=&( *pp)->qnext) ;] The queue has at most [NBUF] buffers. *)
Definition queue_end : MK (option nat) :=
  loop (Datatypes.S NBUF) (fun pp =>
    let! q := get_pp pp in
    match q with
    | Some j => ret (inl (Some j))
    | None => ret (inr pp)
    end) None.

Definition ide_iderw (i : nat) : MK unit :=
  let! h := holdingsleep (SLbuf i) in
  if negb h then panic "iderw: buf not locked"
  else
    let! b := buf_at i in
    let! k := get_s in
    if Z.land (b_flags b) (Z.lor B_VALID B_DIRTY) =? B_VALID then panic "iderw: nothing to do"
    else if negb (b_dev b =? 0) && negb (k_havedisk1 k) then panic "iderw: ide disk 1 not present"
    else
      acquire Lide ;;;
      set_buf i (fun b => b <| b_qnext := None |>) ;;;
      let! pp := queue_end in
      set_pp pp (Some i) ;;;
      let! q := get_idequeue in
      when (bool_decide (q = Some i)) (idestart (Some i)) ;;;
      while_sleep (let! b := buf_at i in ret (negb (Z.land (b_flags b) (Z.lor B_VALID B_DIRTY) =? B_VALID)))
        (sleep (Cbuf i) Lide) ;;;
      release Lide.

End ide_c.

(** ** Talking to the disk *)

(** The commands of the ATA protocol for one sector [n] of disk [dev]: the address goes to the registers in four
    parts. *)
Definition ata_cmd (dev n cmd : Z) : list hwev :=
  [PortOut 0x3f6 0; PortOut 0x1f2 1; PortOut 0x1f3 (n mod 256); PortOut 0x1f4 (n / 256 mod 256);
   PortOut 0x1f5 (n / 65536 mod 256); PortOut 0x1f6 (0xe0 + 16 * dev + n / 16777216); PortOut 0x1f7 cmd].

(** What [idestart] sends for a buffer. *)
Definition start_evs (b : buf) : list hwev :=
  if has_flag (b_flags b) B_DIRTY then ata_cmd (b_dev b mod 2) (b_blockno b) IDE_CMD_WRITE ++ [PortOuts 0x1f0 (b_data b)]
  else ata_cmd (b_dev b mod 2) (b_blockno b) IDE_CMD_READ.

Section disk.
Context `{Fu : Fuel} `{Hd : Hardware}.

(** Waiting for the disk after the accesses [h]: the polls, and the last status. *)
Fixpoint poll (n : nat) (h : list hwev) : option (list hwev * Z) :=
  match n with
  | O => None
  | Datatypes.S n =>
      let r := u8 (hw_in h 0x1f7) in
      let ev := PortIn 0x1f7 r in
      if disk_ready r then Some ([ev], r)
      else '(evs, r') ← poll n (h ++ [ev]); Some (ev :: evs, r')
  end.

Lemma wait_ready_run m co p k evs r :
  poll fuel (hw_trace (k_hw k)) = Some (evs, r) -> wait_ready (W m co p k) = Ret r (W m co p (hw_log evs k)).
Proof.
  unfold wait_ready. revert k evs. generalize (fuel : nat) as n. induction n as [|n IH]; intros k evs Hp; [done|]. cbn [poll loop] in *.
  set (v := u8 (hw_in (hw_trace (k_hw k)) 0x1f7)) in *.
  rewrite (bind_Ret _ _ _ (if disk_ready v then inr v else inl tt) (W m co p (hw_log [PortIn 0x1f7 v] k))).
  2:{ rewrite (bind_Ret _ _ _ _ _ (inb_run _ _ _ _ _)). fold v. by destruct (disk_ready v). }
  destruct (disk_ready v); [by injection Hp as <- <-|].
  destruct (poll n _) as [[evs' r']|] eqn:E; [|done]. injection Hp as <- <-.
  rewrite (IH (hw_log [PortIn 0x1f7 v] k) evs' E), hw_log_app. done.
Qed.

Lemma idewait_run c m co p k evs r :
  poll fuel (hw_trace (k_hw k)) = Some (evs, r) ->
  idewait c (W m co p k) =
    Ret (if c && negb (Z.land r (Z.lor IDE_DF IDE_ERR) =? 0) then -1 else 0) (W m co p (hw_log evs k)).
Proof.
  intros Hp. unfold idewait. rewrite (bind_Ret _ _ _ _ _ (wait_ready_run m co p k evs r Hp)).
  by destruct (c && negb (Z.land r (Z.lor IDE_DF IDE_ERR) =? 0)).
Qed.

Lemma outb_then {A} port v (f : MK A) m co p k :
  (outb port v ;;; f) (W m co p k) = f (W m co p (hw_log [PortOut port (u8 v)] k)).
Proof. by rewrite (bind_Ret _ _ _ _ _ (outb_run port v m co p k)). Qed.

Lemma u8_land n : u8 (Z.land n 0xff) = n mod 256.
Proof. change 0xff with (Z.ones 8). rewrite Z.land_ones by lia. unfold u8. change (2 ^ 8) with 256. apply Zmod_mod. Qed.

Lemma dev_port dev : u8 (Z.lor (Z.lor 0xe0 (Z.shiftl (Z.land dev 1) 4)) 0) = 0xe0 + 16 * (dev mod 2).
Proof.
  change 1 with (Z.ones 1). rewrite Z.land_ones, Z.lor_0_r by lia. change (2 ^ 1) with 2.
  pose proof (Z.mod_pos_bound dev 2). assert (dev mod 2 = 0 \/ dev mod 2 = 1) as [->| ->] by lia; reflexivity.
Qed.

Lemma idestart_run i b m co p k evs r :
  k_bufs k !! i = Some b -> 0 <= b_blockno b < FSSIZE -> poll fuel (hw_trace (k_hw k)) = Some (evs, r) ->
  idestart (Some i) (W m co p k) = Ret tt (W m co p (hw_log (evs ++ start_evs b) k)).
Proof.
  intros Hb Hn Hp. unfold idestart. rewrite (bind_Ret (buf_at i) _ (W m co p k) b (W m co p k)).
  2:{ unfold buf_at, bind, get_s. cbn [bind_res w_s]. by rewrite Hb. }
  unfold FSSIZE in *. destruct (Z.leb_spec 1000 (b_blockno b)); [lia|].
  change (Z.of_nat BSIZE / SECTOR_SIZE) with 1. cbn [Z.eqb Pos.eqb Z.ltb Z.compare Pos.compare Pos.compare_cont]. rewrite Z.mul_1_r.
  rewrite (bind_Ret _ _ _ _ _ (idewait_run false m co p k evs r Hp)).
  assert (H24 : Z.shiftr (b_blockno b) 24 = 0) by (rewrite Z.shiftr_div_pow2, Z.div_small by lia; done).
  assert (Hd24 : b_blockno b / 16777216 = 0) by (apply Z.div_small; lia).
  rewrite H24. change (Z.land 0 15) with 0. rewrite !outb_then. unfold start_evs, ata_cmd.
  rewrite dev_port, !u8_land, !Z.shiftr_div_pow2, Hd24, Z.add_0_r by lia. change (2 ^ 8) with 256. change (2 ^ 16) with 65536.
  destruct (has_flag (b_flags b) B_DIRTY); [rewrite outb_then, outsl_run|rewrite outb_run];
    rewrite !hw_log_app; do 3 f_equal; by rewrite <- !app_assoc.
Qed.

End disk.

(** ** The queue *)

(** From [a], following [qnext], one passes the buffers [l] and comes to the null pointer. *)
Fixpoint chain (bufs : list buf) (a : option nat) (l : list nat) : Prop :=
  match l with
  | [] => a = None
  | i :: l => a = Some i /\ exists b, bufs !! i = Some b /\ chain bufs (b_qnext b) l
  end.

Definition queue (k : kst) (l : list nat) : Prop := chain (k_bufs k) (k_idequeue k) l /\ NoDup l /\ (length l <= NBUF)%nat.

Lemma chain_frame bufs bufs' a l :
  (forall i b, i ∈ l -> bufs !! i = Some b -> exists b', bufs' !! i = Some b' /\ b_qnext b' = b_qnext b) ->
  chain bufs a l -> chain bufs' a l.
Proof.
  revert a. induction l as [|i l IH]; intros a Hf; cbn [chain]; [done|]. intros (Ha & b & Hb & Hc). split; [done|].
  destruct (Hf i b) as (b' & Hb' & Hn); [left|done|]. exists b'. split; [done|]. rewrite Hn.
  apply IH; [|done]. intros j c Hj. apply Hf. by right.
Qed.

Lemma chain_alter bufs f i a l : i ∉ l -> chain bufs a l -> chain (alter f i bufs) a l.
Proof.
  intros Hi. apply chain_frame. intros j b Hj Hb. exists b. split; [|done]. rewrite list_lookup_alter_ne; [done|].
  intros <-. done.
Qed.

Lemma chain_alter_keep bufs f i a l : (forall b, b_qnext (f b) = b_qnext b) -> chain bufs a l -> chain (alter f i bufs) a l.
Proof.
  intros Hq. apply chain_frame. intros j b Hj Hb. destruct (decide (j = i)) as [->|Hne].
  - exists (f b). by rewrite list_lookup_alter_eq, Hb.
  - exists b. by rewrite list_lookup_alter_ne.
Qed.

(** Appending a buffer whose link is null: the last link of the queue changes. *)
Lemma chain_snoc bufs a l j i :
  chain bufs a (l ++ [j]) -> NoDup (l ++ [j]) -> i ∉ l ++ [j] -> (exists b, bufs !! i = Some b /\ b_qnext b = None) ->
  chain (alter (fun b => b <| b_qnext := Some i |>) j bufs) a ((l ++ [j]) ++ [i]).
Proof.
  intros Hc Hnd Hi (bi & Hbi & Hqi). revert a Hc Hnd Hi. induction l as [|x l IH]; intros a Hc Hnd Hi; cbn [app chain] in *.
  - destruct Hc as (-> & b & Hb & _). split; [done|]. exists (b <| b_qnext := Some i |>). rewrite list_lookup_alter_eq, Hb.
    split; [done|]. split; [done|]. exists bi. rewrite list_lookup_alter_ne by (intros ->; apply Hi; left). done.
  - destruct Hc as (-> & b & Hb & Hc). apply list.NoDup_cons in Hnd as [Hx Hnd]. split; [done|]. exists b. split.
    + rewrite list_lookup_alter_ne; [done|]. intros <-. apply Hx, elem_of_app. right. left.
    + apply IH; [done|done|]. intros H. apply Hi. by right.
Qed.

Section queueing.
Context `{Fu : Fuel} `{Hd : Hardware}.

(** The end of the queue: the head, or the link of the last buffer. *)
Lemma queue_end_loop m co p k l : forall n pp a,
  get_pp pp (W m co p k) = Ret a (W m co p k) -> chain (k_bufs k) a l -> (length l < n)%nat ->
  loop n (fun pp => let! q := get_pp pp in match q with Some j => ret (inl (Some j)) | None => ret (inr pp) end) pp (W m co p k) =
    Ret (match list.last l with Some j => Some j | None => pp end) (W m co p k).
Proof.
  induction l as [|i l IH]; intros n pp a Hget Hc Hn; (destruct n as [|n]; [lia|]); cbn [loop chain] in *.
  - subst a. rewrite (bind_Ret _ _ _ (inr pp) (W m co p k)); [done|]. by rewrite (bind_Ret _ _ _ _ _ Hget).
  - destruct Hc as (-> & b & Hb & Hc). rewrite (bind_Ret _ _ _ (inl (Some i)) (W m co p k)); [|by rewrite (bind_Ret _ _ _ _ _ Hget)].
    cbn [length] in Hn. rewrite (IH n (Some i) (b_qnext b)); [|unfold get_pp, buf_at, bind, get_s; cbn; by rewrite Hb|done|lia].
    rewrite last_cons. by destruct (list.last l).
Qed.

(** The state after the request is in the queue. *)
Definition enqueue (i : nat) (pp : option nat) (k : kst) : kst :=
  let bufs := alter (fun b => b <| b_qnext := None |>) i (k_bufs k) in
  match pp with
  | None => k <| k_bufs := bufs |> <| k_idequeue := Some i |>
  | Some j => k <| k_bufs := alter (fun b => b <| b_qnext := Some i |>) j bufs |>
  end.

Lemma enqueue_queue i l k :
  queue k l -> i ∉ l -> (length l < NBUF)%nat -> (exists b, k_bufs k !! i = Some b) -> queue (enqueue i (list.last l) k) (l ++ [i]).
Proof.
  intros (Hc & Hnd & Hl) Hi Hlt (bi & Hbi). split; [|split].
  - apply (chain_alter _ (fun b => b <| b_qnext := None |>) i) in Hc; [|done].
    destruct l as [|j l _] using rev_ind; cbn [app list.last enqueue].
    + cbn in Hc. cbn [chain k_idequeue k_bufs set_field]. split; [done|]. exists (bi <| b_qnext := None |>).
      cbn [k_bufs]. by rewrite list_lookup_alter_eq, Hbi.
    + rewrite last_snoc. cbn [k_idequeue k_bufs set_field]. apply chain_snoc; [done|done|done|].
      exists (bi <| b_qnext := None |>). by rewrite list_lookup_alter_eq, Hbi.
  - apply list.NoDup_app. split; [done|]. split; [|apply list.NoDup_singleton]. intros x Hx ->%list_elem_of_singleton. done.
  - rewrite length_app. cbn [length]. lia.
Qed.

(** The request gets into the queue. *)
Lemma enqueue_run {A} m H co p k i l (f : option nat -> MK A) :
  queue k l -> i ∉ l ->
  (set_buf i (fun b => b <| b_qnext := None |>) ;;; let! pp := queue_end in set_pp pp (Some i) ;;; let! q := get_idequeue in f q)
    (W (held m H) co p k) =
  f (k_idequeue (enqueue i (list.last l) k)) (W (held m H) co p (enqueue i (list.last l) k)).
Proof.
  intros (Hc & Hnd & Hl) Hi. set (k1 := k <| k_bufs := alter (fun b => b <| b_qnext := None |>) i (k_bufs k) |>).
  rewrite (bind_Ret (set_buf _ _) _ (W (held m H) co p k) tt (W (held m H) co p k1) eq_refl).
  assert (Hend : queue_end (W (held m H) co p k1) = Ret (list.last l) (W (held m H) co p k1)).
  { unfold queue_end. rewrite (queue_end_loop (held m H) co p k1 l (Datatypes.S NBUF) None (k_idequeue k)); [|done| |lia].
    - by destruct (list.last l).
    - by apply chain_alter. }
  rewrite (bind_Ret _ _ _ _ _ Hend). by destruct (list.last l).
Qed.

End queueing.

(** ** The interrupt handler *)

Definition transferred (d : list Z) (b : buf) : buf :=
  b <| b_data := d |> <| b_flags := Z.land (Z.lor (b_flags b) B_VALID) (Z.lnot B_DIRTY) |>.

(** The request of buffer [i] is finished with the data [d], after the accesses [evs]. *)
Definition finish (i : nat) (b : buf) (d : list Z) (evs : list hwev) (k : kst) : kst :=
  hw_log evs (k <| k_bufs := <[i := transferred d b]> (k_bufs k) |> <| k_idequeue := b_qnext b |>).

Lemma alter_insert {A} (f : A -> A) (l : list A) i x : l !! i = Some x -> alter f i l = <[i := f x]> l.
Proof.
  intros Hx. apply list_eq. intros j. destruct (decide (j = i)) as [->|].
  - rewrite list_lookup_alter_eq, Hx, list_lookup_insert_eq by (by eapply lookup_lt_Some). done.
  - by rewrite list_lookup_alter_ne, list_lookup_insert_ne by done.
Qed.

Section intr.
Context `{Fu : Fuel} `{Hd : Hardware}.

(** What the handler gets from the disk after the accesses [h]: the accesses it makes, and the data. *)
Definition collects (h : list hwev) (b : buf) (evs : list hwev) (d : list Z) : Prop :=
  if has_flag (b_flags b) B_DIRTY then evs = [] /\ d = b_data b
  else exists polls r, poll fuel h = Some (polls, r) /\ Z.land r (Z.lor IDE_DF IDE_ERR) = 0 /\
         d = hw_ins (h ++ polls) 0x1f0 128 /\ evs = polls ++ [PortIns 0x1f0 d].

Definition woken (i : nat) (p : procs) : procs := p <| ptable := wake (Some (Cbuf i)) <$> ptable p |>.

Lemma ide_finish_run m H co p k i b d evs :
  k_bufs k !! i = Some b -> collects (hw_trace (k_hw k)) b evs d ->
  ide_finish i b (W (held m H) co p k) =
  Ret tt (W (held m H) co p (finish i b d evs k)).
Proof.
  intros Hb Hcol. unfold ide_finish. set (k0 := k <| k_idequeue := b_qnext b |>).
  rewrite (bind_Ret (set_idequeue _) _ (W (held m H) co p k) tt (W (held m H) co p k0) eq_refl).
  unfold collects in Hcol. unfold finish, transferred. destruct (has_flag (b_flags b) B_DIRTY).
  - destruct Hcol as [-> ->]. rewrite hw_log_nil.
    transitivity (Ret tt (W (held m H) co p (k0 <| k_bufs := alter (fun b => b <| b_flags := Z.land (b_flags b) (Z.lnot B_DIRTY) |>) i
      (alter (fun b => b <| b_flags := Z.lor (b_flags b) B_VALID |>) i (k_bufs k)) |>))); [done|].
    rewrite alter_same, (alter_insert _ _ _ _ Hb). unfold k0. by destruct b, k.
  - destruct Hcol as (polls & r & Hp & Hr & -> & ->). set (d := hw_ins (hw_trace (k_hw k) ++ polls) 0x1f0 128).
    rewrite (bind_Ret _ _ _ tt (W (held m H) co p (hw_log (polls ++ [PortIns 0x1f0 d])
      (k0 <| k_bufs := alter (fun b => b <| b_data := d |>) i (k_bufs k) |>)))).
    + transitivity (Ret tt (W (held m H) co p (hw_log (polls ++ [PortIns 0x1f0 d]) (k0 <| k_bufs :=
        alter (fun b => b <| b_flags := Z.land (b_flags b) (Z.lnot B_DIRTY) |>) i
          (alter (fun b => b <| b_flags := Z.lor (b_flags b) B_VALID |>) i
            (alter (fun b => b <| b_data := d |>) i (k_bufs k))) |>)))); [done|].
      rewrite !alter_same, (alter_insert _ _ _ _ Hb). unfold k0. by destruct b, k.
    + rewrite (bind_Ret _ _ _ _ _ (idewait_run true (held m H) co p k0 polls r Hp)), Hr. cbn [Z.eqb negb andb].
      cbn [Z.leb Z.compare when]. change (BSIZE / 4)%nat with 128%nat.
      rewrite (bind_Ret _ _ _ _ _ (insl_run _ _ _ _ _ _)), hw_log_trace, hw_log_app. fold d. done.
Qed.

(** The handler finishes the first request and starts the next one. *)
Lemma wp_ide_ideintr m co p k i b d evs (Q : unit -> world kst -> Prop) :
  idle m -> has_lock m Lide -> has_lock m Lptable -> k_idequeue k = Some i -> k_bufs k !! i = Some b ->
  collects (hw_trace (k_hw k)) b evs d ->
  let k1 := finish i b d evs k in
  match b_qnext b with
  | None => Q tt (W (held m []) co (woken i p) k1)
  | Some j => exists c polls r, k_bufs k1 !! j = Some c /\ 0 <= b_blockno c < FSSIZE /\
      poll fuel (hw_trace (k_hw k1)) = Some (polls, r) /\
      Q tt (W (held m []) co (woken i p) (hw_log (polls ++ start_evs c) k1))
  end ->
  wp ide_ideintr Q (W (held m []) co p k).
Proof.
  intros Hm Hide Hpt Hq Hb Hcol k1 HQ. unfold ide_ideintr, get_idequeue, buf_at. ksteps. rewrite Hq. ksteps.
  eapply wp_eq; [by apply ide_finish_run|]. fold k1. kstep. apply wp_wakeup; [done|done|not_held|]. ksteps.
  change (k_idequeue k1) with (b_qnext b). destruct (b_qnext b) as [j|]; ksteps; [|done].
  destruct HQ as (c & polls & r & Hc & Hn & Hp & HQ). eapply wp_eq; [by eapply idestart_run|]. ksteps. done.
Qed.

End intr.

(** ** A request *)

Lemma not_in_last (l : list nat) i j : i ∉ l -> list.last l = Some j -> j ≠ i.
Proof. intros Hi Hl <-. apply Hi. by apply last_Some_elem_of. Qed.

Lemma enqueue_buf i l k b :
  i ∉ l -> k_bufs k !! i = Some b -> k_bufs (enqueue i (list.last l) k) !! i = Some (b <| b_qnext := None |>).
Proof.
  intros Hi Hb. unfold enqueue. destruct (list.last l) as [j|] eqn:Hl; cbn [k_bufs set_field].
  - rewrite list_lookup_alter_ne by (by eapply not_in_last). by rewrite list_lookup_alter_eq, Hb.
  - by rewrite list_lookup_alter_eq, Hb.
Qed.

Lemma enqueue_head i l k : queue k l -> i ∉ l -> bool_decide (k_idequeue (enqueue i (list.last l) k) = Some i) = bool_decide (l = []).
Proof.
  intros (Hc & _) Hi. apply bool_decide_ext. destruct l as [|j l].
  - done.
  - destruct Hc as [Hq _]. split; [|done]. intros Hh. exfalso. apply Hi. unfold enqueue in Hh.
    destruct (list.last (j :: l)) eqn:E; [|by rewrite last_None in E]. cbn [k_idequeue set_field] in Hh.
    rewrite Hq in Hh. injection Hh as ->. left.
Qed.

Section request.
Context (turns : nat) `{Hd : Hardware}.
Local Instance request_fuel : Fuel := Datatypes.S turns.

Definition pending (b : buf) : bool := negb (Z.land (b_flags b) (Z.lor B_VALID B_DIRTY) =? B_VALID).

(** The caller may start a transfer of buffer [i]. *)
Record may_start (k : kst) (pid : Z) (i : nat) (b : buf) : Prop := {
  ms_buf : k_bufs k !! i = Some b;
  ms_slot : (i < NBUF)%nat;
  ms_lock : sl_locked (b_lock b) ≠ 0 /\ sl_pid (b_lock b) = pid;
  ms_pending : pending b = true;
  ms_disk : b_dev b = 0 \/ k_havedisk1 k = true;
  ms_block : 0 <= b_blockno b < FSSIZE;
}.

(** The state in which the caller sleeps: the request is the last of the queue, and the disk was started when it is
    the first. *)
Definition requested (i : nat) (b : buf) (l : list nat) (polls : list hwev) (k : kst) : kst :=
  hw_log (if bool_decide (l = []) then polls ++ start_evs b else []) (enqueue i (list.last l) k).

Lemma iderw_blocks m co p k me pid i b l polls r :
  running m p me pid -> may_start k pid i b -> queue k l -> i ∉ l ->
  (l = [] -> poll fuel (hw_trace (k_hw k)) = Some (polls, r)) ->
  exists kont,
    ide_iderw i (W (held m []) co p k) = Swtch (W (held m [Lptable]) co (asleep me (Cbuf i) p) (requested i b l polls k)) kont /\
    forall m' co' p' k' b', running m' p' me pid -> k_bufs k' !! i = Some b' -> pending b' = false ->
      kont (W (held m' [Lptable]) co' p' k') = Ret tt (W (held (m' <| fl_if := fl_if m |>) []) co' (awake me p') k').
Proof.
  intros Hrun [Hb Hi [Hlk Hpid] Hpend Hdisk Hn] Hq Hil Hp. pose proof Hrun as [Hm Hr Hc (pr & Hpr & _)].
  assert (Hide : has_lock m Lide) by eauto with xv6. assert (Hpt : has_lock m Lptable) by eauto with xv6.
  assert (Hhold : wp (holdingsleep (SLbuf i)) (fun h w => h = true /\ w = W (held m []) co p k) (W (held m []) co p k)).
  { eapply wp_holdingsleep; [eauto with xv6|exact Hrun|not_held|cbn; by rewrite Hb|].
    rewrite (proj2 (Z.eqb_neq _ _) Hlk), Hpid, Z.eqb_refl. done. }
  apply wp_elim in Hhold as (? & ? & Hhold & -> & ->). unfold ide_iderw. rewrite (bind_Ret _ _ _ _ _ Hhold). cbn [negb].
  assert (Hbuf : forall m co p k b, k_bufs k !! i = Some b -> buf_at i (W m co p k) = Ret b (W m co p k)).
  { intros m0 co0 p0 k0 b0 Hb0. unfold buf_at, bind, get_s. cbn. by rewrite Hb0. }
  rewrite (bind_Ret _ _ _ _ _ (Hbuf _ _ _ _ _ Hb)).
  rewrite (bind_Ret get_s _ (W (held m []) co p k) k (W (held m []) co p k) eq_refl).
  pose proof Hpend as Hpend0. unfold pending in Hpend. apply negb_true_iff in Hpend. rewrite Hpend.
  assert (negb (b_dev b =? 0) && negb (k_havedisk1 k) = false) as ->.
  { destruct Hdisk as [->| ->]; [done|]. by rewrite andb_false_r. }
  erewrite bind_Ret by (apply acquire_held; [done..|not_held]). rewrite (enqueue_run m [Lide] co p k i l) by done.
  rewrite (enqueue_head i l k Hq Hil). set (k1 := enqueue i (list.last l) k).
  pose proof (enqueue_buf i l k b Hil Hb) as Hb1. fold k1 in Hb1.
  rewrite (bind_Ret _ _ _ tt (W (held m [Lide]) co p (requested i b l polls k))).
  2:{ unfold requested. fold k1. case_bool_decide as Hl; cbn [when]; [|by rewrite hw_log_nil].
      rewrite (idestart_run i _ _ _ _ _ polls r Hb1); [done|done|].
      subst l. cbn [list.last] in k1. apply (Hp eq_refl). }
  set (k2 := requested i b l polls k). assert (Hb2 : k_bufs k2 !! i = Some (b <| b_qnext := None |>)) by done.
  destruct (sleep_run m Lide (Cbuf i) co p k2 me pr) as (k0 & Hs & Hk0); [done..|].
  assert (Hcond : (let! b := buf_at i in ret (pending b)) (W (held m [Lide]) co p k2) = Ret true (W (held m [Lide]) co p k2)).
  { rewrite (bind_Ret _ _ _ _ _ (Hbuf _ _ _ _ _ Hb2)). unfold ret. by rewrite <- Hpend0. }
  destruct (while_sleeps (Datatypes.S turns) _ _ _ _ _ Hcond Hs) as (kl & Hloop & Hkl).
  erewrite bind_Swtch by exact Hloop. eexists. split; [reflexivity|].
  intros m' co' p' k' b' Hrun' Hb' Hdone. pose proof Hrun' as [Hm' Hr' Hc' _]. cbn beta.
  assert (Hide' : has_lock m' Lide) by eauto with xv6.
  rewrite (Hkl _ _ (Hk0 m' co' p' k' Hm' ltac:(eauto with xv6) Hide')), while_exit.
  - cbn [bind_res]. apply release_last; [done|done|not_held].
  - rewrite (bind_Ret _ _ _ _ _ (Hbuf _ _ _ _ _ Hb')). unfold ret. by rewrite <- Hdone.
Qed.

(** ** A disk that follows the ATA protocol *)

(** [sect h dev n] are the contents of sector [n] of disk [dev] after the accesses [h].  The disk becomes ready without an
    error, a write command with its data stores a sector, a read command makes the data port return it once a poll has found the disk ready and
    without an error, and polling and reading change nothing.  (ide.c sends the data of a write at once, without waiting for DRQ; [ata_write] is what it
    relies on.) *)
Record ata (sect : list hwev -> Z -> Z -> list Z) : Prop := {
  ata_wait : forall h, exists polls r, poll fuel h = Some (polls, r) /\ Z.land r (Z.lor IDE_DF IDE_ERR) = 0;
  ata_poll : forall h v dev' n', sect (h ++ [PortIn 0x1f7 v]) dev' n' = sect h dev' n';
  ata_write : forall h dev n bs dev' n', 0 <= dev < 2 -> 0 <= n < 2 ^ 28 -> length bs = BSIZE ->
    sect (h ++ ata_cmd dev n IDE_CMD_WRITE ++ [PortOuts 0x1f0 bs]) dev' n' =
      if (dev' =? dev) && (n' =? n) then bs else sect h dev' n';
  ata_read : forall h dev n vs v, 0 <= dev < 2 -> 0 <= n < 2 ^ 28 -> disk_ready v = true -> Z.land v (Z.lor IDE_DF IDE_ERR) = 0 ->
    hw_ins (h ++ ata_cmd dev n IDE_CMD_READ ++ (PortIn 0x1f7 <$> vs ++ [v])) 0x1f0 128 = sect h dev n;
  ata_read_keeps : forall h dev n vs bs dev' n', 0 <= dev < 2 -> 0 <= n < 2 ^ 28 ->
    sect (h ++ ata_cmd dev n IDE_CMD_READ ++ (PortIn 0x1f7 <$> vs) ++ [PortIns 0x1f0 bs]) dev' n' = sect h dev' n';
}.

Lemma poll_events m : forall h polls r, poll m h = Some (polls, r) ->
  disk_ready r = true /\ exists vs, polls = PortIn 0x1f7 <$> vs ++ [r].
Proof.
  induction m as [|m IH]; intros h polls r Hp; [done|]. cbn [poll] in Hp. set (v := u8 (hw_in h 0x1f7)) in *.
  destruct (disk_ready v) eqn:Hv; [injection Hp as <- <-; split; [done|by exists []]|].
  destruct (poll m _) as [[evs r']|] eqn:E; [|done]. injection Hp as <- <-. apply IH in E as (Hr & vs & ->). split; [done|by exists (v :: vs)].
Qed.

Lemma poll_reads m h polls r : poll m h = Some (polls, r) -> exists vs, polls = PortIn 0x1f7 <$> vs.
Proof. intros Hp. destruct (poll_events m h polls r Hp) as (_ & vs & ->). by eexists. Qed.

Lemma ata_polls sect vs : ata sect -> forall h dev n, sect (h ++ (PortIn 0x1f7 <$> vs)) dev n = sect h dev n.
Proof.
  intros Ha. induction vs as [|v vs IH] using rev_ind; intros h dev n.
  - by rewrite app_nil_r.
  - rewrite fmap_app, app_assoc. cbn [fmap list_fmap]. rewrite (ata_poll _ Ha). apply IH.
Qed.

Lemma transferred_done d b : pending (transferred d b) = false.
Proof.
  unfold pending, transferred. cbn [b_flags set_field]. apply negb_false_iff, Z.eqb_eq, Z.bits_inj'. intros j Hj.
  change (Z.lor B_VALID B_DIRTY) with (Z.lor (2 ^ 1) (2 ^ 2)). change B_VALID with (2 ^ 1). change B_DIRTY with (2 ^ 2).
  rewrite !Z.land_spec, !Z.lor_spec, Z.lnot_spec, !Z.pow2_bits_eqb by lia.
  destruct (Z.eqb_spec 1 j), (Z.eqb_spec 2 j); try lia; cbn [orb andb negb]; rewrite ?andb_true_r, ?orb_true_r, ?andb_false_r; done.
Qed.

(** The contents of the disk after the request of [b]. *)
Definition stored (b : buf) (before : Z -> Z -> list Z) (dev n : Z) : list Z :=
  if has_flag (b_flags b) B_DIRTY && ((dev =? b_dev b mod 2) && (n =? b_blockno b)) then b_data b else before dev n.
Definition loaded (b : buf) (before : Z -> Z -> list Z) : list Z :=
  if has_flag (b_flags b) B_DIRTY then b_data b else before (b_dev b mod 2) (b_blockno b).

(** What the interrupt handler collects, after the request of [b] was sent. *)
Lemma ata_collects sect h b polls :
  ata sect -> 0 <= b_blockno b < FSSIZE -> length (b_data b) = BSIZE -> (exists vs, polls = PortIn 0x1f7 <$> vs) ->
  exists evs, collects (h ++ polls ++ start_evs b) b evs (loaded b (sect h)) /\
    forall dev n, sect ((h ++ polls ++ start_evs b) ++ evs) dev n = stored b (sect h) dev n.
Proof.
  intros Ha Hn Hl (vs & ->). assert (Hdev : 0 <= b_dev b mod 2 < 2) by (by apply Z.mod_pos_bound).
  assert (Hn28 : 0 <= b_blockno b < 2 ^ 28) by (unfold FSSIZE in Hn; lia).
  unfold collects, loaded, stored, start_evs. destruct (has_flag (b_flags b) B_DIRTY).
  - exists []. split; [done|]. intros dev' n'. rewrite app_nil_r, app_assoc, (ata_write _ Ha) by done. cbn [andb].
    destruct ((dev' =? b_dev b mod 2) && (n' =? b_blockno b)); [done|]. by apply ata_polls.
  - destruct (ata_wait _ Ha (h ++ (PortIn 0x1f7 <$> vs) ++ ata_cmd (b_dev b mod 2) (b_blockno b) IDE_CMD_READ))
      as (polls & r & Hp & Hr). destruct (poll_events _ _ _ _ Hp) as (Hrdy & vs' & ->). eexists. split.
    + do 2 eexists. split; [exact Hp|]. split; [exact Hr|]. split; [|reflexivity].
      rewrite <- !app_assoc. rewrite (app_assoc h), (ata_read _ Ha), ata_polls by done. done.
    + intros dev' n'. rewrite <- !app_assoc. rewrite (app_assoc h), (ata_read_keeps _ Ha), ata_polls by done. done.
Qed.

(** C17.  A transfer on an idle disk that follows the ATA protocol: [iderw] puts the caller to sleep on the buffer; the next disk interrupt
    finds the request, moves the data (from the buffer to the sector of its block when the buffer is dirty, from
    the sector to the buffer otherwise, and no other sector changes), marks the buffer valid and clean and wakes the
    caller; and the caller, when it runs again, returns without any lock held. *)
Theorem ide_transfer sect m co p k me pid i b :
  ata sect -> running m p me pid -> may_start k pid i b -> k_idequeue k = None -> length (b_data b) = BSIZE ->
  let before := sect (hw_trace (k_hw k)) in
  exists k1 kont,
    ide_iderw i (W (held m []) co p k) = Swtch (W (held m [Lptable]) co (asleep me (Cbuf i) p) k1) kont /\
    forall m1 co1 p1 k1', idle m1 -> has_lock m1 Lide -> has_lock m1 Lptable ->
      k_bufs k1' !! i = k_bufs k1 !! i -> k_idequeue k1' = k_idequeue k1 -> hw_trace (k_hw k1') = hw_trace (k_hw k1) ->
      exists k2, ide_ideintr (W (held m1 []) co1 p1 k1') = Ret tt (W (held m1 []) co1 (woken i p1) k2) /\
        k_idequeue k2 = None /\
        (forall dev n, sect (hw_trace (k_hw k2)) dev n = stored b before dev n) /\
        exists b2, k_bufs k2 !! i = Some b2 /\ b_data b2 = loaded b before /\ pending b2 = false /\
        forall m2 co2 p2 k2', running m2 p2 me pid -> k_bufs k2' !! i = Some b2 ->
          kont (W (held m2 [Lptable]) co2 p2 k2') = Ret tt (W (held (m2 <| fl_if := fl_if m |>) []) co2 (awake me p2) k2').
Proof.
  intros Ha Hrun Hms Hq Hl before. destruct (ata_wait _ Ha (hw_trace (k_hw k))) as (polls & r & Hp & Hr).
  destruct (iderw_blocks m co p k me pid i b [] polls r Hrun Hms) as (kont & Hsw & Hk).
  { split; [done|]. split; [apply base.NoDup_nil_2|cbn; lia]. } { apply not_elem_of_nil. } { done. }
  set (k1 := requested i b [] polls k) in *. exists k1, kont. split; [done|].
  intros m1 co1 p1 k1' Hm1 Hide Hpt Hbufs Hqueue Htrace. set (b1 := b <| b_qnext := None |>).
  assert (Hb1 : k_bufs k1' !! i = Some b1).
  { rewrite Hbufs. apply (enqueue_buf i [] k b); [apply not_elem_of_nil|apply Hms]. }
  destruct (ata_collects sect (hw_trace (k_hw k)) b1 polls Ha (ms_block _ _ _ _ Hms) Hl (poll_reads _ _ _ _ Hp)) as (evs & Hcol & Hsect).
  assert (Hwp : wp ide_ideintr (fun _ w => w = W (held m1 []) co1 (woken i p1) (finish i b1 (loaded b1 before) evs k1'))
    (W (held m1 []) co1 p1 k1')).
  { eapply wp_ide_ideintr; [done|done|done| |exact Hb1| |].
    - by rewrite Hqueue.
    - rewrite Htrace. exact Hcol.
    - reflexivity. }
  apply wp_elim in Hwp as ([] & w & Hw & ->). eexists. split; [exact Hw|]. split; [done|]. split.
  - intros dev' n'. unfold finish. rewrite hw_log_trace. cbn [k_hw set_field]. rewrite Htrace. apply Hsect.
  - exists (transferred (loaded b1 before) b1). split; [|split; [done|]; split; [apply transferred_done|]].
    + unfold finish. cbn [hw_log k_bufs set_field]. apply list_lookup_insert_eq. by eapply lookup_lt_Some.
    + intros m2 co2 p2 k2' Hrun2 Hb2. eapply Hk; [done|exact Hb2|apply transferred_done].
Qed.

Lemma collects_exists sect h b : ata sect -> exists evs d, collects h b evs d.
Proof.
  intros Ha. unfold collects. destruct (has_flag (b_flags b) B_DIRTY); [by exists [], (b_data b)|].
  destruct (ata_wait _ Ha h) as (polls & r & Hp & Hr). do 2 eexists. exists polls, r. done.
Qed.

Lemma lookup_alter_inv {A} (f : A -> A) i (l : list A) j x :
  alter f i l !! j = Some x -> exists y, l !! j = Some y /\ (x = y \/ x = f y).
Proof.
  destruct (decide (j = i)) as [->|Hne].
  - rewrite list_lookup_alter_eq, fmap_Some. intros (y & Hy & ->). eauto.
  - rewrite list_lookup_alter_ne by done. eauto.
Qed.

Lemma enqueue_blockno i pp k x c :
  k_bufs (enqueue i pp k) !! x = Some c -> exists c0, k_bufs k !! x = Some c0 /\ b_blockno c = b_blockno c0.
Proof.
  unfold enqueue. destruct pp as [j|]; cbn [k_bufs set_field].
  - intros (c1 & Hc1 & Hc)%lookup_alter_inv. apply lookup_alter_inv in Hc1 as (c0 & Hc0 & Hc1). exists c0. split; [done|].
    destruct Hc as [->| ->], Hc1 as [->| ->]; done.
  - intros (c0 & Hc0 & Hc)%lookup_alter_inv. exists c0. split; [done|]. by destruct Hc as [->| ->].
Qed.

(** Requests are served in the order in which they came: [iderw] on a busy disk appends the buffer to the queue and does not
    touch the disk, and the interrupt handler takes the first request out of the queue and starts the next one. *)
Theorem ide_fifo sect m co p k me pid i b j l :
  ata sect -> running m p me pid -> may_start k pid i b -> queue k (j :: l) -> i ∉ j :: l -> (length (j :: l) < NBUF)%nat ->
  (forall x c, x ∈ j :: l -> k_bufs k !! x = Some c -> 0 <= b_blockno c < FSSIZE) ->
  exists k1 kont,
    ide_iderw i (W (held m []) co p k) = Swtch (W (held m [Lptable]) co (asleep me (Cbuf i) p) k1) kont /\
    queue k1 ((j :: l) ++ [i]) /\ hw_trace (k_hw k1) = hw_trace (k_hw k) /\
    forall m1 co1 p1, idle m1 -> has_lock m1 Lide -> has_lock m1 Lptable ->
      exists k2 next c evs, ide_ideintr (W (held m1 []) co1 p1 k1) = Ret tt (W (held m1 []) co1 (woken j p1) k2) /\
        queue k2 (l ++ [i]) /\ list.head (l ++ [i]) = Some next /\ k_bufs k2 !! next = Some c /\
        hw_trace (k_hw k2) = hw_trace (k_hw k1) ++ evs ++ start_evs c.
Proof.
  intros Ha Hrun Hms Hq Hi Hlt Hbn.
  destruct (iderw_blocks m co p k me pid i b (j :: l) [] 0 Hrun Hms Hq Hi) as (kont & Hsw & _); [done|].
  set (k1 := requested i b (j :: l) [] k) in *. exists k1, kont. split; [done|].
  assert (Ek1 : k1 = enqueue i (list.last (j :: l)) k) by apply hw_log_nil. clearbody k1.
  assert (Hq1 : queue k1 ((j :: l) ++ [i])). { rewrite Ek1. apply enqueue_queue; [done|done|done|]. exists b. apply Hms. }
  split; [done|]. split. { rewrite Ek1. unfold enqueue. by destruct (list.last (j :: l)). }
  intros m1 co1 p1 Hm1 Hide Hpt. pose proof Hq1 as (Hc & Hnd & Hlen). cbn [app chain] in Hc.
  destruct Hc as (Hhead & bj & Hbj & Hc). cbn [app] in Hnd. apply list.NoDup_cons in Hnd as [Hj Hnd].
  destruct (collects_exists sect (hw_trace (k_hw k1)) bj Ha) as (evs & d & Hcol).
  set (k2 := finish j bj d evs k1).
  assert (Hc2 : chain (k_bufs k2) (b_qnext bj) (l ++ [i])).
  { eapply chain_frame; [|exact Hc]. intros x c Hx Hcx. exists c. split; [|done]. cbn [k2 finish hw_log k_bufs set_field].
    rewrite list_lookup_insert_ne; [done|]. intros ->. done. }
  destruct (l ++ [i]) as [|next rest] eqn:El; [by apply (f_equal length) in El; rewrite length_app in El; cbn in El; lia|].
  pose proof Hc2 as (Hnext & c & Hcn & _). destruct (ata_wait _ Ha (hw_trace (k_hw k2))) as (polls & r & Hp & _).
  assert (Hcb : 0 <= b_blockno c < FSSIZE).
  { cbn [k2 finish hw_log k_bufs set_field] in Hcn. rewrite list_lookup_insert_ne in Hcn by (intros <-; apply Hj; left).
    rewrite Ek1 in Hcn. apply enqueue_blockno in Hcn as (c0 & Hc0 & ->).
    assert (Hnl : next ∈ l ++ [i]) by (rewrite El; left). apply elem_of_app in Hnl as [Hnl| ->%list_elem_of_singleton].
    - apply (Hbn next); [by right|done].
    - pose proof (ms_buf _ _ _ _ Hms) as Hbi. rewrite Hbi in Hc0. injection Hc0 as <-. apply Hms. }
  assert (Hwp : wp ide_ideintr (fun _ w => w = W (held m1 []) co1 (woken j p1) (hw_log (polls ++ start_evs c) k2)) (W (held m1 []) co1 p1 k1)).
  { eapply wp_ide_ideintr; [done|done|done|exact Hhead|exact Hbj|exact Hcol|]. cbn zeta. fold k2. rewrite Hnext.
    exists c, polls, r. done. }
  apply wp_elim in Hwp as ([] & w & Hw & ->). exists (hw_log (polls ++ start_evs c) k2), next, c, (evs ++ polls).
  split; [exact Hw|]. split; [|split; [done|]; split; [done|]].
  - split; [|split; [done|cbn [app length] in Hlen; rewrite El in Hlen; cbn [length] in Hlen |- *; lia]].
    cbn [hw_log k_bufs k_idequeue set_field]. exact Hc2.
  - rewrite hw_log_trace. unfold k2, finish. rewrite hw_log_trace. by rewrite <- !app_assoc.
Qed.

End request.

(** ** A concrete disk *)

(** The address registers, and the sectors. *)
Record adisk := mkAdisk { ad3 : Z; ad4 : Z; ad5 : Z; ad6 : Z; ad_sect : Z -> Z -> list Z }.
Definition ad_lba (s : adisk) : Z := ad3 s + 256 * ad4 s + 65536 * ad5 s + 16777216 * (ad6 s mod 16).
Definition ad_dev (s : adisk) : Z := ad6 s / 16 mod 2.
Definition ad_step (s : adisk) (ev : hwev) : adisk :=
  match ev with
  | PortOut port v =>
      if port =? 0x1f3 then mkAdisk v (ad4 s) (ad5 s) (ad6 s) (ad_sect s)
      else if port =? 0x1f4 then mkAdisk (ad3 s) v (ad5 s) (ad6 s) (ad_sect s)
      else if port =? 0x1f5 then mkAdisk (ad3 s) (ad4 s) v (ad6 s) (ad_sect s)
      else if port =? 0x1f6 then mkAdisk (ad3 s) (ad4 s) (ad5 s) v (ad_sect s)
      else s
  | PortOuts _ bs =>
      mkAdisk (ad3 s) (ad4 s) (ad5 s) (ad6 s) (fun dev n => if (dev =? ad_dev s) && (n =? ad_lba s) then bs else ad_sect s dev n)
  | _ => s
  end.
Definition ad_run (h : list hwev) : adisk := foldl ad_step (mkAdisk 0 0 0 0 (fun _ n => replicate BSIZE (n mod 256))) h.

Definition ex_disk : Hardware :=
  {| hw_in _ _ := IDE_DRDY; hw_ins h _ _ := ad_sect (ad_run h) (ad_dev (ad_run h)) (ad_lba (ad_run h)); hw_mmio _ _ := 0 |}.

Lemma lba_decode dev n : 0 <= dev < 2 -> 0 <= n < 2 ^ 28 ->
  n mod 256 + 256 * (n / 256 mod 256) + 65536 * (n / 65536 mod 256) + 16777216 * ((0xe0 + 16 * dev + n / 16777216) mod 16) = n /\
  (0xe0 + 16 * dev + n / 16777216) / 16 mod 2 = dev.
Proof.
  intros Hd Hn. assert (Hq : 0 <= n / 16777216 < 16) by (split; [apply Z.div_pos; lia|apply Z.div_lt_upper_bound; lia]).
  replace (0xe0 + 16 * dev + n / 16777216) with (n / 16777216 + (14 + dev) * 16) by lia.
  rewrite Z.mod_add, Z.div_add, (Z.mod_small (n / 16777216)), (Z.div_small (n / 16777216)) by lia. split.
  - replace (n / 16777216) with (n / 256 / 256 / 256) by (rewrite !Z.div_div by lia; done).
    replace (n / 65536) with (n / 256 / 256) by (rewrite !Z.div_div by lia; done).
    pose proof (Z.div_mod n 256). pose proof (Z.div_mod (n / 256) 256). pose proof (Z.div_mod (n / 256 / 256) 256). lia.
  - assert (dev = 0 \/ dev = 1) as [->| ->] by lia; done.
Qed.

(** The registers after a command. *)
Lemma ad_cmd_run dev n cmd h : 0 <= dev < 2 -> 0 <= n < 2 ^ 28 ->
  let s := ad_run (h ++ ata_cmd dev n cmd) in ad_lba s = n /\ ad_dev s = dev /\ ad_sect s = ad_sect (ad_run h).
Proof.
  intros Hd Hn s. unfold s, ad_run. rewrite foldl_app. set (s0 := foldl ad_step _ h).
  cbn [ata_cmd foldl ad_step Z.eqb Pos.eqb ad3 ad4 ad5 ad6 ad_sect]. unfold ad_lba, ad_dev. cbn [ad3 ad4 ad5 ad6 ad_sect].
  destruct (lba_decode dev n Hd Hn) as [Hl Hv]. split; [exact Hl|]. split; [exact Hv|reflexivity].
Qed.

Lemma ad_polls h vs : ad_run (h ++ (PortIn 0x1f7 <$> vs)) = ad_run h.
Proof. unfold ad_run. rewrite foldl_app. generalize (foldl ad_step (mkAdisk 0 0 0 0 (fun _ n => replicate BSIZE (n mod 256))) h).
  induction vs as [|v vs IH]; intros s; [done|]. apply IH.
Qed.

Lemma ex_disk_ata turns : ata turns (Hd := ex_disk) (fun h => ad_sect (ad_run h)).
Proof.
  split.
  - intros h. by exists [PortIn 0x1f7 IDE_DRDY], IDE_DRDY.
  - intros h v dev' n'. apply (f_equal (fun s => ad_sect s dev' n') (ad_polls h [v])).
  - intros h dev n bs dev' n' Hd Hn _. rewrite app_assoc. destruct (ad_cmd_run dev n IDE_CMD_WRITE h Hd Hn) as (Hl & Hv & Hs).
    unfold ad_run in *. rewrite foldl_app. cbn [foldl ad_step ad_sect]. rewrite Hl, Hv, Hs. done.
  - intros h dev n vs v Hd Hn _ _. destruct (ad_cmd_run dev n IDE_CMD_READ h Hd Hn) as (Hl & Hv & Hs).
    cbn [ex_disk hw_ins]. rewrite app_assoc, ad_polls, Hl, Hv, Hs. done.
  - intros h dev n vs bs dev' n' Hd Hn. destruct (ad_cmd_run dev n IDE_CMD_READ h Hd Hn) as (_ & _ & Hs).
    rewrite !app_assoc. unfold ad_run at 1. rewrite foldl_app. cbn [foldl ad_step]. fold (ad_run ((h ++ ata_cmd dev n IDE_CMD_READ) ++ (PortIn 0x1f7 <$> vs))).
    rewrite ad_polls, Hs. done.
Qed.

(** Process 4 holds the locks of the buffers 3 and 7, for block 59 of disk 1, to read and to write it. *)
Definition ex_ide_buf (flags : Z) : buf :=
  buf_zero <| b_flags := flags |> <| b_dev := 1 |> <| b_blockno := 59 |> <| b_lock := mkSl 1 "buffer" 4 |>
    <| b_data := replicate BSIZE 7 |>.
Definition ex_ide (queue : option nat) : kst :=
  kst0 <| k_bufs := <[7%nat := ex_ide_buf B_DIRTY]> (<[3%nat := ex_ide_buf 0]> (k_bufs kst0)) |> <| k_idequeue := queue |>.

Lemma ex_ide_locks : has_lock ex_machine Lide /\ has_lock ex_machine Lptable.
Proof. split; (apply ready_lock; [apply (run_locks _ _ _ _ (ex_running 0))|set_solver]). Qed.

Lemma ide_transfer_witness :
  exists k1 kont,
    ide_iderw (Fu := 1%nat) (Hd := ex_disk) 3 (W (held ex_machine []) ex_console (ex_procs 0) (ex_ide None)) =
      Swtch (W (held ex_machine [Lptable]) ex_console (asleep 1 (Cbuf 3) (ex_procs 0)) k1) kont /\
    exists k2, ide_ideintr (Fu := 1%nat) (Hd := ex_disk) (W (held ex_machine []) ex_console (ex_procs 0) k1) =
      Ret tt (W (held ex_machine []) ex_console (woken 3 (ex_procs 0)) k2) /\
      exists b2, k_bufs k2 !! 3%nat = Some b2 /\ b_data b2 = replicate BSIZE 59.
Proof.
  destruct (ide_transfer 0 (Hd := ex_disk) _ ex_machine ex_console (ex_procs 0) (ex_ide None) 1 4 3 (ex_ide_buf 0) (ex_disk_ata 0) (ex_running 0))
    as (k1 & kont & Hsw & Hintr); [|reflexivity|reflexivity|].
  - split; [reflexivity|unfold NBUF; lia|split; [discriminate|reflexivity]|reflexivity|right; reflexivity|].
    cbn. unfold FSSIZE. lia.
  - exists k1, kont. split; [exact Hsw|].
    destruct (Hintr ex_machine ex_console (ex_procs 0) k1) as (k2 & Hrun & _ & _ & b2 & Hb2 & Hd & _);
      [apply one_cpu_idle|apply ex_ide_locks|apply ex_ide_locks|reflexivity|reflexivity|reflexivity|].
    exists k2. split; [exact Hrun|]. exists b2. split; [exact Hb2|]. rewrite Hd. reflexivity.
Defined.

Lemma ide_fifo_witness :
  exists k1 kont,
    ide_iderw (Fu := 1%nat) (Hd := ex_disk) 7 (W (held ex_machine []) ex_console (ex_procs 0) (ex_ide (Some 3%nat))) =
      Swtch (W (held ex_machine [Lptable]) ex_console (asleep 1 (Cbuf 7) (ex_procs 0)) k1) kont /\
    queue k1 [3%nat; 7%nat].
Proof.
  destruct (ide_fifo 0 (Hd := ex_disk) _ ex_machine ex_console (ex_procs 0) (ex_ide (Some 3%nat)) 1 4 7 (ex_ide_buf B_DIRTY) 3 []
    (ex_disk_ata 0) (ex_running 0)) as (k1 & kont & Hsw & Hq & _).
  - split; [reflexivity|unfold NBUF; lia|split; [discriminate|reflexivity]|reflexivity|right; reflexivity|].
    cbn. unfold FSSIZE. lia.
  - split; [|split; [apply list.NoDup_singleton|cbn; unfold NBUF; lia]]. split; [reflexivity|].
    exists (ex_ide_buf 0). split; reflexivity.
  - intros H%list_elem_of_singleton. discriminate.
  - cbn. unfold NBUF. lia.
  - intros x c Hx%list_elem_of_singleton Hc. subst x. injection Hc as <-. cbn. unfold FSSIZE. lia.
  - exists k1, kont. split; [exact Hsw|exact Hq].
Defined.
