(* ===== verification/Bcache.v ===== *)
(** * The buffer cache as a view of the disk

    The invariant of the cache, for a process that runs while no other
    process holds a buffer: [cache k pid hs dt view] says that the process [pid] has locked
    the buffers [hs], that the blocks [dt] are dirty, that a reader sees the contents [view] (the cached data
    of a valid buffer, the disk's otherwise), and that a buffer which is
    neither locked nor dirty agrees with the disk.  The rules for [bread],
    [bwrite] and [brelse] are stated with it; the log and the file system use
    only them. *)

From S2P Require Import Prelude Kstate Spinlock Cprintf Proc Kdata Sleeplock Bio.
From stdpp Require Import gmap strings list fin_maps functions.
Open Scope Z_scope.

(** ** The invariant of the buffers' contents *)

(** The flags of a buffer: 0 for no contents, 2 for valid, 6 for valid and dirty. *)
Record data_ok (bs : list buf) (disk : list (list Z)) (pid : Z) (hs : gset nat)
    (dt : gset Z) (view : Z -> list Z) : Prop := {
  d_len : length bs = NBUF;
  d_disk : Forall (fun blk => length blk = BSIZE) disk;
  d_flags : forall i b, bs !! i = Some b -> b_flags b = 0 \/ b_flags b = 2 \/ b_flags b = 6;
  d_size : forall i b, bs !! i = Some b -> length (b_data b) = BSIZE;
  d_range : forall i b, bs !! i = Some b -> b_dev b = 1 -> 0 <= b_blockno b < Z.of_nat (length disk);
  d_valid : forall i b, bs !! i = Some b -> b_flags b ≠ 0 -> b_dev b = 1;
  d_uniq : forall i j b c, bs !! i = Some b -> bs !! j = Some c -> b_dev b = 1 -> b_dev c = 1 ->
    b_blockno b = b_blockno c -> i = j;
  d_view : forall i b, bs !! i = Some b -> b_flags b ≠ 0 -> view (b_blockno b) = b_data b;
  d_uncached : forall n blk, disk !! Z.to_nat n = Some blk -> 0 <= n ->
    (forall i b, bs !! i = Some b -> b_flags b ≠ 0 -> b_blockno b ≠ n) -> view n = blk;
  d_clean : forall i b, bs !! i = Some b -> i ∉ hs -> b_flags b = 2 ->
    disk !! Z.to_nat (b_blockno b) = Some (b_data b);
  d_free : forall i b, bs !! i = Some b -> i ∉ hs -> b_refcnt b = 0 /\ sl_locked (b_lock b) = 0;
  d_held : forall i, i ∈ hs -> exists b, bs !! i = Some b /\ b_refcnt b = 1 /\
    sl_locked (b_lock b) = 1 /\ sl_pid (b_lock b) = pid /\ b_flags b ≠ 0;
  d_dirty : forall n, n ∈ dt <-> exists i b, bs !! i = Some b /\ b_flags b = 6 /\ b_blockno b = n;
}.

Lemma lookup_insert_cases {A} (l : list A) i j x y :
  <[i := x]> l !! j = Some y -> (i = j /\ y = x) \/ (i ≠ j /\ l !! j = Some y).
Proof.
  intros Hj. destruct (decide (i = j)) as [<-|Hne].
  - assert (Hlt : (i < length l)%nat) by (apply lookup_lt_Some in Hj; by rewrite length_insert in Hj).
    rewrite list_lookup_insert_eq in Hj by done. left. by simplify_eq.
  - rewrite list_lookup_insert_ne in Hj by done. by right.
Qed.

(** [split_insert] splits a lookup in an updated table. *)
Ltac split_insert :=
  repeat match goal with
  | H : <[_ := _]> _ !! _ = Some _ |- _ => apply lookup_insert_cases in H as [[<- ->]|[??]]
  end.

Section data.
Context (bs : list buf) (disk : list (list Z)) (pid : Z) (hs : gset nat)
  (dt : gset Z) (view : Z -> list Z).
Context (D : data_ok bs disk pid hs dt view).

Lemma view_size n : 0 <= n < Z.of_nat (length disk) -> length (view n) = BSIZE.
Proof.
  intros Hn. destruct (lookup_lt_is_Some_2 disk (Z.to_nat n)) as [blk Hblk]; [lia|].
  destruct (find_idx (fun b => negb (b_flags b =? 0) && (b_blockno b =? n)) bs) as [i|] eqn:Hf.
  - apply find_idx_Some in Hf as [(b & Hb & Ht) _].
    apply andb_prop in Ht as [Hfl%negb_true_iff%Z.eqb_neq <-%Z.eqb_eq].
    rewrite (d_view _ _ _ _ _ _ D i b) by done. by eapply (d_size _ _ _ _ _ _ D).
  - rewrite (d_uncached _ _ _ _ _ _ D n blk); [|done|lia|].
    + eapply (Forall_lookup_1 _ _ _ _ (d_disk _ _ _ _ _ _ D) Hblk).
    + intros i b Hb Hfl Hn'. rewrite find_idx_None in Hf. specialize (Hf i b Hb).
      rewrite Hn', Z.eqb_refl, (proj2 (Z.eqb_neq _ _) Hfl) in Hf. done.
Qed.

(** Loading block [n] into the free buffer [i]. *)
Lemma data_load i b b' n :
  i ∉ hs -> bs !! i = Some b -> 0 <= n < Z.of_nat (length disk) ->
  (forall j c, bs !! j = Some c -> b_dev c = 1 -> b_blockno c = n -> j = i) ->
  (b_flags b = 6 -> b_blockno b = n) ->
  b_dev b' = 1 -> b_blockno b' = n -> b_flags b' = 2 \/ b_flags b' = 6 -> b_data b' = view n ->
  b_refcnt b' = 1 -> sl_locked (b_lock b') = 1 -> sl_pid (b_lock b') = pid ->
  (b_flags b' = 6 <-> n ∈ dt) ->
  data_ok (<[i := b']> bs) disk pid ({[i]} ∪ hs) dt view.
Proof.
  intros Hi Hb Hn Honly Hdirty Hdev Hno Hfl Hdata Href Hlk Hpid Hdt.
  assert (Hlt : (i < length bs)%nat) by by eapply lookup_lt_Some.
  pose proof (view_size n Hn) as Hsz. split.
  - rewrite length_insert. apply D.
  - apply D.
  - intros j c Hj. split_insert; [tauto|]. by eapply (d_flags _ _ _ _ _ _ D).
  - intros j c Hj. split_insert; [congruence|]. by eapply (d_size _ _ _ _ _ _ D).
  - intros j c Hj Hd. split_insert; [lia|]. by eapply (d_range _ _ _ _ _ _ D).
  - intros j c Hj Hd. split_insert; [done|]. by eapply (d_valid _ _ _ _ _ _ D).
  - intros j1 j2 c1 c2 H1 H2 Hd1 Hd2 He. split_insert; [done|..].
    + eapply Honly; eauto. congruence.
    + symmetry. eapply Honly; eauto. congruence.
    + by eapply (d_uniq _ _ _ _ _ _ D).
  - intros j c Hj Hf. split_insert; [congruence|]. by eapply (d_view _ _ _ _ _ _ D).
  - intros n' blk Hblk Hn' Hno'. destruct (decide (b_flags b = 2 /\ b_blockno b = n')) as [[Hb2 <-]|Hne].
    + rewrite (d_view _ _ _ _ _ _ D i b) by (done || lia).
      pose proof (d_clean _ _ _ _ _ _ D i b Hb Hi Hb2). congruence.
    + eapply (d_uncached _ _ _ _ _ _ D); [done..|]. intros j c Hj Hf He.
      destruct (decide (j = i)) as [->|Hji].
      * rewrite Hb in Hj. injection Hj as <-.
        destruct (d_flags _ _ _ _ _ _ D i b Hb) as [?|[?|H6]]; [done|by apply Hne|].
        eapply (Hno' i b'); [by apply list_lookup_insert_eq|lia|]. rewrite Hno, <- He. symmetry. by apply Hdirty.
      * eapply (Hno' j c); [by rewrite list_lookup_insert_ne|done|done].
  - intros j c Hj Hni Hf. split_insert; [set_solver|]. eapply (d_clean _ _ _ _ _ _ D); [done|set_solver|done].
  - intros j c Hj Hni. split_insert; [set_solver|]. eapply (d_free _ _ _ _ _ _ D); [done|set_solver].
  - intros j [->%elem_of_singleton|Hj]%elem_of_union.
    + exists b'. rewrite list_lookup_insert_eq by done. repeat split; try done. lia.
    + rewrite list_lookup_insert_ne by set_solver. by apply (d_held _ _ _ _ _ _ D).
  - intros n'. rewrite (d_dirty _ _ _ _ _ _ D n'). split.
    + intros (j & c & Hj & Hc & Hcn). destruct (decide (j = i)) as [->|Hji].
      * rewrite Hb in Hj. injection Hj as <-. exists i, b'. rewrite list_lookup_insert_eq by done.
        assert (Hbn : b_blockno b = n) by auto. split; [done|]. split; [|congruence].
        apply Hdt. apply (d_dirty _ _ _ _ _ _ D). eauto.
      * exists j, c. by rewrite list_lookup_insert_ne.
    + intros (j & c & Hj & Hc & Hcn). split_insert; [|eauto].
      apply (d_dirty _ _ _ _ _ _ D). rewrite <- Hcn, Hno. by apply Hdt.
Qed.

(** Giving buffer [i] back: if it is not dirty it agrees with the disk. *)
Lemma data_release i b b' :
  i ∈ hs -> bs !! i = Some b ->
  (b_flags b = 2 -> disk !! Z.to_nat (b_blockno b) = Some (b_data b)) ->
  b_dev b' = b_dev b -> b_blockno b' = b_blockno b -> b_flags b' = b_flags b -> b_data b' = b_data b ->
  b_refcnt b' = 0 -> sl_locked (b_lock b') = 0 ->
  data_ok (<[i := b']> bs) disk pid (hs ∖ {[i]}) dt view.
Proof.
  intros Hi Hb Hclean Hdev Hno Hfl Hdata Href Hlk. split.
  - rewrite length_insert. apply D.
  - apply D.
  - intros j c Hj. split_insert; [rewrite Hfl|]; by eapply (d_flags _ _ _ _ _ _ D).
  - intros j c Hj. split_insert; [rewrite Hdata|]; by eapply (d_size _ _ _ _ _ _ D).
  - intros j c Hj Hd. split_insert; [rewrite Hno; rewrite Hdev in Hd|]; by eapply (d_range _ _ _ _ _ _ D).
  - intros j c Hj Hd. split_insert; [rewrite Hdev; rewrite Hfl in Hd|]; by eapply (d_valid _ _ _ _ _ _ D).
  - intros j1 j2 c1 c2 H1 H2 Hd1 Hd2 He. split_insert; [done|..];
      rewrite ?Hno, ?Hdev in *; by eapply (d_uniq _ _ _ _ _ _ D).
  - intros j c Hj Hf. split_insert; [rewrite Hno, Hdata; rewrite Hfl in Hf|]; by eapply (d_view _ _ _ _ _ _ D).
  - intros n blk Hblk Hn Hnone. eapply (d_uncached _ _ _ _ _ _ D); [done..|]. intros j c Hj Hf He.
    destruct (decide (j = i)) as [->|Hji].
    + simplify_eq. eapply (Hnone i b'); [apply list_lookup_insert_eq; by eapply lookup_lt_Some|congruence..].
    + eapply (Hnone j c); [by rewrite list_lookup_insert_ne|done..].
  - intros j c Hj Hni Hf. split_insert.
    + rewrite Hno, Hdata. apply Hclean. congruence.
    + eapply (d_clean _ _ _ _ _ _ D); [done|set_solver|done].
  - intros j c Hj Hni. split_insert; [done|]. eapply (d_free _ _ _ _ _ _ D); [done|set_solver].
  - intros j Hj. rewrite list_lookup_insert_ne by set_solver. apply (d_held _ _ _ _ _ _ D). set_solver.
  - intros n. rewrite (d_dirty _ _ _ _ _ _ D n). split.
    + intros (j & c & Hj & Hc & Hcn). destruct (decide (j = i)) as [->|Hji].
      * rewrite Hb in Hj. injection Hj as <-. exists i, b'.
        rewrite list_lookup_insert_eq by by eapply lookup_lt_Some. split; [done|]. split; congruence.
      * exists j, c. by rewrite list_lookup_insert_ne.
    + intros (j & c & Hj & Hc & Hcn). split_insert; [|eauto]. exists i, b. split; [done|]. split; congruence.
Qed.

(** Changing a locked buffer: its contents, and with them the view, or its flags. *)
Lemma data_modify i b b' :
  i ∈ hs -> bs !! i = Some b ->
  b_dev b' = b_dev b -> b_blockno b' = b_blockno b -> b_flags b' = 2 \/ b_flags b' = 6 ->
  length (b_data b') = BSIZE -> b_refcnt b' = b_refcnt b -> b_lock b' = b_lock b ->
  data_ok (<[i := b']> bs) disk pid hs
    (if decide (b_flags b' = 6) then {[b_blockno b]} ∪ dt else dt ∖ {[b_blockno b]})
    (<[b_blockno b := b_data b']> view).
Proof.
  intros Hi Hb Hdev Hno Hfl Hlen Href Hlk.
  destruct (d_held _ _ _ _ _ _ D i Hi) as (b0 & Hb0 & Hr & Hl & Hp & Hf0). simplify_eq.
  pose proof (d_valid _ _ _ _ _ _ D i b Hb Hf0) as Hd1. split.
  - rewrite length_insert. apply D.
  - apply D.
  - intros j c Hj. split_insert; [tauto|]; by eapply (d_flags _ _ _ _ _ _ D).
  - intros j c Hj. split_insert; [done|]; by eapply (d_size _ _ _ _ _ _ D).
  - intros j c Hj Hd. split_insert; [rewrite Hno; rewrite Hdev in Hd|]; by eapply (d_range _ _ _ _ _ _ D).
  - intros j c Hj Hd. split_insert; [by rewrite Hdev|]; by eapply (d_valid _ _ _ _ _ _ D).
  - intros j1 j2 c1 c2 H1 H2 Hd1' Hd2' He. split_insert; [done|..];
      rewrite ?Hno, ?Hdev in *; by eapply (d_uniq _ _ _ _ _ _ D).
  - intros j c Hj Hf. split_insert.
    + rewrite Hno. apply fn_lookup_insert.
    + rewrite fn_lookup_insert_ne; [by eapply (d_view _ _ _ _ _ _ D)|].
      intros He. assert (i = j); [|done].
      eapply (d_uniq _ _ _ _ _ _ D); eauto. by eapply (d_valid _ _ _ _ _ _ D).
  - intros n blk Hblk Hn Hnone. rewrite fn_lookup_insert_ne.
    2:{ intros He. eapply (Hnone i b'); [apply list_lookup_insert_eq; by eapply lookup_lt_Some|lia|congruence]. }
    eapply (d_uncached _ _ _ _ _ _ D); [done..|]. intros j c Hj Hf He.
    destruct (decide (j = i)) as [->|Hji].
    + simplify_eq. eapply (Hnone i b'); [apply list_lookup_insert_eq; by eapply lookup_lt_Some|lia|done].
    + eapply (Hnone j c); [by rewrite list_lookup_insert_ne|done..].
  - intros j c Hj Hni Hf. split_insert; [done|]. by eapply (d_clean _ _ _ _ _ _ D).
  - intros j c Hj Hni. split_insert; [done|]. by eapply (d_free _ _ _ _ _ _ D).
  - intros j Hj. destruct (decide (i = j)) as [<-|Hne].
    + exists b'. rewrite list_lookup_insert_eq by by eapply lookup_lt_Some.
      rewrite Href, Hlk. repeat split; try done. lia.
    + rewrite list_lookup_insert_ne by done. by apply (d_held _ _ _ _ _ _ D).
  - intros n.
    assert (Hother : (exists j c, <[i := b']> bs !! j = Some c /\ b_flags c = 6 /\ b_blockno c = n) <->
      (b_flags b' = 6 /\ b_blockno b = n) \/ (n ∈ dt /\ b_blockno b ≠ n)).
    { split.
      - intros (j & c & Hj & Hc & Hcn). split_insert; [left; split; congruence|].
        right. split; [apply (d_dirty _ _ _ _ _ _ D); eauto|]. intros He. assert (i = j); [|done].
        eapply (d_uniq _ _ _ _ _ _ D); eauto; [|congruence]. eapply (d_valid _ _ _ _ _ _ D); [done|lia].
      - intros [[Hf He]|[Hin He]].
        + exists i, b'. rewrite list_lookup_insert_eq by by eapply lookup_lt_Some. split; [done|]. split; congruence.
        + apply (d_dirty _ _ _ _ _ _ D) in Hin as (j & c & Hj & Hc & Hcn). exists j, c.
          rewrite list_lookup_insert_ne; [done|]. intros ->. rewrite Hb in Hj. congruence. }
    rewrite Hother. case_decide; destruct (decide (b_blockno b = n)); set_solver.
Qed.
End data.

Lemma data_view_ext bs disk pid hs dt view view' :
  (forall n, view' n = view n) -> data_ok bs disk pid hs dt view -> data_ok bs disk pid hs dt view'.
Proof. intros He D. destruct D. split; intros; rewrite ?He; eauto. Qed.

(** Writing the locked buffer [i] to its block. *)
Lemma data_write bs disk pid hs dt view i b b' :
  data_ok bs disk pid hs dt view -> i ∈ hs -> bs !! i = Some b ->
  b_dev b' = b_dev b -> b_blockno b' = b_blockno b -> b_flags b' = 2 -> b_data b' = b_data b ->
  b_refcnt b' = b_refcnt b -> b_lock b' = b_lock b ->
  data_ok (<[i := b']> bs) (<[Z.to_nat (b_blockno b) := b_data b]> disk) pid hs (dt ∖ {[b_blockno b]}) view.
Proof.
  intros D Hi Hb Hdev Hno Hfl Hdata Href Hlk.
  destruct (d_held _ _ _ _ _ _ D i Hi) as (b0 & Hb0 & Hr & Hl & Hp & Hf0).
  rewrite Hb in Hb0. injection Hb0 as <-.
  pose proof (d_valid _ _ _ _ _ _ D i b Hb Hf0) as Hd1.
  pose proof (d_range _ _ _ _ _ _ D i b Hb Hd1) as Hrange.
  assert (D1 : data_ok bs (<[Z.to_nat (b_blockno b) := b_data b]> disk) pid hs dt view).
  { split; try apply D.
    - apply Forall_insert; [apply D|]. by eapply (d_size _ _ _ _ _ _ D).
    - intros j c Hj Hc. rewrite length_insert. by eapply (d_range _ _ _ _ _ _ D).
    - intros n blk Hblk Hn Hnone. apply lookup_insert_cases in Hblk as [[He ->]|[_ Hblk]].
      + exfalso. apply (Hnone i b Hb Hf0). lia.
      + by eapply (d_uncached _ _ _ _ _ _ D).
    - intros j c Hj Hni Hf. pose proof (d_clean _ _ _ _ _ _ D j c Hj Hni Hf) as Hc.
      rewrite list_lookup_insert_ne; [done|]. intros He.
      assert (Hd2 : b_dev c = 1) by (eapply (d_valid _ _ _ _ _ _ D); [done|lia]).
      pose proof (d_range _ _ _ _ _ _ D j c Hj Hd2).
      assert (i = j); [|congruence]. eapply (d_uniq _ _ _ _ _ _ D); eauto. lia. }
  pose proof (data_modify _ _ _ _ _ _ D1 i b b') as Dm. rewrite decide_False in Dm by lia.
  eapply data_view_ext; [|apply Dm; try done; [by left|rewrite Hdata; by eapply (d_size _ _ _ _ _ _ D)]].
  intros n. destruct (decide (b_blockno b = n)) as [<-|Hne].
  - rewrite fn_lookup_insert, Hdata. by eapply (d_view _ _ _ _ _ _ D).
  - by rewrite fn_lookup_insert_ne.
Qed.

(** ** The invariant of the cache *)

Definition cache (k : kst) (pid : Z) (hs : gset nat) (dt : gset Z) (view : Z -> list Z) : Prop :=
  (exists l, ring k l) /\ data_ok (cores k) (k_disk k) pid hs dt view.

(** [put_core i b k]: buffer [i] gets the fields of [b], its links stay. *)
Definition relink (b x : buf) : buf := b <| b_prev := b_prev x |> <| b_next := b_next x |>.
Definition put_core (i : nat) (b : buf) (k : kst) : kst :=
  k <| k_bufs := alter (relink b) i (k_bufs k) |>.

Lemma core_relink b x : core (relink b x) = core b.
Proof. done. Qed.

Lemma cores_put_core i b k : (i < length (k_bufs k))%nat -> cores (put_core i b k) = <[i := core b]> (cores k).
Proof.
  intros Hi. destruct (lookup_lt_is_Some_2 _ _ Hi) as [x Hx].
  unfold cores, put_core. cbn. rewrite (alter_is_insert _ _ i x Hx). by rewrite list_fmap_insert.
Qed.

Lemma cores_lookup k i b : cores k !! i = Some b -> exists x, k_bufs k !! i = Some x /\ b = core x.
Proof. unfold cores. rewrite list_lookup_fmap, fmap_Some. done. Qed.

Lemma length_cores k : length (cores k) = length (k_bufs k).
Proof. apply length_fmap. Qed.

Lemma ring_put_core i b k l : ring k l -> ring (put_core i b k) l.
Proof.
  intros [Hs Hl]. split; [|cbn; by rewrite length_alter].
  eapply seg_ext; [exact Hs|..]; intros [j|] _; cbn; try done; rewrite list_lookup_alter; case_decide; subst; try done.
  all: by destruct (k_bufs k !! j).
Qed.

Lemma put_core_put_core i b b' k : put_core i b' (put_core i b k) = put_core i b' k.
Proof. unfold put_core, set_field; cbn -[alter]. by rewrite alter_same. Qed.

Lemma bufs_put_core i b k x : k_bufs k !! i = Some x -> k_bufs (put_core i b k) !! i = Some (relink b x).
Proof. intros Hx. cbn. by rewrite list_lookup_alter_eq, Hx. Qed.

Lemma bufs_put_core_ne i j b k : i ≠ j -> k_bufs (put_core i b k) !! j = k_bufs k !! j.
Proof. intros Hne. cbn. by rewrite list_lookup_alter_ne. Qed.

Lemma relink_self b : relink b b = b.
Proof. by destruct b. Qed.

(** Every update of a buffer that leaves its links alone is a [put_core]. *)
Lemma set_buf_put_core i f k x :
  k_bufs k !! i = Some x -> b_prev (f x) = b_prev x -> b_next (f x) = b_next x ->
  k <| k_bufs := alter f i (k_bufs k) |> = put_core i (f x) k.
Proof.
  intros Hx Hp Hn. unfold put_core. rewrite !(alter_is_insert _ _ i x Hx).
  replace (relink (f x) x) with (f x); [done|]. unfold relink. rewrite <- Hp, <- Hn. by destruct (f x).
Qed.

Lemma sl_upd_put_core i f k x :
  k_bufs k !! i = Some x -> sl_upd (SLbuf i) f k = put_core i (x <| b_lock := f (b_lock x) |>) k.
Proof. intros Hx. by apply (set_buf_put_core i (fun b => b <| b_lock := f (b_lock b) |>) k x). Qed.

(** A locked buffer. *)
Lemma cache_held k pid hs dt view i :
  cache k pid hs dt view -> i ∈ hs ->
  exists x, k_bufs k !! i = Some x /\ b_refcnt x = 1 /\ sl_locked (b_lock x) = 1 /\
    sl_pid (b_lock x) = pid /\ (b_flags x = 2 \/ b_flags x = 6) /\ b_dev x = 1 /\
    0 <= b_blockno x < Z.of_nat (length (k_disk k)) /\ b_data x = view (b_blockno x) /\
    length (b_data x) = BSIZE.
Proof.
  intros [_ D] Hi. destruct (d_held _ _ _ _ _ _ D i Hi) as (b & Hb & Hr & Hl & Hp & Hf).
  pose proof (d_valid _ _ _ _ _ _ D i b Hb Hf). pose proof (d_range _ _ _ _ _ _ D i b Hb H).
  pose proof (d_view _ _ _ _ _ _ D i b Hb Hf). pose proof (d_size _ _ _ _ _ _ D i b Hb).
  pose proof (d_flags _ _ _ _ _ _ D i b Hb).
  apply cores_lookup in Hb as (x & Hx & ->). exists x. cbn in *. repeat split; try done; try lia.
Qed.

Lemma cache_length k pid hs dt view : cache k pid hs dt view -> length (k_bufs k) = NBUF.
Proof. intros [_ D]. rewrite <- length_cores. apply D. Qed.

(** Changing a locked buffer. *)
Lemma cache_modify k pid hs dt view i x b' :
  cache k pid hs dt view -> i ∈ hs -> k_bufs k !! i = Some x ->
  b_dev b' = b_dev x -> b_blockno b' = b_blockno x -> b_flags b' = 2 \/ b_flags b' = 6 ->
  length (b_data b') = BSIZE -> b_refcnt b' = b_refcnt x -> b_lock b' = b_lock x ->
  cache (put_core i b' k) pid hs
    (if decide (b_flags b' = 6) then {[b_blockno x]} ∪ dt else dt ∖ {[b_blockno x]})
    (<[b_blockno x := b_data b']> view).
Proof.
  intros [[l Hr] D] Hi Hx Hdev Hno Hfl Hlen Href Hlk. split; [exists l; by apply ring_put_core|].
  rewrite cores_put_core by by eapply lookup_lt_Some.
  apply (data_modify _ _ _ _ _ _ D i (core x) (core b')); try done.
  unfold cores. by rewrite list_lookup_fmap, Hx.
Qed.

Lemma held_dirty k pid hs dt view i x :
  cache k pid hs dt view -> i ∈ hs -> k_bufs k !! i = Some x -> b_flags x = 6 <-> b_blockno x ∈ dt.
Proof.
  intros Hc Hi Hx. destruct (cache_held _ _ _ _ _ _ Hc Hi) as (x' & Hx' & _ & _ & _ & _ & Hdev & _).
  rewrite Hx in Hx'. injection Hx' as <-. destruct Hc as [_ D].
  assert (Hxc : cores k !! i = Some (core x)) by (unfold cores; by rewrite list_lookup_fmap, Hx).
  rewrite (d_dirty _ _ _ _ _ _ D). split; [intros; by exists i, (core x)|].
  intros (j & c & Hj & Hc & Hcn). assert (j = i) as ->.
  { eapply (d_uniq _ _ _ _ _ _ D); eauto. eapply (d_valid _ _ _ _ _ _ D); [done|lia]. }
  rewrite Hxc in Hj. apply (inj Some) in Hj. by rewrite <- Hj in Hc.
Qed.

Lemma cache_set_data k pid hs dt view i x d :
  cache k pid hs dt view -> i ∈ hs -> k_bufs k !! i = Some x -> length d = BSIZE ->
  cache (put_core i (x <| b_data := d |>) k) pid hs dt (<[b_blockno x := d]> view).
Proof.
  intros Hc Hi Hx Hd. destruct (cache_held _ _ _ _ _ _ Hc Hi) as (x' & Hx' & _ & _ & _ & Hf & _).
  rewrite Hx in Hx'. injection Hx' as <-. pose proof (held_dirty _ _ _ _ _ i x Hc Hi Hx) as Hdt.
  pose proof (cache_modify _ _ _ _ _ i x (x <| b_data := d |>) Hc Hi Hx) as Hm. cbn in Hm.
  specialize (Hm eq_refl eq_refl Hf Hd eq_refl eq_refl).
  replace (if decide (b_flags x = 6) then {[b_blockno x]} ∪ dt else dt ∖ {[b_blockno x]}) with dt in Hm; [done|].
  case_decide; set_solver.
Qed.

(** A buffer the recycling scan of [bget] can take. *)
Definition has_room (k : kst) (hs : gset nat) : Prop :=
  exists i b, cores k !! i = Some b /\ i ∉ hs /\ b_flags b ≠ 6.

(** Distinct dirty buffers hold distinct dirty blocks. *)
Lemma dirty_count bs disk pid hs dt view (l : list nat) :
  data_ok bs disk pid hs dt view -> NoDup l ->
  (forall i, i ∈ l -> exists b, bs !! i = Some b /\ b_flags b = 6) -> (length l <= size dt)%nat.
Proof.
  intros D Hl Hall. set (f := fun i => from_option b_blockno 0 (bs !! i)).
  rewrite <- (length_fmap f l), <- (size_list_to_set (C := gset Z) (f <$> l)).
  - apply subseteq_size. intros n Hn'. apply elem_of_list_to_set, list_elem_of_fmap in Hn' as (i & -> & Hi).
    destruct (Hall i Hi) as (b & Hb & Hf). apply (d_dirty _ _ _ _ _ _ D). exists i, b. unfold f. by rewrite Hb.
  - apply NoDup_fmap_2_strong; [|done]. intros i j Hi Hj Hij. unfold f in Hij.
    destruct (Hall i Hi) as (b & Hb & Hf), (Hall j Hj) as (c & Hc & Hg). rewrite Hb, Hc in Hij. cbn in Hij.
    eapply (d_uniq _ _ _ _ _ _ D); eauto; eapply (d_valid _ _ _ _ _ _ D); try done; lia.
Qed.

(** There is a buffer to recycle when the locked and the dirty ones do not fill the cache. *)
Lemma room_of_size k pid hs dt view :
  cache k pid hs dt view -> (size hs + size dt < NBUF)%nat ->
  has_room k hs.
Proof.
  intros [_ D] Hsz.
  destruct (decide (Exists (fun i => i ∉ hs /\ from_option b_flags 6 (cores k !! i) ≠ 6) (seq 0 NBUF))) as [He|Hn].
  - apply Exists_exists in He as (i & _ & Hi & Hf). destruct (cores k !! i) as [b|] eqn:Hb; [|done].
    by exists i, b.
  - exfalso. rewrite <- Forall_Exists_neg in Hn. rewrite Forall_forall in Hn.
    set (l := filter (fun i => i ∉ hs) (seq 0 NBUF)) in *.
    assert (Hl : NoDup l) by apply list.NoDup_filter, NoDup_seq.
    assert (Hle : (length l <= size dt)%nat).
    { apply (dirty_count _ _ _ _ _ _ l D Hl). intros i Hi.
      apply list_elem_of_filter in Hi as [Hih Hi]. specialize (Hn i (proj1 (list_elem_of_In _ _) Hi)).
      destruct (cores k !! i) as [b|] eqn:Hb.
      - exists b. split; [done|]. cbn in Hn. destruct (decide (b_flags b = 6)); [done|tauto].
      - apply lookup_ge_None in Hb. rewrite (d_len _ _ _ _ _ _ D) in Hb. apply elem_of_seq in Hi. lia. }
    assert (Hsub : (list_to_set (seq 0 NBUF) : gset nat) ⊆ hs ∪ (list_to_set l : gset nat)).
    { intros i Hi. destruct (decide (i ∈ hs)); [set_solver|]. apply elem_of_union_r, elem_of_list_to_set.
      apply list_elem_of_filter. split; [done|set_solver]. }
    apply subseteq_size in Hsub. rewrite size_list_to_set, length_seq in Hsub by apply NoDup_seq.
    rewrite size_union_alt in Hsub.
    assert (Hd : (size ((list_to_set l : gset nat) ∖ hs) <= size (list_to_set l : gset nat))%nat)
      by (apply subseteq_size; set_solver).
    rewrite (size_list_to_set l) in Hd by done. lia.
Qed.

(** ** The rules *)

Lemma elem_of_reverse' {A} (x : A) l : x ∈ rev l <-> x ∈ l.
Proof. induction l as [|y l IH]; cbn; [done|]. set_solver. Qed.

Section rules.
Context `{Fu : Fuel} (m : machine) (co : console) (p : procs) (me : nat) (pid : Z).
Context (Hrun : running m p me pid).

Lemma wp_buf_at i k x (Q : buf -> world kst -> Prop) m' co' p' :
  k_bufs k !! i = Some x -> Q x (W m' co' p' k) -> wp (buf_at i) Q (W m' co' p' k).
Proof. intros Hx HQ. unfold buf_at. ksteps. done. Qed.

Lemma wp_set_buf i f k x (Q : unit -> world kst -> Prop) m' co' p' :
  k_bufs k !! i = Some x -> b_prev (f x) = b_prev x -> b_next (f x) = b_next x ->
  Q tt (W m' co' p' (put_core i (f x) k)) -> wp (set_buf i f) Q (W m' co' p' k).
Proof. intros Hx Hp Hn HQ. unfold set_buf. ksteps. by rewrite (set_buf_put_core i f k x). Qed.

(** The sleep lock of a buffer this process holds. *)
Lemma wp_holding_buf i k x (Q : bool -> world kst -> Prop) :
  (i < NBUF)%nat -> k_bufs k !! i = Some x -> sl_locked (b_lock x) = 1 -> sl_pid (b_lock x) = pid ->
  Q true (W (held m []) co p k) -> wp (holdingsleep (SLbuf i)) Q (W (held m []) co p k).
Proof.
  intros Hi Hx Hl Hp HQ. eapply (wp_holdingsleep m co me pid); [|exact Hrun|set_solver| |].
  - by apply (buf_lock_ready m i (run_locks _ _ _ _ Hrun)).
  - cbn. rewrite Hx. reflexivity.
  - by rewrite Hl, Hp, Z.eqb_refl.
Qed.

Lemma wp_acquire_buf i k x (Q : unit -> world kst -> Prop) :
  (i < NBUF)%nat -> k_bufs k !! i = Some x -> sl_locked (b_lock x) = 0 ->
  Q tt (W (held m []) co p (put_core i (x <| b_lock := sl_take pid (b_lock x) |>) k)) ->
  wp (acquiresleep (SLbuf i)) Q (W (held m []) co p k).
Proof.
  intros Hi Hx Hl HQ. eapply (wp_acquiresleep m co me pid); [|exact Hrun|set_solver| | |].
  - by apply (buf_lock_ready m i (run_locks _ _ _ _ Hrun)).
  - cbn. rewrite Hx. reflexivity.
  - done.
  - by rewrite (sl_upd_put_core i _ k x).
Qed.

Lemma wp_memide_read i k x blk (Q : unit -> world kst -> Prop) :
  (i < NBUF)%nat -> k_bufs k !! i = Some x -> sl_locked (b_lock x) = 1 -> sl_pid (b_lock x) = pid ->
  b_flags x = 0 -> b_dev x = 1 -> 0 <= b_blockno x < Z.of_nat (length (k_disk k)) ->
  k_disk k !! Z.to_nat (b_blockno x) = Some blk ->
  Q tt (W (held m []) co p (put_core i (x <| b_data := blk |> <| b_flags := 2 |>) k)) ->
  wp (memide_iderw i) Q (W (held m []) co p k).
Proof.
  intros Hi Hx Hl Hp Hf Hd Hn Hblk HQ. unfold memide_iderw. kstep.
  eapply wp_holding_buf; [done..|]. cbn [negb]. kstep. eapply wp_buf_at; [done|].
  rewrite Hf, Hd. change (Z.land 0 (Z.lor B_VALID B_DIRTY) =? B_VALID) with false.
  change (1 =? 1) with true. change (has_flag 0 B_DIRTY) with false. cbn [negb]. ksteps.
  rewrite (proj2 (Z.leb_gt _ _)) by lia. do 3 kstep. eapply wp_set_buf; [done..|].
  eapply wp_set_buf; [by apply bufs_put_core|done..|].
  rewrite put_core_put_core. cbn. rewrite Hf. exact HQ.
Qed.

(** The kernel after the disk wrote [blk] to block [n]. *)
Definition disk_write (n : Z) (blk : list Z) (k : kst) : kst :=
  k <| k_disk := <[Z.to_nat n := blk]> (k_disk k) |> <| k_written := k_written k ++ [(n, blk)] |>.

Lemma wp_memide_write i k x (Q : unit -> world kst -> Prop) :
  (i < NBUF)%nat -> k_bufs k !! i = Some x -> sl_locked (b_lock x) = 1 -> sl_pid (b_lock x) = pid ->
  b_flags x = 6 -> b_dev x = 1 -> 0 <= b_blockno x < Z.of_nat (length (k_disk k)) ->
  Q tt (W (held m []) co p (disk_write (b_blockno x) (b_data x) (put_core i (x <| b_flags := 2 |>) k))) ->
  wp (memide_iderw i) Q (W (held m []) co p k).
Proof.
  intros Hi Hx Hl Hp Hf Hd Hn HQ. unfold memide_iderw. kstep.
  eapply wp_holding_buf; [done..|]. cbn [negb]. kstep. eapply wp_buf_at; [done|].
  rewrite Hf, Hd. change (Z.land 6 (Z.lor B_VALID B_DIRTY) =? B_VALID) with false.
  change (1 =? 1) with true. change (has_flag 6 B_DIRTY) with true. cbn [negb]. ksteps.
  rewrite (proj2 (Z.leb_gt _ _)) by lia. do 2 kstep. eapply wp_set_buf; [done..|]. kstep. rewrite Hf.
  change (Z.land 6 (Z.lnot B_DIRTY)) with 2.
  eapply wp_set_buf; [by apply (bufs_put_core i _ k x)|done..|].
  unfold put_core at 1. unfold disk_write, put_core in *. unfold set_field in *; cbn -[alter] in *.
  rewrite alter_same. exact HQ.
Qed.

(** What [bget] leaves: buffer [i] is block [n], locked by this process; with its
    contents if they were cached, empty otherwise. *)
Definition got (hs : gset nat) (view : Z -> list Z) (n : Z) (k : kst) (i : nat) (x b' : buf) : Prop :=
  i ∉ hs /\ k_bufs k !! i = Some x /\
  b_dev b' = 1 /\ b_blockno b' = n /\ b_refcnt b' = 1 /\
  sl_locked (b_lock b') = 1 /\ sl_pid (b_lock b') = pid /\
  (forall j c, cores k !! j = Some c -> b_dev c = 1 -> b_blockno c = n -> j = i) /\
  (b_flags x = 6 -> b_blockno x = n) /\
  ((b_flags b' = 0 /\ (b_flags x ≠ 0 -> b_blockno x ≠ n)) \/
   (b_flags b' = b_flags x /\ b_flags x ≠ 0 /\ b_blockno x = n /\ b_data b' = b_data x)).

Lemma is_unused_spec bs disk hs dt view i b :
  data_ok bs disk pid hs dt view -> bs !! i = Some b ->
  is_unused b = true <-> i ∉ hs /\ b_flags b ≠ 6.
Proof.
  intros D Hb. unfold is_unused. rewrite andb_true_iff, !Z.eqb_eq. split.
  - intros [Hr Hf]. split.
    + intros Hi. destruct (d_held _ _ _ _ _ _ D i Hi) as (b0 & Hb0 & Hr0 & _). simplify_eq. lia.
    + intros He. by rewrite He in Hf.
  - intros [Hi Hf]. split; [by eapply (d_free _ _ _ _ _ _ D)|].
    destruct (d_flags _ _ _ _ _ _ D i b Hb) as [E|[E|E]]; rewrite E; done.
Qed.

Lemma is_unused_core x : is_unused (core x) = is_unused x.
Proof. done. Qed.
Lemma is_block_core dev n x : is_block dev n (core x) = is_block dev n x.
Proof. done. Qed.

Lemma wp_bget k hs dt view n (Q : nat -> world kst -> Prop) :
  cache k pid hs dt view -> n ∈ dt \/ has_room k hs ->
  (forall i b, i ∈ hs -> cores k !! i = Some b -> b_blockno b ≠ n) ->
  (forall i x b', got hs view n k i x b' -> Q i (W (held m []) co p (put_core i b' k))) ->
  wp (bget 1 n) Q (W (held m []) co p k).
Proof.
  intros [[l Hr] D] Hroom Hnot HQ. pose proof (run_idle _ _ _ _ Hrun) as Hm.
  assert (Hlb : has_lock m Lbcache) by eauto with xv6.
  pose proof Hr as [Hs Hperm]. pose proof (d_len _ _ _ _ _ _ D) as Hlen. rewrite length_cores in Hlen.
  assert (Hll : (length l <= NBUF)%nat) by (rewrite Hperm, length_seq; lia).
  assert (Hin : forall i x, k_bufs k !! i = Some x -> i ∈ l)
    by (intros i x Hx; apply (ring_in k l _ Hr); by eapply lookup_lt_Some).
  unfold bget, get_next, get_prev. ksteps.
  eapply (wp_scan b_next _ (nxt k) _ l); [by eapply seg_walk|done| |].
  { intros i Hi. apply (ring_in k l _ Hr) in Hi. destruct (lookup_lt_is_Some_2 _ _ Hi) as [x Hx].
    exists x. cbn. by rewrite Hx. }
  destruct (find_buf _ _ l) as [i|] eqn:Hfind.
  - apply find_buf_Some in Hfind as [Hi (x & Hx & Hblk)].
    apply andb_prop in Hblk as [Hdev%Z.eqb_eq Hno%Z.eqb_eq].
    assert (Hxc : cores k !! i = Some (core x)) by (unfold cores; by rewrite list_lookup_fmap, Hx).
    assert (Hih : i ∉ hs) by (intros Hh; by apply (Hnot i (core x))).
    destruct (d_free _ _ _ _ _ _ D i (core x) Hxc Hih) as [Href Hlk]. cbn in Href, Hlk.
    assert (HiN : (i < NBUF)%nat) by (rewrite <- Hlen; by eapply lookup_lt_Some).
    kstep. eapply wp_set_buf; [done..|]. ksteps.
    eapply wp_acquire_buf; [done|by apply bufs_put_core|done|]. kstep. rewrite put_core_put_core.
    eapply (HQ i x). cbn. rewrite Href. repeat split; try done.
    + intros j c Hj Hd Hn. eapply (d_uniq _ _ _ _ _ _ D); eauto. cbn. congruence.
    + destruct (d_flags _ _ _ _ _ _ D i (core x) Hxc) as [Hf|Hf]; cbn in Hf; [left|right]; [done|].
      repeat split; try done. lia.
  - assert (Hnone : forall j c, cores k !! j = Some c -> b_dev c = 1 -> b_blockno c = n -> False).
    { intros j c (y & Hy & ->)%cores_lookup Hd Hn.
      pose proof (find_buf_None _ _ _ j y Hfind (Hin _ _ Hy) Hy) as Hf.
      unfold is_block in Hf. cbn in Hd, Hn. by rewrite Hd, Hn, !Z.eqb_refl in Hf. }
    destruct Hroom as [Hdirty|(i0 & b0 & Hb0 & Hi0 & Hf0)].
    { exfalso. apply (d_dirty _ _ _ _ _ _ D) in Hdirty as (j & c & Hj & Hc & Hcn).
      eapply Hnone; [done| |done]. eapply (d_valid _ _ _ _ _ _ D); [done|lia]. }
    ksteps. eapply (wp_scan b_prev _ (prv k) _ (rev l)); [by eapply seg_walk, seg_rev|by rewrite length_rev| |].
    { intros i Hi. rewrite elem_of_reverse' in Hi. apply (ring_in k l _ Hr) in Hi.
      destruct (lookup_lt_is_Some_2 _ _ Hi) as [x Hx]. exists x. cbn. by rewrite Hx. }
    destruct (find_buf _ _ (rev l)) as [i|] eqn:Hfind2.
    2:{ exfalso. pose proof Hb0 as (x0 & Hx0 & ->)%cores_lookup.
        pose proof (find_buf_None _ _ _ i0 x0 Hfind2) as Hno. rewrite <- is_unused_core in Hno.
        rewrite (proj2 (is_unused_spec _ _ _ _ _ i0 _ D Hb0)) in Hno by done.
        discriminate Hno; [apply elem_of_reverse'; by eapply Hin|done]. }
    apply find_buf_Some in Hfind2 as [_ (x & Hx & Hun)].
    assert (Hxc : cores k !! i = Some (core x)) by (unfold cores; by rewrite list_lookup_fmap, Hx).
    rewrite <- is_unused_core in Hun. apply (is_unused_spec _ _ _ _ _ i _ D Hxc) in Hun as [Hih Hfl].
    destruct (d_free _ _ _ _ _ _ D i (core x) Hxc Hih) as [_ Hlk]. cbn in Hfl, Hlk.
    assert (HiN : (i < NBUF)%nat) by (rewrite <- Hlen; by eapply lookup_lt_Some).
    kstep. eapply wp_set_buf; [done..|]. ksteps.
    eapply wp_acquire_buf; [done|by apply bufs_put_core|done|]. kstep. rewrite put_core_put_core.
    eapply (HQ i x). cbn. repeat split; try done.
    + intros j c Hj Hd Hn. exfalso. eauto.
    + left. split; [done|]. intros Hf Hn. eapply (Hnone i (core x)); [done|..|done].
      by eapply (d_valid _ _ _ _ _ _ D).
Qed.

(** What [bread(1, n)] leaves in buffer [i]. *)
Record loaded (k : kst) (dt : gset Z) (view : Z -> list Z) (n : Z) (b' : buf) : Prop := {
  ld_dev : b_dev b' = 1;
  ld_no : b_blockno b' = n;
  ld_data : b_data b' = view n;
  ld_flags : b_flags b' = 2 \/ b_flags b' = 6;
  ld_clean : b_flags b' = 2 -> k_disk k !! Z.to_nat n = Some (view n);
  ld_dirty : b_flags b' = 6 <-> n ∈ dt;
}.

Lemma got_loaded hs dt view n k i x b' :
  cache k pid hs dt view -> 0 <= n < Z.of_nat (length (k_disk k)) -> got hs view n k i x b' ->
  b_flags b' ≠ 0 ->
  loaded k dt view n b' /\ cache (put_core i b' k) pid ({[i]} ∪ hs) dt view.
Proof.
  intros [[l Hr] D] Hn (Hi & Hx & Hdev & Hno & Href & Hlk & Hpid & Honly & H6 & Hcase) Hf.
  destruct Hcase as [[? _]|(Hfl & Hfx & Hnx & Hdata)]; [done|].
  assert (Hxc : cores k !! i = Some (core x)) by (unfold cores; by rewrite list_lookup_fmap, Hx).
  pose proof (d_flags _ _ _ _ _ _ D i (core x) Hxc) as Hflags. cbn in Hflags.
  assert (Hview : view n = b_data x) by (rewrite <- Hnx; by apply (d_view _ _ _ _ _ _ D i (core x) Hxc)).
  assert (Hdt : b_flags b' = 6 <-> n ∈ dt).
  { rewrite Hfl, (d_dirty _ _ _ _ _ _ D n). split; [intros; by exists i, (core x)|]. intros (j & c & Hj & Hc & Hcn).
    assert (j = i) as -> by (eapply Honly; [done|by eapply (d_valid _ _ _ _ _ _ D); [|lia]|done]).
    rewrite Hxc in Hj. apply (inj Some) in Hj. by rewrite <- Hj in Hc. }
  split.
  - split; try done; [congruence|rewrite Hfl; tauto|].
    intros H2. rewrite Hview, <- Hnx. apply (d_clean _ _ _ _ _ _ D i (core x) Hxc Hi). cbn. congruence.
  - split; [exists l; by apply ring_put_core|]. rewrite cores_put_core by by eapply lookup_lt_Some.
    eapply (data_load _ _ _ _ _ _ D i (core x)); try done; [cbn; rewrite Hfl; tauto|cbn; congruence].
Qed.

Lemma wp_bread k hs dt view n (Q : nat -> world kst -> Prop) :
  cache k pid hs dt view -> n ∈ dt \/ has_room k hs -> 0 <= n < Z.of_nat (length (k_disk k)) ->
  (forall i b, i ∈ hs -> cores k !! i = Some b -> b_blockno b ≠ n) ->
  (forall i b', i ∉ hs -> loaded k dt view n b' -> cache (put_core i b' k) pid ({[i]} ∪ hs) dt view ->
     Q i (W (held m []) co p (put_core i b' k))) ->
  wp (bread 1 n) Q (W (held m []) co p k).
Proof.
  intros Hc Hroom Hn Hnot HQ. unfold bread. kstep. eapply wp_bget; [done..|]. intros i x b' Hgot.
  pose proof Hgot as (Hi & Hx & Hdev & Hno & Href & Hlk & Hpid & Honly & H6 & Hcase).
  assert (HiN : (i < NBUF)%nat) by (rewrite <- (cache_length _ _ _ _ _ Hc); by eapply lookup_lt_Some).
  kstep. eapply wp_buf_at; [by apply bufs_put_core|]. cbn [relink].
  change (b_flags (relink b' x)) with (b_flags b'). kstep.
  destruct Hcase as [[Hf Hmiss]|(Hfl & Hfx & Hnx & Hdata)].
  - destruct (lookup_lt_is_Some_2 (k_disk k) (Z.to_nat n)) as [blk Hblk]; [lia|].
    rewrite Hf. change (Z.land 0 B_VALID =? 0) with true. cbn [when].
    eapply (wp_memide_read i _ (relink b' x) blk); [done|by apply bufs_put_core|exact Hlk|exact Hpid|exact Hf|exact Hdev
      |cbn; by rewrite Hno|cbn; by rewrite Hno|].
    kstep. rewrite put_core_put_core. pose proof Hc as [[l Hr] D].
    assert (Hxc : cores k !! i = Some (core x)) by (unfold cores; by rewrite list_lookup_fmap, Hx).
    assert (Hnov : forall j c, cores k !! j = Some c -> b_flags c ≠ 0 -> b_blockno c ≠ n).
    { intros j c Hj Hfc Hcn. assert (j = i) as -> by (eapply Honly; [done|by eapply (d_valid _ _ _ _ _ _ D)|done]).
      rewrite Hxc in Hj. injection Hj as <-. by apply Hmiss. }
    assert (Hview : view n = blk) by (apply (d_uncached _ _ _ _ _ _ D); [done|lia|done]).
    set (b2 := relink b' x <| b_data := blk |> <| b_flags := 2 |>).
    assert (Hdt : b_flags b2 = 6 <-> n ∈ dt).
    { split; [done|]. intros (j & c & Hj & Hc6 & Hcn)%(d_dirty _ _ _ _ _ _ D).
      exfalso. eapply (Hnov j c); [done|lia|done]. }
    apply HQ; [done| |].
    + split; cbn; try done; [by left|congruence].
    + split; [exists l; by apply ring_put_core|]. rewrite cores_put_core by by eapply lookup_lt_Some.
      eapply (data_load _ _ _ _ _ _ D i (core x)); cbn; try done. by left.
  - pose proof Hc as [_ D].
    assert (Hxc : cores k !! i = Some (core x)) by (unfold cores; by rewrite list_lookup_fmap, Hx).
    assert (Hnz : (Z.land (b_flags b') B_VALID =? 0) = false).
    { rewrite Hfl. destruct (d_flags _ _ _ _ _ _ D i (core x) Hxc) as [E|[E|E]]; cbn in E; rewrite E; done. }
    rewrite Hnz. cbn [when]. do 2 kstep.
    destruct (got_loaded hs dt view n k i x b') as [Hld Hc']; [done..|congruence|]. by apply HQ.
Qed.

(** Writing the contents of a locked buffer through to the disk. *)
Lemma wp_bwrite k hs dt view i x (Q : unit -> world kst -> Prop) :
  cache k pid hs dt view -> i ∈ hs -> k_bufs k !! i = Some x ->
  (let k' := disk_write (b_blockno x) (b_data x) (put_core i (x <| b_flags := 2 |>) k) in
   cache k' pid hs (dt ∖ {[b_blockno x]}) view -> Q tt (W (held m []) co p k')) ->
  wp (bwrite i) Q (W (held m []) co p k).
Proof.
  intros Hc Hi Hx HQ. destruct (cache_held _ _ _ _ _ i Hc Hi) as (x' & Hx' & Href & Hlk & Hpid & Hf & Hdev & Hn & _).
  rewrite Hx in Hx'. injection Hx' as <-.
  assert (HiN : (i < NBUF)%nat) by (rewrite <- (cache_length _ _ _ _ _ Hc); by eapply lookup_lt_Some).
  unfold bwrite. kstep. eapply wp_holding_buf; [done..|]. cbn [negb]. kstep.
  eapply wp_set_buf; [done..|].
  replace (Z.lor (b_flags x) B_DIRTY) with 6 by (destruct Hf as [-> | ->]; done).
  eapply (wp_memide_write i _ (relink (x <| b_flags := 6 |>) x)); try done; [by apply bufs_put_core|].
  rewrite put_core_put_core. apply HQ. pose proof Hc as [[l Hr] D]. split.
  - exists l. apply (ring_put_core i (x <| b_flags := 2 |>)) in Hr. exact Hr.
  - change (cores (disk_write _ _ ?k)) with (cores k).
    rewrite cores_put_core by by eapply lookup_lt_Some.
    eapply (data_write _ _ _ _ _ _ i (core x)); try done. unfold cores. by rewrite list_lookup_fmap, Hx.
Qed.

(** The processes woken by the release of a sleep lock. *)
Definition wake_sl (id : slid) (p : procs) : procs :=
  p <| ptable := wake (Some (Csleep id)) <$> ptable p |>.

Lemma wp_move_front i k H p' (Q : unit -> world kst -> Prop) :
  Q tt (W (held m H) co p' (pushed_front i (unlink i k))) ->
  wp (let! n := get_next (Some i) in
      let! p := get_prev (Some i) in
      set_prev n p ;;;
      let! p := get_prev (Some i) in
      let! n := get_next (Some i) in
      set_next p n ;;;
      push_front i (ret tt)) Q (W (held m H) co p' k).
Proof. intros HQ. unfold push_front, get_next, get_prev, set_prev, set_next. ksteps. exact HQ. Qed.

#[local] Opaque pushed_front unlink.

Lemma put_core_relink i x b k : put_core i (relink b x) k = put_core i b k.
Proof. done. Qed.

(** The state [brelse] leaves: the buffer unlocked, unreferenced and in front. *)
Lemma brelse_state k hs dt view i x :
  cache k pid hs dt view -> i ∈ hs -> k_bufs k !! i = Some x ->
  (b_flags x = 2 -> k_disk k !! Z.to_nat (b_blockno x) = Some (b_data x)) ->
  let k1 := put_core i (x <| b_refcnt := 0 |> <| b_lock := sl_drop (b_lock x) |>) k in
  let k' := pushed_front i (unlink i k1) in
  unlinked k' = unlinked k1 /\ cache k' pid (hs ∖ {[i]}) dt view.
Proof.
  intros [[l Hr] D] Hi Hx Hclean k1 k'.
  assert (Hr1 : ring k1 l) by by apply ring_put_core.
  destruct (move_front_ring k1 l i Hr1) as (l' & Hr' & _).
  { apply (ring_in k l _ Hr). by eapply lookup_lt_Some. }
  assert (Hu : unlinked k' = unlinked k1) by (unfold k'; by rewrite unlinked_pushed_front, unlinked_unlink).
  split; [done|]. split; [by exists (i :: l')|].
  rewrite (unlinked_cores _ _ Hu), (unlinked_disk _ _ Hu).
  change (k_disk k1) with (k_disk k). unfold k1. rewrite cores_put_core by by eapply lookup_lt_Some.
  eapply (data_release _ _ _ _ _ _ D i (core x)); try done. unfold cores. by rewrite list_lookup_fmap, Hx.
Qed.

Lemma wp_brelse k hs dt view i x (Q : unit -> world kst -> Prop) :
  cache k pid hs dt view -> i ∈ hs -> k_bufs k !! i = Some x ->
  (b_flags x = 2 -> k_disk k !! Z.to_nat (b_blockno x) = Some (b_data x)) ->
  (forall k', unlinked k' = unlinked (put_core i (x <| b_refcnt := 0 |> <| b_lock := sl_drop (b_lock x) |>) k) ->
     cache k' pid (hs ∖ {[i]}) dt view ->
     Q tt (W (held m []) co (wake_sl (SLbuf i) p) k')) ->
  wp (brelse i) Q (W (held m []) co p k).
Proof.
  intros Hc Hi Hx Hclean HQ.
  destruct (cache_held _ _ _ _ _ i Hc Hi) as (x' & Hx' & Href & Hlk & Hpid & Hf & Hdev & Hn & _).
  rewrite Hx in Hx'. injection Hx' as <-. pose proof Hc as [[l Hr] D].
  assert (HiN : (i < NBUF)%nat) by (rewrite <- (cache_length _ _ _ _ _ Hc); by eapply lookup_lt_Some).
  pose proof (run_idle _ _ _ _ Hrun) as Hm. assert (Hlb : has_lock m Lbcache) by eauto with xv6.
  unfold brelse. kstep. eapply wp_holding_buf; [done..|]. cbn [negb]. kstep.
  eapply (wp_releasesleep m co me pid); [by apply (buf_lock_ready m i (run_locks _ _ _ _ Hrun))|exact Hrun|set_solver..|].
  fold (wake_sl (SLbuf i) p). rewrite (sl_upd_put_core i _ k x Hx). ksteps.
  eapply wp_set_buf; [by apply bufs_put_core|done..|]. rewrite put_core_put_core.
  set (b1 := _ <| b_refcnt := _ |>).
  assert (Hb1 : b1 = relink (x <| b_refcnt := 0 |> <| b_lock := sl_drop (b_lock x) |>) x).
  { unfold b1, relink, set_field; cbn. rewrite Href. done. }
  clearbody b1. subst b1. kstep. eapply wp_buf_at; [by apply bufs_put_core|].
  change (b_refcnt (relink _ _) =? 0) with true. cbn [when]. kstep. apply wp_move_front.
  destruct (brelse_state k hs dt view i x Hc Hi Hx Hclean) as [Hu Hc'].
  rewrite <- (put_core_relink i x) in Hu, Hc'.
  set (k2 := pushed_front i _) in *. clearbody k2. cbn beta.
  apply wp_release; [exact Hm|exact Hlb|set_solver|]. apply HQ; [|exact Hc'].
  by rewrite Hu, put_core_relink.
Qed.
End rules.

#[local] Transparent pushed_front unlink.

(** ** Starting with an empty cache *)

Lemma alter_comm {A} (f g : A -> A) i j (l : list A) :
  (forall x, f (g x) = g (f x)) -> alter f i (alter g j l) = alter g j (alter f i l).
Proof.
  intros Hc. apply list_eq. intros n. rewrite !list_lookup_alter.
  repeat case_decide; subst; rewrite ?list_lookup_alter; repeat case_decide; try done.
  destruct (l !! n); cbn; [by rewrite Hc|done].
Qed.

(** [initsleeplock(&b->lock, "buffer")]. *)
Definition reset_lock (b : buf) : buf := b <| b_lock := mkSl 0 "buffer" 0 |>.
Definition lock_reset (i : nat) (k : kst) : kst := k <| k_bufs := alter reset_lock i (k_bufs k) |>.

Lemma lock_reset_nxt i a v k : upd_nxt a v (lock_reset i k) = lock_reset i (upd_nxt a v k).
Proof.
  destruct a; [|done]. unfold upd_nxt, lock_reset, set_field; cbn -[alter]. f_equal. by apply alter_comm.
Qed.

Lemma lock_reset_prv i a v k : upd_prv a v (lock_reset i k) = lock_reset i (upd_prv a v k).
Proof.
  destruct a; [|done]. unfold upd_prv, lock_reset, set_field; cbn -[alter]. f_equal. by apply alter_comm.
Qed.

Definition init_lock (lk : lockid) (name : string) (m : machine) : machine :=
  m <| locks := <[lk := mkSpinlock 0 name None]> (locks m) |>.

Lemma wp_init_buf i m co p k (Q : unit -> world kst -> Prop) :
  Q tt (W (init_lock (Lsleep (SLbuf i)) "sleep lock" m) co p (lock_reset i (pushed_front i k))) ->
  wp (push_front i (initsleeplock (SLbuf i) "buffer")) Q (W m co p k).
Proof.
  intros HQ. unfold push_front, initsleeplock, initlock, set_lock, get_next, set_next, set_prev, set_sl.
  ksteps. eapply wp_eq; [reflexivity|]. cbn beta. ksteps.
  unfold pushed_front in HQ. rewrite <- lock_reset_nxt, <- lock_reset_prv in HQ. exact HQ.
Qed.

Fixpoint locks_reset (n : nat) (k : kst) : kst :=
  match n with
  | O => k
  | Datatypes.S n => lock_reset n (locks_reset n k)
  end.

Lemma unlinked_lock_reset i k : unlinked (lock_reset i k) = lock_reset i (unlinked k).
Proof.
  unfold unlinked, lock_reset, cores, set_field; cbn -[alter fmap]. f_equal. by apply fmap_alter_comm.
Qed.

Lemma seg_lock_reset i k a l b :
  seg (nxt k) (prv k) a l b -> seg (nxt (lock_reset i k)) (prv (lock_reset i k)) a l b.
Proof.
  intros Hs. eapply seg_ext; [exact Hs|..]; intros [j|] _; cbn; try done; rewrite list_lookup_alter;
    case_decide; subst; try done.
  all: by destruct (k_bufs k !! j).
Qed.

Lemma has_lock_init lk lk' name m : has_lock (init_lock lk name m) lk' <-> lk' = lk \/ has_lock m lk'.
Proof.
  unfold has_lock, init_lock; cbn. destruct (decide (lk' = lk)) as [->|Hne].
  - rewrite lookup_insert_eq. split; eauto.
  - rewrite lookup_insert_ne by done. naive_solver.
Qed.

Lemma seq_snoc n : seq 0 (Datatypes.S n) = seq 0 n ++ [n].
Proof. by rewrite seq_S. Qed.

(** The state of the loop of [binit] after [n] buffers. *)
Definition binit_inv (m : machine) (co : console) (p : procs) (k : kst) (n : nat) (w : world kst) : Prop :=
  exists m' k', w = W m' co p k' /\ seg (nxt k') (prv k') None (rev (seq 0 n)) None /\
    unlinked k' = unlinked (locks_reset n k) /\ length (k_bufs k') = length (k_bufs k) /\
    (forall lk, has_lock m' lk <->
       lk = Lbcache \/ (exists i, (i < n)%nat /\ lk = Lsleep (SLbuf i)) \/ has_lock m lk).

Lemma binit_inv_step m co p k n w :
  (n < length (k_bufs k))%nat -> binit_inv m co p k n w ->
  wp (push_front n (initsleeplock (SLbuf n) "buffer")) (fun _ w' => binit_inv m co p k (Datatypes.S n) w') w.
Proof.
  intros Hn (m' & k' & -> & Hseg & Hu & Hlen & Hlk). apply wp_init_buf.
  eexists _, _. split; [reflexivity|]. rewrite seq_snoc, rev_app_distr. cbn [rev app]. split.
  - apply seg_lock_reset, pushed_front_seg; [done|..].
    + constructor; [|rewrite <- Permutation_rev; apply NoDup_seq].
      rewrite elem_of_reverse', elem_of_seq. lia.
    + intros j [->|Hj]%elem_of_cons; [lia|]. rewrite elem_of_reverse', elem_of_seq in Hj. lia.
  - split; [cbn [locks_reset]; by rewrite !unlinked_lock_reset, unlinked_pushed_front, Hu|]. split.
    + transitivity (length (k_bufs (pushed_front n k'))); [apply length_alter|]. rewrite <- Hlen.
      apply unlinked_length, unlinked_pushed_front.
    + intros lk. rewrite has_lock_init, Hlk. split.
      * intros [->|[->|[(i & Hi & ->)|Hl]]]; eauto 10 with lia.
      * intros [->|[(i & Hi & ->)|Hl]]; [auto| |auto].
        destruct (decide (i = n)) as [->|]; [auto|]. right. right. left. exists i. split; [lia|done].
Qed.

Lemma wp_binit m co p k (Q : unit -> world kst -> Prop) :
  length (k_bufs k) = NBUF -> (forall w, binit_inv m co p k NBUF w -> Q tt w) ->
  wp binit Q (W m co p k).
Proof.
  intros Hlen HQ. unfold binit, initlock, set_lock, set_prev, set_next. ksteps.
  eapply wp_eq; [reflexivity|]. cbn beta. ksteps.
  eapply (wp_for_list (fun rest w => exists n, rest = seq n (NBUF - n) /\ (n <= NBUF)%nat /\ binit_inv m co p k n w)).
  - exists 0%nat. split; [done|]. split; [lia|]. eexists _, _. split; [reflexivity|].
    split; [done|]. split; [done|]. split; [done|]. intros lk.
    change (has_lock (init_lock Lbcache "bcache" m) lk <-> lk = Lbcache \/ (exists i, (i < 0)%nat /\ lk = Lsleep (SLbuf i)) \/ has_lock m lk).
    rewrite has_lock_init. split; [tauto|]. intros [?|[(i & ? & _)|?]]; [auto|lia|auto].
  - intros x rest w (n & Hrest & Hn & Hinv).
    destruct (NBUF - n)%nat as [|d] eqn:Hd; [done|]. cbn in Hrest. injection Hrest as -> ->.
    eapply wp_mono; [apply (binit_inv_step m co p k); [lia|exact Hinv]|]. cbn beta. intros _ w' Hinv'.
    exists (Datatypes.S n). split; [f_equal; lia|]. split; [lia|done].
  - intros w (n & Hrest & Hn & Hinv). apply HQ.
    assert (n = NBUF) as ->; [|done]. destruct (NBUF - n)%nat eqn:E; [lia|done].
Qed.

Lemma cores_locks_reset n k i b :
  cores (locks_reset n k) !! i = Some b -> (i < n)%nat ->
  exists b0, cores k !! i = Some b0 /\ b = reset_lock b0.
Proof.
  revert b. induction n as [|n IH]; intros b Hb Hi; [lia|]. cbn [locks_reset] in Hb.
  assert (Hc : cores (lock_reset n (locks_reset n k)) = alter reset_lock n (cores (locks_reset n k)))
    by by apply fmap_alter_comm.
  rewrite Hc, list_lookup_alter in Hb. case_decide as Hd; subst.
  - apply fmap_Some in Hb as (b1 & Hb1 & ->). clear IH Hc.
    assert (Hn : forall j, (j <= i)%nat -> cores (locks_reset j k) !! i = cores k !! i).
    { induction j as [|j IHj]; intros Hj; [done|]. cbn [locks_reset].
      unfold cores, lock_reset; cbn -[alter]. rewrite list_lookup_fmap, list_lookup_alter_ne by lia.
      rewrite <- list_lookup_fmap. apply IHj. lia. }
    rewrite Hn in Hb1 by lia. eauto.
  - apply IH; [done|lia].
Qed.

(** An empty cache over a disk whose blocks have the right size. *)
Lemma empty_data_ok bs disk pid :
  length bs = NBUF -> Forall (fun blk => length blk = BSIZE) disk ->
  (forall i b, bs !! i = Some b -> b_flags b = 0 /\ b_dev b = 0 /\ b_refcnt b = 0 /\
     sl_locked (b_lock b) = 0 /\ length (b_data b) = BSIZE) ->
  data_ok bs disk pid ∅ ∅ (fun n => default [] (disk !! Z.to_nat n)).
Proof.
  intros Hlen Hdisk Hb. split; try done.
  - intros i b Hi. left. apply (Hb i b Hi).
  - intros i b Hi. by apply Hb in Hi as (_ & _ & _ & _ & ?).
  - intros i b Hi Hd. apply Hb in Hi as (_ & Hd' & _). lia.
  - intros i b Hi Hf. by apply Hb in Hi as (? & _).
  - intros i j b c Hi _ Hd _ _. apply Hb in Hi as (_ & Hd' & _). lia.
  - intros i b Hi Hf. by apply Hb in Hi as (? & _).
  - intros n blk Hblk _ _. by rewrite Hblk.
  - intros i b Hi _ Hf. apply Hb in Hi as (Hf' & _). lia.
  - intros i b Hi _. by apply Hb in Hi as (_ & _ & ? & ? & _).
  - intros n. split; [set_solver|]. intros (i & b & Hi & Hf & _). apply Hb in Hi as (Hf' & _). lia.
Qed.

(** ** Properties *)

(** After [binit] on zeroed buffers the cache is well formed and empty: every buffer is on the
    ring, none is referenced, locked or valid, every lock of the cache is initialised, and a reader
    sees the disk. *)
Theorem binit_establishes_cache m co p k pid :
  k_bufs k = replicate NBUF buf_zero -> Forall (fun blk => length blk = BSIZE) (k_disk k) ->
  exists m' k', binit (W m co p k) = Ret tt (W m' co p k') /\
    cache k' pid ∅ ∅ (fun n => default [] (k_disk k !! Z.to_nat n)) /\
    has_lock m' Lbcache /\ forall i, (i < NBUF)%nat -> has_lock m' (Lsleep (SLbuf i)).
Proof.
  intros Hb Hdisk.
  assert (Hwp : wp binit (fun _ w => binit_inv m co p k NBUF w) (W m co p k)).
  { apply wp_binit; [by rewrite Hb, length_replicate|auto]. }
  apply wp_elim in Hwp as ([] & w & Hrun & m' & k' & -> & Hseg & Hu & Hlen & Hlk).
  exists m', k'. split; [done|]. split; [|split; [apply Hlk; auto|intros i Hi; apply Hlk; eauto]].
  assert (Hd : k_disk k' = k_disk k).
  { rewrite (unlinked_disk _ _ Hu). generalize NBUF as n. induction n; cbn; done. }
  rewrite Hb, length_replicate in Hlen. split.
  - exists (rev (seq 0 NBUF)). split; [done|]. rewrite Hlen. by rewrite <- Permutation_rev.
  - rewrite Hd. apply empty_data_ok; [by rewrite length_cores|done|].
    intros i b Hi. assert (HiN : (i < NBUF)%nat) by (rewrite <- Hlen, <- length_cores; by eapply lookup_lt_Some).
    rewrite (unlinked_cores _ _ Hu) in Hi. apply cores_locks_reset in Hi as (b0 & Hb0 & ->); [|done].
    apply cores_lookup in Hb0 as (x & Hx & ->). rewrite Hb in Hx.
    apply lookup_replicate in Hx as [-> _]. by repeat split.
Qed.

(** C28.  [bread] of a block on the disk returns a buffer that the caller did not hold, now locked by the caller,
    with the contents a reader of the block sees, from the cache or from the disk; the cache stays well formed, what readers see is unchanged, and no other buffer,
    nor anything else of the kernel's state, has changed: nothing was written to the disk. *)
Theorem bread_spec `{Fuel} m co p k me pid hs dt view n :
  running m p me pid -> cache k pid hs dt view -> n ∈ dt \/ has_room k hs ->
  0 <= n < Z.of_nat (length (k_disk k)) ->
  (forall i b, i ∈ hs -> cores k !! i = Some b -> b_blockno b ≠ n) ->
  exists i k' b, bread 1 n (W (held m []) co p k) = Ret i (W (held m []) co p k') /\
    i ∉ hs /\ cache k' pid ({[i]} ∪ hs) dt view /\ cores k' !! i = Some b /\
    b_blockno b = n /\ b_data b = view n /\ sl_pid (b_lock b) = pid /\
    k' = k <| k_bufs := k_bufs k' |> /\ forall j, j ≠ i -> k_bufs k' !! j = k_bufs k !! j.
Proof.
  intros Hrun Hc Hroom Hn Hnot.
  assert (Hwp : wp (bread 1 n) (fun i w => exists k' b, w = W (held m []) co p k' /\
    i ∉ hs /\ cache k' pid ({[i]} ∪ hs) dt view /\ cores k' !! i = Some b /\
    b_blockno b = n /\ b_data b = view n /\ sl_pid (b_lock b) = pid /\
    k' = k <| k_bufs := k_bufs k' |> /\ forall j, j ≠ i -> k_bufs k' !! j = k_bufs k !! j) (W (held m []) co p k)).
  { eapply wp_bread; [done..|]. intros i b' Hi Hld Hc'.
    destruct (cache_held _ _ _ _ _ i Hc' ltac:(set_solver)) as (x & Hx & _ & _ & Hpid & _ & _ & _ & Hdata & _).
    assert (Hx0 : (i < length (k_bufs k))%nat) by (apply lookup_lt_Some in Hx; cbn in Hx; by rewrite length_alter in Hx).
    assert (Hcore : cores (put_core i b' k) !! i = Some (core b'))
      by (rewrite cores_put_core by done; apply list_lookup_insert_eq; by rewrite length_cores).
    exists (put_core i b' k), (core b'). split; [done|]. split; [done|]. split; [done|]. split; [done|].
    split; [by apply (ld_no _ _ _ _ _ Hld)|]. split; [by apply (ld_data _ _ _ _ _ Hld)|]. split; [|split; [done|]].
    - unfold cores in Hcore. rewrite list_lookup_fmap, Hx in Hcore. apply (inj Some) in Hcore.
      change (sl_pid (b_lock (core b')) = pid). by rewrite <- Hcore.
    - intros j Hj. cbn. by rewrite list_lookup_alter_ne. }
  apply wp_elim in Hwp as (i & w & Hrun' & k' & b & -> & ?). eauto.
Qed.

(** Replace the contents of block [n] and write it through: what [write_head] and the zeroing
    of a block do. *)
Definition put_block `{Fuel} `{DiskDriver} (n : Z) (d : list Z) : MK unit :=
  let! i := bread 1 n in
  set_buf i (fun b => b <| b_data := d |>) ;;;
  bwrite i ;;;
  brelse i.

(** Reading a block, changing it, [bwrite] and [brelse] puts the new contents on the disk
    in one write, shows them to every later reader, and leaves the cache well formed with no
    buffer locked. *)
Theorem write_through_spec `{Fuel} m co p k me pid dt view n d :
  running m p me pid -> cache k pid ∅ dt view -> n ∈ dt \/ has_room k ∅ ->
  0 <= n < Z.of_nat (length (k_disk k)) -> length d = BSIZE ->
  exists p' k', put_block n d (W (held m []) co p k) = Ret tt (W (held m []) co p' k') /\
    cache k' pid ∅ (dt ∖ {[n]}) (<[n := d]> view) /\ running m p' me pid /\
    k_disk k' = <[Z.to_nat n := d]> (k_disk k) /\ k_written k' = k_written k ++ [(n, d)].
Proof.
  intros Hrun Hc Hroom Hn Hd.
  assert (Hwp : wp (put_block n d) (fun _ w => exists p' k', w = W (held m []) co p' k' /\
    cache k' pid ∅ (dt ∖ {[n]}) (<[n := d]> view) /\ running m p' me pid /\
    k_disk k' = <[Z.to_nat n := d]> (k_disk k) /\ k_written k' = k_written k ++ [(n, d)]) (W (held m []) co p k)).
  { unfold put_block. kstep. eapply wp_bread; [done..|set_solver|]. intros i b' Hi Hld Hc1.
    destruct (cache_held _ _ _ _ _ i Hc1 ltac:(set_solver)) as (x & Hx & _).
    assert (Hx0 : (i < length (k_bufs k))%nat) by (apply lookup_lt_Some in Hx; cbn in Hx; by rewrite length_alter in Hx).
    destruct (lookup_lt_is_Some_2 _ _ Hx0) as [x0 Hx0'].
    rewrite (bufs_put_core i b' k x0 Hx0') in Hx. injection Hx as <-.
    kstep. eapply wp_set_buf; [by apply bufs_put_core|done..|]. rewrite put_core_put_core.
    set (b2 := relink b' x0 <| b_data := d |>).
    assert (Hno0 : b_blockno (relink b' x0) = n) by apply Hld.
    assert (Hc2 : cache (put_core i b2 k) pid ({[i]} ∪ ∅) dt (<[n := d]> view)).
    { pose proof (cache_set_data _ _ _ _ _ i (relink b' x0) d Hc1 ltac:(set_solver)) as Hcd.
      rewrite Hno0, put_core_put_core in Hcd. apply Hcd; [by apply bufs_put_core|done]. }
    kstep. eapply (wp_bwrite m co p me pid Hrun _ _ _ _ i (relink b2 x0)); [exact Hc2|set_solver|by apply bufs_put_core|].
    intros k' Hc3. assert (Hno : b_blockno (relink b2 x0) = n) by exact Hno0. rewrite Hno in Hc3.
    assert (Hk3 : k_disk k' = <[Z.to_nat n := d]> (k_disk k)) by (unfold k'; rewrite Hno; done).
    assert (Hw3 : k_written k' = k_written k ++ [(n, d)]) by (unfold k'; rewrite Hno; done).
    assert (Hx3 : k_bufs k' !! i = Some (relink (relink b2 x0 <| b_flags := 2 |>) x0)).
    { unfold k', disk_write. cbn -[put_core]. rewrite (bufs_put_core i _ (put_core i b2 k) (relink b2 x0)); [done|].
      by apply bufs_put_core. }
    clearbody k'. eapply (wp_brelse m co p me pid Hrun _ _ _ _ i); [exact Hc3|set_solver|exact Hx3| |].
    { intros _. change (k_disk k' !! Z.to_nat (b_blockno (relink b2 x0)) = Some d). rewrite Hno, Hk3.
      apply list_lookup_insert_eq. lia. }
    intros k4 Hu Hc4. exists (wake_sl (SLbuf i) p), k4. split; [done|].
    split; [by replace (({[i]} ∪ ∅) ∖ {[i]}) with (∅ : gset nat) in Hc4 by set_solver|].
    split; [by apply running_wake|].
    rewrite (unlinked_disk _ _ Hu). split; [done|].
    apply (f_equal k_written) in Hu. rewrite <- Hw3. exact Hu. }
  apply wp_elim in Hwp as ([] & w & Hrun' & p' & k' & -> & ?). eauto.
Qed.

(** ** Examples *)

(** The cache as [binit] leaves it, over [disk]. *)
Definition ex_bufs : list buf :=
  imap (fun i b => b <| b_prev := if decide (i = 29%nat) then None else Some (Datatypes.S i) |>
                     <| b_next := match i with O => None | Datatypes.S j => Some j end |>)
    (replicate NBUF buf_zero).
Definition ex_cold (disk : list (list Z)) : kst :=
  kst0 <| k_bufs := ex_bufs |> <| k_head_next := Some 29%nat |> <| k_head_prev := Some 0%nat |>
    <| k_disk := disk |>.
Definition ex_disk : list (list Z) := replicate 8 (replicate BSIZE 0).
Definition ex_view (disk : list (list Z)) (n : Z) : list Z := default [] (disk !! Z.to_nat n).

Lemma ex_cores disk : cores (ex_cold disk) = replicate NBUF buf_zero.
Proof. vm_compute. reflexivity. Qed.

Lemma ex_ring disk : ring (ex_cold disk) (rev (seq 0 NBUF)).
Proof.
  split; [vm_compute; repeat split|]. change (length (k_bufs (ex_cold disk))) with NBUF.
  symmetry. apply Permutation_rev.
Qed.

Lemma ex_cold_cache disk pid :
  Forall (fun blk => length blk = BSIZE) disk -> cache (ex_cold disk) pid ∅ ∅ (ex_view disk).
Proof.
  intros Hd. split; [eexists; apply ex_ring|]. rewrite ex_cores. apply empty_data_ok; [done|done|].
  intros i b Hi. apply lookup_replicate in Hi as [-> _]. by repeat split.
Qed.

Lemma ex_disk_size : Forall (fun blk => length blk = BSIZE) ex_disk.
Proof. by apply Forall_replicate. Qed.

(** The same with block [n] in buffer 0, locked by process [pid]. *)
Definition ex_held_buf (disk : list (list Z)) (pid n : Z) : buf :=
  mkBuf 2 1 n (mkSl 1 EmptyString pid) 1 None None None (ex_view disk n).
Definition ex_held (disk : list (list Z)) (pid n : Z) : kst :=
  put_core 0 (ex_held_buf disk pid n) (ex_cold disk).

Lemma ex_held_data disk pid n :
  Forall (fun blk => length blk = BSIZE) disk -> 0 <= n < Z.of_nat (length disk) ->
  data_ok (<[0%nat := ex_held_buf disk pid n]> (replicate NBUF buf_zero)) disk pid ({[0%nat]} ∪ ∅) ∅ (ex_view disk).
Proof.
  intros Hd Hn. destruct (ex_cold_cache disk pid Hd) as [_ D]. rewrite ex_cores in D.
  apply (data_load _ _ _ _ _ _ D 0%nat buf_zero _ n); try done; try by left.
  intros j c Hj. apply lookup_replicate in Hj as [-> _]. done.
Qed.

Lemma ex_held_cache disk pid n :
  Forall (fun blk => length blk = BSIZE) disk -> 0 <= n < Z.of_nat (length disk) ->
  cache (ex_held disk pid n) pid {[0%nat]} ∅ (ex_view disk).
Proof.
  intros Hd Hn. split; [eexists; apply ring_put_core, ex_ring|].
  unfold ex_held. rewrite cores_put_core by (cbn; lia). rewrite ex_cores.
  replace ({[0%nat]} : gset nat) with ({[0%nat]} ∪ ∅ : gset nat) by set_solver. by apply ex_held_data.
Qed.

(** The same with block [n] dirty in buffer 0, its new contents [d]. *)
Definition ex_dirty_buf (n : Z) (d : list Z) : buf := mkBuf 6 1 n sl_zero 0 None None None d.
Definition ex_dirty (disk : list (list Z)) (n : Z) (d : list Z) : kst :=
  put_core 0 (ex_dirty_buf n d) (ex_cold disk).

Lemma ex_dirty_cache disk pid n d :
  Forall (fun blk => length blk = BSIZE) disk -> 0 <= n < Z.of_nat (length disk) -> length d = BSIZE ->
  cache (ex_dirty disk n d) pid ∅ {[n]} (<[n := d]> (ex_view disk)).
Proof.
  intros Hd Hn Hl. split; [eexists; apply ring_put_core, ex_ring|].
  unfold ex_dirty. rewrite cores_put_core by (cbn; lia). rewrite ex_cores.
  assert (D2 := data_modify _ _ _ _ _ _ (ex_held_data disk pid n Hd Hn) 0%nat _
    (mkBuf 6 1 n (mkSl 1 EmptyString pid) 1 None None None d) ltac:(set_solver)
    eq_refl eq_refl eq_refl (or_intror eq_refl) Hl eq_refl eq_refl).
  assert (D3 := data_release _ _ _ _ _ _ D2 0%nat _ (ex_dirty_buf n d) ltac:(set_solver) eq_refl
    ltac:(done) eq_refl eq_refl eq_refl eq_refl eq_refl eq_refl).
  rewrite !list_insert_insert_eq in D3. cbn [b_flags b_blockno ex_held_buf] in D3.
  replace ((({[0%nat]} ∪ ∅) ∖ {[0%nat]} : gset nat)) with (∅ : gset nat) in D3 by set_solver.
  replace ({[n]} ∪ ∅ : gset Z) with ({[n]} : gset Z) in D3 by set_solver. exact D3.
Qed.

Lemma binit_establishes_cache_witness :
  let k := kst0 <| k_disk := ex_disk |> in
  exists m' k', binit (W ex_machine ex_console (ex_procs 0) k) = Ret tt (W m' ex_console (ex_procs 0) k') /\
    cache k' 4 ∅ ∅ (fun n => default [] (ex_disk !! Z.to_nat n)).
Proof.
  intros k. destruct (binit_establishes_cache ex_machine ex_console (ex_procs 0) k 4) as (m' & k' & Hrun & Hc & _);
    [reflexivity|exact ex_disk_size|].
  exists m', k'. split; [exact Hrun|exact Hc].
Defined.

Lemma bread_spec_witness :
  exists i k' b, @bread 0%nat (@memide 0%nat) 1 3 (W (held ex_machine []) ex_console (ex_procs 0) (ex_cold ex_disk)) =
      Ret i (W (held ex_machine []) ex_console (ex_procs 0) k') /\
    cores k' !! i = Some b /\ b_data b = ex_view ex_disk 3.
Proof.
  destruct (bread_spec (H := 0%nat) ex_machine ex_console (ex_procs 0) (ex_cold ex_disk) 1 4 ∅ ∅ (ex_view ex_disk) 3)
    as (i & k' & b & Hrun & _ & _ & Hb & _ & Hd & _).
  - apply ex_running.
  - apply ex_cold_cache, ex_disk_size.
  - right. apply (room_of_size _ 4 _ ∅ (ex_view ex_disk)); [apply ex_cold_cache, ex_disk_size|].
    rewrite !size_empty. unfold NBUF. lia.
  - vm_compute. split; [discriminate|reflexivity].
  - intros i b Hi. by apply elem_of_empty in Hi.
  - exists i, k', b. split; [exact Hrun|]. split; [exact Hb|exact Hd].
Defined.

Lemma write_through_spec_witness :
  exists p' k', @put_block 0%nat (@memide 0%nat) 3 (replicate BSIZE 7)
      (W (held ex_machine []) ex_console (ex_procs 0) (ex_cold ex_disk)) =
      Ret tt (W (held ex_machine []) ex_console p' k') /\
    k_written k' = [(3, replicate BSIZE 7)].
Proof.
  destruct (write_through_spec (H := 0%nat) ex_machine ex_console (ex_procs 0) (ex_cold ex_disk) 1 4 ∅
    (ex_view ex_disk) 3 (replicate BSIZE 7)) as (p' & k' & Hrun & _ & _ & _ & Hw).
  - apply ex_running.
  - apply ex_cold_cache, ex_disk_size.
  - right. apply (room_of_size _ 4 _ ∅ (ex_view ex_disk)); [apply ex_cold_cache, ex_disk_size|].
    rewrite !size_empty. unfold NBUF. lia.
  - vm_compute. split; [discriminate|reflexivity].
  - reflexivity.
  - exists p', k'. split; [exact Hrun|exact Hw].
Defined.
