(* ===== verification/Block.v ===== *)
(** * The block layer: what the buffer cache promises to its clients

    [BlockCache] states the buffer cache the way log.c and fs.c use it: a
    process holds some locked buffers, each of one block; the blocks have
    contents [view]; a set [dt] of blocks is dirty, pinned in the cache and not yet on the
    disk.  The laws are the rules of [bread], [bwrite], [brelse] and of the two
    assignments clients make to a buffer.  The instance at the end discharges them
    for bio.c over the memory disk. *)

From S2P Require Import Prelude Kstate Spinlock Cprintf Proc Kdata Sleeplock Bio Bcache.
From stdpp Require Import gmap strings list fin_maps functions.
Open Scope Z_scope.

(** The kernel state without the cache: everything but the buffers and the list head. *)
Definition uncached (k : kst) : kst :=
  k <| k_bufs := [] |> <| k_head_prev := None |> <| k_head_next := None |>.

(** Assignments of clients to a buffer they hold. *)
Definition set_data (i : nat) (f : list Z -> list Z) : MK unit :=
  set_buf i (fun b => b <| b_data := f (b_data b) |>).
Definition set_dirty (i : nat) : MK unit :=
  set_buf i (fun b => b <| b_flags := Z.lor (b_flags b) B_DIRTY |>).

Class BlockCache `{Fuel} `{DiskDriver} := {
  blk : kst -> Z -> gmap nat Z -> gset Z -> (Z -> list Z) -> Prop;

  blk_size : forall k pid hm dt view n,
    blk k pid hm dt view -> 0 <= n < Z.of_nat (length (k_disk k)) -> length (view n) = BSIZE;
  blk_clean : forall k pid hm dt view n,
    blk k pid hm dt view -> 0 <= n < Z.of_nat (length (k_disk k)) -> n ∉ dt ->
    (forall i, hm !! i ≠ Some n) -> k_disk k !! Z.to_nat n = Some (view n);
  blk_range : forall k pid hm dt view i n,
    blk k pid hm dt view -> hm !! i = Some n -> 0 <= n < Z.of_nat (length (k_disk k));
  blk_dirty_range : forall k pid hm dt view n,
    blk k pid hm dt view -> n ∈ dt -> 0 <= n < Z.of_nat (length (k_disk k));
  blk_frame : forall k k' pid hm dt view,
    k_bufs k' = k_bufs k -> k_head_prev k' = k_head_prev k -> k_head_next k' = k_head_next k ->
    k_disk k' = k_disk k -> blk k pid hm dt view -> blk k' pid hm dt view;

  blk_ext : forall k pid hm dt view view',
    (forall n, view' n = view n) -> blk k pid hm dt view -> blk k pid hm dt view';

  blk_bread : forall m co p me pid k hm dt view n (Q : nat -> world kst -> Prop),
    running m p me pid -> blk k pid hm dt view ->
    n ∈ dt \/ (size hm + size dt < NBUF)%nat -> 0 <= n < Z.of_nat (length (k_disk k)) ->
    (forall i, hm !! i ≠ Some n) ->
    (forall i k', hm !! i = None -> blk k' pid (<[i := n]> hm) dt view -> uncached k' = uncached k ->
       Q i (W (held m []) co p k')) ->
    wp (bread 1 n) Q (W (held m []) co p k);
  blk_get : forall w m co p pid k hm dt view i n (Q : buf -> world kst -> Prop),
    w = W m co p k -> blk k pid hm dt view -> hm !! i = Some n ->
    (forall b, b_blockno b = n -> b_data b = view n -> Q b (W m co p k)) ->
    wp (buf_at i) Q w;
  blk_set : forall m co p pid k hm dt view i n f (Q : unit -> world kst -> Prop),
    blk k pid hm dt view -> hm !! i = Some n -> length (f (view n)) = BSIZE ->
    (forall k', blk k' pid hm dt (<[n := f (view n)]> view) -> uncached k' = uncached k ->
       Q tt (W m co p k')) ->
    wp (set_data i f) Q (W m co p k);
  blk_dirty : forall m co p pid k hm dt view i n (Q : unit -> world kst -> Prop),
    blk k pid hm dt view -> hm !! i = Some n ->
    (forall k', blk k' pid hm ({[n]} ∪ dt) view -> uncached k' = uncached k -> Q tt (W m co p k')) ->
    wp (set_dirty i) Q (W m co p k);
  blk_bwrite : forall m co p me pid k hm dt view i n (Q : unit -> world kst -> Prop),
    running m p me pid -> blk k pid hm dt view -> hm !! i = Some n ->
    (forall k', blk k' pid hm (dt ∖ {[n]}) view -> uncached k' = disk_write n (view n) (uncached k) ->
       Q tt (W (held m []) co p k')) ->
    wp (bwrite i) Q (W (held m []) co p k);
  blk_brelse : forall m co p me pid k hm dt view i n (Q : unit -> world kst -> Prop),
    running m p me pid -> blk k pid hm dt view -> hm !! i = Some n ->
    n ∈ dt \/ k_disk k !! Z.to_nat n = Some (view n) ->
    (forall p' k', running m p' me pid -> blk k' pid (delete i hm) dt view -> uncached k' = uncached k ->
       Q tt (W (held m []) co p' k')) ->
    wp (brelse i) Q (W (held m []) co p k);
}.

(** ** bio.c implements the block layer *)

(** The blocks of the locked buffers are the ones the client knows. *)
Definition bio_blk (k : kst) (pid : Z) (hm : gmap nat Z) (dt : gset Z) (view : Z -> list Z) : Prop :=
  cache k pid (dom hm) dt view /\
  forall i n, hm !! i = Some n -> exists x, k_bufs k !! i = Some x /\ b_blockno x = n.

Lemma uncached_put_core i b k : uncached (put_core i b k) = uncached k.
Proof. done. Qed.

Lemma uncached_unlinked k k' : unlinked k' = unlinked k -> uncached k' = uncached k.
Proof. intros Hu. apply (f_equal uncached) in Hu. exact Hu. Qed.

Section instance.
Context `{Fu : Fuel}.
Implicit Types (k : kst) (pid : Z) (hm : gmap nat Z) (dt : gset Z) (view : Z -> list Z).

Lemma bio_held k pid hm dt view i n :
  bio_blk k pid hm dt view -> hm !! i = Some n ->
  exists x, k_bufs k !! i = Some x /\ b_blockno x = n /\ i ∈ dom hm /\
    0 <= n < Z.of_nat (length (k_disk k)) /\ b_data x = view n /\ length (b_data x) = BSIZE /\
    (b_flags x = 2 \/ b_flags x = 6) /\ b_dev x = 1.
Proof.
  intros [Hc Hm] Hi. destruct (Hm i n Hi) as (x & Hx & Hn).
  assert (Hd : i ∈ dom hm) by (apply elem_of_dom; by exists n).
  destruct (cache_held _ _ _ _ _ _ Hc Hd) as (x' & Hx' & _ & _ & _ & Hf & Hdev & Hr & Hdata & Hl).
  rewrite Hx in Hx'. injection Hx' as <-. exists x. subst n. split_and!; first [done | apply Hr].
Qed.

(** The other held buffers keep their block numbers when one buffer changes. *)
Lemma bio_put_core k pid hm dt view hm' dt' view' i n b :
  bio_blk k pid hm dt view -> (i < length (k_bufs k))%nat -> b_blockno b = n ->
  (forall j n', hm' !! j = Some n' -> (j = i /\ n' = n) \/ hm !! j = Some n' /\ j ≠ i) ->
  cache (put_core i b k) pid (dom hm') dt' view' -> bio_blk (put_core i b k) pid hm' dt' view'.
Proof.
  intros [_ Hm] Hi Hb Hsub Hc. split; [done|]. intros j n' Hj.
  destruct (Hsub j n' Hj) as [[-> ->]|[Hj' Hne]].
  - destruct (lookup_lt_is_Some_2 _ _ Hi) as [x Hx]. exists (relink b x). split; [by apply bufs_put_core|done].
  - destruct (Hm j n' Hj') as (x & Hx & Hn). exists x. by rewrite bufs_put_core_ne.
Qed.

Lemma bio_size k pid hm dt view n :
  bio_blk k pid hm dt view -> 0 <= n < Z.of_nat (length (k_disk k)) -> length (view n) = BSIZE.
Proof. intros [[_ D] _]. apply (view_size _ _ _ _ _ _ D). Qed.

Lemma bio_clean k pid hm dt view n :
  bio_blk k pid hm dt view -> 0 <= n < Z.of_nat (length (k_disk k)) -> n ∉ dt ->
  (forall i, hm !! i ≠ Some n) -> k_disk k !! Z.to_nat n = Some (view n).
Proof.
  intros [[_ D] Hm] Hn Hdt Hh. destruct (lookup_lt_is_Some_2 (k_disk k) (Z.to_nat n)) as [d Hd]; [lia|].
  destruct (decide (Exists (fun c => b_flags c ≠ 0 /\ b_blockno c = n) (cores k))) as [He|Hno].
  - apply Exists_exists in He as (c & Hin & Hf & Hc).
    apply list_elem_of_In, list_elem_of_lookup in Hin as [i Hi].
    assert (Hih : i ∉ dom hm).
    { intros [n' Hn']%elem_of_dom. destruct (Hm i n' Hn') as (x & Hx & Hxn).
      apply cores_lookup in Hi as (x' & Hx' & ->). rewrite Hx in Hx'. injection Hx' as <-.
      apply (Hh i). rewrite Hn'. f_equal. rewrite <- Hc, <- Hxn. done. }
    assert (Hf2 : b_flags c = 2).
    { destruct (d_flags _ _ _ _ _ _ D i c Hi) as [?|[?|H6]]; [done|done|].
      exfalso. apply Hdt, (d_dirty _ _ _ _ _ _ D). by exists i, c. }
    pose proof (d_clean _ _ _ _ _ _ D i c Hi Hih Hf2) as Hcl. rewrite Hc in Hcl. rewrite Hcl. f_equal.
    rewrite <- Hc. by rewrite (d_view _ _ _ _ _ _ D i c Hi Hf).
  - rewrite Hd. f_equal. symmetry. apply (d_uncached _ _ _ _ _ _ D); [done|lia|].
    intros i b Hi Hf Hb. apply Hno, Exists_exists. exists b. split; [|done].
    apply list_elem_of_In, list_elem_of_lookup. by exists i.
Qed.

Lemma bio_bread m co p me pid k hm dt view n (Q : nat -> world kst -> Prop) :
  running m p me pid -> bio_blk k pid hm dt view ->
  n ∈ dt \/ (size hm + size dt < NBUF)%nat -> 0 <= n < Z.of_nat (length (k_disk k)) ->
  (forall i, hm !! i ≠ Some n) ->
  (forall i k', hm !! i = None -> bio_blk k' pid (<[i := n]> hm) dt view -> uncached k' = uncached k ->
     Q i (W (held m []) co p k')) ->
  wp (bread 1 n) Q (W (held m []) co p k).
Proof.
  intros Hrun Hb Hroom Hn Hne HQ. pose proof Hb as [Hc Hm]. eapply (wp_bread m co p me pid Hrun k); [exact Hc| |done| |].
  - destruct Hroom as [?|Hs]; [by left|right]. eapply room_of_size; [exact Hc|]. by rewrite size_dom.
  - intros i b [n' Hn']%elem_of_dom Hi Hbn. destruct (Hm i n' Hn') as (x & Hx & Hxn).
    apply cores_lookup in Hi as (x' & Hx' & ->). rewrite Hx in Hx'. injection Hx' as <-.
    apply (Hne i). rewrite Hn'. f_equal. rewrite <- Hbn, <- Hxn. done.
  - intros i b' Hi Hld Hc'. apply not_elem_of_dom in Hi. apply HQ; [done| |done].
    apply (bio_put_core _ _ _ _ _ _ _ _ _ n _ Hb).
    + destruct (cache_held _ _ _ _ _ i Hc' ltac:(set_solver)) as (x & Hx & _).
      apply lookup_lt_Some in Hx. cbn in Hx. by rewrite length_alter in Hx.
    + apply Hld.
    + intros j n' Hj. apply lookup_insert_Some in Hj as [[-> ->]|[? ?]]; [by left|right; auto].
    + by rewrite dom_insert_L.
Qed.

Lemma bio_get w m co p pid k hm dt view i n (Q : buf -> world kst -> Prop) :
  w = W m co p k -> bio_blk k pid hm dt view -> hm !! i = Some n ->
  (forall b, b_blockno b = n -> b_data b = view n -> Q b (W m co p k)) ->
  wp (buf_at i) Q w.
Proof.
  intros -> Hb Hi HQ. destruct (bio_held _ _ _ _ _ _ _ Hb Hi) as (x & Hx & Hn & _ & _ & Hd & _).
  eapply wp_buf_at; [exact Hx|]. by apply HQ.
Qed.

(** Any change of the contents and flags of a held buffer. *)
Lemma bio_change m co p pid k hm dt view i n f dt' view' (Q : unit -> world kst -> Prop) :
  bio_blk k pid hm dt view -> hm !! i = Some n ->
  (forall b, b_prev (f b) = b_prev b /\ b_next (f b) = b_next b /\ b_blockno (f b) = b_blockno b) ->
  (forall x, k_bufs k !! i = Some x -> cache (put_core i (f x) k) pid (dom hm) dt' view') ->
  (forall k', bio_blk k' pid hm dt' view' -> uncached k' = uncached k -> Q tt (W m co p k')) ->
  wp (set_buf i f) Q (W m co p k).
Proof.
  intros Hb Hi Hf Hc HQ. destruct (bio_held _ _ _ _ _ _ _ Hb Hi) as (x & Hx & Hn & _).
  destruct (Hf x) as (Hp & Hnx & Hbn).
  eapply wp_set_buf; [exact Hx|done..|]. apply HQ; [|done].
  apply (bio_put_core _ _ _ _ _ _ _ _ _ n _ Hb); [by eapply lookup_lt_Some|congruence| |by apply Hc].
  intros j n' Hj. destruct (decide (j = i)) as [->|]; [left; split; congruence|by right].
Qed.

Lemma bio_set m co p pid k hm dt view i n f (Q : unit -> world kst -> Prop) :
  bio_blk k pid hm dt view -> hm !! i = Some n -> length (f (view n)) = BSIZE ->
  (forall k', bio_blk k' pid hm dt (<[n := f (view n)]> view) -> uncached k' = uncached k ->
     Q tt (W m co p k')) ->
  wp (set_data i f) Q (W m co p k).
Proof.
  intros Hb Hi Hl HQ. destruct (bio_held _ _ _ _ _ _ _ Hb Hi) as (x & Hx & Hn & Hdom & _ & Hd & _).
  eapply bio_change; [exact Hb|exact Hi|done| |exact HQ].
  intros x' Hx'. rewrite Hx in Hx'. injection Hx' as <-. rewrite <- Hd, <- Hn in *.
  by apply (cache_set_data _ _ _ _ _ _ _ _ (proj1 Hb)).
Qed.

Lemma bio_dirty m co p pid k hm dt view i n (Q : unit -> world kst -> Prop) :
  bio_blk k pid hm dt view -> hm !! i = Some n ->
  (forall k', bio_blk k' pid hm ({[n]} ∪ dt) view -> uncached k' = uncached k -> Q tt (W m co p k')) ->
  wp (set_dirty i) Q (W m co p k).
Proof.
  intros Hb Hi HQ. destruct (bio_held _ _ _ _ _ _ _ Hb Hi) as (x & Hx & Hn & Hdom & _ & Hd & Hl & Hf & _).
  eapply bio_change; [exact Hb|exact Hi|done| |exact HQ].
  intros x' Hx'. rewrite Hx in Hx'. injection Hx' as <-.
  assert (H6 : Z.lor (b_flags x) B_DIRTY = 6) by (by destruct Hf as [-> | ->]).
  pose proof (cache_modify _ _ _ _ _ i x (x <| b_flags := Z.lor (b_flags x) B_DIRTY |>) (proj1 Hb) Hdom Hx) as Hm.
  cbn in Hm. rewrite H6 in *. specialize (Hm eq_refl eq_refl (or_intror eq_refl) Hl eq_refl eq_refl). cbn in Hm.
  rewrite Hn, Hd in Hm. destruct Hm as [Hr D]. split; [done|].
  eapply data_view_ext; [|exact D]. intros n'. destruct (decide (n' = n)) as [->|]; by rewrite ?fn_lookup_insert, ?fn_lookup_insert_ne.
Qed.

Lemma bio_bwrite m co p me pid k hm dt view i n (Q : unit -> world kst -> Prop) :
  running m p me pid -> bio_blk k pid hm dt view -> hm !! i = Some n ->
  (forall k', bio_blk k' pid hm (dt ∖ {[n]}) view -> uncached k' = disk_write n (view n) (uncached k) ->
     Q tt (W (held m []) co p k')) ->
  wp (bwrite i) Q (W (held m []) co p k).
Proof.
  intros Hrun Hb Hi HQ. destruct (bio_held _ _ _ _ _ _ _ Hb Hi) as (x & Hx & Hn & Hdom & _ & Hd & _).
  eapply (wp_bwrite m co p me pid Hrun); [exact (proj1 Hb)|exact Hdom|exact Hx|].
  intros k' Hc. unfold k' in *. clear k'. rewrite Hn, Hd in *. apply HQ; [|done]. split; [done|].
  intros j n' Hj. destruct (decide (j = i)) as [->|].
  - exists (relink (x <| b_flags := 2 |>) x). split; [by apply (bufs_put_core i _ k)|].
    rewrite Hi in Hj. by injection Hj as <-.
  - destruct (proj2 Hb j n' Hj) as (y & Hy & Hyn). exists y. split; [|done].
    rewrite <- Hy. by apply (bufs_put_core_ne i j _ k).
Qed.

Lemma bio_brelse m co p me pid k hm dt view i n (Q : unit -> world kst -> Prop) :
  running m p me pid -> bio_blk k pid hm dt view -> hm !! i = Some n ->
  n ∈ dt \/ k_disk k !! Z.to_nat n = Some (view n) ->
  (forall p' k', running m p' me pid -> bio_blk k' pid (delete i hm) dt view -> uncached k' = uncached k ->
     Q tt (W (held m []) co p' k')) ->
  wp (brelse i) Q (W (held m []) co p k).
Proof.
  intros Hrun Hb Hi Hcl HQ. destruct (bio_held _ _ _ _ _ _ _ Hb Hi) as (x & Hx & Hn & Hdom & _ & Hd & _).
  pose proof (held_dirty _ _ _ _ _ i x (proj1 Hb) Hdom Hx) as Hdt. rewrite Hn in Hdt.
  eapply (wp_brelse m co p me pid Hrun); [exact (proj1 Hb)|exact Hdom|exact Hx| |].
  - intros Hf. rewrite Hn, Hd. destruct Hcl as [Hin|]; [|done]. apply Hdt in Hin. congruence.
  - intros k' Hu Hc. apply HQ; [by apply running_wake| |by apply uncached_unlinked in Hu].
    split; [by rewrite dom_delete_L|]. intros j n' [Hne Hj]%lookup_delete_Some.
    destruct (proj2 Hb j n' Hj) as (y & Hy & Hyn).
    assert (Hcj : cores k' !! j = cores k !! j).
    { rewrite (unlinked_cores _ _ Hu), cores_put_core by by eapply lookup_lt_Some.
      by apply list_lookup_insert_ne. }
    unfold cores in Hcj. rewrite !list_lookup_fmap, Hy in Hcj. destruct (k_bufs k' !! j) as [z|]; [|done].
    apply (inj Some) in Hcj. exists z. split; [done|]. rewrite <- Hyn. by apply (f_equal b_blockno) in Hcj.
Qed.

End instance.

#[export] Instance bio_block_cache `{Fu : Fuel} : BlockCache.
Proof.
  refine {| blk := bio_blk; blk_size := bio_size; blk_clean := bio_clean; blk_bread := bio_bread;
    blk_get := bio_get; blk_set := bio_set; blk_dirty := bio_dirty; blk_bwrite := bio_bwrite;
    blk_brelse := bio_brelse |}.
  - intros k pid hm dt view i n Hb Hi. by destruct (bio_held _ _ _ _ _ _ _ Hb Hi) as (x & _ & _ & _ & Hr & _).
  - intros k pid hm dt view n [[_ D] _] Hn. apply (d_dirty _ _ _ _ _ _ D) in Hn as (i & b & Hi & Hf & <-).
    eapply (d_range _ _ _ _ _ _ D); [exact Hi|]. eapply (d_valid _ _ _ _ _ _ D); [exact Hi|lia].
  - intros k k' pid hm dt view Hk Hp Hn Hd [[[l Hr] D] Hm]. split; [split|].
    + exists l. unfold ring, nxt, prv in *. by rewrite ?Hk, ?Hp, ?Hn.
    + unfold cores in *. by rewrite Hk, Hd.
    + by rewrite Hk.
  - intros k pid hm dt view view' Hv [[Hr D] Hm]. split; [split; [done|]|done].
    by eapply data_view_ext.
Defined.
