(* ===== verification/Log.v ===== *)
(** * The write-ahead log (log.c)

    The functions of log.c over the block layer [BlockCache].  The theorems give
    [begin_op], [log_write], [end_op] and recovery on every branch, the exact
    sequence of disk writes a commit makes, and that a crash between any two
    of them is repaired by [recover_from_log]: the home blocks come back as before the transaction
    or as after it, never a mixture. *)

From S2P Require Import Prelude Kstate Spinlock Cprintf Proc Kdata Sleeplock Bio Bcache Block.
From stdpp Require Import gmap strings list fin_maps functions.
Open Scope Z_scope.

(** [memmove(sb, bp->data, sizeof( *sb))]: the seven words of the super block. *)
Definition sb_of (d : list Z) : superblock :=
  mkSb (get32 0 d) (get32 4 d) (get32 8 d) (get32 12 d) (get32 16 d) (get32 20 d) (get32 24 d).

Definition sizeof_logheader : Z := 4 + 4 * LOGSIZE.

Section log_c.
Context `{Fu : Fuel} `{Drv : DiskDriver}.

(** fs.c *)
Definition readsb (dev : Z) : MK superblock :=
  let! bp := bread dev 1 in
  let! b := buf_at bp in
  brelse bp ;;;
  ret (sb_of (b_data b)).

(** [log.lh.n = v], [log.lh.block[i]] and [log.lh.block[i] = v]; the array has [LOGSIZE] elements. *)
Definition set_lh_n (v : Z) : MK unit := upd_log (fun l => l <| l_lh := l_lh l <| lh_n := v |> |>).
Definition lh_block_at (i : nat) : MK Z :=
  let! l := get_log in deref (lh_block (l_lh l) !! i).
Definition set_lh_block (i : nat) (v : Z) : MK unit :=
  let! _ := lh_block_at i in
  upd_log (fun l => l <| l_lh := l_lh l <| lh_block := <[i := v]> (lh_block (l_lh l)) |> |>).

(** [for(i = 0; i < log.lh.n; i++)] *)
Definition for_lh (body : nat -> MK unit) : MK unit :=
  let! l := get_log in for_list (seq 0 (Z.to_nat (lh_n (l_lh l)))) body.

Definition install_trans : MK unit :=
  for_lh (fun tail =>
    let! l := get_log in
    let! lbuf := bread (u32 (l_dev l)) (u32 (l_start l + Z.of_nat tail + 1)) in
    let! home := lh_block_at tail in
    let! dbuf := bread (u32 (l_dev l)) (u32 home) in
    let! lb := buf_at lbuf in
    set_data dbuf (fun _ => b_data lb) ;;;
    bwrite dbuf ;;;
    brelse lbuf ;;;
    brelse dbuf).

(** [lh->n] and [lh->block[i]] of a header in a disk block. *)
Definition hd_n (d : list Z) : Z := s32 (get32 0 d).
Definition hd_block (d : list Z) (i : nat) : Z := s32 (get32 (4 + 4 * i) d).

Definition read_head : MK unit :=
  let! l := get_log in
  let! bp := bread (u32 (l_dev l)) (u32 (l_start l)) in
  let! b := buf_at bp in
  set_lh_n (hd_n (b_data b)) ;;;
  for_lh (fun i => set_lh_block i (hd_block (b_data b) i)) ;;;
  brelse bp.

Definition write_head : MK unit :=
  let! l := get_log in
  let! bp := bread (u32 (l_dev l)) (u32 (l_start l)) in
  let! l := get_log in
  set_data bp (put32 0 (lh_n (l_lh l))) ;;;
  for_lh (fun i =>
    let! v := lh_block_at i in
    set_data bp (put32 (4 + 4 * i) v)) ;;;
  bwrite bp ;;;
  brelse bp.

Definition recover_from_log : MK unit :=
  read_head ;;;
  install_trans ;;;
  set_lh_n 0 ;;;
  write_head.

Definition initlog (dev : Z) : MK unit :=
  if Z.of_nat BSIZE <=? sizeof_logheader then panic "initlog: too big logheader"
  else
    initlock Llog "log" ;;;
    let! sb := readsb (u32 dev) in
    upd_log (fun l => l <| l_start := s32 (sb_logstart sb) |>) ;;;
    upd_log (fun l => l <| l_size := s32 (sb_nlog sb) |>) ;;;
    upd_log (fun l => l <| l_dev := dev |>) ;;;
    recover_from_log.

(** One turn of the [while(1)] of [begin_op], and at most [n] turns. *)
Definition begin_op_turn : MK (unit + unit) :=
  let! l := get_log in
  if negb (l_committing l =? 0) then
    sleep Clog Llog ;;; ret (inl tt)
  else if LOGSIZE <? s32 (lh_n (l_lh l) + (l_outstanding l + 1) * MAXOPBLOCKS) then
    sleep Clog Llog ;;; ret (inl tt)
  else
    upd_log (fun l => l <| l_outstanding := s32 (l_outstanding l + 1) |>) ;;;
    release Llog ;;;
    ret (inr tt).

Definition begin_op_loop (n : nat) : MK unit := loop n (fun _ => begin_op_turn) tt.

Definition begin_op : MK unit :=
  acquire Llog ;;;
  begin_op_loop (Datatypes.S fuel).

Definition write_log : MK unit :=
  for_lh (fun tail =>
    let! l := get_log in
    let! to := bread (u32 (l_dev l)) (u32 (l_start l + Z.of_nat tail + 1)) in
    let! home := lh_block_at tail in
    let! from := bread (u32 (l_dev l)) (u32 home) in
    let! fb := buf_at from in
    set_data to (fun _ => b_data fb) ;;;
    bwrite to ;;;
    brelse from ;;;
    brelse to).

Definition commit : MK unit :=
  let! l := get_log in
  when (0 <? lh_n (l_lh l))
    (write_log ;;;
     write_head ;;;
     install_trans ;;;
     set_lh_n 0 ;;;
     write_head).

Definition end_op : MK unit :=
  acquire Llog ;;;
  upd_log (fun l => l <| l_outstanding := s32 (l_outstanding l - 1) |>) ;;;
  let! l := get_log in
  if negb (l_committing l =? 0) then panic "log.committing"
  else
    let! do_commit :=
      (if l_outstanding l =? 0 then
         upd_log (fun l => l <| l_committing := 1 |>) ;;; ret true
       else
         wakeup Clog ;;; ret false) in
    release Llog ;;;
    when do_commit
      (commit ;;;
       acquire Llog ;;;
       upd_log (fun l => l <| l_committing := 0 |>) ;;;
       wakeup Clog ;;;
       release Llog).

(** The index the loop of [log_write] stops at: the first [i] below [n] with
    [log.lh.block[i] == blockno] (compared unsigned), or [n]. *)
Fixpoint lh_find (blocks : list Z) (blockno : Z) : nat :=
  match blocks with
  | [] => 0
  | b :: bs => if u32 b =? blockno then 0 else Datatypes.S (lh_find bs blockno)
  end.

Definition log_write (bp : nat) : MK unit :=
  let! l := get_log in
  if (LOGSIZE <=? lh_n (l_lh l)) || (l_size l - 1 <=? lh_n (l_lh l)) then panic "too big a transaction"
  else if l_outstanding l <? 1 then panic "log_write outside of trans"
  else
    acquire Llog ;;;
    let! l := get_log in
    let! b := buf_at bp in
    let i := lh_find (take (Z.to_nat (lh_n (l_lh l))) (lh_block (l_lh l))) (b_blockno b) in
    set_lh_block i (s32 (b_blockno b)) ;;;
    when (Z.of_nat i =? lh_n (l_lh l)) (set_lh_n (s32 (lh_n (l_lh l) + 1))) ;;;
    set_dirty bp ;;;
    release Llog.

End log_c.

(** ** What a run wrote to the disk *)

Definition do_writes (ws : list (Z * list Z)) (k : kst) : kst :=
  foldl (fun k w => disk_write w.1 w.2 k) k ws.
Definition apply_writes (ws : list (Z * list Z)) (disk : list (list Z)) : list (list Z) :=
  foldl (fun d w => <[Z.to_nat w.1 := w.2]> d) disk ws.
Definition upd_view (ws : list (Z * list Z)) (view : Z -> list Z) : Z -> list Z :=
  foldl (fun v w => <[w.1 := w.2]> v) view ws.

(** From [k] to [k'] the disk writes [ws] were made, the log structure became [l], the cache may have
    changed, and nothing else did. *)
Definition wrote (ws : list (Z * list Z)) (l : log) (k k' : kst) : Prop :=
  uncached k' = do_writes ws (uncached k) <| k_log := l |>.

Lemma do_writes_log ws l k : do_writes ws (k <| k_log := l |>) = do_writes ws k <| k_log := l |>.
Proof. revert k. induction ws as [|w ws IH]; intros k; [done|]. apply (IH (disk_write w.1 w.2 k)). Qed.

Lemma do_writes_proj ws k :
  k_disk (do_writes ws k) = apply_writes ws (k_disk k) /\
  k_written (do_writes ws k) = k_written k ++ ws /\ k_log (do_writes ws k) = k_log k.
Proof.
  revert k. induction ws as [|[n d] ws IH]; intros k; [by rewrite app_nil_r|].
  destruct (IH (disk_write n d k)) as (H1 & H2 & H3).
  change (do_writes ((n, d) :: ws) k) with (do_writes ws (disk_write n d k)).
  rewrite H1, H2, H3. cbn. by rewrite <- app_assoc.
Qed.

Lemma wrote_same k k' : uncached k' = uncached k -> wrote [] (k_log k) k k'.
Proof. unfold wrote. intros ->. by destruct k. Qed.

Lemma wrote_one n d k k' : uncached k' = disk_write n d (uncached k) -> wrote [(n, d)] (k_log k) k k'.
Proof. unfold wrote. intros ->. by destruct k. Qed.

Lemma wrote_trans ws1 ws2 l1 l2 k1 k2 k3 :
  wrote ws1 l1 k1 k2 -> wrote ws2 l2 k2 k3 -> wrote (ws1 ++ ws2) l2 k1 k3.
Proof.
  unfold wrote. intros H1 H2. rewrite H2, H1, do_writes_log. unfold do_writes. by rewrite foldl_app.
Qed.

Lemma wrote_proj ws l k k' :
  wrote ws l k k' -> k_disk k' = apply_writes ws (k_disk k) /\ k_written k' = k_written k ++ ws /\ k_log k' = l.
Proof.
  intros H. destruct (do_writes_proj ws (uncached k)) as (H1 & H2 & _). unfold wrote in H.
  split; [|split].
  - apply (f_equal k_disk) in H. etransitivity; [exact H|exact H1].
  - apply (f_equal k_written) in H. etransitivity; [exact H|exact H2].
  - apply (f_equal k_log) in H. exact H.
Qed.

Lemma length_apply_writes ws disk : length (apply_writes ws disk) = length disk.
Proof. revert disk. induction ws as [|w ws IH]; intros disk; [done|].
  etransitivity; [apply IH|apply length_insert].
Qed.

Lemma wrote_disk_length ws l k k' : wrote ws l k k' -> length (k_disk k') = length (k_disk k).
Proof. intros (-> & _)%wrote_proj. apply length_apply_writes. Qed.

(** ** The log in a well formed file system *)

(** Blocks outside the log area. *)
Definition home (l : log) (nd n : Z) : Prop :=
  0 <= n < nd /\ ~ (l_start l <= n < l_start l + l_size l).

(** The blocks [bs] are in the current transaction, and the log can hold them. *)
Record log_wf (l : log) (nd : Z) (bs : list Z) : Prop := {
  lw_dev : l_dev l = 1;
  lw_area : 0 <= l_start l /\ l_start l + l_size l <= nd /\ nd < 2 ^ 31;
  lw_n : lh_n (l_lh l) = Z.of_nat (length bs);
  lw_len : length (lh_block (l_lh l)) = Z.to_nat LOGSIZE;
  lw_blocks : take (length bs) (lh_block (l_lh l)) = bs;
  lw_home : Forall (home l nd) bs;
  lw_nodup : NoDup bs;
  lw_fit : Z.of_nat (length bs) < l_size l;
  lw_size : l_size l <= LOGSIZE;
}.

Lemma lw_room l nd bs : log_wf l nd bs -> (length bs < NBUF)%nat.
Proof. intros Hw. pose proof (lw_fit _ _ _ Hw). pose proof (lw_size _ _ _ Hw). unfold LOGSIZE, MAXOPBLOCKS, NBUF in *. lia. Qed.

Lemma lw_block l nd bs i b : log_wf l nd bs -> bs !! i = Some b -> lh_block (l_lh l) !! i = Some b.
Proof.
  intros Hw Hi. assert (Hlt : (i < length bs)%nat) by by eapply lookup_lt_Some.
  rewrite <- (lw_blocks _ _ _ Hw) in Hi. rewrite lookup_take_lt in Hi by done. done.
Qed.

Lemma lw_home_at l nd bs i b : log_wf l nd bs -> bs !! i = Some b -> home l nd b.
Proof. intros Hw Hi. eapply Forall_lookup_1; [apply Hw|done]. Qed.

(** The [i]-th block of the log area. *)
Definition log_blk (l : log) (i : nat) : Z := l_start l + Z.of_nat i + 1.

Lemma log_blk_area l nd bs i :
  log_wf l nd bs -> (i < length bs)%nat ->
  0 <= log_blk l i < nd /\ l_start l < log_blk l i < l_start l + l_size l /\ is_u32 (log_blk l i).
Proof.
  intros Hw Hi. pose proof (lw_area _ _ _ Hw). pose proof (lw_fit _ _ _ Hw).
  unfold log_blk, is_u32. lia.
Qed.

Lemma home_u32 l nd bs b : log_wf l nd bs -> home l nd b -> is_u32 b.
Proof. intros Hw [? _]. pose proof (lw_area _ _ _ Hw). unfold is_u32. lia. Qed.

Lemma pair_swap (i j : nat) (a b : Z) :
  i ≠ j -> (<[i := a]> {[j := b]} : gmap nat Z) = <[j := b]> {[i := a]}.
Proof. intros. by rewrite <- !insert_empty, insert_insert_ne. Qed.

(** The writes of the two loops, from the [j]-th block of the transaction on. *)
Fixpoint install_ws (l : log) (view : Z -> list Z) (j : nat) (bs : list Z) : list (Z * list Z) :=
  match bs with
  | [] => []
  | b :: bs => (b, view (log_blk l j)) :: install_ws l view (Datatypes.S j) bs
  end.
Fixpoint write_ws (l : log) (view : Z -> list Z) (j : nat) (bs : list Z) : list (Z * list Z) :=
  match bs with
  | [] => []
  | b :: bs => (log_blk l j, view b) :: write_ws l view (Datatypes.S j) bs
  end.

Lemma install_ws_ext l view view' j bs :
  (forall i, (j <= i < j + length bs)%nat -> view (log_blk l i) = view' (log_blk l i)) ->
  install_ws l view j bs = install_ws l view' j bs.
Proof.
  revert j. induction bs as [|b bs IH]; intros j H; [done|]. cbn in *. rewrite H by lia. f_equal.
  apply IH. intros i Hi. apply H. lia.
Qed.

Lemma install_ws_start l l' view j bs :
  l_start l = l_start l' -> install_ws l view j bs = install_ws l' view j bs.
Proof.
  intros He. revert j. induction bs as [|b bs IH]; intros j; [done|]. cbn. rewrite IH. unfold log_blk. by rewrite He.
Qed.

Lemma write_ws_start l l' view j bs :
  l_start l = l_start l' -> write_ws l view j bs = write_ws l' view j bs.
Proof.
  intros He. revert j. induction bs as [|b bs IH]; intros j; [done|]. cbn. rewrite IH. unfold log_blk. by rewrite He.
Qed.

Lemma write_ws_ext l view view' j bs :
  (forall b, b ∈ bs -> view b = view' b) -> write_ws l view j bs = write_ws l view' j bs.
Proof.
  revert j. induction bs as [|b bs IH]; intros j H; [done|]. cbn. rewrite H by set_solver. f_equal.
  apply IH. set_solver.
Qed.

Lemma upd_view_ne ws v n : n ∉ ws.*1 -> upd_view ws v n = v n.
Proof.
  revert v. induction ws as [|[n' d] ws IH]; intros v Hn; [done|]. cbn in Hn |- *.
  change (upd_view ws (<[n' := d]> v) n = v n).
  rewrite IH by set_solver. apply fn_lookup_insert_ne. set_solver.
Qed.

Lemma upd_view_app ws1 ws2 v : upd_view (ws1 ++ ws2) v = upd_view ws2 (upd_view ws1 v).
Proof. apply foldl_app. Qed.

Lemma apply_writes_app ws1 ws2 disk : apply_writes (ws1 ++ ws2) disk = apply_writes ws2 (apply_writes ws1 disk).
Proof. apply foldl_app. Qed.

Lemma apply_writes_ne ws disk n :
  Forall (fun x => 0 <= x) ws.*1 -> 0 <= n -> n ∉ ws.*1 ->
  apply_writes ws disk !! Z.to_nat n = disk !! Z.to_nat n.
Proof.
  revert disk. induction ws as [|[n' d] ws IH]; intros disk Hp Hn Hne; [done|].
  cbn in Hp, Hne. inversion_clear Hp.
  change (apply_writes ws (<[Z.to_nat n' := d]> disk) !! Z.to_nat n = disk !! Z.to_nat n).
  rewrite IH by (done || set_solver). apply list_lookup_insert_ne.
  assert (n' ≠ n) by set_solver. lia.
Qed.

(** On a disk that agrees with [view] outside the written blocks, the writes are seen by both. *)
Lemma apply_writes_view ws disk view n :
  Forall (fun x => 0 <= x) ws.*1 -> 0 <= n < Z.of_nat (length disk) ->
  n ∈ ws.*1 \/ disk !! Z.to_nat n = Some (view n) ->
  apply_writes ws disk !! Z.to_nat n = Some (upd_view ws view n).
Proof.
  revert disk view. induction ws as [|[n' d] ws IH]; intros disk view Hp Hn Hd.
  - destruct Hd as [Hd|]; [by apply elem_of_nil in Hd|done].
  - cbn in Hp, Hd. inversion_clear Hp.
    change (apply_writes ws (<[Z.to_nat n' := d]> disk) !! Z.to_nat n = Some (upd_view ws (<[n' := d]> view) n)).
    apply IH; [done|by rewrite length_insert|]. destruct (decide (n = n')) as [->|Hne].
    + right. rewrite fn_lookup_insert. apply list_lookup_insert_eq. lia.
    + rewrite fn_lookup_insert_ne, list_lookup_insert_ne by (done || lia). set_solver.
Qed.

Lemma install_ws_fst l view j bs : (install_ws l view j bs).*1 = bs.
Proof. revert j. induction bs as [|b bs IH]; intros j; [done|]. cbn. by rewrite IH. Qed.

Lemma write_ws_fst l view j bs n :
  n ∈ (write_ws l view j bs).*1 -> exists i, (i < length bs)%nat /\ n = log_blk l (j + i).
Proof.
  revert j. induction bs as [|b bs IH]; intros j; [by intros ?%elem_of_nil|].
  cbn. intros [->|Hn]%elem_of_cons; [exists 0%nat; split; [lia|f_equal; lia]|].
  destruct (IH _ Hn) as (i & Hi & ->). exists (Datatypes.S i). split; [lia|f_equal; lia].
Qed.

Lemma upd_view_write_ws l view bs : forall j v i b,
  bs !! i = Some b -> upd_view (write_ws l view j bs) v (log_blk l (j + i)) = view b.
Proof.
  induction bs as [|b0 bs IH]; intros j v i b Hi; [done|]. destruct i as [|i].
  - injection Hi as ->. cbn.
    change (upd_view (write_ws l view (Datatypes.S j) bs) (<[log_blk l j := view b]> v) (log_blk l (j + 0)) = view b).
    rewrite Nat.add_0_r, upd_view_ne; [apply fn_lookup_insert|].
    intros (i & _ & He)%write_ws_fst. unfold log_blk in He. lia.
  - replace (j + Datatypes.S i)%nat with (Datatypes.S j + i)%nat by lia. by apply IH.
Qed.

(** What the installs of a commit write: the contents of the transaction's blocks. *)
Lemma install_ws_map l view view' bs : forall j,
  (forall i b, bs !! i = Some b -> view' (log_blk l (j + i)) = view b) ->
  install_ws l view' j bs = (fun b => (b, view b)) <$> bs.
Proof.
  induction bs as [|b bs IH]; intros j H; [done|]. cbn. f_equal.
  - f_equal. rewrite <- (H 0%nat b) by done. f_equal. f_equal. lia.
  - apply IH. intros i b' Hi. rewrite <- (H (Datatypes.S i) b') by done. f_equal. f_equal. lia.
Qed.

(** The header block as [write_head] fills it in. *)
Fixpoint put_blocks (j : nat) (bs d : list Z) : list Z :=
  match bs with
  | [] => d
  | b :: bs => put_blocks (Datatypes.S j) bs (put32 (4 + 4 * j) b d)
  end.
Definition head_bytes (bs d : list Z) : list Z := put_blocks 0 bs (put32 0 (Z.of_nat (length bs)) d).
(** The blocks a header names. *)
Definition hd_blocks (d : list Z) : list Z := hd_block d <$> seq 0 (Z.to_nat (hd_n d)).

Lemma length_put_blocks j bs d : length (put_blocks j bs d) = length d.
Proof.
  revert j d. induction bs as [|b bs IH]; intros j d; [done|]. cbn [put_blocks]. by rewrite IH, length_put32.
Qed.

Lemma length_head_bytes bs d : length (head_bytes bs d) = length d.
Proof. unfold head_bytes. by rewrite length_put_blocks, length_put32. Qed.

Lemma get_put_blocks bs : forall j d off,
  (4 + 4 * (j + length bs) <= length d)%nat -> (off + 4 <= 4 + 4 * j)%nat ->
  get32 off (put_blocks j bs d) = get32 off d.
Proof.
  induction bs as [|b bs IH]; intros j d off Hl Ho; [done|]. cbn [put_blocks length] in *.
  rewrite IH by (rewrite ?length_put32; lia). apply get_put32_ne; lia.
Qed.

Lemma put_blocks_block bs : forall j d i b,
  (4 + 4 * (j + length bs) <= length d)%nat -> bs !! i = Some b -> is_s32 b ->
  hd_block (put_blocks j bs d) (j + i) = b.
Proof.
  induction bs as [|b0 bs IH]; intros j d i b Hl Hi Hb; [done|]. cbn [put_blocks length] in *.
  destruct i as [|i].
  - injection Hi as ->. unfold hd_block. rewrite Nat.add_0_r.
    rewrite get_put_blocks by (rewrite ?length_put32; lia). rewrite get_put32 by lia.
    by apply s32_u32.
  - replace (j + Datatypes.S i)%nat with (Datatypes.S j + i)%nat by lia.
    apply IH; [rewrite length_put32; lia|done|done].
Qed.

(** [read_head] reads back what [write_head] wrote. *)
Lemma hd_blocks_head_bytes bs d :
  (4 + 4 * length bs <= length d)%nat -> Forall is_s32 bs -> Z.of_nat (length bs) < 2 ^ 31 ->
  hd_n (head_bytes bs d) = Z.of_nat (length bs) /\ hd_blocks (head_bytes bs d) = bs.
Proof.
  intros Hl Hb Hn. assert (Hhn : hd_n (head_bytes bs d) = Z.of_nat (length bs)).
  { unfold hd_n, head_bytes. rewrite get_put_blocks by (rewrite ?length_put32; lia).
    rewrite get_put32 by lia. apply s32_u32. unfold is_s32. lia. }
  split; [done|]. unfold hd_blocks. rewrite Hhn, Nat2Z.id. apply list_eq. intros i.
  rewrite list_lookup_fmap. destruct (bs !! i) as [b|] eqn:Hi.
  - assert (i < length bs)%nat by by eapply lookup_lt_Some.
    rewrite lookup_seq_lt by done. cbn. f_equal.
    apply (put_blocks_block bs 0); [rewrite length_put32; lia|done|].
    by eapply Forall_lookup_1.
  - apply lookup_ge_None in Hi. by rewrite lookup_seq_ge.
Qed.

(** ** The loops over the transaction *)

Section rules.
Context `{BC : BlockCache} (m : machine) (co : console) (me : nat) (pid : Z).

(** A block-layer state between transaction steps: nothing locked, only blocks of the transaction dirty. *)
Definition quiet (k : kst) (dt : gset Z) (view : Z -> list Z) (bs : list Z) : Prop :=
  blk k pid ∅ dt view /\ log_wf (k_log k) (Z.of_nat (length (k_disk k))) bs /\ dt ⊆ list_to_set bs.

Lemma quiet_size k dt view bs : quiet k dt view bs -> (size dt < NBUF)%nat.
Proof.
  intros (_ & Hw & Hs). pose proof (lw_room _ _ _ Hw). apply subseteq_size in Hs.
  rewrite size_list_to_set in Hs by apply Hw. lia.
Qed.

Lemma quiet_log_block k dt view bs i :
  quiet k dt view bs -> (i < length bs)%nat ->
  log_blk (k_log k) i ∉ dt /\ k_disk k !! Z.to_nat (log_blk (k_log k) i) = Some (view (log_blk (k_log k) i)).
Proof.
  intros (Hb & Hw & Hs) Hi. destruct (log_blk_area _ _ _ i Hw Hi) as (Hr & Ha & _).
  assert (Hn : log_blk (k_log k) i ∉ dt).
  { intros Hin%Hs%elem_of_list_to_set. pose proof (lw_home _ _ _ Hw) as Hh.
    rewrite Forall_forall in Hh. destruct (Hh _ (proj1 (list_elem_of_In _ _) Hin)) as [_ Hh']. lia. }
  split; [done|]. by apply (blk_clean _ _ _ _ _ _ Hb).
Qed.

(** The common end of the bodies of [install_trans] and [write_log]: the block of buffer [s] is copied to that
    of [d], written, and both are released. *)
Lemma wp_copy p k dt view s d a c (Q : unit -> world kst -> Prop) :
  running m p me pid -> s ≠ d -> a ≠ c -> blk k pid (<[s := a]> {[d := c]}) dt view ->
  a ∈ dt \/ k_disk k !! Z.to_nat a = Some (view a) ->
  (forall p' k', running m p' me pid -> blk k' pid ∅ (dt ∖ {[c]}) (<[c := view a]> view) ->
     wrote [(c, view a)] (k_log k) k k' -> Q tt (W (held m []) co p' k')) ->
  wp (let! x := buf_at s in
      set_data d (fun _ => b_data x) ;;;
      bwrite d ;;;
      brelse s ;;;
      brelse d) Q (W (held m []) co p k).
Proof.
  intros Hrun Hsd Hac Hb Hcl HQ.
  assert (Hs : (<[s := a]> {[d := c]} : gmap nat Z) !! s = Some a) by apply lookup_insert_eq.
  assert (Hd : (<[s := a]> {[d := c]} : gmap nat Z) !! d = Some c)
    by by rewrite lookup_insert_ne, lookup_singleton_eq.
  pose proof (blk_range _ _ _ _ _ _ _ Hb Hs) as Hra. pose proof (blk_range _ _ _ _ _ _ _ Hb Hd) as Hrc.
  kstep. eapply blk_get; [done|exact Hb|exact Hs|]. intros x _ Hx.
  kstep. eapply blk_set; [exact Hb|exact Hd| |]; rewrite Hx.
  { by apply (blk_size _ _ _ _ _ _ Hb). }
  intros k1 Hb1 Hk1. kstep.
  eapply blk_bwrite; [exact Hrun|exact Hb1|exact Hd|]. rewrite fn_lookup_insert. intros k2 Hb2 Hk2.
  assert (Hw2 : wrote [(c, view a)] (k_log k) k k2) by (apply wrote_one; by rewrite Hk2, Hk1).
  destruct (wrote_proj _ _ _ _ Hw2) as (Hd2 & _ & _). cbn in Hd2.
  kstep. eapply blk_brelse; [exact Hrun|exact Hb2|exact Hs| |].
  { rewrite Hd2, list_lookup_insert_ne, fn_lookup_insert_ne by (done || lia). set_solver. }
  intros p' k3 Hrun' Hb3 Hk3. rewrite delete_insert_eq, delete_singleton_ne in Hb3 by done.
  eapply blk_brelse; [exact Hrun'|exact Hb3|apply lookup_singleton_eq| |].
  { right. rewrite (f_equal k_disk Hk3 : k_disk k3 = k_disk k2), Hd2, fn_lookup_insert. apply list_lookup_insert_eq. lia. }
  intros p'' k4 Hrun'' Hb4 Hk4. rewrite delete_singleton_eq in Hb4.
  apply HQ; [done|done|]. unfold wrote in *. by rewrite Hk4, Hk3.
Qed.

(** Reading log block [i] and the home block [b] it belongs to. *)
Lemma wp_read_pair p k dt view bs i b (body : nat -> nat -> MK unit) (Q : unit -> world kst -> Prop) :
  running m p me pid -> quiet k dt view bs -> bs !! i = Some b ->
  b ∈ dt \/ (1 + size dt < NBUF)%nat ->
  (let lg := log_blk (k_log k) i in
   forall lb hb k', lb ≠ hb -> lg ≠ b -> blk k' pid (<[lb := lg]> {[hb := b]}) dt view ->
     uncached k' = uncached k -> k_disk k' !! Z.to_nat lg = Some (view lg) ->
     wp (body lb hb) Q (W (held m []) co p k')) ->
  wp (let! l := get_log in
      let! lb := bread (u32 (l_dev l)) (u32 (l_start l + Z.of_nat i + 1)) in
      let! home := lh_block_at i in
      let! hb := bread (u32 (l_dev l)) (u32 home) in
      body lb hb) Q (W (held m []) co p k).
Proof.
  intros Hrun Hq Hi Hroom HQ. pose proof (quiet_size _ _ _ _ Hq) as Hsz. pose proof Hq as (Hb & Hw & Hs).
  assert (Hlt : (i < length bs)%nat) by by eapply lookup_lt_Some.
  destruct (log_blk_area _ _ _ i Hw Hlt) as (Hr & Ha & Hu). destruct (quiet_log_block _ _ _ _ i Hq Hlt) as [Hnd Hcl].
  pose proof (lw_home_at _ _ _ _ _ Hw Hi) as Hbh. destruct Hbh as [Hbr Hbn] eqn:E; clear E.
  set (lg := log_blk (k_log k) i) in *. assert (Hne : lg ≠ b) by lia.
  kstep. unfold get_log at 1. ksteps. rewrite (lw_dev _ _ _ Hw). change (u32 1) with 1.
  change (l_start (k_log k) + Z.of_nat i + 1) with lg. rewrite (u32_id lg) by done.
  eapply blk_bread; [exact Hrun|exact Hb|right; rewrite map_size_empty; lia|done|by intros ? ?|].
  intros lb k1 _ Hb1 Hk1. rewrite insert_empty in Hb1.
  kstep. unfold lh_block_at, get_log. ksteps.
  rewrite (f_equal k_log Hk1 : k_log k1 = k_log k), (lw_block _ _ _ _ _ Hw Hi). ksteps.
  rewrite (u32_id b) by by eapply home_u32.
  eapply blk_bread; [exact Hrun|exact Hb1| | | |].
  { rewrite map_size_singleton. tauto. }
  { by rewrite (f_equal k_disk Hk1 : k_disk k1 = k_disk k). }
  { intros j [_ ?]%lookup_singleton_Some. by apply Hne. }
  intros hb k2 Hhb Hb2 Hk2. apply lookup_singleton_None in Hhb.
  apply HQ; [done|done| |by rewrite Hk2|].
  - by rewrite pair_swap.
  - by rewrite (f_equal k_disk Hk2 : k_disk k2 = k_disk k1), (f_equal k_disk Hk1 : k_disk k1 = k_disk k).
Qed.

(** One turn of [install_trans]: log block [i] is copied to its home. *)
Lemma wp_install_one p k dt view bs i b (Q : unit -> world kst -> Prop) :
  running m p me pid -> quiet k dt view bs -> bs !! i = Some b ->
  b ∈ dt \/ (1 + size dt < NBUF)%nat ->
  (let lg := log_blk (k_log k) i in
   forall p' k', running m p' me pid -> quiet k' (dt ∖ {[b]}) (<[b := view lg]> view) bs ->
     wrote [(b, view lg)] (k_log k) k k' -> Q tt (W (held m []) co p' k')) ->
  wp (let! l := get_log in
      let! lbuf := bread (u32 (l_dev l)) (u32 (l_start l + Z.of_nat i + 1)) in
      let! home := lh_block_at i in
      let! dbuf := bread (u32 (l_dev l)) (u32 home) in
      let! lb := buf_at lbuf in
      set_data dbuf (fun _ => b_data lb) ;;;
      bwrite dbuf ;;;
      brelse lbuf ;;;
      brelse dbuf) Q (W (held m []) co p k).
Proof.
  intros Hrun Hq Hi Hroom HQ. eapply wp_read_pair; [done..|].
  intros lg lb hb k1 Hlh Hlb Hb1 Hk1 Hcl. eapply wp_copy; [done|exact Hlh|exact Hlb|exact Hb1|by right|].
  intros p' k2 Hrun' Hb2 Hw2.
  assert (Hw : wrote [(b, view lg)] (k_log k) k k2).
  { unfold wrote in *. rewrite Hw2, Hk1. by rewrite (f_equal k_log Hk1 : k_log k1 = k_log k). }
  apply HQ; [done| |done]. destruct Hq as (_ & Hlw & Hs).
  split; [done|]. destruct (wrote_proj _ _ _ _ Hw) as (_ & _ & ->). rewrite (wrote_disk_length _ _ _ _ Hw).
  split; [done|set_solver].
Qed.

(** One turn of [write_log]: block [bs[i]] is copied to log block [i]. *)
Lemma wp_write_one p k dt view bs i b (Q : unit -> world kst -> Prop) :
  running m p me pid -> quiet k dt view bs -> bs !! i = Some b -> b ∈ dt ->
  (let lg := log_blk (k_log k) i in
   forall p' k', running m p' me pid -> quiet k' dt (<[lg := view b]> view) bs ->
     wrote [(lg, view b)] (k_log k) k k' -> Q tt (W (held m []) co p' k')) ->
  wp (let! l := get_log in
      let! to := bread (u32 (l_dev l)) (u32 (l_start l + Z.of_nat i + 1)) in
      let! home := lh_block_at i in
      let! from := bread (u32 (l_dev l)) (u32 home) in
      let! fb := buf_at from in
      set_data to (fun _ => b_data fb) ;;;
      bwrite to ;;;
      brelse from ;;;
      brelse to) Q (W (held m []) co p k).
Proof.
  intros Hrun Hq Hi Hdt HQ. eapply wp_read_pair; [done..|by left|].
  intros lg lb hb k1 Hlh Hlb Hb1 Hk1 Hcl. eapply (wp_copy _ _ _ _ hb lb b lg); [done|done|done| |by left|].
  { by rewrite pair_swap. }
  intros p' k2 Hrun' Hb2 Hw2.
  assert (Hw : wrote [(lg, view b)] (k_log k) k k2).
  { unfold wrote in *. rewrite Hw2, Hk1. by rewrite (f_equal k_log Hk1 : k_log k1 = k_log k). }
  destruct (quiet_log_block _ _ _ _ i Hq ltac:(by eapply lookup_lt_Some)) as [Hnd _].
  apply HQ; [done| |done]. destruct Hq as (_ & Hlw & Hs).
  replace (dt ∖ {[lg]}) with dt in Hb2 by set_solver.
  split; [done|]. destruct (wrote_proj _ _ _ _ Hw) as (_ & _ & ->). by rewrite (wrote_disk_length _ _ _ _ Hw).
Qed.

Lemma wp_installs suf : forall pre p k dt view (Q : unit -> world kst -> Prop),
  running m p me pid -> quiet k dt view (pre ++ suf) ->
  dt = ∅ \/ list_to_set suf ⊆ dt ->
  (forall p' k', let ws := install_ws (k_log k) view (length pre) suf in
     running m p' me pid -> quiet k' (dt ∖ list_to_set suf) (upd_view ws view) (pre ++ suf) ->
     wrote ws (k_log k) k k' -> Q tt (W (held m []) co p' k')) ->
  wp (for_list (seq (length pre) (length suf)) (fun tail =>
      let! l := get_log in
      let! lbuf := bread (u32 (l_dev l)) (u32 (l_start l + Z.of_nat tail + 1)) in
      let! home := lh_block_at tail in
      let! dbuf := bread (u32 (l_dev l)) (u32 home) in
      let! lb := buf_at lbuf in
      set_data dbuf (fun _ => b_data lb) ;;;
      bwrite dbuf ;;;
      brelse lbuf ;;;
      brelse dbuf)) Q (W (held m []) co p k).
Proof.
  induction suf as [|b suf IH]; intros pre p k dt view Q Hrun Hq Hdt HQ; cbn [length seq for_list].
  - kstep. apply HQ; [done| |by apply wrote_same]. cbn.
    by replace (dt ∖ ∅) with dt by set_solver.
  - kstep. assert (Hi : (pre ++ b :: suf) !! length pre = Some b) by by apply list_lookup_middle.
    eapply wp_install_one; [done|exact Hq|exact Hi| |].
    { destruct Hdt as [->|]; [right; rewrite size_empty; unfold NBUF; lia|left; set_solver]. }
    intros lg p1 k1 Hrun1 Hq1 Hw1.
    replace (pre ++ b :: suf) with ((pre ++ [b]) ++ suf) in * by by rewrite <- app_assoc.
    pose proof (lw_nodup _ _ _ (proj1 (proj2 Hq))) as Hnd.
    replace (Datatypes.S (length pre)) with (length (pre ++ [b])) by (rewrite length_app; cbn; lia).
    apply (IH _ _ _ _ _ Q Hrun1 Hq1).
    { destruct Hdt as [->|Hdt]; [left; set_solver|right]. rewrite <- app_assoc in Hnd.
      apply list.NoDup_app in Hnd as (_ & _ & [Hb _]%list.NoDup_cons). intros x Hx.
      apply elem_of_list_to_set in Hx. apply elem_of_difference. split; [set_solver|].
      intros ->%elem_of_singleton. done. }
    intros p2 k2 ws Hrun2 Hq2 Hw2. destruct (wrote_proj _ _ _ _ Hw1) as (_ & _ & Hl1).
    assert (Hws : ws = install_ws (k_log k) view (length (pre ++ [b])) suf).
    { unfold ws. rewrite Hl1. apply install_ws_ext. intros i Hi'. apply fn_lookup_insert_ne.
      destruct (log_blk_area _ _ _ i (proj1 (proj2 Hq))) as (_ & Ha & _); [rewrite length_app; lia|].
      destruct (lw_home_at _ _ _ (length pre) b (proj1 (proj2 Hq))) as [_ Hbh]; [exact Hi|]. lia. }
    rewrite Hws, Hl1 in *. rewrite length_app, Nat.add_1_r in *.
    apply HQ; [done| |].
    + replace (dt ∖ list_to_set (b :: suf)) with ((dt ∖ {[b]}) ∖ list_to_set suf) by set_solver. done.
    + exact (wrote_trans _ _ _ _ _ _ _ Hw1 Hw2).
Qed.

Lemma wp_write_logs suf : forall pre p k dt view (Q : unit -> world kst -> Prop),
  running m p me pid -> quiet k dt view (pre ++ suf) -> list_to_set suf ⊆ dt ->
  (forall p' k', let ws := write_ws (k_log k) view (length pre) suf in
     running m p' me pid -> quiet k' dt (upd_view ws view) (pre ++ suf) ->
     wrote ws (k_log k) k k' -> Q tt (W (held m []) co p' k')) ->
  wp (for_list (seq (length pre) (length suf)) (fun tail =>
      let! l := get_log in
      let! to := bread (u32 (l_dev l)) (u32 (l_start l + Z.of_nat tail + 1)) in
      let! home := lh_block_at tail in
      let! from := bread (u32 (l_dev l)) (u32 home) in
      let! fb := buf_at from in
      set_data to (fun _ => b_data fb) ;;;
      bwrite to ;;;
      brelse from ;;;
      brelse to)) Q (W (held m []) co p k).
Proof.
  induction suf as [|b suf IH]; intros pre p k dt view Q Hrun Hq Hdt HQ; cbn [length seq for_list].
  - kstep. apply HQ; [done|done|by apply wrote_same].
  - kstep. assert (Hi : (pre ++ b :: suf) !! length pre = Some b) by by apply list_lookup_middle.
    eapply wp_write_one; [done|exact Hq|exact Hi|set_solver|].
    intros lg p1 k1 Hrun1 Hq1 Hw1.
    assert (Ha : l_start (k_log k) < lg < l_start (k_log k) + l_size (k_log k)).
    { apply (log_blk_area _ _ _ (length pre) (proj1 (proj2 Hq))). rewrite length_app. cbn. lia. }
    replace (pre ++ b :: suf) with ((pre ++ [b]) ++ suf) in * by by rewrite <- app_assoc.
    replace (Datatypes.S (length pre)) with (length (pre ++ [b])) by (rewrite length_app; cbn; lia).
    apply (IH _ _ _ _ _ Q Hrun1 Hq1); [set_solver|].
    intros p2 k2 ws Hrun2 Hq2 Hw2. destruct (wrote_proj _ _ _ _ Hw1) as (_ & _ & Hl1).
    assert (Hws : ws = write_ws (k_log k) view (length (pre ++ [b])) suf).
    { unfold ws. rewrite Hl1. apply write_ws_ext. intros b' Hb'. apply fn_lookup_insert_ne.
      pose proof (lw_home _ _ _ (proj1 (proj2 Hq))) as Hh. rewrite Forall_forall in Hh.
      destruct (Hh b') as [_ Hbh]; [apply list_elem_of_In; set_solver|]. lia. }
    rewrite Hws, Hl1 in *. rewrite length_app, Nat.add_1_r in *.
    apply HQ; [done|done|]. exact (wrote_trans _ _ _ _ _ _ _ Hw1 Hw2).
Qed.

Lemma wp_put_blocks st bp suf : forall pre k dt view d m' p (Q : unit -> world kst -> Prop),
  log_wf (k_log k) (Z.of_nat (length (k_disk k))) (pre ++ suf) ->
  blk k pid {[bp := st]} dt (<[st := d]> view) -> length d = BSIZE ->
  (forall k', blk k' pid {[bp := st]} dt (<[st := put_blocks (length pre) suf d]> view) ->
     uncached k' = uncached k -> Q tt (W m' co p k')) ->
  wp (for_list (seq (length pre) (length suf)) (fun i =>
        let! v := lh_block_at i in
        set_data bp (put32 (4 + 4 * i) v))) Q (W m' co p k).
Proof.
  induction suf as [|b suf IH]; intros pre k dt view d m' p Q Hw Hb Hd HQ; cbn [length seq for_list].
  - kstep. by apply HQ.
  - kstep. kstep. unfold lh_block_at, get_log. ksteps.
    rewrite (lw_block _ _ _ (length pre) b Hw) by by apply list_lookup_middle. ksteps.
    eapply blk_set; [exact Hb|apply lookup_singleton_eq|by rewrite fn_lookup_insert, length_put32|].
    rewrite fn_lookup_insert. intros k1 Hb1 Hk1.
    replace (Datatypes.S (length pre)) with (length (pre ++ [b])) by (rewrite length_app; cbn; lia).
    replace (pre ++ b :: suf) with ((pre ++ [b]) ++ suf) in * by by rewrite <- app_assoc.
    rewrite <- (f_equal k_log Hk1 : k_log k1 = k_log k), <- (f_equal k_disk Hk1 : k_disk k1 = k_disk k) in Hw.
    apply (IH _ _ dt view (put32 (4 + 4 * length pre) b d) _ _ Q Hw); [|by rewrite length_put32|].
    { eapply blk_ext; [|exact Hb1]. intros n. destruct (decide (n = st)) as [->|].
      - by rewrite !fn_lookup_insert.
      - by rewrite !fn_lookup_insert_ne. }
    rewrite length_app, Nat.add_1_r. cbn [put_blocks] in HQ. intros k2 Hb2 Hk2. apply HQ; [done|by rewrite Hk2].
Qed.

Lemma quiet_start k dt view bs :
  quiet k dt view bs ->
  0 <= l_start (k_log k) < Z.of_nat (length (k_disk k)) /\ is_u32 (l_start (k_log k)) /\ l_start (k_log k) ∉ dt.
Proof.
  intros (_ & Hw & Hs). pose proof (lw_area _ _ _ Hw). pose proof (lw_fit _ _ _ Hw).
  split; [lia|]. split; [unfold is_u32; lia|]. intros Hin%Hs%elem_of_list_to_set.
  pose proof (lw_home _ _ _ Hw) as Hh. rewrite Forall_forall in Hh.
  destruct (Hh _ (proj1 (list_elem_of_In _ _) Hin)) as [_ Hh']. lia.
Qed.

Lemma wp_write_head p k dt view bs (Q : unit -> world kst -> Prop) :
  running m p me pid -> quiet k dt view bs ->
  (let st := l_start (k_log k) in
   forall p' k', running m p' me pid -> quiet k' dt (<[st := head_bytes bs (view st)]> view) bs ->
     wrote [(st, head_bytes bs (view st))] (k_log k) k k' -> Q tt (W (held m []) co p' k')) ->
  wp write_head Q (W (held m []) co p k).
Proof.
  intros Hrun Hq HQ. destruct (quiet_start _ _ _ _ Hq) as (Hr & Hu & Hnd). pose proof (quiet_size _ _ _ _ Hq) as Hsz.
  pose proof Hq as (Hb & Hw & Hs). pose proof (blk_size _ _ _ _ _ _ Hb Hr) as Hlen. set (st := l_start (k_log k)) in *.
  unfold write_head. kstep. unfold get_log at 1. ksteps. rewrite (lw_dev _ _ _ Hw). change (u32 1) with 1.
  fold st. rewrite (u32_id st) by done.
  eapply blk_bread; [exact Hrun|exact Hb|right; rewrite map_size_empty; lia|done|by intros ? ?|].
  intros bp k1 _ Hb1 Hk1. rewrite insert_empty in Hb1.
  assert (Hl1 : k_log k1 = k_log k) by exact (f_equal k_log Hk1).
  assert (Hd1 : k_disk k1 = k_disk k) by exact (f_equal k_disk Hk1).
  kstep. unfold get_log at 1. ksteps. rewrite Hl1, (lw_n _ _ _ Hw).
  eapply blk_set; [exact Hb1|apply lookup_singleton_eq|by rewrite length_put32|].
  intros k2 Hb2 Hk2. kstep. unfold for_lh, get_log. ksteps.
  assert (Hl2 : k_log k2 = k_log k) by (rewrite <- Hl1; exact (f_equal k_log Hk2)).
  assert (Hd2 : k_disk k2 = k_disk k) by (rewrite <- Hd1; exact (f_equal k_disk Hk2)).
  rewrite Hl2, (lw_n _ _ _ Hw), Nat2Z.id.
  apply (wp_put_blocks st bp bs [] k2 dt view (put32 0 (Z.of_nat (length bs)) (view st)));
    [by rewrite Hl2, Hd2|exact Hb2|by rewrite length_put32|].
  fold (head_bytes bs (view st)). intros k3 Hb3 Hk3. kstep.
  eapply blk_bwrite; [exact Hrun|exact Hb3|apply lookup_singleton_eq|]. rewrite fn_lookup_insert.
  intros k4 Hb4 Hk4. replace (dt ∖ {[st]}) with dt in Hb4 by set_solver.
  assert (Hw4 : wrote [(st, head_bytes bs (view st))] (k_log k) k k4) by (apply wrote_one; by rewrite Hk4, Hk3, Hk2, Hk1).
  destruct (wrote_proj _ _ _ _ Hw4) as (Hd4 & _ & Hl4). cbn in Hd4.
  eapply blk_brelse; [exact Hrun|exact Hb4|apply lookup_singleton_eq| |].
  { right. rewrite Hd4, fn_lookup_insert. apply list_lookup_insert_eq. lia. }
  intros p' k5 Hrun' Hb5 Hk5. rewrite delete_singleton_eq in Hb5.
  assert (Hw5 : wrote [(st, head_bytes bs (view st))] (k_log k) k k5) by (unfold wrote in *; by rewrite Hk5).
  destruct (wrote_proj _ _ _ _ Hw5) as (_ & _ & Hl5). apply HQ; [done| |done].
  split; [done|]. by rewrite Hl5, (wrote_disk_length _ _ _ _ Hw5).
Qed.

(** Emptying the in-memory header. *)
Lemma quiet_clear k view bs :
  quiet k ∅ view bs ->
  let l := k_log k <| l_lh := l_lh (k_log k) <| lh_n := 0 |> |> in
  quiet (k <| k_log := l |>) ∅ view [] /\ wrote [] l k (k <| k_log := l |>).
Proof.
  intros (Hb & Hw & _) l. split; [|done]. split; [by apply (blk_frame k)|]. split; [|set_solver].
  destruct Hw. split; cbn; try done; try constructor; lia.
Qed.

Lemma wp_write_log p k view bs (Q : unit -> world kst -> Prop) :
  running m p me pid -> quiet k (list_to_set bs) view bs ->
  (forall p' k', let ws := write_ws (k_log k) view 0 bs in
     running m p' me pid -> quiet k' (list_to_set bs) (upd_view ws view) bs ->
     wrote ws (k_log k) k k' -> Q tt (W (held m []) co p' k')) ->
  wp write_log Q (W (held m []) co p k).
Proof.
  intros Hrun Hq HQ. unfold write_log, for_lh, get_log at 1. ksteps.
  rewrite (lw_n _ _ _ (proj1 (proj2 Hq))), Nat2Z.id. by apply (wp_write_logs bs [] p k (list_to_set bs) view).
Qed.

Lemma wp_install_trans p k dt view bs (Q : unit -> world kst -> Prop) :
  running m p me pid -> quiet k dt view bs -> dt = ∅ \/ dt = list_to_set bs ->
  (forall p' k', let ws := install_ws (k_log k) view 0 bs in
     running m p' me pid -> quiet k' ∅ (upd_view ws view) bs ->
     wrote ws (k_log k) k k' -> Q tt (W (held m []) co p' k')) ->
  wp install_trans Q (W (held m []) co p k).
Proof.
  intros Hrun Hq Hdt HQ. unfold install_trans, for_lh, get_log at 1. ksteps.
  rewrite (lw_n _ _ _ (proj1 (proj2 Hq))), Nat2Z.id. apply (wp_installs bs [] p k dt view); [done|done| |].
  - destruct Hdt as [->| ->]; [by left|by right].
  - replace (dt ∖ list_to_set bs) with (∅ : gset Z) by set_solver. exact HQ.
Qed.

End rules.

(** The disk writes of a commit: the blocks to the log, the header, the blocks to their homes, the empty header. *)
Definition commit_ws (l : log) (view : Z -> list Z) (bs : list Z) : list (Z * list Z) :=
  let hd := head_bytes bs (view (l_start l)) in
  write_ws l view 0 bs ++ [(l_start l, hd)] ++ ((fun b => (b, view b)) <$> bs) ++ [(l_start l, head_bytes [] hd)].

(** The log with an empty transaction. *)
Definition log_cleared (l : log) : log := l <| l_lh := l_lh l <| lh_n := 0 |> |>.

Section commit.
Context `{BC : BlockCache} (m : machine) (co : console) (me : nat) (pid : Z).

Lemma home_not_written l nd view bs n :
  log_wf l nd bs -> home l nd n -> n ∉ (write_ws l view 0 bs).*1 /\ n ≠ l_start l.
Proof.
  intros Hw [_ Hn]. pose proof (lw_fit _ _ _ Hw). split; [|lia].
  intros (i & Hi & ->)%write_ws_fst. cbn in Hn. destruct (log_blk_area _ _ _ i Hw Hi) as (_ & Ha & _). lia.
Qed.

Lemma commit_view l nd view bs n :
  log_wf l nd bs -> home l nd n -> upd_view (commit_ws l view bs) view n = view n.
Proof.
  intros Hw Hn. destruct (home_not_written _ _ view _ _ Hw Hn) as [H1 H2]. unfold commit_ws.
  rewrite !upd_view_app. cbn [upd_view foldl fst]. rewrite fn_lookup_insert_ne by done.
  set (v := <[l_start l := _]> _). assert (Hv : v n = view n).
  { unfold v. rewrite fn_lookup_insert_ne by done. by apply upd_view_ne. }
  clearbody v. clear -Hv. revert v Hv. induction bs as [|b bs IH]; intros v Hv; [done|]. cbn.
  apply IH. destruct (decide (n = b)) as [->|]; [apply fn_lookup_insert|by rewrite fn_lookup_insert_ne].
Qed.

Lemma wp_commit p k view bs (Q : unit -> world kst -> Prop) :
  running m p me pid -> quiet pid k (list_to_set bs) view bs -> bs ≠ [] ->
  (forall p' k', running m p' me pid ->
     quiet pid k' ∅ (upd_view (commit_ws (k_log k) view bs) view) [] ->
     wrote (commit_ws (k_log k) view bs) (log_cleared (k_log k)) k k' -> Q tt (W (held m []) co p' k')) ->
  wp commit Q (W (held m []) co p k).
Proof.
  intros Hrun Hq Hne HQ. pose proof (proj1 (proj2 Hq)) as Hw. unfold commit, get_log. ksteps.
  rewrite (lw_n _ _ _ Hw). destruct (Z.ltb_spec 0 (Z.of_nat (length bs))); [|destruct bs; [done|cbn in *; lia]].
  kstep. kstep. eapply wp_write_log; [done|exact Hq|]. intros p1 k1 ws Hrun1 Hq1 Hw1.
  destruct (wrote_proj _ _ _ _ Hw1) as (_ & _ & Hl1).
  kstep. eapply wp_write_head; [done|exact Hq1|]. rewrite Hl1.
  assert (Hst : upd_view ws view (l_start (k_log k)) = view (l_start (k_log k))).
  { apply upd_view_ne. intros (i & Hi & He)%write_ws_fst. unfold log_blk in He. lia. }
  cbn beta zeta. rewrite Hst. intros p2 k2 Hrun2 Hq2 Hw2. destruct (wrote_proj _ _ _ _ Hw2) as (_ & _ & Hl2).
  kstep. eapply wp_install_trans; [done|exact Hq2|by right|]. rewrite Hl2. cbn beta zeta.
  rewrite (install_ws_map _ view).
  2:{ intros i b Hi. rewrite fn_lookup_insert_ne by (unfold log_blk; lia). by apply upd_view_write_ws. }
  intros p3 k3 Hrun3 Hq3 Hw3. destruct (wrote_proj _ _ _ _ Hw3) as (_ & _ & Hl3).
  kstep. unfold set_lh_n, upd_log. kstep. rewrite Hl3.
  destruct (quiet_clear _ _ _ _ Hq3) as [Hq4 Hw4]. rewrite Hl3 in Hq4, Hw4.
  eapply wp_write_head; [done|exact Hq4|].
  intros st p5 k5 Hrun5 Hq5 Hw5. unfold st in *.
  pose proof (wrote_trans _ _ _ _ _ _ _ (wrote_trans _ _ _ _ _ _ _ Hw1 Hw2)
    (wrote_trans _ _ _ _ _ _ _ Hw3 (wrote_trans _ _ _ _ _ _ _ Hw4 Hw5))) as Hwt.
  cbn [k_log l_start set_field] in *.
  match type of Hq5 with context [head_bytes [] ?d] => assert (Hd : d = head_bytes bs (view (l_start (k_log k)))) end.
  { rewrite upd_view_ne; [apply fn_lookup_insert|]. rewrite <- list_fmap_compose. cbn.
    intros (b & He & Hb)%list_elem_of_fmap. cbn in He.
    pose proof (lw_home _ _ _ Hw) as Hh. rewrite Forall_forall in Hh.
    destruct (Hh _ (proj1 (list_elem_of_In _ _) Hb)) as [_ Hh']. pose proof (lw_fit _ _ _ Hw). lia. }
  rewrite Hd in *. apply HQ; [done| |].
  - unfold commit_ws. rewrite !upd_view_app. exact Hq5.
  - unfold commit_ws. rewrite <- app_assoc in Hwt. exact Hwt.
Qed.

End commit.

(** ** Recovery *)

(** The in-memory log after [read_head] has read header [d]. *)
Definition head_loaded (l : log) (d : list Z) : log :=
  l <| l_lh := mkLh (hd_n d) (hd_blocks d ++ drop (Z.to_nat (hd_n d)) (lh_block (l_lh l))) |>.

(** Header block [d] describes a transaction the log can hold. *)
Definition recoverable (l : log) (nd : Z) (d : list Z) : Prop :=
  length (lh_block (l_lh l)) = Z.to_nat LOGSIZE /\ log_wf (head_loaded l d) nd (hd_blocks d).

Lemma length_hd_blocks d : length (hd_blocks d) = Z.to_nat (hd_n d).
Proof. unfold hd_blocks. by rewrite length_fmap, length_seq. Qed.

Section recovery.
Context `{BC : BlockCache} (m : machine) (co : console) (me : nat) (pid : Z).

Lemma wp_load_blocks f n : forall j k p m' (Q : unit -> world kst -> Prop),
  (let bl := lh_block (l_lh (k_log k)) in
   (j + n <= length bl)%nat ->
   Q tt (W m' co p (k <| k_log := k_log k <| l_lh := mkLh (lh_n (l_lh (k_log k)))
     (take j bl ++ (f <$> seq j n) ++ drop (j + n) bl) |> |>)) ->
   wp (for_list (seq j n) (fun i => set_lh_block i (f i))) Q (W m' co p k)).
Proof.
  induction n as [|n IH]; intros j k p m' Q bl Hl HQ; cbn [seq for_list].
  - kstep. cbn in HQ. rewrite Nat.add_0_r, take_drop in HQ. by destruct k as [?????????? [?????[]]].
  - kstep. unfold set_lh_block, lh_block_at, get_log. ksteps.
    destruct (lookup_lt_is_Some_2 bl j) as [v Hv]; [lia|]. fold bl. rewrite Hv. ksteps. unfold upd_log. kstep.
    apply IH; cbn; fold bl; rewrite ?length_insert; [lia|].
    rewrite (take_S_r _ _ (f j)) by (apply list_lookup_insert_eq; lia).
    rewrite take_insert_ge, drop_insert_lt by lia. rewrite <- app_assoc. cbn.
    cbn in HQ. by rewrite Nat.add_succ_r in HQ.
Qed.

Lemma wp_read_head p k view (Q : unit -> world kst -> Prop) :
  running m p me pid -> blk k pid ∅ ∅ view ->
  (let l := k_log k in let d := view (l_start l) in
   recoverable l (Z.of_nat (length (k_disk k))) d ->
   (forall p' k', running m p' me pid -> quiet pid k' ∅ view (hd_blocks d) ->
      wrote [] (head_loaded l d) k k' -> Q tt (W (held m []) co p' k')) ->
   wp read_head Q (W (held m []) co p k)).
Proof.
  intros Hrun Hb l d [Hlen Hw] HQ.
  pose proof (lw_area _ _ _ Hw) as Ha. pose proof (lw_fit _ _ _ Hw) as Hf. pose proof (lw_room _ _ _ Hw) as Hr.
  cbn in Ha, Hf. unfold NBUF in Hr. rewrite length_hd_blocks in *.
  unfold read_head, get_log. ksteps. fold l. rewrite (lw_dev _ _ _ Hw : l_dev l = 1). change (u32 1) with 1.
  rewrite (u32_id (l_start l)) by (unfold is_u32; lia).
  eapply blk_bread; [exact Hrun|exact Hb|right; rewrite map_size_empty, size_empty; unfold NBUF; lia|lia|by intros ? ?|].
  intros bp k1 _ Hb1 Hk1. rewrite insert_empty in Hb1.
  kstep. eapply blk_get; [done|exact Hb1|apply lookup_singleton_eq|]. intros b _ Hbd. fold d in Hbd. rewrite Hbd.
  kstep. unfold set_lh_n, upd_log. kstep. kstep. unfold for_lh, get_log. ksteps. cbn [k_log l_lh lh_n set_field].
  apply wp_load_blocks; cbn [k_log l_lh lh_n lh_block set_field].
  { rewrite (f_equal k_log Hk1 : k_log k1 = k_log k). fold l. rewrite Hlen. unfold LOGSIZE, MAXOPBLOCKS. lia. }
  rewrite (f_equal k_log Hk1 : k_log k1 = k_log k). fold l. cbn [take app]. fold (hd_blocks d).
  match goal with |- wp _ _ (W _ _ _ ?k0) => set (k2 := k0) end.
  eapply (blk_brelse _ _ _ _ _ k2); [exact Hrun|by apply (blk_frame k1)|apply lookup_singleton_eq| |].
  { right. change (k_disk k2) with (k_disk k1). rewrite (f_equal k_disk Hk1 : k_disk k1 = k_disk k).
    apply (blk_clean _ _ _ _ _ _ Hb); [lia|set_solver|by intros ? ?]. }
  intros p' k3 Hrun3 Hb3 Hk3. rewrite delete_singleton_eq in Hb3.
  assert (Hw3 : wrote [] (head_loaded l d) k k3).
  { unfold wrote. rewrite Hk3. unfold k2. cbn [do_writes foldl]. rewrite <- Hk1. done. }
  apply HQ; [done| |done]. destruct (wrote_proj _ _ _ _ Hw3) as (_ & _ & Hl3).
  split; [done|]. rewrite Hl3, (wrote_disk_length _ _ _ _ Hw3). split; [done|set_solver].
Qed.

(** The disk writes of recovery from header [d]. *)
Definition recover_ws (l : log) (view : Z -> list Z) : list (Z * list Z) :=
  let d := view (l_start l) in
  install_ws l view 0 (hd_blocks d) ++ [(l_start l, head_bytes [] d)].

Lemma wp_recover_from_log p k view (Q : unit -> world kst -> Prop) :
  running m p me pid -> blk k pid ∅ ∅ view ->
  (let l := k_log k in let d := view (l_start l) in
   recoverable l (Z.of_nat (length (k_disk k))) d ->
   (forall p' k', running m p' me pid -> quiet pid k' ∅ (upd_view (recover_ws l view) view) [] ->
      wrote (recover_ws l view) (log_cleared (head_loaded l d)) k k' -> Q tt (W (held m []) co p' k')) ->
   wp recover_from_log Q (W (held m []) co p k)).
Proof.
  intros Hrun Hb l d Hrec HQ. unfold recover_from_log.
  kstep. eapply wp_read_head; [done|exact Hb|exact Hrec|]. fold l d. intros p1 k1 Hrun1 Hq1 Hw1.
  destruct (wrote_proj _ _ _ _ Hw1) as (_ & _ & Hl1). pose proof (proj1 (proj2 Hq1)) as Hwf.
  kstep. eapply wp_install_trans; [done|exact Hq1|by left|]. cbn beta zeta.
  intros p2 k2 Hrun2 Hq2 Hw2. destruct (wrote_proj _ _ _ _ Hw2) as (_ & _ & Hl2).
  kstep. unfold set_lh_n, upd_log. kstep. destruct (quiet_clear _ _ _ _ Hq2) as [Hq3 Hw3].
  eapply wp_write_head; [done|exact Hq3|]. rewrite Hl2, Hl1 in *.
  intros st p4 k4 Hrun4 Hq4 Hw4. unfold st in *. clear st.
  pose proof (wrote_trans _ _ _ _ _ _ _ Hw1
    (wrote_trans _ _ _ _ _ _ _ Hw2 (wrote_trans _ _ _ _ _ _ _ Hw3 Hw4))) as Hwt.
  cbn [k_log l_start set_field] in *. change (l_start (head_loaded l d)) with (l_start l) in *.
  rewrite (install_ws_start (head_loaded l d) l) in * by done.
  match type of Hq4 with context [head_bytes [] ?x] => assert (Hd : x = d) end.
  { apply upd_view_ne. rewrite install_ws_fst. intros Hin.
    pose proof (lw_home _ _ _ Hwf) as Hh. rewrite Forall_forall in Hh.
    destruct (Hh _ (proj1 (list_elem_of_In _ _) Hin)) as [_ Hh']. pose proof (lw_fit _ _ _ Hwf).
    cbn in *. lia. }
  rewrite Hd in *. apply HQ; [done| |].
  - unfold recover_ws. rewrite upd_view_app. exact Hq4.
  - exact Hwt.
Qed.

End recovery.

(** ** Crashes *)

Section crash.
Context (l : log) (nd : Z) (bs : list Z) (Hw : log_wf l nd bs).

Lemma home_in b : b ∈ bs -> home l nd b.
Proof.
  intros Hb. pose proof (lw_home _ _ _ Hw) as Hh. rewrite Forall_forall in Hh. by apply Hh, list_elem_of_In.
Qed.

Lemma write_ws_nonneg view : Forall (fun x => 0 <= x) (write_ws l view 0 bs).*1.
Proof.
  apply Forall_forall. intros n Hn%list_elem_of_In.
  apply write_ws_fst in Hn as (i & Hi & ->). apply (log_blk_area _ _ _ i Hw Hi).
Qed.

Lemma self_ws_fst (view : Z -> list Z) (l' : list Z) : ((fun b => (b, view b)) <$> l').*1 = l'.
Proof. induction l' as [|b l' IH]; [done|]. cbn. by f_equal. Qed.

Lemma upd_view_self view l' v n :
  n ∈ l' \/ v n = view n -> upd_view ((fun b => (b, view b)) <$> l') v n = view n.
Proof.
  revert v. induction l' as [|b l' IH]; intros v Hn; [by destruct Hn as [?%elem_of_nil|]|]. cbn.
  apply IH. destruct (decide (n = b)) as [->|]; [right; apply fn_lookup_insert|].
  rewrite fn_lookup_insert_ne by done. set_solver.
Qed.

Lemma bs_nonneg : Forall (fun x => 0 <= x) bs.
Proof. apply Forall_forall. intros b Hb%list_elem_of_In. destruct (home_in b Hb). lia. Qed.

(** Installing the transaction brings every home block to [view], if those outside the
    transaction are there already. *)
Lemma installed disk view n :
  Z.of_nat (length disk) = nd -> home l nd n -> n ∈ bs \/ disk !! Z.to_nat n = Some (view n) ->
  apply_writes ((fun b => (b, view b)) <$> bs) disk !! Z.to_nat n = Some (view n).
Proof.
  intros Hl [Hn _] Hd. rewrite (apply_writes_view _ _ view).
  - f_equal. apply upd_view_self. by right.
  - rewrite self_ws_fst. apply bs_nonneg.
  - lia.
  - by rewrite self_ws_fst.
Qed.

(** Writes to the log area leave the home blocks alone. *)
Lemma log_writes_home disk view j hd n :
  home l nd n ->
  apply_writes (take j (write_ws l view 0 bs ++ [(l_start l, hd)])) disk !! Z.to_nat n = disk !! Z.to_nat n.
Proof.
  intros Hn. destruct (home_not_written _ _ view _ _ Hw Hn) as [H1 H2]. pose proof Hn as [Hn0 _].
  pose proof (lw_area _ _ _ Hw) as Ha.
  apply apply_writes_ne; [|lia|].
  - rewrite fmap_take. apply Forall_take. rewrite fmap_app. apply Forall_app. split; [apply write_ws_nonneg|].
    constructor; [cbn; lia|constructor].
  - intros Hin. rewrite fmap_take in Hin. apply subseteq_take in Hin. rewrite fmap_app in Hin. set_solver.
Qed.

(** The log structure a reboot builds from the same super block. *)
Definition same_area (l' : log) : Prop :=
  l_dev l' = l_dev l /\ l_start l' = l_start l /\ l_size l' = l_size l /\
  length (lh_block (l_lh l')) = Z.to_nat LOGSIZE.

Lemma recoverable_intro l' d bs' :
  same_area l' -> hd_n d = Z.of_nat (length bs') -> hd_blocks d = bs' -> bs' = [] \/ bs' = bs ->
  recoverable l' nd d.
Proof.
  intros (Hd & Hs & Hz & Hl) Hn Hbs Hc. split; [done|]. unfold head_loaded. rewrite Hbs, Hn, Nat2Z.id.
  assert (Hsub : Forall (home l nd) bs' /\ NoDup bs' /\ (length bs' <= length bs)%nat).
  { destruct Hc as [->| ->]; [|by destruct Hw]. split; [constructor|]. split; [constructor|cbn; lia]. }
  destruct Hsub as (H1 & H2 & H3). pose proof (lw_room _ _ _ Hw).
  destruct Hw as [Wd Wa Wn Wl Wb Wh Wu Wf Wr]. split; cbn; rewrite ?Hd, ?Hs, ?Hz; try done.
  - rewrite length_app, length_drop, Hl. unfold LOGSIZE, MAXOPBLOCKS, NBUF in *. lia.
  - by rewrite take_app_length.
  - eapply list.Forall_impl; [exact H1|]. intros n. unfold home. cbn. by rewrite Hs, Hz.
  - lia.
Qed.

Lemma hd_full d : length d = BSIZE ->
  hd_n (head_bytes bs d) = Z.of_nat (length bs) /\ hd_blocks (head_bytes bs d) = bs.
Proof.
  intros Hd. pose proof (lw_room _ _ _ Hw). pose proof (lw_area _ _ _ Hw). apply hd_blocks_head_bytes.
  - rewrite Hd. unfold BSIZE, NBUF in *. lia.
  - apply Forall_forall. intros b Hb%list_elem_of_In. destruct (home_in b Hb). unfold is_s32. lia.
  - unfold NBUF in *. lia.
Qed.

Lemma hd_empty d : length d = BSIZE -> hd_n (head_bytes [] d) = 0 /\ hd_blocks (head_bytes [] d) = [].
Proof.
  intros Hd. apply (hd_blocks_head_bytes [] d); [rewrite Hd; unfold BSIZE; cbn; lia|constructor|cbn; lia].
Qed.

End crash.

Section crash_run.
Context `{BC : BlockCache} (m : machine) (co : console) (me : nat) (pid : Z).

(** A reboot on a disk whose header is [d]: recovery returns, makes its writes, and the header on the disk is empty. *)
Lemma recover_run p k view l bs bs' :
  log_wf l (Z.of_nat (length (k_disk k))) bs -> same_area l (k_log k) ->
  running m p me pid -> blk k pid ∅ ∅ view ->
  (let d := view (l_start l) in
   hd_n d = Z.of_nat (length bs') -> hd_blocks d = bs' -> bs' = [] \/ bs' = bs ->
   exists p' k', recover_from_log (W (held m []) co p k) = Ret tt (W (held m []) co p' k') /\
     k_disk k' = apply_writes (install_ws l view 0 bs' ++ [(l_start l, head_bytes [] d)]) (k_disk k)).
Proof.
  intros Hw Ha Hrun Hb d Hn Hbs Hc. pose proof (proj1 (proj2 Ha)) as Hst.
  pose proof (recoverable_intro _ _ _ Hw _ d bs' Ha Hn Hbs Hc) as Hrec.
  assert (Hwp : wp recover_from_log (fun _ w => exists p' k', w = W (held m []) co p' k' /\
    k_disk k' = apply_writes (install_ws l view 0 bs' ++ [(l_start l, head_bytes [] d)]) (k_disk k))
    (W (held m []) co p k)).
  { eapply wp_recover_from_log; [done|exact Hb|by rewrite Hst|]. intros p' k' _ _ Hwr.
    exists p', k'. split; [done|]. destruct (wrote_proj _ _ _ _ Hwr) as (-> & _ & _).
    unfold recover_ws. rewrite Hst. fold d. rewrite Hbs. by rewrite (install_ws_start (k_log k) l). }
  apply wp_elim in Hwp as ([] & w & Hrun' & p' & k' & -> & ?). eauto.
Qed.

End crash_run.

(** What the disk holds when a commit has made its first [j] writes. *)
Section prefix.
Context (l : log) (nd : Z) (bs : list Z) (Hw : log_wf l nd bs) (view : Z -> list Z).

Lemma commit_ws_nonneg : Forall (fun x => 0 <= x) (commit_ws l view bs).*1.
Proof.
  pose proof (lw_area _ _ _ Hw). unfold commit_ws. rewrite !fmap_app, !Forall_app.
  split; [by apply (write_ws_nonneg _ nd)|]. split; [constructor; [cbn; lia|constructor]|].
  split; [rewrite self_ws_fst; by apply (bs_nonneg l nd)|constructor; [cbn; lia|constructor]].
Qed.

Lemma area_not_home n : l_start l <= n < l_start l + l_size l -> n ∉ bs /\ 0 <= n < nd.
Proof.
  intros Hn. pose proof (lw_area _ _ _ Hw). split; [|lia]. intros Hb.
  destruct (home_in _ _ _ Hw _ Hb) as [_ ?]. done.
Qed.

Lemma length_write_ws v j bs' : length (write_ws l v j bs') = length bs'.
Proof. revert j. induction bs' as [|b bs' IH]; intros j; [done|]. cbn. by rewrite IH. Qed.

(** Up to the header write, the header is the old one. *)
Lemma early_prefix j :
  (j <= length bs)%nat -> exists j', take j (commit_ws l view bs) = take j' (write_ws l view 0 bs ++ [(l_start l, [])]) /\
    upd_view (take j (commit_ws l view bs)) view (l_start l) = view (l_start l).
Proof.
  intros Hj. exists j. unfold commit_ws. rewrite !take_app_le by (rewrite length_write_ws; lia). split; [done|].
  apply upd_view_ne. rewrite fmap_take. intros Hin%subseteq_take.
  apply write_ws_fst in Hin as (i & _ & He). unfold log_blk in He. lia.
Qed.

(** From the header write to before the last one, the header names the transaction, the log blocks hold it. *)
Lemma late_prefix j :
  (length bs < j <= 2 * length bs + 1)%nat ->
  exists i, take j (commit_ws l view bs) =
      (write_ws l view 0 bs ++ [(l_start l, head_bytes bs (view (l_start l)))]) ++ take i ((fun b => (b, view b)) <$> bs).
Proof.
  intros Hj. exists (j - length bs - 1)%nat. unfold commit_ws. rewrite app_assoc.
  rewrite take_app_ge by (rewrite length_app, length_write_ws; cbn; lia).
  f_equal. rewrite length_app, length_write_ws. cbn [length].
  replace (j - (length bs + 1))%nat with (j - length bs - 1)%nat by lia.
  by rewrite take_app_le by (rewrite length_fmap; lia).
Qed.

Lemma late_view j :
  (length bs < j <= 2 * length bs + 1)%nat ->
  upd_view (take j (commit_ws l view bs)) view (l_start l) = head_bytes bs (view (l_start l)) /\
  forall i b, bs !! i = Some b -> upd_view (take j (commit_ws l view bs)) view (log_blk l i) = view b.
Proof.
  intros Hj. destruct (late_prefix j Hj) as [i0 ->]. rewrite upd_view_app.
  assert (Hout : forall n v, l_start l <= n < l_start l + l_size l ->
    upd_view (take i0 ((fun b => (b, view b)) <$> bs)) v n = v n).
  { intros n v Hn. apply upd_view_ne. rewrite fmap_take, self_ws_fst. intros Hin%subseteq_take.
    by apply (proj1 (area_not_home n Hn)). }
  pose proof (lw_fit _ _ _ Hw). split.
  - rewrite Hout by lia. rewrite upd_view_app. apply fn_lookup_insert.
  - intros i b Hi. assert (i < length bs)%nat by by eapply lookup_lt_Some.
    destruct (log_blk_area _ _ _ i Hw) as (_ & Ha & _); [done|].
    rewrite Hout by lia. rewrite upd_view_app. etransitivity; [apply fn_lookup_insert_ne; cbn; lia|].
    by apply (upd_view_write_ws l view bs 0).
Qed.

Context (disk : list (list Z)) (Hnd : Z.of_nat (length disk) = nd).
Context (Hclean : forall n, 0 <= n < nd -> n ∉ bs -> disk !! Z.to_nat n = Some (view n)).

(** The log area holds what the writes say. *)
Lemma prefix_area j n :
  l_start l <= n < l_start l + l_size l ->
  apply_writes (take j (commit_ws l view bs)) disk !! Z.to_nat n = Some (upd_view (take j (commit_ws l view bs)) view n).
Proof.
  intros Hn. destruct (area_not_home n Hn) as [Hb Hr].
  apply apply_writes_view; [|lia|right; by apply Hclean].
  rewrite fmap_take. apply Forall_take, commit_ws_nonneg.
Qed.

(** Home blocks outside the transaction never change. *)
Lemma prefix_other j n :
  home l nd n -> n ∉ bs -> apply_writes (take j (commit_ws l view bs)) disk !! Z.to_nat n = Some (view n).
Proof.
  intros Hn Hb. destruct (home_not_written _ _ view _ _ Hw Hn) as [H1 H2]. pose proof Hn as [Hn0 _].
  rewrite apply_writes_ne; [by apply Hclean| |lia|].
  - rewrite fmap_take. apply Forall_take, commit_ws_nonneg.
  - rewrite fmap_take. intros Hin%subseteq_take. unfold commit_ws in Hin.
    rewrite !fmap_app, self_ws_fst in Hin. set_solver.
Qed.

End prefix.

(** The home blocks hold [f]. *)
Definition homes (l : log) (nd : Z) (disk : list (list Z)) (f : Z -> option (list Z)) : Prop :=
  forall n, home l nd n -> disk !! Z.to_nat n = f n.

(** A crash of the commit of transaction [bs] after [j] writes, then a reboot: recovery returns
    with the home blocks of before the commit, or with all those of the transaction. *)
Definition repaired (l : log) (bs : list Z) (disk0 : list (list Z)) (view : Z -> list Z) (j : nat)
    (disk : list (list Z)) : Prop :=
  homes l (Z.of_nat (length disk0)) disk (fun n => if decide (j <= length bs)%nat then disk0 !! Z.to_nat n else Some (view n)).

Section repair.
Context `{BC : BlockCache} (m : machine) (co : console) (p : procs) (me : nat) (pid : Z) (k : kst) (view : Z -> list Z).
Context (l : log) (bs : list Z) (disk0 : list (list Z)) (view0 : Z -> list Z) (j : nat).
Context (Hrun : running m p me pid) (Hb : blk k pid ∅ ∅ view) (Ha : same_area l (k_log k)).
Context (Hw : log_wf l (Z.of_nat (length disk0)) bs).
Context (Hclean : forall n, 0 <= n < Z.of_nat (length disk0) -> n ∉ bs -> disk0 !! Z.to_nat n = Some (view0 n)).
Context (Hsize : length (view0 (l_start l)) = BSIZE) (Hhd0 : hd_n (view0 (l_start l)) = 0).
Context (Hdisk : k_disk k = apply_writes (take j (commit_ws l view0 bs)) disk0).

Lemma disk_len : length (k_disk k) = length disk0.
Proof. rewrite Hdisk. apply length_apply_writes. Qed.

Lemma view_area n :
  l_start l <= n < l_start l + l_size l -> view n = upd_view (take j (commit_ws l view0 bs)) view0 n.
Proof.
  intros Hn. destruct (area_not_home _ _ _ Hw n Hn) as [_ Hr].
  assert (Hv : k_disk k !! Z.to_nat n = Some (view n)).
  { apply (blk_clean _ _ _ _ _ _ Hb); [rewrite disk_len; lia|set_solver|by intros ? ?]. }
  rewrite Hdisk, (prefix_area _ _ _ Hw view0 disk0 eq_refl Hclean j n Hn) in Hv. congruence.
Qed.

Lemma hd_zero_blocks d : hd_n d = 0 -> hd_blocks d = [].
Proof. unfold hd_blocks. by intros ->. Qed.

Lemma start_area : l_start l <= l_start l < l_start l + l_size l.
Proof. pose proof (lw_fit _ _ _ Hw). lia. Qed.

(** Recovery with an empty header leaves the home blocks as the crash did. *)
Lemma repair_nothing :
  hd_n (view (l_start l)) = 0 ->
  exists p' k', recover_from_log (W (held m []) co p k) = Ret tt (W (held m []) co p' k') /\
    homes l (Z.of_nat (length disk0)) (k_disk k') (fun n => k_disk k !! Z.to_nat n).
Proof.
  intros Hn. pose proof Hw as Hw'. rewrite <- disk_len in Hw'.
  destruct (recover_run m co me pid p k view l bs [] Hw' Ha Hrun Hb) as (p' & k' & Hr & Hd);
    [done|by apply hd_zero_blocks|by left|].
  exists p', k'. split; [done|]. intros n [Hr1 Hr2]. rewrite Hd. pose proof start_area. pose proof (lw_area _ _ _ Hw).
  apply apply_writes_ne; [constructor; [cbn; lia|constructor]|lia|cbn; intros ?%list_elem_of_singleton; lia].
Qed.

Lemma repair_all :
  (length bs < j <= 2 * length bs + 1)%nat ->
  exists p' k', recover_from_log (W (held m []) co p k) = Ret tt (W (held m []) co p' k') /\
    homes l (Z.of_nat (length disk0)) (k_disk k') (fun n => Some (view0 n)).
Proof.
  intros Hj. destruct (late_view _ _ _ Hw view0 j Hj) as [Hst Hlb].
  assert (Hvs : view (l_start l) = head_bytes bs (view0 (l_start l))) by (rewrite view_area by apply start_area; done).
  destruct (hd_full _ _ _ Hw (view0 (l_start l)) Hsize) as [Hn1 Hn2]. pose proof Hw as Hw'. rewrite <- disk_len in Hw'.
  destruct (recover_run m co me pid p k view l bs bs Hw' Ha Hrun Hb) as (p' & k' & Hr & Hd);
    [by rewrite Hvs|by rewrite Hvs|by right|].
  exists p', k'. split; [done|]. intros n Hh. rewrite Hd.
  rewrite (install_ws_map _ view0).
  2:{ intros i b Hi. destruct (log_blk_area _ _ _ i Hw) as (_ & Hla & _); [by eapply lookup_lt_Some|].
      rewrite view_area by (cbn; lia). by apply Hlb. }
  rewrite apply_writes_app. rewrite apply_writes_ne.
  - apply (installed l (Z.of_nat (length disk0)) bs Hw); [by rewrite disk_len|done|].
    destruct (decide (n ∈ bs)); [by left|right]. rewrite Hdisk.
    by apply (prefix_other l _ bs Hw view0 disk0 eq_refl Hclean).
  - pose proof (lw_area _ _ _ Hw). constructor; [cbn; lia|constructor].
  - apply Hh.
  - cbn. intros ->%list_elem_of_singleton. pose proof start_area. destruct Hh. lia.
Qed.

Lemma repair :
  exists p' k', recover_from_log (W (held m []) co p k) = Ret tt (W (held m []) co p' k') /\
    repaired l bs disk0 view0 j (k_disk k').
Proof.
  unfold repaired. destruct (decide (j <= length bs)%nat) as [Hle|Hgt].
  - destruct (early_prefix l bs view0 j Hle) as (j' & Htake & Hst).
    destruct repair_nothing as (p' & k' & Hr & Hh).
    { rewrite view_area by apply start_area. by rewrite Hst. }
    exists p', k'. split; [done|]. intros n Hn. rewrite (Hh n Hn).
    rewrite Hdisk, Htake. by apply (log_writes_home l _ bs Hw).
  - destruct (decide (j <= 2 * length bs + 1)%nat) as [Hle|Hgt'].
    { apply repair_all. lia. }
    assert (Hall : take j (commit_ws l view0 bs) = commit_ws l view0 bs).
    { apply take_ge. unfold commit_ws. rewrite !length_app, length_write_ws, length_fmap. cbn. lia. }
    destruct repair_nothing as (p' & k' & Hr & Hh).
    { rewrite view_area by apply start_area. rewrite Hall. unfold commit_ws. rewrite !upd_view_app.
      etransitivity; [apply (f_equal hd_n), fn_lookup_insert|]. apply hd_empty. by rewrite length_head_bytes. }
    exists p', k'. split; [done|]. intros n Hn. rewrite (Hh n Hn).
    rewrite Hdisk, Hall. unfold commit_ws. rewrite app_assoc, !apply_writes_app.
    rewrite apply_writes_ne.
    + apply (installed l (Z.of_nat (length disk0)) bs Hw); [by rewrite !length_apply_writes|done|].
      destruct (decide (n ∈ bs)); [by left|right].
      rewrite <- apply_writes_app. rewrite <- (take_ge (_ ++ _) (Datatypes.S (length bs))).
      2:{ rewrite length_app, length_write_ws. cbn. lia. }
      rewrite (log_writes_home l _ bs Hw) by done. apply Hclean; [apply Hn|done].
    + pose proof (lw_area _ _ _ Hw). constructor; [cbn; lia|constructor].
    + apply Hn.
    + cbn. intros ->%list_elem_of_singleton. pose proof start_area. destruct Hn. lia.
Qed.

End repair.

(** ** Adding a block to the transaction *)

Definition log_add (bs : list Z) (n : Z) : list Z := if decide (n ∈ bs) then bs else bs ++ [n].
Definition log_added (l : log) (bs : list Z) (n : Z) : log :=
  if decide (n ∈ bs) then l
  else l <| l_lh := mkLh (lh_n (l_lh l) + 1) (<[length bs := n]> (lh_block (l_lh l))) |>.

Lemma lh_find_spec bs n :
  Forall is_u32 bs ->
  (n ∈ bs -> bs !! lh_find bs n = Some n) /\ (n ∉ bs -> lh_find bs n = length bs).
Proof.
  induction 1 as [|b bs Hb Hbs [IH1 IH2]]; cbn.
  - split; [by intros ?%elem_of_nil|done].
  - rewrite u32_id by done. destruct (Z.eqb_spec b n) as [->|Hne].
    + split; [done|]. intros Hn. exfalso. apply Hn. by left.
    + split; [intros [?|?]%elem_of_cons; [done|by apply IH1]|]. intros Hn. rewrite IH2; set_solver.
Qed.

Lemma log_wf_add l nd bs n :
  log_wf l nd bs -> home l nd n -> lh_n (l_lh l) < l_size l - 1 ->
  log_wf (log_added l bs n) nd (log_add bs n).
Proof.
  intros Hw Hn Hlt. unfold log_added, log_add. case_decide as Hin; [done|].
  pose proof (lw_room _ _ _ Hw). destruct Hw as [Wd Wa Wn Wl Wb Wh Wu Wf Wr]. rewrite Wn in *.
  split; cbn; try done.
  - rewrite length_app. cbn. lia.
  - by rewrite length_insert.
  - rewrite length_app. cbn. rewrite Nat.add_1_r. unfold LOGSIZE, MAXOPBLOCKS, NBUF in *.
    rewrite (take_S_r _ _ n) by (apply list_lookup_insert_eq; lia).
    rewrite take_insert_ge by lia. by rewrite Wb.
  - apply Forall_app. split; [done|]. apply Forall_singleton; exact Hn.
  - apply list.NoDup_app. split; [done|]. split; [|apply NoDup_singleton].
    intros x Hx ->%list_elem_of_singleton. done.
  - rewrite length_app. cbn. lia.
Qed.

Section log_write_rule.
Context `{BC : BlockCache} (m : machine) (co : console) (p : procs) (me : nat) (pid : Z).

Lemma log_block_store l nd bs n :
  log_wf l nd bs -> home l nd n ->
  let i := lh_find (take (Z.to_nat (lh_n (l_lh l))) (lh_block (l_lh l))) n in
  (exists v, lh_block (l_lh l) !! i = Some v) /\
  (let l1 := l <| l_lh := l_lh l <| lh_block := <[i := s32 n]> (lh_block (l_lh l)) |> |> in
   (if Z.of_nat i =? lh_n (l_lh l) then l1 <| l_lh := l_lh l1 <| lh_n := s32 (lh_n (l_lh l) + 1) |> |> else l1)
   = log_added l bs n).
Proof.
  intros Hw Hn i. pose proof (lw_room _ _ _ Hw) as Hr. pose proof (lw_area _ _ _ Hw) as Ha.
  assert (Hu : Forall is_u32 bs).
  { apply Forall_forall. intros b Hb%list_elem_of_In. by eapply home_u32, home_in. }
  assert (Hs : s32 n = n) by (apply s32_id; destruct Hn; unfold is_s32; lia).
  unfold i. rewrite (lw_n _ _ _ Hw), Nat2Z.id, (lw_blocks _ _ _ Hw), Hs.
  unfold NBUF in Hr. destruct (lh_find_spec bs n Hu) as [Hf1 Hf2]. unfold log_added. case_decide as Hin.
  - specialize (Hf1 Hin). assert (Hlt : (lh_find bs n < length bs)%nat) by by eapply lookup_lt_Some.
    pose proof (lw_block _ _ _ _ _ Hw Hf1) as Hb. split; [by eexists|].
    destruct (Z.eqb_spec (Z.of_nat (lh_find bs n)) (Z.of_nat (length bs))); [lia|].
    rewrite list_insert_id by done. by destruct l as [?????[]].
  - rewrite (Hf2 Hin). split.
    + apply lookup_lt_is_Some_2. rewrite (lw_len _ _ _ Hw). unfold LOGSIZE, MAXOPBLOCKS. lia.
    + rewrite Z.eqb_refl, s32_id by (unfold is_s32; lia). by rewrite (lw_n _ _ _ Hw).
Qed.

Lemma wp_log_write k hm dt view bs i n (Q : unit -> world kst -> Prop) :
  running m p me pid -> blk k pid hm dt view -> hm !! i = Some n ->
  (let l := k_log k in let nd := Z.of_nat (length (k_disk k)) in
   log_wf l nd bs -> home l nd n -> lh_n (l_lh l) < l_size l - 1 -> 1 <= l_outstanding l ->
   (forall k', blk k' pid hm ({[n]} ∪ dt) view -> wrote [] (log_added l bs n) k k' ->
      log_wf (k_log k') nd (log_add bs n) -> Q tt (W (held m []) co p k')) ->
   wp (log_write i) Q (W (held m []) co p k)).
Proof.
  intros Hrun Hb Hi l nd Hw Hn Hlt Ho HQ. pose proof (run_idle _ _ _ _ Hrun). pose proof (lw_size _ _ _ Hw) as Hsz.
  assert (Hlk : has_lock m Llog) by eauto with xv6.
  unfold log_write, get_log. kstep. kstep. kstep. kstep. fold l.
  destruct (Z.leb_spec LOGSIZE (lh_n (l_lh l))); [lia|].
  destruct (Z.leb_spec (l_size l - 1) (lh_n (l_lh l))); [lia|]. cbn [orb].
  destruct (Z.ltb_spec (l_outstanding l) 1); [lia|].
  kstep. apply wp_acquire; [done|done|set_solver|]. ksteps. fold l.
  eapply blk_get; [done|exact Hb|exact Hi|]. intros b Hbn _. rewrite Hbn.
  destruct (log_block_store l nd bs n Hw Hn) as [[v Hv] Hst].
  set (j := lh_find _ _) in *. unfold set_lh_block, lh_block_at, get_log. ksteps.
  unfold upd_log. ksteps. fold l.
  set (k1 := k <| k_log := l <| l_lh := l_lh l <| lh_block := <[j := s32 n]> (lh_block (l_lh l)) |> |> |>).
  change (k <| k_log := _ |>) with k1.
  set (k2 := k <| k_log := log_added l bs n |>).
  assert (Hwhen : forall Q' : unit -> world kst -> Prop, Q' tt (W (held m [Llog]) co p k2) ->
    wp (when (Z.of_nat j =? lh_n (l_lh l)) (set_lh_n (s32 (lh_n (l_lh l) + 1)))) Q' (W (held m [Llog]) co p k1)).
  { intros Q' HQ'. unfold k2 in HQ'. rewrite <- Hst in HQ'. destruct (Z.of_nat j =? lh_n (l_lh l)); kstep; [|done].
    unfold set_lh_n, upd_log. kstep. done. }
  apply Hwhen. kstep.
  eapply (blk_dirty (held m [Llog]) co p pid k2); [by apply (blk_frame k)|exact Hi|].
  intros k3 Hb3 Hk3. apply wp_release; [done|done|set_solver|].
  assert (Hwr : wrote [] (log_added l bs n) k k3) by (unfold wrote; by rewrite Hk3).
  apply HQ; [done|done|]. destruct (wrote_proj _ _ _ _ Hwr) as (_ & _ & ->). by apply log_wf_add.
Qed.

End log_write_rule.

(** ** Properties *)

(** C6.  A commit returns with every home block on the disk as the transaction left it; and if the machine stops
    after any number of its disk writes, recovery from that disk returns with the home blocks of before the commit
    (no more than the copies into the log were made) or with all of those of the transaction. *)
Theorem commit_crash_safe `{BlockCache} m co p me pid k view bs :
  running m p me pid -> quiet pid k (list_to_set bs) view bs -> bs ≠ [] ->
  hd_n (view (l_start (k_log k))) = 0 ->
  exists p' k' ws, commit (W (held m []) co p k) = Ret tt (W (held m []) co p' k') /\
    k_written k' = k_written k ++ ws /\
    homes (k_log k) (Z.of_nat (length (k_disk k))) (k_disk k') (fun n => Some (view n)) /\
    forall j m2 co2 p2 me2 pid2 k2 view2,
      running m2 p2 me2 pid2 -> blk k2 pid2 ∅ ∅ view2 -> same_area (k_log k) (k_log k2) ->
      k_disk k2 = apply_writes (take j ws) (k_disk k) ->
      exists p3 k3, recover_from_log (W (held m2 []) co2 p2 k2) = Ret tt (W (held m2 []) co2 p3 k3) /\
        repaired (k_log k) bs (k_disk k) view j (k_disk k3).
Proof.
  intros Hrun Hq Hne Hhd. pose proof Hq as (Hb & Hw & _). destruct (quiet_start _ _ _ _ _ Hq) as (Hr & _ & _).
  assert (Hwp : wp commit (fun _ w => exists p' k', w = W (held m []) co p' k' /\
    quiet pid k' ∅ (upd_view (commit_ws (k_log k) view bs) view) [] /\
    wrote (commit_ws (k_log k) view bs) (log_cleared (k_log k)) k k') (W (held m []) co p k)).
  { eapply wp_commit; eauto. }
  apply wp_elim in Hwp as ([] & w & Hrun' & p' & k' & -> & (Hb' & _) & Hwr).
  exists p', k', (commit_ws (k_log k) view bs). destruct (wrote_proj _ _ _ _ Hwr) as (_ & Hwn & _).
  split; [done|]. split; [done|]. split.
  - intros n Hn. rewrite <- (commit_view _ _ view _ _ Hw Hn). pose proof Hn as [Hn0 _].
    apply (blk_clean _ _ _ _ _ _ Hb'); [|set_solver|by intros ? ?].
    by rewrite (wrote_disk_length _ _ _ _ Hwr).
  - intros j m2 co2 p2 me2 pid2 k2 view2 Hrun2 Hb2 Ha2 Hd2.
    eapply repair; [exact Hrun2|exact Hb2|exact Ha2|exact Hw| | |exact Hhd|exact Hd2].
    + intros n Hn Hnb. apply (blk_clean _ _ _ _ _ _ Hb); [done|set_solver|by intros ? ?].
    + by apply (blk_size _ _ _ _ _ _ Hb).
Qed.

(** Room for one more operation. *)
Definition admits (l : log) : Prop :=
  l_committing l = 0 /\ lh_n (l_lh l) + (l_outstanding l + 1) * MAXOPBLOCKS <= LOGSIZE.
#[export] Instance admits_dec l : Decision (admits l).
Proof. unfold admits. apply _. Defined.

Lemma begin_op_turn_run m co p k :
  idle m -> has_lock m Llog ->
  (let l := k_log k in
   0 <= lh_n (l_lh l) <= LOGSIZE -> 0 <= l_outstanding l <= LOGSIZE ->
   begin_op_turn (W (held m [Llog]) co p k) =
    (if decide (admits l) then
       Ret (inr tt) (W (held m []) co p (k <| k_log := l <| l_outstanding := l_outstanding l + 1 |> |>))
     else bind (sleep Clog Llog) (fun _ => ret (inl tt)) (W (held m [Llog]) co p k))).
Proof.
  intros Hm Hlk l Hn Ho. unfold admits, LOGSIZE, MAXOPBLOCKS in *.
  assert (Hs32 : s32 (lh_n (l_lh l) + (l_outstanding l + 1) * 10) = lh_n (l_lh l) + (l_outstanding l + 1) * 10)
    by (apply s32_id; unfold is_s32; lia).
  unfold begin_op_turn, get_log. unfold bind at 1 2, get_s, ret at 1. cbn [bind_res w_s]. fold l.
  unfold LOGSIZE, MAXOPBLOCKS. rewrite Hs32.
  destruct (Z.eqb_spec (l_committing l) 0) as [Hz|Hz]; cbn [negb].
  2:{ case_decide; [tauto|done]. }
  destruct (Z.ltb_spec (10 * 3) (lh_n (l_lh l) + (l_outstanding l + 1) * 10)).
  { case_decide; [lia|done]. }
  case_decide; [|lia]. unfold upd_log, upd_s. erewrite bind_Ret by reflexivity. cbn [w_m w_c w_p w_s].
  erewrite bind_Ret by (apply (release_held m [Llog] []); [done|done|set_solver|set_solver|done|set_solver]).
  fold l. rewrite (s32_id (l_outstanding l + 1)) by (unfold is_s32; lia). done.
Qed.

(** [begin_op] counts the operation in when no commit runs and the log can hold its worst case;
    otherwise it sleeps on the log with the log's lock free, and tests again when it is woken. *)
Theorem begin_op_spec (n : nat) m co p me pid k :
  running m p me pid ->
  let l := k_log k in
  0 <= lh_n (l_lh l) <= LOGSIZE -> 0 <= l_outstanding l <= LOGSIZE ->
  if decide (admits l) then
    @begin_op n (W (held m []) co p k) =
      Ret tt (W (held m []) co p (k <| k_log := l <| l_outstanding := l_outstanding l + 1 |> |>))
  else
    exists kont, @begin_op n (W (held m []) co p k) =
        Swtch (W (held m [Lptable]) co (asleep me Clog p) k) kont /\
      forall m' co' p' k', idle m' -> has_lock m' Lptable -> has_lock m' Llog ->
        kont (W (held m' [Lptable]) co' p' k') =
        begin_op_loop n (W (held (m' <| fl_if := fl_if m |>) [Llog]) co' (awake me p') k').
Proof.
  intros Hrun l Hn Ho. pose proof Hrun as [Hm Hr Hc (pr & Hp & Hpid)].
  assert (Hlk : has_lock m Llog) by eauto with xv6.
  unfold begin_op, fuel. erewrite bind_Ret by (apply acquire_held; [done..|set_solver]).
  destruct (sleep_run m Llog Clog co p k me pr) as (k0 & Hs & Hk0); [done|eauto with xv6|done..|].
  pose proof (begin_op_turn_run m co p k Hm Hlk Hn Ho) as Hturn. fold l in Hturn.
  unfold begin_op_loop. cbn [loop]. case_decide.
  { by erewrite bind_Ret by exact Hturn. }
  rewrite (bind_Swtch _ _ _ _ _ Hs) in Hturn. rewrite (bind_Swtch _ _ _ _ _ Hturn).
  eexists. split; [reflexivity|].
  intros m' co' p' k' Hm' Hpt Hlk'. cbn beta. rewrite Hk0 by done. done.
Qed.

(** [log_write] of a held block outside the log, inside an operation: with room left, the block joins the
    transaction (once, however often it is written) and becomes dirty, and nothing else changes; with the log
    full it stops the kernel. *)
Theorem log_write_spec `{BlockCache} m co p me pid k hm dt view bs i n :
  running m p me pid -> blk k pid hm dt view -> hm !! i = Some n ->
  let l := k_log k in let nd := Z.of_nat (length (k_disk k)) in
  log_wf l nd bs -> home l nd n -> 1 <= l_outstanding l ->
  if decide (Z.of_nat (length bs) < l_size l - 1) then
    exists k', log_write i (W (held m []) co p k) = Ret tt (W (held m []) co p k') /\
      blk k' pid hm ({[n]} ∪ dt) view /\ log_wf (k_log k') nd (log_add bs n) /\
      wrote [] (log_added l bs n) k k'
  else log_write i (W (held m []) co p k) = Panic "too big a transaction" (W (held m []) co p k).
Proof.
  intros Hrun Hb Hi l nd Hw Hn Ho. pose proof (lw_n _ _ _ Hw) as Hln. fold l in Hln. case_decide as Hlt.
  - assert (Hwp : wp (log_write i) (fun _ w => exists k', w = W (held m []) co p k' /\
      blk k' pid hm ({[n]} ∪ dt) view /\ log_wf (k_log k') nd (log_add bs n) /\
      wrote [] (log_added l bs n) k k') (W (held m []) co p k)).
    { eapply wp_log_write; [exact Hrun|exact Hb|exact Hi|exact Hw|exact Hn|fold l; lia|exact Ho|].
      intros k' ? ? ?. by exists k'. }
    apply wp_elim in Hwp as ([] & w & Hr & k' & -> & ?). by exists k'.
  - unfold log_write, get_log. unfold bind at 1 2, get_s, ret at 1. cbn [bind_res w_s]. fold l.
    destruct (Z.leb_spec (l_size l - 1) (lh_n (l_lh l))); [|lia]. by rewrite orb_true_r.
Qed.

(** The log structure around a commit. *)
Definition committing (l : log) : log := l <| l_outstanding := 0 |> <| l_committing := 1 |>.
Definition committed (l : log) : log := log_cleared (l <| l_outstanding := 0 |> <| l_committing := 0 |>).

Section end_op_rule.
Context `{BC : BlockCache} (m : machine) (co : console) (me : nat) (pid : Z).

Lemma quiet_relog k dt view bs l' :
  quiet pid k dt view bs -> l_dev l' = l_dev (k_log k) -> l_start l' = l_start (k_log k) ->
  l_size l' = l_size (k_log k) -> l_lh l' = l_lh (k_log k) -> quiet pid (k <| k_log := l' |>) dt view bs.
Proof.
  intros (Hb & Hw & Hs) H1 H2 H3 H4. split; [by apply (blk_frame k)|]. split; [|done].
  destruct Hw. split; cbn; rewrite ?H1, ?H2, ?H3, ?H4; try done.
  eapply list.Forall_impl; [exact lw_home0|]. intros n. unfold home. by rewrite H2, H3.
Qed.

(** [commit] also when the transaction is empty. *)
Lemma wp_commit_any p k view bs (Q : unit -> world kst -> Prop) :
  running m p me pid -> quiet pid k (list_to_set bs) view bs ->
  (let ws := match bs with [] => [] | _ => commit_ws (k_log k) view bs end in
   forall p' k', running m p' me pid -> quiet pid k' ∅ (upd_view ws view) [] ->
     wrote ws (log_cleared (k_log k)) k k' -> Q tt (W (held m []) co p' k')) ->
  wp commit Q (W (held m []) co p k).
Proof.
  intros Hrun Hq HQ. destruct bs as [|b bs]; [|by eapply wp_commit].
  pose proof (lw_n _ _ _ (proj1 (proj2 Hq))) as Hn. unfold commit, get_log. ksteps.
  rewrite Hn. change (0 <? Z.of_nat (length [])) with false. kstep. apply HQ; [done|done|]. cbn in Hn.
  assert (Hc : log_cleared (k_log k) = k_log k).
  { unfold log_cleared. destruct (k_log k) as [?????[]]. cbn in Hn. by rewrite Hn. }
  rewrite Hc. by apply wrote_same.
Qed.

Lemma wp_end_op p k view bs (Q : unit -> world kst -> Prop) :
  running m p me pid -> quiet pid k (list_to_set bs) view bs ->
  (let l := k_log k in let ws := match bs with [] => [] | _ => commit_ws l view bs end in
   l_committing l = 0 -> l_outstanding l = 1 ->
   (forall p' k', running m p' me pid -> quiet pid k' ∅ (upd_view ws view) [] ->
      wrote ws (committed l) k k' -> Q tt (W (held m []) co p' k')) ->
   wp end_op Q (W (held m []) co p k)).
Proof.
  intros Hrun Hq l ws Hc Ho HQ. pose proof (run_idle _ _ _ _ Hrun). assert (Hlk : has_lock m Llog) by eauto with xv6.
  unfold end_op. kstep. apply wp_acquire; [done|done|set_solver|]. unfold upd_log, get_log. ksteps.
  cbn [k_log l_committing l_outstanding set_field]. fold l. rewrite Hc, Ho. cbn [Z.eqb negb].
  change (s32 (1 - 1) =? 0) with true. cbn iota. kstep. unfold upd_log. ksteps.
  match goal with |- wp commit _ (W _ _ _ ?k0) => change k0 with (k <| k_log := committing l |>) end.
  set (k1 := k <| k_log := committing l |>).
  eapply (wp_commit_any p k1 view bs); [done|by apply quiet_relog|].
  intros ws1 p2 k2 Hrun2 Hq2 Hw2. pose proof (run_idle _ _ _ _ Hrun2).
  assert (Hws : ws1 = ws) by (unfold ws1, ws, commit_ws; rewrite (write_ws_start (k_log k1) l) by done; by destruct bs).
  rewrite Hws in *. clear ws1 Hws.
  destruct (wrote_proj _ _ _ _ Hw2) as (_ & _ & Hl2).
  kstep. apply wp_acquire; [done|done|set_solver|]. unfold upd_log. kstep. kstep. kstep.
  apply wp_wakeup; [done|eauto with xv6|set_solver|]. apply wp_release; [done|done|set_solver|].
  rewrite Hl2. apply HQ; [by apply running_wake| |].
  - apply quiet_relog; rewrite ?Hl2; done.
  - unfold wrote in *. change (uncached (k2 <| k_log := log_cleared (k_log k1) <| l_committing := 0 |> |>))
      with (uncached k2 <| k_log := committed l |>). rewrite Hw2.
    change (uncached k1) with (uncached k <| k_log := committing l |>). by rewrite do_writes_log.
Qed.

End end_op_rule.

(** The last [end_op] of a transaction commits: it returns with every home block on the disk as the
    operations left it, the log empty and open for new operations. *)
Theorem end_op_commits `{BlockCache} m co p me pid k view bs :
  running m p me pid -> quiet pid k (list_to_set bs) view bs ->
  l_committing (k_log k) = 0 -> l_outstanding (k_log k) = 1 ->
  exists p' k' view', end_op (W (held m []) co p k) = Ret tt (W (held m []) co p' k') /\
    running m p' me pid /\ quiet pid k' ∅ view' [] /\ k_log k' = committed (k_log k) /\
    homes (k_log k) (Z.of_nat (length (k_disk k))) (k_disk k') (fun n => Some (view n)) /\
    (forall n, home (k_log k) (Z.of_nat (length (k_disk k))) n -> view' n = view n).
Proof.
  intros Hrun Hq Hc Ho. pose proof Hq as (Hb & Hw & _).
  set (ws := match bs with [] => [] | _ => commit_ws (k_log k) view bs end).
  assert (Hwp : wp end_op (fun _ w => exists p' k', w = W (held m []) co p' k' /\ running m p' me pid /\
    quiet pid k' ∅ (upd_view ws view) [] /\ wrote ws (committed (k_log k)) k k') (W (held m []) co p k)).
  { eapply wp_end_op; [exact Hrun|exact Hq|exact Hc|exact Ho|]. intros p' k' ? ? ?. by exists p', k'. }
  apply wp_elim in Hwp as ([] & w & Hr & p' & k' & -> & Hrun' & Hq' & Hwr).
  assert (Hv : forall n, home (k_log k) (Z.of_nat (length (k_disk k))) n -> upd_view ws view n = view n).
  { intros n Hn. unfold ws. destruct bs; [done|]. by eapply commit_view. }
  exists p', k', (upd_view ws view). destruct (wrote_proj _ _ _ _ Hwr) as (_ & _ & Hl).
  do 4 (split; [done|]). split; [|done]. intros n Hn. rewrite <- Hv by done. pose proof Hn as [Hn0 _].
  apply (blk_clean _ _ _ _ _ _ (proj1 Hq')); [|set_solver|by intros ? ?]. by rewrite (wrote_disk_length _ _ _ _ Hwr).
Qed.

(** ** Examples *)

(** A disk of 8 blocks with the log in 2 to 4; block 6 has been changed by the one operation in progress. *)
Definition ex_log (n : Z) (bs : list Z) : log :=
  mkLog 2 3 n 0 1 (mkLh (Z.of_nat (length bs)) (bs ++ replicate (30 - length bs) 0)).
Definition ex_trans : kst := ex_dirty ex_disk 6 (replicate BSIZE 9) <| k_log := ex_log 1 [6] |>.
Definition ex_trans_view : Z -> list Z := <[6 := replicate BSIZE 9]> (ex_view ex_disk).

Lemma ex_log_wf n bs :
  bs = [] \/ bs = [6] -> log_wf (ex_log n bs) 8 bs.
Proof.
  intros [->| ->]; (split; cbn; [reflexivity|lia|reflexivity|reflexivity|reflexivity| | |lia|vm_compute; discriminate]).
  - constructor.
  - constructor.
  - repeat constructor; cbn; lia.
  - apply NoDup_singleton.
Qed.

Lemma ex_trans_quiet : @quiet _ _ (@bio_block_cache 0%nat) 4 ex_trans (list_to_set [6]) ex_trans_view [6].
Proof.
  split; [|split; [exact (ex_log_wf 1 [6] (or_intror eq_refl))|done]].
  apply (@blk_frame _ _ (@bio_block_cache 0%nat) (ex_dirty ex_disk 6 (replicate BSIZE 9))); [done..|]. split.
  - rewrite dom_empty_L. replace (list_to_set [6] : gset Z) with ({[6]} : gset Z) by set_solver.
    apply ex_dirty_cache; [apply ex_disk_size|vm_compute; split; [discriminate|reflexivity]|reflexivity].
  - intros i n Hi. by rewrite lookup_empty in Hi.
Qed.

Lemma commit_crash_safe_witness :
  exists p' k' ws, @commit 0%nat (@memide 0%nat) (W (held ex_machine []) ex_console (ex_procs 0) ex_trans) =
      Ret tt (W (held ex_machine []) ex_console p' k') /\
    k_written k' = ws /\ homes (k_log ex_trans) 8 (k_disk k') (fun n => Some (ex_trans_view n)).
Proof.
  destruct (@commit_crash_safe 0%nat (@memide 0%nat) (@bio_block_cache 0%nat) ex_machine ex_console (ex_procs 0) 1 4 ex_trans
    ex_trans_view [6]) as (p' & k' & ws & Hrun & Hws & Hh & _).
  - apply ex_running.
  - apply ex_trans_quiet.
  - discriminate.
  - reflexivity.
  - exists p', k', ws. split; [exact Hrun|]. split; [exact Hws|exact Hh].
Defined.

Lemma begin_op_spec_witness :
  @begin_op 0%nat (W (held ex_machine []) ex_console (ex_procs 0) ex_trans) =
    Ret tt (W (held ex_machine []) ex_console (ex_procs 0)
      (ex_trans <| k_log := ex_log 2 [6] |>)).
Proof.
  pose proof (begin_op_spec 0 ex_machine ex_console (ex_procs 0) 1 4 ex_trans (ex_running 0)) as Hb.
  cbn zeta in Hb. rewrite decide_True in Hb by (vm_compute; split; [reflexivity|discriminate]).
  apply Hb; vm_compute; split; discriminate.
Defined.

Lemma end_op_commits_witness :
  exists p' k', @end_op 0%nat (@memide 0%nat) (W (held ex_machine []) ex_console (ex_procs 0) ex_trans) =
      Ret tt (W (held ex_machine []) ex_console p' k') /\
    homes (k_log ex_trans) 8 (k_disk k') (fun n => Some (ex_trans_view n)).
Proof.
  destruct (@end_op_commits 0%nat (@memide 0%nat) (@bio_block_cache 0%nat) ex_machine ex_console (ex_procs 0) 1 4 ex_trans
    ex_trans_view [6]) as (p' & k' & view' & Hrun & _ & _ & _ & Hh & _).
  - apply ex_running.
  - apply ex_trans_quiet.
  - reflexivity.
  - reflexivity.
  - exists p', k'. split; [exact Hrun|exact Hh].
Defined.

Lemma log_write_spec_witness :
  let k := ex_held ex_disk 4 6 <| k_log := ex_log 1 [] |> in
  exists k', log_write 0 (W (held ex_machine []) ex_console (ex_procs 0) k) =
      Ret tt (W (held ex_machine []) ex_console (ex_procs 0) k') /\
    @blk _ _ (@bio_block_cache 0%nat) k' 4 {[0%nat := 6]} ({[6]} ∪ ∅) (ex_view ex_disk) /\
    lh_n (l_lh (k_log k')) = 1.
Proof.
  intros k. destruct (@log_write_spec 0%nat (@memide 0%nat) (@bio_block_cache 0%nat) ex_machine ex_console (ex_procs 0)
    1 4 k {[0%nat := 6]} ∅ (ex_view ex_disk) [] 0%nat 6) as (k' & Hrun & Hb & Hw & _).
  - apply ex_running.
  - apply (@blk_frame _ _ (@bio_block_cache 0%nat) (ex_held ex_disk 4 6)); [done..|]. split.
    + rewrite dom_singleton_L. apply ex_held_cache; [apply ex_disk_size|vm_compute; split; [discriminate|reflexivity]].
    + intros i n [<- <-]%lookup_singleton_Some. eexists. split; reflexivity.
  - apply lookup_singleton_eq.
  - apply (ex_log_wf 1 []). by left.
  - split; [vm_compute; split; [discriminate|reflexivity]|]. cbn. lia.
  - cbn. lia.
  - exists k'. split; [exact Hrun|]. split; [exact Hb|]. rewrite (lw_n _ _ _ Hw). reflexivity.
Defined.
