(* ===== verification/Vm.v ===== *)
(** * Page tables (vm.c)

    A page directory and its page tables are pages of kernel memory ([k_mem]), read and
    written one 32-bit entry at a time as the code does.  [mapping] reads a page
    table as a partial map from user addresses to entries; the theorems show that
    [walkpgdir] and [mappages] change that map at the mapped pages and nowhere else.  [copyout] is
    defined here and treated in [Umem]. *)

From S2P Require Import Prelude Kstate Spinlock Cprintf Proc Admission Kdata Sleeplock Kalloc Bio.
From stdpp Require Import gmap strings list fin_maps.
Open Scope Z_scope.

(** ** mmu.h *)

Definition PDX (va : Z) : Z := Z.land (Z.shiftr va 22) 0x3FF.
Definition PTX (va : Z) : Z := Z.land (Z.shiftr va 12) 0x3FF.
Definition PGADDR (d t o : Z) : Z := u32 (Z.lor (Z.lor (Z.shiftl d 22) (Z.shiftl t 12)) o).
Definition NPDENTRIES : nat := 1024.
Definition PTE_P : Z := 1.
Definition PTE_W : Z := 2.
Definition PTE_U : Z := 4.
Definition PTE_ADDR (pte : Z) : Z := Z.land pte 0xFFFFF000.
Definition PTE_FLAGS (pte : Z) : Z := Z.land pte 0xFFF.

(** The linker symbol [data], the first address of the kernel's writable data. *)
Class LinkerData := kdata : Z.

Record kmap := mkKmap { km_virt : Z; km_start : Z; km_end : Z; km_perm : Z }.

Section vm_c.
Context `{Lk : Linker} `{Ld : LinkerData}.

(** The 32-bit word at address [a], which is word aligned. *)
Definition word_at (a : Z) : MK Z :=
  let! pg := page_at (PGROUNDDOWN a) in ret (get32 (Z.to_nat (a mod PGSIZE)) pg).
Definition set_word (a v : Z) : MK unit :=
  let! pg := page_at (PGROUNDDOWN a) in
  set_page (PGROUNDDOWN a) (put32 (Z.to_nat (a mod PGSIZE)) v pg).

Definition zero_page : list Z := replicate (Z.to_nat PGSIZE) 0.

Definition walkpgdir (pgdir va : Z) (alloc : bool) : MK Z :=
  let pde := u32 (pgdir + 4 * PDX va) in
  let! e := word_at pde in
  if has_flag e PTE_P then ret (u32 (P2V (PTE_ADDR e) + 4 * PTX va))
  else if negb alloc then ret 0
  else
    let! pgtab := kalloc in
    if pgtab =? 0 then ret 0
    else
      set_page pgtab zero_page ;;;
      set_word pde (Z.lor (Z.lor (Z.lor (V2P pgtab) PTE_P) PTE_W) PTE_U) ;;;
      ret (u32 (pgtab + 4 * PTX va)).

(** The [for(;;)] of [mappages], at most [n] turns. *)
Definition mappages_loop (n : nat) (pgdir last perm a pa : Z) : MK Z :=
  loop n (fun st => let '(a, pa) := st in
    let! pte := walkpgdir pgdir a true in
    if pte =? 0 then ret (inr (-1))
    else
      let! v := word_at pte in
      if has_flag v PTE_P then panic "remap"
      else
        set_word pte (Z.lor (Z.lor pa perm) PTE_P) ;;;
        if a =? last then ret (inr 0)
        else ret (inl (u32 (a + PGSIZE), u32 (pa + PGSIZE)))) (a, pa).

Definition mappages (pgdir va size pa perm : Z) : MK Z :=
  let a := PGROUNDDOWN va in
  let last := PGROUNDDOWN (u32 (va + size - 1)) in
  mappages_loop (Z.to_nat (u32 (last - a) / PGSIZE) + 1) pgdir last perm a pa.

Definition kmaps : list kmap :=
  [ mkKmap KERNBASE 0 EXTMEM PTE_W;
    mkKmap KERNLINK (V2P KERNLINK) (V2P kdata) 0;
    mkKmap kdata (V2P kdata) PHYSTOP PTE_W;
    mkKmap DEVSPACE DEVSPACE 0 PTE_W ].

(** The loop of [deallocuvm] over [a]; it passes an address space of [oldsz] bytes. *)
Definition deallocuvm_loop (n : nat) (pgdir oldsz a : Z) : MK unit :=
  loop n (fun a =>
    if negb (a <? oldsz) then ret (inr tt)
    else
      let! pte := walkpgdir pgdir a false in
      if pte =? 0 then ret (inl (u32 (u32 (PGADDR (PDX a + 1) 0 0 - PGSIZE) + PGSIZE)))
      else
        let! v := word_at pte in
        (if has_flag v PTE_P then
           let pa := PTE_ADDR v in
           if pa =? 0 then panic "kfree"
           else kfree (P2V pa) ;;; set_word pte 0
         else ret tt) ;;;
        ret (inl (u32 (a + PGSIZE)))) a.

Definition deallocuvm (pgdir oldsz newsz : Z) : MK Z :=
  if oldsz <=? newsz then ret oldsz
  else
    deallocuvm_loop (Z.to_nat (oldsz / PGSIZE) + 2) pgdir oldsz (PGROUNDUP newsz) ;;;
    ret newsz.

Definition freevm (pgdir : Z) : MK unit :=
  if pgdir =? 0 then panic "freevm: no pgdir"
  else
    deallocuvm pgdir KERNBASE 0 ;;;
    for_list (seq 0 NPDENTRIES) (fun i =>
      let! e := word_at (u32 (pgdir + 4 * Z.of_nat i)) in
      when (has_flag e PTE_P) (kfree (P2V (PTE_ADDR e)))) ;;;
    kfree pgdir.

(** The loop of [setupkvm] over the remaining entries of [kmap]. *)
Fixpoint setup_maps (l : list kmap) (pgdir : Z) : MK Z :=
  match l with
  | [] => ret pgdir
  | k :: l =>
      let! r := mappages pgdir (km_virt k) (u32 (km_end k - km_start k)) (km_start k) (km_perm k) in
      if r <? 0 then freevm pgdir ;;; ret 0 else setup_maps l pgdir
  end.

Definition setupkvm : MK Z :=
  let! pgdir := kalloc in
  if pgdir =? 0 then ret 0
  else
    set_page pgdir zero_page ;;;
    if DEVSPACE <? P2V PHYSTOP then panic "PHYSTOP too high"
    else setup_maps kmaps pgdir.

Definition kvmalloc : MK unit :=
  let! pgdir := setupkvm in
  upd_p (fun p => p <| kpgdir := pgdir |>) ;;;
  switchkvm.

Definition inituvm (pgdir : Z) (init : list Z) : MK unit :=
  if PGSIZE <=? Z.of_nat (length init) then panic "inituvm: more than a page"
  else
    let! mem := kalloc in
    set_page mem zero_page ;;;
    mappages pgdir 0 PGSIZE (V2P mem) (Z.lor PTE_W PTE_U) ;;;
    let! pg := page_at mem in
    set_page mem (wr 0 init pg).

Definition allocuvm_loop (n : nat) (pgdir oldsz newsz a : Z) : MK Z :=
  loop n (fun a =>
    if negb (a <? newsz) then ret (inr newsz)
    else
      let! mem := kalloc in
      if mem =? 0 then
        cprintf ("allocuvm out of memory" ++ nl)%string [] ;;;
        deallocuvm pgdir newsz oldsz ;;;
        ret (inr 0)
      else
        set_page mem zero_page ;;;
        let! r := mappages pgdir a PGSIZE (V2P mem) (Z.lor PTE_W PTE_U) in
        if r <? 0 then
          cprintf ("allocuvm out of memory (2)" ++ nl)%string [] ;;;
          deallocuvm pgdir newsz oldsz ;;;
          kfree mem ;;;
          ret (inr 0)
        else ret (inl (u32 (a + PGSIZE)))) a.

Definition allocuvm (pgdir oldsz newsz : Z) : MK Z :=
  if KERNBASE <=? newsz then ret 0
  else if newsz <? oldsz then ret oldsz
  else allocuvm_loop (Z.to_nat (newsz / PGSIZE) + 2) pgdir oldsz newsz (PGROUNDUP oldsz).

Definition clearpteu (pgdir uva : Z) : MK unit :=
  let! pte := walkpgdir pgdir uva false in
  if pte =? 0 then panic "clearpteu"
  else
    let! v := word_at pte in
    set_word pte (Z.land v (Z.lnot PTE_U)).

Definition copyuvm_loop (n : nat) (pgdir d sz i : Z) : MK Z :=
  loop n (fun i =>
    if negb (i <? sz) then ret (inr d)
    else
      let! pte := walkpgdir pgdir i false in
      if pte =? 0 then panic "copyuvm: pte should exist"
      else
        let! v := word_at pte in
        if negb (has_flag v PTE_P) then panic "copyuvm: page not present"
        else
          let pa := PTE_ADDR v in
          let flags := PTE_FLAGS v in
          let! mem := kalloc in
          if mem =? 0 then freevm d ;;; ret (inr 0)
          else
            let! src := page_at (P2V pa) in
            set_page mem src ;;;
            let! r := mappages d i PGSIZE (V2P mem) flags in
            if r <? 0 then kfree mem ;;; freevm d ;;; ret (inr 0)
            else ret (inl (u32 (i + PGSIZE)))) i.

Definition copyuvm (pgdir sz : Z) : MK Z :=
  let! d := setupkvm in
  if d =? 0 then ret 0
  else copyuvm_loop (Z.to_nat (sz / PGSIZE) + 2) pgdir d sz 0.

Definition uva2ka (pgdir uva : Z) : MK Z :=
  let! pte := walkpgdir pgdir uva false in
  let! v := word_at pte in
  if negb (has_flag v PTE_P) then ret 0
  else if negb (has_flag v PTE_U) then ret 0
  else ret (P2V (PTE_ADDR v)).

(** One turn of the loop of [copyout], with the bytes [buf] left. *)
Definition copyout_turn (pgdir : Z) (st : Z * list Z) : MK ((Z * list Z) + Z) :=
  let '(va, buf) := st in
  match buf with
  | [] => ret (inr 0)
  | _ =>
      let va0 := PGROUNDDOWN va in
      let! pa0 := uva2ka pgdir va0 in
      if pa0 =? 0 then ret (inr (-1))
      else
        let n := Z.to_nat (Z.min (PGSIZE - (va - va0)) (Z.of_nat (length buf))) in
        let! pg := page_at pa0 in
        set_page pa0 (wr (Z.to_nat (va - va0)) (take n buf) pg) ;;;
        ret (inl (u32 (va0 + PGSIZE), drop n buf))
  end.

Definition copyout (pgdir va : Z) (buf : list Z) : MK Z :=
  loop (length buf / Z.to_nat PGSIZE + 3) (copyout_turn pgdir) (va, buf).

End vm_c.

(** ** Address arithmetic *)

Lemma PDX_spec va : PDX va = (va / 4194304) mod 1024.
Proof. unfold PDX. change 0x3FF with (Z.ones 10). by rewrite Z.land_ones, Z.shiftr_div_pow2 by lia. Qed.
Lemma PTX_spec va : PTX va = (va / 4096) mod 1024.
Proof. unfold PTX. change 0x3FF with (Z.ones 10). by rewrite Z.land_ones, Z.shiftr_div_pow2 by lia. Qed.
Lemma PDX_range va : 0 <= PDX va < 1024.
Proof. rewrite PDX_spec. apply Z.mod_pos_bound. lia. Qed.
Lemma PTX_range va : 0 <= PTX va < 1024.
Proof. rewrite PTX_spec. apply Z.mod_pos_bound. lia. Qed.

Lemma PTE_ADDR_spec e : is_u32 e -> PTE_ADDR e = e - e mod 4096.
Proof.
  unfold is_u32, PTE_ADDR. intros He.
  change 0xFFFFF000 with (Z.ldiff (Z.ones 32) (Z.ones 12)).
  assert (Hl : Z.land e (Z.ldiff (Z.ones 32) (Z.ones 12)) = Z.ldiff (Z.land e (Z.ones 32)) (Z.ones 12)).
  { apply Z.bits_inj'. intros n _. rewrite !Z.ldiff_spec, !Z.land_spec, Z.ldiff_spec. by rewrite andb_assoc. }
  rewrite Hl, Z.land_ones, Z.mod_small, Z.ldiff_ones_r, Z.shiftl_mul_pow2, Z.shiftr_div_pow2 by lia.
  change (2 ^ 12) with 4096. pose proof (Z.div_mod e 4096). lia.
Qed.

Lemma lor_aligned a f : 0 <= a -> a mod 4096 = 0 -> 0 <= f < 4096 -> Z.lor a f = a + f.
Proof.
  intros Ha Hm Hf. symmetry. apply Z.add_nocarry_lor.
  rewrite (Z.div_mod a 4096), Hm, Z.add_0_r, Z.mul_comm by lia. change 4096 with (2 ^ 12).
  rewrite <- Z.shiftl_mul_pow2 by lia. apply Z.bits_inj'. intros n Hn. rewrite Z.land_spec, Z.bits_0.
  destruct (decide (n < 12)); [by rewrite Z.shiftl_spec_low|].
  assert (Hb : Z.testbit f n = false); [|by rewrite Hb, andb_false_r].
  rewrite <- (Z.mod_small f (2 ^ 12)) by (change (2 ^ 12) with 4096; lia). apply Z.mod_pow2_bits_high. lia.
Qed.

Section spec.
Context `{Lk : Linker}.
Hypothesis kend_pos : 0 < kend.

(** A word inside a page. *)
Lemma word_in_page t i :
  valid_page t -> 0 <= i < 1024 ->
  u32 (t + 4 * i) = t + 4 * i /\ PGROUNDDOWN (t + 4 * i) = t /\ (t + 4 * i) mod PGSIZE = 4 * i.
Proof.
  intros (Hm & Hr & Hk) Hi. unfold KERNBASE, PHYSTOP, PGSIZE in *.
  assert (Hmod : (t + 4 * i) mod 4096 = 4 * i).
  { rewrite Z.add_mod, Hm, Z.add_0_l, Z.mod_mod by lia. apply Z.mod_small. lia. }
  split; [apply u32_id; unfold is_u32; lia|]. rewrite PGROUNDDOWN_spec. unfold PGSIZE. rewrite Hmod. lia.
Qed.

(** The entry [walkpgdir] makes for a new table. *)
Definition pde_new (t : Z) : Z := Z.lor (Z.lor (Z.lor (V2P t) PTE_P) PTE_W) PTE_U.

Lemma V2P_page t : valid_page t -> V2P t = t - KERNBASE /\ V2P t mod 4096 = 0 /\ 0 <= V2P t < PHYSTOP.
Proof.
  intros (Hm & Hr & Hk). unfold V2P, KERNBASE, PHYSTOP, PGSIZE in *.
  rewrite u32_id by (unfold is_u32; lia). split; [done|]. split; [|lia].
  rewrite Zminus_mod, Hm. reflexivity.
Qed.

Lemma pde_new_spec t :
  valid_page t -> is_u32 (pde_new t) /\ has_flag (pde_new t) PTE_P = true /\ P2V (PTE_ADDR (pde_new t)) = t.
Proof.
  intros Ht. destruct (V2P_page t Ht) as (Hv & Hm & Hr). unfold PHYSTOP in Hr.
  assert (He : pde_new t = V2P t + 7).
  { unfold pde_new. rewrite <- !Z.lor_assoc. change (Z.lor PTE_P (Z.lor PTE_W PTE_U)) with 7.
    apply lor_aligned; [lia|done|lia]. }
  assert (Hu : is_u32 (pde_new t)) by (rewrite He; unfold is_u32; lia). split; [done|].
  assert (Hmod : pde_new t mod 4096 = 7).
  { rewrite He, Z.add_mod, Hm by lia. reflexivity. }
  split.
  - unfold has_flag. apply negb_true_iff, Z.eqb_neq. unfold PTE_P. change 1 with (Z.ones 1).
    rewrite Z.land_ones by lia. rewrite He, (Z.div_mod (V2P t) 4096), Hm by lia.
    replace (4096 * (V2P t / 4096) + 0 + 7) with (1 + (2048 * (V2P t / 4096) + 3) * 2 ^ 1) by (change (2 ^ 1) with 2; lia).
    rewrite Z.mod_add by lia. discriminate.
  - rewrite PTE_ADDR_spec, Hmod, He by done. replace (V2P t + 7 - 7) with (V2P t) by lia. rewrite Hv.
    unfold P2V. rewrite Z.sub_add. apply u32_id. by apply valid_page_u32.
Qed.

(** ** Page tables as maps *)

(** The page table that directory entry [d] points to. *)
Definition ptab (k : kst) (pgdir d : Z) : option Z :=
  pd ← k_mem k !! pgdir;
  let e := get32 (Z.to_nat (4 * d)) pd in
  if has_flag e PTE_P then Some (P2V (PTE_ADDR e)) else None.

Definition pte_of (k : kst) (pgdir va : Z) : option Z :=
  t ← ptab k pgdir (PDX va);
  pt ← k_mem k !! t;
  Some (get32 (Z.to_nat (4 * PTX va)) pt).

(** The entry that maps [va], if one does. *)
Definition mapping (k : kst) (pgdir va : Z) : option Z :=
  v ← pte_of k pgdir va; if has_flag v PTE_P then Some v else None.

Definition is_table (k : kst) (l : list Z) (t : Z) : Prop :=
  valid_page t /\ t ∉ l /\ exists pt, k_mem k !! t = Some pt /\ length pt = Z.to_nat PGSIZE.

(** The directory and its tables are distinct pages in use ([l] are the free ones). *)
Record pt_wf (k : kst) (pgdir : Z) (l : list Z) : Prop := {
  pw_dir : is_table k l pgdir;
  pw_tab : forall d t, 0 <= d < 1024 -> ptab k pgdir d = Some t -> is_table k l t /\ t ≠ pgdir;
  pw_inj : forall d d' t, 0 <= d < 1024 -> 0 <= d' < 1024 ->
    ptab k pgdir d = Some t -> ptab k pgdir d' = Some t -> d = d';
}.

Lemma wp_word_at w m co p k t pt i (Q : Z -> world kst -> Prop) :
  w = W m co p k -> valid_page t -> k_mem k !! t = Some pt -> 0 <= i < 1024 ->
  Q (get32 (Z.to_nat (4 * i)) pt) w -> wp (word_at (u32 (t + 4 * i))) Q w.
Proof.
  intros -> Ht Hpt Hi HQ. destruct (word_in_page t i Ht Hi) as (-> & Hd & Hm).
  unfold word_at, page_at. ksteps. rewrite Hd, Hm. by ksteps.
Qed.

Definition put_entry (t : Z) (pt : list Z) (i v : Z) (k : kst) : kst :=
  k <| k_mem := <[t := put32 (Z.to_nat (4 * i)) v pt]> (k_mem k) |>.

Lemma wp_set_word m co p k t pt i v (Q : unit -> world kst -> Prop) :
  valid_page t -> k_mem k !! t = Some pt -> 0 <= i < 1024 ->
  Q tt (W m co p (put_entry t pt i v k)) -> wp (set_word (u32 (t + 4 * i)) v) Q (W m co p k).
Proof.
  intros Ht Hpt Hi HQ. destruct (word_in_page t i Ht Hi) as (-> & Hd & Hm).
  unfold set_word, page_at, set_page. ksteps. rewrite Hd, Hm. by ksteps.
Qed.

(** Writing entry [i] of table [t]. *)
Lemma get_put_entry pt i j v :
  length pt = Z.to_nat PGSIZE -> 0 <= i < 1024 -> 0 <= j < 1024 ->
  get32 (Z.to_nat (4 * j)) (put32 (Z.to_nat (4 * i)) v pt) =
    if decide (i = j) then u32 v else get32 (Z.to_nat (4 * j)) pt.
Proof.
  intros Hl Hi Hj. unfold PGSIZE in Hl. case_decide as Hij.
  - subst j. apply get_put32. lia.
  - apply get_put32_ne; lia.
Qed.

(** Two addresses of the same page have the same indices. *)
Definition same_page (va va' : Z) : Prop := PDX va = PDX va' /\ PTX va = PTX va'.

Section table.
Context (k : kst) (pgdir : Z) (l : list Z) (Hwf : pt_wf k pgdir l).

Lemma is_table_insert t t' pt :
  length pt = Z.to_nat PGSIZE -> is_table k l t -> is_table (k <| k_mem := <[t' := pt]> (k_mem k) |>) l t.
Proof.
  intros Hl (Hv & Hn & pt' & Hpt & Hl'). split; [done|]. split; [done|]. cbn.
  destruct (decide (t' = t)) as [->|]; [exists pt; by rewrite lookup_insert_eq|].
  exists pt'. by rewrite lookup_insert_ne.
Qed.

(** Setting the entry of [va] in its table changes the mapping of its page only. *)
Lemma put_entry_spec va t pt v :
  ptab k pgdir (PDX va) = Some t -> k_mem k !! t = Some pt -> is_u32 v ->
  let k' := put_entry t pt (PTX va) v k in
  pt_wf k' pgdir l /\ pte_of k' pgdir va = Some v /\
  forall va', ~ same_page va va' -> pte_of k' pgdir va' = pte_of k pgdir va'.
Proof.
  intros Ht Hpt Hv k'. pose proof (PDX_range va) as Hd. pose proof (PTX_range va) as Hx.
  destruct (pw_tab _ _ _ Hwf _ _ Hd Ht) as [(Htv & Htl & pt' & Hpt' & Hlen) Hne].
  rewrite Hpt in Hpt'. injection Hpt' as <-.
  assert (Hptab : forall d, ptab k' pgdir d = ptab k pgdir d).
  { intros d. unfold ptab, k', put_entry. cbn. by rewrite lookup_insert_ne. }
  split; [|split].
  - split.
    + apply is_table_insert; [by rewrite length_put32|apply Hwf].
    + intros d t' Hd' Ht'. rewrite Hptab in Ht'. destruct (pw_tab _ _ _ Hwf _ _ Hd' Ht') as [Hit Hne'].
      split; [|done]. apply is_table_insert; [by rewrite length_put32|done].
    + intros d d' t' Hd1 Hd2. rewrite !Hptab. by apply (pw_inj _ _ _ Hwf).
  - unfold pte_of. rewrite Hptab, Ht. cbn. rewrite lookup_insert_eq. cbn.
    rewrite get_put_entry, decide_True, u32_id by done. done.
  - intros va' Hdiff. unfold pte_of. rewrite Hptab.
    destruct (ptab k pgdir (PDX va')) as [t'|] eqn:Ht'; [|done]. cbn.
    destruct (decide (t' = t)) as [->|].
    + rewrite lookup_insert_eq, Hpt. cbn. rewrite get_put_entry by (done || apply PTX_range).
      rewrite decide_False; [done|]. intros Heq. apply Hdiff. split; [|done].
      apply (pw_inj _ _ _ Hwf _ _ t); [apply PDX_range..|done|done].
    + by rewrite lookup_insert_ne.
Qed.

End table.

Lemma get32_zero off n : get32 off (replicate n 0) = 0.
Proof.
  unfold get32, rd. rewrite drop_replicate, take_replicate.
  induction (Nat.min _ _) as [|j IH]; [done|]. cbn [replicate le_Z]. by rewrite IH.
Qed.

Lemma length_zero_page : length zero_page = Z.to_nat PGSIZE.
Proof. apply length_replicate. Qed.

(** A new table for directory entry [d]: page [t] zeroed and entered in the directory. *)
Definition new_table (pgdir : Z) (pd : list Z) (d t : Z) (k : kst) : kst :=
  put_entry pgdir pd d (pde_new t) (k <| k_mem := <[t := zero_page]> (k_mem k) |>).

Lemma free_pages_frame k k' l :
  k_freelist k' = k_freelist k -> (forall a, a ∈ l -> k_mem k' !! a = k_mem k !! a) ->
  free_pages k l -> free_pages k' l.
Proof.
  intros Hf Hm (Hch & Hnd & Hv). split; [|done]. rewrite Hf. clear Hnd Hv Hf. revert Hch.
  generalize (k_freelist k). induction l as [|b l IH]; intros a; cbn; [done|].
  intros (-> & pg & Hpg & Hl & Hch). split; [done|]. exists pg. rewrite Hm by set_solver.
  split; [done|]. split; [done|]. apply IH; [set_solver|done].
Qed.

Section new_table.
Context (k : kst) (pgdir t : Z) (l : list Z) (pd : list Z) (d : Z).
Context (Hwf : pt_wf k pgdir (t :: l)) (Hpd : k_mem k !! pgdir = Some pd) (Hd : 0 <= d < 1024).
Context (Hnone : ptab k pgdir d = None) (Ht : valid_page t) (Hnt : t ∉ l).

Lemma dir_len : length pd = Z.to_nat PGSIZE /\ pgdir ≠ t /\ valid_page pgdir /\ pgdir ∉ l.
Proof using Hwf Hpd.
  destruct (pw_dir _ _ _ Hwf) as (Hv & Hn & pd' & Hpd' & Hl). rewrite Hpd in Hpd'. injection Hpd' as <-.
  split; [exact Hl|]. split; [intros Heq; apply Hn; rewrite Heq; by left|]. split; [exact Hv|]. intros Hin. apply Hn. by right.
Qed.

Lemma new_table_mem a :
  k_mem (new_table pgdir pd d t k) !! a =
    if decide (a = pgdir) then Some (put32 (Z.to_nat (4 * d)) (pde_new t) pd)
    else if decide (a = t) then Some zero_page else k_mem k !! a.
Proof using Type.
  unfold new_table, put_entry. cbn -[put32]. rewrite !lookup_insert. repeat case_decide; congruence.
Qed.

Lemma new_table_ptab d' :
  0 <= d' < 1024 -> ptab (new_table pgdir pd d t k) pgdir d' = if decide (d' = d) then Some t else ptab k pgdir d'.
Proof.
  intros Hd'. destruct dir_len as (Hl & _). destruct (pde_new_spec t Ht) as (Hu & Hp & Ha).
  unfold ptab at 1. rewrite new_table_mem, decide_True by done. cbn -[put32].
  rewrite get_put_entry by done. unfold ptab. rewrite Hpd. cbn.
  destruct (decide (d = d')) as [->|]; [|by rewrite decide_False].
  rewrite decide_True, u32_id, Hp, Ha by done. done.
Qed.

Lemma new_table_wf : pt_wf (new_table pgdir pd d t k) pgdir l.
Proof.
  destruct dir_len as (Hl & Hne & Hv & Hnl).
  assert (Hold : forall x, is_table k (t :: l) x -> is_table (new_table pgdir pd d t k) l x).
  { intros x (Hxv & Hxn & px & Hpx & Hxl). split; [done|]. split; [set_solver|]. rewrite new_table_mem.
    repeat case_decide; eexists; (split; [done|]); [by rewrite length_put32|apply length_zero_page|done]. }
  assert (Hnew : is_table (new_table pgdir pd d t k) l t /\ t ≠ pgdir).
  { split; [|done]. split; [done|]. split; [done|]. rewrite new_table_mem, decide_False, decide_True by done.
    eexists. split; [done|apply length_zero_page]. }
  split.
  - apply Hold, Hwf.
  - intros d' x Hd' Hx. rewrite new_table_ptab in Hx by done. case_decide; [by injection Hx as <-|].
    destruct (pw_tab _ _ _ Hwf d' x Hd' Hx) as [Hi Hne']. split; [by apply Hold|done].
  - assert (Hfresh : forall d', 0 <= d' < 1024 -> ptab k pgdir d' ≠ Some t).
    { intros d' Hd' Hx. destruct (pw_tab _ _ _ Hwf d' t Hd' Hx) as [(_ & Hn & _) _]. set_solver. }
    intros d1 d2 x H1 H2. rewrite !new_table_ptab by done.
    repeat case_decide; subst; try done.
    + intros [= <-] Hx. by destruct (Hfresh d2 H2).
    + intros Hx [= <-]. by destruct (Hfresh d1 H1).
    + by apply (pw_inj _ _ _ Hwf).
Qed.

Lemma new_table_mapping va : mapping (new_table pgdir pd d t k) pgdir va = mapping k pgdir va.
Proof.
  unfold mapping, pte_of. rewrite new_table_ptab by apply PDX_range. case_decide as Hva.
  - rewrite Hva, Hnone. cbn. destruct dir_len as (_ & Hne & _). rewrite new_table_mem, decide_False, decide_True by done.
    cbn -[get32 zero_page]. unfold zero_page. by rewrite get32_zero.
  - destruct (ptab k pgdir (PDX va)) as [x|] eqn:Hx; [|done]. cbn. rewrite new_table_mem.
    destruct (pw_tab _ _ _ Hwf _ x (PDX_range va) Hx) as [(_ & Hn & _) Hne'].
    rewrite decide_False, decide_False by (done || set_solver). done.
Qed.

End new_table.

(** [walkpgdir] with allocation: the table of [va] exists afterwards, no mapping has changed, and at most one
    free page was used. *)
Lemma wp_walk_alloc m H co p k pgdir va l (Q : Z -> world kst -> Prop) :
  kmem_free m H k -> free_pages k l -> pt_wf k pgdir l -> l ≠ [] ->
  (forall k' l' t pt, kmem_free m H k' -> free_pages k' l' -> pt_wf k' pgdir l' ->
     (length l <= length l' + 1)%nat -> l' ⊆ l ->
     ptab k' pgdir (PDX va) = Some t -> k_mem k' !! t = Some pt -> t ≠ 0 ->
     (forall va', mapping k' pgdir va' = mapping k pgdir va') ->
     (forall a, a ∉ l -> a ≠ pgdir -> k_mem k' !! a = k_mem k !! a) ->
     Q (u32 (t + 4 * PTX va)) (W (held m H) co p k')) ->
  wp (walkpgdir pgdir va true) Q (W (held m H) co p k).
Proof.
  intros Hk Hf Hwf Hl HQ. destruct (pw_dir _ _ _ Hwf) as (Hdv & Hdn & pd & Hpd & Hdl).
  pose proof (PDX_range va) as Hd. unfold walkpgdir. kstep.
  eapply (wp_word_at _ _ _ _ k pgdir pd); [done|done|done|done|]. cbn beta.
  destruct (ptab k pgdir (PDX va)) as [t|] eqn:Htab.
  - destruct (pw_tab _ _ _ Hwf _ t Hd Htab) as [(Htv & _ & pt & Hpt & _) _]. pose proof (valid_page_u32 t Htv).
    assert (Hp : has_flag (get32 (Z.to_nat (4 * PDX va)) pd) PTE_P = true /\
                 P2V (PTE_ADDR (get32 (Z.to_nat (4 * PDX va)) pd)) = t).
    { unfold ptab in Htab. rewrite Hpd in Htab. cbn -[get32] in Htab.
      destruct (has_flag _ PTE_P); [by injection Htab|done]. }
    destruct Hp as [-> ->]. kstep. eapply (HQ k l t pt); try done; [lia|lia].
  - assert (Hp : has_flag (get32 (Z.to_nat (4 * PDX va)) pd) PTE_P = false).
    { unfold ptab in Htab. rewrite Hpd in Htab. cbn -[get32] in Htab. by destruct (has_flag _ PTE_P). }
    rewrite Hp. cbn [negb]. kstep. eapply wp_kalloc; [done|exact Hf|].
    destruct l as [|t l]; [done|]. intros pg Hpg Hf'. destruct Hf as (_ & Hnd & Hv).
    apply Forall_cons in Hv as [Htv Hv]. apply list.NoDup_cons in Hnd as [Hnt _].
    pose proof (valid_page_u32 t Htv) as [_ Hpos]. rewrite (proj2 (Z.eqb_neq t 0)) by lia.
    unfold set_page. ksteps.
    destruct (dir_len k pgdir t l pd Hwf Hpd) as (_ & Hne & _ & Hdl').
    eapply (wp_set_word _ _ _ _ pgdir pd); [done|by cbn; rewrite lookup_insert_ne|done|]. kstep.
    change (put_entry pgdir pd (PDX va) _ _) with (kalloced pg (new_table pgdir pd (PDX va) t k)).
    set (k1 := new_table pgdir pd (PDX va) t k).
    assert (Hmem : forall a, k_mem k1 !! a = _) by apply new_table_mem.
    eapply (HQ (kalloced pg k1) l t zero_page).
    + exact Hk.
    + eapply (free_pages_frame (kalloced pg k)); [done| |exact Hf']. intros a Ha. cbn.
      change (k_mem k1 !! a = k_mem k !! a). rewrite Hmem, decide_False, decide_False by (intros ->; done). done.
    + destruct (new_table_wf k pgdir t l pd (PDX va)) as [A B C]; [done..|]. split; [exact A|exact B|exact C].
    + cbn. lia.
    + set_solver.
    + etransitivity; [by apply (new_table_ptab k pgdir t l pd)|]. by rewrite decide_True.
    + change (k_mem k1 !! t = Some zero_page). rewrite Hmem, decide_False, decide_True by done. done.
    + lia.
    + intros va'. by apply (new_table_mapping k pgdir t l pd).
    + intros a Ha Hap. change (k_mem k1 !! a = k_mem k !! a). rewrite Hmem, decide_False, decide_False by set_solver. done.
Qed.

(** The entry for physical page [pa]. *)
Definition pte_new (pa perm : Z) : Z := Z.lor (Z.lor pa perm) PTE_P.

Lemma pte_new_spec pa perm :
  0 <= pa < 4294967296 -> pa mod 4096 = 0 -> 0 <= perm < 4096 ->
  is_u32 (pte_new pa perm) /\ has_flag (pte_new pa perm) PTE_P = true /\ PTE_ADDR (pte_new pa perm) = pa.
Proof.
  intros Hp Hm Hf. set (f := Z.lor perm 1).
  assert (Hfr : 0 <= f < 4096).
  { assert (Hl : Z.land f (Z.ones 12) = f).
    { unfold f. rewrite Z.land_lor_distr_l, (Z.land_ones perm), Z.mod_small by (change (2 ^ 12) with 4096; lia). done. }
    rewrite <- Hl, Z.land_ones by lia. apply Z.mod_pos_bound. lia. }
  assert (He : pte_new pa perm = pa + f).
  { unfold pte_new, PTE_P. rewrite <- Z.lor_assoc. apply lor_aligned; [lia|done|done]. }
  assert (Hu : is_u32 (pte_new pa perm)).
  { rewrite He. unfold is_u32. assert (pa + 4096 <= 4294967296); [|lia].
    pose proof (Z.div_mod pa 4096). assert (pa / 4096 < 1048576) by (apply Z.div_lt_upper_bound; lia). lia. }
  split; [done|]. split.
  - unfold has_flag. apply negb_true_iff, Z.eqb_neq. unfold pte_new, PTE_P.
    rewrite Z.land_lor_distr_l. intros H0. apply Z.lor_eq_0_iff in H0. destruct H0 as [_ H1]. discriminate H1.
  - rewrite PTE_ADDR_spec, He by done. rewrite Z.add_mod, Hm, Z.add_0_l, Z.mod_mod, (Z.mod_small f) by lia. lia.
Qed.

Lemma mapping_table k pgdir va t pt :
  ptab k pgdir (PDX va) = Some t -> k_mem k !! t = Some pt ->
  mapping k pgdir va = let v := get32 (Z.to_nat (4 * PTX va)) pt in if has_flag v PTE_P then Some v else None.
Proof. intros Ht Hpt. unfold mapping, pte_of. rewrite Ht. unfold mbind, option_bind. by rewrite Hpt. Qed.

(** Mapping one page. *)
Lemma wp_map_one {A} m H co p k pgdir va pa perm l (Q : A + Z -> world kst -> Prop) (last : Z) (next : A + Z) :
  kmem_free m H k -> free_pages k l -> pt_wf k pgdir l -> l ≠ [] -> mapping k pgdir va = None ->
  0 <= pa < 4294967296 -> pa mod 4096 = 0 -> 0 <= perm < 4096 ->
  (forall k' l', kmem_free m H k' -> free_pages k' l' -> pt_wf k' pgdir l' ->
     (length l <= length l' + 1)%nat ->
     mapping k' pgdir va = Some (pte_new pa perm) ->
     (forall va', ~ same_page va va' -> mapping k' pgdir va' = mapping k pgdir va') ->
     Q (if va =? last then inr 0 else next) (W (held m H) co p k')) ->
  wp (let! pte := walkpgdir pgdir va true in
      if pte =? 0 then ret (inr (-1))
      else
        let! v := word_at pte in
        if has_flag v PTE_P then panic "remap"
        else
          set_word pte (Z.lor (Z.lor pa perm) PTE_P) ;;;
          if va =? last then ret (inr 0) else ret next) Q (W (held m H) co p k).
Proof.
  intros Hk Hf Hwf Hl Hnone Hpa Hpm Hperm HQ. destruct (pte_new_spec pa perm Hpa Hpm Hperm) as (Hu & Hp & _).
  kstep. eapply (wp_walk_alloc _ _ _ _ k); [done..|].
  intros k1 l1 t pt Hk1 Hf1 Hwf1 Hlen _ Htab Hpt Ht0 Hsame _. pose proof (PTX_range va) as Hx.
  destruct (pw_tab _ _ _ Hwf1 _ t (PDX_range va) Htab) as [(Htv & _ & _) _].
  destruct (word_in_page t (PTX va) Htv Hx) as (Hw & _). destruct (valid_page_u32 t Htv) as [_ Hpos].
  rewrite (proj2 (Z.eqb_neq _ 0)) by lia.
  kstep. eapply (wp_word_at _ _ _ _ k1 t pt); [done|done|done|done|]. cbn beta.
  assert (Hnp : has_flag (get32 (Z.to_nat (4 * PTX va)) pt) PTE_P = false).
  { specialize (Hsame va). rewrite Hnone, (mapping_table _ _ _ _ _ Htab Hpt) in Hsame.
    cbn zeta in Hsame. by destruct (has_flag (get32 _ pt) PTE_P). }
  rewrite Hnp. kstep. eapply (wp_set_word _ _ _ k1 t pt); [done|done|done|]. fold (pte_new pa perm).
  destruct (put_entry_spec k1 pgdir l1 Hwf1 va t pt (pte_new pa perm) Htab Hpt Hu) as (Hwf2 & Hva & Hother).
  assert (Hd : t ∉ l1) by (by destruct (pw_tab _ _ _ Hwf1 _ t (PDX_range va) Htab) as [(_ & ? & _) _]).
  assert (HQ' : Q (if va =? last then inr 0 else next) (W (held m H) co p (put_entry t pt (PTX va) (pte_new pa perm) k1))).
  { eapply HQ; [exact Hk1| |exact Hwf2|done| |].
    - eapply free_pages_frame; [| |exact Hf1]; [done|]. intros a Ha. cbn. apply lookup_insert_ne. by intros ->.
    - unfold mapping. rewrite Hva. cbn. by rewrite Hp.
    - intros va' Hd'. rewrite <- Hsame. unfold mapping. by rewrite Hother. }
  by destruct (va =? last); kstep.
Qed.

Lemma same_page_spec va va' :
  0 <= va < 4294967296 -> 0 <= va' < 4294967296 -> va mod 4096 = 0 ->
  same_page va va' <-> va <= va' < va + 4096.
Proof.
  intros H1 H2 Hm. unfold same_page. rewrite !PDX_spec, !PTX_spec.
  assert (Hdiv : forall x, 0 <= x < 4294967296 ->
    x / 4194304 = x / 4096 / 1024 /\ (x / 4194304) mod 1024 = x / 4194304 /\ 4096 * (x / 4096) <= x < 4096 * (x / 4096) + 4096 /\
    x / 4096 = 1024 * (x / 4096 / 1024) + (x / 4096) mod 1024).
  { intros x Hx. split; [by rewrite Z.div_div|]. split.
    - apply Z.mod_small. split; [apply Z.div_pos; lia|]. apply Z.div_lt_upper_bound; lia.
    - pose proof (Z.div_mod x 4096). pose proof (Z.mod_pos_bound x 4096). pose proof (Z.div_mod (x / 4096) 1024). lia. }
  destruct (Hdiv va H1) as (A1 & A2 & A3 & A4), (Hdiv va' H2) as (B1 & B2 & B3 & B4).
  rewrite A2, B2, A1, B1. pose proof (Z.div_mod va 4096). split.
  - intros [E1 E2]. assert (va / 4096 = va' / 4096) by lia. lia.
  - intros Hr. assert (va / 4096 = va' / 4096) as <- by lia. done.
Qed.

(** The mappings after [n] pages from [va] on were mapped to those from [pa] on. *)
Definition mapped (f : Z -> option Z) (va pa perm : Z) (n : nat) (va' : Z) : option Z :=
  if decide (va <= va' < va + 4096 * Z.of_nat n) then Some (pte_new (pa + (va' - va) / 4096 * 4096) perm) else f va'.

Lemma mapped_cons f f' va pa perm n va' :
  0 <= va -> va mod 4096 = 0 -> va + 4096 <= 4294967296 -> 0 <= va' < 4294967296 ->
  f' va = Some (pte_new pa perm) -> (forall x, 0 <= x < 4294967296 -> same_page va x -> f' x = f' va) ->
  (forall x, ~ same_page va x -> f' x = f x) ->
  mapped f' (va + 4096) (pa + 4096) perm n va' = mapped f va pa perm (Datatypes.S n) va'.
Proof.
  intros Hva Hm Hr Hva' H1 Hs H2. unfold mapped. pose proof (same_page_spec va va' ltac:(lia) Hva' Hm) as Hsp.
  destruct (decide (va <= va' < va + 4096)) as [Hin|Hout].
  - rewrite decide_False, decide_True by lia. rewrite (Hs va'), H1 by (done || by apply Hsp).
    rewrite Z.div_small, Z.mul_0_l, Z.add_0_r by lia. done.
  - destruct (decide (va + 4096 <= va' < va + 4096 + 4096 * Z.of_nat n)) as [Hin'|Hout'].
    + rewrite decide_True by lia. f_equal. f_equal.
      replace (va' - va) with (va' - (va + 4096) + 1 * 4096) by lia. rewrite Z.div_add by lia. lia.
    + rewrite decide_False by lia. apply H2. by rewrite Hsp.
Qed.

Lemma mapping_same k pgdir va va' : same_page va va' -> mapping k pgdir va' = mapping k pgdir va.
Proof. intros [H1 H2]. unfold mapping, pte_of. by rewrite <- H1, <- H2. Qed.

Lemma wp_mappages_loop m H co p pgdir perm n : forall k va pa l (Q : Z -> world kst -> Prop),
  kmem_free m H k -> free_pages k l -> pt_wf k pgdir l -> (n < length l)%nat ->
  0 <= va -> va mod 4096 = 0 -> va + 4096 * Z.of_nat (Datatypes.S n) <= 4294967296 ->
  0 <= pa -> pa mod 4096 = 0 -> pa + 4096 * Z.of_nat (Datatypes.S n) <= 4294967296 -> 0 <= perm < 4096 ->
  (forall va', va <= va' < va + 4096 * Z.of_nat (Datatypes.S n) -> mapping k pgdir va' = None) ->
  (forall k' l', kmem_free m H k' -> free_pages k' l' -> pt_wf k' pgdir l' ->
     (length l <= length l' + Datatypes.S n)%nat ->
     (forall va', 0 <= va' < 4294967296 ->
        mapping k' pgdir va' = mapped (mapping k pgdir) va pa perm (Datatypes.S n) va') ->
     Q 0 (W (held m H) co p k')) ->
  wp (mappages_loop (Datatypes.S n) pgdir (va + 4096 * Z.of_nat n) perm va pa) Q (W (held m H) co p k).
Proof.
  induction n as [|n IH]; intros k va pa l Q Hk Hf Hwf Hl Hva Hvm Hve Hpa Hpm Hpe Hperm Hnone HQ;
    unfold mappages_loop; cbn [loop]; kstep.
  - eapply (wp_map_one _ _ _ _ k pgdir va pa perm l); [done|done|done|by destruct l; [cbn in Hl; lia|]
      |apply Hnone; lia|lia|done|done|].
    intros k1 l1 Hk1 Hf1 Hwf1 Hl1 Hm1 Ho1. rewrite (proj2 (Z.eqb_eq va _)) by lia. kstep.
    eapply HQ; [done|done|done|lia|]. intros va' Hva'.
    rewrite <- (mapped_cons (mapping k pgdir) (mapping k1 pgdir))
      by first [done | lia | intros x _; apply mapping_same].
    unfold mapped. rewrite decide_False by lia. done.
  - eapply (wp_map_one _ _ _ _ k pgdir va pa perm l); [done|done|done|by destruct l; [cbn in Hl; lia|]
      |apply Hnone; lia|lia|done|done|].
    intros k1 l1 Hk1 Hf1 Hwf1 Hl1 Hm1 Ho1. rewrite (proj2 (Z.eqb_neq va _)) by lia.
    rewrite !u32_id by (unfold is_u32, PGSIZE; lia). unfold PGSIZE.
    replace (va + 4096 * Z.of_nat (Datatypes.S n)) with ((va + 4096) + 4096 * Z.of_nat n) by lia.
    apply (IH k1 (va + 4096) (pa + 4096) l1); try done; try lia.
    + by rewrite Z.add_mod, Hvm by lia.
    + by rewrite Z.add_mod, Hpm by lia.
    + intros va' Hv'. rewrite Ho1; [apply Hnone; lia|]. rewrite same_page_spec by lia. lia.
    + intros k2 l2 Hk2 Hf2 Hwf2 Hl2 Hm2. eapply HQ; [done|done|done|lia|]. intros va' Hva'. rewrite Hm2 by done.
      apply mapped_cons; first [done | lia | intros x _; apply mapping_same].
Qed.

End spec.

(** C27.  [mappages] of [n] pages not mapped yet, with enough free pages for the tables they may need, returns 0;
    afterwards those pages are mapped in order to the physical pages from [pa] on with the given permissions,
    every other address is mapped as before, and the page table is well formed. *)
Theorem mappages_spec `{Lk : Linker} m H co p k pgdir va pa perm l n :
  0 < kend -> kmem_free m H k -> free_pages k l -> pt_wf k pgdir l -> (n < length l)%nat ->
  0 <= va -> va mod PGSIZE = 0 -> va + PGSIZE * Z.of_nat (Datatypes.S n) <= 4294967296 ->
  0 <= pa -> pa mod PGSIZE = 0 -> pa + PGSIZE * Z.of_nat (Datatypes.S n) <= 4294967296 -> 0 <= perm < 4096 ->
  (forall va', va <= va' < va + PGSIZE * Z.of_nat (Datatypes.S n) -> mapping k pgdir va' = None) ->
  exists k' l',
    mappages pgdir va (PGSIZE * Z.of_nat (Datatypes.S n)) pa perm (W (held m H) co p k) =
      Ret 0 (W (held m H) co p k') /\
    pt_wf k' pgdir l' /\ free_pages k' l' /\ (length l <= length l' + Datatypes.S n)%nat /\
    forall va', 0 <= va' < 4294967296 ->
      mapping k' pgdir va' =
        if decide (va <= va' < va + PGSIZE * Z.of_nat (Datatypes.S n))
        then Some (pte_new (pa + (va' - va) / PGSIZE * PGSIZE) perm) else mapping k pgdir va'.
Proof.
  intros Hke Hk Hf Hwf Hl Hva Hvm Hve Hpa Hpm Hpe Hperm Hnone. unfold PGSIZE in *.
  assert (Hdown : PGROUNDDOWN va = va) by (rewrite PGROUNDDOWN_spec; unfold PGSIZE; lia).
  assert (Hlast : PGROUNDDOWN (u32 (va + 4096 * Z.of_nat (Datatypes.S n) - 1)) = va + 4096 * Z.of_nat n).
  { rewrite u32_id by (unfold is_u32; lia). rewrite PGROUNDDOWN_spec. unfold PGSIZE.
    replace (va + 4096 * Z.of_nat (Datatypes.S n) - 1) with (va + 4095 + Z.of_nat n * 4096) by lia.
    rewrite Z.mod_add, Z.add_mod, Hvm by lia. change ((0 + 4095 mod 4096) mod 4096) with 4095. lia. }
  assert (Hwp : wp (mappages pgdir va (4096 * Z.of_nat (Datatypes.S n)) pa perm)
    (fun r w => r = 0 /\ exists k' l', w = W (held m H) co p k' /\
       pt_wf k' pgdir l' /\ free_pages k' l' /\ (length l <= length l' + Datatypes.S n)%nat /\
       forall va', 0 <= va' < 4294967296 ->
         mapping k' pgdir va' = mapped (mapping k pgdir) va pa perm (Datatypes.S n) va') (W (held m H) co p k)).
  { unfold mappages. rewrite Hdown, Hlast.
    replace (va + 4096 * Z.of_nat n - va) with (4096 * Z.of_nat n) by lia.
    rewrite u32_id by (unfold is_u32; lia). unfold PGSIZE. rewrite Z.mul_comm, Z.div_mul, Nat2Z.id, Nat.add_1_r by lia.
    rewrite (Z.mul_comm (Z.of_nat n)). eapply (wp_mappages_loop Hke _ _ _ _ _ _ _ _ _ _ l); try done.
    intros k' l' _ ? ? ? ?. split; [done|]. by exists k', l'. }
  apply wp_elim in Hwp as (r & w & Hrun & -> & k' & l' & -> & ?). by exists k', l'.
Qed.

(** ** Examples *)

(** An empty page directory and one free page. *)
Definition ex_pgdir : Z := 0x80401000.
Definition ex_vm : kst := ex_kmem <| k_mem := <[ex_pgdir := zero_page]> (k_mem ex_kmem) |>.

Lemma ex_vm_wf : @pt_wf ex_end ex_vm ex_pgdir [0x80400000].
Proof.
  assert (Hnone : forall d, ptab ex_vm ex_pgdir d = None).
  { intros d. unfold ptab, ex_vm, ex_pgdir. unfold k_mem at 1. cbn -[get32 zero_page].
    rewrite lookup_insert_eq. cbn -[get32 zero_page]. unfold zero_page. by rewrite get32_zero. }
  split.
  - split; [apply ex_valid; [done|unfold ex_pgdir; lia]|]. split; [unfold ex_pgdir; set_solver|].
    exists zero_page. split; [apply lookup_insert_eq|apply length_zero_page].
  - intros d t _. by rewrite Hnone.
  - intros d d' t _ _. by rewrite Hnone.
Qed.

Lemma mappages_spec_witness :
  exists k' l', mappages ex_pgdir 0x2000 PGSIZE 0x300000 6
      (W (held ex_machine []) ex_console (ex_procs 0) ex_vm) =
      Ret 0 (W (held ex_machine []) ex_console (ex_procs 0) k') /\
    @pt_wf ex_end k' ex_pgdir l' /\ mapping k' ex_pgdir 0x2ABC = Some (pte_new 0x300000 6).
Proof.
  destruct (@mappages_spec ex_end ex_machine [] ex_console (ex_procs 0) ex_vm ex_pgdir 0x2000 0x300000 6 [0x80400000] 0)
    as (k' & l' & Hrun & Hwf & _ & _ & Hm).
  - reflexivity.
  - exact ex_kmem_free.
  - eapply (@free_pages_frame ex_end eq_refl ex_kmem); [reflexivity| |exact ex_free_pages].
    intros a Ha. apply lookup_insert_ne. apply list_elem_of_singleton in Ha as ->. discriminate.
  - exact ex_vm_wf.
  - cbn. lia.
  - lia.
  - reflexivity.
  - unfold PGSIZE. lia.
  - lia.
  - reflexivity.
  - unfold PGSIZE. lia.
  - lia.
  - intros va' _. unfold mapping, pte_of. destruct (ptab ex_vm ex_pgdir (PDX va')) as [t|] eqn:Ht; [|reflexivity].
    exfalso. unfold ptab, ex_vm in Ht. unfold k_mem at 1 in Ht. cbn -[get32 zero_page] in Ht.
    rewrite lookup_insert_eq in Ht. cbn -[get32 zero_page] in Ht. unfold zero_page in Ht.
    rewrite get32_zero in Ht. discriminate Ht.
  - exists k', l'. split; [exact Hrun|]. split; [exact Hwf|]. rewrite Hm by lia.
    rewrite decide_True by (unfold PGSIZE; lia). reflexivity.
Defined.
