(* ===== verification/CString.v ===== *)
(** * The kernel's string routines (string.c)

    A byte array is a list, a pointer into it an offset, an access out of the
    array [None].  [memmove] copies inside one array byte by byte in the direction the
    code chooses; the theorems show that it is a copy as if through a temporary
    for every overlap, and that the bounded string copies stay in bounds and terminate. *)

From S2P Require Import Prelude.
From stdpp Require Import gmap strings list fin_maps.
Open Scope Z_scope.

(** ** Definitions *)

(** [*p = v] and [stosb], [stosl] of x86.h. *)
Definition store (mem : list Z) (p : nat) (v : Z) : option (list Z) :=
  if decide (p < length mem)%nat then Some (<[p := u8 v]> mem) else None.

Fixpoint stosb (mem : list Z) (p : nat) (c : Z) (cnt : nat) : option (list Z) :=
  match cnt with
  | O => Some mem
  | S cnt => mem ← store mem p c; stosb mem (p + 1) c cnt
  end.

Fixpoint stosl (mem : list Z) (p : nat) (w : Z) (cnt : nat) : option (list Z) :=
  match cnt with
  | O => Some mem
  | S cnt =>
      mem ← store mem p w;
      mem ← store mem (p + 1) (Z.shiftr w 8);
      mem ← store mem (p + 2) (Z.shiftr w 16);
      mem ← store mem (p + 3) (Z.shiftr w 24);
      stosl mem (p + 4) w cnt
  end.

Definition memset (mem : list Z) (dst : nat) (c : Z) (n : nat) : option (list Z) :=
  if decide (dst mod 4 = 0 /\ n mod 4 = 0)%nat then
    let c := Z.land c 0xFF in
    stosl mem dst (u32 (Z.lor (Z.lor (Z.lor (Z.shiftl c 24) (Z.shiftl c 16)) (Z.shiftl c 8)) c)) (n / 4)
  else stosb mem dst c n.

Fixpoint memcmp (v1 v2 : list Z) (n : nat) : option Z :=
  match n with
  | O => Some 0
  | S n =>
      match v1, v2 with
      | a :: v1, b :: v2 => if a =? b then memcmp v1 v2 n else Some (a - b)
      | _, _ => None
      end
  end.

Fixpoint move_up (mem : list Z) (d s : nat) (n : nat) : option (list Z) :=
  match n with
  | O => Some mem
  | S n => v ← mem !! s; mem ← store mem d v; move_up mem (d + 1) (s + 1) n
  end.

(** [while(n-- > 0) *--d = *--s;] *)
Fixpoint move_down (mem : list Z) (d s : nat) (n : nat) : option (list Z) :=
  match n with
  | O => Some mem
  | S n => v ← mem !! (s - 1)%nat; mem ← store mem (d - 1) v; move_down mem (d - 1) (s - 1) n
  end.

Definition memmove (mem : list Z) (dst src n : nat) : option (list Z) :=
  if decide (src < dst /\ dst < src + n)%nat then move_down mem (dst + n) (src + n) n
  else move_up mem dst src n.

Definition memcpy (mem : list Z) (dst src n : nat) : option (list Z) := memmove mem dst src n.

Fixpoint strncmp (p q : list Z) (n : nat) : option Z :=
  match n with
  | O => Some 0
  | S n' =>
      match p, q with
      | a :: p', b :: q' =>
          if negb (a =? 0) && (a =? b) then strncmp p' q' n' else Some (a - b)
      | _, _ => None
      end
  end.

(** The bytes [strncpy] stores for source [t]: its characters, then zeros, [n] in all. *)
Fixpoint strncpy (t : list Z) (n : nat) : option (list Z) :=
  match n with
  | O => Some []
  | S n' =>
      match t with
      | [] => None
      | c :: t' => if c =? 0 then Some (replicate n 0) else (fun l => c :: l) <$> strncpy t' n'
      end
  end.

(** The bytes [safestrcpy] stores in a destination of [n] bytes: at most [n - 1]
    characters and the terminating 0. *)
Fixpoint safestrcpy_loop (t : list Z) (n : nat) : option (list Z) :=
  match n with
  | O | 1%nat => Some [0]
  | S n' =>
      match t with
      | [] => None
      | c :: t' => if c =? 0 then Some [0; 0] else (fun l => c :: l) <$> safestrcpy_loop t' n'
      end
  end.
Definition safestrcpy (t : list Z) (n : Z) : option (list Z) :=
  if n <=? 0 then Some [] else safestrcpy_loop t (Z.to_nat n).

Fixpoint strlen (s : list Z) : option nat :=
  match s with
  | [] => None
  | c :: s => if c =? 0 then Some 0%nat else S <$> strlen s
  end.

(** ** Copies and fills *)

Lemma list_eq_lookup_wr p xs mem mem' :
  (p + length xs <= length mem)%nat -> length mem' = length mem ->
  (forall i, mem' !! i = if decide (p <= i < p + length xs)%nat then xs !! (i - p)%nat else mem !! i) ->
  mem' = wr p xs mem.
Proof. intros Hl Hlen Hi. apply list_eq. intros i. by rewrite Hi, lookup_wr. Qed.

Lemma wr_cons p x xs mem :
  (p + S (length xs) <= length mem)%nat -> wr (p + 1) xs (<[p := x]> mem) = wr p (x :: xs) mem.
Proof.
  intros Hl. apply list_eq_lookup_wr; [cbn; lia|by rewrite length_wr, length_insert|]. intros i.
  rewrite lookup_wr by (rewrite length_insert; lia). cbn [length]. destruct (decide (i = p)) as [->|Hne].
  - rewrite decide_False, decide_True, Nat.sub_diag by lia. by apply list_lookup_insert_eq; lia.
  - rewrite list_lookup_insert_ne by done. repeat case_decide; try lia; [|done].
    replace (i - p)%nat with (S (i - (p + 1)))%nat by lia. done.
Qed.

Lemma wr_snoc p x xs mem :
  (p + S (length xs) <= length mem)%nat -> wr p xs (<[(p + length xs)%nat := x]> mem) = wr p (xs ++ [x]) mem.
Proof.
  intros Hl. apply list_eq_lookup_wr; [rewrite length_app; cbn; lia|by rewrite length_wr, length_insert|]. intros i.
  rewrite lookup_wr by (rewrite length_insert; lia). rewrite length_app. cbn [length].
  destruct (decide (i = p + length xs)%nat) as [->|Hne].
  - rewrite decide_False, decide_True by lia. rewrite list_lookup_insert_eq by lia.
    replace (p + length xs - p)%nat with (length xs) by lia. by rewrite list_lookup_middle.
  - rewrite list_lookup_insert_ne by done. repeat case_decide; try lia; [|done].
    by rewrite lookup_app_l by lia.
Qed.

Lemma store_in mem p v : (p < length mem)%nat -> store mem p v = Some (<[p := u8 v]> mem).
Proof. intros. unfold store. by rewrite decide_True. Qed.

Lemma wr_nil p mem : wr p [] mem = mem.
Proof. unfold wr. rewrite take_nil, Nat.add_0_r. apply take_drop. Qed.

Lemma stosb_spec c cnt : forall mem p,
  (p + cnt <= length mem)%nat -> stosb mem p c cnt = Some (wr p (replicate cnt (u8 c)) mem).
Proof.
  induction cnt as [|cnt IH]; intros mem p Hl; cbn [stosb]; [by rewrite wr_nil|].
  rewrite store_in by lia. cbn. rewrite IH by (rewrite length_insert; lia).
  f_equal. rewrite wr_cons by (rewrite length_replicate; lia). done.
Qed.

(** The word [stosl] stores is four times the byte. *)
Definition splat (c : Z) : Z := u32 (Z.lor (Z.lor (Z.lor (Z.shiftl c 24) (Z.shiftl c 16)) (Z.shiftl c 8)) c).

Lemma splat_bytes c :
  is_u8 c -> u8 (splat c) = c /\ u8 (Z.shiftr (splat c) 8) = c /\
             u8 (Z.shiftr (splat c) 16) = c /\ u8 (Z.shiftr (splat c) 24) = c.
Proof.
  intros Hc. set (ok := fun c => (u8 (splat c) =? c) && (u8 (Z.shiftr (splat c) 8) =? c) &&
    (u8 (Z.shiftr (splat c) 16) =? c) && (u8 (Z.shiftr (splat c) 24) =? c)).
  assert (Hall : forallb ok (Z.of_nat <$> seq 0 256) = true) by (vm_compute; reflexivity).
  rewrite forallb_forall in Hall. specialize (Hall c). unfold ok, is_u8 in *.
  assert (Hin : In c (Z.of_nat <$> seq 0 256)).
  { apply list_elem_of_In, list_elem_of_fmap. exists (Z.to_nat c). rewrite elem_of_seq. lia. }
  specialize (Hall Hin). rewrite !andb_true_iff, !Z.eqb_eq in Hall. tauto.
Qed.

Lemma stosl_spec c cnt : forall mem p,
  is_u8 c -> (p + 4 * cnt <= length mem)%nat ->
  stosl mem p (splat c) cnt = Some (wr p (replicate (4 * cnt) c) mem).
Proof.
  induction cnt as [|cnt IH]; intros mem p Hc Hl; [by rewrite wr_nil|]. cbn [stosl].
  destruct (splat_bytes c Hc) as (H0 & H1 & H2 & H3).
  repeat (rewrite store_in by (rewrite ?length_insert; lia); cbn -[Nat.mul]).
  rewrite H0, H1, H2, H3, IH by (try done; rewrite !length_insert; lia). f_equal.
  replace (4 * S cnt)%nat with (S (S (S (S (4 * cnt))))) by lia. cbn [replicate].
  rewrite <- wr_cons by (cbn; rewrite length_replicate; lia).
  replace (p + 2)%nat with (p + 1 + 1)%nat by lia. replace (p + 3)%nat with (p + 1 + 1 + 1)%nat by lia.
  replace (p + 4)%nat with (p + 1 + 1 + 1 + 1)%nat by lia.
  rewrite <- !wr_cons by (cbn; rewrite ?length_insert, length_replicate; lia). done.
Qed.

Lemma rd_insert_out mem s n p v :
  (p < s \/ s + n <= p)%nat -> rd s n (<[p := v]> mem) = rd s n mem.
Proof.
  intros Hp. unfold rd. destruct Hp as [Hp|Hp].
  - by rewrite drop_insert_lt.
  - apply list_eq. intros i. destruct (decide (i < n)%nat).
    + rewrite !lookup_take_lt, !lookup_drop by done. apply list_lookup_insert_ne. lia.
    + by rewrite !lookup_take_ge by lia.
Qed.

Lemma rd_S mem s n v : mem !! s = Some v -> rd s (S n) mem = v :: rd (s + 1) n mem.
Proof.
  intros Hv. unfold rd. rewrite (drop_S _ v) by done. cbn. by rewrite Nat.add_1_r.
Qed.

Lemma rd_snoc mem s n v : mem !! (s + n)%nat = Some v -> rd s (S n) mem = rd s n mem ++ [v].
Proof. intros Hv. unfold rd. rewrite (take_S_r _ _ v); [done|]. by rewrite lookup_drop. Qed.

Lemma u8_at mem i v : Forall is_u8 mem -> mem !! i = Some v -> u8 v = v.
Proof. intros Hm Hi. apply u8_id. by eapply Forall_lookup_1. Qed.

Lemma copied_u8 mem i j v : Forall is_u8 mem -> mem !! i = Some v -> Forall is_u8 (<[j := v]> mem).
Proof. intros Hm Hv. apply Forall_insert; [done|by eapply Forall_lookup_1]. Qed.

Lemma move_up_spec n : forall mem d s,
  Forall is_u8 mem -> (d + n <= length mem)%nat -> (s + n <= length mem)%nat -> (d <= s \/ s + n <= d)%nat ->
  move_up mem d s n = Some (wr d (rd s n mem) mem).
Proof.
  induction n as [|n IH]; intros mem d s Hb Hd Hs Hov; cbn [move_up]; [by rewrite wr_nil|].
  destruct (lookup_lt_is_Some_2 mem s) as [v Hv]; [lia|]. rewrite Hv. cbn -[store].
  rewrite store_in, (u8_at _ _ _ Hb Hv) by lia. cbn.
  rewrite IH by (rewrite ?length_insert; first [lia | by eapply copied_u8]).
  rewrite rd_insert_out by lia. rewrite (rd_S _ _ _ _ Hv). f_equal.
  apply wr_cons. rewrite length_rd; lia.
Qed.

Lemma move_down_spec n : forall mem d s,
  Forall is_u8 mem -> (d + n <= length mem)%nat -> (s + n <= length mem)%nat -> (s <= d)%nat ->
  move_down mem (d + n) (s + n) n = Some (wr d (rd s n mem) mem).
Proof.
  induction n as [|n IH]; intros mem d s Hb Hd Hs Hov; cbn [move_down]; [by rewrite wr_nil|].
  replace (s + S n - 1)%nat with (s + n)%nat by lia. replace (d + S n - 1)%nat with (d + n)%nat by lia.
  destruct (lookup_lt_is_Some_2 mem (s + n)) as [v Hv]; [lia|]. rewrite Hv. cbn -[store].
  rewrite store_in, (u8_at _ _ _ Hb Hv) by lia. cbn.
  rewrite IH by (rewrite ?length_insert; first [lia | by eapply copied_u8]).
  rewrite rd_insert_out by lia. rewrite (rd_snoc _ _ _ _ Hv). f_equal.
  rewrite <- wr_snoc by (rewrite length_rd; lia). by rewrite length_rd by lia.
Qed.

(** Inside its array, [memmove] stores at [dst] the [n] bytes that were at [src], and changes
    nothing else, however the two ranges overlap; [memset] stores [n] times the low byte of [c], on its
    word path and on its byte path alike. *)
Theorem memory_ops_spec mem dst src n c :
  Forall is_u8 mem -> (dst + n <= length mem)%nat -> (src + n <= length mem)%nat ->
  memmove mem dst src n = Some (wr dst (rd src n mem) mem) /\
  memset mem dst c n = Some (wr dst (replicate n (u8 c)) mem).
Proof.
  intros Hb Hd Hs. split.
  - unfold memmove. case_decide; [apply move_down_spec|apply move_up_spec]; (done || lia).
  - unfold memset. case_decide as Hal; [|by apply stosb_spec].
    pose proof (Nat.div_mod n 4 ltac:(lia)) as Hn. destruct Hal as [_ Hn0]. rewrite Hn0, Nat.add_0_r in Hn.
    fold (splat (Z.land c 0xFF)). change 0xFF with (Z.ones 8). rewrite Z.land_ones by lia.
    change (c mod 2 ^ 8) with (u8 c). rewrite stosl_spec by (apply u8_range || lia). by rewrite <- Hn.
Qed.

Lemma memory_ops_spec_witness :
  memmove [1; 2; 3; 4; 5; 6; 7; 8] 2 0 5 = Some [1; 2; 1; 2; 3; 4; 5; 8].
Proof.
  rewrite (proj1 (memory_ops_spec [1; 2; 3; 4; 5; 6; 7; 8] 2 0 5 0 ltac:(repeat constructor; unfold is_u8; lia)
    ltac:(cbn; lia) ltac:(cbn; lia))). reflexivity.
Defined.

(** ** Strings *)

(** [t] holds the string [s]: its characters, then a 0. *)
Definition is_cstr (t s : list Z) : Prop := Forall (fun c => c ≠ 0) s /\ exists r, t = s ++ 0 :: r.

Lemma strlen_spec t s : is_cstr t s -> strlen t = Some (length s).
Proof.
  intros [Hs [r ->]]. induction Hs as [|c s Hc Hs IH]; [done|]. cbn.
  rewrite (proj2 (Z.eqb_neq c 0)) by done. by rewrite IH.
Qed.

Lemma strncpy_spec t s n :
  is_cstr t s -> strncpy t n = Some (take n s ++ replicate (n - length s) 0).
Proof.
  intros [Hs [r ->]]. revert n. induction Hs as [|c s Hc Hs IH]; intros n.
  - destruct n; [done|]. cbn. done.
  - destruct n; [done|]. cbn. rewrite (proj2 (Z.eqb_neq c 0)) by done. by rewrite IH.
Qed.

(** [safestrcpy] stores no more than [n] bytes, a prefix of the string that ends with a 0. *)
Lemma safestrcpy_spec t s n :
  is_cstr t s -> 0 < n ->
  exists l, safestrcpy t n = Some l /\ Z.of_nat (length l) <= n /\
    is_cstr l (take (Z.to_nat n - 1) s).
Proof.
  intros [Hs [r ->]] Hn. unfold safestrcpy. destruct (Z.leb_spec n 0); [lia|].
  assert (Hgo : forall m, (0 < m)%nat -> exists l, safestrcpy_loop (s ++ 0 :: r) m = Some l /\
    (length l <= m)%nat /\ is_cstr l (take (m - 1) s)).
  { clear Hn H. induction Hs as [|c s Hc Hs IH]; intros m Hm.
    - destruct m as [|[|m]]; [lia| |]; cbn; eexists; (split; [done|]); cbn; (split; [lia|]).
      + split; [constructor|by exists []].
      + split; [constructor|by exists [0]].
    - destruct m as [|[|m]]; [lia| |].
      + exists [0]. cbn. split; [done|]. split; [lia|]. split; [constructor|by exists []].
      + cbn [safestrcpy_loop app]. rewrite (proj2 (Z.eqb_neq c 0)) by done.
        destruct (IH (S m) ltac:(lia)) as (l & Hl & Hlen & Hs1 & r' & Hr').
        rewrite Hl. exists (c :: l). cbn. split; [done|]. split; [lia|].
        cbn in Hr', Hs1. rewrite Nat.sub_0_r in Hr', Hs1. split; [by constructor|]. exists r'. by rewrite Hr'. }
  destruct (Hgo (Z.to_nat n)) as (l & Hl & Hlen & Hc); [lia|]. exists l. split; [done|]. split; [lia|done].
Qed.
