(* ===== verification/Fs.v ===== *)
(** * The file system (fs.c)

    Every function of fs.c: block allocation on the free map, the inode cache, file contents through
    [bmap], directories and path names.  The theorems are about block allocation, which marks and clears exactly one
    block, about reading a file, and about the inode on the disk and in the cache, which
    round trip; those about directories and path names are in [Dir]. *)

From S2P Require Import Prelude Kstate Spinlock Cprintf Proc Kdata Sleeplock Bio Bcache Block Log CString.
From stdpp Require Import gmap strings list fin_maps functions.
Open Scope Z_scope.

(** The functions behind [devsw]. *)
Class Devices := {
  dev_read : devfun -> nat -> Z -> MK (Z * list Z);
  dev_write : devfun -> nat -> list Z -> MK Z;
}.

(** ** Data on the disk *)

Definition sizeof_dinode : nat := 64.
Definition sizeof_dirent : nat := 16.

(** [(struct dinode* )bp->data + inum%IPB] *)
Definition dinode_off (inum : Z) : nat := Z.to_nat (inum mod IPB) * sizeof_dinode.

(** The copy loop between [ip] and [dip] of [iupdate] and of [ilock]. *)
Definition dinode_addrs (addrs : list Z) : list Z := concat (le_bytes 4 <$> addrs).
Definition put_dinode (ip : inode) (off : nat) (d : list Z) : list Z :=
  wr (off + 12) (dinode_addrs (i_addrs ip))
    (put32 (off + 8) (i_size ip)
      (put16 (off + 6) (i_nlink ip)
        (put16 (off + 4) (i_minor ip)
          (put16 (off + 2) (i_major ip)
            (put16 off (i_type ip) d))))).
Definition get_dinode (off : nat) (d : list Z) (ip : inode) : inode :=
  ip <| i_type := s16 (get16 off d) |>
     <| i_major := s16 (get16 (off + 2) d) |>
     <| i_minor := s16 (get16 (off + 4) d) |>
     <| i_nlink := s16 (get16 (off + 6) d) |>
     <| i_size := get32 (off + 8) d |>
     <| i_addrs := (fun j => get32 (off + 12 + 4 * j) d) <$> seq 0 (NDIRECT + 1) |>.

(** Bit [bi] of a block of the free map. *)
Definition map_bit (d : list Z) (bi : nat) : bool :=
  negb (Z.land (default 0 (d !! (bi / 8)%nat)) (Z.shiftl 1 (Z.of_nat (bi mod 8))) =? 0).
Definition set_map_bit (bi : nat) (d : list Z) : list Z :=
  alter (fun x => u8 (Z.lor x (Z.shiftl 1 (Z.of_nat (bi mod 8))))) (bi / 8)%nat d.
Definition clear_map_bit (bi : nat) (d : list Z) : list Z :=
  alter (fun x => u8 (Z.land x (Z.lnot (Z.shiftl 1 (Z.of_nat (bi mod 8)))))) (bi / 8)%nat d.

(** The inner loop of [balloc]: the first clear bit below [BPB] and [size - b]. *)
Fixpoint find_free (fuel : nat) (d : list Z) (b size : Z) (bi : nat) : option nat :=
  match fuel with
  | O => None
  | Datatypes.S fuel =>
      if Z.of_nat bi <? BPB then
        if b + Z.of_nat bi <? size then
          if map_bit d bi then find_free fuel d b size (bi + 1) else Some bi
        else None
      else None
  end.

Definition get_dirent (d : list Z) : dirent := mkDe (get16 0 d) (rd 2 DIRSIZ d).
Definition put_dirent (de : dirent) : list Z := le_bytes 2 (de_inum de) ++ de_name de.

(** ** Path elements *)

Definition slash : Z := 47.

Fixpoint skip_slashes (path : list Z) : option (list Z) :=
  match path with
  | [] => None
  | c :: p => if c =? slash then skip_slashes p else Some path
  end.

(** The element up to the next slash or the end, and what follows. *)
Fixpoint span_elem (path : list Z) : option (list Z * list Z) :=
  match path with
  | [] => None
  | c :: p =>
      if negb (c =? slash) && negb (c =? 0) then
        '(e, rest) ← span_elem p; Some (c :: e, rest)
      else Some ([], path)
  end.

(** [Some None] for the null result, [None] when the path is not terminated. *)
Definition skipelem (path name : list Z) : option (option (list Z * list Z)) :=
  path ← skip_slashes path;
  match path with
  | [] => None
  | c :: _ =>
      if c =? 0 then Some None
      else
        '(s, path) ← span_elem path;
        let name := if decide (DIRSIZ <= length s)%nat then wr 0 (take DIRSIZ s) name
                    else wr 0 (s ++ [0]) name in
        path ← skip_slashes path;
        Some (Some (path, name))
  end.

Definition namecmp (s t : list Z) : option Z := strncmp s t DIRSIZ.

(** ** The functions of fs.c *)

Section fs_c.
Context `{Fu : Fuel} `{Drv : DiskDriver} `{Dev : Devices}.

Definition get_sb : MK superblock := let! k := get_s in ret (k_sb k).

Definition bzero (dev bno : Z) : MK unit :=
  let! bp := bread dev bno in
  set_data bp (fun _ => replicate BSIZE 0) ;;;
  log_write bp ;;;
  brelse bp.

Definition balloc (dev : Z) : MK Z :=
  let! sb := get_sb in
  loop (Z.to_nat (sb_size sb / BPB) + 2) (fun b =>
    let! sb := get_sb in
    if negb (b <? sb_size sb) then panic "balloc: out of blocks"
    else
      let! bp := bread dev (u32 (BBLOCK b sb)) in
      let! x := buf_at bp in
      match find_free (Z.to_nat BPB) (b_data x) b (sb_size sb) 0 with
      | Some bi =>
          set_data bp (set_map_bit bi) ;;;
          log_write bp ;;;
          brelse bp ;;;
          bzero dev (u32 (b + Z.of_nat bi)) ;;;
          ret (inr (u32 (b + Z.of_nat bi)))
      | None =>
          brelse bp ;;;
          ret (inl (b + BPB))
      end) 0.

Definition bfree (dev b : Z) : MK unit :=
  let! sb := get_sb in
  let! bp := bread dev (u32 (BBLOCK b sb)) in
  let bi := Z.to_nat (b mod BPB) in
  let! x := buf_at bp in
  if negb (map_bit (b_data x) bi) then panic "freeing free block"
  else
    set_data bp (clear_map_bit bi) ;;;
    log_write bp ;;;
    brelse bp.

Definition sb_fmt : string :=
  ("sb: size %d nblocks %d ninodes %d nlog %d logstart %d inodestart %d bmap start %d" ++ nl)%string.

Definition iinit (dev : Z) : MK unit :=
  initlock Licache "icache" ;;;
  for_list (seq 0 NINODE) (fun i => initsleeplock (SLinode i) "inode") ;;;
  let! sb := readsb (u32 dev) in
  upd_s (fun k => k <| k_sb := sb |>) ;;;
  cprintf sb_fmt [AInt (s32 (sb_size sb)); AInt (s32 (sb_nblocks sb)); AInt (s32 (sb_ninodes sb)); AInt (s32 (sb_nlog sb));
    AInt (s32 (sb_logstart sb)); AInt (s32 (sb_inodestart sb)); AInt (s32 (sb_bmapstart sb))].

Definition set_iref (ip : nat) (f : Z -> Z) : MK unit :=
  set_inode ip (fun i => i <| i_ref := s32 (f (i_ref i)) |>).

(** The scan of [iget]: the cached inode, or the first empty slot. *)
Fixpoint iget_scan (l : list inode) (dev inum : Z) (i : nat) (empty : option nat) : nat + option nat :=
  match l with
  | [] => inr empty
  | ip :: l =>
      if (0 <? i_ref ip) && (i_dev ip =? dev) && (i_inum ip =? inum) then inl i
      else iget_scan l dev inum (i + 1)
             (match empty with None => if i_ref ip =? 0 then Some i else None | Some _ => empty end)
  end.

Definition iget (dev inum : Z) : MK nat :=
  acquire Licache ;;;
  let! k := get_s in
  match iget_scan (k_inodes k) dev inum 0 None with
  | inl ip =>
      set_iref ip (fun r => r + 1) ;;;
      release Licache ;;;
      ret ip
  | inr None => panic "iget: no inodes"
  | inr (Some ip) =>
      set_inode ip (fun i => i <| i_dev := dev |> <| i_inum := inum |> <| i_ref := 1 |> <| i_valid := 0 |>) ;;;
      release Licache ;;;
      ret ip
  end.

Definition ialloc (dev type : Z) : MK nat :=
  let! sb := get_sb in
  loop (Z.to_nat (sb_ninodes sb) + 1) (fun inum =>
    let! sb := get_sb in
    if negb (inum <? sb_ninodes sb) then panic "ialloc: no inodes"
    else
      let! bp := bread dev (u32 (IBLOCK inum sb)) in
      let! x := buf_at bp in
      let off := dinode_off inum in
      if s16 (get16 off (b_data x)) =? 0 then
        set_data bp (wr off (replicate sizeof_dinode 0)) ;;;
        set_data bp (put16 off type) ;;;
        log_write bp ;;;
        brelse bp ;;;
        let! ip := iget dev inum in
        ret (inr ip)
      else
        brelse bp ;;;
        ret (inl (inum + 1))) 1.

Definition iupdate (ip : nat) : MK unit :=
  let! i := inode_at ip in
  let! sb := get_sb in
  let! bp := bread (i_dev i) (u32 (IBLOCK (i_inum i) sb)) in
  let! i := inode_at ip in
  set_data bp (put_dinode i (dinode_off (i_inum i))) ;;;
  log_write bp ;;;
  brelse bp.

Definition idup (ip : nat) : MK nat :=
  acquire Licache ;;;
  set_iref ip (fun r => r + 1) ;;;
  release Licache ;;;
  ret ip.

Definition ilock (p : option nat) : MK unit :=
  match p with
  | None => panic "ilock"
  | Some ip =>
      let! i := inode_at ip in
      if i_ref i <? 1 then panic "ilock"
      else
        acquiresleep (SLinode ip) ;;;
        let! i := inode_at ip in
        when (i_valid i =? 0)
          (let! sb := get_sb in
           let! bp := bread (i_dev i) (u32 (IBLOCK (i_inum i) sb)) in
           let! x := buf_at bp in
           set_inode ip (get_dinode (dinode_off (i_inum i)) (b_data x)) ;;;
           brelse bp ;;;
           set_inode ip (fun i => i <| i_valid := 1 |>) ;;;
           let! i := inode_at ip in
           when (i_type i =? 0) (panic "ilock: no type"))
  end.

Definition iunlock (p : option nat) : MK unit :=
  match p with
  | None => panic "iunlock"
  | Some ip =>
      let! h := holdingsleep (SLinode ip) in
      if negb h then panic "iunlock"
      else
        let! i := inode_at ip in
        if i_ref i <? 1 then panic "iunlock"
        else releasesleep (SLinode ip)
  end.

Definition set_addr (ip : nat) (n : nat) (a : Z) : MK unit :=
  set_inode ip (fun i => i <| i_addrs := <[n := a]> (i_addrs i) |>).

Definition itrunc (ip : nat) : MK unit :=
  for_list (seq 0 NDIRECT) (fun n =>
    let! i := inode_at ip in
    let! a := deref (i_addrs i !! n) in
    when (negb (a =? 0)) (bfree (i_dev i) a ;;; set_addr ip n 0)) ;;;
  let! i := inode_at ip in
  let! ind := deref (i_addrs i !! NDIRECT) in
  when (negb (ind =? 0))
    (let! bp := bread (i_dev i) ind in
     for_list (seq 0 NINDIRECT) (fun j =>
       let! x := buf_at bp in
       let a := get32 (4 * j) (b_data x) in
       when (negb (a =? 0)) (bfree (i_dev i) a)) ;;;
     brelse bp ;;;
     bfree (i_dev i) ind ;;;
     set_addr ip NDIRECT 0) ;;;
  set_inode ip (fun i => i <| i_size := 0 |>) ;;;
  iupdate ip.

Definition iput (ip : nat) : MK unit :=
  acquiresleep (SLinode ip) ;;;
  let! i := inode_at ip in
  when (negb (i_valid i =? 0) && (i_nlink i =? 0))
    (acquire Licache ;;;
     let! i := inode_at ip in
     let r := i_ref i in
     release Licache ;;;
     when (r =? 1)
       (itrunc ip ;;;
        set_inode ip (fun i => i <| i_type := 0 |>) ;;;
        iupdate ip ;;;
        set_inode ip (fun i => i <| i_valid := 0 |>))) ;;;
  releasesleep (SLinode ip) ;;;
  acquire Licache ;;;
  set_iref ip (fun r => r - 1) ;;;
  release Licache.

Definition iunlockput (ip : nat) : MK unit :=
  iunlock (Some ip) ;;;
  iput ip.

(** [ip->addrs[n]], a block being allocated for it if it is 0. *)
Definition addr_or_alloc (ip : nat) (n : nat) : MK Z :=
  let! i := inode_at ip in
  let! a := deref (i_addrs i !! n) in
  if a =? 0 then
    let! a := balloc (i_dev i) in
    set_addr ip n a ;;;
    ret a
  else ret a.

Definition bmap (ip : nat) (bn : Z) : MK Z :=
  if bn <? Z.of_nat NDIRECT then addr_or_alloc ip (Z.to_nat bn)
  else
    let bn := bn - Z.of_nat NDIRECT in
    if bn <? Z.of_nat NINDIRECT then
      let! ind := addr_or_alloc ip NDIRECT in
      let! i := inode_at ip in
      let! bp := bread (i_dev i) ind in
      let! x := buf_at bp in
      let a := get32 (4 * Z.to_nat bn) (b_data x) in
      let! a :=
        (if a =? 0 then
           let! a := balloc (i_dev i) in
           set_data bp (put32 (4 * Z.to_nat bn) a) ;;;
           log_write bp ;;;
           ret a
         else ret a) in
      brelse bp ;;;
      ret a
    else panic "bmap: out of range".

Definition stati (ip : nat) : MK stat :=
  let! i := inode_at ip in
  ret (mkStat (i_type i) (i_dev i) (i_inum i) (i_nlink i) (i_size i)).

(** The device behind an inode of type [T_DEV]. *)
Definition the_device (i : inode) : MK (option devfun) :=
  let! k := get_s in
  if (i_major i <? 0) || (NDEV <=? i_major i) then ret None
  else ret (default None (k_devsw k !! Z.to_nat (i_major i))).

(** The bytes from [off] that the block of [off] holds, at most [n]. *)
Definition chunk (off n : Z) : Z := Z.min n (Z.of_nat BSIZE - off mod Z.of_nat BSIZE).

(** The copy loop of [readi]; it ends after at most one turn per block. *)
Definition readi_loop (ip : nat) (fuel : nat) (off n : Z) : MK (list Z) :=
  loop fuel (fun st => let '(tot, off, dst) := st in
    if negb (tot <? n) then ret (inr dst)
    else
      let! a := bmap ip (off / Z.of_nat BSIZE) in
      let! i := inode_at ip in
      let! bp := bread (i_dev i) a in
      let m := chunk off (n - tot) in
      let! x := buf_at bp in
      brelse bp ;;;
      ret (inl (tot + m, off + m, dst ++ rd (Z.to_nat (off mod Z.of_nat BSIZE)) (Z.to_nat m) (b_data x))))
    (0, off, []).

(** The result of [readi] and the bytes stored at [dst]. *)
Definition readi (ip : nat) (off n : Z) : MK (Z * list Z) :=
  let! i := inode_at ip in
  if i_type i =? T_DEV then
    let! d := the_device i in
    match d with
    | None => ret (-1, [])
    | Some d => dev_read d ip (s32 n)
    end
  else if (i_size i <? off) || (u32 (off + n) <? off) then ret (-1, [])
  else
    let n := if i_size i <? u32 (off + n) then i_size i - off else n in
    let! dst := readi_loop ip (Z.to_nat (n / Z.of_nat BSIZE) + 3) off n in
    ret (n, dst).

(** The copy loop of [writei]: the final offset. *)
Definition writei_loop (ip : nat) (fuel : nat) (src : list Z) (off : Z) : MK Z :=
  loop fuel (fun st => let '(src, off) := st in
    match src with
    | [] => ret (inr off)
    | _ =>
        let! a := bmap ip (off / Z.of_nat BSIZE) in
        let! i := inode_at ip in
        let! bp := bread (i_dev i) a in
        let m := Z.to_nat (chunk off (Z.of_nat (length src))) in
        set_data bp (wr (Z.to_nat (off mod Z.of_nat BSIZE)) (take m src)) ;;;
        log_write bp ;;;
        brelse bp ;;;
        ret (inl (drop m src, off + Z.of_nat m))
    end) (src, off).

Definition writei (ip : nat) (src : list Z) (off : Z) : MK Z :=
  let n := Z.of_nat (length src) in
  let! i := inode_at ip in
  if i_type i =? T_DEV then
    let! d := the_device i in
    match d with
    | None => ret (-1)
    | Some d => dev_write d ip src
    end
  else if (i_size i <? off) || (u32 (off + n) <? off) then ret (-1)
  else if MAXFILE * Z.of_nat BSIZE <? u32 (off + n) then ret (-1)
  else
    let! off := writei_loop ip (length src / BSIZE + 3) src off in
    let! i := inode_at ip in
    when ((0 <? n) && (i_size i <? off))
      (set_inode ip (fun i => i <| i_size := off |>) ;;;
       iupdate ip) ;;;
    ret n.

(** Read the directory entry at [off]. *)
Definition read_dirent (dp : nat) (off : Z) (msg : string) : MK dirent :=
  let! '(r, d) := readi dp off (Z.of_nat sizeof_dirent) in
  if negb (r =? Z.of_nat sizeof_dirent) then panic msg else ret (get_dirent d).

(** The inode of the entry and its offset. *)
Definition dirlookup (dp : nat) (name : list Z) : MK (option (nat * Z)) :=
  let! i := inode_at dp in
  if negb (i_type i =? T_DIR) then panic "dirlookup not DIR"
  else
    loop (Z.to_nat (i_size i / Z.of_nat sizeof_dirent) + 2) (fun off =>
      let! i := inode_at dp in
      if negb (off <? i_size i) then ret (inr None)
      else
        let! de := read_dirent dp off "dirlookup read" in
        if de_inum de =? 0 then ret (inl (off + Z.of_nat sizeof_dirent))
        else
          let! c := deref (namecmp name (de_name de)) in
          if c =? 0 then
            let! i := inode_at dp in
            let! ip := iget (i_dev i) (de_inum de) in
            ret (inr (Some (ip, off)))
          else ret (inl (off + Z.of_nat sizeof_dirent))) 0.

(** The search of [dirlink] for an empty entry. *)
Definition empty_dirent (dp : nat) : MK Z :=
  let! i := inode_at dp in
  loop (Z.to_nat (i_size i / Z.of_nat sizeof_dirent) + 2) (fun off =>
    let! i := inode_at dp in
    if negb (off <? i_size i) then ret (inr off)
    else
      let! de := read_dirent dp off "dirlink read" in
      if de_inum de =? 0 then ret (inr off) else ret (inl (off + Z.of_nat sizeof_dirent))) 0.

Definition dirlink (dp : nat) (name : list Z) (inum : Z) : MK Z :=
  let! r := dirlookup dp name in
  match r with
  | Some (ip, _) => iput ip ;;; ret (-1)
  | None =>
      let! off := empty_dirent dp in
      let! nm := deref (strncpy name DIRSIZ) in
      let! r := writei dp (put_dirent (mkDe (u16 inum) nm)) off in
      if negb (r =? Z.of_nat sizeof_dirent) then panic "dirlink" else ret 0
  end.

(** The inode and the contents of the [name] array. *)
Definition namex (path : list Z) (nameiparent : bool) (name : list Z) : MK (option nat * list Z) :=
  let! c := deref (head path) in
  let! ip :=
    (if c =? slash then iget ROOTDEV ROOTINO
     else
       let! me := myproc in
       let! j := deref me in
       let! p := proc_at j in
       let! cwd := deref (p_cwd p) in
       idup cwd) in
  loop (length path + 2) (fun st => let '(ip, path, name) := st in
    let! e := deref (skipelem path name) in
    match e with
    | None =>
        if nameiparent then iput ip ;;; ret (inr (None, name)) else ret (inr (Some ip, name))
    | Some (path, name) =>
        ilock (Some ip) ;;;
        let! i := inode_at ip in
        if negb (i_type i =? T_DIR) then iunlockput ip ;;; ret (inr (None, name))
        else
          let! c := deref (head path) in
          if nameiparent && (c =? 0) then iunlock (Some ip) ;;; ret (inr (Some ip, name))
          else
            let! r := dirlookup ip name in
            match r with
            | None => iunlockput ip ;;; ret (inr (None, name))
            | Some (next, _) => iunlockput ip ;;; ret (inl (next, path, name))
            end
    end) (ip, path, name).

Definition namei (path : list Z) : MK (option nat) :=
  let! '(ip, _) := namex path false (replicate DIRSIZ 0) in ret ip.

Definition nameiparent (path name : list Z) : MK (option nat * list Z) := namex path true name.

End fs_c.

(** ** The free map *)

Lemma land_bit x j : 0 <= j -> negb (Z.land x (Z.shiftl 1 j) =? 0) = Z.testbit x j.
Proof.
  intros Hj. rewrite Z.shiftl_1_l. destruct (Z.testbit x j) eqn:Hx.
  - apply negb_true_iff, Z.eqb_neq. intros H0.
    assert (Hb : Z.testbit (Z.land x (2 ^ j)) j = true) by (by rewrite Z.land_spec, Hx, Z.pow2_bits_true).
    rewrite H0, Z.bits_0 in Hb. done.
  - apply negb_false_iff, Z.eqb_eq. apply Z.bits_inj'. intros n Hn.
    rewrite Z.land_spec, Z.bits_0, Z.pow2_bits_eqb by done.
    destruct (Z.eqb_spec j n) as [<-|]; [by rewrite Hx|by rewrite andb_false_r].
Qed.

Lemma map_bit_testbit d bi : map_bit d bi = Z.testbit (default 0 (d !! (bi / 8)%nat)) (Z.of_nat (bi mod 8)).
Proof. unfold map_bit. apply land_bit. lia. Qed.

Lemma testbit_u8 x j : 0 <= j < 8 -> Z.testbit (u8 x) j = Z.testbit x j.
Proof. intros Hj. unfold u8. change 256 with (2 ^ 8). apply Z.mod_pow2_bits_low; lia. Qed.

Lemma index_split bi bj : (bi / 8 = bj / 8)%nat -> (bi mod 8 = bj mod 8)%nat -> bi = bj.
Proof. intros H1 H2. rewrite (Nat.div_mod bi 8), (Nat.div_mod bj 8) by lia. lia. Qed.

Lemma map_bit_set d bi bj :
  (bi / 8 < length d)%nat -> map_bit (set_map_bit bi d) bj = bool_decide (bi = bj) || map_bit d bj.
Proof.
  intros Hl. rewrite !map_bit_testbit. unfold set_map_bit.
  destruct (decide (bi / 8 = bj / 8)%nat) as [Heq|Hne].
  - rewrite <- Heq, list_lookup_alter_eq. destruct (lookup_lt_is_Some_2 d (bi / 8)%nat Hl) as [x ->]. cbn -[Nat.modulo Nat.div].
    pose proof (Nat.mod_upper_bound bj 8). rewrite testbit_u8, Z.lor_spec, Z.shiftl_1_l, Z.pow2_bits_eqb by lia.
    case_bool_decide as Hb; [subst bj; rewrite Z.eqb_refl; by rewrite orb_true_r|].
    destruct (Z.eqb_spec (Z.of_nat (bi mod 8)) (Z.of_nat (bj mod 8))) as [He|]; [|by rewrite orb_false_r].
    exfalso. apply Hb, index_split; [done|lia].
  - rewrite list_lookup_alter_ne by done. rewrite bool_decide_eq_false_2 by congruence. done.
Qed.

Lemma map_bit_clear d bi bj :
  (bi / 8 < length d)%nat -> map_bit (clear_map_bit bi d) bj = negb (bool_decide (bi = bj)) && map_bit d bj.
Proof.
  intros Hl. rewrite !map_bit_testbit. unfold clear_map_bit.
  destruct (decide (bi / 8 = bj / 8)%nat) as [Heq|Hne].
  - rewrite <- Heq, list_lookup_alter_eq. destruct (lookup_lt_is_Some_2 d (bi / 8)%nat Hl) as [x ->]. cbn -[Nat.modulo Nat.div].
    pose proof (Nat.mod_upper_bound bj 8).
    rewrite testbit_u8, Z.land_spec, Z.lnot_spec, Z.shiftl_1_l, Z.pow2_bits_eqb by lia.
    case_bool_decide as Hb; [subst bj; rewrite Z.eqb_refl; by rewrite andb_false_r|].
    destruct (Z.eqb_spec (Z.of_nat (bi mod 8)) (Z.of_nat (bj mod 8))) as [He|]; [|by rewrite andb_true_r].
    exfalso. apply Hb, index_split; [done|lia].
  - rewrite list_lookup_alter_ne by done. rewrite bool_decide_eq_false_2 by congruence. done.
Qed.

(** [find_free] finds the least clear bit of the range. *)
Lemma find_free_spec d b size fuel : forall bi r,
  find_free fuel d b size bi = Some r ->
  (bi <= r)%nat /\ Z.of_nat r < BPB /\ b + Z.of_nat r < size /\ map_bit d r = false /\
  forall j, (bi <= j < r)%nat -> map_bit d j = true.
Proof.
  induction fuel as [|fuel IH]; intros bi r; [done|]. cbn [find_free].
  destruct (Z.ltb_spec (Z.of_nat bi) BPB); [|done]. destruct (Z.ltb_spec (b + Z.of_nat bi) size); [|done].
  destruct (map_bit d bi) eqn:Hb.
  - intros (H1 & H2 & H3 & H4 & H5)%IH. split; [lia|]. do 3 (split; [done|]). intros j Hj.
    destruct (decide (j = bi)) as [->|]; [done|]. apply H5. lia.
  - intros [= <-]. split; [lia|]. do 3 (split; [done|]). intros j Hj. lia.
Qed.

Lemma find_free_none d b size fuel : forall bi,
  find_free fuel d b size bi = None -> (Z.to_nat BPB <= bi + fuel)%nat ->
  forall j, (bi <= j)%nat -> Z.of_nat j < BPB -> b + Z.of_nat j < size -> map_bit d j = true.
Proof.
  unfold BPB. induction fuel as [|fuel IH]; intros bi Hn Hf j Hj HB Hs; [lia|]. cbn [find_free] in Hn. unfold BPB in Hn.
  destruct (Z.ltb_spec (Z.of_nat bi) 4096); [|lia]. destruct (Z.ltb_spec (b + Z.of_nat bi) size); [|lia].
  destruct (map_bit d bi) eqn:Hb; [|done]. destruct (decide (j = bi)) as [->|]; [done|].
  eapply IH; [exact Hn|lia..].
Qed.

(** ** Changing a block inside an operation *)

Section op.
Context `{BC : BlockCache} (m : machine) (co : console) (me : nat) (pid : Z).

(** An operation in progress: [bs] are the blocks of the transaction, [hm] the locked buffers, and the log has
    room for [r] more blocks and the cache for [q] more buffers. *)
Record in_op (k : kst) (hm : gmap nat Z) (view : Z -> list Z) (bs : list Z) (r q : nat) : Prop := {
  op_blk : blk k pid hm (list_to_set bs) view;
  op_log : log_wf (k_log k) (Z.of_nat (length (k_disk k))) bs;
  op_out : 1 <= l_outstanding (k_log k);
  op_room : Z.of_nat (length bs + r) < l_size (k_log k);
  op_bufs : (size hm + length bs + q < NBUF)%nat;
}.

(** Only the header of the log differs. *)
Definition same_head (l l' : log) : Prop := l' = l <| l_lh := l_lh l' |>.

Lemma same_head_refl l : same_head l l.
Proof. by destruct l. Qed.

Lemma same_head_trans l1 l2 l3 : same_head l1 l2 -> same_head l2 l3 -> same_head l1 l3.
Proof. unfold same_head. intros H1 H2. rewrite H2. rewrite H1 at 1. done. Qed.

Lemma same_head_proj l l' : same_head l l' ->
  l_start l' = l_start l /\ l_size l' = l_size l /\ l_outstanding l' = l_outstanding l /\ l_committing l' = l_committing l.
Proof. intros Hl. by rewrite Hl. Qed.

Definition fs_frame (k k' : kst) : Prop := exists l, wrote [] l k k' /\ same_head (k_log k) l.

Lemma fs_frame_refl k k' : uncached k' = uncached k -> fs_frame k k'.
Proof. intros Hk. exists (k_log k). split; [by apply wrote_same|apply same_head_refl]. Qed.

Lemma fs_frame_trans k1 k2 k3 : fs_frame k1 k2 -> fs_frame k2 k3 -> fs_frame k1 k3.
Proof.
  intros (l1 & W1 & A1) (l2 & W2 & A2). exists l2.
  split; [exact (wrote_trans _ _ _ _ _ _ _ W1 W2)|]. destruct (wrote_proj _ _ _ _ W1) as (_ & _ & He).
  rewrite He in A2. by eapply same_head_trans.
Qed.

Lemma fs_frame_disk k k' : fs_frame k k' -> k_disk k' = k_disk k.
Proof. intros (l & Hw & _). by destruct (wrote_proj _ _ _ _ Hw) as (-> & _). Qed.

Lemma fs_frame_home k k' nd n : fs_frame k k' -> home (k_log k') nd n <-> home (k_log k) nd n.
Proof.
  intros (l & Hw & A). destruct (wrote_proj _ _ _ _ Hw) as (_ & _ & ->). destruct (same_head_proj _ _ A) as (B & C & _). unfold home. by rewrite B, C.
Qed.

Lemma log_added_frame l bs n : same_head l (log_added l bs n).
Proof. unfold log_added. by case_decide; destruct l. Qed.

Lemma log_add_length bs n : (length bs <= length (log_add bs n) <= length bs + 1)%nat.
Proof. unfold log_add. case_decide; [lia|rewrite length_app; cbn; lia]. Qed.

Lemma log_add_set bs n : (list_to_set (log_add bs n) : gset Z) = {[n]} ∪ list_to_set bs.
Proof. unfold log_add. case_decide; set_solver. Qed.

(** Write back a locked block: [log_write] and [brelse] after its contents were changed by [f]. *)
Lemma wp_update_block p k hm view bs r q i n f (Q : unit -> world kst -> Prop) :
  running m p me pid -> in_op k hm view bs (Datatypes.S r) q -> hm !! i = Some n ->
  home (k_log k) (Z.of_nat (length (k_disk k))) n -> length (f (view n)) = BSIZE ->
  (forall p' k', running m p' me pid ->
     in_op k' (delete i hm) (<[n := f (view n)]> view) (log_add bs n) r q -> fs_frame k k' ->
     Q tt (W (held m []) co p' k')) ->
  wp (set_data i f ;;; log_write i ;;; brelse i) Q (W (held m []) co p k).
Proof.
  intros Hrun [Hb Hl Ho Hr Hbuf] Hi Hn Hf HQ.
  kstep. eapply blk_set; [exact Hb|exact Hi|exact Hf|]. intros k1 Hb1 Hk1.
  assert (Hl1 : k_log k1 = k_log k) by exact (f_equal k_log Hk1).
  assert (Hd1 : k_disk k1 = k_disk k) by exact (f_equal k_disk Hk1).
  kstep. eapply wp_log_write; rewrite ?Hl1, ?Hd1; [exact Hrun|exact Hb1|exact Hi|exact Hl|exact Hn| |exact Ho|].
  { rewrite (lw_n _ _ _ Hl). lia. }
  intros k2 Hb2 Hw2 Hl2. rewrite <- log_add_set in Hb2.
  eapply blk_brelse; [exact Hrun|exact Hb2|exact Hi| |].
  { left. rewrite log_add_set. set_solver. }
  intros p' k3 Hrun3 Hb3 Hk3.
  destruct (wrote_proj _ _ _ _ Hw2) as (Hd2 & _ & Hlog2). cbn in Hd2.
  assert (Hl3 : k_log k3 = log_added (k_log k) bs n) by (rewrite <- Hlog2; exact (f_equal k_log Hk3)).
  assert (Hd3 : k_disk k3 = k_disk k) by (rewrite <- Hd1, <- Hd2; exact (f_equal k_disk Hk3)).
  destruct (same_head_proj _ _ (log_added_frame (k_log k) bs n)) as (A & B & C & _). pose proof (log_add_length bs n).
  apply HQ; [done| |].
  - split; [done|rewrite Hl3, <- Hlog2, Hd3; exact Hl2|rewrite Hl3; lia|rewrite Hl3; lia|].
    pose proof (map_size_delete_Some i hm (mk_is_Some _ _ Hi)).
    assert (0 < size hm)%nat by (destruct (decide (size hm = 0)%nat) as [He|]; [apply map_size_empty_iff in He; by rewrite He in Hi|lia]).
    lia.
  - exists (log_added (k_log k) bs n). split; [|apply log_added_frame]. unfold wrote in *. by rewrite Hk3, Hw2, Hk1.
Qed.

(** The same followed by [rest]. *)
Lemma wp_update_then {A} p k hm view bs r q i n f (rest : MK A) (Q : A -> world kst -> Prop) :
  running m p me pid -> in_op k hm view bs (Datatypes.S r) q -> hm !! i = Some n ->
  home (k_log k) (Z.of_nat (length (k_disk k))) n -> length (f (view n)) = BSIZE ->
  (forall p' k', running m p' me pid ->
     in_op k' (delete i hm) (<[n := f (view n)]> view) (log_add bs n) r q -> fs_frame k k' ->
     wp rest Q (W (held m []) co p' k')) ->
  wp (set_data i f ;;; log_write i ;;; brelse i ;;; rest) Q (W (held m []) co p k).
Proof.
  intros Hrun Hop Hi Hn Hf HQ.
  assert (Hwp : wp (set_data i f ;;; log_write i ;;; brelse i) (fun _ w => wp rest Q w) (W (held m []) co p k))
    by by eapply wp_update_block.
  apply wp_bind_inv in Hwp. apply wp_bind. eapply wp_mono; [exact Hwp|]. intros [] w1 Hw1.
  apply wp_bind_inv in Hw1. apply wp_bind. eapply wp_mono; [exact Hw1|]. intros [] w2 Hw2.
  apply wp_bind. eapply wp_mono; [exact Hw2|]. done.
Qed.

(** Locking a block that is not locked yet. *)
Lemma wp_op_bread p k hm view bs r q n (Q : nat -> world kst -> Prop) :
  running m p me pid -> in_op k hm view bs r (Datatypes.S q) -> 0 <= n < Z.of_nat (length (k_disk k)) ->
  (forall i, hm !! i ≠ Some n) ->
  (forall i k', hm !! i = None -> in_op k' (<[i := n]> hm) view bs r q -> fs_frame k k' ->
     Q i (W (held m []) co p k')) ->
  wp (bread 1 n) Q (W (held m []) co p k).
Proof.
  intros Hrun [Hb Hl Ho Hr Hbuf] Hn Hne HQ.
  assert (Hsz : (size (list_to_set bs : gset Z) = length bs)%nat) by (apply size_list_to_set, Hl).
  eapply blk_bread; [exact Hrun|exact Hb|right; rewrite Hsz; lia|done|done|].
  intros i k' Hi Hb' Hk'. apply HQ; [done| |by apply fs_frame_refl].
  split; [done| | | |].
  - by rewrite (f_equal k_log Hk' : k_log k' = k_log k), (f_equal k_disk Hk' : k_disk k' = k_disk k).
  - by rewrite (f_equal k_log Hk' : k_log k' = k_log k).
  - rewrite (f_equal k_log Hk' : k_log k' = k_log k). lia.
  - rewrite map_size_insert_None by done. lia.
Qed.

Lemma wp_bzero p k hm view bs r q n (Q : unit -> world kst -> Prop) :
  running m p me pid -> in_op k hm view bs (Datatypes.S r) (Datatypes.S q) -> home (k_log k) (Z.of_nat (length (k_disk k))) n ->
  (forall i, hm !! i ≠ Some n) ->
  (forall p' k', running m p' me pid -> in_op k' hm (<[n := replicate BSIZE 0]> view) (log_add bs n) r q ->
     fs_frame k k' -> Q tt (W (held m []) co p' k')) ->
  wp (bzero 1 n) Q (W (held m []) co p k).
Proof.
  intros Hrun Hop Hn Hne HQ. unfold bzero. kstep.
  eapply (wp_op_bread p k hm view bs (Datatypes.S r) q); [done|done|apply Hn|done|].
  intros i k1 Hi Hop1 Hf1.
  eapply (wp_update_block p k1 (<[i := n]> hm) view bs r q i n); [done|done|apply lookup_insert_eq| |by rewrite length_replicate|].
  { rewrite (fs_frame_disk _ _ Hf1). by apply (fs_frame_home _ _ _ _ Hf1). }
  intros p' k2 Hrun2 Hop2 Hf2. rewrite delete_insert_id in Hop2 by done.
  apply HQ; [done|done|by eapply fs_frame_trans].
Qed.

(** The free map is one block, as on a disk of at most [BPB] blocks. *)
Record map_ok (k : kst) (view : Z -> list Z) : Prop := {
  mo_size : 0 < sb_size (k_sb k) <= BPB;
  mo_block : home (k_log k) (Z.of_nat (length (k_disk k))) (sb_bmapstart (k_sb k));
  mo_u32 : is_u32 (sb_bmapstart (k_sb k));
}.

Lemma BBLOCK_one k view b : map_ok k view -> 0 <= b < BPB -> u32 (BBLOCK b (k_sb k)) = sb_bmapstart (k_sb k).
Proof. intros Hm Hb. unfold BBLOCK, BPB in *. rewrite Z.div_small by lia. apply u32_id, Hm. Qed.

Lemma fs_frame_sb k k' : fs_frame k k' -> k_sb k' = k_sb k.
Proof. intros (l & Hw & _). unfold wrote in Hw. apply (f_equal k_sb) in Hw. exact Hw. Qed.

Lemma op_view_size k hm view bs r q n :
  in_op k hm view bs r q -> 0 <= n < Z.of_nat (length (k_disk k)) -> length (view n) = BSIZE.
Proof. intros Hop. apply (blk_size _ _ _ _ _ _ (op_blk _ _ _ _ _ _ Hop)). Qed.

(** [balloc] with a free block: the least one is marked and zeroed. *)
Lemma wp_balloc p k hm view bs r q bi (Q : Z -> world kst -> Prop) :
  running m p me pid -> in_op k hm view bs (Datatypes.S (Datatypes.S r)) (Datatypes.S (Datatypes.S q)) -> map_ok k view ->
  (let bm := sb_bmapstart (k_sb k) in
   find_free (Z.to_nat BPB) (view bm) 0 (sb_size (k_sb k)) 0 = Some bi ->
   home (k_log k) (Z.of_nat (length (k_disk k))) (Z.of_nat bi) ->
   (forall i, hm !! i ≠ Some bm) -> (forall i, hm !! i ≠ Some (Z.of_nat bi)) ->
   (forall p' k', running m p' me pid ->
      in_op k' hm (<[Z.of_nat bi := replicate BSIZE 0]> (<[bm := set_map_bit bi (view bm)]> view))
        (log_add (log_add bs bm) (Z.of_nat bi)) r q -> fs_frame k k' ->
      Q (Z.of_nat bi) (W (held m []) co p' k')) ->
   wp (balloc 1) Q (W (held m []) co p k)).
Proof.
  intros Hrun Hop Hm bm Hfree Hhome Hh1 Hh2 HQ.
  destruct (find_free_spec _ _ _ _ _ _ Hfree) as (_ & HB & Hs & _). rewrite Z.add_0_l in Hs. unfold BPB in HB.
  pose proof (mo_size _ _ Hm) as Hsize. pose proof (mo_block _ _ Hm) as Hbm. fold bm in Hbm.
  unfold balloc, get_sb. ksteps. rewrite Nat.add_comm. cbn [Nat.add loop]. kstep. unfold get_sb. ksteps.
  destruct (Z.ltb_spec 0 (sb_size (k_sb k))); [|lia]. cbn [negb].
  rewrite (BBLOCK_one k view 0 Hm) by (unfold BPB; lia). fold bm. kstep.
  eapply (wp_op_bread p k hm view bs _ (Datatypes.S q)); [done|done|apply Hbm|done|].
  intros i k1 Hi Hop1 Hf1. kstep.
  eapply (blk_get _ _ _ _ _ k1); [done|apply (op_blk _ _ _ _ _ _ Hop1)|apply lookup_insert_eq|].
  intros x _ Hx. rewrite Hx, Hfree.
  eapply (wp_update_then p k1 (<[i := bm]> hm) view bs (Datatypes.S r) _ i bm); [done|done|apply lookup_insert_eq| | |].
  { rewrite (fs_frame_disk _ _ Hf1). by apply (fs_frame_home _ _ _ _ Hf1). }
  { unfold set_map_bit. rewrite length_alter. by apply (op_view_size _ _ _ _ _ _ _ Hop), Hbm. }
  intros p2 k2 Hrun2 Hop2 Hf2. rewrite delete_insert_id in Hop2 by done.
  rewrite Z.add_0_l, u32_id by (unfold is_u32; lia).
  assert (Hf02 : fs_frame k k2) by by eapply fs_frame_trans.
  kstep. eapply (wp_bzero p2 k2 hm _ _ r q); [done|exact Hop2| |done|].
  { rewrite (fs_frame_disk _ _ Hf02). by apply (fs_frame_home _ _ _ _ Hf02). }
  intros p3 k3 Hrun3 Hop3 Hf3. kstep. kstep. apply HQ; [done|done|by eapply fs_frame_trans].
Qed.

(** [bfree] of a block in use. *)
Lemma wp_bfree p k hm view bs r q b (Q : unit -> world kst -> Prop) :
  running m p me pid -> in_op k hm view bs (Datatypes.S r) (Datatypes.S q) -> map_ok k view ->
  (let bm := sb_bmapstart (k_sb k) in
   0 <= b < BPB -> map_bit (view bm) (Z.to_nat b) = true -> (forall i, hm !! i ≠ Some bm) ->
   (forall p' k', running m p' me pid ->
      in_op k' hm (<[bm := clear_map_bit (Z.to_nat b) (view bm)]> view) (log_add bs bm) r q -> fs_frame k k' ->
      Q tt (W (held m []) co p' k')) ->
   wp (bfree 1 b) Q (W (held m []) co p k)).
Proof.
  intros Hrun Hop Hm bm Hb Hbit Hh HQ. pose proof (mo_block _ _ Hm) as Hbm. fold bm in Hbm.
  unfold bfree, get_sb. ksteps. rewrite (BBLOCK_one k view b Hm) by done. fold bm.
  eapply (wp_op_bread p k hm view bs _ q); [done|done|apply Hbm|done|]. intros i k1 Hi Hop1 Hf1.
  kstep. eapply (blk_get _ _ _ _ _ k1); [done|apply (op_blk _ _ _ _ _ _ Hop1)|apply lookup_insert_eq|].
  intros x _ Hx. rewrite Hx, Z.mod_small, Hbit by done. cbn [negb].
  eapply (wp_update_block p k1 (<[i := bm]> hm) view bs r q i bm); [done|done|apply lookup_insert_eq| | |].
  { rewrite (fs_frame_disk _ _ Hf1). by apply (fs_frame_home _ _ _ _ Hf1). }
  { unfold clear_map_bit. rewrite length_alter. by apply (op_view_size _ _ _ _ _ _ _ Hop), Hbm. }
  intros p2 k2 Hrun2 Hop2 Hf2. rewrite delete_insert_id in Hop2 by done.
  apply HQ; [done|done|by eapply fs_frame_trans].
Qed.

End op.

(** ** File contents *)

(** The disk block that holds block [bn] of the file, when there is one. *)
Definition block_addr (view : Z -> list Z) (i : inode) (bn : Z) : option Z :=
  if bn <? Z.of_nat NDIRECT then
    a ← i_addrs i !! Z.to_nat bn; if a =? 0 then None else Some a
  else if bn - Z.of_nat NDIRECT <? Z.of_nat NINDIRECT then
    ind ← i_addrs i !! NDIRECT;
    if ind =? 0 then None
    else
      let a := get32 (4 * Z.to_nat (bn - Z.of_nat NDIRECT)) (view ind) in
      if a =? 0 then None else Some a
  else None.

Definition file_byte (view : Z -> list Z) (i : inode) (pos : Z) : Z :=
  default 0 (view (default 0 (block_addr view i (pos / Z.of_nat BSIZE))) !! Z.to_nat (pos mod Z.of_nat BSIZE)).

(** The [n] bytes of the file from [off] on. *)
Definition file_bytes (view : Z -> list Z) (i : inode) (off : Z) (n : nat) : list Z :=
  (fun j => file_byte view i (off + Z.of_nat j)) <$> seq 0 n.

Lemma file_bytes_app view i off n m :
  file_bytes view i off (n + m) = file_bytes view i off n ++ file_bytes view i (off + Z.of_nat n) m.
Proof.
  unfold file_bytes. rewrite seq_app, fmap_app. f_equal. apply list_eq. intros j. rewrite !list_lookup_fmap.
  destruct (decide (j < m)%nat).
  - rewrite !lookup_seq_lt by done. cbn. do 2 f_equal. lia.
  - by rewrite !lookup_seq_ge by lia.
Qed.

(** The bytes of one block. *)
Lemma file_bytes_block view i o m a :
  0 <= o -> block_addr view i (o / 512) = Some a -> length (view a) = 512%nat -> o mod 512 + Z.of_nat m <= 512 ->
  rd (Z.to_nat (o mod 512)) m (view a) = file_bytes view i o m.
Proof.
  intros Ho Ha Hl Hm. pose proof (Z.mod_pos_bound o 512). apply list_eq. intros j. unfold rd, file_bytes.
  rewrite list_lookup_fmap. destruct (decide (j < m)%nat) as [Hj|Hj].
  - rewrite lookup_take_lt, lookup_drop, lookup_seq_lt by done. cbn -[Z.mul Z.div Z.modulo Z.to_nat].
    destruct (lookup_lt_is_Some_2 (view a) (Z.to_nat (o mod 512) + j)%nat) as [x Hx]; [lia|]. rewrite Hx. f_equal.
    unfold file_byte. change (Z.of_nat BSIZE) with 512.
    assert (Hdm : o + Z.of_nat j = o mod 512 + Z.of_nat j + o / 512 * 512) by (pose proof (Z.div_mod o 512); lia).
    assert (Hq : (o + Z.of_nat j) / 512 = o / 512) by (rewrite Hdm, Z.div_add, Z.div_small by lia; lia).
    assert (Hr : (o + Z.of_nat j) mod 512 = o mod 512 + Z.of_nat j) by (rewrite Hdm, Z.mod_add, Z.mod_small by lia; lia).
    rewrite Hq, Hr, Ha. cbn -[Z.to_nat]. replace (Z.to_nat (o mod 512 + Z.of_nat j)) with (Z.to_nat (o mod 512) + j)%nat by lia.
    by rewrite Hx.
  - rewrite lookup_take_ge, lookup_seq_ge by lia. done.
Qed.

(** Turns of the loop from [o] to the end [e]. *)
Definition turns (o e : Z) : nat := if decide (o < e) then Z.to_nat ((e - 1) / 512 - o / 512) + 1 else 0.

Lemma turns_step o e :
  0 <= o < e -> let m := chunk o (e - o) in
  0 < m <= e - o /\ o mod 512 + m <= 512 /\ (turns (o + m) e < turns o e)%nat.
Proof.
  intros Ho m. unfold m, chunk, turns. change (Z.of_nat BSIZE) with 512.
  pose proof (Z.mod_pos_bound o 512). pose proof (Z.div_mod o 512).
  split; [lia|]. split; [lia|]. rewrite (decide_True (P := o < e)) by lia. case_decide as Hlt; [|lia].
  assert (Hm : Z.min (e - o) (512 - o mod 512) = 512 - o mod 512) by lia. rewrite Hm in *.
  replace (o + (512 - o mod 512)) with ((o / 512 + 1) * 512) in * by lia. rewrite Z.div_mul by lia.
  assert (o / 512 + 1 <= (e - 1) / 512) by (apply Z.div_le_lower_bound; lia). lia.
Qed.

Lemma turns_start off n : 0 <= off -> 0 <= n -> (turns off (off + n) < Z.to_nat (n / Z.of_nat BSIZE) + 3)%nat.
Proof.
  intros Ho Hn. unfold turns. change (Z.of_nat BSIZE) with 512. case_decide; [|lia].
  assert (Hd : (off + n - 1) / 512 <= off / 512 + n / 512 + 1).
  { apply Z.lt_succ_r. apply Z.div_lt_upper_bound; [lia|]. pose proof (Z.div_mod off 512). pose proof (Z.div_mod n 512).
    pose proof (Z.mod_pos_bound off 512). pose proof (Z.mod_pos_bound n 512). lia. }
  assert (0 <= n / 512) by (apply Z.div_pos; lia).
  assert (off / 512 <= (off + n - 1) / 512) by (apply Z.div_le_mono; lia). lia.
Qed.

Section read.
Context `{BC : BlockCache} `{Dev : Devices} (m : machine) (co : console) (me : nat) (pid : Z).
Context (k0 : kst) (hm : gmap nat Z) (dt : gset Z) (view : Z -> list Z).
Context (Hroom : (size hm + size dt < NBUF)%nat).

(** Reading changes nothing but the cache. *)
Definition same (k : kst) : Prop := blk k pid hm dt view /\ uncached k = uncached k0.

Lemma same_inodes k : same k -> k_inodes k = k_inodes k0 /\ k_disk k = k_disk k0 /\ k_sb k = k_sb k0.
Proof.
  intros [_ Hk]. split; [exact (f_equal k_inodes Hk)|]. split; [exact (f_equal k_disk Hk)|exact (f_equal k_sb Hk)].
Qed.

(** A block that can be read: on the disk and not locked by us. *)
Definition readable (n : Z) : Prop := 0 <= n < Z.of_nat (length (k_disk k0)) /\ forall i, hm !! i ≠ Some n.

Lemma wp_with_block {A} p k n (body : nat -> MK A) (Q : A -> world kst -> Prop) :
  running m p me pid -> same k -> readable n ->
  (forall i k1, same k -> blk k1 pid (<[i := n]> hm) dt view -> uncached k1 = uncached k0 -> hm !! i = None ->
     n ∈ dt \/ k_disk k1 !! Z.to_nat n = Some (view n) -> wp (body i) Q (W (held m []) co p k1)) ->
  wp (let! i := bread 1 n in body i) Q (W (held m []) co p k).
Proof.
  intros Hrun Hs [Hr Hn] HQ. destruct (same_inodes k Hs) as (_ & Hd & _). pose proof Hs as [Hb Hk].
  kstep. eapply blk_bread; [exact Hrun|exact Hb|by right|by rewrite Hd|done|].
  intros i k1 Hi Hb1 Hk1. apply HQ; [done|done|by rewrite Hk1|done|].
  destruct (decide (n ∈ dt)); [by left|right]. rewrite (f_equal k_disk Hk1 : k_disk k1 = k_disk k).
  apply (blk_clean _ _ _ _ _ _ Hb); [by rewrite Hd|done|done].
Qed.

Lemma wp_release_block p k1 i n (Q : unit -> world kst -> Prop) :
  running m p me pid -> blk k1 pid (<[i := n]> hm) dt view -> uncached k1 = uncached k0 -> hm !! i = None ->
  n ∈ dt \/ k_disk k1 !! Z.to_nat n = Some (view n) ->
  (forall p' k', running m p' me pid -> same k' -> Q tt (W (held m []) co p' k')) ->
  wp (brelse i) Q (W (held m []) co p k1).
Proof.
  intros Hrun Hb Hk Hi Hc HQ. eapply blk_brelse; [exact Hrun|exact Hb|apply lookup_insert_eq|exact Hc|].
  intros p' k' Hrun' Hb' Hk'. rewrite delete_insert_id in Hb' by done.
  apply HQ; [done|]. split; [done|by rewrite Hk'].
Qed.

Context (ip : nat) (i : inode) (Hi : k_inodes k0 !! ip = Some i) (Hdev : i_dev i = 1).

Lemma wp_inode_at k p m' co' (Q : inode -> world kst -> Prop) :
  same k -> Q i (W m' co' p k) -> wp (inode_at ip) Q (W m' co' p k).
Proof.
  intros Hs HQ. unfold inode_at. ksteps. destruct (same_inodes k Hs) as (-> & _). by rewrite Hi.
Qed.

Lemma wp_inode_at' k p m' co' (Q : inode -> world kst -> Prop) :
  uncached k = uncached k0 -> Q i (W m' co' p k) -> wp (inode_at ip) Q (W m' co' p k).
Proof.
  intros Hs HQ. unfold inode_at. ksteps. rewrite (f_equal k_inodes Hs : k_inodes k = k_inodes k0). by rewrite Hi.
Qed.

Lemma wp_bmap_mapped p k bn a (Q : Z -> world kst -> Prop) :
  running m p me pid -> same k -> 0 <= bn -> block_addr view i bn = Some a ->
  (Z.of_nat NDIRECT <= bn -> forall ind, i_addrs i !! NDIRECT = Some ind -> readable ind) ->
  (forall p' k', running m p' me pid -> same k' -> Q a (W (held m []) co p' k')) ->
  wp (bmap ip bn) Q (W (held m []) co p k).
Proof.
  intros Hrun Hs Hbn Ha Hind HQ. unfold bmap, block_addr in *. destruct (Z.ltb_spec bn (Z.of_nat NDIRECT)).
  - destruct (i_addrs i !! Z.to_nat bn) as [a0|] eqn:Ha0; [|done]. cbn in Ha.
    destruct (Z.eqb_spec a0 0) as [|Hne]; [done|]. injection Ha as ->.
    unfold addr_or_alloc. kstep. apply wp_inode_at; [done|]. rewrite Ha0. ksteps.
    rewrite (proj2 (Z.eqb_neq a 0)) by done. kstep. by apply HQ.
  - destruct (_ <? _); [|done]. destruct (i_addrs i !! NDIRECT) as [ind|] eqn:Hi0; [|done]. cbn -[Z.mul Nat.mul] in Ha.
    destruct (Z.eqb_spec ind 0) as [|Hne]; [done|]. set (v := get32 (4 * Z.to_nat (bn - Z.of_nat NDIRECT)) (view ind)) in *.
    destruct (Z.eqb_spec v 0) as [|Hne']; [done|]. injection Ha as <-. unfold addr_or_alloc. kstep. kstep. apply wp_inode_at; [done|]. rewrite Hi0. ksteps.
    rewrite (proj2 (Z.eqb_neq ind 0)) by done. ksteps. apply wp_inode_at; [done|]. rewrite Hdev.
    apply wp_with_block; [done|done|by apply Hind|]. intros b k1 _ Hb1 Hk1 Hb Hc.
    kstep. eapply blk_get; [done|exact Hb1|apply lookup_insert_eq|]. intros x _ Hx. rewrite Hx.
    fold v. rewrite (proj2 (Z.eqb_neq v 0)) by done. ksteps.
    eapply wp_release_block; [done|exact Hb1|done|done|exact Hc|]. intros p' k' Hrun' Hs'. kstep. by apply HQ.
Qed.

(** Blocks [lo] to [hi] of the file are on the disk. *)
Definition blocks_ok (lo hi : Z) : Prop :=
  (forall bn, lo <= bn <= hi -> exists a, block_addr view i bn = Some a /\ readable a) /\
  (Z.of_nat NDIRECT <= hi -> forall ind, i_addrs i !! NDIRECT = Some ind -> readable ind).

Lemma wp_readi_loop fuel : forall p k off n tot (Q : list Z -> world kst -> Prop),
  running m p me pid -> same k -> 0 <= off -> 0 <= tot <= n -> (turns (off + tot) (off + n) < fuel)%nat ->
  (tot < n -> blocks_ok ((off + tot) / 512) ((off + n - 1) / 512)) ->
  (forall p' k', running m p' me pid -> same k' ->
     Q (file_bytes view i off (Z.to_nat n)) (W (held m []) co p' k')) ->
  wp (loop fuel (fun st => let '(tot, off, dst) := st in
    if negb (tot <? n) then ret (inr dst)
    else
      let! a := bmap ip (off / Z.of_nat BSIZE) in
      let! i := inode_at ip in
      let! bp := bread (i_dev i) a in
      let m := chunk off (n - tot) in
      let! x := buf_at bp in
      brelse bp ;;;
      ret (inl (tot + m, off + m, dst ++ rd (Z.to_nat (off mod Z.of_nat BSIZE)) (Z.to_nat m) (b_data x))))
    (tot, off + tot, file_bytes view i off (Z.to_nat tot))) Q (W (held m []) co p k).
Proof.
  induction fuel as [|fuel IH]; intros p k off n tot Q Hrun Hs Hoff Htot Hfuel Hok HQ; [lia|]. cbn [loop]. kstep.
  destruct (Z.ltb_spec tot n) as [Hlt|Hge]; cbn [negb].
  2:{ ksteps. replace tot with n by lia. by apply HQ. }
  destruct (Hok Hlt) as [Hblk Hind]. set (o := off + tot) in *. change (Z.of_nat BSIZE) with 512.
  assert (Hle : o / 512 <= (off + n - 1) / 512) by (apply Z.div_le_mono; lia).
  destruct (Hblk (o / 512)) as (a & Ha & Hra); [lia|].
  kstep. eapply wp_bmap_mapped; [done|done|apply Z.div_pos; lia|exact Ha|intros; apply Hind; [lia|done]|].
  intros p1 k1 Hrun1 Hs1. kstep. apply wp_inode_at; [done|]. rewrite Hdev.
  apply wp_with_block; [done|done|done|]. intros bp k2 _ Hb2 Hk2 Hbp Hc.
  kstep. eapply blk_get; [done|exact Hb2|apply lookup_insert_eq|]. intros x _ Hx. rewrite Hx.
  kstep. eapply wp_release_block; [done|exact Hb2|done|done|exact Hc|]. intros p3 k3 Hrun3 Hs3. kstep.
  destruct (turns_step o (off + n)) as (Hm1 & Hm2 & Hm3); [lia|].
  replace (off + n - o) with (n - tot) in * by lia. set (c := chunk o (n - tot)) in *.
  assert (Hview : length (view a) = 512%nat).
  { destruct (same_inodes k1 Hs1) as (_ & Hd & _). apply (blk_size _ _ _ _ _ _ (proj1 Hs1)). rewrite Hd. apply Hra. }
  rewrite (file_bytes_block view i o (Z.to_nat c) a) by (done || lia).
  replace (file_bytes view i off (Z.to_nat tot) ++ file_bytes view i o (Z.to_nat c))
    with (file_bytes view i off (Z.to_nat (tot + c))).
  2:{ replace (Z.to_nat (tot + c)) with (Z.to_nat tot + Z.to_nat c)%nat by lia. rewrite file_bytes_app.
      by rewrite Z2Nat.id by lia. }
  replace (o + c) with (off + (tot + c)) by lia.
  apply (IH p3 k3 off n (tot + c)); [done|done|done|lia| | |done].
  - replace (off + (tot + c)) with (o + c) by lia. lia.
  - intros _. split; [|done]. intros bn Hbn. apply Hblk. split; [|lia]. etransitivity; [|apply Hbn].
    apply Z.div_le_mono; lia.
Qed.

End read.

(** What [readi] stores for an inode, an offset and a count. *)
Definition readi_result (view : Z -> list Z) (i : inode) (off n : Z) : Z * list Z :=
  if decide (i_size i < off) then (-1, [])
  else let r := Z.min n (i_size i - off) in (r, file_bytes view i off (Z.to_nat r)).

Lemma wp_readi `{BC : BlockCache} `{Dev : Devices} m co p me pid k hm dt view ip i off n (Q : Z * list Z -> world kst -> Prop) :
  running m p me pid -> blk k pid hm dt view -> (size hm + size dt < NBUF)%nat ->
  k_inodes k !! ip = Some i -> i_dev i = 1 -> i_type i ≠ T_DEV ->
  0 <= off -> 0 <= n -> off + n < 2 ^ 32 -> is_u32 (i_size i) ->
  blocks_ok k hm view i (off / 512) ((Z.min (i_size i) (off + n) - 1) / 512) ->
  (forall p' k', running m p' me pid -> blk k' pid hm dt view -> uncached k' = uncached k ->
     Q (readi_result view i off n) (W (held m []) co p' k')) ->
  wp (readi ip off n) Q (W (held m []) co p k).
Proof.
  intros Hrun Hb Hroom Hi Hdev Hty Hoff Hn Hov Hsz Hok HQ. unfold is_u32 in Hsz. unfold readi_result in HQ.
  assert (Hs : same pid k hm dt view k) by done.
  unfold readi. kstep. apply (wp_inode_at pid k hm dt view ip i Hi); [done|].
  rewrite (proj2 (Z.eqb_neq _ _) Hty). rewrite u32_id by (unfold is_u32; lia).
  rewrite (proj2 (Z.ltb_ge (off + n) off)) by lia. rewrite orb_false_r.
  destruct (Z.ltb_spec (i_size i) off) as [Hlt|Hge].
  { kstep. rewrite decide_True in HQ by done. by apply HQ. }
  rewrite decide_False in HQ by lia.
  assert (Hr : (if i_size i <? off + n then i_size i - off else n) = Z.min n (i_size i - off))
    by (destruct (Z.ltb_spec (i_size i) (off + n)); lia).
  rewrite Hr. set (r := Z.min n (i_size i - off)) in *. kstep. unfold readi_loop.
  pose proof (wp_readi_loop m co me pid k hm dt view Hroom ip i Hi Hdev
    (Z.to_nat (r / Z.of_nat BSIZE) + 3) p k off r 0 (fun dst w => wp (ret (r, dst)) Q w)) as Hloop.
  rewrite Z.add_0_r in Hloop. apply Hloop; [done|done|done|lia|by apply turns_start; lia| |].
  - intros Hlt. replace (off + r - 1) with (Z.min (i_size i) (off + n) - 1) by lia. exact Hok.
  - intros p' k' Hrun' [Hb' Hk']. kstep. by apply HQ.
Qed.

(** [readi] of a file on the disk returns -1 beyond the end of the file, and otherwise the number of bytes
    there are, up to [n], and exactly these bytes of the file; of the kernel state nothing but the buffer cache changes. *)
Lemma readi_reads `{BC : BlockCache} `{Devices} m co p me pid k hm dt view ip i off n :
  running m p me pid -> blk k pid hm dt view -> (size hm + size dt < NBUF)%nat ->
  k_inodes k !! ip = Some i -> i_dev i = 1 -> i_type i ≠ T_DEV ->
  0 <= off -> 0 <= n -> off + n < 2 ^ 32 -> is_u32 (i_size i) ->
  blocks_ok k hm view i (off / 512) ((Z.min (i_size i) (off + n) - 1) / 512) ->
  exists p' k', readi ip off n (W (held m []) co p k) =
      Ret (readi_result view i off n) (W (held m []) co p' k') /\
    running m p' me pid /\ blk k' pid hm dt view /\ uncached k' = uncached k.
Proof.
  intros Hrun Hb Hroom Hi Hdev Hty Hoff Hn Hov Hsz Hok.
  assert (Hwp : wp (readi ip off n) (fun x w => exists p' k', w = W (held m []) co p' k' /\ running m p' me pid /\
      blk k' pid hm dt view /\ uncached k' = uncached k /\ x = readi_result view i off n) (W (held m []) co p k)).
  { eapply wp_readi; [done..|]. intros p' k' ? ? ?. by exists p', k'. }
  apply wp_elim in Hwp as (x & w & Hr & p' & k' & -> & Hrun' & Hb' & Hk' & ->). by exists p', k'.
Qed.

(** [balloc] returns the lowest block the free map shows free; the map then shows it in use and every other
    block as before, the block is zero, no other block has changed, and both changes are in the transaction. *)
Theorem balloc_spec `{BC : BlockCache} m co p me pid k hm view bs r q bi :
  running m p me pid -> in_op pid k hm view bs (Datatypes.S (Datatypes.S r)) (Datatypes.S (Datatypes.S q)) ->
  map_ok k view ->
  let bm := sb_bmapstart (k_sb k) in
  find_free (Z.to_nat BPB) (view bm) 0 (sb_size (k_sb k)) 0 = Some bi ->
  home (k_log k) (Z.of_nat (length (k_disk k))) (Z.of_nat bi) -> Z.of_nat bi ≠ bm ->
  (forall i, hm !! i ≠ Some bm) -> (forall i, hm !! i ≠ Some (Z.of_nat bi)) ->
  exists p' k' view', balloc 1 (W (held m []) co p k) = Ret (Z.of_nat bi) (W (held m []) co p' k') /\
    running m p' me pid /\ in_op pid k' hm view' (log_add (log_add bs bm) (Z.of_nat bi)) r q /\ fs_frame k k' /\
    map_bit (view bm) bi = false /\ (forall j, (j < bi)%nat -> map_bit (view bm) j = true) /\
    (forall j, map_bit (view' bm) j = bool_decide (bi = j) || map_bit (view bm) j) /\
    view' (Z.of_nat bi) = replicate BSIZE 0 /\
    (forall n, n ≠ bm -> n ≠ Z.of_nat bi -> view' n = view n).
Proof.
  intros Hrun Hop Hm bm Hfree Hhome Hne Hh1 Hh2.
  destruct (find_free_spec _ _ _ _ _ _ Hfree) as (_ & HB & _ & Hbit & Hleast). unfold BPB in HB.
  set (view' := <[Z.of_nat bi := replicate BSIZE 0]> (<[bm := set_map_bit bi (view bm)]> view)).
  assert (Hwp : wp (balloc 1) (fun x w => exists p' k', w = W (held m []) co p' k' /\ running m p' me pid /\
    in_op pid k' hm view' (log_add (log_add bs bm) (Z.of_nat bi)) r q /\ fs_frame k k' /\ x = Z.of_nat bi)
    (W (held m []) co p k)).
  { eapply wp_balloc; [done|exact Hop|exact Hm|exact Hfree|done..|]. intros p' k' ? ? ?. by exists p', k'. }
  apply wp_elim in Hwp as (x & w & Hr & p' & k' & -> & Hrun' & Hop' & Hf & ->).
  exists p', k', view'. do 5 (split; [done|]). split; [intros j Hj; apply Hleast; lia|]. split; [|split].
  - intros j. unfold view'. rewrite fn_lookup_insert_ne, fn_lookup_insert by done. apply map_bit_set.
    rewrite (op_view_size _ _ _ _ _ _ _ _ Hop) by apply (mo_block _ _ Hm). apply Nat.div_lt_upper_bound; [lia|].
    unfold BSIZE. lia.
  - apply fn_lookup_insert.
  - intros n H1 H2. unfold view'. by rewrite !fn_lookup_insert_ne by done.
Qed.

(** ** Examples *)

#[local] Instance ex_devices : Devices := {| dev_read _ _ _ := ret (-1, []); dev_write _ _ _ := ret (-1) |}.

(** A file of 100 bytes in block 5. *)
Definition ex_file_disk : list (list Z) := <[5%nat := replicate BSIZE 65]> ex_disk.
Definition ex_inode : inode := mkInode 1 2 1 sl_zero 1 T_FILE 0 0 1 100 (5 :: replicate 12 0).
Definition ex_fs : kst := ex_cold ex_file_disk <| k_inodes := [ex_inode] |>.

Lemma ex_file_disk_size : Forall (fun blk => length blk = BSIZE) ex_file_disk.
Proof. apply Forall_insert; [apply ex_disk_size|reflexivity]. Qed.

Lemma ex_fs_blk : @blk _ _ (@bio_block_cache 0%nat) ex_fs 4 ∅ ∅ (ex_view ex_file_disk).
Proof.
  apply (@blk_frame _ _ (@bio_block_cache 0%nat) (ex_cold ex_file_disk)); [done..|]. split.
  - rewrite dom_empty_L. apply ex_cold_cache, ex_file_disk_size.
  - intros i n Hi. by rewrite lookup_empty in Hi.
Qed.

(** A disk of 8 blocks with an empty free map in block 7. *)
Definition ex_op : kst :=
  ex_cold ex_disk <| k_log := ex_log 1 [] |> <| k_sb := mkSb 8 4 8 3 2 5 7 |>.

Lemma ex_op_in : @in_op _ _ (@bio_block_cache 0%nat) 4 ex_op ∅ (ex_view ex_disk) [] 2 2.
Proof.
  split.
  - apply (@blk_frame _ _ (@bio_block_cache 0%nat) (ex_cold ex_disk)); [done..|]. split.
    + rewrite dom_empty_L. apply ex_cold_cache, ex_disk_size.
    + intros i n Hi. by rewrite lookup_empty in Hi.
  - apply (ex_log_wf 1 []). by left.
  - cbn. lia.
  - cbn. lia.
  - rewrite map_size_empty. unfold NBUF. cbn. lia.
Qed.

Lemma ex_home n : n = 0 \/ n = 7 -> home (ex_log 1 []) 8 n.
Proof. intros [->| ->]; split; cbn; lia. Qed.

Lemma balloc_spec_witness :
  exists p' k', @balloc 0%nat (@memide 0%nat) 1 (W (held ex_machine []) ex_console (ex_procs 0) ex_op) =
    Ret 0 (W (held ex_machine []) ex_console p' k').
Proof.
  destruct (@balloc_spec 0%nat (@memide 0%nat) (@bio_block_cache 0%nat) ex_machine ex_console (ex_procs 0) 1 4 ex_op ∅
    (ex_view ex_disk) [] 0 0 0) as (p' & k' & view' & Hrun & _).
  - apply ex_running.
  - apply ex_op_in.
  - split; [cbn; unfold BPB; lia|apply ex_home; by right|unfold is_u32; cbn; lia].
  - vm_compute. reflexivity.
  - apply ex_home. by left.
  - discriminate.
  - intros i Hi. by rewrite lookup_empty in Hi.
  - intros i Hi. by rewrite lookup_empty in Hi.
  - exists p', k'. exact Hrun.
Defined.

(** ** Inodes on the disk *)

Lemma length_dinode_addrs addrs : length (dinode_addrs addrs) = (4 * length addrs)%nat.
Proof.
  unfold dinode_addrs. induction addrs as [|a addrs IH]; [done|].
  cbn [fmap list_fmap concat length]. rewrite length_app, length_le_bytes, IH. lia.
Qed.

Lemma rd_dinode_addrs addrs j a :
  addrs !! j = Some a -> rd (4 * j) 4 (dinode_addrs addrs) = le_bytes 4 a.
Proof.
  unfold dinode_addrs, rd. revert j. induction addrs as [|b addrs IH]; intros j Hj; [done|]. destruct j as [|j].
  - injection Hj as ->. rewrite Nat.mul_0_r, drop_0. cbn [fmap list_fmap concat].
    rewrite take_app_length' by (by rewrite length_le_bytes). done.
  - cbn [fmap list_fmap concat]. replace (4 * Datatypes.S j)%nat with (4 + 4 * j)%nat by lia.
    rewrite <- drop_drop, drop_app_length' by (by rewrite length_le_bytes). by apply IH.
Qed.

Lemma rd_wr_le off n z bs : (off + n <= length bs)%nat -> rd off n (wr off (le_bytes n z) bs) = le_bytes n z.
Proof.
  intros Hl. rewrite <- (length_le_bytes n z) at 1. apply rd_wr_same. by rewrite length_le_bytes.
Qed.

Lemma rd_rd off n j l bs : (j + l <= n)%nat -> rd j l (rd off n bs) = rd (off + j) l bs.
Proof.
  intros Hj. unfold rd. rewrite skipn_firstn_comm, drop_drop, take_take. f_equal. lia.
Qed.

(** The fields of an inode that live on the disk. *)
Definition same_dinode (a b : inode) : Prop :=
  i_type a = i_type b /\ i_major a = i_major b /\ i_minor a = i_minor b /\ i_nlink a = i_nlink b /\
  i_size a = i_size b /\ i_addrs a = i_addrs b.

Record inode_ok (i : inode) : Prop := {
  io_short : is_s16 (i_type i) /\ is_s16 (i_major i) /\ is_s16 (i_minor i) /\ is_s16 (i_nlink i);
  io_size : is_u32 (i_size i);
  io_addrs : length (i_addrs i) = (NDIRECT + 1)%nat /\ Forall is_u32 (i_addrs i);
}.

Lemma s16_u16 z : is_s16 z -> s16 (u16 z) = z.
Proof. unfold is_s16, s16, u16. intros Hz. rewrite Zplus_mod_idemp_l, Z.mod_small by lia. lia. Qed.

Lemma dinode_off_bound inum : (dinode_off inum + sizeof_dinode <= BSIZE)%nat.
Proof. unfold dinode_off, IPB, sizeof_dinode, BSIZE. pose proof (Z.mod_pos_bound inum 8). lia. Qed.

(** [ilock] reads back the inode that [iupdate] wrote, and [iupdate] leaves the other inodes of the
    block alone. *)
Theorem dinode_roundtrip i i' inum d :
  inode_ok i -> length d = BSIZE ->
  let d' := put_dinode i (dinode_off inum) d in
  same_dinode (get_dinode (dinode_off inum) d' i') i /\ length d' = BSIZE /\
  forall inum', dinode_off inum' ≠ dinode_off inum ->
    get_dinode (dinode_off inum') d' i' = get_dinode (dinode_off inum') d i'.
Proof.
  intros [(H1 & H2 & H3 & H4) H5 [Hal Hau]] Hd d'. set (off := dinode_off inum) in *.
  pose proof (dinode_off_bound inum) as Hoff. fold off in Hoff. unfold sizeof_dinode, BSIZE, NDIRECT in *.
  assert (Hla : length (dinode_addrs (i_addrs i)) = 52%nat) by (rewrite length_dinode_addrs; lia).
  assert (Hlen : length d' = 512%nat) by (unfold d', put_dinode; by rewrite length_wr, length_put32, !length_put16).
  assert (Hget : forall o n, (o + n <= off + 12)%nat -> rd o n d' = rd o n (put32 (off + 8) (i_size i)
      (put16 (off + 6) (i_nlink i) (put16 (off + 4) (i_minor i) (put16 (off + 2) (i_major i) (put16 off (i_type i) d)))))).
  { intros o n Ho. unfold d', put_dinode. apply rd_wr_disj; [rewrite length_put32, !length_put16; lia|lia]. }
  assert (Hother : forall o n, (o + n <= off \/ off + 64 <= o)%nat -> rd o n d' = rd o n d).
  { intros o n Ho. unfold d', put_dinode, put32, put16.
    rewrite !rd_wr_disj by (rewrite ?length_wr, ?length_le_bytes, ?Hla; lia). done. }
  split; [|split; [done|]].
  - unfold get_dinode, same_dinode, get16, get32. cbn [i_type i_major i_minor i_nlink i_size i_addrs set_field].
    rewrite !Hget by lia. unfold put32, put16. split_and!.
    1-5: rewrite ?rd_wr_disj by (rewrite ?length_wr, ?length_le_bytes; lia).
    1-5: rewrite rd_wr_le by (rewrite ?length_wr; lia); rewrite le_Z_bytes.
    1-4: by apply s16_u16.
    + by apply u32_id.
    + unfold NDIRECT. apply list_eq. intros j. rewrite list_lookup_fmap. destruct (decide (j < 13)%nat).
      * rewrite lookup_seq_lt by lia. cbn [fmap option_fmap option_map Nat.add].
        destruct (lookup_lt_is_Some_2 (i_addrs i) j) as [a Ha]; [lia|]. rewrite Ha. f_equal.
        rewrite <- (rd_rd (off + 12) 52 (4 * j) 4) by lia. unfold d', put_dinode. rewrite <- Hla.
        rewrite rd_wr_same by (rewrite length_put32, !length_put16; lia).
        rewrite (rd_dinode_addrs _ _ _ Ha), le_Z_bytes. apply u32_id. by eapply Forall_lookup_1.
      * rewrite lookup_seq_ge by lia. symmetry. apply lookup_ge_None. lia.
  - intros inum' Hne. assert (Hsep : (dinode_off inum' + 64 <= off \/ off + 64 <= dinode_off inum')%nat).
    { unfold off, dinode_off, sizeof_dinode in *. lia. }
    unfold get_dinode, get16, get32. rewrite !Hother by lia. f_equal.
    unfold NDIRECT. apply list_fmap_ext. intros n j Hj%lookup_seq. by rewrite Hother by lia.
Qed.

Lemma dinode_roundtrip_witness :
  same_dinode (get_dinode (dinode_off 10) (put_dinode ex_inode (dinode_off 10) (replicate BSIZE 1)) inode_zero) ex_inode.
Proof.
  destruct (dinode_roundtrip ex_inode inode_zero 10 (replicate BSIZE 1)) as [Hs _].
  - split; [unfold is_s16; cbn; unfold T_FILE; lia|unfold is_u32; cbn; lia|]. split; [reflexivity|].
    repeat constructor; unfold is_u32; lia.
  - reflexivity.
  - exact Hs.
Defined.
