(* ===== verification/Dir.v ===== *)
(** * Directories and path names (the theorems about dirlookup, skipelem and namex of fs.c)

    The functions are in [Fs].  Here: a path is split by [skipelem] at its slashes into exactly its elements, and
    the rule that [dirlookup] finds the first entry of the directory with the name, as a search over the entries in the
    contents of the directory says. *)

From S2P Require Import Prelude Kstate Spinlock Cprintf Proc Kdata Sleeplock Bio Bcache Block Log CString Fs.
From stdpp Require Import gmap strings list fin_maps.
Open Scope Z_scope.

(** ** Path names *)

(** A path element: not empty, without slash and terminator. *)
Definition elem_ok (e : list Z) : Prop := e ≠ [] /\ slash ∉ e /\ 0 ∉ e.

(** The text of a path: each element with the number of slashes before it, and the slashes after the last. *)
Definition path_text (es : list (nat * list Z)) (trail : nat) : list Z :=
  concat ((fun '(k, e) => replicate k slash ++ e) <$> es) ++ replicate trail slash ++ [0].

(** Elements are separated by at least one slash. *)
Definition separated (es : list (nat * list Z)) : Prop :=
  Forall (fun ke => elem_ok ke.2) es /\ Forall (fun ke => (0 < ke.1)%nat) (tail es).

(** What [skipelem] leaves in [name] for the element [e]. *)
Definition name_of (e name : list Z) : list Z :=
  if decide (DIRSIZ <= length e)%nat then wr 0 (take DIRSIZ e) name else wr 0 (e ++ [0]) name.

Lemma skip_slashes_text k p c : c ≠ slash -> skip_slashes (replicate k slash ++ c :: p) = Some (c :: p).
Proof.
  intros Hc. induction k as [|k IH]; cbn [replicate app skip_slashes].
  - by rewrite (proj2 (Z.eqb_neq c slash)).
  - by rewrite Z.eqb_refl.
Qed.

Lemma span_elem_text e c p : slash ∉ e -> 0 ∉ e -> c = slash \/ c = 0 -> span_elem (e ++ c :: p) = Some (e, c :: p).
Proof.
  intros Hs H0 Hc. induction e as [|x e IH]; cbn [app span_elem].
  - destruct Hc as [->| ->]; done.
  - rewrite elem_of_cons in Hs, H0. rewrite (proj2 (Z.eqb_neq x slash)), (proj2 (Z.eqb_neq x 0)) by naive_solver. cbn [negb andb].
    rewrite IH by naive_solver. done.
Qed.

(** The text that follows an element, and what is left of it after the slashes. *)
Definition rest_of (es : list (nat * list Z)) (trail : nat) : list Z :=
  match es with
  | [] => [0]
  | (k, e) :: es => path_text ((0%nat, e) :: es) trail
  end.

Lemma elem_first e : elem_ok e -> exists c e', e = c :: e' /\ c ≠ slash /\ c ≠ 0.
Proof.
  intros (Hne & Hs & H0). destruct e as [|c e]; [done|]. exists c, e. rewrite elem_of_cons in Hs, H0. naive_solver.
Qed.

Lemma skip_slashes_rest es trail :
  Forall (fun ke => elem_ok ke.2) es -> skip_slashes (path_text es trail) = Some (rest_of es trail).
Proof.
  intros Hok. destruct es as [|[k e] es]; unfold path_text, rest_of; cbn [fmap list_fmap concat app].
  - by apply skip_slashes_text.
  - apply list.Forall_cons in Hok as [He _]. destruct (elem_first e He) as (c & e' & -> & Hc & _).
    unfold path_text. cbn [fmap list_fmap concat replicate app]. rewrite <- !app_assoc. cbn [app]. by apply skip_slashes_text.
Qed.

(** The byte after an element is a slash or the terminator. *)
Lemma text_after es trail : Forall (fun ke => (0 < ke.1)%nat) es -> exists c p, path_text es trail = c :: p /\ (c = slash \/ c = 0).
Proof.
  intros Hk. destruct es as [|[k e] es]; unfold path_text; cbn [fmap list_fmap concat app].
  - destruct trail; cbn [replicate app]; eauto.
  - apply list.Forall_cons in Hk as [Hk _]. cbn in Hk. destruct k as [|k]; [lia|]. cbn [replicate app]. eauto.
Qed.

Lemma skipelem_text k e es trail name :
  separated ((k, e) :: es) ->
  skipelem (path_text ((k, e) :: es) trail) name = Some (Some (rest_of es trail, name_of e name)).
Proof.
  intros [Hok Hsep]. unfold skipelem. rewrite skip_slashes_rest by done. cbn [mbind option_bind rest_of tail] in *.
  apply list.Forall_cons in Hok as [He Hok]. pose proof He as (_ & Hs & H0). destruct (elem_first e He) as (c & e' & -> & Hc & Hc0).
  destruct (text_after es trail Hsep) as (c1 & p1 & Htext & Hc1).
  replace (path_text ((0%nat, c :: e') :: es) trail) with ((c :: e') ++ path_text es trail)
    by (unfold path_text; cbn [fmap list_fmap concat replicate app]; by rewrite <- !app_assoc).
  cbn [app]. rewrite (proj2 (Z.eqb_neq c 0)) by done.
  change (c :: e' ++ path_text es trail) with ((c :: e') ++ path_text es trail). rewrite Htext, span_elem_text by done.
  cbn [mbind option_bind]. rewrite <- Htext, skip_slashes_rest by done. done.
Qed.

Lemma skipelem_end k name : skipelem (path_text [] k) name = Some None.
Proof. unfold skipelem. by rewrite (skip_slashes_rest [] k). Qed.

(** The names that [namex] asks for, one after the other. *)
Fixpoint walk (fuel : nat) (path name : list Z) : option (list (list Z)) :=
  match fuel with
  | O => None
  | Datatypes.S fuel =>
      e ← skipelem path name;
      match e with
      | None => Some []
      | Some (path, name) => ns ← walk fuel path name; Some (name :: ns)
      end
  end.

(** The string in a [name] array of [DIRSIZ] bytes, terminated or full. *)
Fixpoint name_str (name : list Z) : list Z :=
  match name with
  | [] => []
  | c :: name => if c =? 0 then [] else c :: name_str name
  end.

Lemma name_str_app e rest : 0 ∉ e -> name_str (e ++ rest) = e ++ name_str rest.
Proof.
  intros H. induction e as [|c e IH]; [done|]. rewrite elem_of_cons in H. cbn [app name_str].
  rewrite (proj2 (Z.eqb_neq c 0)) by naive_solver. f_equal. apply IH. naive_solver.
Qed.

Lemma length_name_of e name : length (name_of e name) = length name.
Proof. unfold name_of. case_decide; apply length_wr. Qed.

Lemma name_of_str e name : elem_ok e -> length name = DIRSIZ -> name_str (name_of e name) = take DIRSIZ e.
Proof.
  intros (_ & _ & H0) Hl. unfold name_of. case_decide as Hd.
  - unfold wr. rewrite Hl, take_0, drop_ge by (rewrite length_take; lia). cbn [app]. rewrite app_nil_r, Nat.sub_0_r, take_take, Nat.min_id.
    rewrite <- (app_nil_r (take DIRSIZ e)) at 1. rewrite name_str_app; [by rewrite app_nil_r|].
    intros Hin. apply H0. by eapply elem_of_take in Hin as (? & ? & _); eapply list_elem_of_lookup_2.
  - unfold wr. rewrite take_0, Hl, Nat.sub_0_r. cbn [app]. rewrite (take_ge (e ++ [0])) by (rewrite length_app; cbn [length]; lia).
    rewrite <- app_assoc, name_str_app by done. cbn [app name_str Z.eqb]. rewrite app_nil_r. by rewrite take_ge by lia.
Qed.

Lemma walk_rest es trail : forall fuel name,
  separated es -> length name = DIRSIZ -> (length es < fuel)%nat ->
  exists ns, walk fuel (rest_of es trail) name = Some ns /\ name_str <$> ns = take DIRSIZ <$> (snd <$> es).
Proof.
  induction es as [|[k e] es IH]; intros fuel name Hsep Hn Hf; (destruct fuel as [|fuel]; [cbn [length] in Hf; lia|]).
  - exists []. done.
  - cbn [rest_of walk]. destruct Hsep as [Hok Htl]. cbn [tail] in Htl. cbn [length] in Hf.
    rewrite skipelem_text by (split; [by apply list.Forall_cons in Hok as [? ?]; constructor|done]). cbn [mbind option_bind].
    destruct (IH fuel (name_of e name)) as (ns & Hw & Hns).
    + apply list.Forall_cons in Hok as [_ Hok]. split; [done|]. destruct es; [done|]. by apply list.Forall_cons in Htl as [_ Htl].
    + by rewrite length_name_of.
    + lia.
    + rewrite Hw. cbn [mbind option_bind]. eexists. split; [done|]. cbn [fmap list_fmap snd]. f_equal; [|done].
      apply list.Forall_cons in Hok as [He _]. by apply name_of_str.
Qed.

(** [skipelem] splits a path at its slashes: called again and again on what is left of the path, it returns exactly the elements of the
    path in their order, whatever slashes there are before, between and after them, each cut to [DIRSIZ]
    characters, and then reports the end. *)
Theorem path_elements es trail name :
  separated es -> length name = DIRSIZ ->
  exists ns, walk (length es + 1) (path_text es trail) name = Some ns /\ name_str <$> ns = take DIRSIZ <$> (snd <$> es).
Proof.
  intros Hsep Hn. destruct es as [|[k e] es].
  - exists []. cbn [length Nat.add walk]. by rewrite skipelem_end.
  - destruct (walk_rest ((k, e) :: es) trail (length ((k, e) :: es) + 1) name Hsep Hn) as (ns & Hw & Hns); [lia|].
    exists ns. split; [|done]. rewrite <- Hw. cbn [length Nat.add walk rest_of]. rewrite skipelem_text by done.
    rewrite skipelem_text; [done|]. destruct Hsep as [Hok Htl]. split; [|done]. apply list.Forall_cons in Hok as [? ?]. by constructor.
Qed.

Lemma path_elements_witness :
  exists ns, walk 3 (str "//usr///a_very_long_name_of_a_file/" ++ [0]) (replicate DIRSIZ 88) = Some ns /\
    name_str <$> ns = [str "usr"; str "a_very_long_na"].
Proof.
  destruct (path_elements [(2%nat, str "usr"); (3%nat, str "a_very_long_name_of_a_file")] 1 (replicate DIRSIZ 88))
    as (ns & Hw & Hns).
  - split; repeat constructor; try discriminate; try (cbn; lia); cbn [snd str]; intros H%list_elem_of_In; vm_compute in H;
      repeat (destruct H as [H|H]; [discriminate H|]); exact H.
  - reflexivity.
  - exists ns. split; [exact Hw|exact Hns].
Defined.

(** ** Looking up a name *)

(** The entries in the contents of a directory of [n] entries. *)
Definition dir_ents (view : Z -> list Z) (i : inode) (n : nat) : list dirent :=
  (fun j => get_dirent (file_bytes view i (16 * Z.of_nat j) 16)) <$> seq 0 n.

(** An entry in use with the name: [namecmp] compares at most [DIRSIZ] bytes. *)
Definition entry_matches (name : list Z) (de : dirent) : bool :=
  negb (de_inum de =? 0) && bool_decide (namecmp name (de_name de) = Some 0).

(** The first entry that matches, and its index. *)
Definition find_entry (name : list Z) (es : list dirent) : option (nat * dirent) :=
  j ← find_idx (entry_matches name) es; de ← es !! j; Some (j, de).

Lemma strncmp_total n : forall p q, (n <= length p)%nat -> (n <= length q)%nat -> exists c, strncmp p q n = Some c.
Proof.
  induction n as [|n IH]; intros p q Hp Hq; [exists 0; by destruct p|]. destruct p as [|a p]; [cbn in Hp; lia|].
  destruct q as [|b q]; [cbn in Hq; lia|]. cbn [strncmp length] in *. destruct (negb (a =? 0) && (a =? b)); [|by exists (a - b)].
  apply IH; lia.
Qed.

Lemma length_file_bytes view i off n : length (file_bytes view i off n) = n.
Proof. unfold file_bytes. by rewrite length_fmap, length_seq. Qed.

Lemma length_de_name view i off : length (de_name (get_dirent (file_bytes view i off 16))) = DIRSIZ.
Proof. cbn [get_dirent de_name]. apply length_rd. rewrite length_file_bytes. unfold DIRSIZ. lia. Qed.

(** A turn of the loop of [dirlookup]. *)
Definition dirlookup_turn `{Fuel} `{DiskDriver} `{Devices} (dp : nat) (name : list Z) : Z -> MK (Z + option (nat * Z)) :=
  fun off =>
    let! i := inode_at dp in
    if negb (off <? i_size i) then ret (inr None)
    else
      let! de := read_dirent dp off "dirlookup read" in
      if de_inum de =? 0 then ret (inl (off + Z.of_nat sizeof_dirent))
      else
        let! c := deref (namecmp name (de_name de)) in
        if c =? 0 then
          let! i := inode_at dp in
          let! ip := iget (i_dev i) (de_inum de) in
          ret (inr (Some (ip, off)))
        else ret (inl (off + Z.of_nat sizeof_dirent)).

Lemma dirlookup_unfold `{Fuel} `{DiskDriver} `{Devices} dp name :
  dirlookup dp name =
    (let! i := inode_at dp in
     if negb (i_type i =? T_DIR) then panic "dirlookup not DIR"
     else loop (Z.to_nat (i_size i / Z.of_nat sizeof_dirent) + 2) (dirlookup_turn dp name) 0).
Proof. done. Qed.

Section lookup.
Context `{BC : BlockCache} `{Dev : Devices} (m : machine) (co : console) (me : nat) (pid : Z).
Context (k0 : kst) (hm : gmap nat Z) (dt : gset Z) (view : Z -> list Z) (dp : nat) (i : inode) (n : nat).
Hypothesis Hroom : (size hm + size dt < NBUF)%nat.
Hypothesis Hi : k_inodes k0 !! dp = Some i.
Hypothesis Hdev : i_dev i = 1.
Hypothesis Hty : i_type i = T_DIR.
Hypothesis Hsize : i_size i = 16 * Z.of_nat n.
Hypothesis Hmax : 16 * Z.of_nat n + 16 < 2 ^ 32.
Hypothesis Hok : blocks_ok k0 hm view i 0 ((i_size i - 1) / 512).

Let same k := blk k pid hm dt view /\ uncached k = uncached k0.

Lemma wp_read_dirent p k j msg (Q : dirent -> world kst -> Prop) :
  running m p me pid -> same k -> (j < n)%nat ->
  (forall p' k', running m p' me pid -> same k' -> Q (get_dirent (file_bytes view i (16 * Z.of_nat j) 16)) (W (held m []) co p' k')) ->
  wp (read_dirent dp (16 * Z.of_nat j) msg) Q (W (held m []) co p k).
Proof.
  intros Hrun [Hb Hk] Hj HQ. unfold read_dirent. kstep. change (Z.of_nat sizeof_dirent) with 16.
  assert (Hino : k_inodes k = k_inodes k0) by exact (f_equal k_inodes Hk).
  assert (Hdisk : k_disk k = k_disk k0) by exact (f_equal k_disk Hk).
  eapply (wp_readi m co p me pid k hm dt view dp i); [done|done|done|by rewrite Hino|done|by rewrite Hty|lia|lia|lia| | |].
  - unfold is_u32. rewrite Hsize. lia.
  - destruct Hok as [Hblk Hind].
    assert (Hhi : (Z.min (i_size i) (16 * Z.of_nat j + 16) - 1) / 512 <= (i_size i - 1) / 512) by (apply Z.div_le_mono; lia).
    assert (0 <= 16 * Z.of_nat j / 512) by (apply Z.div_pos; lia).
    unfold blocks_ok, readable in *. rewrite Hdisk. split.
    + intros bn Hbn. apply Hblk. lia.
    + intros Hd. apply Hind. lia.
  - intros p' k' Hrun' Hb' Hk'. unfold readi_result. rewrite decide_False by lia.
    rewrite Z.min_l by lia. cbn [Z.eqb Pos.eqb negb]. kstep. change (Z.to_nat 16) with 16%nat.
    apply HQ; [done|]. split; [done|]. by rewrite Hk'.
Qed.

Lemma dir_ents_lookup j : (j < n)%nat -> dir_ents view i n !! j = Some (get_dirent (file_bytes view i (16 * Z.of_nat j) 16)).
Proof. intros Hj. unfold dir_ents. by rewrite list_lookup_fmap, lookup_seq_lt. Qed.

Lemma dir_ents_inv j de : dir_ents view i n !! j = Some de -> (j < n)%nat.
Proof. intros Hj%lookup_lt_Some. unfold dir_ents in Hj. by rewrite length_fmap, length_seq in Hj. Qed.

Lemma wp_dirlookup_loop name fuel (Q : option (nat * Z) -> world kst -> Prop) : forall j p k,
  (DIRSIZ <= length name)%nat -> running m p me pid -> same k -> (j <= n)%nat -> (n - j < fuel)%nat ->
  (forall x de, dir_ents view i n !! x = Some de -> (x < j)%nat -> entry_matches name de = false) ->
  (forall p' k', running m p' me pid -> same k' ->
     match find_entry name (dir_ents view i n) with
     | None => Q None (W (held m []) co p' k')
     | Some (x, de) => wp (iget (i_dev i) (de_inum de)) (fun ip w => Q (Some (ip, 16 * Z.of_nat x)) w) (W (held m []) co p' k')
     end) ->
  wp (loop fuel (dirlookup_turn dp name) (16 * Z.of_nat j)) Q (W (held m []) co p k).
Proof.
  induction fuel as [|fuel IH]; intros j p k Hname Hrun Hs Hj Hf Hno HQ; [lia|]. cbn [loop].
  assert (Hino : forall k, same k -> k_inodes k !! dp = Some i) by (intros k' [_ Hk']; by rewrite (f_equal k_inodes Hk' : k_inodes k' = k_inodes k0)).
  kstep. unfold dirlookup_turn at 1. kstep. unfold inode_at at 1. kstep. kstep. rewrite (Hino k Hs). kstep. rewrite Hsize.
  destruct (Z.ltb_spec (16 * Z.of_nat j) (16 * Z.of_nat n)) as [Hlt|Hge]; cbn [negb].
  2:{ kstep. kstep. specialize (HQ p k Hrun Hs). unfold find_entry in HQ.
      rewrite (proj2 (find_idx_None _ _)) in HQ; [exact HQ|]. intros x de Hx. apply (Hno x de Hx). apply dir_ents_inv in Hx. lia. }
  kstep. apply wp_read_dirent; [done|done|lia|]. intros p1 k1 Hrun1 Hs1. pose proof (dir_ents_lookup j ltac:(lia)) as Hde.
  set (de := get_dirent (file_bytes view i (16 * Z.of_nat j) 16)) in *.
  assert (Hnext : entry_matches name de = false -> wp (loop fuel (dirlookup_turn dp name) (16 * Z.of_nat j + Z.of_nat sizeof_dirent)) Q (W (held m []) co p1 k1)).
  { intros Hm. replace (16 * Z.of_nat j + Z.of_nat sizeof_dirent) with (16 * Z.of_nat (Datatypes.S j)) by (change (Z.of_nat sizeof_dirent) with 16; lia).
    apply (IH (Datatypes.S j) p1 k1); [done|done|done|lia|lia| |done]. intros x de' Hx Hlt'.
    destruct (decide (x = j)) as [->|]; [rewrite Hde in Hx; by injection Hx as <-|]. apply (Hno x de' Hx). lia. }
  unfold entry_matches in Hnext. destruct (Z.eqb_spec (de_inum de) 0) as [Hz|Hz]; cbn [negb andb] in Hnext.
  { kstep. by apply Hnext. }
  destruct (strncmp_total DIRSIZ name (de_name de) Hname) as (c & Hc); [unfold de; by rewrite length_de_name|].
  unfold namecmp in Hnext |- *. rewrite Hc in Hnext |- *. kstep. kstep. destruct (Z.eqb_spec c 0) as [->|Hcne].
  2:{ kstep. apply Hnext. apply bool_decide_eq_false_2. congruence. }
  unfold inode_at. kstep. kstep. kstep. rewrite (Hino k1 Hs1). kstep. kstep. specialize (HQ p1 k1 Hrun1 Hs1). unfold find_entry in HQ.
  assert (Hfind : find_idx (entry_matches name) (dir_ents view i n) = Some j).
  { apply find_idx_Some. split.
    - exists de. split; [done|]. unfold entry_matches, namecmp. rewrite Hc, (proj2 (Z.eqb_neq _ 0)) by done. cbn. by apply bool_decide_eq_true_2.
    - intros x de' Hx Hl. by apply (Hno x de' Hl). }
  rewrite Hfind in HQ. cbn [mbind option_bind] in HQ. rewrite Hde in HQ. cbn [mbind option_bind] in HQ.
  eapply wp_mono; [exact HQ|]. intros ip w Hw. kstep. kstep. exact Hw.
Qed.

End lookup.

Lemma wp_dirlookup `{BC : BlockCache} `{Dev : Devices} m co p me pid k hm dt view dp i n name (Q : option (nat * Z) -> world kst -> Prop) :
  running m p me pid -> blk k pid hm dt view -> (size hm + size dt < NBUF)%nat -> k_inodes k !! dp = Some i ->
  i_dev i = 1 -> i_type i = T_DIR -> i_size i = 16 * Z.of_nat n -> 16 * Z.of_nat n + 16 < 2 ^ 32 ->
  blocks_ok k hm view i 0 ((i_size i - 1) / 512) -> (DIRSIZ <= length name)%nat ->
  (forall p' k', running m p' me pid -> blk k' pid hm dt view /\ uncached k' = uncached k ->
     match find_entry name (dir_ents view i n) with
     | None => Q None (W (held m []) co p' k')
     | Some (x, de) => wp (iget (i_dev i) (de_inum de)) (fun ip w => Q (Some (ip, 16 * Z.of_nat x)) w) (W (held m []) co p' k')
     end) ->
  wp (dirlookup dp name) Q (W (held m []) co p k).
Proof.
  intros Hrun Hb Hroom Hi Hdev Hty Hsize Hmax Hok Hname HQ.
  rewrite dirlookup_unfold. kstep. unfold inode_at. kstep. kstep. rewrite Hi. kstep. rewrite Hty. cbn [Z.eqb T_DIR negb Pos.eqb].
  replace 0 with (16 * Z.of_nat 0) by lia. eapply (wp_dirlookup_loop m co me pid k hm dt view dp i n); [done..|lia| | |exact HQ].
  - rewrite Hsize. change (Z.of_nat sizeof_dirent) with 16. rewrite (Z.mul_comm 16), Z.div_mul by lia. lia.
  - intros x de _ Hx. lia.
Qed.

(** ** Getting an inode *)

Definition cached (dev inum : Z) (i : inode) : bool := (0 <? i_ref i) && (i_dev i =? dev) && (i_inum i =? inum).

(** The inode table after [iget]: the cached inode gets one more reference, otherwise the first free slot is taken. *)
Definition iget_step (l : list inode) (dev inum : Z) : option (nat * list inode) :=
  match find_idx (cached dev inum) l with
  | Some ip => Some (ip, alter (fun i => i <| i_ref := s32 (i_ref i + 1) |>) ip l)
  | None =>
      ip ← find_idx (fun i => i_ref i =? 0) l;
      Some (ip, alter (fun i => i <| i_dev := dev |> <| i_inum := inum |> <| i_ref := 1 |> <| i_valid := 0 |>) ip l)
  end.

Lemma iget_scan_find l dev inum : forall n e,
  iget_scan l dev inum n e =
    match find_idx (cached dev inum) l with
    | Some j => inl (n + j)%nat
    | None => inr (match e with Some _ => e | None => (fun j => n + j)%nat <$> find_idx (fun i => i_ref i =? 0) l end)
    end.
Proof.
  induction l as [|i l IH]; intros n e; cbn [iget_scan find_idx]; [by destruct e|]. fold (cached dev inum i).
  destruct (cached dev inum i); [f_equal; lia|]. rewrite IH. destruct (find_idx (cached dev inum) l) as [j|]; cbn [fmap option_fmap option_map].
  - f_equal. lia.
  - f_equal. destruct e; [done|]. destruct (i_ref i =? 0); [cbn; f_equal; lia|].
    destruct (find_idx (fun i => i_ref i =? 0) l); [cbn; f_equal; lia|done].
Qed.

Lemma wp_iget `{Fuel} `{DiskDriver} m co p k dev inum ip l (Q : nat -> world kst -> Prop) :
  idle m -> has_lock m Licache -> iget_step (k_inodes k) dev inum = Some (ip, l) ->
  Q ip (W (held m []) co p (k <| k_inodes := l |>)) -> wp (iget dev inum) Q (W (held m []) co p k).
Proof.
  intros Hm Hlk Hstep HQ. unfold iget. ksteps. rewrite iget_scan_find. unfold iget_step in Hstep.
  destruct (find_idx (cached dev inum) (k_inodes k)) as [j|].
  - injection Hstep as <- <-. cbn [Nat.add]. unfold set_iref, set_inode. ksteps. exact HQ.
  - destruct (find_idx (fun i => i_ref i =? 0) (k_inodes k)) as [j|]; [|done]. injection Hstep as <- <-. cbn [fmap option_fmap option_map Nat.add].
    unfold set_inode. ksteps. exact HQ.
Qed.

(** [dirlookup] on a directory of [n] entries returns the first entry in use whose name is [name] (of which [namecmp] compares
    [DIRSIZ] bytes), with its offset, after taking a reference to its inode in the inode table, and returns none when no entry
    matches; nothing else of the kernel state but the buffer cache changes. *)
Lemma dirlookup_finds `{BC : BlockCache} `{Dev : Devices} m co p me pid k hm dt view dp i n name :
  running m p me pid -> blk k pid hm dt view -> (size hm + size dt < NBUF)%nat -> k_inodes k !! dp = Some i ->
  i_dev i = 1 -> i_type i = T_DIR -> i_size i = 16 * Z.of_nat n -> 16 * Z.of_nat n + 16 < 2 ^ 32 ->
  blocks_ok k hm view i 0 ((i_size i - 1) / 512) -> (DIRSIZ <= length name)%nat ->
  match find_entry name (dir_ents view i n) with
  | None => exists p' k', dirlookup dp name (W (held m []) co p k) = Ret None (W (held m []) co p' k') /\
      running m p' me pid /\ blk k' pid hm dt view /\ uncached k' = uncached k
  | Some (j, de) => forall ip l, iget_step (k_inodes k) 1 (de_inum de) = Some (ip, l) ->
      exists p' k', dirlookup dp name (W (held m []) co p k) = Ret (Some (ip, 16 * Z.of_nat j)) (W (held m []) co p' k') /\
        running m p' me pid /\ blk k' pid hm dt view /\ uncached k' = uncached k <| k_inodes := l |>
  end.
Proof.
  intros Hrun Hb Hroom Hi Hdev Hty Hsize Hmax Hok Hname.
  pose proof (fun Q => wp_dirlookup m co p me pid k hm dt view dp i n name Q Hrun Hb Hroom Hi Hdev Hty Hsize Hmax Hok Hname) as Hwp.
  destruct (find_entry name (dir_ents view i n)) as [[j de]|].
  - intros ip l Hget. destruct (wp_elim (dirlookup dp name) (fun r w => exists p' k', r = Some (ip, 16 * Z.of_nat j) /\
      w = W (held m []) co p' k' /\ running m p' me pid /\ blk k' pid hm dt view /\ uncached k' = uncached k <| k_inodes := l |>)
      (W (held m []) co p k)) as (r & w & Hr & p' & k' & -> & -> & ?); [|by exists p', k'].
    apply Hwp. intros p' k' Hrun' [Hb' Hk']. rewrite Hdev. eapply wp_iget; [by eapply run_idle|eauto with xv6| |].
    + rewrite (f_equal k_inodes Hk' : k_inodes k' = k_inodes k). exact Hget.
    + exists p', (k' <| k_inodes := l |>). split; [done|]. split; [done|]. split; [done|]. split.
      * eapply blk_frame; [..|exact Hb']; done.
      * rewrite <- Hk'. done.
  - destruct (wp_elim (dirlookup dp name) (fun r w => exists p' k', r = None /\ w = W (held m []) co p' k' /\ running m p' me pid /\
      blk k' pid hm dt view /\ uncached k' = uncached k) (W (held m []) co p k)) as (r & w & Hr & p' & k' & -> & -> & ?);
      [|by exists p', k'].
    apply Hwp. intros p' k' Hrun' [Hb' Hk']. by exists p', k'.
Qed.

(** ** Names that are equal *)

(** [strncmp] finds two strings equal when they agree up to the terminator or for [n] characters. *)
Lemma strncmp_zero n : forall p q, (n <= length p)%nat -> (n <= length q)%nat ->
  strncmp p q n = Some 0 <-> name_str (take n p) = name_str (take n q).
Proof.
  induction n as [|n IH]; intros p q Hp Hq; [rewrite !take_0; by destruct p|]. destruct p as [|a p]; [cbn in Hp; lia|].
  destruct q as [|b q]; [cbn in Hq; lia|]. cbn [strncmp take name_str length] in *.
  destruct (Z.eqb_spec a 0) as [->|Ha]; cbn [negb andb].
  - destruct (Z.eqb_spec b 0) as [->|Hb]; [done|]. split; [intros [=]; lia|done].
  - destruct (Z.eqb_spec a b) as [<-|Hab].
    + rewrite (proj2 (Z.eqb_neq a 0)) by done. rewrite IH by lia. split; [by intros ->|by intros [=]].
    + split; [intros [=]; lia|]. destruct (Z.eqb_spec b 0); [done|]. intros [=]. done.
Qed.

(** A name of a directory entry, filled up with zeros. *)
Definition pad_name (name : list Z) : list Z := take DIRSIZ (name ++ replicate DIRSIZ 0).

Lemma length_pad_name name : length (pad_name name) = DIRSIZ.
Proof. unfold pad_name. rewrite length_take, length_app, length_replicate. unfold DIRSIZ. lia. Qed.

Lemma name_str_zeros n : name_str (replicate n 0) = [].
Proof. by destruct n. Qed.

Lemma pad_name_str name : 0 ∉ name -> name_str (pad_name name) = take DIRSIZ name.
Proof.
  intros H. unfold pad_name. rewrite take_app, take_replicate, name_str_app.
  - by rewrite name_str_zeros, app_nil_r.
  - intros Hin. apply H. apply elem_of_take in Hin as (? & ? & _). by eapply list_elem_of_lookup_2.
Qed.

Lemma pad_name_eq a b : 0 ∉ a -> 0 ∉ b -> namecmp (pad_name a) (pad_name b) = Some 0 <-> take DIRSIZ a = take DIRSIZ b.
Proof.
  intros Ha Hb. unfold namecmp. rewrite strncmp_zero by (rewrite length_pad_name; done).
  rewrite !take_ge by (rewrite length_pad_name; done). by rewrite !pad_name_str.
Qed.

Lemma get_put_dirent inum name : 0 <= inum < 2 ^ 16 -> length name = DIRSIZ -> get_dirent (put_dirent (mkDe inum name)) = mkDe inum name.
Proof.
  intros Hi Hn. unfold get_dirent, put_dirent. cbn [de_inum de_name]. f_equal.
  - unfold get16, rd. rewrite drop_0, take_app_length' by (by rewrite length_le_bytes). rewrite le_Z_bytes. apply Z.mod_small. lia.
  - unfold rd. rewrite drop_app_length' by (by rewrite length_le_bytes). by rewrite take_ge by lia.
Qed.

(** ** An example *)

(** A directory in block 5 with the entries [.] and [a]. *)
Definition ex_dir_block : list Z :=
  put_dirent (mkDe 2 (pad_name (str "."))) ++ put_dirent (mkDe 3 (pad_name (str "a"))) ++ replicate 480 0.
Definition ex_dir_disk : list (list Z) := <[5%nat := ex_dir_block]> ex_disk.
Definition ex_dir : inode := mkInode 1 2 1 sl_zero 1 T_DIR 0 0 1 32 (5 :: replicate 12 0).
Definition ex_dir_fs : kst := ex_cold ex_dir_disk <| k_inodes := [ex_dir; inode_zero] |>.

Lemma ex_dir_disk_size : Forall (fun blk => length blk = BSIZE) ex_dir_disk.
Proof. apply Forall_insert; [apply ex_disk_size|reflexivity]. Qed.

Lemma ex_dir_blk : @blk _ _ (@bio_block_cache 0%nat) ex_dir_fs 4 ∅ ∅ (ex_view ex_dir_disk).
Proof.
  apply (@blk_frame _ _ (@bio_block_cache 0%nat) (ex_cold ex_dir_disk)); [done..|]. split.
  - rewrite dom_empty_L. apply ex_cold_cache, ex_dir_disk_size.
  - intros i n Hi. by rewrite lookup_empty in Hi.
Qed.

