(* ===== verification/Reads.v ===== *)
(** * What reading changes (readi and dirlookup of fs.c)

    Reading a file or a directory goes through the buffer cache, whose locks wake the processes that wait for a buffer.  A function
    is [Gentle] when, whatever it does, the process table is afterwards the same but for processes that slept on the lock of a buffer and are now
    runnable, and the types of the inodes in the table are the same.  The instances follow the code of bio.c, log.c and fs.c down to [readi] and
    [dirlookup]; the theorems put the specifications of these two together with what they leave alone. *)

From S2P Require Import Prelude Kstate Spinlock Cprintf Proc Kdata Sleeplock Bio Bcache Block Log CString Fs Dir.
From stdpp Require Import gmap strings list fin_maps functions.
Open Scope Z_scope.

(** ** Processes woken *)

Definition woken_slot (q q' : proc) : Prop :=
  q' = q \/ p_state q = SLEEPING /\ (exists i, p_chan q = Some (Csleep (SLbuf i))) /\ q' = q <| p_state := RUNNABLE |>.

(** From [p] to [p'] nothing changed but that processes sleeping on the lock of a buffer became runnable. *)
Definition woken (p p' : procs) : Prop := p' = p <| ptable := ptable p' |> /\ Forall2 woken_slot (ptable p) (ptable p').

#[export] Instance woken_slot_refl : Reflexive woken_slot.
Proof. intros q. by left. Qed.

#[export] Instance woken_slot_trans : Transitive woken_slot.
Proof.
  intros q1 q2 q3 [->|(Hs & Hc & ->)] [->|(Hs' & Hc' & ->)]; [by left|by right|by right|]. by cbn in Hs'.
Qed.

#[export] Instance woken_refl : Reflexive woken.
Proof. intros p. split; [by destruct p|reflexivity]. Qed.

#[export] Instance woken_trans : Transitive woken.
Proof.
  intros p1 p2 p3 [H1 F1] [H2 F2]. split; [by rewrite H2, H1|]. by etrans.
Qed.

Lemma woken_wake i p : woken p (p <| ptable := wake (Some (Csleep (SLbuf i))) <$> ptable p |>).
Proof.
  split; [done|]. cbn. apply Forall2_fmap_r, Forall_Forall2_diag, Forall_forall. intros q _. unfold wake, woken_slot.
  unfold compose. rewrite <- bool_decide_and. case_bool_decide as Hb; [|by left]. destruct Hb as [Hs Hc]. right. split_and!; [done|by exists i|done].
Qed.

(** The slot of a process: as before, or woken. *)
Lemma woken_at p p' i q : woken p p' -> ptable p !! i = Some q -> exists q', ptable p' !! i = Some q' /\ woken_slot q q'.
Proof. intros [_ F] Hq. by apply (Forall2_lookup_l _ _ _ _ _ F). Qed.

(** ** Gentle functions *)

Definition types (k : kst) : list Z := i_type <$> k_inodes k.

Section gentle.
Context {T : list Z}.

(** In a state whose inodes have the types [T]. *)
Class Gentle {A} (c : MK A) : Prop := gentle : forall w a w',
  types (w_s w) = T -> c w = Ret a w' -> woken (w_p w) (w_p w') /\ types (w_s w') = T.

(** A function that does not return: it panics, hangs or gives up the CPU. *)
Definition never {S A} (c : M S A) : Prop := forall w a w', c w ≠ Ret a w'.

Lemma never_gentle {A} (c : MK A) : never c -> Gentle c.
Proof using Type. intros Hn w a w' _ Hr. by destruct (Hn w a w'). Qed.

Lemma never_bind_l {S A B} (c : M S A) (d : A -> M S B) : never c -> never (bind c d).
Proof using Type. intros Hn w a w'. unfold bind. specialize (Hn w). by destruct (c w) as [x w1|? ?|? ?|?|?]; [destruct (Hn x w1)|..]. Qed.

Lemma never_bind_r {S A B} (c : M S A) (d : A -> M S B) : (forall a, never (d a)) -> never (bind c d).
Proof using Type. intros Hn w a w'. unfold bind. by destruct (c w) as [x w1|? ?|? ?|?|?]; [apply Hn|..]. Qed.

#[export] Instance gentle_bind {A B} (c : MK A) (d : A -> MK B) : Gentle c -> (forall a, Gentle (d a)) -> Gentle (bind c d).
Proof using Type.
  intros Hc Hd w b w' Ht Hr. unfold bind in Hr. destruct (c w) as [x w1|? ?|? ?|?|?] eqn:E; try discriminate Hr.
  destruct (Hc w x w1 Ht E) as [H1 Ht1]. destruct (Hd x w1 b w' Ht1 Hr) as [H2 Ht2]. split; [by etrans|done].
Qed.

#[export] Instance gentle_ret {A} (a : A) : Gentle (ret a).
Proof using Type. intros w b w' Ht [= _ <-]. by split. Qed.

#[export] Instance gentle_panic {A} msg : Gentle (panic msg : MK A).
Proof using Type. by intros w a w' _ Hr. Qed.
#[export] Instance gentle_undef {A} : Gentle (undef : MK A).
Proof using Type. by intros w a w' _ Hr. Qed.
#[export] Instance gentle_hang {A} : Gentle (hang : MK A).
Proof using Type. by intros w a w' _ Hr. Qed.

#[export] Instance gentle_get_m : Gentle get_m.
Proof using Type. intros w a w' Ht [= _ <-]. by split. Qed.
#[export] Instance gentle_get_p : Gentle get_p.
Proof using Type. intros w a w' Ht [= _ <-]. by split. Qed.
#[export] Instance gentle_get_s : Gentle get_s.
Proof using Type. intros w a w' Ht [= _ <-]. by split. Qed.
#[export] Instance gentle_put_m m : Gentle (put_m m).
Proof using Type. intros w a w' Ht [= _ <-]. by split. Qed.

Lemma gentle_upd_s (f : kst -> kst) : (forall k, types (f k) = types k) -> Gentle (upd_s f).
Proof using Type. intros Hf w a w' Ht [= _ <-]. split; [done|]. cbn. by rewrite Hf. Qed.

#[export] Instance gentle_deref {A} (o : option A) : Gentle (deref o).
Proof using Type. destruct o; apply _. Qed.
#[export] Instance gentle_when b (c : MK unit) : Gentle c -> Gentle (when b c).
Proof using Type. intros. destruct b; cbn; apply _. Qed.
#[local] Hint Extern 2 (Gentle (match ?x with _ => _ end)) => destruct x : typeclass_instances.

#[export] Instance gentle_loop {A B} n (body : A -> MK (A + B)) a : (forall a, Gentle (body a)) -> Gentle (loop n body a).
Proof using Type. intros Hb. revert a. induction n as [|n IH]; intros a; cbn [loop]; apply _. Qed.

#[local] Typeclasses Opaque bind ret panic undef hang get_m get_p get_s put_m upd_s deref when loop
  mycpu cpu_at set_cpu pushcli popcli set_lock holding acquire release myproc proc_at wakeup sleep set_sl sl_at mypid acquiresleep releasesleep holdingsleep.

(** ** Spin locks, sleep locks and buffers *)

#[export] Instance gentle_mycpu : Gentle mycpu.
Proof using Type. unfold mycpu, readeflags_if, lapicid. apply _. Qed.
#[export] Instance gentle_cpu_at i : Gentle (cpu_at i).
Proof using Type. unfold cpu_at. apply _. Qed.
#[export] Instance gentle_set_cpu i c : Gentle (set_cpu i c).
Proof using Type. unfold set_cpu. apply _. Qed.
#[export] Instance gentle_pushcli : Gentle pushcli.
Proof using Type. unfold pushcli, readeflags_if, cli. apply _. Qed.
#[export] Instance gentle_popcli : Gentle popcli.
Proof using Type. unfold popcli, readeflags_if, sti. apply _. Qed.
#[export] Instance gentle_set_lock lk l : Gentle (set_lock lk l).
Proof using Type. unfold set_lock. apply _. Qed.
#[export] Instance gentle_holding lk : Gentle (holding lk).
Proof using Type. unfold holding. apply _. Qed.
#[export] Instance gentle_acquire lk : Gentle (acquire lk).
Proof using Type. unfold acquire, acquire_enter, acquire_spin, acquire_done, xchg_locked. apply _. Qed.
#[export] Instance gentle_release lk : Gentle (release lk).
Proof using Type. unfold release, release_enter, release_store. apply _. Qed.
#[export] Instance gentle_myproc : Gentle myproc.
Proof using Type. unfold myproc. apply _. Qed.
#[export] Instance gentle_proc_at i : Gentle (proc_at i).
Proof using Type. unfold proc_at. apply _. Qed.

#[export] Instance gentle_wakeup i : Gentle (wakeup (Csleep (SLbuf i))).
Proof using Type.
  unfold wakeup. apply gentle_bind; [apply _|]. intros _. apply gentle_bind; [|apply _].
  intros w a w' Ht [= _ <-]. split; [apply woken_wake|done].
Qed.

Lemma never_swtch {A} (d : unit -> MK A) : never (bind swtch d).
Proof using Type. by intros w a w'. Qed.

Lemma never_sched : never (@sched kst).
Proof using Type.
  unfold sched. do 2 (apply never_bind_r; intros ?). case_match; [done|]. do 2 (apply never_bind_r; intros ?). case_match; [done|].
  do 2 (apply never_bind_r; intros ?). case_match; [done|]. apply never_bind_r; intros ?. case_match; [done|].
  do 2 (apply never_bind_r; intros ?). apply never_swtch.
Qed.

#[export] Instance gentle_sleep ch lk : Gentle (sleep ch lk).
Proof using Type.
  unfold sleep. apply gentle_bind; [apply _|]. intros [i|]; [|apply _]. apply never_gentle.
  do 3 (apply never_bind_r; intros _). apply never_bind_l, never_sched.
Qed.

Lemma gentle_set_sl id f : Gentle (set_sl id f).
Proof using Type.
  apply gentle_upd_s. intros k. destruct id as [i|i]; [done|]. unfold types, sl_upd. cbn. apply list_eq. intros j.
  rewrite !list_lookup_fmap, list_lookup_alter. case_decide; subst; by destruct (k_inodes k !! _).
Qed.
#[export] Existing Instance gentle_set_sl.

#[export] Instance gentle_sl_at id : Gentle (sl_at id).
Proof using Type. unfold sl_at. apply _. Qed.
#[export] Instance gentle_mypid : Gentle mypid.
Proof using Type. unfold mypid. apply _. Qed.
#[export] Instance gentle_acquiresleep `{Fuel} id : Gentle (acquiresleep id).
Proof using Type. unfold acquiresleep, while_sleep. apply _. Qed.
#[export] Instance gentle_releasesleep i : Gentle (releasesleep (SLbuf i)).
Proof using Type. unfold releasesleep. apply _. Qed.
#[export] Instance gentle_holdingsleep id : Gentle (holdingsleep id).
Proof using Type. unfold holdingsleep. apply _. Qed.

End gentle.
Arguments Gentle T {A} c.

(** What reading needs of a disk driver: [iderw] may sleep; when it returns it has changed no more of the processes and the
    inodes than a gentle function. *)
Class GentleDriver `{DiskDriver} : Prop := gentle_iderw : forall T i, Gentle T (iderw i).

Section fs_gentle.
Context `{Fu : Fuel} `{Drv : DiskDriver} `{Dev : Devices} `{Gd : !GentleDriver} {T : list Z}.

#[local] Hint Extern 2 (Gentle _ (match ?x with _ => _ end)) => destruct x : typeclass_instances.
#[local] Hint Extern 1 (Gentle _ (iderw _)) => apply gentle_iderw : typeclass_instances.
#[local] Hint Extern 1 (Gentle _ (upd_s _)) => apply gentle_upd_s; intros; done : typeclass_instances.
#[local] Typeclasses Opaque bind ret panic undef hang get_m get_p get_s put_m upd_s deref when loop
  mycpu cpu_at set_cpu pushcli popcli set_lock holding acquire release myproc proc_at wakeup sleep set_sl sl_at mypid acquiresleep releasesleep holdingsleep
  iderw buf_at set_buf set_inode inode_at scan bget bread brelse log_write bzero balloc addr_or_alloc bmap readi_loop readi read_dirent iget.

#[export] Instance gentle_buf_at i : Gentle T (buf_at i).
Proof using Type. unfold buf_at. apply _. Qed.
#[export] Instance gentle_set_buf i f : Gentle T (set_buf i f).
Proof using Type. unfold set_buf. apply _. Qed.
#[export] Instance gentle_inode_at i : Gentle T (inode_at i).
Proof using Type. unfold inode_at. apply _. Qed.

Lemma gentle_set_inode i f : (forall x, i_type (f x) = i_type x) -> Gentle T (set_inode i f).
Proof using Type.
  intros Hf. apply gentle_upd_s. intros k. unfold types. cbn. apply list_eq. intros j.
  rewrite !list_lookup_fmap, list_lookup_alter. case_decide; subst; destruct (k_inodes k !! _); cbn; by rewrite ?Hf.
Qed.
#[local] Hint Extern 1 (Gentle _ (set_inode _ _)) => apply gentle_set_inode; intros; done : typeclass_instances.

#[export] Instance gentle_get_next a : Gentle T (get_next a).
Proof using Type. unfold get_next. apply _. Qed.
#[export] Instance gentle_get_prev a : Gentle T (get_prev a).
Proof using Type. unfold get_prev. apply _. Qed.
#[export] Instance gentle_set_next a v : Gentle T (set_next a v).
Proof using Type. unfold set_next. apply gentle_upd_s. by intros k; destruct a. Qed.
#[export] Instance gentle_set_prev a v : Gentle T (set_prev a v).
Proof using Type. unfold set_prev. apply gentle_upd_s. by intros k; destruct a. Qed.

#[export] Instance gentle_scan step f a : Gentle T (scan step f a).
Proof using Type. unfold scan. apply _. Qed.
#[export] Instance gentle_bget dev n : Gentle T (bget dev n).
Proof using Type. unfold bget. apply _. Qed.
#[export] Instance gentle_bread dev n : Gentle T (bread dev n).
Proof using Gd. unfold bread. apply _. Qed.
#[export] Instance gentle_brelse i : Gentle T (brelse i).
Proof using Type. unfold brelse, push_front. apply _. Qed.
#[export] Instance gentle_log_write i : Gentle T (log_write i).
Proof using Type. unfold log_write, get_log, set_lh_block, set_lh_n, upd_log, set_dirty. apply _. Qed.

#[export] Instance gentle_bzero dev n : Gentle T (bzero dev n).
Proof using Gd. unfold bzero, set_data. apply _. Qed.
#[export] Instance gentle_balloc dev : Gentle T (balloc dev).
Proof using Gd. unfold balloc, get_sb, set_data. apply _. Qed.
#[export] Instance gentle_addr_or_alloc ip n : Gentle T (addr_or_alloc ip n).
Proof using Gd. unfold addr_or_alloc, set_addr. apply _. Qed.
#[export] Instance gentle_bmap ip bn : Gentle T (bmap ip bn).
Proof using Gd. unfold bmap, set_data. apply _. Qed.
#[export] Instance gentle_readi_loop ip n off m : Gentle T (readi_loop ip n off m).
Proof using Gd. unfold readi_loop. apply _. Qed.

(** [readi] of an inode that is not a device. *)
Lemma gentle_readi ip off n : T !! ip ≠ Some T_DEV -> Gentle T (readi ip off n).
Proof using Gd.
  intros Hty. unfold readi. intros w a w' Ht Hr. unfold bind at 1 in Hr. unfold inode_at in Hr. unfold bind at 1, get_s in Hr. cbn [bind_res] in Hr.
  destruct (k_inodes (w_s w) !! ip) as [i|] eqn:Hi; [|done]. cbn [deref bind_res] in Hr. unfold ret at 1 in Hr. cbn [bind_res] in Hr.
  assert (Hd : i_type i ≠ T_DEV). { intros Hd. apply Hty. rewrite <- Ht. unfold types. by rewrite list_lookup_fmap, Hi, <- Hd. }
  rewrite (proj2 (Z.eqb_neq _ _) Hd) in Hr. revert Hr. refine (gentle (T := T) w a w' Ht).
Qed.

#[export] Instance gentle_iget dev inum : Gentle T (iget dev inum).
Proof using Type. unfold iget, set_iref. apply _. Qed.


Lemma gentle_memide i : Gentle T (memide_iderw i).
Proof using Type. unfold memide_iderw. apply _. Qed.

End fs_gentle.

#[export] Instance memide_gentle `{Fuel} : @GentleDriver memide.
Proof. intros T i. apply gentle_memide. Qed.

(** ** Properties *)

(** C29.  [readi] of a file on the disk returns -1 beyond the end of the file, and otherwise the number of bytes
    there are, up to [n], and exactly these bytes of the file.  What changes is the buffer cache, whose contents are the same blocks, and processes
    that slept on the lock of a buffer, which may be runnable; the locks, the console, the rest of the kernel state and every other slot of
    the process table are as before. *)
Theorem readi_spec `{BC : BlockCache} `{Devices} `{!GentleDriver} m co p me pid k hm dt view ip i off n :
  running m p me pid -> blk k pid hm dt view -> (size hm + size dt < NBUF)%nat ->
  k_inodes k !! ip = Some i -> i_dev i = 1 -> i_type i ≠ T_DEV ->
  0 <= off -> 0 <= n -> off + n < 2 ^ 32 -> is_u32 (i_size i) ->
  blocks_ok k hm view i (off / 512) ((Z.min (i_size i) (off + n) - 1) / 512) ->
  exists p' k', readi ip off n (W (held m []) co p k) =
      Ret (readi_result view i off n) (W (held m []) co p' k') /\
    running m p' me pid /\ blk k' pid hm dt view /\ uncached k' = uncached k /\ woken p p'.
Proof.
  intros Hrun Hb Hroom Hi Hdev Hty Hoff Hn Hov Hsz Hok.
  destruct (readi_reads m co p me pid k hm dt view ip i off n) as (p' & k' & Hr & Hrun' & Hb' & Hk'); [done..|].
  exists p', k'. split; [done|]. do 3 (split; [done|]).
  assert (Hg : Gentle (types k) (readi ip off n)).
  { apply gentle_readi. unfold types. rewrite list_lookup_fmap, Hi. cbn. congruence. }
  exact (proj1 (Hg (W (held m []) co p k) _ _ eq_refl Hr)).
Qed.


Lemma readi_spec_witness :
  exists p' k', @readi 0%nat (@memide 0%nat) ex_devices 0 90 200 (W (held ex_machine []) ex_console (ex_procs 0) ex_fs) =
    Ret (10, replicate 10 65) (W (held ex_machine []) ex_console p' k') /\ woken (ex_procs 0) p'.
Proof.
  destruct (@readi_spec 0%nat (@memide 0%nat) (@bio_block_cache 0%nat) ex_devices (@memide_gentle 0%nat) ex_machine ex_console (ex_procs 0)
    1 4 ex_fs ∅ ∅ (ex_view ex_file_disk) 0 ex_inode 90 200) as (p' & k' & Hrun & _ & _ & _ & Hw).
  - apply ex_running.
  - apply ex_fs_blk.
  - rewrite map_size_empty, size_empty. unfold NBUF. lia.
  - reflexivity.
  - reflexivity.
  - discriminate.
  - lia.
  - lia.
  - reflexivity.
  - unfold is_u32. cbn. lia.
  - split.
    + intros bn Hbn. exists 5. assert (bn = 0) as -> by (change (0 <= bn <= 0) in Hbn; lia). split; [reflexivity|].
      split; [vm_compute; split; [discriminate|reflexivity]|]. intros i Hi. by rewrite lookup_empty in Hi.
    + intros Hd. change (12 <= 0) in Hd. lia.
  - exists p', k'. split; [rewrite Hrun; reflexivity|exact Hw].
Defined.

