(* ===== verification/Write.v ===== *)
(** * Writing files (writei of fs.c)

    The theorem about [writei]: bytes written at an offset are the bytes of the file from there on, whether they go to blocks the file has
    or to new ones; every other byte of the file, and every block in use that is not of the file, stays as it was. *)

From S2P Require Import Prelude Kstate Spinlock Cprintf Proc Kdata Sleeplock Bio Bcache Block Log CString Fs.
From stdpp Require Import gmap strings list fin_maps functions.
Open Scope Z_scope.

(** ** The blocks of a file *)

Section blocks.
(** The block and the size of the free map, and the block of the inode. *)
Context (data : Z -> Prop) (bm size : Z).
Implicit Types (view : Z -> list Z) (i : inode).

Definition marked view (b : Z) : Prop := 0 <= b /\ map_bit (view bm) (Z.to_nat b) = true.

(** The blocks that belong to the file: those of its bytes and its indirect block. *)
Definition owns view i (b : Z) : Prop :=
  (exists bn, 0 <= bn /\ block_addr view i bn = Some b) \/ (i_addrs i !! NDIRECT = Some b /\ b ≠ 0).

(** Byte [pos] of the file, when its block is there. *)
Definition cell view i (pos : Z) : option Z :=
  a ← block_addr view i (pos / 512); view a !! Z.to_nat (pos mod 512).

(** The blocks of the file are data blocks, in use, each with one place in the file; the free blocks are data blocks too. *)
Record fmap_ok view i : Prop := {
  fm_len : length (i_addrs i) = 13%nat;
  fm_data : forall b, owns view i b -> data b /\ marked view b;
  fm_inj : forall bn bn' a, 0 <= bn -> 0 <= bn' -> block_addr view i bn = Some a -> block_addr view i bn' = Some a -> bn = bn';
  fm_ind : forall bn ind, 0 <= bn -> i_addrs i !! NDIRECT = Some ind -> block_addr view i bn ≠ Some ind;
  fm_free : forall b : nat, Z.of_nat b < size -> map_bit (view bm) b = false -> data (Z.of_nat b);
  fm_block : forall b, data b -> length (view b) = BSIZE;
  fm_map : length (view bm) = BSIZE;
}.
Context (data_range : forall b, data b -> 0 < b < 2 ^ 32) (data_bm : ~ data bm) (size_ok : size <= 8 * Z.of_nat BSIZE).

(** How a file changes when blocks are added to it: it keeps its blocks and its bytes, the new blocks were free, and blocks in use by
    others are not touched. *)
Record extends view i view' i' : Prop := {
  ex_meta : i' = i <| i_addrs := i_addrs i' |>;
  ex_addr : forall bn a, 0 <= bn -> block_addr view i bn = Some a -> block_addr view' i' bn = Some a;
  ex_bytes : forall bn a, 0 <= bn -> block_addr view i bn = Some a -> view' a = view a;
  ex_own : forall b, owns view' i' b -> owns view i b \/ ~ marked view b;
  ex_marks : forall b, marked view b -> marked view' b;
  ex_other : forall b, marked view b -> b ≠ bm -> ~ owns view i b -> view' b = view b;
  ex_ind : forall x, x ≠ 0 -> i_addrs i !! NDIRECT = Some x -> i_addrs i' !! NDIRECT = Some x;
}.

Lemma extends_refl view i : extends view i view i.
Proof. split; [by destruct i|done|done|by left|done|done|done]. Qed.

Lemma extends_trans v1 i1 v2 i2 v3 i3 : extends v1 i1 v2 i2 -> extends v2 i2 v3 i3 -> extends v1 i1 v3 i3.
Proof.
  intros [M1 A1 B1 O1 K1 T1 S1] [M2 A2 B2 O2 K2 T2 S2]. split.
  - by rewrite M2, M1.
  - eauto.
  - intros bn a Hbn Ha. rewrite (B2 bn a); eauto.
  - intros b [H|H]%O2; [by apply O1|]. right. intros Hb. by apply H, K1.
  - eauto.
  - intros b Hm Hb Hn. rewrite T2; [by apply T1|by apply K1|done|]. intros [H|H]%O1; done.
  - eauto.
Qed.

Lemma extends_cell view i view' i' pos c : 0 <= pos -> extends view i view' i' -> cell view i pos = Some c -> cell view' i' pos = Some c.
Proof.
  intros Hp Hx (a & Ha & Hc)%bind_Some. assert (0 <= pos / 512) by (apply Z.div_pos; lia). unfold cell.
  rewrite (ex_addr _ _ _ _ Hx _ _ ltac:(done) Ha). cbn. by rewrite (ex_bytes _ _ _ _ Hx _ _ ltac:(done) Ha).
Qed.

(** What holds of any change to the file: new blocks were free, and blocks in use by others are not touched. *)
Record kept view i view' i' : Prop := {
  kp_own : forall b, owns view' i' b -> owns view i b \/ ~ marked view b;
  kp_marks : forall b, marked view b -> marked view' b;
  kp_other : forall b, marked view b -> b ≠ bm -> ~ owns view i b -> view' b = view b;
}.

Lemma kept_trans v1 i1 v2 i2 v3 i3 : kept v1 i1 v2 i2 -> kept v2 i2 v3 i3 -> kept v1 i1 v3 i3.
Proof.
  intros [O1 K1 T1] [O2 K2 T2]. split.
  - intros b [H|H]%O2; [by apply O1|]. right. intros Hb. by apply H, K1.
  - eauto.
  - intros b Hm Hb Hn. rewrite T2; [by apply T1|by apply K1|done|]. intros [H|H]%O1; done.
Qed.

Lemma extends_kept view i view' i' : extends view i view' i' -> kept view i view' i'.
Proof. intros [_ _ _ ? ? ? _]. by split. Qed.

Definition free_count view : nat := length (filter (fun b => map_bit (view bm) b = false) (seq 0 (Z.to_nat size))).

(** ** Changing the bytes of a block *)

Section bytes.
Context view i bn a (d : list Z) (Hok : fmap_ok view i) (Hbn : 0 <= bn) (Ha : block_addr view i bn = Some a) (Hd : length d = BSIZE).

Lemma bytes_owned : owns view i a.
Proof using Hbn Ha. left. by exists bn. Qed.

Lemma bytes_bm : a ≠ bm.
Proof using All. intros He. destruct (fm_data _ _ Hok a bytes_owned) as [Hd' _]. rewrite He in Hd'. done. Qed.

Lemma bytes_addr x : 0 <= x -> block_addr (<[a := d]> view) i x = block_addr view i x.
Proof using All.
  intros Hx. unfold block_addr. destruct (x <? _); [done|]. destruct (_ <? _); [|done].
  destruct (i_addrs i !! NDIRECT) as [ind|] eqn:Hi; [|done]. cbn [mbind option_bind]. rewrite fn_lookup_insert_ne; [done|].
  intros He. apply (fm_ind _ _ Hok bn ind Hbn Hi). by rewrite Ha, He.
Qed.

Lemma bytes_owns b : owns (<[a := d]> view) i b <-> owns view i b.
Proof using All.
  unfold owns. split; (intros [(x & Hx & Hb)|?]; [left|by right]); exists x; by rewrite bytes_addr in *.
Qed.

Lemma bytes_marked b : marked (<[a := d]> view) b <-> marked view b.
Proof using All. unfold marked. rewrite fn_lookup_insert_ne by apply bytes_bm. done. Qed.

Lemma bytes_ok : fmap_ok (<[a := d]> view) i.
Proof using All.
  split; [apply (fm_len _ _ Hok)|..].
  - intros b. rewrite bytes_owns, bytes_marked. apply (fm_data _ _ Hok).
  - intros x y c Hx Hy. rewrite !bytes_addr by done. by apply (fm_inj _ _ Hok).
  - intros x ind Hx Hi. rewrite bytes_addr by done. by apply (fm_ind _ _ Hok).
  - intros b Hb. rewrite fn_lookup_insert_ne by apply bytes_bm. by apply (fm_free _ _ Hok).
  - intros b Hb. destruct (decide (b = a)) as [->|]; [by rewrite fn_lookup_insert|]. rewrite fn_lookup_insert_ne by done. by apply (fm_block _ _ Hok).
  - rewrite fn_lookup_insert_ne by apply bytes_bm. apply (fm_map _ _ Hok).
Qed.

Lemma bytes_kept : kept view i (<[a := d]> view) i.
Proof using All.
  split; [intros b; rewrite bytes_owns; by left|intros b; by rewrite bytes_marked|].
  intros b _ _ Ho. apply fn_lookup_insert_ne. intros <-. apply Ho, bytes_owned.
Qed.

Lemma bytes_cell pos : 0 <= pos ->
  cell (<[a := d]> view) i pos = if decide (pos / 512 = bn) then d !! Z.to_nat (pos mod 512) else cell view i pos.
Proof using All.
  intros Hp. assert (0 <= pos / 512) by (apply Z.div_pos; lia). unfold cell. rewrite bytes_addr by done. case_decide as He.
  - rewrite He, Ha. cbn. by rewrite fn_lookup_insert.
  - destruct (block_addr view i (pos / 512)) as [b|] eqn:Hb; [|done]. cbn. rewrite fn_lookup_insert_ne; [done|].
    intros Hab. apply He, (fm_inj _ _ Hok _ _ a); [done|done|by rewrite Hab|done].
Qed.

Lemma bytes_count : free_count (<[a := d]> view) = free_count view.
Proof using All. unfold free_count. by rewrite fn_lookup_insert_ne by apply bytes_bm. Qed.
End bytes.

(** ** Blocks that are not of the file *)

Lemma block_addr_same view i i' x : i_addrs i' = i_addrs i -> block_addr view i' x = block_addr view i x.
Proof. unfold block_addr. by intros ->. Qed.

(** A disk with the same data blocks and map, and an inode with the same addresses. *)
Section foreign.
Context view i (view' : Z -> list Z) i' (Hok : fmap_ok view i) (Hv : forall c, data c \/ c = bm -> view' c = view c) (Hi : i_addrs i' = i_addrs i).

Lemma foreign_addr x : 0 <= x -> block_addr view' i' x = block_addr view i x.
Proof using All.
  intros Hx. rewrite (block_addr_same _ i i') by done. unfold block_addr. destruct (x <? _); [done|]. destruct (_ <? _); [|done].
  destruct (i_addrs i !! NDIRECT) as [ind|] eqn:Hind; [|done]. cbn [mbind option_bind]. destruct (Z.eqb_spec ind 0); [done|].
  rewrite Hv; [done|]. left. apply (fm_data _ _ Hok). by right.
Qed.

Lemma foreign_owns c : owns view' i' c <-> owns view i c.
Proof using All.
  unfold owns. rewrite Hi. split; (intros [(x & Hx & Hc)|?]; [left|by right]); exists x; by rewrite foreign_addr in *.
Qed.

Lemma foreign_marked c : marked view' c <-> marked view c.
Proof using All. unfold marked. rewrite Hv by tauto. done. Qed.

Lemma foreign_ok : fmap_ok view' i'.
Proof using All.
  split; [rewrite Hi; apply (fm_len _ _ Hok)|..].
  - intros c. rewrite foreign_owns, foreign_marked. apply (fm_data _ _ Hok).
  - intros x y c Hx Hy. rewrite !foreign_addr by done. by apply (fm_inj _ _ Hok).
  - intros x ind Hx. rewrite foreign_addr, Hi by done. by apply (fm_ind _ _ Hok).
  - intros c Hc. rewrite Hv by tauto. by apply (fm_free _ _ Hok).
  - intros c Hc. rewrite Hv by tauto. by apply (fm_block _ _ Hok).
  - rewrite Hv by tauto. apply (fm_map _ _ Hok).
Qed.

Lemma foreign_cell pos : 0 <= pos -> cell view' i' pos = cell view i pos.
Proof using All.
  intros Hp. assert (0 <= pos / 512) by (apply Z.div_pos; lia). unfold cell. rewrite foreign_addr by done.
  destruct (block_addr view i (pos / 512)) as [c|] eqn:Hc; [|done]. cbn. rewrite Hv; [done|].
  left. apply (fm_data _ _ Hok). left. by exists (pos / 512).
Qed.
End foreign.

(** ** Taking a free block *)

Definition taken view (a : nat) : Z -> list Z :=
  <[Z.of_nat a := replicate BSIZE 0]> (<[bm := set_map_bit a (view bm)]> view).

Section taken.
Context view i (a : nat) (Hok : fmap_ok view i) (Ha : Z.of_nat a < size) (Hfree : map_bit (view bm) a = false).

Lemma taken_data : data (Z.of_nat a).
Proof using All. by apply (fm_free _ _ Hok). Qed.

Lemma taken_bm_ne : Z.of_nat a ≠ bm.
Proof using All. intros He. apply data_bm. rewrite <- He. apply taken_data. Qed.

Lemma taken_map b : map_bit (taken view a bm) b = bool_decide (a = b) || map_bit (view bm) b.
Proof using All.
  pose proof taken_bm_ne. unfold taken. rewrite fn_lookup_insert_ne, fn_lookup_insert by done. apply map_bit_set.
  rewrite (fm_map _ _ Hok). apply Nat.Div0.div_lt_upper_bound. unfold BSIZE in *. lia.
Qed.

Lemma taken_marked b : marked (taken view a) b <-> marked view b \/ b = Z.of_nat a.
Proof using All.
  unfold marked. rewrite taken_map. case_bool_decide as He; cbn [orb]; split.
  - intros [? _]. right. lia.
  - intros _. split; [|done]. pose proof (data_range _ taken_data). subst. lia.
  - intros [? ?]. by left.
  - intros [?| ->]; [done|]. by rewrite Nat2Z.id in He.
Qed.

Lemma taken_fresh b : marked view b -> b ≠ Z.of_nat a.
Proof using All. intros [_ Hm] ->. rewrite Nat2Z.id in Hm. congruence. Qed.

Lemma taken_same b : b ≠ bm -> b ≠ Z.of_nat a -> taken view a b = view b.
Proof using All. intros. unfold taken. by rewrite !fn_lookup_insert_ne by done. Qed.

Lemma taken_new : taken view a (Z.of_nat a) = replicate BSIZE 0.
Proof using All. apply fn_lookup_insert. Qed.

Lemma taken_owned b : owns view i b -> taken view a b = view b.
Proof using All.
  intros [Hd Hm]%(fm_data _ _ Hok). apply taken_same; [by intros ->|by apply taken_fresh].
Qed.

(** Nothing of the file changes yet. *)
Lemma taken_addr bn : 0 <= bn -> block_addr (taken view a) i bn = block_addr view i bn.
Proof using All.
  intros Hbn. unfold block_addr. destruct (bn <? _); [done|]. destruct (_ <? _); [|done].
  destruct (i_addrs i !! NDIRECT) as [ind|] eqn:Hi; [|done]. cbn [mbind option_bind]. destruct (Z.eqb_spec ind 0); [done|].
  by rewrite taken_owned by (right; done).
Qed.

Lemma taken_owns b : owns (taken view a) i b <-> owns view i b.
Proof using All.
  unfold owns. split; (intros [(bn & Hbn & Hb)|?]; [left|by right]); exists bn; by rewrite taken_addr in *.
Qed.

Lemma taken_size b : data b \/ b = bm -> length (taken view a b) = BSIZE.
Proof using All.
  intros Hb. destruct (decide (b = Z.of_nat a)) as [->|]; [rewrite taken_new; apply length_replicate|].
  destruct (decide (b = bm)) as [->|].
  - unfold taken. rewrite fn_lookup_insert_ne, fn_lookup_insert by (by apply not_eq_sym, taken_bm_ne || done).
    unfold set_map_bit. rewrite length_alter. apply (fm_map _ _ Hok).
  - rewrite taken_same by done. destruct Hb as [Hb|]; [|done]. by apply (fm_block _ _ Hok).
Qed.

Lemma taken_free_ok b : Z.of_nat b < size -> map_bit (taken view a bm) b = false -> data (Z.of_nat b).
Proof using All. intros Hb. rewrite taken_map. intros [_ Hf]%orb_false_iff. by apply (fm_free _ _ Hok). Qed.

Lemma taken_count : (free_count view <= free_count (taken view a) + 1)%nat.
Proof using All.
  unfold free_count. set (l := seq 0 (Z.to_nat size)).
  assert (Hl : NoDup l) by apply NoDup_seq. clearbody l.
  assert (Hin : (length (filter (fun b => map_bit (view bm) b = false) l) <=
    length (filter (fun b => map_bit (taken view a bm) b = false) l) + (if decide (a ∈ l) then 1 else 0))%nat).
  { induction l as [|x l IH]; [done|]. apply list.NoDup_cons in Hl as [Hx Hl]. specialize (IH Hl). rewrite !filter_cons.
    rewrite taken_map. case_bool_decide as Hax; cbn [orb].
    - subst x. rewrite decide_True by done. rewrite decide_False in IH by done. rewrite (decide_False (P := true = false)) by done.
      rewrite (decide_True (P := a ∈ a :: l)) by set_solver. cbn [length]. lia.
    - destruct (decide (a ∈ l)); [rewrite (decide_True (P := a ∈ x :: l)) by set_solver|rewrite (decide_False (P := a ∈ x :: l)) by set_solver];
      destruct (decide (map_bit (view bm) x = false)); cbn [length]; lia. }
  destruct (decide (a ∈ l)); lia.
Qed.

(** The file with one more pointer: the new block is the one of [bn], every other block keeps its place. *)
Section added.
Context (view' : Z -> list Z) (i' : inode) (bn : Z).
Context (Hmeta : i' = i <| i_addrs := i_addrs i' |>) (Hlen : length (i_addrs i') = 13%nat) (Hbn : 0 <= bn) (Hold : block_addr view i bn = None).
Context (Hnew : block_addr view' i' bn = Some (Z.of_nat a)) (Hrest : forall x, 0 <= x -> x ≠ bn -> block_addr view' i' x = block_addr view i x).
Context (Hind : i_addrs i' !! NDIRECT = i_addrs i !! NDIRECT) (Hbm : view' bm = taken view a bm).
Context (Hview : forall b, ~ (i_addrs i !! NDIRECT = Some b /\ b ≠ 0) -> view' b = taken view a b) (Hsize : forall b, data b -> length (view' b) = BSIZE).

Lemma added_marked b : marked view' b <-> marked view b \/ b = Z.of_nat a.
Proof using All. unfold marked at 1. rewrite Hbm. apply taken_marked. Qed.

Lemma added_owns b : owns view' i' b <-> owns view i b \/ b = Z.of_nat a.
Proof using All.
  unfold owns. rewrite Hind. split.
  - intros [(x & Hx & Hb)|?]; [|tauto]. destruct (decide (x = bn)) as [->|]; [right; congruence|]. rewrite Hrest in Hb by done. left. left. by exists x.
  - intros [[(x & Hx & Hb)|?]| ->]; [|tauto|left; by exists bn]. left. exists x. rewrite Hrest; [done|done|congruence].
Qed.

Lemma added_ok : fmap_ok view' i'.
Proof using All.
  assert (Hfresh : forall x, 0 <= x -> block_addr view i x ≠ Some (Z.of_nat a)).
  { intros x Hx He. destruct (fm_data _ _ Hok (Z.of_nat a)) as [_ Hm]; [left; by exists x|]. by apply taken_fresh in Hm. }
  split; [done| | | | |done|rewrite Hbm; apply taken_size; by right].
  - intros b [Ho| ->]%added_owns; rewrite added_marked.
    + destruct (fm_data _ _ Hok b Ho). tauto.
    + split; [apply taken_data|by right].
  - intros x y c Hx Hy Hc Hd. destruct (decide (x = bn)) as [->|]; destruct (decide (y = bn)) as [->|]; [done|..].
    + rewrite Hrest in Hd by done. rewrite Hnew in Hc. injection Hc as <-. by apply Hfresh in Hd.
    + rewrite Hrest in Hc by done. rewrite Hnew in Hd. injection Hd as <-. by apply Hfresh in Hc.
    + rewrite Hrest in Hc, Hd by done. by eapply (fm_inj _ _ Hok).
  - intros x ind Hx Hi He. rewrite Hind in Hi. destruct (decide (x = bn)) as [->|].
    + rewrite Hnew in He. injection He as <-. destruct (fm_data _ _ Hok (Z.of_nat a)) as [_ Hm]; [right; split; [done|]|by apply taken_fresh in Hm].
      pose proof (data_range _ taken_data). lia.
    + rewrite Hrest in He by done. by eapply (fm_ind _ _ Hok).
  - intros b Hb. rewrite Hbm. by apply taken_free_ok.
Qed.

Lemma added_extends : extends view i view' i'.
Proof using All.
  split; [done| | |intros b [?| ->]%added_owns; [by left|]|intros b ?; apply added_marked; by left| |by rewrite Hind].
  - intros x c Hx Hc. rewrite Hrest; [done|done|congruence].
  - intros x c Hx Hc. rewrite Hview; [by apply taken_owned; left; exists x|]. intros [Hi _]. by eapply (fm_ind _ _ Hok).
  - right. by intros Hm%taken_fresh.
  - intros b Hm Hb Ho. rewrite Hview by (intros ?; apply Ho; by right). apply taken_same; [done|by apply taken_fresh].
Qed.
End added.

(** A direct block. *)
Definition with_addr (n : nat) (b : Z) : inode := i <| i_addrs := <[n := b]> (i_addrs i) |>.

Lemma added_direct bn : 0 <= bn < 12 -> block_addr view i bn = None ->
  let i' := with_addr (Z.to_nat bn) (Z.of_nat a) in
  fmap_ok (taken view a) i' /\ extends view i (taken view a) i' /\ block_addr (taken view a) i' bn = Some (Z.of_nat a) /\
  i_addrs i' !! NDIRECT = i_addrs i !! NDIRECT.
Proof using All.
  intros Hbn Hold i'. pose proof (fm_len _ _ Hok) as Hl. pose proof (data_range _ taken_data) as Hr.
  assert (Hind : i_addrs i' !! NDIRECT = i_addrs i !! NDIRECT) by (cbn; rewrite list_lookup_insert_ne by (unfold NDIRECT; lia); done).
  assert (Hnew : block_addr (taken view a) i' bn = Some (Z.of_nat a)).
  { unfold block_addr. rewrite (proj2 (Z.ltb_lt bn _)) by (unfold NDIRECT; lia). cbn. rewrite list_lookup_insert_eq by lia. cbn.
    by rewrite (proj2 (Z.eqb_neq (Z.of_nat a) 0)) by lia. }
  assert (Hrest : forall x, 0 <= x -> x ≠ bn -> block_addr (taken view a) i' x = block_addr view i x).
  { intros x Hx Hne. rewrite <- (taken_addr x Hx). unfold block_addr. rewrite Hind. destruct (x <? _); [|done]. cbn.
    by rewrite list_lookup_insert_ne by lia. }
  assert (Hlen : length (i_addrs i') = 13%nat) by (cbn; by rewrite length_insert).
  split; [|split; [|done]].
  - apply (added_ok (taken view a) i' bn); [done|done|lia|done..|intros b Hb; apply taken_size; by left].
  - apply (added_extends (taken view a) i' bn); [done|done|lia|done..|intros b Hb; apply taken_size; by left].
Qed.

(** The indirect block: it is empty, so no block of bytes is added. *)
Lemma added_indirect : i_addrs i !! NDIRECT = Some 0 ->
  let i' := with_addr NDIRECT (Z.of_nat a) in
  fmap_ok (taken view a) i' /\ extends view i (taken view a) i' /\
  (forall x, 0 <= x -> block_addr (taken view a) i' x = block_addr view i x) /\ i_addrs i' !! NDIRECT = Some (Z.of_nat a).
Proof using All.
  intros Hi0 i'. pose proof (fm_len _ _ Hok) as Hl. pose proof (data_range _ taken_data) as Hr.
  assert (Hind : i_addrs i' !! NDIRECT = Some (Z.of_nat a)) by (cbn; rewrite list_lookup_insert_eq by (unfold NDIRECT; lia); done).
  assert (Hsame : forall x, 0 <= x -> block_addr (taken view a) i' x = block_addr view i x).
  { intros x Hx. unfold block_addr. rewrite Hind, Hi0. destruct (Z.ltb_spec x (Z.of_nat NDIRECT)) as [Hlt|Hge].
    - cbn -[NDIRECT]. rewrite list_lookup_insert_ne by lia. done.
    - destruct (Z.ltb_spec (x - Z.of_nat NDIRECT) (Z.of_nat NINDIRECT)); [|done]. cbn [mbind option_bind].
      rewrite (proj2 (Z.eqb_neq (Z.of_nat a) 0)) by lia. change (0 =? 0) with true. cbn match. rewrite taken_new.
      unfold get32, rd. rewrite drop_replicate, take_replicate. unfold NINDIRECT, BSIZE in *.
      replace (4 `min` (512 - 4 * Z.to_nat (x - Z.of_nat NDIRECT)))%nat with 4%nat by lia. done. }
  assert (Howns : forall b, owns (taken view a) i' b <-> owns view i b \/ b = Z.of_nat a).
  { intros b. unfold owns. rewrite Hind, Hi0. split.
    - intros [(x & Hx & Hb)|[[= <-] _]]; [|by right]. rewrite Hsame in Hb by done. left. left. by exists x.
    - intros [[(x & Hx & Hb)|[[= <-] ?]]| ->]; [|done|right; split; [done|lia]]. left. exists x. by rewrite Hsame. }
  assert (Hfresh : forall x, 0 <= x -> block_addr view i x ≠ Some (Z.of_nat a)).
  { intros x Hx He. destruct (fm_data _ _ Hok (Z.of_nat a)) as [_ Hm]; [left; by exists x|]. by apply taken_fresh in Hm. }
  split; [|split; [|done]].
  - split; [cbn; by rewrite length_insert| | | |apply taken_free_ok|intros b ?; apply taken_size; by left|apply taken_size; by right].
    + intros b [Ho| ->]%Howns; rewrite taken_marked; [destruct (fm_data _ _ Hok b Ho); tauto|split; [apply taken_data|by right]].
    + intros x y c Hx Hy. rewrite !Hsame by done. by apply (fm_inj _ _ Hok).
    + intros x ind Hx Hi. rewrite Hsame by done. rewrite Hind in Hi. injection Hi as <-. by apply Hfresh.
  - split; [done| | |intros b [?| ->]%Howns; [by left|]|intros b ?; apply taken_marked; by left| |intros x Hx; rewrite Hi0; by intros [= <-]].
    + intros x c Hx Hc. by rewrite Hsame.
    + intros x c Hx Hc. apply taken_owned. left. by exists x.
    + right. by intros Hm%taken_fresh.
    + intros b Hm Hb Ho. apply taken_same; [done|by apply taken_fresh].
Qed.

(** An entry of the indirect block. *)
Definition entry_set (ind bn : Z) : Z -> list Z :=
  <[ind := put32 (4 * Z.to_nat (bn - 12)) (Z.of_nat a) (taken view a ind)]> (taken view a).

Lemma added_entry bn ind : 12 <= bn < 140 -> block_addr view i bn = None -> i_addrs i !! NDIRECT = Some ind -> ind ≠ 0 ->
  fmap_ok (entry_set ind bn) i /\ extends view i (entry_set ind bn) i /\ block_addr (entry_set ind bn) i bn = Some (Z.of_nat a).
Proof using All.
  intros Hbn Hold Hi H0. pose proof (data_range _ taken_data) as Hr.
  assert (Hown : owns view i ind) by (right; done). destruct (fm_data _ _ Hok ind Hown) as [Hd Hm].
  assert (Hindbm : ind ≠ bm) by (by intros ->). pose proof (fm_block _ _ Hok ind Hd) as Hlind. unfold BSIZE in Hlind.
  assert (Hput : forall z d, length (put32 (4 * Z.to_nat (bn - 12)) z d) = length d) by (intros; apply length_put32).
  assert (Haddr : forall x, 0 <= x -> block_addr (entry_set ind bn) i x = if decide (x = bn) then Some (Z.of_nat a) else block_addr view i x).
  { intros x Hx. unfold block_addr at 1. destruct (Z.ltb_spec x (Z.of_nat NDIRECT)) as [Hlt|Hge].
    { rewrite decide_False by (unfold NDIRECT in *; lia). unfold block_addr. by rewrite (proj2 (Z.ltb_lt x _)). }
    destruct (Z.ltb_spec (x - Z.of_nat NDIRECT) (Z.of_nat NINDIRECT)) as [Hlt|Hge2].
    2:{ rewrite decide_False by (unfold NDIRECT, NINDIRECT in *; lia). unfold block_addr.
        by rewrite (proj2 (Z.ltb_ge x _)), (proj2 (Z.ltb_ge (x - Z.of_nat NDIRECT) _)). }
    rewrite Hi. cbn [mbind option_bind]. rewrite (proj2 (Z.eqb_neq ind 0)) by done. unfold entry_set. rewrite fn_lookup_insert.
    rewrite (taken_owned ind Hown). unfold NDIRECT, NINDIRECT in *. change (Z.of_nat 12) with 12 in *. case_decide as Hx'.
    - subst x. rewrite get_put32 by lia. rewrite u32_id by (unfold is_u32; lia). by rewrite (proj2 (Z.eqb_neq (Z.of_nat a) 0)) by lia.
    - rewrite get_put32_ne by lia. unfold block_addr, NDIRECT, NINDIRECT. change (Z.of_nat 12) with 12.
      rewrite (proj2 (Z.ltb_ge x 12)), (proj2 (Z.ltb_lt (x - 12) _)), Hi by done. cbn [mbind option_bind].
      by rewrite (proj2 (Z.eqb_neq ind 0)). }
  assert (Hnew : block_addr (entry_set ind bn) i bn = Some (Z.of_nat a)) by (rewrite Haddr, decide_True by lia; done).
  assert (Hrest : forall x, 0 <= x -> x ≠ bn -> block_addr (entry_set ind bn) i x = block_addr view i x)
    by (intros x Hx Hne; by rewrite Haddr, decide_False).
  assert (Hview : forall b, ~ (i_addrs i !! NDIRECT = Some b /\ b ≠ 0) -> entry_set ind bn b = taken view a b).
  { intros b Hb. apply fn_lookup_insert_ne. intros <-. by apply Hb. }
  assert (Hsize : forall b, data b -> length (entry_set ind bn b) = BSIZE).
  { intros b Hb. unfold entry_set. destruct (decide (b = ind)) as [->|]; [rewrite fn_lookup_insert, Hput; apply taken_size; by left|].
    rewrite fn_lookup_insert_ne by done. apply taken_size. by left. }
  assert (Hbm : entry_set ind bn bm = taken view a bm) by (by apply fn_lookup_insert_ne).
  assert (Hmeta : i = i <| i_addrs := i_addrs i |>) by (by destruct i).
  split; [|split; [|done]].
  - apply (added_ok (entry_set ind bn) i bn); [done|apply (fm_len _ _ Hok)|lia|done..].
  - apply (added_extends (entry_set ind bn) i bn); [done|apply (fm_len _ _ Hok)|lia|done..].
Qed.
End taken.
End blocks.

(** ** The code *)

Section write.
Context `{BC : BlockCache} `{Dev : Devices} (m : machine) (co : console) (me : nat) (pid : Z).
(** The state, the inode and its block before the call. *)
Context (k0 : kst) (ip : nat) (i0 : inode) (iblk : Z).
Abbreviation bm := (sb_bmapstart (k_sb k0)).
Abbreviation nblk := (sb_size (k_sb k0)).
Abbreviation nd := (Z.of_nat (length (k_disk k0))).
Implicit Types (view : Z -> list Z) (i : inode) (bs : list Z) (hm : gmap nat Z).

Definition data_block (b : Z) : Prop := home (k_log k0) nd b /\ b ≠ bm /\ b ≠ iblk /\ 0 < b.
Abbreviation fok := (fmap_ok data_block bm nblk).
Abbreviation count := (free_count bm nblk).
Abbreviation grows := (extends bm).

Context (Hi0 : k_inodes k0 !! ip = Some i0) (Hdev : i_dev i0 = 1) (Hnd : nd < 2 ^ 31).
Context (Hmap : 0 < nblk <= BPB /\ home (k_log k0) nd bm /\ is_u32 bm).

Lemma data_range b : data_block b -> 0 < b < 2 ^ 32.
Proof using Hnd. intros ([[_ ?] _] & _ & _ & ?). lia. Qed.

Lemma data_bm : ~ data_block bm.
Proof using. by intros (_ & ? & _). Qed.

Lemma size_ok : nblk <= 8 * Z.of_nat BSIZE.
Proof using Hmap. unfold BPB, BSIZE in *. lia. Qed.

(** From [k0] on, only the cache, the log and the addresses in the inode have changed. *)
Definition wframe (k : kst) i : Prop :=
  exists l, uncached k = uncached k0 <| k_log := l |> <| k_inodes := <[ip := i]> (k_inodes k0) |> /\
    same_head (k_log k0) l /\ i = i0 <| i_addrs := i_addrs i |>.

Lemma wframe_proj k i : wframe k i ->
  k_disk k = k_disk k0 /\ k_sb k = k_sb k0 /\ k_inodes k !! ip = Some i /\ l_size (k_log k) = l_size (k_log k0) /\
  (forall n, home (k_log k) nd n <-> home (k_log k0) nd n) /\ i_dev i = 1 /\ i_inum i = i_inum i0 /\ i_size i = i_size i0 /\ i_type i = i_type i0.
Proof using Hi0 Hdev.
  intros (l & Hk & Hs & Hm). apply lookup_lt_Some in Hi0 as Hlt. destruct (same_head_proj _ _ Hs) as (Hs1 & Hz & _).
  split; [exact (f_equal k_disk Hk)|]. split; [exact (f_equal k_sb Hk)|].
  split; [rewrite (f_equal k_inodes Hk : k_inodes k = _); by apply list_lookup_insert_eq|].
  rewrite (f_equal k_log Hk : k_log k = l). split; [done|]. split; [intros n; unfold home; by rewrite Hs1, Hz|].
  rewrite Hm. done.
Qed.

Lemma wframe_fs k k' i : wframe k i -> fs_frame k k' -> wframe k' i.
Proof using.
  intros (l & Hk & Hs & Hm) (l' & Hw & Hs'). unfold wrote in Hw. cbn in Hw. rewrite (f_equal k_log Hk : k_log k = l) in Hs'.
  exists l'. rewrite Hw, Hk. split; [done|]. split; [by eapply same_head_trans|done].
Qed.

(** Room in the log and in the cache. *)
Lemma in_op_room k hm view bs r q r' q' :
  in_op pid k hm view bs r q -> Z.of_nat (length bs + r') < l_size (k_log k) -> (size hm + length bs + q' < NBUF)%nat ->
  in_op pid k hm view bs r' q'.
Proof. intros [H1 H2 H3 _ _] Hr Hq. by split. Qed.

Lemma in_op_same k k' view bs r q :
  in_op pid k ∅ view bs r q -> blk k' pid ∅ (list_to_set bs) view -> uncached k' = uncached k -> in_op pid k' ∅ view bs r q.
Proof.
  intros [_ H2 H3 H4 H5] Hb Hk. split; [done|..]; rewrite ?(f_equal k_log Hk : k_log k' = k_log k); try done.
  by rewrite (f_equal k_disk Hk : k_disk k' = k_disk k).
Qed.

Lemma map_ok_k k i view : wframe k i -> map_ok k view.
Proof using All.
  intros Hf. destruct (wframe_proj k i Hf) as (Hd & Hs & _ & _ & Hh & _). split; rewrite ?Hd, ?Hs; [lia|apply Hh, Hmap|apply Hmap].
Qed.

(** A free block is found. *)
Lemma count_free view : (0 < count view)%nat -> exists a, find_free (Z.to_nat BPB) (view bm) 0 nblk 0 = Some a.
Proof using Hmap.
  intros Hc. destruct (find_free _ _ _ _ _) as [a|] eqn:Hf; [by exists a|]. exfalso.
  unfold free_count in Hc. destruct (filter _ _) as [|b l] eqn:Hl; [inversion Hc|].
  assert (Hb : b ∈ filter (fun b => map_bit (view bm) b = false) (seq 0 (Z.to_nat nblk))) by (rewrite Hl; constructor).
  apply list_elem_of_filter in Hb as [Hb Hs]. apply elem_of_seq in Hs.
  assert (map_bit (view bm) b = true); [|congruence].
  unfold BPB in *. refine (find_free_none _ _ _ _ _ Hf _ b _ _ _); unfold BPB; clear Hf; lia.
Qed.

(** [balloc] takes one. *)
Lemma wp_take p k hm view i bs (Q : Z -> world kst -> Prop) :
  running m p me pid -> in_op pid k hm view bs 0 0 -> wframe k i -> fok view i ->
  Z.of_nat (length bs + 2) < l_size (k_log k0) -> (size hm + length bs + 2 < NBUF)%nat ->
  (0 < count view)%nat -> (forall j b, hm !! j = Some b -> marked bm view b /\ b ≠ bm) ->
  (forall a p' k', running m p' me pid -> in_op pid k' hm (taken bm view a) (log_add (log_add bs bm) (Z.of_nat a)) 0 0 -> wframe k' i ->
     Z.of_nat a < nblk -> map_bit (view bm) a = false -> Q (Z.of_nat a) (W (held m []) co p' k')) ->
  wp (balloc 1) Q (W (held m []) co p k).
Proof using All.
  intros Hrun Hop Hf Hok Hr Hq Hc Hhm HQ. destruct (wframe_proj k i Hf) as (Hd & Hs & _ & Hz & Hh & _).
  destruct (count_free view Hc) as [a Ha]. destruct (find_free_spec _ _ _ _ _ _ Ha) as (_ & _ & Hlt & Hbit & _). rewrite Z.add_0_l in Hlt.
  destruct (fm_free _ _ _ _ _ Hok a Hlt Hbit) as (Hhome & _).
  assert (Hop2 : in_op pid k hm view bs 2 2) by (eapply in_op_room; [exact Hop|lia|done]).
  eapply (wp_balloc m co me pid p k hm view bs 0 0 a); rewrite ?Hs, ?Hd; [done|exact Hop2|by eapply map_ok_k|exact Ha|by apply Hh| | |].
  - intros j Hj. by destruct (Hhm j _ Hj).
  - intros j Hj. destruct (Hhm j _ Hj) as [[_ Hm] _]. rewrite Nat2Z.id in Hm. congruence.
  - intros p' k' Hrun' Hop' Hf'. apply HQ; [done|done|by eapply wframe_fs|done..].
Qed.

(** [ip->addrs[n] = b] *)
Lemma wp_set_addr p k hm view i bs n b (Q : unit -> world kst -> Prop) m' :
  in_op pid k hm view bs 0 0 -> wframe k i ->
  (forall k', in_op pid k' hm view bs 0 0 -> wframe k' (with_addr i n b) -> Q tt (W m' co p k')) ->
  wp (set_addr ip n b) Q (W m' co p k).
Proof using All.
  intros [H1 H2 H3 H4 H5] Hf HQ. unfold set_addr, set_inode. apply wp_upd_s. apply HQ.
  - split; [|done..]. by apply (blk_frame k).
  - destruct Hf as (l & Hk & Hs & Hm). exists l. split; [|split; [done|]].
    + change (uncached (k <| k_inodes := alter (fun i => i <| i_addrs := <[n := b]> (i_addrs i) |>) ip (k_inodes k) |>))
        with (uncached k <| k_inodes := alter (fun i => i <| i_addrs := <[n := b]> (i_addrs i) |>) ip (k_inodes (uncached k)) |>).
      rewrite Hk. unfold set_field. cbn -[alter insert]. f_equal. apply lookup_lt_Some in Hi0 as Hlt.
      rewrite (alter_is_insert _ _ ip i) by (by apply list_lookup_insert_eq). by rewrite list_insert_insert_eq.
    + rewrite Hm. done.
Qed.

(** The free blocks, and one more when the indirect block is there. *)
Definition spare view i : nat := (count view + (if decide (i_addrs i !! NDIRECT = Some 0%Z) then 0 else 1))%nat.

(** What a step adds to the file and to the transaction; [a] is the block of bytes it is for. *)
Record wstep view i bs view' i' bs' (a : Z) : Prop := {
  st_ok : fok view' i';
  st_ext : grows view i view' i';
  st_bs : forall x, x ∈ bs' -> x ∈ bs \/ x = bm \/ x = a \/ (i_addrs i' !! NDIRECT = Some x /\ x ≠ 0);
  st_spare : (spare view i <= spare view' i' + 1)%nat;
}.

Lemma log_add_in bs n x : x ∈ log_add bs n -> x ∈ bs \/ x = n.
Proof. unfold log_add. case_decide; [by left|]. intros [?|?%list_elem_of_singleton]%elem_of_app; tauto. Qed.

Lemma wp_addr_at p k i (Q : inode -> world kst -> Prop) m' : wframe k i -> Q i (W m' co p k) -> wp (inode_at ip) Q (W m' co p k).
Proof using Hi0 Hdev.
  intros Hf HQ. destruct (wframe_proj k i Hf) as (_ & _ & Hi & _). unfold inode_at. ksteps. exact HQ.
Qed.

Section alloc.
Context view i bs (Hok : fok view i) (Hr : Z.of_nat (length bs + 5) < l_size (k_log k0)) (Hq : (length bs + 8 < NBUF)%nat).

Lemma wp_bmap_direct p k bn (Q : Z -> world kst -> Prop) :
  running m p me pid -> in_op pid k ∅ view bs 0 0 -> wframe k i -> (0 < count view)%nat -> 0 <= bn < 12 -> block_addr view i bn = None ->
  (forall a p' k' view' i' bs', running m p' me pid -> in_op pid k' ∅ view' bs' 0 0 -> wframe k' i' -> wstep view i bs view' i' bs' a ->
     block_addr view' i' bn = Some a -> Q a (W (held m []) co p' k')) ->
  wp (addr_or_alloc ip (Z.to_nat bn)) Q (W (held m []) co p k).
Proof using All.
  intros Hrun Hop Hf Hc Hbn Hnone HQ. destruct (wframe_proj k i Hf) as (_ & _ & _ & _ & _ & Hd & _).
  unfold addr_or_alloc. kstep. apply (wp_addr_at p k i); [done|].
  unfold block_addr in Hnone. rewrite (proj2 (Z.ltb_lt bn _)) in Hnone by (unfold NDIRECT; lia).
  destruct (lookup_lt_is_Some_2 (i_addrs i) (Z.to_nat bn)) as [x Hx]; [rewrite (fm_len _ _ _ _ _ Hok); lia|].
  rewrite Hx in Hnone. cbn in Hnone. rewrite Hx. destruct (Z.eqb_spec x 0) as [Hx0|]; [subst x|done]. ksteps. change (0 =? 0) with true. cbn match. rewrite Hd.
  kstep. eapply (wp_take p k ∅ view i bs); [done..|lia|rewrite map_size_empty; lia|done|intros ? ? ?; by rewrite lookup_empty in *|].
  intros a p1 k1 Hrun1 Hop1 Hf1 Ha Hfree.
  assert (Hnone' : block_addr view i bn = None).
  { unfold block_addr. rewrite (proj2 (Z.ltb_lt bn _)) by (unfold NDIRECT; lia). by rewrite Hx. }
  destruct (added_direct data_block bm nblk data_range data_bm size_ok view i a Hok Ha Hfree bn Hbn Hnone') as (Hok' & Hext & Hnew & Hind).
  kstep. eapply wp_set_addr; [exact Hop1|exact Hf1|]. intros k2 Hop2 Hf2. kstep.
  eapply (HQ _ _ _ (taken bm view a)); [done|exact Hop2|exact Hf2| |exact Hnew]. split; [done|done| |].
  - intros y [[?| ->]%log_add_in| ->]%log_add_in; tauto.
  - unfold spare. rewrite Hind. pose proof (taken_count data_block bm nblk data_range data_bm size_ok view i a Hok Ha Hfree). lia.
Qed.

(** The indirect block. *)
Lemma wp_addr_indirect p k (Q : Z -> world kst -> Prop) :
  running m p me pid -> in_op pid k ∅ view bs 0 0 -> wframe k i -> (0 < count view)%nat ->
  (forall ind p' k' view' i' bs', running m p' me pid -> in_op pid k' ∅ view' bs' 0 0 -> wframe k' i' -> fok view' i' -> grows view i view' i' ->
     (forall x, 0 <= x -> block_addr view' i' x = block_addr view i x) -> i_addrs i' !! NDIRECT = Some ind -> ind ≠ 0 ->
     (forall x, x ∈ bs' -> x ∈ bs \/ x = bm \/ x = ind) -> (length bs' <= length bs + 2)%nat -> (spare view i <= spare view' i')%nat ->
     Q ind (W (held m []) co p' k')) ->
  wp (addr_or_alloc ip NDIRECT) Q (W (held m []) co p k).
Proof using All.
  intros Hrun Hop Hf Hc HQ. destruct (wframe_proj k i Hf) as (_ & _ & _ & _ & _ & Hd & _).
  unfold addr_or_alloc. kstep. apply (wp_addr_at p k i); [done|].
  destruct (lookup_lt_is_Some_2 (i_addrs i) NDIRECT) as [x Hx]; [rewrite (fm_len _ _ _ _ _ Hok); unfold NDIRECT; lia|].
  rewrite Hx. ksteps. destruct (Z.eqb_spec x 0) as [->|Hne].
  2:{ kstep. eapply (HQ x p k view i bs); [done..|apply extends_refl|done|done|done|tauto|lia|done]. }
  rewrite Hd. kstep. eapply (wp_take p k ∅ view i bs); [done..|lia|rewrite map_size_empty; lia|done|intros ? ? ?; by rewrite lookup_empty in *|].
  intros a p1 k1 Hrun1 Hop1 Hf1 Ha Hfree.
  destruct (added_indirect data_block bm nblk data_range data_bm size_ok view i a Hok Ha Hfree Hx) as (Hok' & Hext & Hsame & Hind).
  assert (Hne : Z.of_nat a ≠ 0) by (pose proof (data_range _ (fm_free _ _ _ _ _ Hok a Ha Hfree)); lia).
  kstep. eapply wp_set_addr; [exact Hop1|exact Hf1|]. intros k2 Hop2 Hf2. kstep.
  eapply (HQ (Z.of_nat a) p1 k2 (taken bm view a)); [done|exact Hop2|exact Hf2|done..| | |].
  - intros y [[?| ->]%log_add_in| ->]%log_add_in; tauto.
  - pose proof (log_add_length bs bm). pose proof (log_add_length (log_add bs bm) (Z.of_nat a)). lia.
  - unfold spare. pose proof (taken_count data_block bm nblk data_range data_bm size_ok view i a Hok Ha Hfree).
    rewrite decide_True by done. rewrite decide_False; [lia|]. rewrite Hind. by intros [= ?].
Qed.
End alloc.

(** The bytes of an entry that is not there. *)
Lemma entry_none view i bn ind : 12 <= bn < 140 -> i_addrs i !! NDIRECT = Some ind -> ind ≠ 0 -> block_addr view i bn = None ->
  get32 (4 * Z.to_nat (bn - Z.of_nat NDIRECT)) (view ind) = 0.
Proof.
  intros Hbn Hi Hne. unfold block_addr. unfold NDIRECT, NINDIRECT in *. change (Z.of_nat 12) with 12 in *.
  rewrite (proj2 (Z.ltb_ge bn 12)), (proj2 (Z.ltb_lt (bn - 12) _)), Hi by lia. cbn [mbind option_bind].
  rewrite (proj2 (Z.eqb_neq ind 0)) by done. destruct (Z.eqb_spec (get32 (4 * Z.to_nat (bn - 12)) (view ind)) 0); done.
Qed.

Lemma wp_bmap_entry p k view i bs bn ind (Q : Z -> world kst -> Prop) :
  fok view i -> Z.of_nat (length bs + 3) < l_size (k_log k0) -> (length bs + 6 < NBUF)%nat ->
  running m p me pid -> in_op pid k ∅ view bs 0 0 -> wframe k i -> (0 < count view)%nat ->
  12 <= bn < 140 -> block_addr view i bn = None -> i_addrs i !! NDIRECT = Some ind -> ind ≠ 0 ->
  (forall a p' k' view' bs', running m p' me pid -> in_op pid k' ∅ view' bs' 0 0 -> wframe k' i -> wstep view i bs view' i bs' a ->
     block_addr view' i bn = Some a -> Q a (W (held m []) co p' k')) ->
  wp (let! i := inode_at ip in
      let! bp := bread (i_dev i) ind in
      let! x := buf_at bp in
      let a := get32 (4 * Z.to_nat (bn - Z.of_nat NDIRECT)) (b_data x) in
      let! a :=
        (if a =? 0 then
           let! a := balloc (i_dev i) in
           set_data bp (put32 (4 * Z.to_nat (bn - Z.of_nat NDIRECT)) a) ;;;
           log_write bp ;;;
           ret a
         else ret a) in
      brelse bp ;;;
      ret a) Q (W (held m []) co p k).
Proof using All.
  intros Hok Hr Hq Hrun Hop Hf Hc Hbn Hnone Hi Hne HQ. destruct (wframe_proj k i Hf) as (Hd & _ & _ & Hz & Hh & Hdv & _).
  destruct (fm_data _ _ _ _ _ Hok ind) as [(Hhome & Hibm & _) Hmk]; [by right|].
  kstep. apply (wp_addr_at p k i); [done|]. rewrite Hdv. kstep.
  eapply (wp_op_bread m co me pid p k ∅ view bs 0 0); [done|eapply in_op_room; [exact Hop|lia|rewrite map_size_empty; lia]|rewrite Hd; apply Hhome| |].
  { intros j. by rewrite lookup_empty. }
  intros bp k1 Hbp Hop1 Hf1. rewrite insert_empty in Hop1. pose proof (wframe_fs k k1 i Hf Hf1) as Hw1.
  kstep. eapply (blk_get _ _ _ _ _ k1); [done|apply (op_blk _ _ _ _ _ _ _ Hop1)|apply lookup_singleton_eq|].
  intros x _ Hx. rewrite Hx. cbv zeta. rewrite (entry_none view i bn ind) by done. change (0 =? 0) with true. cbn match. do 2 kstep.
  eapply (wp_take p k1 {[bp := ind]} view i bs); [done|exact Hop1|done|done|lia|rewrite map_size_singleton; lia|done| |].
  { intros j b [<- <-]%lookup_singleton_Some. done. }
  intros a p2 k2 Hrun2 Hop2 Hf2 Ha Hfree. destruct (wframe_proj k2 i Hf2) as (Hd2 & _ & _ & Hz2 & Hh2 & _).
  destruct (added_entry data_block bm nblk data_range data_bm size_ok view i a Hok Ha Hfree bn ind Hbn Hnone Hi Hne) as (Hok' & Hext & Hnew).
  set (bs2 := log_add (log_add bs bm) (Z.of_nat a)) in *.
  assert (Hl2 : (length bs2 <= length bs + 2)%nat)
    by (pose proof (log_add_length bs bm); pose proof (log_add_length (log_add bs bm) (Z.of_nat a)); unfold bs2; lia).
  assert (Hlind : length (taken bm view a ind) = BSIZE).
  { rewrite (taken_owned data_block bm nblk data_range data_bm size_ok view i a Hok Ha Hfree) by (by right).
    apply (fm_block _ _ _ _ _ Hok). apply (fm_data _ _ _ _ _ Hok). by right. }
  assert (Hwp : wp (set_data bp (put32 (4 * Z.to_nat (bn - Z.of_nat NDIRECT)) (Z.of_nat a)) ;;; log_write bp ;;; brelse bp)
    (fun _ w => wp (ret (Z.of_nat a)) Q w) (W (held m []) co p2 k2)).
  { eapply (wp_update_block m co me pid p2 k2 {[bp := ind]} (taken bm view a) bs2 0 0 bp ind); [done| |apply lookup_singleton_eq| | |].
    - eapply in_op_room; [exact Hop2|lia|rewrite map_size_singleton; lia].
    - rewrite Hd2. by apply Hh2.
    - by rewrite length_put32.
    - intros p3 k3 Hrun3 Hop3 Hf3. kstep. rewrite delete_singleton_eq in Hop3.
      eapply (HQ _ _ _ (entry_set bm view a ind bn)); [done|exact Hop3|by eapply wframe_fs| |exact Hnew]. split; [done|done| |].
      + intros y [[[?| ->]%log_add_in| ->]%log_add_in| ->]%log_add_in; tauto.
      + unfold spare. pose proof (taken_count data_block bm nblk data_range data_bm size_ok view i a Hok Ha Hfree) as Hcount.
        assert (count (entry_set bm view a ind bn) = count (taken bm view a)) as ->; [|lia].
        unfold free_count. unfold entry_set. by rewrite fn_lookup_insert_ne. }
  apply wp_bind_inv in Hwp. kstep. eapply wp_mono; [exact Hwp|]. intros [] w3 Hw3.
  apply wp_bind_inv in Hw3. kstep. eapply wp_mono; [exact Hw3|]. intros [] w4 Hw4. kstep. kstep. exact Hw4.
Qed.

(** [bmap], whether the block is there or not. *)
Lemma wp_bmap_write p k view i bs bn (Q : Z -> world kst -> Prop) :
  fok view i -> Z.of_nat (length bs + 5) < l_size (k_log k0) -> (length bs + 8 < NBUF)%nat ->
  running m p me pid -> in_op pid k ∅ view bs 0 0 -> wframe k i -> (2 <= spare view i)%nat -> 0 <= bn < 140 ->
  (forall a p' k' view' i' bs', running m p' me pid -> in_op pid k' ∅ view' bs' 0 0 -> wframe k' i' -> wstep view i bs view' i' bs' a ->
     block_addr view' i' bn = Some a -> Q a (W (held m []) co p' k')) ->
  wp (bmap ip bn) Q (W (held m []) co p k).
Proof using All.
  intros Hok Hr Hq Hrun Hop Hf Hsp Hbn HQ. destruct (wframe_proj k i Hf) as (Hd & _ & Hi & Hz & Hh & Hdv & _).
  destruct (block_addr view i bn) as [a|] eqn:Ha.
  - eapply (wp_bmap_mapped m co me pid k ∅ (list_to_set bs) view); [|exact Hi|exact Hdv|exact Hrun|split; [apply Hop|done]|lia|exact Ha| |].
    + rewrite map_size_empty, (size_list_to_set bs) by apply Hop. lia.
    + intros Hge ind Hind. assert (Hne : ind ≠ 0).
      { intros ->. unfold block_addr in Ha. rewrite (proj2 (Z.ltb_ge bn _)), Hind in Ha by done. by destruct (_ <? _). }
      destruct (fm_data _ _ _ _ _ Hok ind) as [(Hhome & _) _]; [by right|]. split; [rewrite Hd; apply Hhome|]. intros j. by rewrite lookup_empty.
    + intros p' k' Hrun' [Hb' Hk']. eapply (HQ a p' k' view i bs); [done|by eapply in_op_same|by eapply wframe_fs, fs_frame_refl| |done].
      split; [done|apply extends_refl|tauto|lia].
  - assert (Hc : (0 < count view)%nat) by (unfold spare in Hsp; destruct (decide _); lia).
    unfold bmap. destruct (Z.ltb_spec bn (Z.of_nat NDIRECT)) as [Hlt|Hge].
    { eapply wp_bmap_direct; [exact Hok|done..|unfold NDIRECT in *; lia|done|exact HQ]. }
    unfold NDIRECT, NINDIRECT in Hge |- *. rewrite (proj2 (Z.ltb_lt (bn - Z.of_nat 12) _)) by lia. fold NDIRECT.
    kstep. eapply wp_addr_indirect; [exact Hok|done..|].
    intros ind p1 k1 v1 i1 bs1 Hrun1 Hop1 Hf1 Hok1 Hx1 Hsame Hind Hne Hbs1 Hl1 Hsp1.
    assert (Hc1 : (0 < count v1)%nat) by (unfold spare in Hsp, Hsp1; destruct (decide (i_addrs i1 !! _ = _)); lia).
    eapply (wp_bmap_entry p1 k1 v1 i1 bs1 bn ind); [done|lia|lia|done..|lia|by rewrite Hsame by lia|done|done|].
    intros a p2 k2 v2 bs2 Hrun2 Hop2 Hf2 [Hok2 Hx2 Hbs2 Hsp2] Hnew. eapply HQ; [done|done|exact Hf2| |done].
    split; [done|by eapply extends_trans| |lia].
    intros y [Hy|Hy]%Hbs2; [|tauto]. destruct (Hbs1 y Hy) as [?|[?| ->]]; [tauto|tauto|right; right; right; done].
Qed.

(** ** The loop *)

(** The bytes of the file that are known when the loop has come from [off] to [o]. *)
Definition known view0 (off : Z) (src0 : list Z) (o pos : Z) : option Z :=
  if decide (off <= pos < o) then src0 !! Z.to_nat (pos - off) else cell view0 i0 pos.

(** The invariant: [D] are the blocks written so far. *)
Record winv view0 bs0 (off : Z) (src0 : list Z) (o : Z) view i bs (D : list Z) : Prop := {
  wi_ok : fok view i;
  wi_kept : kept bm view0 i0 view i;
  wi_cell : forall pos c, 0 <= pos -> known view0 off src0 o pos = Some c -> cell view i pos = Some c;
  wi_bs : forall x, x ∈ bs -> x ∈ bs0 \/ x ∈ D \/ x = bm \/ (i_addrs i !! NDIRECT = Some x /\ x ≠ 0);
}.

Lemma winv_length view0 bs0 off src0 o view i bs D :
  NoDup bs -> winv view0 bs0 off src0 o view i bs D -> (length bs <= length bs0 + length D + 2)%nat.
Proof using Type.
  intros Hnd' [_ _ _ Hbs].
  assert (Hsub : bs ⊆+ bs0 ++ D ++ [bm; default 0 (i_addrs i !! NDIRECT)]).
  { apply NoDup_submseteq; [done|]. intros x Hx. rewrite !elem_of_app. destruct (Hbs x Hx) as [?|[?|[->|[-> _]]]]; [by left|by right; left|right; right; constructor|right; right; cbn; do 2 constructor]. }
  apply submseteq_length in Hsub. rewrite !length_app in Hsub. cbn in Hsub. clear - Hsub. lia.
Qed.

(** The bytes after one more chunk. *)
Lemma known_chunk view0 off src0 o n view i bn a d (Hok : fok view i) (Hbn : o / 512 = bn) (Ha : block_addr view i bn = Some a) (Hl : length (view a) = BSIZE) :
  0 <= off <= o -> (0 < n)%nat -> o mod 512 + Z.of_nat n <= 512 ->
  d = wr (Z.to_nat (o mod 512)) (take n (drop (Z.to_nat (o - off)) src0)) (view a) -> (Z.to_nat (o - off) + n <= length src0)%nat ->
  (forall pos c, 0 <= pos -> known view0 off src0 o pos = Some c -> cell view i pos = Some c) ->
  forall pos c, 0 <= pos -> known view0 off src0 (o + Z.of_nat n) pos = Some c -> cell (<[a := d]> view) i pos = Some c.
Proof using All.
  intros Ho Hn Hm Hd Hsrc Hcell pos c Hp Hk. assert (0 <= bn) by (subst bn; apply Z.div_pos; lia).
  assert (Hld : length d = BSIZE) by (subst d; by rewrite length_wr).
  rewrite (bytes_cell data_block bm nblk data_range data_bm size_ok view i bn a d Hok ltac:(done) Ha Hld pos Hp).
  pose proof (Z.div_mod o 512 ltac:(lia)) as Eo. pose proof (Z.mod_pos_bound o 512 ltac:(lia)) as Bo.
  pose proof (Z.div_mod pos 512 ltac:(lia)) as Ep. pose proof (Z.mod_pos_bound pos 512 ltac:(lia)) as Bp.
  assert (Hlt : length (take n (drop (Z.to_nat (o - off)) src0)) = n) by (rewrite length_take, length_drop; lia).
  case_decide as He.
  - subst d. rewrite lookup_wr by (rewrite Hlt, Hl; unfold BSIZE; lia). rewrite Hlt. rewrite He in Ep.
    rewrite Hbn in Eo. destruct (decide (o <= pos < o + Z.of_nat n)) as [Hin|Hout].
    + rewrite decide_True by lia. rewrite lookup_take_lt, lookup_drop by lia. unfold known in Hk. rewrite decide_True in Hk by lia.
      rewrite <- Hk. f_equal. lia.
    + rewrite decide_False by lia. assert (Hk' : known view0 off src0 o pos = Some c).
      { unfold known in *. destruct (decide (off <= pos < o)); [by rewrite decide_True in Hk by lia|by rewrite decide_False in Hk by lia]. }
      apply Hcell in Hk'; [|done]. unfold cell in Hk'. rewrite He, Ha in Hk'. done.
  - apply Hcell; [done|]. unfold known in *. destruct (decide (off <= pos < o)); [by rewrite decide_True in Hk by lia|].
    rewrite decide_False in Hk; [done|]. intros Hin. apply He. subst bn. symmetry. apply (Z.div_unique pos 512 (o / 512) (pos - 512 * (o / 512))); lia.
Qed.

Section loop.
Context view0 bs0 (off : Z) (src0 : list Z) (T : nat).
Context (Hlog : Z.of_nat (length bs0 + T + 6) < l_size (k_log k0)) (Hbuf : (length bs0 + T + 9 < NBUF)%nat) (Hoff : 0 <= off).
Let e : Z := off + Z.of_nat (length src0).
Context (He : e <= 140 * 512).

(** The three calls that write a block back, followed by [rest]. *)
Lemma wp_update_seq {A} bp f (rest : MK A) (Q : A -> world kst -> Prop) w :
  wp (set_data bp f ;;; log_write bp ;;; brelse bp) (fun _ w => wp rest Q w) w -> wp (set_data bp f ;;; log_write bp ;;; brelse bp ;;; rest) Q w.
Proof using.
  intros Hwp. apply wp_bind_inv in Hwp. kstep. eapply wp_mono; [exact Hwp|]. intros [] w1 Hw1.
  apply wp_bind_inv in Hw1. kstep. eapply wp_mono; [exact Hw1|]. intros [] w2 Hw2. kstep. exact Hw2.
Qed.

(** One turn: the chunk at [o] of [n] bytes. *)
Lemma wp_write_chunk p k view i bs D o n bp a (Q : unit -> world kst -> Prop) :
  running m p me pid -> winv view0 bs0 off src0 o view i bs D -> block_addr view i (o / 512) = Some a ->
  in_op pid k {[bp := a]} view bs 1 0 -> wframe k i -> off <= o -> (0 < n)%nat -> o mod 512 + Z.of_nat n <= 512 -> o + Z.of_nat n <= e ->
  (forall p' k' view' bs', running m p' me pid -> in_op pid k' ∅ view' bs' 0 0 -> wframe k' i ->
     winv view0 bs0 off src0 (o + Z.of_nat n) view' i bs' (a :: D) -> spare view' i = spare view i -> Q tt (W (held m []) co p' k')) ->
  wp (set_data bp (wr (Z.to_nat (o mod 512)) (take n (drop (Z.to_nat (o - off)) src0))) ;;; log_write bp ;;; brelse bp) Q (W (held m []) co p k).
Proof using All.
  intros Hrun [Hok Hkept Hcell Hbs] Ha Hop Hf Ho Hn Hm Hend HQ. destruct (wframe_proj k i Hf) as (Hd & _ & _ & _ & Hh & _).
  assert (Hbn : 0 <= o / 512) by (apply Z.div_pos; lia).
  destruct (fm_data _ _ _ _ _ Hok a) as [Hdata _]; [left; by exists (o / 512)|].
  pose proof (fm_block _ _ _ _ _ Hok a Hdata) as Hl. set (d := wr (Z.to_nat (o mod 512)) (take n (drop (Z.to_nat (o - off)) src0)) (view a)).
  assert (Hld : length d = BSIZE) by (unfold d; by rewrite length_wr).
  eapply (wp_update_block m co me pid p k {[bp := a]} view bs 0 0 bp a); [done|exact Hop|apply lookup_singleton_eq|rewrite Hd; apply Hh, Hdata|exact Hld|].
  intros p' k' Hrun' Hop' Hf'. rewrite delete_singleton_eq in Hop'. fold d in Hop'.
  eapply (HQ p' k'); [done|exact Hop'|by eapply wframe_fs| |].
  - split.
    + by apply (bytes_ok data_block bm nblk data_range data_bm size_ok view i (o / 512)).
    + eapply kept_trans; [exact Hkept|]. by apply (bytes_kept data_block bm nblk data_range data_bm size_ok view i (o / 512)).
    + eapply known_chunk; [exact Hok|reflexivity|exact Ha|exact Hl|lia|done|lia|reflexivity|unfold e in Hend; lia|exact Hcell].
    + intros x [Hx| ->]%log_add_in; [|right; left; constructor]. destruct (Hbs x Hx) as [?|[?|?]]; [tauto|right; left; by constructor|tauto].
  - unfold spare. by rewrite (bytes_count data_block bm nblk data_range data_bm size_ok view i (o / 512) a d).
Qed.

Lemma wp_writei_turns fuel : forall p k view i bs D o (Q : Z -> world kst -> Prop),
  running m p me pid -> in_op pid k ∅ view bs 0 0 -> wframe k i -> winv view0 bs0 off src0 o view i bs D ->
  off <= o <= e -> (turns o e < fuel)%nat -> (length D + turns o e <= T)%nat -> (turns o e + 1 <= spare view i)%nat ->
  (forall p' k' view' i' bs' D', running m p' me pid -> in_op pid k' ∅ view' bs' 0 0 -> wframe k' i' ->
     winv view0 bs0 off src0 e view' i' bs' D' -> (length D' <= T)%nat -> (spare view i <= spare view' i' + turns o e)%nat -> Q e (W (held m []) co p' k')) ->
  wp (loop fuel (fun st => let '(src, off) := st in
    match src with
    | [] => ret (inr off)
    | _ =>
        let! a := bmap ip (off / Z.of_nat BSIZE) in
        let! i := inode_at ip in
        let! bp := bread (i_dev i) a in
        let m := Z.to_nat (chunk off (Z.of_nat (length src))) in
        set_data bp (wr (Z.to_nat (off mod Z.of_nat BSIZE)) (take m src)) ;;;
        log_write bp ;;;
        brelse bp ;;;
        ret (inl (drop m src, off + Z.of_nat m))
    end) (drop (Z.to_nat (o - off)) src0, o)) Q (W (held m []) co p k).
Proof using All.
  induction fuel as [|fuel IH]; intros p k view i bs D o Q Hrun Hop Hf Hinv Ho Hfuel HD Hsp HQ; [lia|]. cbn [loop]. kstep.
  assert (Hlen : Z.of_nat (length (drop (Z.to_nat (o - off)) src0)) = e - o) by (rewrite length_drop; unfold e; lia).
  destruct (drop (Z.to_nat (o - off)) src0) as [|c l] eqn:Hs.
  { assert (o = e) as -> by (cbn [length] in Hlen; lia). ksteps. apply (HQ p k view i bs D); [done..|lia|lia]. }
  assert (Hlt : o < e) by (cbn [length] in Hlen; lia). rewrite Hlen, <- Hs. clear c l Hs Hlen. change (Z.of_nat BSIZE) with 512.
  destruct (turns_step o e) as (Hm1 & Hm2 & Hm3); [lia|]. set (n := Z.to_nat (chunk o (e - o))) in *.
  assert (Hn : chunk o (e - o) = Z.of_nat n) by (unfold n; lia). rewrite Hn in Hm1, Hm2, Hm3.
  assert (Hbn : 0 <= o / 512 < 140) by (split; [apply Z.div_pos; lia|apply Z.div_lt_upper_bound; lia]).
  pose proof (winv_length _ _ _ _ _ _ _ _ _ (lw_nodup _ _ _ (op_log _ _ _ _ _ _ _ Hop)) Hinv) as Hlb.
  kstep. eapply (wp_bmap_write p k view i bs (o / 512)); [apply Hinv|lia|lia|done..|lia|done|].
  intros a p1 k1 v1 i1 bs1 Hrun1 Hop1 Hf1 [Hok1 Hx1 Hbs1 Hsp1] Ha1.
  destruct (wframe_proj k1 i1 Hf1) as (Hd1 & _ & _ & Hz1 & Hh1 & Hdv1 & _).
  assert (Hinv1 : winv view0 bs0 off src0 o v1 i1 bs1 (a :: D)).
  { destruct Hinv as [_ Hkept Hcell Hbs]. split; [done|eapply kept_trans; [exact Hkept|by apply extends_kept]| |].
    - intros pos c Hp Hc. eapply extends_cell; [done|exact Hx1|by apply Hcell].
    - intros x [Hx|[->|[->|?]]]%Hbs1; [|tauto|right; left; constructor|tauto].
      destruct (Hbs x Hx) as [?|[?|[?|[Hi Hne]]]]; [tauto|right; left; by constructor|tauto|right; right; right].
      split; [by apply (ex_ind _ _ _ _ _ Hx1)|done]. }
  pose proof (winv_length _ _ _ _ _ _ _ _ _ (lw_nodup _ _ _ (op_log _ _ _ _ _ _ _ Hop1)) Hinv1) as Hlb1. cbn [length] in Hlb1.
  kstep. apply (wp_addr_at p1 k1 i1); [done|]. rewrite Hdv1. kstep.
  assert (Ho512 : 0 <= o / 512) by lia.
  destruct (fm_data _ _ _ _ _ Hok1 a) as [Hdata _]; [left; by exists (o / 512)|].
  eapply (wp_op_bread m co me pid p1 k1 ∅ v1 bs1 1 0); [done|eapply in_op_room; [exact Hop1|lia|rewrite map_size_empty; lia]|rewrite Hd1; apply Hdata|intros j; by rewrite lookup_empty|].
  intros bp k2 _ Hop2 Hf2. rewrite insert_empty in Hop2.
  apply wp_update_seq. eapply (wp_write_chunk p1 k2 v1 i1 bs1 (a :: D) o n bp a); [done|done|done|exact Hop2|by eapply wframe_fs|lia|lia|lia|lia|].
  intros p3 k3 v3 bs3 Hrun3 Hop3 Hf3 Hinv3 Hsp3. ksteps. rewrite drop_drop.
  replace (Z.to_nat (o - off) + n)%nat with (Z.to_nat (o + Z.of_nat n - off)) by lia.
  eapply (IH p3 k3 v3 i1 bs3 (a :: D)); [done|done|done| |lia|lia|cbn [length]; lia|lia|intros; eapply HQ; [done..|lia]].
  destruct Hinv3 as [A B C E]. split; [done..|]. intros x Hx. destruct (E x Hx) as [?|[?|?]]; [tauto|right; left; set_solver|tauto].
Qed.
End loop.

(** ** After the loop *)

Lemma length_put_dinode i off d : length (put_dinode i off d) = length d.
Proof. unfold put_dinode, put16, put32. by rewrite !length_wr. Qed.

(** The state after [writei]: the inode is [i']. *)
Definition wdone (k : kst) (i' : inode) : Prop :=
  exists l, uncached k = uncached k0 <| k_log := l |> <| k_inodes := <[ip := i']> (k_inodes k0) |> /\ same_head (k_log k0) l.

Lemma wdone_fs k k' i : wdone k i -> fs_frame k k' -> wdone k' i.
Proof using.
  intros (l & Hk & Hs) (l' & Hw & Hs'). unfold wrote in Hw. cbn in Hw. rewrite (f_equal k_log Hk : k_log k = l) in Hs'.
  exists l'. rewrite Hw, Hk. split; [done|by eapply same_head_trans].
Qed.

(** [ip->size = off; iupdate(ip);] *)
Lemma wp_set_size p k view i bs e (Q : unit -> world kst -> Prop) :
  running m p me pid -> in_op pid k ∅ view bs 0 0 -> wframe k i -> Z.of_nat (length bs + 1) < l_size (k_log k0) -> (length bs + 1 < NBUF)%nat ->
  iblk = u32 (IBLOCK (i_inum i0) (k_sb k0)) -> home (k_log k0) nd iblk ->
  (let i' := i <| i_size := e |> in
   forall p' k', running m p' me pid ->
     in_op pid k' ∅ (<[iblk := put_dinode i' (dinode_off (i_inum i0)) (view iblk)]> view) (log_add bs iblk) 0 0 -> wdone k' i' ->
     Q tt (W (held m []) co p' k')) ->
  wp (set_inode ip (fun i => i <| i_size := e |>) ;;; iupdate ip) Q (W (held m []) co p k).
Proof using All.
  intros Hrun Hop Hf Hr Hq Hib Hhome HQ. cbn zeta in HQ. set (i' := i <| i_size := e |>) in *.
  destruct (wframe_proj k i Hf) as (Hd & Hs & Hi & Hz & Hh & Hdv & Hin & _ & _). apply lookup_lt_Some in Hi0 as Hlt.
  kstep. unfold set_inode at 1. apply wp_upd_s. set (k1 := k <| k_inodes := _ |>).
  assert (Hi1 : k_inodes k1 !! ip = Some i') by (cbn; by rewrite list_lookup_alter_eq, Hi).
  assert (Hop1 : in_op pid k1 ∅ view bs 1 1).
  { destruct Hop as [H1 H2 H3 H4 H5]. split; [by apply (blk_frame k)|done|done|cbn; lia|rewrite map_size_empty; lia]. }
  assert (Hd1 : wdone k1 i').
  { destruct Hf as (l & Hk & Hl & _). exists l. split; [|exact Hl].
    change (uncached k1) with (uncached k <| k_inodes := alter (fun i => i <| i_size := e |>) ip (k_inodes (uncached k)) |>).
    rewrite Hk. unfold set_field. cbn -[alter insert]. f_equal.
    rewrite (alter_is_insert _ _ ip i) by (by apply list_lookup_insert_eq). by rewrite list_insert_insert_eq. }
  unfold iupdate, inode_at. kstep. ksteps. unfold get_sb. ksteps. change (k_sb k1) with (k_sb k). change (i_dev i') with (i_dev i). change (i_inum i') with (i_inum i).
  rewrite Hs, Hdv, Hin, <- Hib.
  eapply (wp_op_bread m co me pid p k1 ∅ view bs 1 0); [done|done|change (k_disk k1) with (k_disk k); rewrite Hd; apply Hhome|intros j; by rewrite lookup_empty|].
  intros bp k2 _ Hop2 Hf2. rewrite insert_empty in Hop2. kstep. kstep. kstep.
  assert (Hu2 : exists l2, uncached k2 = uncached k1 <| k_log := l2 |>) by (destruct Hf2 as (l2 & Hw & _); by exists l2).
  destruct Hu2 as (l2 & Hu2). rewrite (f_equal k_inodes Hu2 : k_inodes k2 = k_inodes k1), Hi1. kstep.
  change (i_inum i') with (i_inum i). rewrite Hin.
  eapply (wp_update_block m co me pid p k2 {[bp := iblk]} view bs 0 0 bp iblk); [done|exact Hop2|apply lookup_singleton_eq| | |].
  - rewrite (fs_frame_disk _ _ Hf2). apply (fs_frame_home _ _ _ _ Hf2). change (k_disk k1) with (k_disk k). rewrite Hd. by apply Hh.
  - rewrite length_put_dinode. apply (op_view_size _ _ _ _ _ _ _ _ Hop). rewrite Hd. apply Hhome.
  - intros p3 k3 Hrun3 Hop3 Hf3. rewrite delete_singleton_eq in Hop3. apply HQ; [done|done|].
    eapply wdone_fs; [exact Hd1|]. by eapply fs_frame_trans.
Qed.
End write.

(** ** The whole call *)

(** A file and its map as [writei] finds them. *)
Record writable (k : kst) (ip : nat) (i : inode) (view : Z -> list Z) : Prop := {
  wr_inode : k_inodes k !! ip = Some i;
  wr_dev : i_dev i = 1;
  wr_type : i_type i ≠ T_DEV;
  wr_disk : Z.of_nat (length (k_disk k)) < 2 ^ 31;
  wr_map : 0 < sb_size (k_sb k) <= BPB /\ home (k_log k) (Z.of_nat (length (k_disk k))) (sb_bmapstart (k_sb k)) /\ is_u32 (sb_bmapstart (k_sb k));
  wr_iblk : let iblk := u32 (IBLOCK (i_inum i) (k_sb k)) in
    home (k_log k) (Z.of_nat (length (k_disk k))) iblk /\ iblk ≠ sb_bmapstart (k_sb k) /\ marked (sb_bmapstart (k_sb k)) view iblk;
  wr_ok : fmap_ok (data_block k (u32 (IBLOCK (i_inum i) (k_sb k)))) (sb_bmapstart (k_sb k)) (sb_size (k_sb k)) view i;
}.

(** It depends on the inodes, the super block, the size of the disk and the place of the log only. *)
Lemma writable_proj k k' ip i view :
  k_inodes k' = k_inodes k -> k_sb k' = k_sb k -> length (k_disk k') = length (k_disk k) ->
  l_start (k_log k') = l_start (k_log k) -> l_size (k_log k') = l_size (k_log k) -> writable k ip i view -> writable k' ip i view.
Proof.
  intros E1 E2 E3 E4 E5 [H1 H2 H3 H4 H5 H6 H7]. unfold data_block, home in *.
  split; unfold data_block, home; rewrite ?E1, ?E2, ?E3, ?E4, ?E5; done.
Qed.

(** Reading a range of bytes that are known. *)
Lemma cell_byte view i pos c : cell view i pos = Some c -> file_byte view i pos = c.
Proof. unfold cell, file_byte. change (Z.of_nat BSIZE) with 512. intros (a & -> & Hc)%bind_Some. cbn. by rewrite Hc. Qed.

Lemma bytes_read i view src off : 0 <= off -> off + Z.of_nat (length src) <= i_size i ->
  (forall (j : nat) c, src !! j = Some c -> cell view i (off + Z.of_nat j) = Some c) ->
  readi_result view i off (Z.of_nat (length src)) = (Z.of_nat (length src), src).
Proof.
  intros Hoff Hsz Hc. unfold readi_result. rewrite decide_False by lia. rewrite Z.min_l, Nat2Z.id by lia. f_equal.
  apply list_eq. intros j. unfold file_bytes. rewrite list_lookup_fmap. destruct (src !! j) as [c|] eqn:Hj.
  - apply lookup_lt_Some in Hj as Hl. rewrite lookup_seq_lt by done. cbn. f_equal. by apply cell_byte, Hc.
  - apply lookup_ge_None in Hj. by rewrite lookup_seq_ge.
Qed.

Section result.
(** The state, the inode and the disk before the call; the bytes [src] go to [off .. e). *)
Context (k0 : kst) (i0 : inode) (view0 : Z -> list Z) (off : Z) (src : list Z).
Abbreviation bm := (sb_bmapstart (k_sb k0)).
Abbreviation nblk := (sb_size (k_sb k0)).
Abbreviation iblk := (u32 (IBLOCK (i_inum i0) (k_sb k0))).
Abbreviation e := (off + Z.of_nat (length src)).
Implicit Types (view : Z -> list Z) (i : inode).

(** After the loop. *)
Record copied i view : Prop := {
  cp_inode : i = i0 <| i_addrs := i_addrs i |>;
  cp_ok : fmap_ok (data_block k0 iblk) bm nblk view i;
  cp_new : forall pos, off <= pos < e -> cell view i pos = src !! Z.to_nat (pos - off);
  cp_old : forall pos c, 0 <= pos -> ~ (off <= pos < e) -> cell view0 i0 pos = Some c -> cell view i pos = Some c;
  cp_kept : kept bm view0 i0 view i;
  cp_spare : (spare k0 view0 i0 <= spare k0 view i + turns off e)%nat;
}.

(** What [writei] leaves of a file: its inode, in memory and on the disk, its bytes, and the blocks of others. *)
Record written i view : Prop := {
  wn_inode : i = i0 <| i_addrs := i_addrs i |> <| i_size := Z.max (i_size i0) e |>;
  wn_ok : fmap_ok (data_block k0 iblk) bm nblk view i;
  wn_new : forall pos, off <= pos < e -> cell view i pos = src !! Z.to_nat (pos - off);
  wn_old : forall pos c, 0 <= pos -> ~ (off <= pos < e) -> cell view0 i0 pos = Some c -> cell view i pos = Some c;
  wn_other : forall b, marked bm view0 b -> b ≠ bm -> b ≠ iblk -> ~ owns view0 i0 b -> view b = view0 b;
  wn_disk : view iblk = if decide (i_size i0 < e) then put_dinode i (dinode_off (i_inum i0)) (view0 iblk) else view0 iblk;
  wn_own : forall b, owns view i b -> owns view0 i0 b \/ ~ marked bm view0 b;
  wn_marks : forall b, marked bm view0 b -> marked bm view b;
  wn_spare : (spare k0 view0 i0 <= spare k0 view i + turns off e)%nat;
}.

Context (ip : nat) (Hw : writable k0 ip i0 view0) (Hoff : 0 <= off).

Lemma iblk_other b : owns view0 i0 b -> b ≠ iblk.
Proof using Hw. intros [(_ & _ & Hb & _) _]%(fm_data _ _ _ _ _ (wr_ok _ _ _ _ Hw)) Heq. by apply Hb. Qed.

Lemma copied_iblk i view : copied i view -> view iblk = view0 iblk.
Proof using Hw.
  intros Hc. destruct (wr_iblk _ _ _ _ Hw) as (_ & Hbm & Hm). apply (kp_other _ _ _ _ _ (cp_kept _ _ Hc)); [done|done|]. intros Ho%iblk_other. by apply Ho.
Qed.

Lemma copied_fits i view : copied i view -> e <= i_size i0 -> written i view.
Proof using Hw.
  intros Hc Hfit. pose proof (copied_iblk _ _ Hc). destruct Hc as [Hm Hok Hnew Hold [Hown Hmk Hoth] Hsp]. split; [|done|done|done|by auto| |done|done|done].
  - rewrite Z.max_l by lia. rewrite Hm at 1. by destruct i0.
  - by rewrite decide_False by lia.
Qed.

Lemma copied_grows i view : copied i view -> i_size i0 < e ->
  let i' := i <| i_size := e |> in written i' (<[iblk := put_dinode i' (dinode_off (i_inum i0)) (view iblk)]> view).
Proof using Hw Hoff.
  intros Hc Hgrow i'. pose proof (copied_iblk _ _ Hc). destruct Hc as [Hm Hok Hnew Hold [Hown Hmk Hoth] Hsp].
  set (view' := <[iblk := _]> view). destruct (wr_iblk _ _ _ _ Hw) as (_ & Hbm & _).
  assert (Hv : forall c, data_block k0 iblk c \/ c = bm -> view' c = view c).
  { intros c Hc. apply fn_lookup_insert_ne. intros <-. destruct Hc as [(_ & _ & ? & _)|?]; done. }
  pose proof (data_range k0 iblk (wr_disk _ _ _ _ Hw)) as Hr. pose proof (data_bm k0 iblk) as Hb. pose proof (size_ok k0 (wr_map _ _ _ _ Hw)) as Hz.
  pose proof (foreign_cell _ bm nblk Hr Hb Hz view i view' i' Hok Hv eq_refl) as Hcell.
  split.
  - rewrite Z.max_r by lia. unfold i'. rewrite Hm at 1. done.
  - by apply (foreign_ok _ bm nblk Hr Hb Hz view i).
  - intros pos Hp. rewrite Hcell by lia. by apply Hnew.
  - intros pos c Hp Hn Hc. rewrite Hcell by lia. by apply Hold.
  - intros b Hbk Hbb Hbi Ho. unfold view'. rewrite fn_lookup_insert_ne by done. by apply Hoth.
  - unfold view'. rewrite decide_True, fn_lookup_insert by done. by f_equal.
  - intros b Ho. apply Hown. by apply (foreign_owns _ bm nblk Hr Hb Hz view i view' i' Hok Hv eq_refl).
  - intros b Ho. apply (foreign_marked _ bm nblk Hr Hb Hz view i view' i' Hok Hv eq_refl). by apply Hmk.
  - unfold spare, free_count. by rewrite Hv by tauto.
Qed.

Lemma written_read i view : written i view -> readi_result view i off (Z.of_nat (length src)) = (Z.of_nat (length src), src).
Proof using Hoff.
  intros [Hi _ Hnew _ _ _ _ _ _]. apply bytes_read; [lia|rewrite Hi; cbn [i_size set_field]; lia|].
  intros j c Hj. apply lookup_lt_Some in Hj as Hjl. rewrite Hnew by lia. rewrite <- Hj. f_equal. lia.
Qed.
End result.

Lemma turns_nat off n : 0 <= off -> (turns off (off + Z.of_nat n) < n / BSIZE + 3)%nat.
Proof.
  intros Ho. pose proof (turns_start off (Z.of_nat n) Ho ltac:(lia)) as Ht.
  rewrite <- Nat2Z.inj_div, Nat2Z.id in Ht. exact Ht.
Qed.

Section call.
Context `{BC : BlockCache} `{Dev : Devices} (m : machine) (co : console) (me : nat) (pid : Z).
Context (k : kst) (ip : nat) (i : inode) (view : Z -> list Z) (bs : list Z) (src : list Z) (off : Z).
Abbreviation e := (off + Z.of_nat (length src)).
Context (Hw : writable k ip i view) (Hoff : 0 <= off <= i_size i) (Hsz : i_size i <= MAXFILE * 512) (He : e <= MAXFILE * 512).
Context (Hfree : (turns off e + 1 <= spare k view i)%nat).

(** The loop from its start: the file with the bytes, and the transaction with room for the inode. *)
Lemma wp_writei_loop p (Q : Z -> world kst -> Prop) :
  running m p me pid -> in_op pid k ∅ view bs (turns off e + 6) (turns off e + 9) ->
  (forall p' k' i' view' bs', running m p' me pid -> in_op pid k' ∅ view' bs' 0 0 -> wframe k ip i k' i' ->
     (length bs' <= length bs + turns off e + 2)%nat -> copied k i view off src i' view' -> Q e (W (held m []) co p' k')) ->
  wp (writei_loop ip (length src / BSIZE + 3) src off) Q (W (held m []) co p k).
Proof using All.
  intros Hrun [H1 H2 H3 H4 H5] HQ. destruct Hw as [Hi Hdv _ Hnd Hmap _ Hok]. rewrite map_size_empty in H5.
  set (iblk := u32 (IBLOCK (i_inum i) (k_sb k))) in *. unfold writei_loop.
  pose proof (wp_writei_turns m co me pid k ip i iblk Hi Hdv Hnd Hmap view bs off src (turns off e)) as Hloop.
  specialize (Hloop ltac:(lia) ltac:(lia) ltac:(lia) He (length src / BSIZE + 3)%nat p k view i bs [] off).
  rewrite Z.sub_diag in Hloop. change (drop (Z.to_nat 0) src) with src in Hloop.
  apply Hloop; clear Hloop; [done|split; [done..|lia|rewrite map_size_empty; lia]| | |lia|apply turns_nat; lia|exact (Nat.le_refl _)| |].
  { exists (k_log k). split; [|split; [apply same_head_refl|by destruct i]]. rewrite list_insert_id by done. by destruct k. }
  { split; [exact Hok|apply extends_kept, extends_refl| |tauto]. intros pos c Hp. unfold known. by rewrite decide_False by lia. }
  { exact Hfree. }
  intros p1 k1 v1 i1 bs1 D Hrun1 Hop1 Hf1 Hinv HD Hsp.
  pose proof (winv_length k i iblk _ _ _ _ _ _ _ _ _ (lw_nodup _ _ _ (op_log _ _ _ _ _ _ _ Hop1)) Hinv) as Hlb.
  eapply HQ; [done|exact Hop1|exact Hf1|lia|]. destruct Hinv as [Hok1 Hkept Hcell _].
  split; [by destruct Hf1 as (l & _ & _ & Hm)|exact Hok1| |intros pos c Hp Hn Hc; apply Hcell; [lia|]; unfold known; by rewrite decide_False|exact Hkept|exact Hsp].
  intros pos Hp. destruct (lookup_lt_is_Some_2 src (Z.to_nat (pos - off))) as [c Hc]; [lia|]. rewrite Hc.
  apply Hcell; [lia|]. unfold known. by rewrite decide_True.
Qed.

Lemma wp_writei p (Q : Z -> world kst -> Prop) :
  running m p me pid -> in_op pid k ∅ view bs (turns off e + 6) (turns off e + 9) ->
  (forall p' k' i' view' bs', running m p' me pid -> in_op pid k' ∅ view' bs' 0 0 -> wdone k ip k' i' -> written k i view off src i' view' ->
     Q (Z.of_nat (length src)) (W (held m []) co p' k')) ->
  wp (writei ip src off) Q (W (held m []) co p k).
Proof using All.
  intros Hrun Hop HQ. pose proof Hw as [Hi Hdv Hty Hnd Hmap (Hhome & _) _]. change (MAXFILE * 512) with (140 * 512) in Hsz, He.
  unfold writei, inode_at. ksteps. rewrite (proj2 (Z.eqb_neq _ _) Hty). rewrite u32_id by (unfold is_u32; lia).
  rewrite (proj2 (Z.ltb_ge (i_size i) off)), (proj2 (Z.ltb_ge e off)) by lia. cbn [orb]. change (MAXFILE * Z.of_nat BSIZE) with (140 * 512).
  rewrite (proj2 (Z.ltb_ge (140 * 512) e)) by lia. kstep. apply wp_writei_loop; [done|done|].
  destruct Hop as [_ _ _ H4 H5]. rewrite map_size_empty in H5. intros p1 k1 i1 v1 bs1 Hrun1 Hop1 Hf1 Hlb Hc.
  destruct (wframe_proj k ip i Hi Hdv k1 i1 Hf1) as (_ & _ & Hi1 & _ & _ & _ & _ & Hsz1 & _).
  ksteps. rewrite Hsz1. destruct (Z.ltb_spec (i_size i) e) as [Hgrow|Hfit].
  - rewrite (proj2 (Z.ltb_lt 0 _)) by lia. cbn [andb when].
    eapply (wp_set_size m co me pid k ip i _ Hi Hdv Hnd Hmap p1 k1 v1 i1 bs1 e); [done|done|done|lia|lia|done|done|].
    cbn zeta. intros p2 k2 Hrun2 Hop2 Hd2. kstep. eapply HQ; [done|exact Hop2|exact Hd2|]. eapply copied_grows; [done|lia|done|done].
  - rewrite andb_false_r. cbn [when]. ksteps. eapply HQ; [done|exact Hop1|destruct Hf1 as (l & Hk1 & Hl & _); by exists l|]. by eapply copied_fits.
Qed.
End call.

(** ** Properties *)

(** C10.  [writei] of [src] at [off] in a file on the disk, inside a transaction with room for it and with free blocks enough, returns the
    length of [src].  Then the bytes of the file from [off] on are [src], so [readi] reads them back, and every byte the file had elsewhere is
    as before; the size is the larger of the old size and the end of what was written, and the inode is on the disk when it has grown; the
    blocks of the file are in use and each has one place in it; no block in use by another file changes. *)
Theorem writei_spec `{BC : BlockCache} `{Dev : Devices} m co p me pid k ip i view bs src off :
  let e := off + Z.of_nat (length src) in
  running m p me pid -> writable k ip i view -> in_op pid k ∅ view bs (turns off e + 6) (turns off e + 9) ->
  0 <= off <= i_size i -> i_size i <= MAXFILE * 512 -> e <= MAXFILE * 512 ->
  (turns off e + 1 <= free_count (sb_bmapstart (k_sb k)) (sb_size (k_sb k)) view)%nat ->
  exists p' k' i' view' bs', writei ip src off (W (held m []) co p k) = Ret (Z.of_nat (length src)) (W (held m []) co p' k') /\
    running m p' me pid /\ in_op pid k' ∅ view' bs' 0 0 /\ wdone k ip k' i' /\ written k i view off src i' view' /\
    readi_result view' i' off (Z.of_nat (length src)) = (Z.of_nat (length src), src).
Proof.
  intros e Hrun Hw Hop Hoff Hsz He Hfree.
  assert (Hwp : wp (writei ip src off) (fun x w => exists p' k' i' view' bs', w = W (held m []) co p' k' /\ x = Z.of_nat (length src) /\
    running m p' me pid /\ in_op pid k' ∅ view' bs' 0 0 /\ wdone k ip k' i' /\ written k i view off src i' view') (W (held m []) co p k)).
  { eapply wp_writei; [done..|unfold spare; fold e; lia|done|done|]. intros p' k' i' view' bs' ? ? ? ?. by exists p', k', i', view', bs'. }
  apply wp_elim in Hwp as (x & w & Hr & p' & k' & i' & view' & bs' & -> & -> & Hrun' & Hop' & Hd & Hn).
  exists p', k', i', view', bs'. do 5 (split; [done|]). eapply written_read; [lia|done].
Qed.

(** ** Example *)

(** A disk of 40 blocks: the log is 2 to 21, the inodes are in block 22, the free map in 23, and a file has block 24, with bytes [d]. *)
Definition ex_write_disk (d : list Z) : list (list Z) :=
  <[24%nat := d]> (<[23%nat := [255; 255; 255; 1] ++ replicate 508 0]> (replicate 40 (replicate BSIZE 0))).
Definition ex_write_view (d : list Z) : Z -> list Z := ex_view (ex_write_disk d).
Definition ex_write_inode (ty sz : Z) : inode := mkInode 1 2 1 sl_zero 1 ty 0 0 1 sz (24 :: replicate 12 0).
Definition ex_write_log : log := mkLog 2 20 1 0 1 (mkLh 0 (replicate 30 0)).
Definition ex_write (d : list Z) (ty sz : Z) : kst :=
  ex_cold (ex_write_disk d) <| k_inodes := [ex_write_inode ty sz] |> <| k_log := ex_write_log |> <| k_sb := mkSb 40 15 8 20 2 22 23 |>.

Lemma ex_write_size d : length d = BSIZE -> Forall (fun blk => length blk = BSIZE) (ex_write_disk d).
Proof. intros Hd. apply Forall_insert; [|exact Hd]. apply Forall_insert; [|reflexivity]. by apply Forall_replicate. Qed.

Lemma ex_write_op d ty sz : length d = BSIZE -> @in_op _ _ (@bio_block_cache 0%nat) 4 (ex_write d ty sz) ∅ (ex_write_view d) [] 8 11.
Proof.
  intros Hd. split.
  - apply (@blk_frame _ _ (@bio_block_cache 0%nat) (ex_cold (ex_write_disk d))); [done..|]. split.
    + rewrite dom_empty_L. by apply ex_cold_cache, ex_write_size.
    + intros i n Hi. by rewrite lookup_empty in Hi.
  - split; cbn; [reflexivity|lia|reflexivity|reflexivity|reflexivity|constructor|constructor|lia|vm_compute; discriminate].
  - cbn. lia.
  - cbn. lia.
  - rewrite map_size_empty. unfold NBUF. cbn. lia.
Qed.

Lemma ex_write_addr d ty sz bn b : 0 <= bn -> block_addr (ex_write_view d) (ex_write_inode ty sz) bn = Some b -> bn = 0 /\ b = 24.
Proof.
  intros Hbn. unfold block_addr. change (i_addrs (ex_write_inode ty sz)) with (24 :: replicate 12 0).
  destruct (Z.ltb_spec bn (Z.of_nat NDIRECT)).
  - destruct (Z.to_nat bn) as [|j] eqn:Hj; [intros [= <-]; split; lia|]. cbn [lookup list_lookup].
    intros (a & [-> _]%lookup_replicate & Ha)%bind_Some. discriminate Ha.
  - destruct (_ <? _); cbn; discriminate.
Qed.

Lemma ex_write_free d b : map_bit (ex_write_view d 23) b = false -> (25 <= b)%nat.
Proof.
  intros Hb. destruct (decide (b < 25)%nat) as [Hlt|]; [exfalso|lia].
  assert (Hc : forallb (map_bit (ex_write_view d 23)) (seq 0 25) = true) by (vm_compute; reflexivity).
  rewrite forallb_forall in Hc. specialize (Hc b ltac:(apply in_seq; lia)). congruence.
Qed.

Lemma ex_write_ok d ty sz : length d = BSIZE -> ty ≠ T_DEV -> writable (ex_write d ty sz) 0 (ex_write_inode ty sz) (ex_write_view d).
Proof.
  intros Hl Hty. assert (Hd : data_block (ex_write d ty sz) 22 24) by (repeat split; cbn; lia).
  split; [reflexivity|reflexivity|exact Hty|reflexivity| | |].
  - split; [cbn; unfold BPB; lia|]. split; [split; cbn; lia|unfold is_u32; cbn; lia].
  - change (u32 _) with 22. cbn zeta. split; [split; cbn; lia|]. split; [discriminate|]. split; [lia|vm_compute; reflexivity].
  - change (u32 _) with 22. change (sb_bmapstart _) with 23. change (sb_size _) with 40. split.
    + reflexivity.
    + intros b [(bn & Hbn & [_ ->]%ex_write_addr)|[[= <-] Hb]]; [|done|done].
      split; [exact Hd|]. split; [lia|vm_compute; reflexivity].
    + intros bn bn' a H1 H2 [-> _]%ex_write_addr [-> _]%ex_write_addr; done.
    + intros bn ind Hbn [= <-] [_ H]%ex_write_addr; done.
    + intros b Hb Hf%ex_write_free. repeat split; cbn; lia.
    + intros b ([Hb _] & _). unfold ex_write_view, ex_view. change (Z.of_nat (length (k_disk (ex_write d ty sz)))) with 40 in Hb.
      destruct (lookup_lt_is_Some_2 (ex_write_disk d) (Z.to_nat b)) as [d' Hd']; [change (length (ex_write_disk d)) with 40%nat; lia|].
      rewrite Hd'. exact (Forall_lookup_1 _ _ _ _ (ex_write_size d Hl) Hd').
    + reflexivity.
Qed.

(** A file of 100 bytes: 600 bytes at offset 90 go to the rest of block 24 and to a new block. *)
Lemma writei_spec_witness :
  let d := replicate BSIZE 65 in
  exists p' k' i' view', @writei 0%nat (@memide 0%nat) ex_devices 0 (replicate 600 66) 90
      (W (held ex_machine []) ex_console (ex_procs 0) (ex_write d T_FILE 100)) = Ret 600 (W (held ex_machine []) ex_console p' k') /\
    written (ex_write d T_FILE 100) (ex_write_inode T_FILE 100) (ex_write_view d) 90 (replicate 600 66) i' view'.
Proof.
  intros d.
  destruct (@writei_spec 0%nat (@memide 0%nat) (@bio_block_cache 0%nat) ex_devices ex_machine ex_console (ex_procs 0) 1 4 (ex_write d T_FILE 100) 0
    (ex_write_inode T_FILE 100) (ex_write_view d) [] (replicate 600 66) 90) as (p' & k' & i' & view' & bs' & Hr & _ & _ & _ & Hn & _).
  - apply ex_running.
  - apply ex_write_ok; [reflexivity|discriminate].
  - apply ex_write_op. reflexivity.
  - cbn. lia.
  - vm_compute. discriminate.
  - vm_compute. discriminate.
  - apply Nat.leb_le. vm_compute. reflexivity.
  - exists p', k', i', view'. split; [exact Hr|exact Hn].
Defined.
