(* ===== verification/Link.v ===== *)
(** * Adding a directory entry (dirlink of fs.c)

    The theorem about [dirlink]: after it, looking the name up finds the new entry, and every other name finds what it found before.  It
    follows from the theorem about [writei], which [dirlink] calls, and from the search for a free entry. *)

From S2P Require Import Prelude Kstate Spinlock Cprintf Proc Kdata Sleeplock Bio Bcache Block Log CString Fs Dir Write.
From stdpp Require Import gmap strings list fin_maps functions.
Open Scope Z_scope.

(** ** The name of the entry *)

Lemma strncpy_name n : forall t, (n <= length t)%nat -> exists nm, strncpy t n = Some nm /\ length nm = n /\ name_str nm = name_str (take n t).
Proof.
  induction n as [|n IH]; intros t Ht; [exists []; by destruct t|]. destruct t as [|c t]; [cbn in Ht; lia|]. cbn [strncpy length take name_str] in *.
  destruct (Z.eqb_spec c 0) as [->|Hc].
  - exists (replicate (Datatypes.S n) 0). by rewrite length_replicate.
  - destruct (IH t ltac:(lia)) as (nm & -> & Hl & Hs). exists (c :: nm). cbn [length name_str]. rewrite Hl, Hs, (proj2 (Z.eqb_neq c 0)); done.
Qed.

Lemma namecmp_copy name name' nm : (DIRSIZ <= length name)%nat -> (DIRSIZ <= length name')%nat -> strncpy name DIRSIZ = Some nm ->
  length nm = DIRSIZ /\ (namecmp name' nm = Some 0 <-> namecmp name' name = Some 0).
Proof.
  intros Hn Hn' Hnm. destruct (strncpy_name DIRSIZ name Hn) as (nm' & Hc & Hl & Hs). rewrite Hc in Hnm. injection Hnm as ->.
  split; [done|]. unfold namecmp. rewrite !strncmp_zero by lia. rewrite (take_ge nm) by lia. by rewrite Hs.
Qed.

(** ** The entries *)

(** The first free entry, or the end. *)
Definition free_entry (es : list dirent) : nat := default (length es) (find_idx (fun de => de_inum de =? 0) es).

(** The entries with [de] at place [j], at most at the end. *)
Definition set_entry (j : nat) (de : dirent) (es : list dirent) : list dirent :=
  if decide (j < length es)%nat then <[j := de]> es else es ++ [de].

Lemma free_entry_le es : (free_entry es <= length es)%nat.
Proof. unfold free_entry. destruct (find_idx _ es) as [j|] eqn:Hj; cbn; [apply find_idx_lt in Hj; lia|lia]. Qed.

Lemma find_idx_snoc {A} (f : A -> bool) l x : find_idx f (l ++ [x]) = match find_idx f l with Some j => Some j | None => if f x then Some (length l) else None end.
Proof.
  induction l as [|y l IH]; cbn [app find_idx length]; [by destruct (f x)|]. destruct (f y); [done|]. rewrite IH.
  destruct (find_idx f l); [done|]. by destruct (f x).
Qed.

Lemma find_entry_set_same name es de : find_entry name es = None -> entry_matches name de = true ->
  find_entry name (set_entry (free_entry es) de es) = Some (free_entry es, de).
Proof.
  intros Hnone Hde. pose proof (free_entry_le es) as Hle. assert (Hno : find_idx (entry_matches name) es = None).
  { unfold find_entry in Hnone. destruct (find_idx (entry_matches name) es) as [j|] eqn:Hj; [|done]. apply find_idx_lt in Hj as [x Hx]%lookup_lt_is_Some_2.
    cbn in Hnone. by rewrite Hx in Hnone. }
  unfold find_entry, set_entry. case_decide as Hlt.
  - assert (find_idx (entry_matches name) (<[free_entry es := de]> es) = Some (free_entry es)) as ->; [|cbn; by rewrite list_lookup_insert_eq].
    apply find_idx_Some. split; [exists de; split; [by apply list_lookup_insert_eq|done]|]. intros x y Hx Hy.
    rewrite list_lookup_insert_ne in Hy by lia. by apply (proj1 (find_idx_None _ _) Hno x).
  - rewrite find_idx_snoc, Hno, Hde. cbn. replace (free_entry es) with (length es) by lia. by rewrite lookup_app_r, Nat.sub_diag by lia.
Qed.

Lemma find_entry_set_other name es de : entry_matches name de = false -> find_entry name (set_entry (free_entry es) de es) = find_entry name es.
Proof.
  intros Hde. unfold find_entry, set_entry. case_decide as Hlt.
  - assert (exists old, es !! free_entry es = Some old /\ de_inum old = 0) as (old & Hold & Hz).
    { unfold free_entry in *. destruct (find_idx _ es) as [j|] eqn:Hj; [|cbn in Hlt; lia]. apply find_idx_Some in Hj as [(x & Hx & Hf) _].
      exists x. split; [done|lia]. }
    assert (Hf : entry_matches name old = false) by (unfold entry_matches; by rewrite Hz).
    rewrite (find_idx_insert _ _ _ old) by congruence. destruct (find_idx (entry_matches name) es) as [j|] eqn:Hj; [|done]. cbn.
    apply find_idx_Some in Hj as [(x & Hx & Hm) _]. rewrite list_lookup_insert_ne; [done|]. intros <-. congruence.
  - rewrite find_idx_snoc, Hde. destruct (find_idx (entry_matches name) es) as [j|] eqn:Hj; [|done]. cbn.
    apply find_idx_lt in Hj. by rewrite lookup_app_l.
Qed.

(** ** The directory *)

(** Writing depends on the state but for the cache. *)
Lemma writable_same k k' ip i view : uncached k' = uncached k -> writable k ip i view -> writable k' ip i view.
Proof.
  intros Hk. apply writable_proj; [exact (f_equal k_inodes Hk)|exact (f_equal k_sb Hk)|exact (f_equal (length ∘ k_disk) Hk)|
    exact (f_equal (l_start ∘ k_log) Hk)|exact (f_equal (l_size ∘ k_log) Hk)].
Qed.

Lemma written_same k k' i view off src i' view' : uncached k' = uncached k -> written k' i view off src i' view' -> written k i view off src i' view'.
Proof.
  intros Hk [H1 H2 H3 H4 H5 H6 H7 H8 H9]. unfold data_block in H2. unfold spare in *.
  rewrite ?(f_equal k_disk Hk : k_disk k' = k_disk k), ?(f_equal k_log Hk : k_log k' = k_log k), ?(f_equal k_sb Hk : k_sb k' = k_sb k) in *. by split.
Qed.

Lemma wdone_same k k' ip k'' i : uncached k' = uncached k -> wdone k' ip k'' i -> wdone k ip k'' i.
Proof.
  intros Hk (l & Hl & Hs). exists l. rewrite (f_equal k_log Hk : k_log k' = k_log k) in Hs.
  by rewrite Hl, (f_equal k_inodes Hk : k_inodes k' = k_inodes k), Hk.
Qed.

(** An entry does not cross a block. *)
Lemma entry_turns (j : nat) : turns (16 * Z.of_nat j) (16 * Z.of_nat j + 16) = 1%nat.
Proof.
  unfold turns. rewrite decide_True by lia.
  assert ((16 * Z.of_nat j + 16 - 1) / 512 = 16 * Z.of_nat j / 512) as ->; [|lia]. Z.div_mod_to_equations. lia.
Qed.

Section link.
Context `{BC : BlockCache} `{Dev : Devices} (m : machine) (co : console) (me : nat) (pid : Z).
Context (k : kst) (dp : nat) (i : inode) (view : Z -> list Z) (bs : list Z) (n : nat).
(** A directory of [n] entries with all its blocks. *)
Context (Hw : writable k dp i view) (Hty : i_type i = T_DIR) (Hsize : i_size i = 16 * Z.of_nat n) (Hn : 16 * Z.of_nat n + 16 <= MAXFILE * 512).
Context (Hfull : forall bn, 0 <= bn <= (i_size i - 1) / 512 -> is_Some (block_addr view i bn)).

Lemma owned_readable b : owns view i b -> readable k ∅ b.
Proof using All.
  intros [([Hb _] & _) _]%(fm_data _ _ _ _ _ (wr_ok _ _ _ _ Hw)). split; [done|]. intros j. by rewrite lookup_empty.
Qed.

Lemma dir_blocks : blocks_ok k ∅ view i 0 ((i_size i - 1) / 512).
Proof using All.
  split.
  - intros bn Hbn. destruct (Hfull bn Hbn) as [a Ha]. exists a. split; [done|]. apply owned_readable. left. exists bn. split; [lia|done].
  - intros Hd ind Hind. apply owned_readable. right. split; [done|]. intros ->. change (Z.of_nat NDIRECT) with 12 in Hd.
    destruct (Hfull 12 ltac:(lia)) as [a Ha]. unfold block_addr in Ha. rewrite (proj2 (Z.ltb_ge 12 (Z.of_nat NDIRECT))) in Ha by done.
    destruct (_ <? _); [|done]. rewrite Hind in Ha. done.
Qed.

Lemma dir_cell pos : 0 <= pos < i_size i -> is_Some (cell view i pos).
Proof using All.
  intros Hp. destruct (Hfull (pos / 512)) as [a Ha]; [split; [apply Z.div_pos; lia|apply Z.div_le_mono; lia]|].
  unfold cell. rewrite Ha. cbn. apply lookup_lt_is_Some_2. rewrite (fm_block _ _ _ _ _ (wr_ok _ _ _ _ Hw)).
  - pose proof (Z.mod_pos_bound pos 512). unfold BSIZE. lia.
  - apply (fm_data _ _ _ _ _ (wr_ok _ _ _ _ Hw)). left. exists (pos / 512). split; [apply Z.div_pos; lia|done].
Qed.

Lemma length_dir_ents v i' n' : length (dir_ents v i' n') = n'.
Proof using. unfold dir_ents. by rewrite length_fmap, length_seq. Qed.

(** The search for a free entry stops at the first one, or at the end. *)
Lemma wp_empty_dirent_loop fuel (Q : Z -> world kst -> Prop) : forall j p k1,
  (size (list_to_set bs : gset Z) < NBUF)%nat -> running m p me pid -> blk k1 pid ∅ (list_to_set bs) view /\ uncached k1 = uncached k -> (j <= n)%nat -> (n - j < fuel)%nat ->
  (forall x de, dir_ents view i n !! x = Some de -> (x < j)%nat -> (de_inum de =? 0) = false) ->
  (forall p' k', running m p' me pid -> blk k' pid ∅ (list_to_set bs) view /\ uncached k' = uncached k ->
     Q (16 * Z.of_nat (free_entry (dir_ents view i n))) (W (held m []) co p' k')) ->
  wp (loop fuel (fun off =>
    let! i := inode_at dp in
    if negb (off <? i_size i) then ret (inr off)
    else
      let! de := read_dirent dp off "dirlink read" in
      if de_inum de =? 0 then ret (inr off) else ret (inl (off + Z.of_nat sizeof_dirent))) (16 * Z.of_nat j)) Q (W (held m []) co p k1).
Proof using All.
  induction fuel as [|fuel IH]; intros j p k1 Hroom Hrun Hs Hj Hf Hno HQ; [lia|]. cbn [loop]. unfold MAXFILE in Hn.
  assert (Hi : k_inodes k1 !! dp = Some i) by (rewrite (f_equal k_inodes (proj2 Hs) : k_inodes k1 = k_inodes k); apply (wr_inode _ _ _ _ Hw)).
  assert (Hdt : (size (∅ : gmap nat Z) + size (list_to_set bs : gset Z) < NBUF)%nat) by (by rewrite map_size_empty).
  kstep. kstep. unfold inode_at at 1. kstep. kstep. rewrite Hi. kstep. rewrite Hsize.
  destruct (Z.ltb_spec (16 * Z.of_nat j) (16 * Z.of_nat n)) as [Hlt|Hge]; cbn [negb].
  2:{ kstep. kstep. specialize (HQ p k1 Hrun Hs). unfold free_entry in HQ. rewrite (proj2 (find_idx_None _ _)) in HQ.
      - cbn [default option_fmap] in HQ. rewrite length_dir_ents in HQ. replace j with n by lia. exact HQ.
      - intros x de Hx. apply (Hno x de Hx). apply lookup_lt_Some in Hx. rewrite length_dir_ents in Hx. lia. }
  kstep. eapply (wp_read_dirent m co me pid k ∅ (list_to_set bs) view dp i n Hdt (wr_inode _ _ _ _ Hw) (wr_dev _ _ _ _ Hw) Hty Hsize ltac:(lia) dir_blocks);
    [done|exact Hs|lia|]. intros p2 k2 Hrun2 Hs2.
  pose proof (dir_ents_lookup view i n j ltac:(lia)) as Hde. set (de := get_dirent (file_bytes view i (16 * Z.of_nat j) 16)) in *.
  destruct (de_inum de =? 0) eqn:Hz.
  - kstep. specialize (HQ p2 k2 Hrun2 Hs2). unfold free_entry in HQ. rewrite (proj2 (find_idx_Some _ _ j)) in HQ; [exact HQ|].
    split; [by exists de|]. intros x y Hx Hy. by apply (Hno x y Hy).
  - kstep. replace (16 * Z.of_nat j + Z.of_nat sizeof_dirent) with (16 * Z.of_nat (Datatypes.S j)) by (change (Z.of_nat sizeof_dirent) with 16; lia).
    apply (IH (Datatypes.S j) p2 k2); [done|done|done|lia|lia| |done]. intros x y Hx Hlt'.
    destruct (decide (x = j)) as [->|]; [rewrite Hde in Hx; by injection Hx as <-|]. apply (Hno x y Hx). lia.
Qed.

Lemma wp_empty_dirent p k1 (Q : Z -> world kst -> Prop) :
  (size (list_to_set bs : gset Z) < NBUF)%nat -> running m p me pid -> blk k1 pid ∅ (list_to_set bs) view /\ uncached k1 = uncached k ->
  (forall p' k', running m p' me pid -> blk k' pid ∅ (list_to_set bs) view /\ uncached k' = uncached k ->
     Q (16 * Z.of_nat (free_entry (dir_ents view i n))) (W (held m []) co p' k')) ->
  wp (empty_dirent dp) Q (W (held m []) co p k1).
Proof using All.
  intros Hroom Hrun Hs HQ. unfold empty_dirent. kstep. unfold inode_at at 1. kstep. kstep.
  rewrite (f_equal k_inodes (proj2 Hs) : k_inodes k1 = k_inodes k), (wr_inode _ _ _ _ Hw). kstep.
  replace 0 with (16 * Z.of_nat 0) by lia. apply wp_empty_dirent_loop; [done|done|done|lia| |intros x de _ Hx; lia|done].
  rewrite Hsize. change (Z.of_nat sizeof_dirent) with 16. rewrite (Z.mul_comm 16), Z.div_mul by lia. lia.
Qed.

(** The entries after the write. *)
Lemma written_entries j de i' view' :
  (j <= n)%nat -> length (put_dirent de) = 16%nat -> get_dirent (put_dirent de) = de -> written k i view (16 * Z.of_nat j) (put_dirent de) i' view' ->
  i_size i' = 16 * Z.of_nat (n `max` Datatypes.S j) /\ dir_ents view' i' (n `max` Datatypes.S j) = set_entry j de (dir_ents view i n).
Proof using All.
  intros Hj Hl Hg Hwn. pose proof (written_read k i view (16 * Z.of_nat j) (put_dirent de) ltac:(lia) _ _ Hwn) as Hr. destruct Hwn as [Hi' _ _ Hold _ _ _ _ _]. rewrite Hl in *.
  assert (Hsz : i_size i' = 16 * Z.of_nat (n `max` Datatypes.S j)) by (rewrite Hi'; cbn; lia). split; [done|].
  unfold readi_result in Hr. rewrite decide_False in Hr by lia. rewrite Z.min_l in Hr by lia. apply (f_equal snd) in Hr. cbn [snd] in Hr. change (Z.to_nat (Z.of_nat 16)) with 16%nat in Hr.
  assert (Hsame : forall x, (x < n)%nat -> x ≠ j -> file_bytes view' i' (16 * Z.of_nat x) 16 = file_bytes view i (16 * Z.of_nat x) 16).
  { intros x Hx Hne. unfold file_bytes. apply list_fmap_ext. intros c y [-> Hy]%lookup_seq.
    destruct (dir_cell (16 * Z.of_nat x + Z.of_nat (0 + c))) as [b Hb]; [lia|].
    rewrite (cell_byte _ _ _ _ Hb). apply cell_byte, Hold; [lia|lia|done]. }
  apply list_eq. intros x. unfold set_entry. rewrite length_dir_ents. destruct (decide (x < n `max` Datatypes.S j)%nat) as [Hx|Hx].
  - rewrite dir_ents_lookup by done. destruct (decide (x = j)) as [->|Hne].
    + rewrite Hr, Hg. case_decide as Hlt; [by rewrite list_lookup_insert_eq by (by rewrite length_dir_ents)|].
      rewrite lookup_app_r by (rewrite length_dir_ents; lia). rewrite length_dir_ents. by replace (j - n)%nat with 0%nat by lia.
    + rewrite Hsame by lia. case_decide; [rewrite list_lookup_insert_ne by done|rewrite lookup_app_l by (rewrite length_dir_ents; lia)];
        by rewrite dir_ents_lookup by lia.
  - rewrite !lookup_ge_None_2; [done|case_decide; rewrite ?length_insert, ?length_app, length_dir_ents; cbn; lia|rewrite length_dir_ents; lia].
Qed.

(** The call, for a name that is not there: the entry is written at the first free place. *)
Lemma wp_dirlink p name nm inum (Q : Z -> world kst -> Prop) :
  let j := free_entry (dir_ents view i n) in
  running m p me pid -> in_op pid k ∅ view bs 7 10 -> (2 <= free_count (sb_bmapstart (k_sb k)) (sb_size (k_sb k)) view)%nat ->
  (DIRSIZ <= length name)%nat -> strncpy name DIRSIZ = Some nm -> length nm = DIRSIZ -> 0 <= inum < 2 ^ 16 ->
  find_entry name (dir_ents view i n) = None ->
  (forall p' k' i' view' bs', running m p' me pid -> in_op pid k' ∅ view' bs' 0 0 -> wdone k dp k' i' ->
     written k i view (16 * Z.of_nat j) (put_dirent (mkDe inum nm)) i' view' -> Q 0 (W (held m []) co p' k')) ->
  wp (dirlink dp name inum) Q (W (held m []) co p k).
Proof using All.
  intros j Hrun Hop Hfree Hname Hnm Hlen Hinum Hnone HQ. unfold dirlink. kstep. change (MAXFILE * 512) with (140 * 512) in Hn.
  pose proof (free_entry_le (dir_ents view i n)) as Hj. rewrite length_dir_ents in Hj. fold j in Hj.
  assert (Hbuf : (size (list_to_set bs : gset Z) < NBUF)%nat).
  { rewrite (size_list_to_set bs) by apply (lw_nodup _ _ _ (op_log _ _ _ _ _ _ _ Hop)). pose proof (op_bufs _ _ _ _ _ _ _ Hop). lia. }
  eapply (wp_dirlookup m co p me pid k ∅ (list_to_set bs) view dp i n); [done|apply Hop|by rewrite map_size_empty|
    apply (wr_inode _ _ _ _ Hw)|apply (wr_dev _ _ _ _ Hw)|done|done|lia|apply dir_blocks|done|].
  rewrite Hnone. intros p1 k1 Hrun1 Hs1. kstep. apply wp_empty_dirent; [done|done|done|]. fold j. intros p2 k2 Hrun2 [Hb2 Hk2].
  rewrite Hnm. kstep. kstep. kstep. unfold u16. rewrite Z.mod_small by lia.
  assert (Hl : length (put_dirent (mkDe inum nm)) = 16%nat) by (unfold put_dirent; cbn [de_inum de_name]; by rewrite length_app, length_le_bytes, Hlen).
  assert (Ht : turns (16 * Z.of_nat j) (16 * Z.of_nat j + Z.of_nat (length (put_dirent (mkDe inum nm)))) = 1%nat) by (rewrite Hl; apply entry_turns).
  eapply (wp_writei m co me pid k2 dp i view bs); [by eapply writable_same|lia|change (MAXFILE * 512) with (140 * 512); lia|
    rewrite Hl; change (MAXFILE * 512) with (140 * 512); lia| |done| |].
  - rewrite Ht. unfold spare. rewrite (f_equal k_sb Hk2 : k_sb k2 = k_sb k). lia.
  - rewrite Ht. by eapply in_op_same.
  - intros p3 k3 i3 v3 bs3 Hrun3 Hop3 Hd3 Hw3. rewrite Hl. change (negb (Z.of_nat 16 =? Z.of_nat sizeof_dirent)) with false. cbn match. kstep.
    eapply HQ; [done|done|by eapply wdone_same|by eapply written_same].
Qed.
End link.

(** ** Properties *)

(** C13.  [dirlink] of a name that is not in the directory, inside a transaction with room for it and with free blocks enough, returns 0.  Then
    looking the name up finds an entry with the number [inum], at the first free place or at the end of the directory, and every other name
    finds what it found before; nothing else in the file system has changed but what [writei] of this entry changes. *)
Theorem dirlink_spec `{BC : BlockCache} `{Dev : Devices} m co p me pid k dp i view bs n name inum :
  let bm := sb_bmapstart (k_sb k) in let ents := dir_ents view i n in let j := free_entry ents in
  running m p me pid -> writable k dp i view -> in_op pid k ∅ view bs 7 10 -> (2 <= free_count bm (sb_size (k_sb k)) view)%nat ->
  i_type i = T_DIR -> i_size i = 16 * Z.of_nat n -> 16 * Z.of_nat n + 16 <= MAXFILE * 512 ->
  (forall bn, 0 <= bn <= (i_size i - 1) / 512 -> is_Some (block_addr view i bn)) ->
  (DIRSIZ <= length name)%nat -> 0 < inum < 2 ^ 16 -> find_entry name ents = None ->
  exists nm p' k' i' view' bs', dirlink dp name inum (W (held m []) co p k) = Ret 0 (W (held m []) co p' k') /\
    running m p' me pid /\ in_op pid k' ∅ view' bs' 0 0 /\ wdone k dp k' i' /\
    written k i view (16 * Z.of_nat j) (put_dirent (mkDe inum nm)) i' view' /\
    let n' := (n `max` Datatypes.S j)%nat in i_size i' = 16 * Z.of_nat n' /\
    find_entry name (dir_ents view' i' n') = Some (j, mkDe inum nm) /\
    forall name', (DIRSIZ <= length name')%nat -> namecmp name' name ≠ Some 0 -> find_entry name' (dir_ents view' i' n') = find_entry name' ents.
Proof.
  intros bm ents j Hrun Hw Hop Hfree Hty Hsize Hn Hfull Hname Hinum Hnone.
  destruct (strncpy_name DIRSIZ name Hname) as (nm & Hnm & Hlen & _). exists nm.
  assert (Hwp : wp (dirlink dp name inum) (fun x w => exists p' k' i' view' bs', w = W (held m []) co p' k' /\ x = 0 /\
    running m p' me pid /\ in_op pid k' ∅ view' bs' 0 0 /\ wdone k dp k' i' /\
    written k i view (16 * Z.of_nat j) (put_dirent (mkDe inum nm)) i' view') (W (held m []) co p k)).
  { eapply wp_dirlink; [done..|lia|done|]. intros p' k' i' view' bs' ? ? ? ?. by exists p', k', i', view', bs'. }
  apply wp_elim in Hwp as (x & w & Hr & p' & k' & i' & view' & bs' & -> & -> & Hrun' & Hop' & Hd & Hwn).
  exists p', k', i', view', bs'. do 5 (split; [done|]). pose proof (free_entry_le ents) as Hj. unfold ents in Hj at 2. rewrite length_dir_ents in Hj.
  destruct (written_entries m co me pid k dp i view bs n Hw Hty Hsize Hn Hfull j (mkDe inum nm) i' view') as [Hsz He];
    [done|unfold put_dirent; cbn [de_inum de_name]; by rewrite length_app, length_le_bytes, Hlen|apply get_put_dirent; [lia|done]|done|].
  cbn zeta. rewrite He. split; [done|].
  assert (Hm : forall nm', (DIRSIZ <= length nm')%nat -> entry_matches nm' (mkDe inum nm) = bool_decide (namecmp nm' name = Some 0)).
  { intros nm' Hl. unfold entry_matches. cbn [de_inum de_name]. rewrite (proj2 (Z.eqb_neq inum 0)) by lia. cbn [negb andb].
    apply bool_decide_ext. by apply namecmp_copy. }
  split.
  - apply find_entry_set_same; [done|]. rewrite Hm by done. apply bool_decide_eq_true_2. unfold namecmp. by apply strncmp_zero.
  - intros name' Hl Hne. apply find_entry_set_other. rewrite Hm by done. by apply bool_decide_eq_false_2.
Qed.

(** ** Example *)

(** The directory of [ex_dir_block] with the entries [.] and [a]: a third entry [b]. *)
Lemma dirlink_spec_witness :
  exists nm p' k' i' view', @dirlink 0%nat (@memide 0%nat) ex_devices 0 (pad_name (str "b")) 5
      (W (held ex_machine []) ex_console (ex_procs 0) (ex_write ex_dir_block T_DIR 32)) = Ret 0 (W (held ex_machine []) ex_console p' k') /\
    find_entry (pad_name (str "b")) (dir_ents view' i' 3) = Some (2%nat, mkDe 5 nm) /\
    find_entry (pad_name (str "a")) (dir_ents view' i' 3) = Some (1%nat, mkDe 3 (pad_name (str "a"))).
Proof.
  destruct (@dirlink_spec 0%nat (@memide 0%nat) (@bio_block_cache 0%nat) ex_devices ex_machine ex_console (ex_procs 0) 1 4 (ex_write ex_dir_block T_DIR 32) 0
    (ex_write_inode T_DIR 32) (ex_write_view ex_dir_block) [] 2 (pad_name (str "b")) 5)
    as (nm & p' & k' & i' & view' & bs' & Hr & _ & _ & _ & _ & _ & Hb & Ha).
  - apply ex_running.
  - apply ex_write_ok; [reflexivity|discriminate].
  - destruct (ex_write_op ex_dir_block T_DIR 32 eq_refl) as [H1 H2 H3 H4 H5]. split; [done|done|done|cbn in *; lia|lia].
  - apply Nat.leb_le. vm_compute. reflexivity.
  - reflexivity.
  - reflexivity.
  - vm_compute. discriminate.
  - intros bn Hbn. change (0 <= bn <= 0) in Hbn. assert (bn = 0) as -> by lia. by exists 24.
  - rewrite length_pad_name. done.
  - lia.
  - vm_compute. reflexivity.
  - assert (Hj : free_entry (dir_ents (ex_write_view ex_dir_block) (ex_write_inode T_DIR 32) 2) = 2%nat) by (vm_compute; reflexivity).
    cbn zeta in Ha, Hb. rewrite Hj in Ha, Hb. exists nm, p', k', i', view'. split; [exact Hr|]. split; [exact Hb|].
    change (2 `max` 3)%nat with 3%nat in Ha. rewrite Ha; [vm_compute; reflexivity|by rewrite length_pad_name|vm_compute; discriminate].
Defined.
