(* ===== verification/Pipe.v ===== *)
(** * Pipes (pipe.c)

    The ring buffer of a pipe, its two ends, and the calls that block on it.  [pipe_bytes]
    reads the ring as the queue of bytes written and not yet read; the counters
    [nread] and [nwrite] wrap around at 2^32.  Any sequence of reads and writes that does not block
    behaves as the same sequence on a bounded first-in first-out queue, and a write larger
    than the room left fills the pipe, wakes the readers and sleeps. *)

From S2P Require Import Prelude Ring Kstate Spinlock Cprintf Proc Kdata Sleeplock Kalloc.
From stdpp Require Import gmap strings list fin_maps.
Open Scope Z_scope.

Section pipe_c.
Context `{Lk : Linker} `{Fu : Fuel}.

Definition pipe_at (a : Z) : MK pipe := let! k := get_s in deref (k_pipes k !! a).
Definition set_pipe (a : Z) (f : pipe -> pipe) : MK unit :=
  upd_s (fun k => k <| k_pipes := alter f a (k_pipes k) |>).

(** [myproc()->killed] *)
Definition mykilled : MK Z :=
  let! me := myproc in
  let! i := deref me in
  let! p := proc_at i in
  ret (p_killed p).

(** The page goes back to the allocator; its bytes are no longer a pipe. *)
Definition pipeclose (a writable : Z) : MK unit :=
  acquire (Lpipe a) ;;;
  (if negb (writable =? 0) then
     set_pipe a (fun p => p <| pi_writeopen := 0 |>) ;;;
     wakeup (Cpiper a)
   else
     set_pipe a (fun p => p <| pi_readopen := 0 |>) ;;;
     wakeup (Cpipew a)) ;;;
  let! p := pipe_at a in
  if (pi_readopen p =? 0) && (pi_writeopen p =? 0) then
    release (Lpipe a) ;;;
    upd_s (fun k => k <| k_pipes := delete a (k_pipes k) |>) ;;;
    kfree a
  else release (Lpipe a).

(** [p->nwrite == p->nread + PIPESIZE] *)
Definition pipe_full (p : pipe) : bool := pi_nwrite p =? u32 (pi_nread p + Z.of_nat PIPESIZE).

(** [p->readopen == 0 || myproc()->killed] *)
Definition write_ends (p : pipe) : MK bool :=
  if pi_readopen p =? 0 then ret true else let! d := mykilled in ret (negb (d =? 0)).

(** One turn of the inner loop of [pipewrite]. *)
Definition pipe_room_turn (a : Z) : MK (unit + bool) :=
  let! p := pipe_at a in
  if pipe_full p then
    let! e := write_ends p in
    if e then
      release (Lpipe a) ;;;
      ret (inr false)
    else
      wakeup (Cpiper a) ;;;
      sleep (Cpipew a) (Lpipe a) ;;;
      ret (inl tt)
  else ret (inr true).

(** The loop: true when there is room for a byte, false when the function is to return -1. *)
Definition pipe_room (a : Z) : MK bool := loop (Datatypes.S fuel) (fun _ => pipe_room_turn a) tt.

(** [p->data[p->nwrite++ % PIPESIZE] = c] *)
Definition pipe_push (c : Z) (p : pipe) : pipe :=
  p <| pi_data := <[Z.to_nat (pi_nwrite p mod Z.of_nat PIPESIZE) := c]> (pi_data p) |>
    <| pi_nwrite := u32 (pi_nwrite p + 1) |>.

Fixpoint pipewrite_loop (a : Z) (src : list Z) : MK bool :=
  match src with
  | [] => ret true
  | c :: src =>
      let! ok := pipe_room a in
      if ok then
        set_pipe a (pipe_push c) ;;;
        pipewrite_loop a src
      else ret false
  end.

(** The [n] bytes at [addr] are [src]. *)
Definition pipewrite (a : Z) (src : list Z) : MK Z :=
  acquire (Lpipe a) ;;;
  let! ok := pipewrite_loop a src in
  if ok then
    wakeup (Cpiper a) ;;;
    release (Lpipe a) ;;;
    ret (Z.of_nat (length src))
  else ret (-1).

(** [p->nread == p->nwrite && p->writeopen] *)
Definition read_waits (p : pipe) : bool := (pi_nread p =? pi_nwrite p) && negb (pi_writeopen p =? 0).

(** The first loop of [piperead]; false when the function is to return -1. *)
Definition pipe_ready (a : Z) : MK bool :=
  loop (Datatypes.S fuel) (fun _ =>
    let! p := pipe_at a in
    if read_waits p then
      let! d := mykilled in
      if negb (d =? 0) then
        release (Lpipe a) ;;;
        ret (inr false)
      else
        sleep (Cpiper a) (Lpipe a) ;;;
        ret (inl tt)
    else ret (inr true)) tt.

Definition pipe_pop (p : pipe) : pipe := p <| pi_nread := u32 (pi_nread p + 1) |>.

(** The copy loop of [piperead]: the bytes it stores. *)
Fixpoint piperead_loop (a : Z) (n : nat) : MK (list Z) :=
  match n with
  | O => ret []
  | Datatypes.S n =>
      let! p := pipe_at a in
      if pi_nread p =? pi_nwrite p then ret []
      else
        let! c := deref (pi_data p !! Z.to_nat (pi_nread p mod Z.of_nat PIPESIZE)) in
        set_pipe a pipe_pop ;;;
        let! dst := piperead_loop a n in
        ret (c :: dst)
  end.

(** The result of [piperead] and the bytes stored at [addr]. *)
Definition piperead (a n : Z) : MK (Z * list Z) :=
  acquire (Lpipe a) ;;;
  let! ok := pipe_ready a in
  if ok then
    let! dst := piperead_loop a (Z.to_nat n) in
    wakeup (Cpipew a) ;;;
    release (Lpipe a) ;;;
    ret (Z.of_nat (length dst), dst)
  else ret (-1, []).

End pipe_c.

(** ** The ring as a queue *)

Definition pipe_count (p : pipe) : Z := distance (pi_nread p) (pi_nwrite p).

Definition pipe_bytes (p : pipe) : list Z := window 512 (pi_data p) (pi_nread p) (pipe_count p).

Record pipe_wf (p : pipe) : Prop := {
  pp_data : length (pi_data p) = PIPESIZE;
  pp_read : is_u32 (pi_nread p);
  pp_write : is_u32 (pi_nwrite p);
  pp_count : pipe_count p <= Z.of_nat PIPESIZE;
}.

Lemma pipe_divides : (512 | 4294967296).
Proof. by exists 8388608. Qed.

Lemma pipe_count_length p : Z.of_nat (length (pipe_bytes p)) = pipe_count p.
Proof. apply ring_length, distance_range. Qed.

Lemma pipe_full_spec p : pipe_wf p -> pipe_full p = bool_decide (length (pipe_bytes p) = PIPESIZE).
Proof.
  intros [_ Hr Hw _]. pose proof (pipe_count_length p) as Hl. unfold pipe_full. unfold pipe_count in Hl.
  rewrite distance_full by (done || unfold PIPESIZE; lia). rewrite <- Hl. unfold PIPESIZE.
  case_bool_decide; [apply Z.eqb_eq|apply Z.eqb_neq]; lia.
Qed.

Lemma pipe_empty_spec p : pipe_wf p -> (pi_nread p =? pi_nwrite p) = bool_decide (pipe_bytes p = []).
Proof.
  intros [_ Hr Hw _]. pose proof (pipe_count_length p) as Hl. unfold pipe_count in Hl.
  rewrite distance_0 by done. rewrite <- Hl.
  case_bool_decide as Hb; [by rewrite Hb|]. apply Z.eqb_neq. intros H0. apply Hb, nil_length_inv. lia.
Qed.

Lemma pipe_push_spec c p :
  pipe_wf p -> (length (pipe_bytes p) < PIPESIZE)%nat ->
  pipe_wf (pipe_push c p) /\ pipe_bytes (pipe_push c p) = pipe_bytes p ++ [c].
Proof.
  intros [Hd Hr Hw Hc] Hlt. pose proof (pipe_count_length p) as Hl. unfold PIPESIZE in *.
  pose proof (distance_add (pi_nread p) (pi_nwrite p) Hw) as Hn. fold (pipe_count p) in Hn.
  assert (Hcnt : pipe_count (pipe_push c p) = pipe_count p + 1) by (apply distance_push; [exact Hr|exact Hw|change (pipe_count p < 4294967295); lia]).
  split; [split; [by cbn; rewrite length_insert|done|apply u32_range|rewrite Hcnt; unfold PIPESIZE; lia]|].
  unfold pipe_bytes. rewrite Hcnt. unfold pipe_push, set_field; cbn [pi_data pi_nread pi_nwrite]. rewrite Hn.
  change (Z.of_nat PIPESIZE) with 512. rewrite u32_mod_ring by apply pipe_divides.
  apply ring_snoc; [lia|rewrite Hd; done|lia].
Qed.

Lemma pipe_pop_spec p :
  pipe_wf p -> pipe_bytes p ≠ [] ->
  pipe_wf (pipe_pop p) /\
  exists c, pi_data p !! Z.to_nat (pi_nread p mod Z.of_nat PIPESIZE) = Some c /\
            pipe_bytes p = c :: pipe_bytes (pipe_pop p).
Proof.
  intros [Hd Hr Hw Hc] Hne. pose proof (pipe_count_length p) as Hl. unfold PIPESIZE in *.
  assert (Hpos : 0 < pipe_count p) by (destruct (pipe_bytes p); [done|]; cbn [length] in Hl; lia).
  assert (Hcnt : pipe_count (pipe_pop p) = pipe_count p - 1) by by apply distance_pop.
  split; [split; [done|apply u32_range|done|rewrite Hcnt; unfold PIPESIZE; lia]|].
  destruct (lookup_lt_is_Some_2 (pi_data p) (Z.to_nat (pi_nread p mod Z.of_nat 512))) as [c Hx].
  { rewrite Hd. pose proof (Z.mod_pos_bound (pi_nread p) 512). lia. }
  exists c. split; [done|]. unfold pipe_bytes. rewrite Hcnt, ring_cons by lia.
  change 512 with (Z.of_nat 512) at 1. rewrite Hx. cbn [default]. f_equal. symmetry. apply ring_u32, pipe_divides.
Qed.

(** A run of pushes, a run of pops. *)
Definition pushes (src : list Z) (p : pipe) : pipe := foldl (fun p c => pipe_push c p) p src.
Definition pops (n : nat) (p : pipe) : pipe := Nat.iter n pipe_pop p.

Lemma pushes_spec src : forall p,
  pipe_wf p -> (length (pipe_bytes p) + length src <= PIPESIZE)%nat ->
  pipe_wf (pushes src p) /\ pipe_bytes (pushes src p) = pipe_bytes p ++ src /\
  pi_readopen (pushes src p) = pi_readopen p /\ pi_writeopen (pushes src p) = pi_writeopen p.
Proof.
  induction src as [|c src IH]; intros p Hp Hl; cbn [pushes foldl].
  - by rewrite app_nil_r.
  - cbn [length] in Hl. destruct (pipe_push_spec c p Hp) as [Hp' Hb]; [lia|].
    destruct (IH (pipe_push c p)) as (H1 & H2 & H3 & H4); [done|rewrite Hb, length_app; cbn; lia|].
    fold (pushes src (pipe_push c p)). rewrite H2, Hb, <- app_assoc. done.
Qed.

Lemma pops_S n p : pops (S n) p = pops n (pipe_pop p).
Proof. apply Nat.iter_succ_r. Qed.

Lemma pops_spec n : forall p,
  pipe_wf p -> (n <= length (pipe_bytes p))%nat ->
  pipe_wf (pops n p) /\ pipe_bytes (pops n p) = drop n (pipe_bytes p) /\
  pi_readopen (pops n p) = pi_readopen p /\ pi_writeopen (pops n p) = pi_writeopen p.
Proof.
  induction n as [|n IH]; intros p Hp Hl; [by rewrite drop_0|].
  rewrite pops_S. destruct (pipe_pop_spec p Hp) as (Hp' & c & _ & Hb).
  { intros Hn. rewrite Hn in Hl. cbn in Hl. lia. }
  rewrite Hb in *. cbn [length] in Hl. destruct (IH (pipe_pop p)) as (? & ? & ? & ?); [done|lia|done].
Qed.

Definition put_pipe (a : Z) (x : pipe) (k : kst) : kst := k <| k_pipes := <[a := x]> (k_pipes k) |>.

Lemma put_put_pipe a x y k : put_pipe a x (put_pipe a y k) = put_pipe a x k.
Proof. unfold put_pipe, set_field; cbn. f_equal. apply insert_insert_eq. Qed.

Lemma put_pipe_id a x k : k_pipes k !! a = Some x -> put_pipe a x k = k.
Proof. intros Hx. unfold put_pipe, set_field; cbn. rewrite insert_id by done. by destruct k. Qed.

Lemma put_pipe_at a x k : k_pipes (put_pipe a x k) !! a = Some x.
Proof. cbn. apply lookup_insert_eq. Qed.

Lemma alter_pipe a f x k :
  k_pipes k !! a = Some x -> k <| k_pipes := alter f a (k_pipes k) |> = put_pipe a (f x) k.
Proof.
  intros Hx. unfold put_pipe, set_field; cbn. f_equal. apply map_eq. intros b.
  destruct (decide (a = b)) as [<-|]; [by rewrite lookup_alter_eq, Hx, lookup_insert_eq|].
  by rewrite lookup_alter_ne, lookup_insert_ne.
Qed.

(** ** Reading and writing without blocking *)

Section rules.
Context `{Fu : Fuel} (m : machine) (co : console) (p : procs) (me : nat) (pid a : Z).
Context (Hlk : has_lock m (Lpipe a)).

(** The process table after the sleepers on [ch] woke up. *)
Definition woken (ch : chan) (q : procs) : procs := q <| ptable := wake (Some ch) <$> ptable q |>.

Lemma wp_set_pipe H q k f x (Q : unit -> world kst -> Prop) :
  k_pipes k !! a = Some x -> Q tt (W (held m H) co q (put_pipe a (f x) k)) ->
  wp (set_pipe a f) Q (W (held m H) co q k).
Proof. intros Hx HQ. unfold set_pipe. kstep. cbn [w_s]. by rewrite (alter_pipe a f x) by done. Qed.

Lemma wp_pipe_room H q k x (Q : bool -> world kst -> Prop) :
  k_pipes k !! a = Some x -> pipe_wf x -> (length (pipe_bytes x) < PIPESIZE)%nat ->
  Q true (W (held m H) co q k) -> wp (pipe_room a) Q (W (held m H) co q k).
Proof.
  intros Hx Hw Hlt HQ. unfold pipe_room, pipe_room_turn, pipe_at. cbn [loop]. ksteps.
  rewrite pipe_full_spec, bool_decide_eq_false_2 by (done || lia). by ksteps.
Qed.

Lemma wp_pipewrite_loop H q src : forall k x (Q : bool -> world kst -> Prop),
  k_pipes k !! a = Some x -> pipe_wf x -> (length (pipe_bytes x) + length src <= PIPESIZE)%nat ->
  Q true (W (held m H) co q (put_pipe a (pushes src x) k)) ->
  wp (pipewrite_loop a src) Q (W (held m H) co q k).
Proof.
  induction src as [|c src IH]; intros k x Q Hx Hw Hl HQ; cbn [pipewrite_loop pushes foldl length] in *.
  - ksteps. by rewrite put_pipe_id in HQ.
  - kstep. eapply wp_pipe_room; [done..|lia|]. kstep. eapply wp_set_pipe; [done|].
    destruct (pipe_push_spec c x) as [Hw' Hb]; [done|lia|].
    eapply IH; [apply put_pipe_at|done|rewrite Hb, length_app; cbn; lia|]. by rewrite put_put_pipe.
Qed.

Lemma wp_pipewrite k x src (Q : Z -> world kst -> Prop) :
  running m p me pid -> k_pipes k !! a = Some x -> pipe_wf x ->
  (length (pipe_bytes x) + length src <= PIPESIZE)%nat ->
  Q (Z.of_nat (length src)) (W (held m []) co (woken (Cpiper a) p) (put_pipe a (pushes src x) k)) ->
  wp (pipewrite a src) Q (W (held m []) co p k).
Proof.
  intros Hrun Hx Hw Hl HQ. pose proof (run_idle _ _ _ _ Hrun). unfold pipewrite. ksteps.
  eapply wp_pipewrite_loop; [done..|]. ksteps.
  apply wp_wakeup; [done|eauto with xv6|not_held|]. by ksteps.
Qed.

Lemma wp_piperead_loop H q n : forall k x (Q : list Z -> world kst -> Prop),
  k_pipes k !! a = Some x -> pipe_wf x ->
  Q (take n (pipe_bytes x)) (W (held m H) co q (put_pipe a (pops (Nat.min n (length (pipe_bytes x))) x) k)) ->
  wp (piperead_loop a n) Q (W (held m H) co q k).
Proof.
  induction n as [|n IH]; intros k x Q Hx Hw HQ; cbn [piperead_loop].
  - ksteps. rewrite put_pipe_id in HQ; done.
  - unfold pipe_at. ksteps. rewrite pipe_empty_spec by done. case_bool_decide as He.
    + rewrite He in HQ. ksteps. cbn [length Nat.min take] in HQ. by rewrite put_pipe_id in HQ.
    + destruct (pipe_pop_spec x Hw He) as (Hw' & c & Hc & Hb). ksteps. eapply wp_set_pipe; [done|].
      kstep. eapply IH; [apply put_pipe_at|done|]. ksteps. rewrite put_put_pipe.
      rewrite Hb in HQ. cbn [length Nat.min take] in HQ. by rewrite pops_S in HQ.
Qed.

Lemma wp_piperead k x n (Q : Z * list Z -> world kst -> Prop) :
  running m p me pid -> k_pipes k !! a = Some x -> pipe_wf x ->
  pipe_bytes x ≠ [] \/ pi_writeopen x = 0 ->
  let dst := take (Z.to_nat n) (pipe_bytes x) in
  Q (Z.of_nat (length dst), dst)
    (W (held m []) co (woken (Cpipew a) p)
       (put_pipe a (pops (Nat.min (Z.to_nat n) (length (pipe_bytes x))) x) k)) ->
  wp (piperead a n) Q (W (held m []) co p k).
Proof.
  intros Hrun Hx Hw Hor dst HQ. pose proof (run_idle _ _ _ _ Hrun). unfold piperead. ksteps.
  unfold pipe_ready, pipe_at, read_waits. cbn [loop]. ksteps. rewrite pipe_empty_spec by done.
  replace (bool_decide (pipe_bytes x = []) && negb (pi_writeopen x =? 0)) with false.
  2:{ destruct Hor as [Hne|H0]; [by rewrite bool_decide_eq_false_2|]. rewrite H0. by rewrite andb_false_r. }
  ksteps. eapply wp_piperead_loop; [done..|]. ksteps.
  apply wp_wakeup; [done|eauto with xv6|not_held|]. by ksteps.
Qed.

End rules.

(** ** The abstract queue *)

(** A call on the pipe, and its result: the value returned and the bytes read. *)
Inductive pipe_op := PWrite (src : list Z) | PRead (n : Z).

Definition pipe_call `{Fuel} (a : Z) (o : pipe_op) : MK (Z * list Z) :=
  match o with
  | PWrite src => let! r := pipewrite a src in ret (r, [])
  | PRead n => piperead a n
  end.

Fixpoint pipe_calls `{Fuel} (a : Z) (os : list pipe_op) : MK (list (Z * list Z)) :=
  match os with
  | [] => ret []
  | o :: os => let! r := pipe_call a o in let! rs := pipe_calls a os in ret (r :: rs)
  end.

(** The same call on a queue that holds at most [PIPESIZE] bytes; [None] when it blocks.
    [w] says that the write end is open. *)
Definition fifo_call (w : bool) (q : list Z) (o : pipe_op) : option ((Z * list Z) * list Z) :=
  match o with
  | PWrite src =>
      if decide (length q + length src <= PIPESIZE)%nat then Some ((Z.of_nat (length src), []), q ++ src)
      else None
  | PRead n =>
      if decide (q = [] /\ w = true) then None
      else
        let out := take (Z.to_nat n) q in
        Some ((Z.of_nat (length out), out), drop (Z.to_nat n) q)
  end.

Fixpoint fifo_calls (w : bool) (q : list Z) (os : list pipe_op) : option (list (Z * list Z) * list Z) :=
  match os with
  | [] => Some ([], q)
  | o :: os =>
      '(r, q) ← fifo_call w q o;
      '(rs, q) ← fifo_calls w q os;
      Some (r :: rs, q)
  end.

(** What a sequence of calls writes and reads in all. *)
Definition op_written (o : pipe_op) : list Z := match o with PWrite src => src | PRead _ => [] end.
Definition written (os : list pipe_op) : list Z := concat (op_written <$> os).
Definition read_back (rs : list (Z * list Z)) : list Z := concat (snd <$> rs).

(** The simulation relation: the pipe at [a] is the queue [q]. *)
Definition pipe_is (a : Z) (q : list Z) (w : bool) (k : kst) : Prop :=
  exists x, k_pipes k !! a = Some x /\ pipe_wf x /\ pipe_bytes x = q /\ w = negb (pi_writeopen x =? 0).

Lemma running_woken m p me pid ch : running m p me pid -> running m (woken ch p) me pid.
Proof. apply running_wake. Qed.
#[export] Hint Resolve running_woken : xv6.

Lemma fifo_conserves w os : forall q rs q',
  fifo_calls w q os = Some (rs, q') -> q ++ written os = read_back rs ++ q'.
Proof.
  induction os as [|o os IH]; intros q rs q' Hf; cbn in Hf.
  - simplify_eq. by rewrite app_nil_r.
  - apply bind_Some in Hf as ((r & q1) & H1 & Hf). apply bind_Some in Hf as ((rs1 & q2) & H2 & Hf).
    simplify_eq. specialize (IH _ _ _ H2). unfold written, read_back. cbn [fmap list_fmap concat].
    destruct o as [src|n]; cbn [fifo_call op_written] in *; case_decide; simplify_eq; cbn [snd app] in *.
    + rewrite app_assoc. exact IH.
    + fold (written os) (read_back rs1). rewrite <- app_assoc, <- IH, app_assoc. by rewrite take_drop.
Qed.

Lemma wp_pipe_call `{Fuel} m co p k a me pid q w o r q' (Q : Z * list Z -> world kst -> Prop) :
  running m p me pid -> has_lock m (Lpipe a) -> pipe_is a q w k -> fifo_call w q o = Some (r, q') ->
  (forall p' k', running m p' me pid -> pipe_is a q' w k' -> (exists x, k' = put_pipe a x k) ->
     Q r (W (held m []) co p' k')) ->
  wp (pipe_call a o) Q (W (held m []) co p k).
Proof.
  intros Hrun Hlk (x & Hx & Hw & Hq & Hopen) Hf HQ. destruct o as [src|n]; cbn in Hf; case_decide as Hd; simplify_eq; cbn [pipe_call].
  - destruct (pushes_spec src x) as (H1 & H2 & H3 & H4); [done..|]. kstep.
    eapply wp_pipewrite; [done..|]. kstep. apply HQ; [eauto with xv6| |eauto].
    exists (pushes src x). rewrite H4. split; [apply put_pipe_at|done].
  - set (n' := Nat.min (Z.to_nat n) (length (pipe_bytes x))).
    destruct (pops_spec n' x) as (H1 & H2 & H3 & H4); [done|lia|].
    eapply wp_piperead; [done..| |].
    { destruct (pi_writeopen x =? 0) eqn:Ho; [right; by apply Z.eqb_eq|left; naive_solver]. }
    apply HQ; [eauto with xv6| |eauto]. exists (pops n' x). rewrite H4. split; [apply put_pipe_at|].
    split; [done|]. split; [|done]. rewrite H2. subst n'.
    destruct (decide (Z.to_nat n <= length (pipe_bytes x))%nat); [by rewrite Nat.min_l|].
    rewrite Nat.min_r, !drop_ge by lia. done.
Qed.

(** ** Properties *)

(** C12.  A pipe refines a bounded queue.  For every sequence of [pipewrite] and [piperead] calls
    that does not block on a queue of at most [PIPESIZE] bytes, the kernel's calls return the same
    values and the same bytes as the queue, the ring then holds the queue's bytes, nothing but
    this pipe changed, and the bytes read followed by those left are the bytes held at first followed by
    those written, in order; the wrap-around of the two counters is never seen. *)
Theorem pipe_fifo `{Fuel} m co p k a me pid q w os rs q' :
  running m p me pid -> has_lock m (Lpipe a) -> pipe_is a q w k -> fifo_calls w q os = Some (rs, q') ->
  q ++ written os = read_back rs ++ q' /\
  wp (pipe_calls a os)
    (fun out wd => out = rs /\ w_m wd = held m [] /\ w_c wd = co /\ pipe_is a q' w (w_s wd) /\
                   exists x, w_s wd = put_pipe a x k)
    (W (held m []) co p k).
Proof.
  intros Hrun Hlk Hq Hf. split; [by eapply fifo_conserves|].
  revert p k q rs Hrun Hq Hf. induction os as [|o os IH]; intros p k q rs Hrun Hq Hf; cbn in Hf; cbn [pipe_calls].
  - simplify_eq. kstep. split_and!; [done..|]. destruct Hq as (x & Hx & _). exists x. cbn. by rewrite put_pipe_id.
  - apply bind_Some in Hf as ((r & q1) & H1 & Hf). apply bind_Some in Hf as ((rs1 & q2) & H2 & Hf). simplify_eq.
    kstep. eapply wp_pipe_call; [done..|]. intros p' k' Hrun' Hq' [x ->]. kstep.
    eapply wp_mono; [by eapply IH|]. intros out wd (-> & Hm & Hc & Hi & y & Hy). kstep.
    split_and!; [done..|]. exists y. by rewrite Hy, put_put_pipe.
Qed.

(** A write in two parts, when the first part did not block. *)
Lemma pipewrite_loop_app `{Fuel} a s1 s2 : forall w w',
  pipewrite_loop a s1 w = Ret true w' -> pipewrite_loop a (s1 ++ s2) w = pipewrite_loop a s2 w'.
Proof.
  induction s1 as [|c s1 IH]; intros w w' Hr; cbn [app pipewrite_loop] in *; [by injection Hr as ->|].
  unfold bind at 1 in Hr. unfold bind at 1. destruct (pipe_room a w) as [b w1| | | |] eqn:Hb; cbn [bind_res] in *; try done.
  destruct b; [|done]. unfold bind in *. cbn in *. by apply IH.
Qed.

(** A turn on a full pipe wakes the readers and sleeps. *)
Lemma room_turn_blocks `{Lk : Linker} m co p k a me pid pr x :
  running m p me pid -> has_lock m (Lpipe a) -> k_pipes k !! a = Some x -> pipe_wf x ->
  length (pipe_bytes x) = PIPESIZE -> pi_readopen x ≠ 0 -> ptable p !! me = Some pr -> p_killed pr = 0 ->
  exists kont,
    pipe_room_turn a (W (held m [Lpipe a]) co p k) =
      Swtch (W (held m [Lptable]) co (asleep me (Cpipew a) (woken (Cpiper a) p)) k) kont /\
    forall m' co' p' k', running m' p' me pid -> has_lock m' (Lpipe a) ->
      kont (W (held m' [Lptable]) co' p' k') =
      Ret (inl tt) (W (held (m' <| fl_if := fl_if m |>) [Lpipe a]) co' (awake me p') k').
Proof.
  intros Hrun Hlk Hx Hw Hfull Hro Hp Hkill. pose proof Hrun as [Hm Hr Hc _].
  assert (He : write_ends x (W (held m [Lpipe a]) co p k) = Ret false (W (held m [Lpipe a]) co p k)).
  { assert (Hwp : wp (write_ends x) (fun e w => e = false /\ w = W (held m [Lpipe a]) co p k) (W (held m [Lpipe a]) co p k)).
    { unfold write_ends. rewrite (proj2 (Z.eqb_neq _ _) Hro). unfold mykilled, proc_at. ksteps. by rewrite Hkill. }
    by apply wp_elim in Hwp as (e & w & ? & -> & ->). }
  assert (Hwk : wakeup (Cpiper a) (W (held m [Lpipe a]) co p k) = Ret tt (W (held m [Lpipe a]) co (woken (Cpiper a) p) k)).
  { assert (Hwp : wp (wakeup (Cpiper a)) (fun _ w => w = W (held m [Lpipe a]) co (woken (Cpiper a) p) k) (W (held m [Lpipe a]) co p k)).
    { apply wp_wakeup; [done|eauto with xv6|not_held|done]. }
    by apply wp_elim in Hwp as ([] & w & ? & ->). }
  destruct (sleep_run m (Lpipe a) (Cpipew a) co (woken (Cpiper a) p) k me (wake (Some (Cpiper a)) pr))
    as (ks & Hs & Hks); [done|eauto with xv6|done..|by cbn; rewrite list_lookup_fmap, Hp|].
  eexists. split.
  - unfold pipe_room_turn. erewrite bind_Ret by (unfold pipe_at, bind, get_s, deref; cbn; by rewrite Hx).
    rewrite pipe_full_spec, bool_decide_eq_true_2 by done. erewrite bind_Ret by exact He.
    cbn match. erewrite bind_Ret by exact Hwk. erewrite bind_Swtch by exact Hs. reflexivity.
  - intros m' co' p' k' Hrun' Hlk'. pose proof Hrun' as [Hm' Hr' Hc' _]. cbn beta.
    rewrite Hks; [done..|eauto with xv6|done].
Qed.

(** A byte written to a full pipe: the writer sleeps, and when it runs again and finds room for the
    byte and all that follow it, it goes on to the end. *)
Lemma full_write_blocks n m co p k a me pid pr x c src len :
  running m p me pid -> has_lock m (Lpipe a) -> k_pipes k !! a = Some x -> pipe_wf x ->
  length (pipe_bytes x) = PIPESIZE -> pi_readopen x ≠ 0 -> ptable p !! me = Some pr -> p_killed pr = 0 ->
  let rest := let! ok := @pipewrite_loop (Datatypes.S n) a (c :: src) in
    if ok then wakeup (Cpiper a) ;;; release (Lpipe a) ;;; ret len else ret (-1) in
  exists kont,
    rest (W (held m [Lpipe a]) co p k) =
      Swtch (W (held m [Lptable]) co (asleep me (Cpipew a) (woken (Cpiper a) p)) k) kont /\
    forall m' co' p' k' x', running m' p' me pid -> has_lock m' (Lpipe a) ->
      k_pipes k' !! a = Some x' -> pipe_wf x' -> (length (pipe_bytes x') + length (c :: src) <= PIPESIZE)%nat ->
      kont (W (held m' [Lptable]) co' p' k') =
      Ret len (W (held (m' <| fl_if := fl_if m |>) []) co' (woken (Cpiper a) (awake me p'))
                 (put_pipe a (pushes (c :: src) x') k')).
Proof.
  intros Hrun Hlk Hx Hw Hfull Hro Hp Hkill rest. pose proof Hrun as [Hm Hr Hc _].
  destruct (room_turn_blocks (Lk := 0) m co p k a me pid pr x) as (kt & Ht & Hkt); [done..|].
  eexists. split.
  - subst rest. cbn [pipewrite_loop]. unfold pipe_room, fuel.
    erewrite bind_Swtch by (apply bind_Swtch, loop_Swtch, Ht). reflexivity.
  - intros m' co' p' k' x' Hrun' Hlk' Hx' Hw' Hl. cbn beta. rewrite Hkt by done. cbn [bind_res].
    set (m2 := m' <| fl_if := fl_if m |>).
    assert (Hrun2 : running m2 (awake me p') me pid).
    { destruct Hrun' as [Hm' Hr' Hc' (pr' & Hp' & Hpid')]. split; [done..|].
      exists (pr' <| p_chan := None |>). cbn. by rewrite list_lookup_alter_eq, Hp'. }
    pose proof (run_idle _ _ _ _ Hrun2) as Hm2.
    assert (Hwp : wp rest (fun r w => r = len /\
        w = W (held m2 []) co' (woken (Cpiper a) (awake me p')) (put_pipe a (pushes (c :: src) x') k'))
      (W (held m2 [Lpipe a]) co' (awake me p') k')).
    { subst rest. kstep. eapply wp_pipewrite_loop; [done..|]. ksteps.
      apply wp_wakeup; [done|eauto with xv6|not_held|]. by ksteps. }
    apply wp_elim in Hwp as (r & w & Hwp & -> & ->). rewrite <- Hwp. subst rest. cbn [pipewrite_loop].
    assert (Hroom : forall n', @pipe_room n' a (W (held m2 [Lpipe a]) co' (awake me p') k') =
      Ret true (W (held m2 [Lpipe a]) co' (awake me p') k')).
    { intros n'. assert (Hr2 : wp (@pipe_room n' a) (fun b w => b = true /\ w = W (held m2 [Lpipe a]) co' (awake me p') k')
        (W (held m2 [Lpipe a]) co' (awake me p') k')).
      { eapply wp_pipe_room; [done..| |done]. cbn [length] in Hl. lia. }
      by apply wp_elim in Hr2 as (? & ? & ? & -> & ->). }
    change (loop (Datatypes.S n) (fun _ : unit => pipe_room_turn a) tt) with (@pipe_room n a).
    unfold bind. rewrite !Hroom. reflexivity.
Qed.

(** A write of more bytes than the pipe has room for puts in what fits, wakes the
    readers and sleeps with the pipe full and its lock free; it is not lost: when the writer runs
    again and there is room for the rest, the rest follows in order and the call returns the full count. *)
Theorem pipewrite_blocks n m co p k a me pid pr x src :
  running m p me pid -> has_lock m (Lpipe a) -> k_pipes k !! a = Some x -> pipe_wf x ->
  (PIPESIZE < length (pipe_bytes x) + length src)%nat ->
  pi_readopen x ≠ 0 -> ptable p !! me = Some pr -> p_killed pr = 0 ->
  let room := (PIPESIZE - length (pipe_bytes x))%nat in
  let x1 := pushes (take room src) x in
  pipe_bytes x1 = pipe_bytes x ++ take room src /\ length (pipe_bytes x1) = PIPESIZE /\
  exists kont,
    @pipewrite (Datatypes.S n) a src (W (held m []) co p k) =
      Swtch (W (held m [Lptable]) co (asleep me (Cpipew a) (woken (Cpiper a) p)) (put_pipe a x1 k)) kont /\
    forall m' co' p' k' x', running m' p' me pid -> has_lock m' (Lpipe a) ->
      k_pipes k' !! a = Some x' -> pipe_wf x' ->
      (length (pipe_bytes x') + length (drop room src) <= PIPESIZE)%nat ->
      kont (W (held m' [Lptable]) co' p' k') =
      Ret (Z.of_nat (length src))
        (W (held (m' <| fl_if := fl_if m |>) []) co' (woken (Cpiper a) (awake me p'))
           (put_pipe a (pushes (drop room src) x') k')).
Proof.
  intros Hrun Hlk Hx Hw Hbig Hro Hp Hkill room x1. pose proof Hrun as [Hm Hr Hc _].
  assert (Hc1 : (length (pipe_bytes x) <= PIPESIZE)%nat).
  { pose proof (pp_count _ Hw). pose proof (pipe_count_length x). lia. }
  assert (Hl1 : length (take room src) = room) by (rewrite length_take; lia).
  destruct (pushes_spec (take room src) x) as (Hw1 & Hb1 & Hr1 & _); [done|lia|]. fold x1 in Hw1, Hb1, Hr1.
  split; [done|]. assert (Hf1 : length (pipe_bytes x1) = PIPESIZE) by (rewrite Hb1, length_app; lia). split; [done|].
  destruct (drop room src) as [|c s2] eqn:Hd.
  { apply (f_equal length) in Hd. rewrite length_drop in Hd. cbn [length] in Hd. lia. }
  destruct (full_write_blocks n m co p (put_pipe a x1 k) a me pid pr x1 c s2 (Z.of_nat (length src)))
    as (kont & Hs & Hk); [done|done|apply put_pipe_at|done|done|by rewrite Hr1|done|done|].
  exists kont. split; [|exact Hk]. rewrite <- Hs. unfold pipewrite.
  erewrite bind_Ret by (apply acquire_held; [done|done|not_held]).
  unfold bind at 1. rewrite <- (take_drop room src) at 1. rewrite Hd.
  erewrite pipewrite_loop_app; [reflexivity|].
  assert (Hwp : wp (@pipewrite_loop (Datatypes.S n) a (take room src))
    (fun b w => b = true /\ w = W (held m [Lpipe a]) co p (put_pipe a x1 k)) (W (held m [Lpipe a]) co p k)).
  { eapply wp_pipewrite_loop; [done..|lia|done]. }
  by apply wp_elim in Hwp as (? & ? & ? & -> & ->).
Qed.

(** ** The properties on a concrete pipe *)

(** A pipe whose counters are about to wrap around. *)
Definition ex_pipe : pipe := mkPipe (replicate PIPESIZE 0) 4294967294 4294967294 1 1.
Definition ex_pipe_kst : kst := kst0 <| k_pipes := {[ 0x80500000 := ex_pipe ]} |>.
Definition pipe_machine : machine := one_cpu (Lpipe 0x80500000 :: fs_locks) (Some 1%nat).

Lemma pipe_machine_running : running pipe_machine (ex_procs 0) 1 4.
Proof.
  destruct (ex_running 0) as [_ (H1 & H2 & H3) _ Hp]. split; [apply one_cpu_idle| |done|exact Hp].
  assert (Hadd : forall l, has_lock ex_machine l -> has_lock pipe_machine l).
  { intros l [lk Hl]. unfold has_lock, pipe_machine, one_cpu, free_locks; cbn.
    destruct (decide (l = Lpipe 0x80500000)) as [->|]; [by rewrite lookup_insert_eq|].
    rewrite lookup_insert_ne by done. by exists lk. }
  split; [|split]; [|by eauto..]. eapply list.Forall_impl; [exact H1|]. auto.
Qed.

Lemma ex_pipe_wf : pipe_wf ex_pipe.
Proof. split; [done|done|done|]. vm_compute. discriminate. Qed.

Lemma pipe_fifo_witness :
  wp (@pipe_calls 0%nat 0x80500000 [PWrite [1; 2; 3]; PRead 2; PWrite [4]; PRead 9])
    (fun out _ => out = [(3, []); (2, [1; 2]); (1, []); (2, [3; 4])])
    (W (held pipe_machine []) ex_console (ex_procs 0) ex_pipe_kst).
Proof.
  destruct (pipe_fifo (H := 0%nat) pipe_machine ex_console (ex_procs 0) ex_pipe_kst 0x80500000 1 4 [] true
      [PWrite [1; 2; 3]; PRead 2; PWrite [4]; PRead 9] [(3, []); (2, [1; 2]); (1, []); (2, [3; 4])] []) as [_ Hwp].
  - apply pipe_machine_running.
  - apply one_cpu_lock. set_solver.
  - exists ex_pipe. split; [reflexivity|]. split; [apply ex_pipe_wf|]. split; reflexivity.
  - reflexivity.
  - eapply wp_mono; [exact Hwp|]. intros out wd (-> & _). reflexivity.
Defined.

Lemma pipewrite_blocks_witness :
  let src := replicate 600 7 in
  exists kont,
    @pipewrite 1%nat 0x80500000 src (W (held pipe_machine []) ex_console (ex_procs 0) ex_pipe_kst) =
    Swtch (W (held pipe_machine [Lptable]) ex_console (asleep 1 (Cpipew 0x80500000) (woken (Cpiper 0x80500000) (ex_procs 0)))
      (put_pipe 0x80500000 (pushes (replicate 512 7) ex_pipe) ex_pipe_kst)) kont.
Proof.
  intros src.
  destruct (pipewrite_blocks 0 pipe_machine ex_console (ex_procs 0) ex_pipe_kst 0x80500000 1 4 (ex_proc 4 0 18 3) ex_pipe src)
    as (_ & _ & kont & Hk & _).
  - apply pipe_machine_running.
  - apply one_cpu_lock. set_solver.
  - reflexivity.
  - apply ex_pipe_wf.
  - apply Nat.ltb_lt. vm_compute. reflexivity.
  - discriminate.
  - reflexivity.
  - reflexivity.
  - exists kont. exact Hk.
Defined.
