(* ===== verification/File.v ===== *)
(** * Open files (file.c, and pipealloc of pipe.c)

    The table of open files and the calls that read and write through it.  The theorems follow a pipe
    from [pipealloc] to the closing of both ends, and show that reading an open file
    returns the bytes at its offset and advances the offset by their number. *)

From S2P Require Import Prelude Kstate Spinlock Cprintf Proc Kdata Sleeplock Kalloc Bio Bcache Block Log CString Fs Pipe.
From stdpp Require Import gmap strings list fin_maps functions.
Open Scope Z_scope.

Section file_c.
Context `{Lk : Linker} `{Fu : Fuel} `{Drv : DiskDriver} `{Dev : Devices}.

Definition fileinit : MK unit := initlock Lftable "ftable".

Definition filealloc : MK (option nat) :=
  acquire Lftable ;;;
  let! k := get_s in
  match find_idx (fun f => f_ref f =? 0) (k_files k) with
  | Some f =>
      set_file f (fun x => x <| f_ref := 1 |>) ;;;
      release Lftable ;;;
      ret (Some f)
  | None =>
      release Lftable ;;;
      ret None
  end.

Definition filedup (f : nat) : MK nat :=
  acquire Lftable ;;;
  let! x := file_at f in
  if f_ref x <? 1 then panic "filedup"
  else
    set_file f (fun x => x <| f_ref := s32 (f_ref x + 1) |>) ;;;
    release Lftable ;;;
    ret f.

Definition fileclose (f : nat) : MK unit :=
  acquire Lftable ;;;
  let! x := file_at f in
  if f_ref x <? 1 then panic "fileclose"
  else
    set_file f (fun x => x <| f_ref := f_ref x - 1 |>) ;;;
    if 0 <? f_ref x - 1 then release Lftable
    else
      let! ff := file_at f in
      set_file f (fun x => x <| f_ref := 0 |> <| f_type := FD_NONE |>) ;;;
      release Lftable ;;;
      match f_type ff with
      | FD_PIPE => pipeclose (f_pipe ff) (f_writable ff)
      | FD_INODE =>
          begin_op ;;;
          let! ip := deref (f_ip ff) in
          iput ip ;;;
          end_op
      | FD_NONE => ret tt
      end.

(** The result and what is stored at [st]. *)
Definition filestat (f : nat) : MK (Z * option stat) :=
  let! x := file_at f in
  match f_type x with
  | FD_INODE =>
      ilock (f_ip x) ;;;
      let! ip := deref (f_ip x) in
      let! st := stati ip in
      iunlock (f_ip x) ;;;
      ret (0, Some st)
  | _ => ret (-1, None)
  end.

(** [f->off += r] *)
Definition advance (f : nat) (r : Z) : MK unit :=
  set_file f (fun x => x <| f_off := u32 (f_off x + r) |>).

(** The result and the bytes stored at [addr]. *)
Definition fileread (f : nat) (n : Z) : MK (Z * list Z) :=
  let! x := file_at f in
  if f_readable x =? 0 then ret (-1, [])
  else
    match f_type x with
    | FD_PIPE => piperead (f_pipe x) n
    | FD_INODE =>
        ilock (f_ip x) ;;;
        let! ip := deref (f_ip x) in
        let! x' := file_at f in
        let! '(r, dst) := readi ip (f_off x') (u32 n) in
        when (0 <? r) (advance f r) ;;;
        iunlock (f_ip x) ;;;
        ret (r, dst)
    | FD_NONE => panic "fileread"
    end.

(** [((MAXOPBLOCKS-1-1-2) / 2) * 512] *)
Definition filewrite_max : Z := (MAXOPBLOCKS - 1 - 1 - 2) / 2 * 512.

(** The loop of [filewrite] over [i]; the final [i]. *)
Definition filewrite_loop (f : nat) (src : list Z) (i : Z) : MK Z :=
  let n := Z.of_nat (length src) in
  loop (Z.to_nat (n / filewrite_max) + 2) (fun i =>
    if negb (i <? n) then ret (inr i)
    else
      let n1 := Z.min (n - i) filewrite_max in
      begin_op ;;;
      let! x := file_at f in
      ilock (f_ip x) ;;;
      let! ip := deref (f_ip x) in
      let! x' := file_at f in
      let! r := writei ip (rd (Z.to_nat i) (Z.to_nat n1) src) (f_off x') in
      when (0 <? r) (advance f r) ;;;
      iunlock (f_ip x) ;;;
      end_op ;;;
      if r <? 0 then ret (inr i)
      else if negb (r =? n1) then panic "short filewrite"
      else ret (inl (i + r))) i.

(** The [n] bytes at [addr] are [src]. *)
Definition filewrite (f : nat) (src : list Z) : MK Z :=
  let! x := file_at f in
  if f_writable x =? 0 then ret (-1)
  else
    match f_type x with
    | FD_PIPE => pipewrite (f_pipe x) src
    | FD_INODE =>
        let! i := filewrite_loop f src 0 in
        ret (if i =? Z.of_nat (length src) then Z.of_nat (length src) else -1)
    | FD_NONE => panic "filewrite"
    end.

(** ** pipealloc of pipe.c *)

(** The offset of [data] in [struct pipe], after the spin lock. *)
Definition pipe_data_off : nat := 52.

(** [if(f) fileclose(f);] *)
Definition close_if (f : option nat) : MK unit :=
  match f with Some f => fileclose f | None => ret tt end.

(** The two files, or [None] for the result -1; [p] is 0 on each way to [bad]. *)
Definition pipealloc : MK (option (nat * nat)) :=
  let! f0 := filealloc in
  match f0 with
  | None => ret None
  | Some f0 =>
      let! f1 := filealloc in
      match f1 with
      | None =>
          close_if (Some f0) ;;;
          close_if None ;;;
          ret None
      | Some f1 =>
          let! p := kalloc in
          if p =? 0 then
            close_if (Some f0) ;;;
            close_if (Some f1) ;;;
            ret None
          else
            let! pg := page_at p in
            upd_s (fun k => k <| k_pipes := <[p := mkPipe (rd pipe_data_off PIPESIZE pg) 0 0 1 1]> (k_pipes k) |>) ;;;
            initlock (Lpipe p) "pipe" ;;;
            set_file f0 (fun x => x <| f_type := FD_PIPE |> <| f_readable := 1 |> <| f_writable := 0 |> <| f_pipe := p |>) ;;;
            set_file f1 (fun x => x <| f_type := FD_PIPE |> <| f_readable := 0 |> <| f_writable := 1 |> <| f_pipe := p |>) ;;;
            ret (Some (f0, f1))
      end
  end.

End file_c.

(** ** A lock initialised while the kernel runs *)

Definition with_lock (lk : lockid) (name : string) (m : machine) : machine :=
  m <| locks := <[lk := mkSpinlock 0 name None]> (locks m) |>.

Lemma held_with_lock m H lk name :
  is_Some (my_cpu m) -> lk ∉ H ->
  held m H <| locks := <[lk := mkSpinlock 0 name None]> (locks (held m H)) |> = held (with_lock lk name m) H.
Proof.
  intros [i Hme] Hni. destruct (my_cpu_lookup _ _ Hme) as [c Hc]. unfold held.
  rewrite (pushed_eq m H _ i c), (pushed_eq (with_lock lk name m) H _ i c) by done.
  unfold set_field; cbn. f_equal. apply map_eq. intros l. rewrite map_lookup_imap. cbn.
  destruct (decide (lk = l)) as [<-|Hne]; [rewrite !lookup_insert_eq; cbn; by rewrite decide_False|].
  rewrite !lookup_insert_ne, map_lookup_imap by done. done.
Qed.

Lemma wp_initlock {S} m H co p (s : S) lk name (Q : unit -> world S -> Prop) :
  is_Some (my_cpu m) -> lk ∉ H -> Q tt (W (held (with_lock lk name m) H) co p s) ->
  wp (initlock lk name) Q (W (held m H) co p s).
Proof. intros Hme Hni HQ. unfold initlock, set_lock, wp, bind, get_m, put_m; cbn. by rewrite held_with_lock. Qed.

Lemma has_lock_with lk name m l : has_lock m l -> has_lock (with_lock lk name m) l.
Proof.
  unfold has_lock; cbn. destruct (decide (lk = l)) as [<-|]; [by rewrite lookup_insert_eq|by rewrite lookup_insert_ne].
Qed.

Lemma has_lock_new lk name m : has_lock (with_lock lk name m) lk.
Proof. unfold has_lock; cbn. by rewrite lookup_insert_eq. Qed.

Lemma idle_with lk name m : idle m -> idle (with_lock lk name m).
Proof.
  intros [Hc Hl]. split; [exact Hc|]. intros l. unfold lock_of; cbn.
  destruct (decide (lk = l)) as [<-|]; [by rewrite lookup_insert_eq|]. rewrite lookup_insert_ne by done. apply Hl.
Qed.

Lemma running_with lk name m p me pid : running m p me pid -> running (with_lock lk name m) p me pid.
Proof.
  intros [Hm (H1 & H2 & H3) Hc Hp]. split; [by apply idle_with| |done|done].
  split; [|split]; [|intros; apply has_lock_with; auto..].
  eapply list.Forall_impl; [exact H1|]. intros. by apply has_lock_with.
Qed.

#[export] Hint Resolve has_lock_with has_lock_new idle_with running_with : xv6.

(** ** Files *)

Definition put_file (f : nat) (x : file) (k : kst) : kst := k <| k_files := <[f := x]> (k_files k) |>.

Lemma put_put_file f x y k : put_file f x (put_file f y k) = put_file f x k.
Proof. unfold put_file, set_field; cbn. by rewrite list_insert_insert_eq. Qed.

Lemma put_file_id f x k : k_files k !! f = Some x -> put_file f x k = k.
Proof. intros Hx. unfold put_file, set_field; cbn. rewrite list_insert_id by done. by destruct k. Qed.

Lemma put_file_at f x y k : k_files k !! f = Some y -> k_files (put_file f x k) !! f = Some x.
Proof. intros Hy. cbn. apply list_lookup_insert_eq. by eapply lookup_lt_Some. Qed.

Section rules.
Context `{Lk : Linker} `{Fu : Fuel} `{Drv : DiskDriver} `{Dev : Devices}.
Context (m : machine) (co : console) (me : nat) (pid : Z).

Lemma wp_set_file H q k f g x (Q : unit -> world kst -> Prop) :
  k_files k !! f = Some x -> Q tt (W (held m H) co q (put_file f (g x) k)) ->
  wp (set_file f g) Q (W (held m H) co q k).
Proof.
  intros Hx HQ. unfold set_file. kstep. cbn [w_s]. unfold put_file in HQ.
  by rewrite <- (alter_is_insert g (k_files k) f x) in HQ.
Qed.

(** The slot [filealloc] takes. *)
Definition free_slot (l : list file) : option nat := find_idx (fun f => f_ref f =? 0) l.

Lemma wp_filealloc p k f x (Q : option nat -> world kst -> Prop) :
  running m p me pid -> free_slot (k_files k) = Some f -> k_files k !! f = Some x ->
  Q (Some f) (W (held m []) co p (put_file f (x <| f_ref := 1 |>) k)) -> wp filealloc Q (W (held m []) co p k).
Proof.
  intros Hrun Hf Hx HQ. pose proof (run_idle _ _ _ _ Hrun). unfold filealloc. kstep.
  apply wp_acquire; [done|eauto with xv6|not_held|]. ksteps. unfold free_slot in Hf. rewrite Hf. kstep.
  eapply wp_set_file; [done|]. kstep. apply wp_release; [done|eauto with xv6|not_held|]. by ksteps.
Qed.

(** Closing the last handle of one end of a pipe. *)
Lemma wp_close_pipe p k f x a y (Q : unit -> world kst -> Prop) :
  running m p me pid -> has_lock m (Lpipe a) ->
  k_files k !! f = Some x -> f_ref x = 1 -> f_type x = FD_PIPE -> f_pipe x = a -> k_pipes k !! a = Some y ->
  let y' := if f_writable x =? 0 then y <| pi_readopen := 0 |> else y <| pi_writeopen := 0 |> in
  let p' := woken (if f_writable x =? 0 then Cpipew a else Cpiper a) p in
  let k' := put_file f (x <| f_ref := 0 |> <| f_type := FD_NONE |>) k in
  (if (pi_readopen y' =? 0) && (pi_writeopen y' =? 0)
   then wp (kfree a) Q (W (held m []) co p' (k' <| k_pipes := delete a (k_pipes k) |>))
   else Q tt (W (held m []) co p' (put_pipe a y' k'))) ->
  wp (fileclose f) Q (W (held m []) co p k).
Proof.
  intros Hrun Hlk Hx Hr Ht Ha Hy y' p' k' HQ. pose proof (run_idle _ _ _ _ Hrun). unfold fileclose, file_at. kstep.
  apply wp_acquire; [done|eauto with xv6|not_held|]. ksteps. rewrite Hr. change (1 <? 1) with false. change (0 <? 1 - 1) with false. cbn match.
  kstep. eapply wp_set_file; [done|]. kstep. kstep. kstep. eapply wp_deref; [by eapply put_file_at|]. kstep.
  eapply wp_set_file; [by eapply put_file_at|]. rewrite put_put_file. kstep.
  apply wp_release; [done|eauto with xv6|not_held|].
  replace (put_file f _ k) with k' by (unfold k'; by rewrite Hr).
  change (f_type (x <| f_ref := f_ref x - 1 |>)) with (f_type x). rewrite Ht. cbn match.
  change (f_pipe (x <| f_ref := f_ref x - 1 |>)) with (f_pipe x). change (f_writable (x <| f_ref := f_ref x - 1 |>)) with (f_writable x).
  rewrite Ha. unfold pipeclose. kstep. apply wp_acquire; [done|done|not_held|]. kstep.
  assert (Hupd : forall g ch (R : unit -> world kst -> Prop), R tt (W (held m [Lpipe a]) co (woken ch p) (put_pipe a (g y) k')) ->
    wp (set_pipe a g ;;; wakeup ch) R (W (held m [Lpipe a]) co p k')).
  { intros g ch R HR. kstep. eapply wp_set_pipe; [done|]. apply wp_wakeup; [done|eauto with xv6|not_held|done]. }
  subst y' p'. destruct (f_writable x =? 0); cbn [negb].
  all: apply Hupd; kstep; unfold pipe_at; ksteps; eapply wp_deref; [apply put_pipe_at|].
  all: destruct (_ && _); [kstep; apply wp_release; [done|done|not_held|]; ksteps|apply wp_release; [done|done|not_held|done]].
  all: cbn [w_s]; unfold put_pipe, set_field in *; cbn in *; by rewrite delete_insert_eq.
Qed.

End rules.

(** The files of a new pipe. *)
Definition read_end (a : Z) (x : file) : file :=
  x <| f_ref := 1 |> <| f_type := FD_PIPE |> <| f_readable := 1 |> <| f_writable := 0 |> <| f_pipe := a |>.
Definition write_end (a : Z) (x : file) : file :=
  x <| f_ref := 1 |> <| f_type := FD_PIPE |> <| f_readable := 0 |> <| f_writable := 1 |> <| f_pipe := a |>.

Lemma insert_twice {A} (l : list A) i j a b c d :
  i ≠ j -> <[j := d]> (<[i := c]> (<[j := b]> (<[i := a]> l))) = <[j := d]> (<[i := c]> l).
Proof.
  intros Hne. apply list_eq. intros n. rewrite !list_lookup_insert, !length_insert.
  repeat case_decide; first [done|exfalso; tauto].
Qed.

Lemma put_file_twice f0 f1 a b c d k :
  f0 ≠ f1 -> put_file f1 d (put_file f0 c (put_file f1 b (put_file f0 a k))) = put_file f1 d (put_file f0 c k).
Proof. intros Hne. unfold put_file, set_field; cbn. by rewrite insert_twice. Qed.

Lemma wp_pipealloc `{Lk : Linker} `{Fu : Fuel} `{Drv : DiskDriver} m co p k me pid f0 f1 x0 x1 a l
    (Q : option (nat * nat) -> world kst -> Prop) :
  0 < kend -> running m p me pid -> kmem_free m [] k -> free_pages k (a :: l) ->
  free_slot (k_files k) = Some f0 -> k_files k !! f0 = Some x0 ->
  free_slot (<[f0 := x0 <| f_ref := 1 |>]> (k_files k)) = Some f1 -> k_files k !! f1 = Some x1 -> f0 ≠ f1 ->
  (forall pg, length pg = Z.to_nat PGSIZE ->
   let k1 := k <| k_freelist := get32 0 pg |> in
   free_pages k1 l ->
   Q (Some (f0, f1)) (W (held (with_lock (Lpipe a) "pipe" m) []) co p
     (put_file f1 (write_end a x1) (put_file f0 (read_end a x0)
       (put_pipe a (mkPipe (rd pipe_data_off PIPESIZE pg) 0 0 1 1) k1))))) ->
  wp pipealloc Q (W (held m []) co p k).
Proof.
  intros Hend Hrun Hkm Hfree Hf0 Hx0 Hf1 Hx1 Hne HQ. pose proof (run_idle _ _ _ _ Hrun) as Hm. unfold pipealloc.
  kstep. eapply wp_filealloc; [done..|]. kstep. eapply wp_filealloc; [done|exact Hf1|cbn; by rewrite list_lookup_insert_ne|].
  kstep. pose proof Hfree as ((_ & pg & Hpg & Hlen & _) & Hnd & Hv).
  eapply (wp_kalloc _ _ _ _ _ (a :: l)); [exact Hkm|exact Hfree|]. intros pg' Hpg' Hl.
  assert (pg' = pg) as -> by (cbn in Hpg'; rewrite Hpg in Hpg'; by simplify_eq).
  apply list.Forall_cons in Hv as [Hva _]. pose proof (valid_page_u32 a Hva) as [_ Hpos].
  rewrite (proj2 (Z.eqb_neq a 0)) by lia. unfold page_at. ksteps.
  eapply wp_initlock; [eauto with xv6|not_held|]. cbn [w_s].
  kstep. eapply wp_set_file. { cbn. rewrite list_lookup_insert_ne, list_lookup_insert_eq; [done|by eapply lookup_lt_Some|done]. }
  kstep. eapply wp_set_file.
  { cbn. rewrite list_lookup_insert_ne, list_lookup_insert_eq; [done| |done].
    rewrite length_insert. by eapply lookup_lt_Some. }
  kstep. specialize (HQ pg Hlen Hl).
  rewrite <- (put_file_twice f0 f1 (x0 <| f_ref := 1 |>) (x1 <| f_ref := 1 |>)) in HQ by done. exact HQ.
Qed.

(** ** Properties *)

(** The life of a pipe.  [pipealloc] on two free slots and a free page gives a readable and a writable
    file on one empty pipe; when the writer closes its end a reader gets end of file (0 bytes) instead of
    sleeping; when the reader closes too, the page is back on the free list, the pipe is gone and
    both slots are free again. *)
Theorem pipe_lifecycle `{Lk : Linker} `{Fu : Fuel} `{Drv : DiskDriver} m co p k me pid f0 f1 x0 x1 a l n :
  0 < kend -> running m p me pid -> kmem_free m [] k -> free_pages k (a :: l) -> k_pipes k !! a = None ->
  free_slot (k_files k) = Some f0 -> k_files k !! f0 = Some x0 ->
  free_slot (<[f0 := x0 <| f_ref := 1 |>]> (k_files k)) = Some f1 -> k_files k !! f1 = Some x1 -> f0 ≠ f1 ->
  exists w1, pipealloc (W (held m []) co p k) = Ret (Some (f0, f1)) w1 /\
    pipe_is a [] true (w_s w1) /\ free_pages (w_s w1) l /\
    k_files (w_s w1) !! f0 = Some (read_end a x0) /\ k_files (w_s w1) !! f1 = Some (write_end a x1) /\
    wp (fileclose f1 ;;; let! r := piperead a n in fileclose f0 ;;; ret r)
      (fun r w2 => r = (0, []) /\ free_pages (w_s w2) (a :: l) /\ k_pipes (w_s w2) = k_pipes k /\
         (f_ref <$> k_files (w_s w2) !! f0) = Some 0 /\ (f_ref <$> k_files (w_s w2) !! f1) = Some 0) w1.
Proof.
  intros Hend Hrun Hkm Hfree Hnone Hf0 Hx0 Hf1 Hx1 Hne.
  set (R := fun (r : option (nat * nat)) w1 => exists pg, r = Some (f0, f1) /\ length pg = Z.to_nat PGSIZE /\
    w1 = W (held (with_lock (Lpipe a) "pipe" m) []) co p
     (put_file f1 (write_end a x1) (put_file f0 (read_end a x0)
       (put_pipe a (mkPipe (rd pipe_data_off PIPESIZE pg) 0 0 1 1) (k <| k_freelist := get32 0 pg |>)))) /\
    free_pages (k <| k_freelist := get32 0 pg |>) l).
  assert (Hwp : wp pipealloc R (W (held m []) co p k)).
  { eapply wp_pipealloc; [done..|]. intros pg Hlen k1 Hl. by exists pg. }
  apply wp_elim in Hwp as (r & w1 & Hr & pg & -> & Hlen & -> & Hl). eexists. split; [exact Hr|]. cbn [w_s].
  set (y := mkPipe (rd pipe_data_off PIPESIZE pg) 0 0 1 1).
  assert (Hy : pipe_wf y).
  { split; [|done|done|done]. apply length_rd. rewrite Hlen. unfold pipe_data_off, PIPESIZE, PGSIZE. lia. }
  assert (Hlt : (f0 < length (k_files k))%nat /\ (f1 < length (k_files k))%nat) by (split; by eapply lookup_lt_Some).
  set (k1 := put_file f1 (write_end a x1) (put_file f0 (read_end a x0) (put_pipe a y (k <| k_freelist := get32 0 pg |>)))).
  assert (Hk1 : k_files k1 !! f0 = Some (read_end a x0) /\ k_files k1 !! f1 = Some (write_end a x1)).
  { cbn. split; [rewrite list_lookup_insert_ne by done|]; apply list_lookup_insert_eq; rewrite ?length_insert; lia. }
  split; [exists y; split; [apply put_pipe_at|done]|]. split; [exact Hl|]. split; [apply Hk1|]. split; [apply Hk1|].
  set (m1 := with_lock (Lpipe a) "pipe" m). assert (Hrun1 : running m1 p me pid) by eauto with xv6.
  kstep. eapply (wp_close_pipe m1); [exact Hrun1|apply has_lock_new|apply Hk1|done|done|done|apply put_pipe_at|]. cbn -[k1 put_file put_pipe].
  kstep. eapply (wp_piperead m1 _ _ me pid); [apply has_lock_new|eauto with xv6|apply put_pipe_at|by destruct Hy|by right|].
  change (pipe_bytes _) with (@nil Z). rewrite take_nil. kstep. rewrite Nat.min_0_r.
  eapply (wp_close_pipe m1 co me pid _ _ f0 (read_end a x0) a); [eauto with xv6|apply has_lock_new| |done|done|done|apply put_pipe_at|].
  { cbn -[k1]. rewrite list_lookup_insert_ne by done. apply Hk1. }
  cbn -[k1 put_file put_pipe pops kfree]. destruct Hfree as (Hch & Hnd & Hv). apply list.Forall_cons in Hv as [Hva _].
  apply list.NoDup_cons in Hnd as [Hni _].
  apply wp_kfree; [split; [by apply (run_idle _ _ _ _ Hrun1)|intros Hu; split; [|set_solver]; apply has_lock_with, Hkm, Hu]|done|].
  split; [done|]. cbn [w_s]. split; [apply free_pages_kfree; [done..|exact Hl]|].
  cbn -[k1 put_file]. split; [|split].
  - cbn. rewrite !delete_insert_eq. by apply delete_id.
  - cbn. rewrite list_lookup_insert_eq by (rewrite !length_insert; lia). done.
  - cbn. rewrite list_lookup_insert_ne, list_lookup_insert_eq by (rewrite ?length_insert; lia || done). done.
Qed.

(** ** Reading a file *)

Section read.
Context `{BC : BlockCache} `{Dev : Devices} (m : machine) (co : console) (me : nat) (pid : Z).

Lemma wp_ilock_valid p k ip i (Q : unit -> world kst -> Prop) :
  running m p me pid -> (ip < NINODE)%nat -> k_inodes k !! ip = Some i -> 1 <= i_ref i ->
  sl_locked (i_lock i) = 0 -> i_valid i ≠ 0 ->
  Q tt (W (held m []) co p (sl_upd (SLinode ip) (sl_take pid) k)) ->
  wp (ilock (Some ip)) Q (W (held m []) co p k).
Proof.
  intros Hrun Hip Hi Hr Hl Hv HQ. unfold ilock, inode_at. ksteps. rewrite (proj2 (Z.ltb_ge _ _)) by lia. kstep.
  eapply (wp_acquiresleep m co me pid); [eauto with xv6|exact Hrun|set_solver|cbn; by rewrite Hi|done|]. ksteps.
  eapply wp_deref. { cbn. rewrite list_lookup_alter_eq, Hi. reflexivity. }
  cbn [i_valid set_field]. rewrite (proj2 (Z.eqb_neq (i_valid i) 0)) by done. by kstep.
Qed.

Lemma wp_iunlock p k ip i (Q : unit -> world kst -> Prop) :
  running m p me pid -> (ip < NINODE)%nat -> k_inodes k !! ip = Some i -> 1 <= i_ref i ->
  sl_locked (i_lock i) = 1 -> sl_pid (i_lock i) = pid ->
  Q tt (W (held m []) co (woken (Csleep (SLinode ip)) p) (sl_upd (SLinode ip) sl_drop k)) ->
  wp (iunlock (Some ip)) Q (W (held m []) co p k).
Proof.
  intros Hrun Hip Hi Hr Hl Hpid HQ. unfold iunlock, inode_at. kstep.
  eapply (wp_holdingsleep m co me pid); [eauto with xv6|exact Hrun|set_solver|cbn; by rewrite Hi|].
  cbn. rewrite Hl, Hpid, Z.eqb_refl. cbn [Z.eqb negb andb]. ksteps. rewrite (proj2 (Z.ltb_ge _ _)) by lia.
  eapply (wp_releasesleep m co me pid); [eauto with xv6|exact Hrun|set_solver..|exact HQ].
Qed.

(** The inode after a lock and an unlock: nothing holds it. *)
Definition unlocked (ip : nat) (k : kst) : kst := sl_upd (SLinode ip) (fun l => l <| sl_locked := 0 |> <| sl_pid := 0 |>) k.

Lemma unlock_after_lock ip f x k :
  sl_upd (SLinode ip) sl_drop (put_file f x (sl_upd (SLinode ip) (sl_take pid) k)) = unlocked ip (put_file f x k).
Proof.
  change (put_file f x (sl_upd (SLinode ip) (sl_take pid) k)) with (sl_upd (SLinode ip) (sl_take pid) (put_file f x k)).
  by rewrite sl_upd_upd.
Qed.

Lemma blk_unlocked (g : sleeplock -> sleeplock) ip k hm dt view :
  blk k pid hm dt view -> blk (sl_upd (SLinode ip) g k) pid hm dt view.
Proof. apply blk_frame; done. Qed.

Lemma uncached_upd_inode ip g k k' :
  uncached k' = uncached k -> uncached (sl_upd (SLinode ip) g k') = uncached (sl_upd (SLinode ip) g k).
Proof. intros Hu. apply (f_equal (sl_upd (SLinode ip) g)) in Hu. exact Hu. Qed.

Lemma wp_fileread_inode p k hm dt view f x ip i n (Q : Z * list Z -> world kst -> Prop) :
  running m p me pid -> blk k pid hm dt view -> (size hm + size dt < NBUF)%nat ->
  k_files k !! f = Some x -> f_readable x ≠ 0 -> f_type x = FD_INODE -> f_ip x = Some ip -> is_u32 (f_off x) ->
  (ip < NINODE)%nat -> k_inodes k !! ip = Some i -> 1 <= i_ref i -> sl_locked (i_lock i) = 0 -> i_valid i ≠ 0 ->
  i_dev i = 1 -> i_type i ≠ T_DEV -> 0 <= n -> f_off x + n < 2 ^ 32 -> is_u32 (i_size i) ->
  blocks_ok k hm view i (f_off x / 512) ((Z.min (i_size i) (f_off x + n) - 1) / 512) ->
  let r := readi_result view i (f_off x) n in
  let x' := if 0 <? r.1 then x <| f_off := f_off x + r.1 |> else x in
  (forall p' k', running m p' me pid -> blk k' pid hm dt view ->
     uncached k' = uncached (unlocked ip (put_file f x' k)) -> Q r (W (held m []) co p' k')) ->
  wp (fileread f n) Q (W (held m []) co p k).
Proof.
  intros Hrun Hb Hroom Hx Hrd Hty Hfip Hoff Hip Hi Href Hl Hv Hdev Hnd Hn Hov Hsz Hok r x' HQ. unfold is_u32 in *.
  set (kl := sl_upd (SLinode ip) (sl_take pid) k). set (il := i <| i_lock := sl_take pid (i_lock i) |>).
  assert (Hil : k_inodes kl !! ip = Some il) by (unfold kl; cbn; by rewrite list_lookup_alter_eq, Hi).
  unfold fileread, file_at. ksteps. rewrite (proj2 (Z.eqb_neq _ _) Hrd), Hty, Hfip. kstep.
  eapply wp_ilock_valid; [done..|]. ksteps. rewrite u32_id by (unfold is_u32; lia).
  eapply (wp_readi m co p me pid kl hm dt view ip il);
    [done|by apply blk_unlocked|done|done|done|done|lia|done|done|done|exact Hok|].
  change (readi_result view il (f_off x) n) with r. destruct r as [c dst] eqn:Hr. subst r. cbn [fst] in *.
  intros p1 k1 Hrun1 Hb1 Hu1.
  assert (Hx1 : k_files k1 !! f = Some x) by (rewrite (f_equal k_files Hu1 : k_files k1 = k_files k); done).
  assert (Hi1 : k_inodes k1 !! ip = Some il) by (rewrite (f_equal k_inodes Hu1 : k_inodes k1 = k_inodes kl); done).
  assert (Hrest : forall k2, k_inodes k2 = k_inodes k1 -> blk k2 pid hm dt view ->
    uncached k2 = uncached (put_file f x' kl) ->
    wp (iunlock (Some ip) ;;; ret (c, dst)) Q (W (held m []) co p1 k2)).
  { intros k2 Hi2 Hb2 Hu2. kstep. eapply wp_iunlock; [done|done|rewrite Hi2; exact Hi1|done|done|done|]. kstep.
    apply HQ; [by apply running_woken|by apply blk_unlocked|].
    rewrite (uncached_upd_inode ip sl_drop _ _ Hu2). unfold kl. by rewrite unlock_after_lock. }
  kstep. destruct (Z.ltb_spec 0 c) as [Hc|Hc]; cbn [when].
  - unfold advance. eapply wp_set_file; [done|]. 
    assert (Hcb : f_off x + c <= 4294967295).
    { unfold readi_result in Hr. case_decide; simplify_eq; lia. }
    rewrite u32_id by (unfold is_u32; lia). apply Hrest; [done|by eapply blk_frame; [..|exact Hb1]|].
    unfold x'. apply (f_equal (put_file f (x <| f_off := f_off x + c |>))) in Hu1. exact Hu1.
  - kstep. apply Hrest; [done|done|]. unfold x'. by rewrite put_file_id.
Qed.

End read.

(** [fileread] of an open file returns the bytes of the file at its offset, cut at the end of the
    file, advances the offset by the number of bytes read, leaves the inode unlocked and changes nothing else
    but the buffer cache; so consecutive reads walk through the file. *)
Theorem fileread_spec `{BC : BlockCache} `{Dev : Devices} m co p me pid k hm dt view f x ip i n :
  running m p me pid -> blk k pid hm dt view -> (size hm + size dt < NBUF)%nat ->
  k_files k !! f = Some x -> f_readable x ≠ 0 -> f_type x = FD_INODE -> f_ip x = Some ip -> is_u32 (f_off x) ->
  (ip < NINODE)%nat -> k_inodes k !! ip = Some i -> 1 <= i_ref i -> sl_locked (i_lock i) = 0 -> i_valid i ≠ 0 ->
  i_dev i = 1 -> i_type i ≠ T_DEV -> 0 <= n -> f_off x + n < 2 ^ 32 -> is_u32 (i_size i) ->
  blocks_ok k hm view i (f_off x / 512) ((Z.min (i_size i) (f_off x + n) - 1) / 512) ->
  let r := readi_result view i (f_off x) n in
  let x' := if 0 <? r.1 then x <| f_off := f_off x + r.1 |> else x in
  exists p' k', fileread f n (W (held m []) co p k) = Ret r (W (held m []) co p' k') /\
    running m p' me pid /\ blk k' pid hm dt view /\ uncached k' = uncached (unlocked ip (put_file f x' k)).
Proof.
  intros Hrun Hb Hroom Hx Hrd Hty Hfip Hoff Hip Hi Href Hl Hv Hdev Hnd Hn Hov Hsz Hok r x'.
  assert (Hwp : wp (fileread f n) (fun out w => out = r /\ exists p' k', w = W (held m []) co p' k' /\
    running m p' me pid /\ blk k' pid hm dt view /\ uncached k' = uncached (unlocked ip (put_file f x' k)))
    (W (held m []) co p k)).
  { eapply wp_fileread_inode; [done..|]. intros p' k' ? ? ?. split; [done|]. by exists p', k'. }
  apply wp_elim in Hwp as (out & w & Hr & -> & p' & k' & -> & ?). by exists p', k'.
Qed.

(** ** The properties on concrete states *)

Lemma pipe_lifecycle_witness :
  exists w1, @pipealloc ex_end 0%nat (@memide 0%nat) (W (held ex_machine []) ex_console (ex_procs 0) ex_kmem) =
    Ret (Some (0%nat, 1%nat)) w1 /\ pipe_is 0x80400000 [] true (w_s w1).
Proof.
  destruct (@pipe_lifecycle ex_end 0%nat (@memide 0%nat) ex_machine ex_console (ex_procs 0) ex_kmem 1 4 0 1
    file_zero file_zero 0x80400000 [] 5) as (w1 & Hr & Hp & _).
  - reflexivity.
  - apply ex_running.
  - apply ex_kmem_free.
  - apply ex_free_pages.
  - reflexivity.
  - reflexivity.
  - reflexivity.
  - reflexivity.
  - reflexivity.
  - discriminate.
  - exists w1. split; [exact Hr|exact Hp].
Defined.

(** The example file, open at offset 90. *)
Definition ex_open : file := mkFile FD_INODE 1 1 0 0 (Some 0%nat) 90.
Definition ex_files : kst := ex_fs <| k_files := [ex_open] |>.

Lemma fileread_spec_witness :
  exists p' k', @fileread 0%nat (@memide 0%nat) ex_devices 0 200 (W (held ex_machine []) ex_console (ex_procs 0) ex_files) =
    Ret (10, replicate 10 65) (W (held ex_machine []) ex_console p' k') /\
    uncached k' = uncached (unlocked 0 (put_file 0 (ex_open <| f_off := 100 |>) ex_files)).
Proof.
  destruct (@fileread_spec 0%nat (@memide 0%nat) (@bio_block_cache 0%nat) ex_devices ex_machine ex_console (ex_procs 0)
    1 4 ex_files ∅ ∅ (ex_view ex_file_disk) 0 ex_open 0 ex_inode 200) as (p' & k' & Hr & _ & _ & Hu).
  - apply ex_running.
  - apply (@blk_frame _ _ (@bio_block_cache 0%nat) ex_fs); [reflexivity..|exact ex_fs_blk].
  - rewrite map_size_empty, size_empty. unfold NBUF. lia.
  - reflexivity.
  - discriminate.
  - reflexivity.
  - reflexivity.
  - unfold is_u32. cbn. lia.
  - unfold NINODE. lia.
  - reflexivity.
  - cbn. lia.
  - reflexivity.
  - discriminate.
  - reflexivity.
  - discriminate.
  - lia.
  - reflexivity.
  - unfold is_u32. cbn. lia.
  - split.
    + intros bn Hbn. exists 5. assert (bn = 0) as -> by (change (0 <= bn <= 0) in Hbn; lia). split; [reflexivity|].
      split; [vm_compute; split; [discriminate|reflexivity]|]. intros i Hi. by rewrite lookup_empty in Hi.
    + intros Hd. change (12 <= 0) in Hd. lia.
  - exists p', k'. split; [rewrite Hr; reflexivity|exact Hu].
Defined.
