(* ===== verification/Filewrite.v ===== *)
(** * Writing an open file (filewrite of file.c)

    The theorem about [filewrite]: however long the data, which it writes a few blocks at a time, each in a transaction of its own, the file has the
    data at the offset when the call returns, and it is on the disk.  It joins the theorems about [writei] and [end_op]. *)

From S2P Require Import Prelude Kstate Spinlock Cprintf Proc Kdata Sleeplock Bio Bcache Block Log CString Fs Pipe File Write.
From stdpp Require Import gmap strings list fin_maps functions.
Open Scope Z_scope.

(** ** An inode that is written twice *)

Lemma put_dinode_twice i i' o d : length (i_addrs i) = length (i_addrs i') ->
  (o + 12 + 4 * length (i_addrs i') <= length d)%nat -> put_dinode i' o (put_dinode i o d) = put_dinode i' o d.
Proof.
  intros Ha Hl. unfold put_dinode, put16, put32.
  pose proof (length_dinode_addrs (i_addrs i)) as L1. pose proof (length_dinode_addrs (i_addrs i')) as L2.
  apply list_eq. intros j. rewrite !lookup_wr by (rewrite ?length_wr, ?length_le_bytes, ?L1, ?L2; lia).
  rewrite !length_le_bytes, L1, L2, Ha. repeat case_decide; try lia; done.
Qed.

(** ** The parts of a write *)

Lemma turns_four o n : 0 <= o -> 0 <= n <= filewrite_max -> (turns o (o + n) <= 4)%nat.
Proof.
  intros Ho Hn. unfold turns. change filewrite_max with 1536 in Hn. case_decide; [|lia].
  assert ((o + n - 1) / 512 <= o / 512 + 3); [|lia]. Z.div_mod_to_equations. lia.
Qed.

Lemma do_writes_eq ws : forall k, do_writes ws k = k <| k_disk := apply_writes ws (k_disk k) |> <| k_written := k_written k ++ ws |>.
Proof.
  induction ws as [|[n d] ws IH]; intros k; [cbn; rewrite app_nil_r; by destruct k|].
  change (do_writes ((n, d) :: ws) k) with (do_writes ws (disk_write n d k)). rewrite IH. unfold disk_write. cbn. by rewrite <- app_assoc.
Qed.

(** ** A transaction *)

Section chunk.
Context `{BC : BlockCache} `{Dev : Devices} (m : machine) (co : console) (me : nat) (pid : Z) (f ip : nat).
Implicit Types (view : Z -> list Z) (i : inode) (x : file) (k : kst).

(** An open file and its inode between two system calls: the log is empty and no operation runs, the inode is in memory and not locked. *)
Record file_ready k x i view : Prop := {
  fr_log : quiet pid k ∅ view [];
  fr_idle : l_outstanding (k_log k) = 0 /\ l_committing (k_log k) = 0;
  fr_room : MAXOPBLOCKS < l_size (k_log k);
  fr_file : k_files k !! f = Some x;
  fr_type : f_type x = FD_INODE /\ f_ip x = Some ip;
  fr_ip : (ip < NINODE)%nat /\ 1 <= i_ref i /\ sl_locked (i_lock i) = 0 /\ i_valid i ≠ 0;
  fr_map : writable k ip i view;
  fr_off : 0 <= f_off x <= i_size i /\ i_size i <= MAXFILE * 512;
}.

(** The state after [begin_op] and [ilock]. *)
Definition begun k : kst := k <| k_log := k_log k <| l_outstanding := 1 |> |>.
Definition locked k : kst := sl_upd (SLinode ip) (sl_take pid) (begun k).
Definition ilocked i : inode := i <| i_lock := sl_take pid (i_lock i) |>.

Lemma wp_begin p k x i view (Q : unit -> world kst -> Prop) :
  running m p me pid -> file_ready k x i view -> Q tt (W (held m []) co p (begun k)) -> wp begin_op Q (W (held m []) co p k).
Proof.
  intros Hrun Hr HQ. pose proof (lw_n _ _ _ (proj1 (proj2 (fr_log _ _ _ _ Hr)))) as Hn. destruct (fr_idle _ _ _ _ Hr) as [Ho Hc].
  cbn [length] in Hn. pose proof (begin_op_spec H m co p me pid k Hrun) as Hb. cbn zeta in Hb. unfold LOGSIZE, MAXOPBLOCKS in Hb.
  rewrite decide_True in Hb by (unfold admits, LOGSIZE, MAXOPBLOCKS; lia). eapply wp_eq; [apply Hb; lia|]. unfold begun. rewrite Ho in *. exact HQ.
Qed.

Lemma locked_writable k x i view : file_ready k x i view -> writable (locked k) ip (ilocked i) view.
Proof.
  intros Hr. pose proof (fr_map _ _ _ _ Hr) as [H1 H2 H3 H4 H5 H6 H7]. split; [|exact H2|exact H3|exact H4|exact H5|exact H6|].
  - unfold locked. cbn. by rewrite list_lookup_alter_eq, H1.
  - exact (foreign_ok _ _ _ (data_range _ _ H4) (data_bm _ _) (size_ok _ H5) view i view (ilocked i) H7 (fun c _ => eq_refl) eq_refl).
Qed.

Lemma locked_op k x i view r q : file_ready k x i view -> (r <= 10)%nat -> (q < NBUF)%nat -> in_op pid (locked k) ∅ view [] r q.
Proof.
  intros Hr Hrr Hq. destruct (fr_log _ _ _ _ Hr) as (Hb & Hw & _). pose proof (fr_room _ _ _ _ Hr) as Hroom. unfold MAXOPBLOCKS in Hroom. split.
  - by apply (blk_frame k).
  - destruct Hw as [H1 H2 H3 H4 H5 H6 H7 H8 H9]. by split.
  - done.
  - change (l_size (k_log (locked k))) with (l_size (k_log k)). cbn [length]. lia.
  - rewrite map_size_empty. cbn [length]. lia.
Qed.

(** What the transaction does to the file, its inode and the disk. *)
Record chunk_done k x i view (src : list Z) k' x' i' view' : Prop := {
  cd_state : exists l dk ws, uncached k' = uncached k <| k_log := l |> <| k_disk := dk |> <| k_written := ws |>
    <| k_inodes := <[ip := i']> (k_inodes k) |> <| k_files := <[f := x']> (k_files k) |> /\
    l_start l = l_start (k_log k) /\ l_size l = l_size (k_log k) /\ length dk = length (k_disk k);
  cd_file : x' = x <| f_off := f_off x + Z.of_nat (length src) |>;
  cd_inode : i' = i <| i_lock := sl_drop (i_lock i) |> <| i_addrs := i_addrs i' |> <| i_size := Z.max (i_size i) (f_off x + Z.of_nat (length src)) |>;
  cd_new : forall pos, f_off x <= pos < f_off x + Z.of_nat (length src) -> cell view' i' pos = src !! Z.to_nat (pos - f_off x);
  cd_old : forall pos c, 0 <= pos -> ~ (f_off x <= pos < f_off x + Z.of_nat (length src)) -> cell view i pos = Some c -> cell view' i' pos = Some c;
  cd_other : forall b, home (k_log k) (Z.of_nat (length (k_disk k))) b -> marked (sb_bmapstart (k_sb k)) view b -> b ≠ sb_bmapstart (k_sb k) ->
    b ≠ u32 (IBLOCK (i_inum i) (k_sb k)) -> ~ owns view i b -> view' b = view b;
  cd_disk : let iblk := u32 (IBLOCK (i_inum i) (k_sb k)) in
    view' iblk = if decide (i_size i < f_off x + Z.of_nat (length src)) then put_dinode i' (dinode_off (i_inum i)) (view iblk) else view iblk;
  cd_own : forall b, owns view' i' b -> owns view i b \/ ~ marked (sb_bmapstart (k_sb k)) view b;
  cd_marks : forall b, marked (sb_bmapstart (k_sb k)) view b -> marked (sb_bmapstart (k_sb k)) view' b;
  cd_spare : (spare k view i <= spare k view' i' + 4)%nat;
}.

Section finish.
Context k (y : file) i view (src : list Z) (k3 k6 : kst) (i3 : inode) (v3 v6 : Z -> list Z) (bs3 : list Z) (ws : list (Z * list Z)).
Abbreviation n := (Z.of_nat (length src)).
Abbreviation y' := (y <| f_off := f_off y + n |>).
Abbreviation i6 := (i3 <| i_lock := sl_drop (i_lock i3) |>).
Abbreviation k5 := (sl_upd (SLinode ip) sl_drop (put_file f y' k3)).
Abbreviation nd := (Z.of_nat (length (k_disk k))).
Context (Hr : file_ready k y i view) (Hn : 0 < n <= filewrite_max) (Hend : f_off y + n <= MAXFILE * 512).
Context (Hd : wdone (locked k) ip k3 i3) (Hwn : written (locked k) (ilocked i) view (f_off y) src i3 v3).
Context (Hq : quiet pid k6 ∅ v6 []) (Hwr : wrote ws (committed (k_log k5)) k5 k6) (Hv : forall b, home (k_log k) nd b -> v6 b = v3 b).

(** The inode. *)
Lemma finish_inode : i6 = i <| i_lock := sl_drop (i_lock i) |> <| i_addrs := i_addrs i3 |> <| i_size := Z.max (i_size i) (f_off y + n) |>.
Proof using Hwn. rewrite (wn_inode _ _ _ _ _ _ _ Hwn). done. Qed.

(** The state. *)
Lemma finish_fields (u : kst) a l3 ino z l dk w :
  sl_upd (SLinode ip) sl_drop (put_file f z (sl_upd (SLinode ip) (sl_take pid) (u <| k_log := a |>) <| k_log := l3 |> <| k_inodes := ino |>))
    <| k_disk := dk |> <| k_written := w |> <| k_log := l |> =
  u <| k_log := l |> <| k_disk := dk |> <| k_written := w |> <| k_inodes := alter (fun i => i <| i_lock := sl_drop (i_lock i) |>) ip ino |>
    <| k_files := <[f := z]> (k_files u) |>.
Proof using. destruct u. reflexivity. Qed.

Lemma finish_state : exists l dk w, uncached k6 = uncached k <| k_log := l |> <| k_disk := dk |> <| k_written := w |>
    <| k_inodes := <[ip := i6]> (k_inodes k) |> <| k_files := <[f := y']> (k_files k) |> /\
    l_start l = l_start (k_log k) /\ l_size l = l_size (k_log k) /\ length dk = length (k_disk k) /\ l_outstanding l = 0 /\ l_committing l = 0.
Proof using All.
  pose proof (wr_inode _ _ _ _ (fr_map _ _ _ _ Hr)) as Hi. pose proof (lookup_lt_Some _ _ _ Hi) as Hlt. destruct Hd as (l3 & Hk3 & Hs3).
  destruct (same_head_proj _ _ Hs3) as (Ha & Hb & _). unfold wrote in Hwr. rewrite do_writes_eq in Hwr.
  apply (f_equal (fun k => sl_upd (SLinode ip) sl_drop (put_file f y' k))) in Hk3.
  change (uncached k5 = sl_upd (SLinode ip) sl_drop (put_file f y' (uncached (locked k) <| k_log := l3 |> <| k_inodes := <[ip := i3]> (k_inodes (locked k)) |>))) in Hk3.
  assert (Hl5 : k_log k5 = l3) by exact (f_equal k_log Hk3). rewrite Hl5, Hk3 in Hwr.
  assert (Halt : alter (fun i => i <| i_lock := sl_drop (i_lock i) |>) ip (<[ip := i3]> (alter (fun i => i <| i_lock := sl_take pid (i_lock i) |>) ip (k_inodes k))) =
    <[ip := i6]> (k_inodes k)).
  { rewrite (alter_is_insert _ _ ip i3) by (apply list_lookup_insert_eq; by rewrite length_alter). rewrite list_insert_insert_eq.
    rewrite (alter_is_insert _ _ ip i) by done. by rewrite list_insert_insert_eq. }
  eexists _, _, _. split; [|split; [|split; [|split]]].
  - rewrite Hwr. change (uncached (locked k)) with (sl_upd (SLinode ip) (sl_take pid) (uncached k <| k_log := k_log k <| l_outstanding := 1 |> |>)).
    rewrite finish_fields. change (k_inodes (locked k)) with (alter (fun i => i <| i_lock := sl_take pid (i_lock i) |>) ip (k_inodes k)).
    rewrite Halt. reflexivity.
  - exact Ha.
  - exact Hb.
  - apply length_apply_writes.
  - done.
Qed.

(** The file. *)
Abbreviation bm := (sb_bmapstart (k_sb k)).
Abbreviation nblk := (sb_size (k_sb k)).
Abbreviation iblk := (u32 (IBLOCK (i_inum i) (k_sb k))).

Lemma finish_agree c : data_block k iblk c \/ c = bm -> v6 c = v3 c.
Proof using All. intros [Hc| ->]; apply Hv; [apply Hc|apply (wr_map _ _ _ _ (fr_map _ _ _ _ Hr))]. Qed.

Lemma finish_map : fmap_ok (data_block k iblk) bm nblk v6 i6 /\ (forall pos, 0 <= pos -> cell v6 i6 pos = cell v3 i3 pos) /\
  (forall b, owns v6 i6 b <-> owns v3 i3 b) /\ (forall b, marked bm v6 b <-> marked bm v3 b).
Proof using All.
  pose proof (fr_map _ _ _ _ Hr) as Hw. pose proof (data_range k iblk (wr_disk _ _ _ _ Hw)) as H1. pose proof (data_bm k iblk) as H2.
  pose proof (size_ok k (wr_map _ _ _ _ Hw)) as H3. pose proof (wn_ok _ _ _ _ _ _ _ Hwn) as Hok.
  assert (Ea : i_addrs i6 = i_addrs i3) by reflexivity.
  split; [exact (foreign_ok _ bm nblk H1 H2 H3 v3 i3 v6 i6 Hok finish_agree Ea)|].
  split; [exact (foreign_cell _ bm nblk H1 H2 H3 v3 i3 v6 i6 Hok finish_agree Ea)|].
  split; [exact (foreign_owns _ bm nblk H1 H2 H3 v3 i3 v6 i6 Hok finish_agree Ea)|].
  exact (foreign_marked _ bm nblk H1 H2 H3 v3 i3 v6 i6 Hok finish_agree Ea).
Qed.

Lemma finish_ready : file_ready k6 y' i6 v6.
Proof using All.
  destruct finish_state as (l & dk & w & Hk6 & Ha & Hb & Hlen & Ho & Hc). destruct finish_map as (Hok & _ & _ & Hmk). pose proof finish_inode as Hi6.
  pose proof (fr_map _ _ _ _ Hr) as [W1 W2 W3 W4 W5 (W6 & W7 & W8) _]. destruct (fr_ip _ _ _ _ Hr) as (I1 & I2 & I3 & I4). destruct (fr_off _ _ _ _ Hr) as [O1 O2].
  assert (El : k_log k6 = l) by exact (f_equal k_log Hk6). assert (Ed : k_disk k6 = dk) by exact (f_equal k_disk Hk6).
  assert (Es : k_sb k6 = k_sb k) by exact (f_equal k_sb Hk6). assert (Ei : k_inodes k6 = <[ip := i6]> (k_inodes k)) by exact (f_equal k_inodes Hk6).
  assert (Ef : k_files k6 = <[f := y']> (k_files k)) by exact (f_equal k_files Hk6).
  assert (Einum : i_inum i6 = i_inum i) by (by rewrite Hi6). assert (Eh : forall b, home (k_log k6) (Z.of_nat (length (k_disk k6))) b <-> home (k_log k) nd b).
  { intros b. unfold home. by rewrite El, Ed, Ha, Hb, Hlen. }
  split; [exact Hq|by rewrite El|rewrite El, Hb; apply (fr_room _ _ _ _ Hr)| |exact (fr_type _ _ _ _ Hr)|split; [done|by rewrite Hi6]| |].
  - rewrite Ef. apply list_lookup_insert_eq. apply lookup_lt_Some in W1. by apply lookup_lt_Some with y, (fr_file _ _ _ _ Hr).
  - split; rewrite ?Einum, ?Es.
    + rewrite Ei. apply list_lookup_insert_eq. by apply lookup_lt_Some in W1.
    + by rewrite Hi6.
    + by rewrite Hi6.
    + by rewrite Ed, Hlen.
    + rewrite Eh. exact W5.
    + cbn zeta. rewrite Eh. split; [done|]. split; [done|]. apply Hmk. by apply (wn_marks _ _ _ _ _ _ _ Hwn).
    + destruct Hok as [M1 M2 M3 M4 M5 M6 M7].
      assert (Edb : forall b, data_block k6 iblk b <-> data_block k iblk b) by (intros b; unfold data_block; by rewrite Eh, Es).
      split; [exact M1|intros b Ho'; rewrite Edb; by apply M2|exact M3|exact M4|intros b Hb' Hf; rewrite Edb; by apply M5|intros b Hb'; apply M6; by apply Edb|exact M7].
  - rewrite Hi6. cbn [f_off i_size set_field]. lia.
Qed.

Lemma finish_done : chunk_done k y i view src k6 y' i6 v6.
Proof using All.
  destruct finish_state as (l & dk & w & Hk6 & Ha & Hb & Hlen & _). destruct finish_map as (_ & Hcell & Hown & Hmk).
  assert (Hoff : 0 <= f_off y) by apply (fr_off _ _ _ _ Hr). destruct (wr_iblk _ _ _ _ (fr_map _ _ _ _ Hr)) as (Hih & _).
  split; [by exists l, dk, w|done|exact finish_inode| | | | | | |].
  - intros pos Hp. rewrite Hcell by lia. by apply (wn_new _ _ _ _ _ _ _ Hwn).
  - intros pos c Hp Hno Hc. rewrite Hcell by lia. by apply (wn_old _ _ _ _ _ _ _ Hwn).
  - intros b Hh Hm Hbm Hib Ho. rewrite Hv by done. by apply (wn_other _ _ _ _ _ _ _ Hwn).
  - cbn zeta. rewrite Hv by done. exact (wn_disk _ _ _ _ _ _ _ Hwn).
  - intros b Ho%Hown. by apply (wn_own _ _ _ _ _ _ _ Hwn).
  - intros b Hm. apply Hmk. by apply (wn_marks _ _ _ _ _ _ _ Hwn).
  - pose proof (wn_spare _ _ _ _ _ _ _ Hwn) as Hsp. pose proof (turns_four (f_off y) n Hoff ltac:(lia)) as Ht. unfold spare, free_count in *.
    rewrite finish_agree by tauto. cbn in *. lia.
Qed.
End finish.

(** The end of the transaction: the inode is unlocked and the last [end_op] commits. *)
Lemma wp_chunk_end {A} p k x i view src k3 i3 v3 bs3 (rest : MK A) (Q : A -> world kst -> Prop) :
  let n := Z.of_nat (length src) in
  running m p me pid -> file_ready k x i view -> 0 < n <= filewrite_max -> f_off x + n <= MAXFILE * 512 ->
  wdone (locked k) ip k3 i3 -> written (locked k) (ilocked i) view (f_off x) src i3 v3 -> in_op pid k3 ∅ v3 bs3 0 0 ->
  (forall p' k' i' view', running m p' me pid -> file_ready k' (x <| f_off := f_off x + n |>) i' view' ->
     chunk_done k x i view src k' (x <| f_off := f_off x + n |>) i' view' -> wp rest Q (W (held m []) co p' k')) ->
  wp (when (0 <? n) (advance f n) ;;; iunlock (Some ip) ;;; end_op ;;; rest) Q (W (held m []) co p k3).
Proof.
  intros n Hrun Hr Hn Hend Hd Hwn Hop HQ. pose proof Hd as (l3 & Hk3 & Hs3). destruct (fr_ip _ _ _ _ Hr) as (I1 & I2 & I3 & I4).
  change (MAXFILE * 512) with 71680 in Hend. pose proof (proj1 (proj1 (fr_off _ _ _ _ Hr))) as Hoff.
  assert (Hf3 : k_files k3 !! f = Some x) by (rewrite (f_equal k_files Hk3 : k_files k3 = k_files k); apply (fr_file _ _ _ _ Hr)).
  rewrite (proj2 (Z.ltb_lt 0 n)) by lia. cbn [when]. kstep. unfold advance. eapply wp_set_file; [exact Hf3|].
  rewrite u32_id by (unfold is_u32; lia). set (x' := x <| f_off := f_off x + n |>). kstep.
  assert (Hi3 : k_inodes (put_file f x' k3) !! ip = Some i3).
  { change (k_inodes (put_file f x' k3)) with (k_inodes k3). rewrite (f_equal k_inodes Hk3 : k_inodes k3 = <[ip := i3]> (k_inodes (locked k))).
    apply list_lookup_insert_eq. apply (lookup_lt_Some _ _ _ (wr_inode _ _ _ _ (locked_writable _ _ _ _ Hr))). }
  pose proof (wn_inode _ _ _ _ _ _ _ Hwn) as Hii. eapply wp_iunlock; [done|done|exact Hi3|by rewrite Hii|by rewrite Hii|by rewrite Hii|]. kstep.
  set (k5 := sl_upd (SLinode ip) sl_drop (put_file f x' k3)). destruct (same_head_proj _ _ Hs3) as (A1 & A2 & A3 & A4).
  assert (Hl5 : k_log k5 = l3) by exact (f_equal k_log Hk3).
  assert (Hq5 : quiet pid k5 (list_to_set bs3) v3 bs3) by (split; [apply (blk_frame k3); [done..|apply Hop]|split; [apply Hop|done]]).
  eapply (wp_end_op m co me pid _ k5 v3 bs3); [by apply running_woken|exact Hq5|rewrite Hl5, A4; apply (fr_idle _ _ _ _ Hr)|by rewrite Hl5, A3|].
  set (ws := match bs3 with [] => [] | _ => _ end). intros p6 k6 Hrun6 Hq6 Hwr6.
  assert (Hv : forall b, home (k_log k) (Z.of_nat (length (k_disk k))) b -> upd_view ws v3 b = v3 b).
  { intros b Hb. unfold ws. destruct bs3 as [|b0 bs]; [done|]. eapply commit_view; [apply Hq5|]. unfold home in *. rewrite Hl5, A1, A2.
    change (k_disk k5) with (k_disk k3). by rewrite (f_equal k_disk Hk3 : k_disk k3 = k_disk k). }
  eapply (HQ p6 k6 (i3 <| i_lock := sl_drop (i_lock i3) |>)); [done|by eapply finish_ready|by eapply finish_done].
Qed.

(** One transaction of the loop of [filewrite]. *)
Lemma wp_chunk {A} p k x i view src (K : Z -> MK A) (Q : A -> world kst -> Prop) :
  let n := Z.of_nat (length src) in
  running m p me pid -> file_ready k x i view -> 0 < n <= filewrite_max -> f_off x + n <= MAXFILE * 512 -> (5 <= spare k view i)%nat ->
  (forall p' k' i' view', running m p' me pid -> file_ready k' (x <| f_off := f_off x + n |>) i' view' ->
     chunk_done k x i view src k' (x <| f_off := f_off x + n |>) i' view' -> wp (K n) Q (W (held m []) co p' k')) ->
  wp (begin_op ;;; let! x := file_at f in ilock (f_ip x) ;;; let! ip := deref (f_ip x) in let! x' := file_at f in
      let! r := writei ip src (f_off x') in when (0 <? r) (advance f r) ;;; iunlock (f_ip x) ;;; end_op ;;; K r) Q (W (held m []) co p k).
Proof.
  intros n Hrun Hr Hn Hend Hsp HQ. destruct (fr_ip _ _ _ _ Hr) as (I1 & I2 & I3 & I4). destruct (fr_type _ _ _ _ Hr) as [_ Hip].
  pose proof (fr_file _ _ _ _ Hr) as Hf. destruct (fr_off _ _ _ _ Hr) as [Ho Hsz]. pose proof (turns_four (f_off x) n ltac:(lia) ltac:(lia)) as Ht.
  pose proof (wr_inode _ _ _ _ (fr_map _ _ _ _ Hr)) as Hi.
  kstep. eapply wp_begin; [done|exact Hr|]. unfold file_at. ksteps. rewrite Hip.
  eapply wp_ilock_valid; [done|done|exact Hi|done|done|done|]. fold (locked k). ksteps.
  eapply (wp_writei m co me pid (locked k) ip (ilocked i) view [] src (f_off x)); [by eapply locked_writable|done|done|done|fold n; exact (Nat.le_trans _ _ _ (proj1 (Nat.add_le_mono_r _ _ 1) Ht) Hsp)|done| |].
  - fold n. eapply locked_op; [exact Hr|lia|unfold NBUF; lia].
  - intros p3 k3 i3 v3 bs3 Hrun3 Hop3 Hd3 Hw3. fold n. by eapply wp_chunk_end.
Qed.
End chunk.

(** ** The loop *)

Section loop.
Context `{BC : BlockCache} `{Dev : Devices} (m : machine) (co : console) (me : nat) (pid : Z) (f ip : nat).
Context (k0 : kst) (y0 : file) (i0 : inode) (view0 : Z -> list Z) (src0 : list Z).
Abbreviation off := (f_off y0).
Abbreviation len := (Z.of_nat (length src0)).
Abbreviation bm := (sb_bmapstart (k_sb k0)).
Abbreviation iblk := (u32 (IBLOCK (i_inum i0) (k_sb k0))).
Abbreviation ready := (file_ready pid f ip).
Context (Hready : ready k0 y0 i0 view0) (Hend : off + len <= MAXFILE * 512).

(** The bytes written after [c] transactions. *)
Definition done_bytes (c : nat) : Z := Z.min len (Z.of_nat c * filewrite_max).

(** What has become of the file when the first [d] bytes are written, in [c] transactions. *)
Record fwritten (c : nat) (d : Z) (k : kst) (y : file) (i : inode) (view : Z -> list Z) : Prop := {
  fw_state : exists l dk ws, uncached k = uncached k0 <| k_log := l |> <| k_disk := dk |> <| k_written := ws |>
    <| k_inodes := <[ip := i]> (k_inodes k0) |> <| k_files := <[f := y]> (k_files k0) |> /\
    l_start l = l_start (k_log k0) /\ l_size l = l_size (k_log k0) /\ length dk = length (k_disk k0);
  fw_file : y = y0 <| f_off := off + d |>;
  fw_inode : i = i0 <| i_lock := i_lock i |> <| i_addrs := i_addrs i |> <| i_size := Z.max (i_size i0) (off + d) |>;
  fw_cell : forall pos b, 0 <= pos -> known i0 view0 off src0 (off + d) pos = Some b -> cell view i pos = Some b;
  fw_other : forall b, home (k_log k0) (Z.of_nat (length (k_disk k0))) b -> marked bm view0 b -> b ≠ bm -> b ≠ iblk -> ~ owns view0 i0 b -> view b = view0 b;
  fw_disk : view iblk = if decide (i_size i0 < off + d) then put_dinode i (dinode_off (i_inum i0)) (view0 iblk) else view0 iblk;
  fw_own : forall b, owns view i b -> owns view0 i0 b \/ ~ marked bm view0 b;
  fw_marks : forall b, marked bm view0 b -> marked bm view b;
  fw_spare : (spare k0 view0 i0 <= spare k0 view i + 4 * c)%nat;
}.

Lemma fwritten_start : fwritten 0 0 k0 y0 i0 view0.
Proof using All.
  pose proof (wr_inode _ _ _ _ (fr_map _ _ _ _ _ _ _ Hready)) as Hi. pose proof (fr_file _ _ _ _ _ _ _ Hready) as Hf. destruct (fr_off _ _ _ _ _ _ _ Hready) as [Ho _].
  split; rewrite ?Z.add_0_r.
  - exists (k_log k0), (k_disk k0), (k_written k0). rewrite !list_insert_id by done. by destruct k0.
  - by destruct y0.
  - rewrite Z.max_l by lia. by destruct i0.
  - intros pos b Hp. unfold known. by rewrite decide_False by lia.
  - done.
  - by rewrite decide_False by lia.
  - by left.
  - done.
  - lia.
Qed.

(** Two changes of the same fields. *)
Lemma fields_twice (u : kst) l dk ws ino fs l' dk' ws' ino' fs' :
  u <| k_log := l |> <| k_disk := dk |> <| k_written := ws |> <| k_inodes := ino |> <| k_files := fs |>
    <| k_log := l' |> <| k_disk := dk' |> <| k_written := ws' |> <| k_inodes := ino' |> <| k_files := fs' |> =
  u <| k_log := l' |> <| k_disk := dk' |> <| k_written := ws' |> <| k_inodes := ino' |> <| k_files := fs' |>.
Proof using. destruct u. reflexivity. Qed.

(** The next transaction, of [n] bytes. *)
Section next.
Context (c : nat) (d : Z) (n : nat) (k k' : kst) (y y' : file) (i i' : inode) (view view' : Z -> list Z).
Context (Hd : 0 <= d) (Hn : (0 < n)%nat) (Hdn : d + Z.of_nat n <= len).
Context (Hf : fwritten c d k y i view) (Hr : ready k y i view) (Hc : chunk_done f ip k y i view (rd (Z.to_nat d) n src0) k' y' i' view').
Context (Hlen' : length (i_addrs i') = 13%nat).

Lemma next_length : length (rd (Z.to_nat d) n src0) = n.
Proof using All. apply length_rd. lia. Qed.

Lemma next_file : f_off y = off + d /\ y' = y0 <| f_off := off + (d + Z.of_nat n) |>.
Proof using All.
  pose proof (fw_file _ _ _ _ _ _ Hf) as Hy. pose proof (cd_file _ _ _ _ _ _ _ _ _ _ _ Hc) as Hy'. rewrite next_length in Hy'.
  split; [by rewrite Hy|]. rewrite Hy', Hy, Z.add_assoc. reflexivity.
Qed.

Lemma next_inode : i_inum i = i_inum i0 /\ i_size i = Z.max (i_size i0) (off + d) /\
  i' = i0 <| i_lock := i_lock i' |> <| i_addrs := i_addrs i' |> <| i_size := Z.max (i_size i0) (off + (d + Z.of_nat n)) |>.
Proof using All.
  pose proof (fw_inode _ _ _ _ _ _ Hf) as Hi. pose proof (cd_inode _ _ _ _ _ _ _ _ _ _ _ Hc) as Hi'. rewrite next_length, (proj1 next_file) in Hi'.
  assert (Hs : i_size i = Z.max (i_size i0) (off + d)) by (by rewrite Hi). split; [by rewrite Hi|]. split; [done|].
  replace (Z.max (i_size i) (off + d + Z.of_nat n)) with (Z.max (i_size i0) (off + (d + Z.of_nat n))) in Hi' by lia. rewrite Hi', Hi. reflexivity.
Qed.

Lemma next_env : k_sb k = k_sb k0 /\ (forall b, home (k_log k) (Z.of_nat (length (k_disk k))) b <-> home (k_log k0) (Z.of_nat (length (k_disk k0))) b).
Proof using All.
  destruct (fw_state _ _ _ _ _ _ Hf) as (l & dk & ws & Hk & Ha & Hb & Hl). split; [exact (f_equal k_sb Hk)|]. intros b. unfold home.
  by rewrite (f_equal k_log Hk : k_log k = l), (f_equal k_disk Hk : k_disk k = dk), Ha, Hb, Hl.
Qed.

Lemma next_state : exists l dk ws, uncached k' = uncached k0 <| k_log := l |> <| k_disk := dk |> <| k_written := ws |>
    <| k_inodes := <[ip := i']> (k_inodes k0) |> <| k_files := <[f := y']> (k_files k0) |> /\
    l_start l = l_start (k_log k0) /\ l_size l = l_size (k_log k0) /\ length dk = length (k_disk k0).
Proof using All.
  destruct (fw_state _ _ _ _ _ _ Hf) as (l & dk & ws & Hk & Ha & Hb & Hl). destruct (cd_state _ _ _ _ _ _ _ _ _ _ _ Hc) as (l' & dk' & ws' & Hk' & Ha' & Hb' & Hl').
  rewrite (f_equal k_inodes Hk : k_inodes k = <[ip := i]> (k_inodes k0)), (f_equal k_files Hk : k_files k = <[f := y]> (k_files k0)) in Hk'.
  rewrite Hk, fields_twice, (list_insert_insert_eq (k_inodes k0)), (list_insert_insert_eq (k_files k0)) in Hk'. exists l', dk', ws'. split; [exact Hk'|].
  rewrite Ha', Hb', Hl', (f_equal k_log Hk : k_log k = l), (f_equal k_disk Hk : k_disk k = dk). done.
Qed.

Lemma next_cell pos b : 0 <= pos -> known i0 view0 off src0 (off + (d + Z.of_nat n)) pos = Some b -> cell view' i' pos = Some b.
Proof using All.
  intros Hp Hk. destruct next_file as [Ho _]. assert (Hold : ~ (off + d <= pos < off + d + Z.of_nat n) -> cell view' i' pos = Some b).
  { intros Hno. apply (cd_old _ _ _ _ _ _ _ _ _ _ _ Hc); [done|rewrite next_length, Ho; lia|]. apply (fw_cell _ _ _ _ _ _ Hf); [done|].
    unfold known in *. destruct (decide (off <= pos < off + d)); [by rewrite decide_True in Hk by lia|]. by rewrite decide_False in Hk by lia. }
  destruct (decide (off + d <= pos < off + d + Z.of_nat n)) as [Hin|Hno]; [|by apply Hold]. clear Hold.
  destruct (fr_off _ _ _ _ _ _ _ Hready) as [H1 _].
  rewrite (cd_new _ _ _ _ _ _ _ _ _ _ _ Hc) by (rewrite next_length, Ho; lia). unfold known in Hk. rewrite decide_True in Hk by lia.
  rewrite Ho. unfold rd. rewrite lookup_take_lt, lookup_drop by lia. rewrite <- Hk. f_equal. lia.
Qed.

(** The inode on the disk. *)
Lemma next_disk : view' iblk =
  if decide (i_size i0 < off + (d + Z.of_nat n)) then put_dinode i' (dinode_off (i_inum i0)) (view0 iblk) else view0 iblk.
Proof using All.
  destruct next_file as [Ho _]. destruct next_inode as (Hnum & Hsz & Hi'). destruct next_env as [Hsb _].
  pose proof (cd_disk _ _ _ _ _ _ _ _ _ _ _ Hc) as Hdk. cbn zeta in Hdk. rewrite next_length, Ho, Hsb, Hnum, Hsz in Hdk. pose proof (fw_disk _ _ _ _ _ _ Hf) as Hdk0.
  destruct (decide (i_size i0 < off + (d + Z.of_nat n))).
  2:{ rewrite decide_False in Hdk by lia. rewrite decide_False in Hdk0 by lia. congruence. }
  rewrite decide_True in Hdk by lia. rewrite Hdk, Hdk0. destruct (decide (i_size i0 < off + d)); [|done].
  pose proof (fm_len _ _ _ _ _ (wr_ok _ _ _ _ (fr_map _ _ _ _ _ _ _ Hr))) as L1.
  apply put_dinode_twice; [congruence|]. rewrite Hlen'. pose proof (dinode_off_bound (i_inum i0)) as Hb. destruct (wr_iblk _ _ _ _ (fr_map _ _ _ _ _ _ _ Hready)) as ([Hib _] & _).
  rewrite (blk_size _ _ _ _ _ iblk (proj1 (fr_log _ _ _ _ _ _ _ Hready)) Hib). unfold sizeof_dinode in Hb. lia.
Qed.

Lemma fwritten_next : fwritten (Datatypes.S c) (d + Z.of_nat n) k' y' i' view'.
Proof using All.
  destruct next_env as [Hsb Hh]. destruct next_inode as (Hnum & _ & Hi'). pose proof (cd_own _ _ _ _ _ _ _ _ _ _ _ Hc) as Hown. pose proof (cd_marks _ _ _ _ _ _ _ _ _ _ _ Hc) as Hmk.
  pose proof (cd_other _ _ _ _ _ _ _ _ _ _ _ Hc) as Hoth. rewrite Hsb in Hown, Hmk. rewrite Hsb, Hnum in Hoth.
  split; [exact next_state|apply next_file|exact Hi'|exact next_cell| |exact next_disk| | |].
  - intros b Hb Hm Hbm Hib Ho. rewrite Hoth; [by apply (fw_other _ _ _ _ _ _ Hf)|by apply Hh|by apply (fw_marks _ _ _ _ _ _ Hf)|done|done|].
    intros [?|?]%(fw_own _ _ _ _ _ _ Hf); done.
  - intros b [Ho|Hm]%Hown; [by apply (fw_own _ _ _ _ _ _ Hf)|]. right. intros Hb. by apply Hm, (fw_marks _ _ _ _ _ _ Hf).
  - intros b Hb. by apply Hmk, (fw_marks _ _ _ _ _ _ Hf).
  - pose proof (cd_spare _ _ _ _ _ _ _ _ _ _ _ Hc) as H1. pose proof (fw_spare _ _ _ _ _ _ Hf) as H2. unfold spare in *. rewrite Hsb in H1. lia.
Qed.
End next.

Context (Hsp : (4 * (length src0 / 1536 + 1) + 1 <= spare k0 view0 i0)%nat).

(** The loop from the state after [c] transactions; the number of turns is known from the length. *)
Lemma wp_filewrite_turns fuel : forall c p k y i view (Q : Z -> world kst -> Prop),
  running m p me pid -> fwritten c (done_bytes c) k y i view -> ready k y i view ->
  (c <= length src0 / 1536 + 1)%nat -> (length src0 / 1536 + 2 <= c + fuel)%nat ->
  (forall c' p' k' y' i' view', running m p' me pid -> fwritten c' len k' y' i' view' -> ready k' y' i' view' -> Q len (W (held m []) co p' k')) ->
  wp (loop fuel (fun i =>
    if negb (i <? len) then ret (inr i)
    else
      let n1 := Z.min (len - i) filewrite_max in
      begin_op ;;;
      let! x := file_at f in
      ilock (f_ip x) ;;;
      let! ip := deref (f_ip x) in
      let! x' := file_at f in
      let! r := writei ip (rd (Z.to_nat i) (Z.to_nat n1) src0) (f_off x') in
      when (0 <? r) (advance f r) ;;;
      iunlock (f_ip x) ;;;
      end_op ;;;
      if r <? 0 then ret (inr i)
      else if negb (r =? n1) then panic "short filewrite"
      else ret (inl (i + r))) (done_bytes c)) Q (W (held m []) co p k).
Proof using All.
  induction fuel as [|fuel IH]; intros c p k y i view Q Hrun Hf Hr Hc Hfuel HQ; [lia|]. cbn [loop]. kstep.
  pose proof (Nat.Div0.div_mod (length src0) 1536) as Hq. pose proof (Nat.mod_upper_bound (length src0) 1536 ltac:(lia)) as Hq'.
  assert (Hd : 0 <= done_bytes c) by (unfold done_bytes; change filewrite_max with 1536; lia).
  destruct (Z.ltb_spec (done_bytes c) len) as [Hlt|Hge]; cbn [negb].
  2:{ assert (done_bytes c = len) as He by (unfold done_bytes in *; lia). ksteps. rewrite He in Hf |- *. by eapply HQ. }
  assert (Hdc : done_bytes c = Z.of_nat c * 1536) by (unfold done_bytes in *; change filewrite_max with 1536 in *; lia).
  set (n := Z.to_nat (Z.min (len - done_bytes c) filewrite_max)). cbv zeta. change (Z.to_nat (Z.min (len - done_bytes c) filewrite_max)) with n.
  assert (Hn : Z.min (len - done_bytes c) filewrite_max = Z.of_nat n) by (unfold n; change filewrite_max with 1536; lia). rewrite Hn.
  assert (Hnpos : (0 < n)%nat) by (change filewrite_max with 1536 in Hn; lia).
  assert (Hl : length (rd (Z.to_nat (done_bytes c)) n src0) = n) by (apply length_rd; lia).
  destruct (fw_state _ _ _ _ _ _ Hf) as (l & dk & ws & Hk & _). pose proof (fw_spare _ _ _ _ _ _ Hf) as Hspare.
  assert (Hoff : f_off y = off + done_bytes c) by (by rewrite (fw_file _ _ _ _ _ _ Hf)).
  eapply (wp_chunk m co me pid f ip p k y i view (rd (Z.to_nat (done_bytes c)) n src0)
    (fun r => if r <? 0 then ret (inr (done_bytes c)) else if negb (r =? Z.of_nat n) then panic "short filewrite" else ret (inl (done_bytes c + r))));
    [done|done|rewrite Hl; lia|rewrite Hl, Hoff; lia| |].
  { unfold spare in *. rewrite (f_equal k_sb Hk : k_sb k = k_sb k0). lia. }
  rewrite Hl. intros p' k' i' view' Hrun' Hr' Hcd. rewrite (proj2 (Z.ltb_ge _ _)) by lia. rewrite Z.eqb_refl. cbn [negb]. ksteps.
  assert (Hnext : done_bytes c + Z.of_nat n = done_bytes (Datatypes.S c)) by (unfold done_bytes in *; change filewrite_max with 1536 in *; lia).
  rewrite Hnext. eapply (IH (Datatypes.S c) p' k'); [done| |exact Hr'|lia|lia|exact HQ]. rewrite <- Hnext.
  eapply fwritten_next; [exact Hd|done|lia|exact Hf|exact Hr|exact Hcd|exact (fm_len _ _ _ _ _ (wr_ok _ _ _ _ (fr_map _ _ _ _ _ _ _ Hr')))].
Qed.

Lemma wp_filewrite p (Q : Z -> world kst -> Prop) :
  running m p me pid -> f_writable y0 ≠ 0 ->
  (forall c p' k' y' i' view', running m p' me pid -> fwritten c len k' y' i' view' -> ready k' y' i' view' -> Q len (W (held m []) co p' k')) ->
  wp (filewrite f src0) Q (W (held m []) co p k0).
Proof using All.
  intros Hrun Hwr HQ. pose proof (fr_file _ _ _ _ _ _ _ Hready) as Hf. destruct (fr_type _ _ _ _ _ _ _ Hready) as [Hty _].
  unfold filewrite, file_at. ksteps. rewrite (proj2 (Z.eqb_neq _ _) Hwr), Hty. kstep. unfold filewrite_loop. cbv zeta.
  replace (Z.to_nat (len / filewrite_max) + 2)%nat with (length src0 / 1536 + 2)%nat.
  2:{ change filewrite_max with (Z.of_nat 1536). by rewrite <- Nat2Z.inj_div, Nat2Z.id. }
  assert (H0b : done_bytes 0 = 0) by (unfold done_bytes; lia).
  pose proof (wp_filewrite_turns (length src0 / 1536 + 2) 0 p k0 y0 i0 view0) as Hloop. rewrite H0b in Hloop.
  apply Hloop; [done|apply fwritten_start|exact Hready|lia|lia|].
  intros c p' k' y' i' view' Hrun' Hf' Hr'. ksteps. rewrite Z.eqb_refl. by eapply HQ.
Qed.
End loop.

(** ** Properties *)

(** C9.  [filewrite] of [src], of any length that fits in a file, to an open file on the disk, when no operation is in the log and there are free
    blocks enough, returns the length of [src].  Then, on the disk and not only in the buffer cache, the file has the bytes [src] at the offset it
    was open at, so [readi] reads them back, and every byte it had elsewhere; its size and its inode on the disk are right; no block
    in use by another file has changed; the offset is behind what was written, and the file is ready for the next call. *)
Theorem filewrite_spec `{BC : BlockCache} `{Dev : Devices} m co p me pid k f ip x i view src :
  let n := Z.of_nat (length src) in let nd := Z.of_nat (length (k_disk k)) in let x' := x <| f_off := f_off x + n |> in
  running m p me pid -> file_ready pid f ip k x i view -> f_writable x ≠ 0 -> f_off x + n <= MAXFILE * 512 ->
  (4 * (length src / 1536 + 1) + 1 <= free_count (sb_bmapstart (k_sb k)) (sb_size (k_sb k)) view)%nat ->
  exists c p' k' i' view', filewrite f src (W (held m []) co p k) = Ret n (W (held m []) co p' k') /\
    running m p' me pid /\ file_ready pid f ip k' x' i' view' /\ fwritten f ip k x i view src c n k' x' i' view' /\
    (forall b, 0 <= b < nd -> k_disk k' !! Z.to_nat b = Some (view' b)) /\ readi_result view' i' (f_off x) n = (n, src).
Proof.
  intros n nd x' Hrun Hr Hwr Hend Hfree.
  assert (Hwp : wp (filewrite f src) (fun r w => exists c p' k' y' i' view', w = W (held m []) co p' k' /\ r = n /\ running m p' me pid /\
    fwritten f ip k x i view src c n k' y' i' view' /\ file_ready pid f ip k' y' i' view') (W (held m []) co p k)).
  { eapply (wp_filewrite m co me pid f ip k x i view src Hr Hend); [unfold spare; lia|done|done|].
    intros c p' k' y' i' view' ? ? ?. by exists c, p', k', y', i', view'. }
  apply wp_elim in Hwp as (r & w & Hrr & c & p' & k' & y' & i' & view' & -> & -> & Hrun' & Hf & Hr').
  pose proof (fw_file _ _ _ _ _ _ _ _ _ _ _ _ _ Hf) as Hy. rewrite Hy in Hf, Hr'. exists c, p', k', i', view'. do 4 (split; [done|]).
  destruct (fw_state _ _ _ _ _ _ _ _ _ _ _ _ _ Hf) as (l & dk & ws & Hk & _ & _ & Hlen). split.
  - intros b Hb. apply (blk_clean _ _ _ _ _ _ (proj1 (fr_log _ _ _ _ _ _ _ Hr'))); [|apply not_elem_of_empty|by intros j; rewrite lookup_empty].
    by rewrite (f_equal k_disk Hk : k_disk k' = dk), Hlen.
  - destruct (fr_off _ _ _ _ _ _ _ Hr) as [Ho _]. apply (bytes_read i' view' src); [lia| |].
    + rewrite (fw_inode _ _ _ _ _ _ _ _ _ _ _ _ _ Hf). cbn [i_size set_field]. lia.
    + intros j b Hj. apply (fw_cell _ _ _ _ _ _ _ _ _ _ _ _ _ Hf); [lia|]. apply lookup_lt_Some in Hj as Hjl. unfold known. rewrite decide_True by lia.
      rewrite <- Hj. f_equal. lia.
Qed.

(** ** Example *)

(** The file of [ex_write], open for writing at offset 90, with nothing in the log. *)
Definition ex_wfile : file := mkFile FD_INODE 1 1 1 0 (Some 0%nat) 90.
Definition ex_filewrite (d : list Z) : kst :=
  ex_write d T_FILE 100 <| k_log := ex_write_log <| l_outstanding := 0 |> |> <| k_files := [ex_wfile] |>.

Lemma writable_reopen k l fs ip i view :
  l_start l = l_start (k_log k) -> l_size l = l_size (k_log k) -> writable k ip i view -> writable (k <| k_log := l |> <| k_files := fs |>) ip i view.
Proof. intros H1 H2. by apply writable_proj. Qed.

Lemma ex_filewrite_ready d : length d = BSIZE ->
  @file_ready 0%nat (@memide 0%nat) (@bio_block_cache 0%nat) 4 0 0 (ex_filewrite d) ex_wfile (ex_write_inode T_FILE 100) (ex_write_view d).
Proof.
  intros Hl.
  split.
  - split; [|split; [|done]].
    { apply (@blk_frame _ _ (@bio_block_cache 0%nat) (ex_cold (ex_write_disk d))); [done..|]. split.
      - rewrite dom_empty_L. by apply ex_cold_cache, ex_write_size.
      - intros i n Hi. by rewrite lookup_empty in Hi. }
    split; cbn; [reflexivity|lia|reflexivity|reflexivity|reflexivity|constructor|constructor|lia|vm_compute; discriminate].
  - done.
  - vm_compute. reflexivity.
  - done.
  - done.
  - unfold NINODE. cbn. split; [lia|]. split; [lia|]. split; [done|]. discriminate.
  - unfold ex_filewrite. apply writable_reopen; [reflexivity|reflexivity|]. apply ex_write_ok; [done|discriminate].
  - cbn. split; [lia|]. vm_compute. discriminate.
Qed.

(** 2000 bytes go in two transactions to the rest of block 24 and to four new blocks. *)
Lemma filewrite_spec_witness :
  exists p' k' i' view', @filewrite 0%nat (@memide 0%nat) ex_devices 0 (replicate 2000 66) (W (held ex_machine []) ex_console (ex_procs 0) (ex_filewrite (replicate BSIZE 65))) =
      Ret 2000 (W (held ex_machine []) ex_console p' k') /\
    (forall b, 0 <= b < 40 -> k_disk k' !! Z.to_nat b = Some (view' b)) /\ readi_result view' i' 90 2000 = (2000, replicate 2000 66).
Proof.
  destruct (@filewrite_spec 0%nat (@memide 0%nat) (@bio_block_cache 0%nat) ex_devices ex_machine ex_console (ex_procs 0) 1 4 (ex_filewrite (replicate BSIZE 65)) 0 0
    ex_wfile (ex_write_inode T_FILE 100) (ex_write_view (replicate BSIZE 65)) (replicate 2000 66)) as (c & p' & k' & i' & view' & Hr & _ & _ & _ & Hd & Hb).
  - apply ex_running.
  - apply ex_filewrite_ready. reflexivity.
  - discriminate.
  - vm_compute. discriminate.
  - apply Nat.leb_le. vm_compute. reflexivity.
  - exists p', k', i', view'. split; [exact Hr|]. split; [exact Hd|exact Hb].
Defined.
