(* ===== verification/ConsoleIn.v ===== *)
(** * Console input (the input half of console.c, uart.c)

    [consoleintr] edits the line being typed and hands finished lines to [consoleread]; the characters come from
    [Kbd] or the serial port.  The input buffer is one ring with three counters; it is proved to be
    two lists, the bytes a reader may take and the line still being edited, on which the
    interrupt handler acts as a plain line editor.  The console is the [Devices] instance of the file
    system. *)

From S2P Require Import Prelude Ring Kstate Spinlock Cprintf Proc Admission Kdata Sleeplock Hw Bio Bcache Block Log CString Fs Pipe File.
From stdpp Require Import gmap strings list fin_maps.
From Stdlib Require Import Ascii.
Open Scope Z_scope.

(** Control-x. *)
Definition Ctl (a : ascii) : Z := chr a - chr "@".
Definition newline : Z := 10.
Definition carriage : Z := 13.
Definition DEL : Z := 127.

(** ** console.c *)

Section console_c.
Context `{Fu : Fuel} `{Drv : DiskDriver}.

Definition get_input : MK cinput := let! k := get_s in ret (k_input k).
Definition upd_input (f : cinput -> cinput) : MK unit := upd_s (fun k => k <| k_input := f (k_input k) |>).

(** [input.buf[i % INPUT_BUF]] *)
Definition input_at (x : cinput) (i : Z) : MK Z := deref (in_buf x !! Z.to_nat (i mod Z.of_nat INPUT_BUF)).

(** [input.e--; consputc(BACKSPACE);] *)
Definition erase : MK unit :=
  upd_input (fun x => x <| in_e := u32 (in_e x - 1) |>) ;;;
  consputc BACKSPACE.

(** The loop of the case [C('U')]; the line has at most [INPUT_BUF] characters. *)
Definition kill_line : MK unit :=
  loop (Datatypes.S INPUT_BUF) (fun _ =>
    let! x := get_input in
    if in_e x =? in_w x then ret (inr tt)
    else
      let! c := input_at x (u32 (in_e x - 1)) in
      if c =? newline then ret (inr tt)
      else erase ;;; ret (inl tt)) tt.

(** [input.buf[input.e++ % INPUT_BUF] = c] *)
Definition input_push (c : Z) (x : cinput) : cinput :=
  x <| in_buf := <[Z.to_nat (in_e x mod Z.of_nat INPUT_BUF) := u8 c]> (in_buf x) |>
    <| in_e := u32 (in_e x + 1) |>.

(** [input.w = input.e; wakeup(&input.r);] *)
Definition hand_over : MK unit :=
  upd_input (fun x => x <| in_w := in_e x |>) ;;;
  wakeup Cinput.

(** The [default] case. *)
Definition console_type (c : Z) : MK unit :=
  let! x := get_input in
  when (negb (c =? 0) && (u32 (in_e x - in_r x) <? Z.of_nat INPUT_BUF))
    (let c := if c =? carriage then newline else c in
     upd_input (input_push c) ;;;
     consputc c ;;;
     let! x := get_input in
     when ((c =? newline) || (c =? Ctl "D") || (in_e x =? u32 (in_r x + Z.of_nat INPUT_BUF))) hand_over).

(** One turn of the [while] of [consoleintr] on the character [c]; the new [doprocdump]. *)
Definition console_char (c : Z) (dump : bool) : MK bool :=
  if c =? Ctl "P" then ret true
  else if c =? Ctl "U" then kill_line ;;; ret dump
  else if (c =? Ctl "H") || (c =? DEL) then
    let! x := get_input in
    when (negb (in_e x =? in_w x)) erase ;;;
    ret dump
  else console_type c ;;; ret dump.

Fixpoint console_chars (cs : list Z) (dump : bool) : MK bool :=
  match cs with
  | [] => ret dump
  | c :: cs => let! dump := console_char c dump in console_chars cs dump
  end.

(** [cs]: the characters [getc] returns before it returns -1; [mem]: the words of memory that
    [procdump] looks through for return addresses. *)
Definition consoleintr (mem : Z -> Z) (cs : list Z) : MK unit :=
  acquire Lcons ;;;
  let! dump := console_chars cs false in
  release Lcons ;;;
  when dump (procdump mem).

(** The inner loop of [consoleread]; false when the process was killed, the lock being free then. *)
Definition wait_input : MK bool :=
  loop (Datatypes.S fuel) (fun _ =>
    let! x := get_input in
    if in_r x =? in_w x then
      let! me := myproc in
      let! i := deref me in
      let! p := proc_at i in
      if negb (p_killed p =? 0) then
        release Lcons ;;;
        ret (inr false)
      else
        sleep Cinput Lcons ;;;
        ret (inl tt)
    else ret (inr true)) tt.

(** The outer loop, [n] characters still wanted of [target]: false when killed, and the bytes stored. *)
Fixpoint read_chars (target n : nat) : MK (bool * list Z) :=
  match n with
  | O => ret (true, [])
  | Datatypes.S n' =>
      let! ok := wait_input in
      if negb ok then ret (false, [])
      else
        let! x := get_input in
        let! c := input_at x (in_r x) in
        upd_input (fun x => x <| in_r := u32 (in_r x + 1) |>) ;;;
        if c =? Ctl "D" then
          when (bool_decide (n < target)%nat) (upd_input (fun x => x <| in_r := u32 (in_r x - 1) |>)) ;;;
          ret (true, [])
        else if c =? newline then ret (true, [c])
        else
          let! '(ok, dst) := read_chars target n' in
          ret (ok, c :: dst)
  end.

(** The result and the bytes stored at [dst]. *)
Definition consoleread (ip : nat) (n : Z) : MK (Z * list Z) :=
  iunlock (Some ip) ;;;
  acquire Lcons ;;;
  let! '(ok, dst) := read_chars (Z.to_nat n) (Z.to_nat n) in
  if ok then
    release Lcons ;;;
    ilock (Some ip) ;;;
    ret (Z.of_nat (length dst), dst)
  else
    ilock (Some ip) ;;;
    ret (-1, dst).

Definition consolewrite (ip : nat) (buf : list Z) : MK Z :=
  iunlock (Some ip) ;;;
  acquire Lcons ;;;
  for_list buf (fun c => consputc (Z.land c 0xff)) ;;;
  release Lcons ;;;
  ilock (Some ip) ;;;
  ret (Z.of_nat (length buf)).

Definition consoleinit `{Hd : Hardware} : MK unit :=
  initlock Lcons "console" ;;;
  upd_s (fun k => k <| k_devsw := <[Z.to_nat CONSOLE := Some ConsoleDev]> (k_devsw k) |>) ;;;
  let! co := get_c in
  put_c (co <| cons_locking := true |>) ;;;
  ioapicenable IRQ_KBD 0.

#[export] Instance console_devices : Devices := {|
  dev_read := fun d => match d with ConsoleDev => consoleread end;
  dev_write := fun d => match d with ConsoleDev => consolewrite end;
|}.

(** ** uart.c *)

Definition COM1 : Z := 0x3f8.

Definition uartinit `{Hd : Hardware} : MK unit :=
  outb (COM1 + 2) 0 ;;;
  outb (COM1 + 3) 0x80 ;;;
  outb (COM1 + 0) (115200 / 9600) ;;;
  outb (COM1 + 1) 0 ;;;
  outb (COM1 + 3) 0x03 ;;;
  outb (COM1 + 4) 0 ;;;
  outb (COM1 + 1) 0x01 ;;;
  let! status := inb (COM1 + 5) in
  if status =? 0xFF then ret tt
  else
    let! co := get_c in
    put_c (co <| uart := true |>) ;;;
    inb (COM1 + 2) ;;;
    inb (COM1 + 0) ;;;
    ioapicenable IRQ_COM1 0 ;;;
    for_list (str ("xv6..." ++ nl)) uartputc.

(** [rx]: the bytes received before the port has none left. *)
Definition uartintr (mem : Z -> Z) (rx : list Z) : MK unit :=
  let! co := get_c in
  consoleintr mem (if uart co then rx else []).

End console_c.

(** ** The line editor *)

(** The bytes a reader may take, and the line being typed. *)
Record editor := mkEd { ed_ready : list Z; ed_line : list Z }.

Definition ed_full (s : editor) : bool := bool_decide (INPUT_BUF <= length (ed_ready s) + length (ed_line s))%nat.

(** A character that is typed, as it is stored; whether it ends the line. *)
Definition typed (c : Z) : Z := if c =? carriage then newline else c.
Definition ends_line (c : Z) : bool := (typed c =? newline) || (typed c =? Ctl "D").

(** A character that is none of the editing keys. *)
Definition ed_type (c : Z) (s : editor) : editor * list Z * bool :=
  if (c =? 0) || ed_full s then (s, [], false)
  else
    let s' := mkEd (ed_ready s) (ed_line s ++ [typed c]) in
    if ends_line c || ed_full s' then (mkEd (ed_ready s ++ ed_line s') [], [typed c], true)
    else (s', [typed c], false).

(** The editor after a character, the bytes it echoes, and whether the line was handed over. *)
Definition ed_char (c : Z) (s : editor) : editor * list Z * bool :=
  let rub := [8; 32; 8] in
  if c =? Ctl "P" then (s, [], false)
  else if c =? Ctl "U" then (mkEd (ed_ready s) [], concat (replicate (length (ed_line s)) rub), false)
  else if (c =? Ctl "H") || (c =? DEL) then
    match ed_line s with
    | [] => (s, [], false)
    | l => (mkEd (ed_ready s) (removelast l), rub, false)
    end
  else ed_type c s.

Fixpoint ed_chars (cs : list Z) (s : editor) : editor * list Z * bool :=
  match cs with
  | [] => (s, [], false)
  | c :: cs =>
      let '(s, out, woke) := ed_char c s in
      let '(s, out', woke') := ed_chars cs s in
      (s, out ++ out', woke || woke')
  end.

(** The simulation relation. *)
Record input_is (x : cinput) (s : editor) : Prop := {
  ii_buf : length (in_buf x) = INPUT_BUF;
  ii_r : is_u32 (in_r x);
  ii_w : is_u32 (in_w x);
  ii_e : is_u32 (in_e x);
  ii_room : distance (in_r x) (in_w x) + distance (in_w x) (in_e x) <= 128;
  ii_ready : window 128 (in_buf x) (in_r x) (distance (in_r x) (in_w x)) = ed_ready s;
  ii_line : window 128 (in_buf x) (in_w x) (distance (in_w x) (in_e x)) = ed_line s;
}.

Lemma input_divides : (128 | 4294967296).
Proof. by exists 33554432. Qed.

Lemma distance_trans r w e : distance r w + distance w e <= 128 -> distance r e = distance r w + distance w e.
Proof.
  intros Hd. pose proof (distance_range r w). pose proof (distance_range w e). unfold distance, u32 in *.
  Z.div_mod_to_equations. lia.
Qed.

Section editor_facts.
Context (x : cinput) (s : editor) (Hx : input_is x s).

Lemma ready_length : Z.of_nat (length (ed_ready s)) = distance (in_r x) (in_w x).
Proof using Hx. rewrite <- (ii_ready _ _ Hx). apply ring_length, distance_range. Qed.

Lemma line_length : Z.of_nat (length (ed_line s)) = distance (in_w x) (in_e x).
Proof using Hx. rewrite <- (ii_line _ _ Hx). apply ring_length, distance_range. Qed.

Lemma line_empty : (in_e x =? in_w x) = bool_decide (ed_line s = []).
Proof using Hx.
  destruct Hx as [_ _ Hw He _ _ _]. rewrite Z.eqb_sym, distance_0 by done. rewrite <- line_length.
  case_bool_decide as Hb; [by rewrite Hb|]. apply Z.eqb_neq. intros H0. apply Hb, nil_length_inv. lia.
Qed.

Lemma full_spec : (u32 (in_e x - in_r x) <? Z.of_nat INPUT_BUF) = negb (ed_full s).
Proof using Hx.
  pose proof ready_length. pose proof line_length. pose proof (ii_room _ _ Hx) as Hroom.
  change (u32 (in_e x - in_r x)) with (distance (in_r x) (in_e x)). rewrite (distance_trans _ (in_w x)) by done.
  unfold ed_full, INPUT_BUF. case_bool_decide; [apply Z.ltb_ge|apply Z.ltb_lt]; lia.
Qed.

(** Storing a character at the end of the line. *)
Lemma push_spec c :
  is_u8 c -> ed_full s = false -> input_is (input_push c x) (mkEd (ed_ready s) (ed_line s ++ [c])).
Proof using Hx.
  intros Hc Hf. pose proof Hx as [Hb Hr Hw He Hroom Hq Hl]. pose proof ready_length. pose proof line_length.
  unfold ed_full, INPUT_BUF in *. apply bool_decide_eq_false in Hf.
  assert (Hd : distance (in_w x) (u32 (in_e x + 1)) = distance (in_w x) (in_e x) + 1) by (apply distance_push; [done..|lia]).
  split; unfold input_push, set_field; cbn [in_buf in_r in_w in_e ed_ready ed_line]; rewrite ?Hd, ?length_insert; [done|done|done|apply u32_range|lia| |].
  - rewrite (distance_add (in_r x) (in_e x) He), (distance_trans _ (in_w x)) by done. change (Z.of_nat INPUT_BUF) with 128.
    rewrite u32_mod_ring by apply input_divides. pose proof (distance_range (in_w x) (in_e x)). pose proof (distance_range (in_r x) (in_w x)).
    by rewrite ring_store_past by lia.
  - rewrite (distance_add (in_w x) (in_e x) He) at 1. change (Z.of_nat INPUT_BUF) with 128.
    rewrite u32_mod_ring by apply input_divides. rewrite (u8_id c) by done. rewrite ring_snoc; [by rewrite Hl|lia|by rewrite Hb|lia].
Qed.

(** Handing the line over. *)
Lemma commit_spec : input_is (x <| in_w := in_e x |>) (mkEd (ed_ready s ++ ed_line s) []).
Proof using Hx.
  pose proof Hx as [Hb Hr Hw He Hroom Hq Hl].
  assert (Hee : distance (in_e x) (in_e x) = 0) by (unfold distance; by rewrite Z.sub_diag).
  split; cbn [in_buf in_r in_w in_e ed_ready ed_line set_field]; [done|done|done|done| | |].
  - unfold set_field; cbn. rewrite (distance_trans _ (in_w x)), Hee by done. lia.
  - unfold set_field; cbn -[window]. rewrite (distance_trans _ (in_w x)) by done.
    rewrite ring_app by apply distance_range. rewrite Hq. f_equal. rewrite <- Hl.
    rewrite (distance_add (in_r x) (in_w x) Hw) at 3. symmetry. apply ring_u32, input_divides.
  - unfold set_field; cbn -[window]. by rewrite Hee.
Qed.

(** Rubbing out the last character of the line, and the character itself. *)
Lemma erase_spec l c :
  ed_line s = l ++ [c] ->
  in_buf x !! Z.to_nat (u32 (in_e x - 1) mod Z.of_nat INPUT_BUF) = Some c /\
  input_is (x <| in_e := u32 (in_e x - 1) |>) (mkEd (ed_ready s) l).
Proof using Hx.
  intros Hs. pose proof Hx as [Hb Hr Hw He Hroom Hq Hl]. pose proof line_length as Hll.
  rewrite Hs, length_app in Hll. cbn [length] in Hll.
  assert (Hd : distance (in_w x) (u32 (in_e x - 1)) = distance (in_w x) (in_e x) - 1) by (apply distance_unpush; [done..|lia]).
  set (n := distance (in_w x) (in_e x)) in *.
  assert (Hsplit : window 128 (in_buf x) (in_w x) (n - 1) = l /\
    default 0 (in_buf x !! Z.to_nat ((in_w x + (n - 1)) mod 128)) = c).
  { rewrite Hs in Hl. replace n with (n - 1 + 1) in Hl by lia. rewrite ring_app, ring_one in Hl by lia.
    apply app_inj_tail in Hl as [? ?]. done. }
  assert (Hidx : u32 (in_e x - 1) mod Z.of_nat INPUT_BUF = (in_w x + (n - 1)) mod 128).
  { change (Z.of_nat INPUT_BUF) with 128. rewrite u32_mod_ring by apply input_divides.
    rewrite (distance_add (in_w x) (in_e x) He) at 1. fold n. rewrite <- (Zminus_mod_idemp_l (u32 _)), u32_mod_ring by apply input_divides.
    rewrite Zminus_mod_idemp_l. f_equal. lia. }
  split.
  - rewrite Hidx. destruct (lookup_lt_is_Some_2 (in_buf x) (Z.to_nat ((in_w x + (n - 1)) mod 128))) as [c' Hc'].
    { rewrite Hb. unfold INPUT_BUF. pose proof (Z.mod_pos_bound (in_w x + (n - 1)) 128). lia. }
    destruct Hsplit as [_ Hc]. rewrite Hc' in *. cbn in Hc. by subst.
  - split; unfold set_field; cbn [in_buf in_r in_w in_e ed_ready ed_line]; rewrite ?Hd; [done|done|done|apply u32_range|lia|done|apply Hsplit].
Qed.

End editor_facts.

(** ** The handler is the line editor *)

Section intr.
Context (m : machine) (H : list lockid) (Hm : idle m) (Hpt : has_lock m Lptable) (Hni : Lptable ∉ H).

Lemma consputc_backspace co p k (Q : unit -> world kst -> Prop) :
  con_ok co -> (forall co', con_add co co' [8; 32; 8] -> Q tt (W (held m H) co' p k)) ->
  wp (consputc BACKSPACE) Q (W (held m H) co p k).
Proof.
  intros Hok HQ. unfold consputc. ksteps. rewrite (proj1 Hok). change (BACKSPACE =? BACKSPACE) with true. cbn match.
  ksteps. apply uartputc_ok; [done|done|]. intros co1 H1 _. kstep. apply uartputc_ok; [apply H1|done|]. intros co2 H2 _.
  apply uartputc_ok; [apply H2|done|]. intros co3 H3 _. apply cgaputc_ok; [apply H3|]. intros co4 H4. apply HQ.
  apply (con_add_trans _ _ _ [8] [32; 8] H1). apply (con_add_trans _ _ _ [32] [8] H2).
  apply (con_add_trans _ _ _ [8] [] H3 H4).
Qed.

Definition with_input (x : cinput) (k : kst) : kst := k <| k_input := x |>.

Lemma wp_erase co p k l c (Q : unit -> world kst -> Prop) s :
  con_ok co -> input_is (k_input k) s -> ed_line s = l ++ [c] ->
  (forall co' x', con_add co co' [8; 32; 8] -> input_is x' (mkEd (ed_ready s) l) ->
     Q tt (W (held m H) co' p (with_input x' k))) ->
  wp erase Q (W (held m H) co p k).
Proof.
  intros Hok Hx Hs HQ. destruct (erase_spec _ _ Hx l c Hs) as [_ Hx']. unfold erase, upd_input. ksteps. cbn [w_s].
  apply consputc_backspace; [done|]. intros co' Hco'. by apply HQ.
Qed.

Lemma wp_kill_line n : forall co p k s (Q : unit -> world kst -> Prop),
  con_ok co -> input_is (k_input k) s -> newline ∉ ed_line s -> (length (ed_line s) < n)%nat ->
  (forall co' x', con_add co co' (concat (replicate (length (ed_line s)) [8; 32; 8])) ->
     input_is x' (mkEd (ed_ready s) []) -> Q tt (W (held m H) co' p (with_input x' k))) ->
  wp (loop n (fun _ =>
    let! x := get_input in
    if in_e x =? in_w x then ret (inr tt)
    else
      let! c := input_at x (u32 (in_e x - 1)) in
      if c =? newline then ret (inr tt)
      else erase ;;; ret (inl tt)) tt) Q (W (held m H) co p k).
Proof.
  induction n as [|n IH]; intros co p k s Q Hok Hx Hnl Hlt HQ; [lia|]. cbn [loop]. unfold get_input. ksteps.
  rewrite (line_empty _ _ Hx). case_bool_decide as He.
  - ksteps. assert (Hk : with_input (k_input k) k = k) by by destruct k. rewrite <- Hk.
    apply HQ; [rewrite He; by apply con_add_nil|]. rewrite <- He. by destruct s.
  - destruct (exists_last He) as (l & c & Hl). destruct (erase_spec _ _ Hx l c Hl) as [Hc _].
    unfold input_at. kstep. eapply wp_deref; [exact Hc|].
    rewrite (proj2 (Z.eqb_neq c newline)) by (intros ->; apply Hnl; rewrite Hl; set_solver).
    kstep. eapply wp_erase; [done|exact Hx|exact Hl|]. intros co1 x1 Hco1 Hx1. ksteps.
    rewrite Hl, length_app in Hlt. cbn [length] in Hlt.
    eapply IH; [apply Hco1|exact Hx1|cbn; rewrite Hl in Hnl; set_solver|cbn; lia|].
    intros co' x' Hco' Hx'. apply HQ; [|exact Hx']. rewrite Hl, length_app. cbn [length].
    replace (length l + 1)%nat with (Datatypes.S (length l)) by lia. cbn [replicate concat].
    by apply (con_add_trans _ _ _ _ _ Hco1 Hco').
Qed.

Definition woke_up (woke : bool) (p : procs) : procs :=
  if woke then p <| ptable := wake (Some Cinput) <$> ptable p |> else p.

(** The counters after a character was stored say that the buffer is full exactly when the editor does. *)
Lemma full_after x s : input_is x s -> (in_e x =? u32 (in_r x + Z.of_nat INPUT_BUF)) = ed_full s.
Proof.
  intros Hx. rewrite distance_full by (apply Hx || done). pose proof (full_spec _ _ Hx) as Hfs.
  change (u32 (in_e x - in_r x)) with (distance (in_r x) (in_e x)) in Hfs.
  pose proof (ii_room _ _ Hx). rewrite (distance_trans _ (in_w x)) in * by done. change (Z.of_nat INPUT_BUF) with 128 in *.
  apply negb_sym in Hfs. rewrite Hfs. rewrite Z.ltb_antisym, negb_involutive.
  apply Bool.eq_iff_eq_true. rewrite Z.eqb_eq, Z.leb_le. lia.
Qed.

Lemma typed_u8 c : is_u8 c -> is_u8 (typed c).
Proof. unfold typed. by case_match. Qed.

(** A character that is stored. *)
Lemma wp_console_type co p k s c (Q : unit -> world kst -> Prop) :
  con_ok co -> input_is (k_input k) s -> is_u8 c -> c ≠ 0 -> ed_full s = false ->
  let s1 := mkEd (ed_ready s) (ed_line s ++ [typed c]) in
  (forall co' x1, con_add co co' [typed c] -> input_is x1 s1 ->
     wp (when (ends_line c || ed_full s1) hand_over) Q (W (held m H) co' p (with_input x1 k))) ->
  wp (console_type c) Q (W (held m H) co p k).
Proof.
  intros Hok Hx Hc H0 Hf s1 HQ. pose proof (push_spec _ _ Hx (typed c) (typed_u8 c Hc) Hf) as Hpush. fold s1 in Hpush.
  unfold console_type, get_input. ksteps. rewrite (full_spec _ _ Hx), (proj2 (Z.eqb_neq c 0)), Hf by done.
  cbn [negb andb when]. fold (typed c). unfold upd_input at 1. ksteps. cbn [w_s].
  change (k <| k_input := input_push (typed c) (k_input k) |>) with (with_input (input_push (typed c) (k_input k)) k).
  apply consputc_ok; [done|by apply typed_u8|]. intros co1 Hco1. ksteps. fold (ends_line c).
  change (k_input (with_input ?x k)) with x. rewrite (full_after _ _ Hpush). by apply HQ.
Qed.

(** Characters that are not editing keys. *)
Lemma wp_typed co p k s c dump (Q : bool -> world kst -> Prop) :
  con_ok co -> input_is (k_input k) s -> newline ∉ ed_line s -> is_u8 c ->
  let '(s', out, woke) := ed_type c s in
  (newline ∉ ed_line s') /\
  ((forall co' x', con_add co co' out -> input_is x' s' ->
     Q dump (W (held m H) co' (woke_up woke p) (with_input x' k))) ->
   wp (console_type c ;;; ret dump) Q (W (held m H) co p k)).
Proof.
  intros Hok Hx Hnl Hc. assert (Hk : with_input (k_input k) k = k) by by destruct k.
  unfold ed_type. destruct ((c =? 0) || ed_full s) eqn:Hskip.
  { split; [done|]. intros HQ. unfold console_type, get_input. ksteps. rewrite (full_spec _ _ Hx).
    replace (negb (c =? 0) && negb (ed_full s)) with false by (by rewrite <- negb_orb, Hskip).
    ksteps. rewrite <- Hk. apply HQ; [by apply con_add_nil|done]. }
  apply orb_false_iff in Hskip as [H0%Z.eqb_neq Hf]. cbn zeta.
  destruct (ends_line c || ed_full _) eqn:Hend.
  - split; [set_solver|]. intros HQ. kstep. eapply wp_console_type; [done|exact Hx|done..|]. intros co1 x1 Hco1 Hx1.
    rewrite Hend. cbn [when]. unfold hand_over, upd_input. ksteps. apply wp_wakeup; [done..|]. kstep.
    apply (HQ co1 (x1 <| in_w := in_e x1 |>)); [done|]. apply (commit_spec _ _ Hx1).
  - split.
    + apply orb_false_iff in Hend as [Hend _]. unfold ends_line in Hend. apply orb_false_iff in Hend as [Hend%Z.eqb_neq _].
      cbn. set_solver.
    + intros HQ. kstep. eapply wp_console_type; [done|exact Hx|done..|]. intros co1 x1 Hco1 Hx1.
      rewrite Hend. ksteps. by apply HQ.
Qed.

(** One character. *)
Lemma wp_console_char co p k s c dump (Q : bool -> world kst -> Prop) :
  con_ok co -> input_is (k_input k) s -> newline ∉ ed_line s -> is_u8 c ->
  let '(s', out, woke) := ed_char c s in
  (newline ∉ ed_line s') /\
  ((forall co' x', con_add co co' out -> input_is x' s' ->
     Q (dump || (c =? Ctl "P")) (W (held m H) co' (woke_up woke p) (with_input x' k))) ->
   wp (console_char c dump) Q (W (held m H) co p k)).
Proof.
  intros Hok Hx Hnl Hc. unfold ed_char, console_char. assert (Hk : with_input (k_input k) k = k) by by destruct k.
  destruct (Z.eqb_spec c (Ctl "P")) as [->|HP].
  { split; [done|]. intros HQ. kstep. rewrite orb_true_r in HQ. rewrite <- Hk. apply HQ; [by apply con_add_nil|done]. }
  rewrite orb_false_r. destruct (Z.eqb_spec c (Ctl "U")) as [->|HU].
  { split; [set_solver|]. intros HQ. kstep. eapply wp_kill_line; [done|exact Hx|done| |].
    - pose proof (line_length _ _ Hx). pose proof (ready_length _ _ Hx). pose proof (ii_room _ _ Hx). unfold INPUT_BUF. lia.
    - intros co' x' Hco' Hx'. kstep. by apply HQ. }
  destruct ((c =? Ctl "H") || (c =? DEL)) eqn:Hbs.
  { destruct (decide (ed_line s = [])) as [He|He].
    - rewrite He. split; [rewrite He; set_solver|]. intros HQ. unfold get_input. ksteps. rewrite (line_empty _ _ Hx), He.
      cbn. ksteps. rewrite <- Hk. apply HQ; [by apply con_add_nil|done].
    - destruct (exists_last He) as (l & c' & Hl).
      replace (match ed_line s with [] => (s, [], false) | _ :: _ => _ end)
        with (mkEd (ed_ready s) (removelast (ed_line s)), [8; 32; 8], false) by by destruct (ed_line s).
      cbn [ed_line]. rewrite Hl, removelast_last. split; [rewrite Hl in Hnl; set_solver|].
      intros HQ. unfold get_input. ksteps. rewrite (line_empty _ _ Hx), bool_decide_eq_false_2 by done. cbn [negb when].
      eapply wp_erase; [done|exact Hx|exact Hl|]. intros co' x' Hco' Hx'. kstep. by apply HQ. }
  by apply wp_typed.
Qed.

Lemma woke_up_or b b' p : woke_up b' (woke_up b p) = woke_up (b || b') p.
Proof.
  destruct b, b'; try done. unfold woke_up, set_field; cbn. f_equal. rewrite <- list_fmap_compose.
  apply list_fmap_ext. intros i x _. apply wake_idemp.
Qed.

Lemma wp_console_chars cs : forall co p k s dump (Q : bool -> world kst -> Prop),
  con_ok co -> input_is (k_input k) s -> newline ∉ ed_line s -> Forall is_u8 cs -> Ctl "P" ∉ cs ->
  let '(s', out, woke) := ed_chars cs s in
  (forall co' x', con_add co co' out -> input_is x' s' -> Q dump (W (held m H) co' (woke_up woke p) (with_input x' k))) ->
  wp (console_chars cs dump) Q (W (held m H) co p k).
Proof.
  induction cs as [|c cs IH]; intros co p k s dump Q Hok Hx Hnl Hu HP; cbn [ed_chars console_chars].
  - intros HQ. kstep. assert (Hk : with_input (k_input k) k = k) by by destruct k. rewrite <- Hk.
    apply HQ; [by apply con_add_nil|done].
  - apply list.Forall_cons in Hu as [Hc Hu]. apply not_elem_of_cons in HP as [Hc' HP].
    pose proof (fun Q' => wp_console_char co p k s c dump Q' Hok Hx Hnl Hc) as Hone.
    destruct (ed_char c s) as [[s1 out1] woke1]. destruct (Hone Q) as [Hnl1 _].
    pose proof (fun co1 p1 x1 Hco1 Hx1 => IH co1 p1 (with_input x1 k) s1 dump Q Hco1 Hx1 Hnl1 Hu HP) as Hrest.
    destruct (ed_chars cs s1) as [[s2 out2] woke2]. intros HQ. kstep. apply Hone. intros co1 x1 Hco1 Hx1.
    rewrite (proj2 (Z.eqb_neq c (Ctl "P"))), orb_false_r by (intros ->; by apply Hc').
    apply Hrest; [apply Hco1|done|]. intros co2 x2 Hco2 Hx2. rewrite woke_up_or.
    apply HQ; [by apply (con_add_trans _ _ _ _ _ Hco1 Hco2)|done].
Qed.

End intr.

(** ** Reading *)

(** What a read of [n] of [target] characters takes from the bytes that are ready: the bytes stored
    and those that stay; [None] when it would sleep. *)
Fixpoint ed_read (target n : nat) (q : list Z) : option (list Z * list Z) :=
  match n, q with
  | O, _ => Some ([], q)
  | _, [] => None
  | Datatypes.S n', c :: q' =>
      if c =? Ctl "D" then Some ([], if bool_decide (n < target)%nat then q else q')
      else if c =? newline then Some ([c], q')
      else '(d, q'') ← ed_read target n' q'; Some (c :: d, q'')
  end.

Lemma pop_spec x s c q :
  input_is x s -> ed_ready s = c :: q ->
  in_buf x !! Z.to_nat (in_r x mod Z.of_nat INPUT_BUF) = Some c /\ in_r x ≠ in_w x /\
  input_is (x <| in_r := u32 (in_r x + 1) |>) (mkEd q (ed_line s)) /\ u32 (u32 (in_r x + 1) - 1) = in_r x.
Proof.
  intros Hx Hs. pose proof Hx as [Hb Hr Hw He Hroom Hq Hl]. pose proof (ready_length _ _ Hx) as Hlen.
  rewrite Hs in Hlen, Hq. cbn [length] in Hlen. rewrite ring_cons in Hq by lia. injection Hq as Hc Hq.
  assert (Hd : distance (u32 (in_r x + 1)) (in_w x) = distance (in_r x) (in_w x) - 1) by (apply distance_pop; [done..|lia]).
  split; [|split; [|split]].
  - destruct (lookup_lt_is_Some_2 (in_buf x) (Z.to_nat (in_r x mod Z.of_nat INPUT_BUF))) as [c' Hc'].
    { rewrite Hb. unfold INPUT_BUF. pose proof (Z.mod_pos_bound (in_r x) 128). lia. }
    change (Z.of_nat INPUT_BUF) with 128 in *. rewrite Hc' in *. cbn in Hc. by subst.
  - intros Heq. rewrite Heq in Hlen. unfold distance in Hlen. rewrite Z.sub_diag in Hlen.
    change (u32 0) with 0 in Hlen. lia.
  - split; unfold set_field; cbn [in_buf in_r in_w in_e ed_ready ed_line]; rewrite ?Hd; [done|apply u32_range|done|done|lia| |done].
    rewrite ring_u32 by apply input_divides. done.
  - unfold u32, is_u32 in *. Z.div_mod_to_equations. lia.
Qed.

Lemma wp_upd_input m H co p k f (Q : unit -> world kst -> Prop) :
  Q tt (W (held m H) co p (with_input (f (k_input k)) k)) -> wp (upd_input f) Q (W (held m H) co p k).
Proof. done. Qed.

Lemma with_input_twice x y k : with_input x (with_input y k) = with_input x k.
Proof. done. Qed.

Lemma wp_read_chars `{Fu : Fuel} m H co p target n : forall k s d q' (Q : bool * list Z -> world kst -> Prop),
  input_is (k_input k) s -> ed_read target n (ed_ready s) = Some (d, q') ->
  (forall x', input_is x' (mkEd q' (ed_line s)) -> Q (true, d) (W (held m H) co p (with_input x' k))) ->
  wp (read_chars target n) Q (W (held m H) co p k).
Proof.
  induction n as [|n IH]; intros k s d q' Q Hx Hr HQ; cbn [read_chars].
  - destruct (ed_ready s) eqn:E; injection Hr as <- <-; kstep;
      assert (Hk : with_input (k_input k) k = k) by (by destruct k); rewrite <- Hk; apply HQ; rewrite <- E; by destruct s.
  - cbn [ed_read] in Hr. destruct (ed_ready s) as [|c q] eqn:Hs; [done|].
    destruct (pop_spec _ _ _ _ Hx Hs) as (Hc & Hne & Hx1 & Hback).
    unfold wait_input, get_input. cbn [loop]. ksteps. rewrite (proj2 (Z.eqb_neq _ _) Hne). ksteps. cbn [negb].
    unfold input_at. ksteps. apply wp_upd_input. destruct (c =? Ctl "D").
    { injection Hr as <- <-. kstep. destruct (bool_decide (Datatypes.S n < target)%nat); cbn [when].
      - apply wp_upd_input. rewrite with_input_twice. kstep. apply HQ.
        change (k_input (with_input ?x k)) with x. unfold set_field; cbn [in_r in_buf in_w in_e]. rewrite Hback, <- Hs.
        destruct s. by destruct (k_input k).
      - ksteps. by apply HQ. }
    destruct (c =? newline). { injection Hr as <- <-. kstep. by apply HQ. }
    apply bind_Some in Hr as ((d1 & q1) & Hr & Heq). injection Heq as <- <-.
    kstep. eapply (IH (with_input (k_input k <| in_r := u32 (in_r (k_input k) + 1) |>) k));
      [exact Hx1|exact Hr|]. intros x' Hx'. kstep. by apply HQ.
Qed.

(** ** Properties *)

(** C26.  The interrupt handler is a line editor.  For every string of characters from the keyboard or the serial
    line, [consoleintr] leaves in the input buffer exactly the finished bytes and the line in progress that the
    abstract editor computes (kill line, rub out, end of line, carriage return, a full buffer), echoes what the
    editor echoes, and wakes the readers exactly when a line was handed over; the counters
    of the buffer may wrap around. *)
Theorem console_line_discipline mem m co p k s cs :
  idle m -> has_lock m Lcons -> has_lock m Lptable ->
  con_ok co -> input_is (k_input k) s -> newline ∉ ed_line s -> Forall is_u8 cs -> Ctl "P" ∉ cs ->
  let '(s', out, woke) := ed_chars cs s in
  exists co' x', consoleintr mem cs (W (held m []) co p k) = Ret tt (W (held m []) co' (woke_up woke p) (with_input x' k)) /\
    con_add co co' out /\ input_is x' s'.
Proof.
  intros Hm Hc Hpt Hok Hx Hnl Hu HP.
  assert (Hni : Lptable ∉ [Lcons]) by not_held.
  pose proof (fun Q => wp_console_chars m [Lcons] Hm Hpt Hni cs co p k s false Q Hok Hx Hnl Hu HP) as Hcs.
  destruct (ed_chars cs s) as [[s' out] woke].
  assert (Hwp : wp (consoleintr mem cs) (fun _ w => exists co' x', w = W (held m []) co' (woke_up woke p) (with_input x' k) /\
    con_add co co' out /\ input_is x' s') (W (held m []) co p k)).
  { unfold consoleintr. kstep. apply wp_acquire; [done|done|not_held|]. kstep. apply Hcs. intros co' x' Hco' Hx'. kstep.
    apply wp_release; [done|done|not_held|]. kstep. by exists co', x'. }
  apply wp_elim in Hwp as ([] & w & Hr & co' & x' & -> & ? & ?). by exists co', x'.
Qed.

(** [consoleread] stores and returns the bytes the abstract reader takes from the finished ones: up to [n], not
    past an end of line, and a control-D ends the read, being left for the next read if
    bytes were read before it; it gives the inode's lock up while it waits and returns with it held. *)
Theorem consoleread_spec `{Fu : Fuel} `{Drv : DiskDriver} m co p me pid k s ip i n d q' :
  running m p me pid -> (ip < NINODE)%nat -> k_inodes k !! ip = Some i -> 1 <= i_ref i -> i_valid i ≠ 0 ->
  sl_locked (i_lock i) = 1 -> sl_pid (i_lock i) = pid ->
  input_is (k_input k) s -> ed_read (Z.to_nat n) (Z.to_nat n) (ed_ready s) = Some (d, q') ->
  exists x', consoleread ip n (W (held m []) co p k) =
      Ret (Z.of_nat (length d), d) (W (held m []) co (woken (Csleep (SLinode ip)) p) (with_input x' k)) /\
    input_is x' (mkEd q' (ed_line s)).
Proof.
  intros Hrun Hip Hi Href Hv Hl Hpid Hx Hr. pose proof (run_idle _ _ _ _ Hrun) as Hm.
  assert (Hid : forall k', k_inodes k' = k_inodes k ->
    sl_upd (SLinode ip) (sl_take pid) (sl_upd (SLinode ip) sl_drop k') = k').
  { intros k' Hk'. rewrite sl_upd_upd. cbn. unfold set_field at 1. cbn. rewrite Hk'.
    rewrite (alter_is_insert _ _ _ _ Hi), list_insert_id; [by rewrite <- Hk'; destruct k'|].
    rewrite Hi. f_equal. unfold sl_take, sl_drop, set_field; cbn. destruct i as [? ? ? [? ? ?]]; cbn in *. by subst. }
  assert (Hwp : wp (consoleread ip n) (fun r w => r = (Z.of_nat (length d), d) /\ exists x',
    w = W (held m []) co (woken (Csleep (SLinode ip)) p) (with_input x' k) /\ input_is x' (mkEd q' (ed_line s)))
    (W (held m []) co p k)).
  { unfold consoleread. kstep. eapply wp_iunlock; [done|done|exact Hi|done|done|done|]. kstep.
    apply wp_acquire; [done|eauto with xv6|not_held|]. kstep. eapply wp_read_chars; [exact Hx|exact Hr|]. intros x' Hx'.
    kstep. apply wp_release; [done|eauto with xv6|not_held|]. kstep.
    eapply (wp_ilock_valid m co me pid _ _ _ (i <| i_lock := sl_drop (i_lock i) |>));
      [by apply running_woken|done|cbn; by rewrite list_lookup_alter_eq, Hi|done|done|done|].
    kstep. split; [done|]. exists x'. split; [|done]. f_equal. apply (Hid (with_input x' k)). done. }
  apply wp_elim in Hwp as (r & w & Hw & -> & x' & -> & Hx'). by exists x'.
Qed.

(** ** The properties on a concrete buffer *)

(** An empty buffer whose counters are about to wrap around. *)
Definition ex_input : cinput := mkInput (replicate INPUT_BUF 0) 4294967295 4294967295 4294967295.
Definition ex_typing : kst := ex_fs <| k_input := ex_input |>.

Lemma ex_input_is : input_is ex_input (mkEd [] []).
Proof. split; try reflexivity; unfold is_u32; cbn; lia || (vm_compute; discriminate). Qed.

(** Typing "hx", rub out, "i", return: the line "hi" is handed over. *)
Lemma console_line_discipline_witness :
  exists co' x', consoleintr (fun _ => 0) [104; 120; 8; 105; 13] (W (held ex_machine []) ex_console (ex_procs 0) ex_typing) =
    Ret tt (W (held ex_machine []) co' (woke_up true (ex_procs 0)) (with_input x' ex_typing)) /\
    con_add ex_console co' [104; 120; 8; 32; 8; 105; 10] /\ input_is x' (mkEd [104; 105; 10] []).
Proof.
  apply (console_line_discipline (fun _ => 0) ex_machine ex_console (ex_procs 0) ex_typing (mkEd [] []) [104; 120; 8; 105; 13]).
  - apply (run_idle _ _ _ _ (ex_running 0)).
  - eapply ready_lock; [apply (run_locks _ _ _ _ (ex_running 0))|set_solver].
  - eapply ready_lock; [apply (run_locks _ _ _ _ (ex_running 0))|set_solver].
  - apply ex_console_ok.
  - apply ex_input_is.
  - apply not_elem_of_nil.
  - repeat constructor; lia.
  - rewrite !not_elem_of_cons. split_and!; try discriminate. apply not_elem_of_nil.
Defined.

(** The finished line, and a reader that asks for ten bytes. *)
Definition ex_line : cinput :=
  mkInput ([104; 105; 10] ++ replicate 125 0) 0 3 3.
Definition ex_reading : kst :=
  ex_fs <| k_input := ex_line |>
        <| k_inodes := [mkInode 1 2 1 (mkSl 1 "inode" 4) 1 T_DEV CONSOLE 0 1 0 (replicate 13 0)] |>.

Lemma consoleread_spec_witness :
  exists x', @consoleread 0%nat (@memide 0%nat) 0 10 (W (held ex_machine []) ex_console (ex_procs 0) ex_reading) =
      Ret (3, [104; 105; 10]) (W (held ex_machine []) ex_console (woken (Csleep (SLinode 0)) (ex_procs 0)) (with_input x' ex_reading)) /\
    input_is x' (mkEd [] []).
Proof.
  apply (@consoleread_spec 0%nat (@memide 0%nat) ex_machine ex_console (ex_procs 0) 1 4 ex_reading (mkEd [104; 105; 10] []) 0
    (mkInode 1 2 1 (mkSl 1 "inode" 4) 1 T_DEV CONSOLE 0 1 0 (replicate 13 0)) 10 [104; 105; 10] []).
  - apply ex_running.
  - unfold NINODE. lia.
  - reflexivity.
  - cbn. lia.
  - discriminate.
  - reflexivity.
  - reflexivity.
  - split; try reflexivity; unfold is_u32; cbn; lia || (vm_compute; discriminate).
  - reflexivity.
Defined.
