(* ===== verification/Kbd.v ===== *)
(** * The keyboard (kbd.c, kbd.h)

    The translation of scan codes to characters: a state machine on the modifier bits.  The specification is a US
    keyboard whose keys are pressed and released, with its modifiers and locks; the theorem shows that the driver returns what this keyboard
    types, for every sequence of presses and releases. *)

From S2P Require Import Prelude Kstate Spinlock Cprintf Kdata Sleeplock Bio ConsoleIn.
From stdpp Require Import gmap strings list fin_maps.
Open Scope Z_scope.

(** ** kbd.h *)

Definition KBS_DIB : Z := 1.
Definition SHIFT : Z := 1.
Definition CTL : Z := 2.
Definition ALT : Z := 4.
Definition CAPSLOCK : Z := 8.
Definition NUMLOCK : Z := 16.
Definition SCROLLLOCK : Z := 32.
Definition E0ESC : Z := 64.

(** [{first, [i] x, ...}] of a table of 256 bytes. *)
Definition table (first : list Z) (designated : list (Z * Z)) : list Z :=
  foldl (fun t e => <[Z.to_nat e.1 := e.2]> t) (first ++ replicate (256 - length first) 0) designated.

Definition shiftcode : list Z :=
  table [] [(0x1D, CTL); (0x2A, SHIFT); (0x36, SHIFT); (0x38, ALT); (0x9D, CTL); (0xB8, ALT)].

Definition togglecode : list Z := table [] [(0x3A, CAPSLOCK); (0x45, NUMLOCK); (0x46, SCROLLLOCK)].

(** The keys of the arrow and editing block: up, down, page up, page down, left, right, home, end, insert, delete. *)
Definition special_keys : list (Z * Z) :=
  [(0xC8, 0xE2); (0xD0, 0xE3); (0xC9, 0xE6); (0xD1, 0xE7); (0xCB, 0xE4); (0xCD, 0xE5); (0x97, 0xE0); (0xCF, 0xE1);
   (0xD2, 0xE8); (0xD3, 0xE9)].

Definition normalmap : list Z :=
  table
    [0; 27; 49; 50; 51; 52; 53; 54; 55; 56; 57; 48; 45; 61; 8; 9;
     113; 119; 101; 114; 116; 121; 117; 105; 111; 112; 91; 93; 10; 0; 97; 115;
     100; 102; 103; 104; 106; 107; 108; 59; 39; 96; 0; 92; 122; 120; 99; 118;
     98; 110; 109; 44; 46; 47; 0; 42; 0; 32; 0; 0; 0; 0; 0; 0;
     0; 0; 0; 0; 0; 0; 0; 55; 56; 57; 45; 52; 53; 54; 43; 49;
     50; 51; 48; 46; 0; 0; 0; 0]
    ([(0x9C, 10); (0xB5, 47)] ++ special_keys).

Definition shiftmap : list Z :=
  table
    [0; 27; 33; 64; 35; 36; 37; 94; 38; 42; 40; 41; 95; 43; 8; 9;
     81; 87; 69; 82; 84; 89; 85; 73; 79; 80; 123; 125; 10; 0; 65; 83;
     68; 70; 71; 72; 74; 75; 76; 58; 34; 126; 0; 124; 90; 88; 67; 86;
     66; 78; 77; 60; 62; 63; 0; 42; 0; 32; 0; 0; 0; 0; 0; 0;
     0; 0; 0; 0; 0; 0; 0; 55; 56; 57; 45; 52; 53; 54; 43; 49;
     50; 51; 48; 46; 0; 0; 0; 0]
    ([(0x9C, 10); (0xB5, 47)] ++ special_keys).

Definition ctlmap : list Z :=
  table
    [0; 0; 0; 0; 0; 0; 0; 0; 0; 0; 0; 0; 0; 0; 0; 0;
     17; 23; 5; 18; 20; 25; 21; 9; 15; 16; 0; 0; 13; 0; 1; 19;
     4; 6; 7; 8; 10; 11; 12; 0; 0; 0; 0; 28; 26; 24; 3; 22;
     2; 14; 13; 0; 0; 239; 0; 0]
    ([(0x9C, 13); (0xB5, 239)] ++ special_keys).

(** ** kbd.c *)

Definition at_code (t : list Z) (data : Z) : Z := default 0 (t !! Z.to_nat data).

Definition charcode (i : Z) : list Z :=
  if i =? 0 then normalmap else if i =? 1 then shiftmap else ctlmap.

(** The upper and lower case letters change places under caps lock. *)
Definition caps (c : Z) : Z :=
  if (97 <=? c) && (c <=? 122) then c + (65 - 97)
  else if (65 <=? c) && (c <=? 90) then c + (97 - 65)
  else c.

(** [kbdgetc] on the scan code [data]: the character (0 for none) and the new [shift]. *)
Definition kbdgetc (data shift : Z) : Z * Z :=
  if data =? 0xE0 then (0, Z.lor shift E0ESC)
  else if negb (Z.land data 0x80 =? 0) then
    let data := if negb (Z.land shift E0ESC =? 0) then data else Z.land data 0x7F in
    (0, Z.land shift (Z.lnot (Z.lor (at_code shiftcode data) E0ESC)))
  else
    let '(data, shift) :=
      if negb (Z.land shift E0ESC =? 0) then (Z.lor data 0x80, Z.land shift (Z.lnot E0ESC)) else (data, shift) in
    let shift := Z.lor shift (at_code shiftcode data) in
    let shift := Z.lxor shift (at_code togglecode data) in
    let c := at_code (charcode (Z.land shift (Z.lor CTL SHIFT))) data in
    (if negb (Z.land shift CAPSLOCK =? 0) then caps c else c, shift).

(** The values [kbdgetc] returns while the controller has data, before it returns -1. *)
Fixpoint kbd_chars (codes : list Z) (shift : Z) : list Z * Z :=
  match codes with
  | [] => ([], shift)
  | d :: codes =>
      let '(c, shift) := kbdgetc d shift in
      let '(cs, shift) := kbd_chars codes shift in
      (c :: cs, shift)
  end.

(** [codes] are the scan codes waiting in the controller. *)
Definition kbdintr `{Fuel} `{DiskDriver} (mem : Z -> Z) (codes : list Z) : MK unit :=
  let! k := get_s in
  let '(cs, shift) := kbd_chars codes (k_shift k) in
  upd_s (fun k => k <| k_shift := shift |>) ;;;
  consoleintr mem cs.

(** ** The keyboard *)

(** A key: its scan code, below 0x80 and not 0x60, whose release would read as the escape, and whether it is one of the second block, whose
    codes follow the escape 0xE0. *)
Record key := mkKey { k_ext : bool; k_code : nat }.
Definition key_ok (k : key) : Prop := (k_code k < 128)%nat /\ k_code k ≠ 96%nat.

Inductive event := Press (k : key) | Release (k : key).
Definition event_key (e : event) : key := match e with Press k | Release k => k end.

(** What the controller delivers. *)
Definition sent (e : event) : list Z :=
  (if k_ext (event_key e) then [0xE0] else []) ++
  [match e with Press k => Z.of_nat (k_code k) | Release k => Z.of_nat (k_code k) + 128 end].

(** What a user of the keyboard sees: the modifiers that are down and the locks that are on. *)
Record kbd := mkKbd { kb_shift : bool; kb_ctl : bool; kb_alt : bool; kb_caps : bool; kb_num : bool; kb_scroll : bool }.
#[export] Instance kbd_eq_dec : EqDecision kbd.
Proof. solve_decision. Defined.

Inductive modifier := MShift | MCtl | MAlt.
Inductive lock := LCaps | LNum | LScroll.

Definition key_modifier (k : key) : option modifier :=
  match k_ext k, k_code k with
  | _, 29%nat => Some MCtl
  | _, 56%nat => Some MAlt
  | false, 42%nat | false, 54%nat => Some MShift
  | _, _ => None
  end.
Definition key_lock (k : key) : option lock :=
  match k_ext k, k_code k with
  | false, 58%nat => Some LCaps
  | false, 69%nat => Some LNum
  | false, 70%nat => Some LScroll
  | _, _ => None
  end.

Definition set_modifier (b : bool) (md : option modifier) (s : kbd) : kbd :=
  match md with
  | None => s
  | Some MShift => mkKbd b (kb_ctl s) (kb_alt s) (kb_caps s) (kb_num s) (kb_scroll s)
  | Some MCtl => mkKbd (kb_shift s) b (kb_alt s) (kb_caps s) (kb_num s) (kb_scroll s)
  | Some MAlt => mkKbd (kb_shift s) (kb_ctl s) b (kb_caps s) (kb_num s) (kb_scroll s)
  end.
Definition toggle (l : option lock) (s : kbd) : kbd :=
  match l with
  | None => s
  | Some LCaps => mkKbd (kb_shift s) (kb_ctl s) (kb_alt s) (negb (kb_caps s)) (kb_num s) (kb_scroll s)
  | Some LNum => mkKbd (kb_shift s) (kb_ctl s) (kb_alt s) (kb_caps s) (negb (kb_num s)) (kb_scroll s)
  | Some LScroll => mkKbd (kb_shift s) (kb_ctl s) (kb_alt s) (kb_caps s) (kb_num s) (negb (kb_scroll s))
  end.

Definition kbd_step (s : kbd) (e : event) : kbd :=
  match e with
  | Press k => toggle (key_lock k) (set_modifier true (key_modifier k) s)
  | Release k => set_modifier false (key_modifier k) s
  end.

(** The rows of a US keyboard, each with the code of its first key, and what shift makes of it. *)
Definition quote : string := String (Ascii.ascii_of_nat 34) EmptyString.
Definition rows : list (nat * string * string) :=
  [(2%nat, "1234567890-=", "!@#$%^&*()_+"); (16%nat, "qwertyuiop[]", "QWERTYUIOP{}");
   (30%nat, "asdfghjkl;'`", "ASDFGHJKL:" ++ quote ++ "~"); (43%nat, "\zxcvbnm,./", "|ZXCVBNM<>?");
   (55%nat, "*", "*"); (57%nat, " ", " "); (71%nat, "789-456+1230.", "789-456+1230.")]%string.

(** The character of the key in the rows, plain or with shift; escape, backspace, tab and enter are the same in both. *)
Definition row_char (shifted : bool) (code : nat) (row : nat * string * string) : option Z :=
  let '(first, plain, shift) := row in
  if (first <=? code)%nat then str (if shifted then shift else plain) !! (code - first)%nat else None.
Definition plain_char (shifted : bool) (code : nat) : Z :=
  match code with
  | 1%nat => 27 | 14%nat => 8 | 15%nat => 9 | 28%nat => 10
  | _ => default 0 (list_find is_Some (row_char shifted code <$> rows) ≫= snd)
  end.

Definition is_lower (c : Z) : bool := (97 <=? c) && (c <=? 122).
Definition is_upper (c : Z) : bool := (65 <=? c) && (c <=? 90).
Definition swap_case (c : Z) : Z := if is_lower c then c - 32 else if is_upper c then c + 32 else c.

(** The keys of the second block: enter, the slash of the key pad, and home to delete, which have codes of their own from 0xE0 on. *)
Definition ext_char (code : nat) : Z :=
  match code with
  | 28%nat => 10 | 53%nat => 47
  | 23%nat => 0xE0 | 79%nat => 0xE1 | 72%nat => 0xE2 | 80%nat => 0xE3 | 75%nat => 0xE4 | 77%nat => 0xE5 | 73%nat => 0xE6 | 81%nat => 0xE7
  | 82%nat => 0xE8 | 83%nat => 0xE9
  | _ => 0
  end.

(** With control, a letter is its place in the alphabet, enter a carriage return, backslash and slash (also that of the key pad) are 64 below
    their character, as a byte, and every other key of the rows is silent; home to delete are as without. *)
Definition control (c : Z) : Z :=
  if is_lower c then c - 96
  else if c =? 10 then 13
  else if (c =? 92) || (c =? 47) then (c - 64) mod 256
  else if 0xE0 <=? c then c
  else 0.

(** The character that pressing [k] types in the state [s], 0 for none. *)
Definition typed (s : kbd) (k : key) : Z :=
  let base := if k_ext k then ext_char (k_code k) else plain_char (negb (kb_ctl s) && kb_shift s) (k_code k) in
  if kb_ctl s then control base
  else if kb_caps s then swap_case base else base.

(** One value for every scan code; only the last of a press can be a character. *)
Definition returned (s : kbd) (e : event) : list Z :=
  (if k_ext (event_key e) then [0] else []) ++ [match e with Press k => typed (kbd_step s e) k | Release _ => 0 end].

Fixpoint typing (s : kbd) (es : list event) : list Z * kbd :=
  match es with
  | [] => ([], s)
  | e :: es => let '(cs, s') := typing (kbd_step s e) es in (returned s e ++ cs, s')
  end.

(** The word [shift] of a state: no escape is pending. *)
Definition kbd_word (s : kbd) : Z :=
  Z.b2z (kb_shift s) * SHIFT + Z.b2z (kb_ctl s) * CTL + Z.b2z (kb_alt s) * ALT + Z.b2z (kb_caps s) * CAPSLOCK +
  Z.b2z (kb_num s) * NUMLOCK + Z.b2z (kb_scroll s) * SCROLLLOCK.

(** ** The driver implements it *)

Definition bools : list bool := [false; true].
Definition kbds : list kbd :=
  a ← bools; b ← bools; c ← bools; d ← bools; e ← bools; f ← bools; [mkKbd a b c d e f].
Definition keys : list key := filter (fun k => k_code k ≠ 96%nat) ((mkKey false <$> seq 0 128) ++ (mkKey true <$> seq 0 128)).

Lemma kbds_all s : s ∈ kbds.
Proof. destruct s as [[] [] [] [] [] []]; apply (bool_decide_unpack _); vm_compute; exact I. Qed.

Lemma keys_all k : key_ok k -> k ∈ keys.
Proof.
  destruct k as [e c]. intros [Hc Hne]. cbn [k_code] in *. apply list_elem_of_filter. split; [done|].
  apply elem_of_app. destruct e; [right|left]; apply list_elem_of_fmap_2, elem_of_seq; lia.
Qed.

Definition event_right (s : kbd) (e : event) : bool :=
  bool_decide (kbd_chars (sent e) (kbd_word s) = (returned s e, kbd_word (kbd_step s e))).

Lemma events_right : forallb (fun s => forallb (fun k => event_right s (Press k) && event_right s (Release k)) keys) kbds = true.
Proof. vm_compute. reflexivity. Qed.

Lemma kbd_event s e : key_ok (event_key e) -> kbd_chars (sent e) (kbd_word s) = (returned s e, kbd_word (kbd_step s e)).
Proof.
  intros Hk. pose proof events_right as H. rewrite forallb_forall in H. specialize (H s (proj1 (list_elem_of_In _ _) (kbds_all s))).
  rewrite forallb_forall in H. specialize (H _ (proj1 (list_elem_of_In _ _) (keys_all _ Hk))).
  apply andb_prop in H as [H1 H2]. destruct e; [exact (bool_decide_eq_true_1 _ H1)|exact (bool_decide_eq_true_1 _ H2)].
Qed.

Lemma kbd_chars_app codes1 codes2 shift :
  kbd_chars (codes1 ++ codes2) shift =
  let '(cs1, s1) := kbd_chars codes1 shift in let '(cs2, s2) := kbd_chars codes2 s1 in (cs1 ++ cs2, s2).
Proof.
  revert shift. induction codes1 as [|d codes1 IH]; intros shift; cbn [app kbd_chars]; [by destruct (kbd_chars codes2 shift)|].
  destruct (kbdgetc d shift) as [c s]. rewrite IH. destruct (kbd_chars codes1 s) as [cs1 s1]. by destruct (kbd_chars codes2 s1).
Qed.

Lemma kbd_chars_typing s es : Forall (fun e => key_ok (event_key e)) es ->
  kbd_chars (mjoin (sent <$> es)) (kbd_word s) = let '(cs, s') := typing s es in (cs, kbd_word s').
Proof.
  intros Hes. revert s. induction Hes as [|e es He Hes IH]; intros s; [done|]. cbn [typing].
  change (mjoin (sent <$> e :: es)) with (sent e ++ mjoin (sent <$> es)).
  rewrite kbd_chars_app, kbd_event by done. rewrite IH. by destruct (typing (kbd_step s e) es).
Qed.

(** C39.  The keyboard driver implements a US keyboard.  From any state of the modifiers and locks and for any sequence of presses and releases,
    [kbdgetc] returns for the scan codes of the sequence exactly the characters that the keyboard types: a release ends its modifier, a
    lock changes at every press, shift and caps lock choose the character, control overrides both, and the escape of a key of the second
    block is forgotten after the key.  [kbdintr] hands these characters to [consoleintr], and keeps the new state. *)
Theorem kbd_refines `{Fuel} `{DiskDriver} mem (s : kbd) es (w : world kst) :
  Forall (fun e => key_ok (event_key e)) es -> k_shift (w_s w) = kbd_word s ->
  let '(cs, s') := typing s es in
  kbd_chars (mjoin (sent <$> es)) (kbd_word s) = (cs, kbd_word s') /\
  kbdintr mem (mjoin (sent <$> es)) w = consoleintr mem cs (W (w_m w) (w_c w) (w_p w) (w_s w <| k_shift := kbd_word s' |>)).
Proof.
  intros Hes Hs. pose proof (kbd_chars_typing s es Hes) as Hc. destruct (typing s es) as [cs s']. split; [exact Hc|].
  unfold kbdintr. erewrite bind_Ret by reflexivity. rewrite Hs, Hc. by erewrite bind_Ret by reflexivity.
Qed.

(** Shift and A, released in the other order, caps lock, A, control and C, the slash of the key pad and the arrow up. *)
Definition ex_events : list event :=
  let a := mkKey false 30 in let sh := mkKey false 42 in let caps := mkKey false 58 in let ctl := mkKey true 29 in
  [Press sh; Press a; Release sh; Release a; Press caps; Release caps; Press a; Release a; Press sh; Press a; Release a; Release sh;
   Press ctl; Press (mkKey false 46); Release (mkKey false 46); Release ctl; Press (mkKey true 53); Press (mkKey true 72)].

Lemma kbd_refines_witness :
  filter (fun c => c ≠ 0) (kbd_chars (mjoin (sent <$> ex_events)) 0).1 = str "AAa" ++ [3; 47; 0xE2].
Proof.
  destruct (typing (mkKbd false false false false false false) ex_events) as [cs s'] eqn:Ht.
  pose proof (@kbd_refines 0%nat (fun _ => ret tt) (fun _ => 0) (mkKbd false false false false false false) ex_events
    (W (one_cpu [] None) ex_console ex_procs0 kst0) ltac:(repeat constructor; cbn; lia) eq_refl) as Hr.
  rewrite Ht in Hr. destruct Hr as [Hr _]. change (kbd_word (mkKbd false false false false false false)) with 0 in Hr. rewrite Hr.
  vm_compute in Ht. injection Ht as <- _. vm_compute. reflexivity.
Defined.
