(* ===== verification/ProcLife.v ===== *)
(** * The life of a process (proc.c)

    Creating, growing, forking, exiting and reaping processes.  The theorems show what a new slot holds, that an
    exiting process passes its children to init, wakes whoever waits for it and never runs again, and that a
    parent asleep in [wait] cannot miss the exit of its child. *)

From S2P Require Import Prelude Kstate Spinlock Cprintf Proc Admission Kdata Sleeplock Kalloc Bio Block Log Vm CString Fs Pipe File.
From stdpp Require Import gmap strings list fin_maps.
Open Scope Z_scope.

(** Addresses and bytes the linker provides: [trapret], [forkret] and the embedded initcode. *)
Class Program := {
  trapret_addr : Z;
  forkret_addr : Z;
  initcode : list Z;
}.

(** The trap frame in the bytes of a kernel stack page. *)
Definition read_tf (off : nat) (pg : list Z) : trapframe :=
  let w j := get32 (off + 4 * Z.to_nat j) pg in
  let h j := get16 (off + 4 * Z.to_nat j) pg in
  mkTf (w 0) (w 1) (w 2) (w 3) (w 4) (w 5) (w 6) (w 7) (h 8) (h 9) (h 10) (h 11)
    (w 12) (w 13) (w 14) (h 15) (w 16) (w 17) (h 18).

Section proc_life.
Context `{Lk : Linker} `{Ld : LinkerData} `{Pr : Program} `{Fu : Fuel} `{Drv : DiskDriver} `{Dev : Devices}.

Definition allocproc : MK (option nat) :=
  acquire Lptable ;;;
  let! ps := get_p in
  match find_idx (fun p => bool_decide (p_state p = UNUSED)) (ptable ps) with
  | None =>
      release Lptable ;;;
      ret None
  | Some i =>
      set_proc i (fun p => p <| p_state := EMBRYO |> <| p_pid := nextpid ps |>) ;;;
      upd_p (fun ps => ps <| nextpid := s32 (nextpid ps + 1) |>) ;;;
      set_proc i (fun p => p <| p_priority := 1 |> <| p_deadline := 0 |> <| p_sched_policy := -1 |>
                            <| p_execution_time := 1 |> <| p_elapsed_time := 0 |>) ;;;
      release Lptable ;;;
      let! kstack := kalloc in
      set_proc i (fun p => p <| p_kstack := kstack |>) ;;;
      if kstack =? 0 then
        set_proc i (fun p => p <| p_state := UNUSED |>) ;;;
        ret None
      else
        let! pg := page_at kstack in
        let sp := kstack + KSTACKSIZE - sizeof_trapframe in
        set_proc i (fun p => p <| p_tf := sp |> <| p_tfv := read_tf (Z.to_nat (sp - kstack)) pg |>) ;;;
        let sp := sp - 4 in
        set_proc i (fun p => p <| p_ret := trapret_addr |>) ;;;
        let sp := sp - sizeof_context in
        set_proc i (fun p => p <| p_context := sp |> <| p_ctxv := ctx_zero <| ctx_eip := forkret_addr |> |>) ;;;
        ret (Some i)
  end.

(** The trap frame of the first process. *)
Definition init_tf : trapframe :=
  let ds := Z.lor (Z.shiftl SEG_UDATA 3) DPL_USER in
  tf_zero <| tf_cs := Z.lor (Z.shiftl SEG_UCODE 3) DPL_USER |> <| tf_ds := ds |> <| tf_es := ds |>
          <| tf_ss := ds |> <| tf_eflags := FL_IF |> <| tf_esp := PGSIZE |> <| tf_eip := 0 |>.

(** [safestrcpy(p->name, s, sizeof(p->name))] *)
Definition set_name (i : nat) (s : list Z) : MK unit :=
  let! bs := deref (safestrcpy s 16) in
  set_proc i (fun p => p <| p_name := wr 0 bs (p_name p) |>).

(** [acquire(&ptable.lock); p->state = RUNNABLE; release(&ptable.lock);] *)
Definition make_runnable (i : nat) : MK unit :=
  acquire Lptable ;;;
  set_proc i (fun p => p <| p_state := RUNNABLE |>) ;;;
  release Lptable.

Definition userinit : MK unit :=
  let! r := allocproc in
  upd_p (fun ps => ps <| initproc := r |>) ;;;
  let! pgdir := setupkvm in
  let! i := deref r in
  set_proc i (fun p => p <| p_pgdir := pgdir |>) ;;;
  if pgdir =? 0 then panic "userinit: out of memory?"
  else
    inituvm pgdir initcode ;;;
    set_proc i (fun p => p <| p_sz := PGSIZE |> <| p_tfv := init_tf |>) ;;;
    set_name i (str "initcode" ++ [0]) ;;;
    let! cwd := namei (str "/" ++ [0]) in
    set_proc i (fun p => p <| p_cwd := cwd |>) ;;;
    make_runnable i.

Definition growproc (n : Z) : MK Z :=
  let! me := myproc in
  let! i := deref me in
  let! p := proc_at i in
  let sz := p_sz p in
  let! sz' :=
    (if 0 <? n then allocuvm (p_pgdir p) sz (u32 (sz + n))
     else if n <? 0 then deallocuvm (p_pgdir p) sz (u32 (sz + n))
     else ret sz) in
  if negb (n =? 0) && (sz' =? 0) then ret (-1)
  else
    set_proc i (fun p => p <| p_sz := sz' |>) ;;;
    switchuvm (Some i) ;;;
    ret 0.

(** The loop of [fork] over the open files. *)
Definition fork_files (cur np : nat) : MK unit :=
  for_list (seq 0 NOFILE) (fun fd =>
    let! c := proc_at cur in
    match p_ofile c !! fd with
    | Some (Some f) =>
        let! f := filedup f in
        set_proc np (fun p => p <| p_ofile := <[fd := Some f]> (p_ofile p) |>)
    | _ => ret tt
    end).

Definition fork : MK Z :=
  let! me := myproc in
  let! cur := deref me in
  let! r := allocproc in
  match r with
  | None => ret (-1)
  | Some np =>
      let! c := proc_at cur in
      let! pgdir := copyuvm (p_pgdir c) (p_sz c) in
      set_proc np (fun p => p <| p_pgdir := pgdir |>) ;;;
      if pgdir =? 0 then
        let! n := proc_at np in
        kfree (p_kstack n) ;;;
        set_proc np (fun p => p <| p_kstack := 0 |>) ;;;
        set_proc np (fun p => p <| p_state := UNUSED |>) ;;;
        ret (-1)
      else
        let! c := proc_at cur in
        set_proc np (fun p => p <| p_sz := p_sz c |> <| p_parent := Some cur |>
                              <| p_tfv := p_tfv c <| tf_eax := 0 |> |>) ;;;
        fork_files cur np ;;;
        let! c := proc_at cur in
        let! cwd := deref (p_cwd c) in
        let! cwd := idup cwd in
        set_proc np (fun p => p <| p_cwd := Some cwd |>) ;;;
        set_name np (p_name c) ;;;
        let! n := proc_at np in
        make_runnable np ;;;
        ret (p_pid n)
  end.

(** [exit] up to the process table: the open files and the current directory. *)
Definition exit_files (cur : nat) : MK unit :=
  for_list (seq 0 NOFILE) (fun fd =>
    let! c := proc_at cur in
    match p_ofile c !! fd with
    | Some (Some f) =>
        fileclose f ;;;
        set_proc cur (fun p => p <| p_ofile := <[fd := None]> (p_ofile p) |>)
    | _ => ret tt
    end) ;;;
  begin_op ;;;
  let! c := proc_at cur in
  let! cwd := deref (p_cwd c) in
  iput cwd ;;;
  end_op ;;;
  set_proc cur (fun p => p <| p_cwd := None |>).

(** The loop that passes abandoned children to init. *)
Definition reparent (cur : nat) : MK unit :=
  for_list (seq 0 NPROC) (fun j =>
    let! p := proc_at j in
    when (bool_decide (p_parent p = Some cur))
      (let! ps := get_p in
       set_proc j (fun p => p <| p_parent := initproc ps |>) ;;;
       when (bool_decide (p_state p = ZOMBIE)) (wakeup1 (Cproc <$> initproc ps)))).

(** [exit] from [acquire(&ptable.lock)] on. *)
Definition exit_zombie (cur : nat) : MK unit :=
  acquire Lptable ;;;
  let! c := proc_at cur in
  wakeup1 (Cproc <$> p_parent c) ;;;
  reparent cur ;;;
  set_proc cur (fun p => p <| p_state := ZOMBIE |>) ;;;
  sched ;;;
  panic "zombie exit".

Definition exit : MK unit :=
  let! me := myproc in
  let! ps := get_p in
  if bool_decide (me = initproc ps) then panic "init exiting"
  else
    let! cur := deref me in
    exit_files cur ;;;
    exit_zombie cur.

(** The scan of [wait]: is there a child, and which is the first child that is a zombie. *)
Definition child_of (cur : nat) (p : proc) : bool := bool_decide (p_parent p = Some cur).
Definition zombie_child (cur : nat) (p : proc) : bool := child_of cur p && bool_decide (p_state p = ZOMBIE).

(** [wait] on a zombie: free what it still has and empty its slot. *)
Definition reap (j : nat) : MK Z :=
  let! p := proc_at j in
  kfree (p_kstack p) ;;;
  set_proc j (fun p => p <| p_kstack := 0 |>) ;;;
  freevm (p_pgdir p) ;;;
  set_proc j (fun p => p <| p_pid := 0 |> <| p_parent := None |> <| p_name := <[0%nat := 0]> (p_name p) |>
                         <| p_killed := 0 |> <| p_state := UNUSED |>) ;;;
  release Lptable ;;;
  ret (p_pid p).

(** One turn of the [for(;;)] of [wait]. *)
Definition wait_turn (cur : nat) : MK (unit + Z) :=
  let! ps := get_p in
  match find_idx (zombie_child cur) (ptable ps) with
  | Some j => let! pid := reap j in ret (inr pid)
  | None =>
      let havekids := match find_idx (child_of cur) (ptable ps) with Some _ => true | None => false end in
      let! c := proc_at cur in
      if negb havekids || negb (p_killed c =? 0) then
        release Lptable ;;;
        ret (inr (-1))
      else
        sleep (Cproc cur) Lptable ;;;
        ret (inl tt)
  end.

Definition wait : MK Z :=
  let! me := myproc in
  let! cur := deref me in
  acquire Lptable ;;;
  loop (Datatypes.S fuel) (fun _ => wait_turn cur) tt.

(** [forkret], where a new process starts. *)
Definition forkret : MK unit :=
  release Lptable ;;;
  let! ps := get_p in
  when (negb (first ps =? 0))
    (upd_p (fun ps => ps <| first := 0 |>) ;;;
     iinit ROOTDEV ;;;
     initlog ROOTDEV).

End proc_life.

(** ** allocproc *)

(** The slot [allocproc] hands out: [pr] was its content, [kstack] its new stack, whose page is [pg]. *)
Definition embryo `{Program} (pr : proc) (pid kstack : Z) (pg : list Z) : proc :=
  let sp := kstack + KSTACKSIZE - sizeof_trapframe in
  pr <| p_state := EMBRYO |> <| p_pid := pid |> <| p_priority := 1 |> <| p_deadline := 0 |> <| p_sched_policy := -1 |>
     <| p_execution_time := 1 |> <| p_elapsed_time := 0 |> <| p_kstack := kstack |>
     <| p_tf := sp |> <| p_tfv := read_tf (Z.to_nat (sp - kstack)) pg |> <| p_ret := trapret_addr |>
     <| p_context := sp - 4 - sizeof_context |> <| p_ctxv := ctx_zero <| ctx_eip := forkret_addr |> |>.

Definition unused (p : proc) : bool := bool_decide (p_state p = UNUSED).

Definition put_proc (i : nat) (pr : proc) (p : procs) : procs := p <| ptable := <[i := pr]> (ptable p) |>.

Lemma put_put_proc i a b p : put_proc i a (put_proc i b p) = put_proc i a p.
Proof. unfold put_proc, set_field; cbn. by rewrite list_insert_insert_eq. Qed.

Lemma put_proc_at i a b p : ptable p !! i = Some b -> ptable (put_proc i a p) !! i = Some a.
Proof. intros Hi. cbn. apply list_lookup_insert_eq. by eapply lookup_lt_Some. Qed.

Lemma wp_set_proc {S} m co p (s : S) i f pr (Q : unit -> world S -> Prop) :
  ptable p !! i = Some pr -> Q tt (W m co (put_proc i (f pr) p) s) -> wp (set_proc i f) Q (W m co p s).
Proof.
  intros Hi HQ. unfold set_proc. kstep. cbn [w_p]. unfold put_proc in HQ. by rewrite <- (alter_is_insert f _ i pr) in HQ.
Qed.

Lemma wp_proc_at {S} m co p (s : S) i pr (Q : proc -> world S -> Prop) :
  ptable p !! i = Some pr -> Q pr (W m co p s) -> wp (proc_at i) Q (W m co p s).
Proof. intros Hi HQ. unfold proc_at. by ksteps. Qed.

Section allocproc.
Context `{Lk : Linker} `{Pr : Program} (m : machine) (co : console) (p : procs) (k : kst).
Context (Hend : 0 < kend) (Hm : idle m) (Hpt : has_lock m Lptable) (Hkm : kmem_free m [] k).

(** The process table with the slot taken. *)
Definition pid_taken (p : procs) : procs := p <| nextpid := s32 (nextpid p + 1) |>.

Lemma wp_allocproc i pr l (Q : option nat -> world kst -> Prop) :
  find_idx unused (ptable p) = Some i -> ptable p !! i = Some pr -> free_pages k l ->
  match l with
  | [] => forall pr', p_state pr' = UNUSED -> Q None (W (held m []) co (put_proc i pr' (pid_taken p)) k)
  | a :: l => forall pg, length pg = Z.to_nat PGSIZE -> free_pages (kalloced pg k) l ->
      Q (Some i) (W (held m []) co (put_proc i (embryo pr (nextpid p) a pg) (pid_taken p)) (kalloced pg k))
  end ->
  wp allocproc Q (W (held m []) co p k).
Proof using Hend Hm Hpt Hkm.
  intros Hi Hpr Hfree HQ. unfold allocproc. kstep. apply wp_acquire; [done|done|not_held|]. ksteps.
  unfold unused in Hi. rewrite Hi. kstep. eapply wp_set_proc; [done|]. ksteps.
  change (put_proc i ?x p <| nextpid := _ |>) with (put_proc i x (pid_taken p)).
  eapply wp_set_proc; [by eapply put_proc_at|]. rewrite put_put_proc. kstep.
  apply wp_release; [done|done|not_held|]. kstep. eapply wp_kalloc; [done..|]. destruct l as [|a l].
  - kstep. eapply wp_set_proc; [by eapply put_proc_at|]. rewrite put_put_proc. change (0 =? 0) with true. cbn match.
    kstep. eapply wp_set_proc; [by eapply put_proc_at|]. rewrite put_put_proc. kstep. by apply HQ.
  - intros pg Hpg Hl. destruct Hfree as ((_ & pg' & Hpg' & Hlen & _) & _ & Hv).
    assert (pg' = pg) as -> by (rewrite Hpg in Hpg'; by injection Hpg').
    apply list.Forall_cons in Hv as [Hva _]. pose proof (valid_page_u32 a Hva) as [_ Hpos].
    kstep. eapply wp_set_proc; [by eapply put_proc_at|]. rewrite put_put_proc.
    rewrite (proj2 (Z.eqb_neq a 0)) by lia. unfold page_at. ksteps.
    do 3 (eapply wp_set_proc; [by eapply put_proc_at|]; rewrite put_put_proc; kstep). by apply HQ.
Qed.

End allocproc.

(** Process ids identify processes: the used slots have distinct ids below [nextpid]. *)
Record pids_ok (p : procs) : Prop := {
  po_range : forall i pr, ptable p !! i = Some pr -> p_state pr ≠ UNUSED -> 0 < p_pid pr < nextpid p;
  po_inj : forall i j a b, ptable p !! i = Some a -> ptable p !! j = Some b -> p_state a ≠ UNUSED -> p_state b ≠ UNUSED ->
    p_pid a = p_pid b -> i = j;
}.

Lemma pids_ok_new p i pr :
  pids_ok p -> 0 < nextpid p < 2147483647 -> p_pid pr = nextpid p -> (i < length (ptable p))%nat ->
  pids_ok (put_proc i pr (pid_taken p)).
Proof.
  intros [Hr Hinj] Hn Hpid Hi.
  assert (Hnext : nextpid (put_proc i pr (pid_taken p)) = nextpid p + 1) by (cbn; apply s32_id; unfold is_s32; lia).
  assert (Hcase : forall j a, ptable (put_proc i pr (pid_taken p)) !! j = Some a ->
    j = i /\ a = pr \/ j ≠ i /\ ptable p !! j = Some a).
  { intros j a Hj. cbn in Hj. destruct (decide (i = j)) as [<-|Hne].
    - rewrite list_lookup_insert_eq in Hj by done. left. by simplify_eq.
    - rewrite list_lookup_insert_ne in Hj by done. by right. }
  split.
  - intros j a Hj Hst. rewrite Hnext. destruct (Hcase j a Hj) as [[-> ->]|[_ Hj']]; [lia|].
    specialize (Hr j a Hj' Hst). lia.
  - intros j j' a b Hj Hj' Ha Hb Heq.
    destruct (Hcase j a Hj) as [[-> ->]|[Hne1 H1]], (Hcase j' b Hj') as [[-> ->]|[Hne2 H2]]; [done| | |by eapply Hinj].
    + specialize (Hr j' b H2 Hb). lia.
    + specialize (Hr j a H1 Ha). lia.
Qed.

(** ** exit *)

(** What [exit] of process [cur] does to another process: [ch] is the channel of the parent of [cur], [init] is
    initproc, and [zk] says that [cur] leaves a child that is a zombie. *)
Definition adopt (cur : nat) (init : option nat) (pr : proc) : proc :=
  if bool_decide (p_parent pr = Some cur) then pr <| p_parent := init |> else pr.
Definition wake_if (b : bool) (ch : option chan) (pr : proc) : proc := if b then wake ch pr else pr.

Lemma wake_adopt ch cur init pr : wake ch (adopt cur init pr) = adopt cur init (wake ch pr).
Proof.
  unfold adopt. replace (p_parent (wake ch pr)) with (p_parent pr) by (unfold wake; by case_match).
  case_bool_decide; [|done]. unfold wake, set_field; cbn. by case_match.
Qed.

Lemma wake_parent ch pr : p_parent (wake ch pr) = p_parent pr.
Proof. unfold wake. by case_match. Qed.

Lemma wake_zombie ch cur pr : zombie_child cur (wake ch pr) = zombie_child cur pr.
Proof.
  unfold zombie_child, child_of. rewrite wake_parent, wake_state. f_equal.
  destruct (bool_decide (p_state pr = SLEEPING)) eqn:E; cbn; [|done]. apply bool_decide_eq_true in E. rewrite E.
  by case_match.
Qed.

Section exit.
Context (cur : nat) (init : option nat).

(** The table after the first [n] turns of the loop. *)
Definition adopted (t : list proc) (n : nat) : list proc :=
  imap (fun j pr => wake_if (existsb (zombie_child cur) (take n t)) (Cproc <$> init)
                      (if decide (j < n)%nat then adopt cur init pr else pr)) t.

Lemma adopted_0 t : adopted t 0 = t.
Proof.
  unfold adopted. apply list_eq. intros j. rewrite list_lookup_imap. destruct (t !! j); done.
Qed.

Lemma wake_if_zombie b ch pr : zombie_child cur (wake_if b ch pr) = zombie_child cur pr.
Proof. destruct b; [apply wake_zombie|done]. Qed.

Lemma wake_if_twice b b' ch pr : wake_if b' ch (wake_if b ch pr) = wake_if (b || b') ch pr.
Proof. destruct b, b'; [apply wake_idemp|done..]. Qed.

(** One turn of the loop. *)
Lemma adopted_S t n pr :
  t !! n = Some pr ->
  adopted t (Datatypes.S n) =
    if zombie_child cur pr
    then wake (Cproc <$> init) <$> alter (adopt cur init) n (adopted t n)
    else alter (adopt cur init) n (adopted t n).
Proof.
  intros Hn. unfold adopted. rewrite (take_S_r _ _ _ Hn), existsb_app. cbn [existsb]. rewrite orb_false_r.
  set (z := existsb _ (take n t)). set (ch := Cproc <$> init).
  assert (Hone : forall j x, t !! j = Some x ->
    wake_if (z || zombie_child cur pr) ch (if decide (j < Datatypes.S n)%nat then adopt cur init x else x) =
    wake_if (zombie_child cur pr) ch
      (if decide (n = j) then adopt cur init (wake_if z ch (if decide (j < n)%nat then adopt cur init x else x))
       else wake_if z ch (if decide (j < n)%nat then adopt cur init x else x))).
  { intros j x Hj. rewrite <- wake_if_twice. f_equal. destruct (decide (n = j)) as [<-|Hne].
    - rewrite decide_True, decide_False by lia. destruct z; cbn; [apply wake_adopt|done].
    - f_equal. destruct (decide (j < Datatypes.S n)%nat), (decide (j < n)%nat); done || lia. }
  apply list_eq. intros j. rewrite list_lookup_imap. destruct (t !! j) as [x|] eqn:Hj.
  - cbn [fmap option_fmap option_map]. rewrite (Hone j x Hj). destruct (zombie_child cur pr); cbn [wake_if];
      rewrite ?list_lookup_fmap, list_lookup_alter; case_decide; subst; by rewrite list_lookup_imap, Hj.
  - assert (Hne : n ≠ j) by congruence.
    destruct (zombie_child cur pr); rewrite ?list_lookup_fmap, list_lookup_alter_ne, list_lookup_imap by done; by rewrite Hj.
Qed.

Lemma wp_reparent m co p (k : kst) (Q : unit -> world kst -> Prop) :
  initproc p = init -> length (ptable p) = NPROC ->
  Q tt (W m co (p <| ptable := adopted (ptable p) NPROC |>) k) -> wp (reparent cur) Q (W m co p k).
Proof.
  intros Hi Hlen HQ. unfold reparent.
  eapply (wp_for_list (fun l w => exists n, (n <= NPROC)%nat /\ l = seq n (NPROC - n) /\
    w = W m co (p <| ptable := adopted (ptable p) n |>) k)).
  - exists 0%nat. split; [lia|]. split; [done|]. rewrite adopted_0. by destruct p.
  - intros j l w (n & Hn & Hl & ->). destruct (NPROC - n)%nat as [|r] eqn:Hr; [done|]. cbn [seq] in Hl.
    injection Hl as -> ->. destruct (lookup_lt_is_Some_2 (ptable p) n) as [pr Hpr]; [lia|].
    assert (Hat : adopted (ptable p) n !! n = Some (wake_if (existsb (zombie_child cur) (take n (ptable p))) (Cproc <$> init) pr)).
    { unfold adopted. rewrite list_lookup_imap, Hpr. cbn. by rewrite decide_False by lia. }
    set (b := existsb _ _) in Hat. set (x := wake_if b (Cproc <$> init) pr) in Hat.
    assert (Hx : zombie_child cur x = zombie_child cur pr) by apply wake_if_zombie.
    kstep. eapply wp_proc_at; [exact Hat|].
    assert (Hdone : adopted (ptable p) (Datatypes.S n) = if zombie_child cur x then wake (Cproc <$> init) <$> alter (adopt cur init) n (adopted (ptable p) n)
      else alter (adopt cur init) n (adopted (ptable p) n)) by (rewrite Hx; by apply adopted_S).
    unfold zombie_child in Hdone. unfold child_of in Hdone.
    assert (Hgoal : forall q, q = p <| ptable := adopted (ptable p) (Datatypes.S n) |> ->
      exists n', (n' <= NPROC)%nat /\ seq (Datatypes.S n) r = seq n' (NPROC - n') /\
        W m co q k = W m co (p <| ptable := adopted (ptable p) n' |>) k).
    { intros q ->. exists (Datatypes.S n). split; [lia|]. split; [|done]. f_equal. lia. }
    rewrite (alter_is_insert _ _ _ _ Hat) in Hdone. unfold adopt in Hdone.
    destruct (bool_decide (p_parent x = Some cur)) eqn:Hc; cbn [andb when] in *.
    + ksteps. eapply wp_set_proc; [exact Hat|]. cbn [initproc ptable set_field].
      change (initproc (p <| ptable := adopted (ptable p) n |>)) with (initproc p). rewrite Hi.
      destruct (bool_decide (p_state x = ZOMBIE)); cbn [when]; [unfold wakeup1|]; ksteps; apply Hgoal; by rewrite Hdone.
    + ksteps. apply Hgoal. by rewrite Hdone, list_insert_id.
  - intros w (n & Hn & Hl & ->). replace n with NPROC; [done|]. destruct (NPROC - n)%nat eqn:E; [lia|done].
Qed.

End exit.

(** What [exit] of process [cur], child of [par], makes of process [j]. *)
Definition after_exit (cur : nat) (par init : option nat) (orphan_zombie : bool) (j : nat) (q : proc) : proc :=
  let q := wake_if orphan_zombie (Cproc <$> init) (adopt cur init (wake (Cproc <$> par) q)) in
  if decide (j = cur) then q <| p_state := ZOMBIE |> else q.

Lemma existsb_fmap {A B} (f : A -> B) (g : B -> bool) (h : A -> bool) l :
  (forall x, g (f x) = h x) -> existsb g (f <$> l) = existsb h l.
Proof. intros E. induction l as [|x l IH]; [done|]. cbn. by rewrite E, <- IH. Qed.

(** The table that [exit] leaves, slot by slot. *)
Lemma exit_table cur par init t :
  (length t <= NPROC)%nat ->
  alter (fun q => q <| p_state := ZOMBIE |>) cur (adopted cur init (wake (Cproc <$> par) <$> t) NPROC) =
  imap (after_exit cur par init (existsb (zombie_child cur) t)) t.
Proof.
  intros Hlen. apply list_eq. intros j.
  assert (Hz : existsb (zombie_child cur) (take NPROC (wake (Cproc <$> par) <$> t)) = existsb (zombie_child cur) t).
  { rewrite take_ge by by rewrite length_fmap. apply existsb_fmap. apply wake_zombie. }
  assert (Hj : adopted cur init (wake (Cproc <$> par) <$> t) NPROC !! j =
    wake_if (existsb (zombie_child cur) t) (Cproc <$> init) ∘ adopt cur init ∘ wake (Cproc <$> par) <$> t !! j).
  { unfold adopted. rewrite list_lookup_imap, list_lookup_fmap, Hz. destruct (t !! j) eqn:E; [|done].
    apply lookup_lt_Some in E. cbn. by rewrite decide_True by lia. }
  rewrite list_lookup_imap. unfold after_exit. destruct (decide (j = cur)) as [<-|Hne].
  - rewrite list_lookup_alter_eq, Hj. by destruct (t !! j).
  - rewrite list_lookup_alter_ne, Hj by done. by destruct (t !! j).
Qed.

Lemma wake_if_keeps b ch pr :
  p_pid (wake_if b ch pr) = p_pid pr /\ p_parent (wake_if b ch pr) = p_parent pr.
Proof. destruct b; [|done]. cbn. unfold wake. by case_match. Qed.

Lemma after_exit_keeps cur par init zk pr :
  p_parent pr ≠ Some cur ->
  let q := wake_if zk (Cproc <$> init) (adopt cur init (wake (Cproc <$> par) pr)) in
  p_pid q = p_pid pr /\ p_parent q = p_parent pr.
Proof.
  intros Hne q. unfold q. destruct (wake_if_keeps zk (Cproc <$> init) (adopt cur init (wake (Cproc <$> par) pr))) as [-> ->].
  unfold adopt. rewrite wake_parent, bool_decide_eq_false_2 by done. apply (wake_if_keeps true).
Qed.

Lemma after_exit_parent cur par init zk j pr :
  init ≠ Some cur -> p_parent (after_exit cur par init zk j pr) ≠ Some cur.
Proof.
  intros Hi. unfold after_exit.
  assert (H : p_parent (wake_if zk (Cproc <$> init) (adopt cur init (wake (Cproc <$> par) pr))) ≠ Some cur).
  { rewrite (proj2 (wake_if_keeps _ _ _)). unfold adopt. by case_bool_decide. }
  by case_decide.
Qed.

Lemma after_exit_wakes cur par init zk j pr :
  j ≠ cur -> p_state pr = SLEEPING -> p_chan pr = Cproc <$> par ->
  p_state (after_exit cur par init zk j pr) = RUNNABLE.
Proof.
  intros Hj Hst Hch. unfold after_exit. rewrite decide_False by done.
  assert (Hw : p_state (wake (Cproc <$> par) pr) = RUNNABLE).
  { rewrite wake_state. by rewrite !bool_decide_eq_true_2. }
  assert (Ha : p_state (adopt cur init (wake (Cproc <$> par) pr)) = RUNNABLE) by (unfold adopt; by case_match).
  destruct zk; cbn; [|done]. rewrite wake_state, Ha. done.
Qed.

(** [exit] from ptable.lock on: the process gives up the CPU as a zombie and cannot come back. *)
Lemma exit_zombie_run m co p (k : kst) me pr :
  idle m -> has_lock m Lptable -> cur m = Some me -> length (ptable p) = NPROC -> ptable p !! me = Some pr ->
  exists kont,
    exit_zombie me (W (held m []) co p k) =
      Swtch (W (held m [Lptable]) co (p <| ptable := imap (after_exit me (p_parent pr) (initproc p)
               (existsb (zombie_child me) (ptable p))) (ptable p) |>) k) kont /\
    forall m' co' p' s', idle m' -> exists w, kont (W (held m' [Lptable]) co' p' s') = Panic "zombie exit" w.
Proof.
  intros Hm Hpt Hcur Hlen Hpr. unfold exit_zombie.
  erewrite bind_Ret by (apply acquire_held; [done..|not_held]).
  erewrite bind_Ret by (unfold proc_at, bind, get_p; cbn; by rewrite Hpr).
  erewrite bind_Ret by reflexivity. cbn [w_m w_c w_p w_s].
  set (t := wake _ <$> ptable p).
  destruct (wp_elim (reparent me) (fun _ w => w = W (held m [Lptable]) co (p <| ptable := adopted me (initproc p) t NPROC |>) k)
    (W (held m [Lptable]) co (p <| ptable := t |>) k)) as (? & ? & Hrun & ->).
  { apply (wp_reparent me (initproc p)); [done|by unfold t; cbn; rewrite length_fmap|done]. }
  erewrite bind_Ret by exact Hrun. erewrite bind_Ret by reflexivity. cbn [w_m w_c w_p w_s].
  pose proof (exit_table me (p_parent pr) (initproc p) (ptable p)) as Htab. fold t in Htab.
  change (_ <| ptable := adopted me (initproc p) t NPROC |> <| ptable := _ |>) with
    (p <| ptable := alter (fun q => q <| p_state := ZOMBIE |>) me (adopted me (initproc p) t NPROC) |>).
  rewrite Htab by lia. erewrite bind_Swtch.
  2:{ eapply (sched_run m co _ k me); [done..| |].
      - cbn. rewrite list_lookup_imap, Hpr. reflexivity.
      - unfold after_exit. by rewrite decide_True. }
  eexists. split; [reflexivity|]. intros m' co' p' s' Hm'. cbn beta. rewrite sched_resume_run by eauto with xv6.
  eexists. reflexivity.
Qed.

(** [sleep] under ptable.lock itself, as [wait] calls it. *)
Lemma sleep_ptable_run {S} m ch co p (s : S) i pr :
  idle m -> has_lock m Lptable -> cur m = Some i -> ptable p !! i = Some pr ->
  exists kont,
    sleep ch Lptable (W (held m [Lptable]) co p s) = Swtch (W (held m [Lptable]) co (asleep i ch p) s) kont /\
    forall m' co' p' s', idle m' ->
      kont (W (held m' [Lptable]) co' p' s') = Ret tt (W (held (m' <| fl_if := fl_if m |>) [Lptable]) co' (awake i p') s').
Proof.
  intros Hm Hpt Hcur Hi. unfold sleep.
  erewrite bind_Ret by (apply myproc_held; eauto with xv6). rewrite Hcur.
  rewrite bool_decide_eq_true_2 by done. cbn [negb when]. erewrite bind_Ret by reflexivity.
  erewrite bind_Ret by reflexivity. erewrite bind_Ret by reflexivity. erewrite bind_Swtch.
  2:{ cbn [w_m w_c w_p w_s]. eapply (sched_run m co _ s i); [done..| |].
      - cbn. rewrite !list_lookup_alter_eq, Hi. reflexivity.
      - done. }
  eexists. split; [reflexivity|]. intros m' co' p' s' Hm'. cbn beta. rewrite sched_resume_run by eauto with xv6. reflexivity.
Qed.

(** ** Properties *)

(** [allocproc] with a free slot and a free page takes the first unused slot, gives the process the next pid,
    the default real-time parameters and a fresh kernel stack whose context returns into forkret; ids stay distinct.
    With no free page it leaves the slot unused and returns 0; with no free slot it changes nothing and returns 0. *)
Theorem allocproc_spec `{Lk : Linker} `{Pr : Program} m co p k l :
  0 < kend -> idle m -> has_lock m Lptable -> kmem_free m [] k -> free_pages k l ->
  pids_ok p -> 0 < nextpid p < 2147483647 ->
  wp allocproc (fun r w => exists p' k', w = W (held m []) co p' k' /\ pids_ok p' /\
    match r with
    | Some i => exists pr a l' pg, find_idx unused (ptable p) = Some i /\ ptable p !! i = Some pr /\ l = a :: l' /\
        p' = put_proc i (embryo pr (nextpid p) a pg) (pid_taken p) /\ free_pages k' l'
    | None => k' = k /\ (l = [] \/ find_idx unused (ptable p) = None /\ p' = p)
    end) (W (held m []) co p k).
Proof.
  intros Hend Hm Hpt Hkm Hfree Hpids Hnext. destruct (find_idx unused (ptable p)) as [i|] eqn:Hi.
  - destruct (lookup_lt_is_Some_2 (ptable p) i) as [pr Hpr]; [by eapply find_idx_lt|].
    eapply wp_allocproc; [done..|]. apply lookup_lt_Some in Hpr as Hlt. destruct l as [|a l].
    + intros pr' Hst. do 2 eexists. split; [done|]. split; [|by split; [|left]].
      destruct (pids_ok_new p i (pr' <| p_pid := nextpid p |>)) as [Hr Hinj]; [done..|].
      assert (Hput : forall j q, ptable (put_proc i pr' (pid_taken p)) !! j = Some q -> p_state q ≠ UNUSED ->
        ptable (put_proc i (pr' <| p_pid := nextpid p |>) (pid_taken p)) !! j = Some q).
      { intros j q Hj Hq. cbn in *. destruct (decide (i = j)) as [<-|Hne].
        - rewrite list_lookup_insert_eq in Hj by done. by simplify_eq.
        - by rewrite list_lookup_insert_ne in Hj |- * by done. }
      split; [intros j q Hj Hq; eapply Hr; eauto|intros j j' q q' Hj Hj' Hq Hq'; eapply Hinj; eauto].
    + intros pg Hlen Hl. do 2 eexists. split; [done|]. split; [by apply pids_ok_new|].
      by exists pr, a, l, pg.
  - unfold allocproc. kstep. apply wp_acquire; [done|done|not_held|]. ksteps. unfold unused in Hi. rewrite Hi. kstep.
    apply wp_release; [done|done|not_held|]. kstep. exists p, k. split_and!; [done..|]. by right.
Qed.

(** C33.  [exit] (from where it takes ptable.lock) gives up the CPU for good: in the table it leaves, every slot is as
    [after_exit] says, the process is a ZOMBIE with its pid and parent kept, no process still has it as parent, a
    parent asleep in [wait] is runnable, and the scan of [wait] in the parent finds a zombie child.  If the
    scheduler ever ran it again the kernel would stop with "zombie exit". *)
Theorem exit_spec m co p (k : kst) me pr :
  idle m -> has_lock m Lptable -> cur m = Some me -> length (ptable p) = NPROC -> ptable p !! me = Some pr ->
  initproc p ≠ Some me -> p_parent pr ≠ Some me ->
  exists p1 kont,
    exit_zombie me (W (held m []) co p k) = Swtch (W (held m [Lptable]) co p1 k) kont /\
    (forall m' co' p' s', idle m' -> exists w, kont (W (held m' [Lptable]) co' p' s') = Panic "zombie exit" w) /\
    p1 = p <| ptable := ptable p1 |> /\
    (forall j q, ptable p !! j = Some q ->
      ptable p1 !! j = Some (after_exit me (p_parent pr) (initproc p) (existsb (zombie_child me) (ptable p)) j q)) /\
    (exists q, ptable p1 !! me = Some q /\ p_state q = ZOMBIE /\ p_pid q = p_pid pr /\ p_parent q = p_parent pr) /\
    (forall j q, ptable p1 !! j = Some q -> p_parent q ≠ Some me) /\
    (forall i q, p_parent pr = Some i -> ptable p !! i = Some q ->
      is_Some (find_idx (zombie_child i) (ptable p1)) /\
      (p_state q = SLEEPING -> p_chan q = Some (Cproc i) -> exists q', ptable p1 !! i = Some q' /\ p_state q' = RUNNABLE)).
Proof.
  intros Hm Hpt Hcur Hlen Hpr Hinit Hself.
  destruct (exit_zombie_run m co p k me pr) as (kont & Hrun & Hk); [done..|].
  set (zk := existsb _ _) in *.
  assert (Htab : forall j q, ptable p !! j = Some q ->
    imap (after_exit me (p_parent pr) (initproc p) zk) (ptable p) !! j = Some (after_exit me (p_parent pr) (initproc p) zk j q)).
  { intros j q Hj. by rewrite list_lookup_imap, Hj. }
  eexists _, kont. split; [exact Hrun|]. split; [exact Hk|]. cbn [ptable set_field]. split; [done|]. split; [exact Htab|].
  assert (Hme : exists q, imap (after_exit me (p_parent pr) (initproc p) zk) (ptable p) !! me = Some q /\
    p_state q = ZOMBIE /\ p_pid q = p_pid pr /\ p_parent q = p_parent pr).
  { eexists. split; [by apply Htab|]. unfold after_exit. rewrite decide_True by done. split; [done|].
    by apply after_exit_keeps. }
  split; [exact Hme|]. split.
  - intros j q Hj. rewrite list_lookup_imap in Hj. destruct (ptable p !! j); [|done]. injection Hj as <-.
    by apply after_exit_parent.
  - intros i q Hi Hq. split.
    + destruct (find_idx _ _) eqn:Hf; [done|]. destruct Hme as (z & Hz & Hst & _ & Hpar).
      pose proof (proj1 (find_idx_None _ _) Hf me z Hz) as Hno. unfold zombie_child, child_of in Hno.
      rewrite Hpar, Hst, Hi, !bool_decide_eq_true_2 in Hno by done. done.
    + intros Hst Hch. eexists. split; [by apply Htab|]. apply after_exit_wakes; [congruence|done|by rewrite Hi, Hch].
Qed.

(** [wait] of a process none of whose children is a zombie: with no child, or when killed, it returns -1 and
    changes nothing; otherwise it sleeps on its own slot, giving up the CPU without ever having released
    ptable.lock since the scan, so the exit of a child cannot fall between the scan and the sleep; scheduled again,
    whatever happened meanwhile, it scans again. *)
Theorem wait_spec `{Lk : Linker} `{Fu : Fuel} m co p k me pr :
  idle m -> has_lock m Lptable -> cur m = Some me -> ptable p !! me = Some pr ->
  find_idx (zombie_child me) (ptable p) = None ->
  if decide (find_idx (child_of me) (ptable p) = None \/ p_killed pr ≠ 0)
  then wait (W (held m []) co p k) = Ret (-1) (W (held m []) co p k)
  else exists kont,
    wait (W (held m []) co p k) = Swtch (W (held m [Lptable]) co (asleep me (Cproc me) p) k) kont /\
    forall m' co' p' k', idle m' ->
      kont (W (held m' [Lptable]) co' p' k') =
      loop fuel (fun _ => wait_turn me) tt (W (held (m' <| fl_if := fl_if m |>) [Lptable]) co' (awake me p') k').
Proof.
  intros Hm Hpt Hcur Hpr Hz.
  assert (Hpre : forall r, loop (Datatypes.S fuel) (fun _ => wait_turn me) tt (W (held m [Lptable]) co p k) = r ->
    wait (W (held m []) co p k) = r).
  { intros r <-. unfold wait. erewrite bind_Ret by (apply myproc_held; eauto with xv6). rewrite Hcur.
    erewrite bind_Ret by reflexivity. by erewrite bind_Ret by (apply acquire_held; [done..|not_held]). }
  assert (Hturn : wait_turn me (W (held m [Lptable]) co p k) =
    if decide (find_idx (child_of me) (ptable p) = None \/ p_killed pr ≠ 0)
    then Ret (inr (-1)) (W (held m []) co p k)
    else (sleep (Cproc me) Lptable ;;; ret (inl tt)) (W (held m [Lptable]) co p k)).
  { unfold wait_turn. erewrite bind_Ret by reflexivity. cbn [w_p]. rewrite Hz.
    erewrite bind_Ret by (unfold proc_at, bind, get_p; cbn; by rewrite Hpr).
    destruct (find_idx (child_of me) (ptable p)), (Z.eqb_spec (p_killed pr) 0) as [E|E]; cbn [negb orb].
    1: rewrite decide_False by naive_solver; done.
    all: rewrite decide_True by naive_solver; by erewrite bind_Ret by (apply release_last; [done..|not_held]). }
  case_decide as Hd.
  - apply Hpre. cbn [loop]. by erewrite bind_Ret by exact Hturn.
  - destruct (sleep_ptable_run m (Cproc me) co p k me pr) as (kont & Hrun & Hk); [done..|].
    eexists. split.
    + apply Hpre. eapply loop_Swtch. rewrite Hturn. by apply bind_Swtch.
    + intros m' co' p' k' Hm'. cbn beta. by rewrite Hk.
Qed.

(** ** Examples *)

(** Process 1, a child of process 2, with process 3 as its child; process 2 sleeps in [wait]; 63 is initproc. *)
Definition ex_family : procs :=
  let ps := ex_procs 0 in
  ps <| ptable := alter (fun p => p <| p_parent := Some 2%nat |>) 1%nat
                   (alter (fun p => p <| p_state := SLEEPING |> <| p_chan := Some (Cproc 2) |>) 2%nat
                   (alter (fun p => p <| p_parent := Some 1%nat |>) 3%nat (ptable ps))) |> <| initproc := Some 63%nat |>.

Definition ex_program : Program := {| trapret_addr := 0x80105A00; forkret_addr := 0x80103A00; initcode := [] |}.

Lemma ex_pids_ok : pids_ok (ex_procs 0).
Proof.
  assert (Hcase : forall i pr, ptable (ex_procs 0) !! i = Some pr -> p_state pr ≠ UNUSED ->
    (i, p_pid pr) ∈ [(1%nat, 4); (2%nat, 5); (3%nat, 3)]).
  { intros i pr Hi Hst. do 4 (destruct i as [|i]; [injection Hi as <-; done || set_solver|]).
    cbn in Hi. apply (lookup_replicate_1 60) in Hi as [-> _]. done. }
  split.
  - intros i pr Hi Hst. specialize (Hcase i pr Hi Hst). cbn. set_solver by lia.
  - intros i j a b Hi Hj Ha Hb He. pose proof (Hcase i a Hi Ha). pose proof (Hcase j b Hj Hb).
    repeat match goal with H : _ ∈ _ :: _ |- _ => apply elem_of_cons in H as [?|H] | H : _ ∈ [] |- _ => by apply not_elem_of_nil in H end;
      simplify_eq; congruence.
Qed.

Lemma allocproc_spec_witness :
  exists p' k' a, @allocproc ex_program (W (held ex_machine []) ex_console (ex_procs 0) ex_kmem) =
    Ret (Some a) (W (held ex_machine []) ex_console p' k') /\ pids_ok p'.
Proof.
  destruct (wp_elim _ _ _ (@allocproc_spec ex_end ex_program ex_machine ex_console (ex_procs 0) ex_kmem [0x80400000]
    ltac:(done) (run_idle _ _ _ _ (ex_running 0)) ltac:(eapply ready_lock; [apply (run_locks _ _ _ _ (ex_running 0))|set_solver])
    ex_kmem_free ex_free_pages ex_pids_ok ltac:(done))) as (r & w & Hrun & p' & k' & -> & Hok & Hr).
  destruct r as [i|]; [exists p', k', i; exact (conj Hrun Hok)|].
  destruct Hr as [_ [Hr|[Hr _]]]; [discriminate|]. vm_compute in Hr. discriminate.
Defined.

Lemma exit_spec_witness :
  exists p1 kont q, exit_zombie 1 (W (held ex_machine []) ex_console ex_family kst0) =
    Swtch (W (held ex_machine [Lptable]) ex_console p1 kst0) kont /\
    ptable p1 !! 2%nat = Some q /\ p_state q = RUNNABLE.
Proof.
  destruct (exit_spec ex_machine ex_console ex_family kst0 1
    (ex_proc 4 0 18 3 <| p_parent := Some 2%nat |>)) as (p1 & kont & Hrun & _ & _ & _ & _ & _ & Hpar);
    [apply (ex_running 0)|eapply ready_lock; [apply (run_locks _ _ _ _ (ex_running 0))|set_solver]|done..|].
  destruct (Hpar 2%nat (ex_proc 5 0 12 2 <| p_state := SLEEPING |> <| p_chan := Some (Cproc 2) |>)) as [_ Hw]; [done..|].
  destruct Hw as (q & Hq & Hst); [done..|]. exists p1, kont, q. exact (conj Hrun (conj Hq Hst)).
Defined.

Lemma wait_spec_witness :
  exists kont, @wait ex_end 5%nat (W (held ex_machine []) ex_console ex_family kst0) =
    Swtch (W (held ex_machine [Lptable]) ex_console (asleep 1 (Cproc 1) ex_family) kst0) kont.
Proof.
  pose proof (@wait_spec ex_end 5%nat ex_machine ex_console ex_family kst0 1
    (ex_proc 4 0 18 3 <| p_parent := Some 2%nat |>)) as Hw.
  rewrite decide_False in Hw by (intros [He|He]; vm_compute in He; done).
  destruct Hw as (kont & Hrun & _);
    [apply (ex_running 0)|eapply ready_lock; [apply (run_locks _ _ _ _ (ex_running 0))|set_solver]|done..|].
  exists kont. exact Hrun.
Defined.
