(* ===== verification/Umem.v ===== *)
(** * User memory (vm.c, and the processor's address translation)

    The kernel runs on the page table of the process that called it, so it reads and writes user memory by
    its user address.  [load8] and [store8] are the processor's translation through the directory in cr3; an address with
    no entry faults.  [user_byte] reads an address space as a partial map from addresses to bytes; the theorems show
    that [copyout] and the stores of system calls change exactly the bytes they name. *)

From S2P Require Import Prelude Kstate Spinlock Cprintf Proc Kdata Sleeplock Kalloc Bio Vm.
From stdpp Require Import gmap strings list fin_maps.
Open Scope Z_scope.

(** ** User memory *)

(** The entry the processor finds for [va]; [cr3] holds the physical address of the directory. *)
Definition translate (va : Z) : MK Z :=
  let! m := get_m in
  let! k := get_s in
  deref (mapping k (P2V (cr3 m)) va).

Definition load8 (va : Z) : MK Z :=
  let! e := translate va in
  let! pg := page_at (P2V (PTE_ADDR e)) in
  deref (pg !! Z.to_nat (va mod PGSIZE)).

(** With the write protect bit of cr0 set, as entry.S does, a store needs [PTE_W] in kernel mode too. *)
Definition store8 (va c : Z) : MK unit :=
  let! e := translate va in
  if has_flag e PTE_W then
    let! pg := page_at (P2V (PTE_ADDR e)) in
    set_page (P2V (PTE_ADDR e)) (<[Z.to_nat (va mod PGSIZE) := c]> pg)
  else undef.

Fixpoint load_bytes (va : Z) (n : nat) : MK (list Z) :=
  match n with
  | O => ret []
  | S n => let! c := load8 va in let! cs := load_bytes (u32 (va + 1)) n in ret (c :: cs)
  end.

Fixpoint store_bytes (va : Z) (bs : list Z) : MK unit :=
  match bs with
  | [] => ret tt
  | c :: bs => store8 va c ;;; store_bytes (u32 (va + 1)) bs
  end.

Definition load32 (va : Z) : MK Z := let! bs := load_bytes va 4 in ret (le_Z bs).
Definition store32 (va v : Z) : MK unit := store_bytes va (le_bytes 4 v).
Definition store16 (va v : Z) : MK unit := store_bytes va (le_bytes 2 v).

(** ** User memory as a map *)

(** The byte at user address [va] under the directory [pgdir]. *)
Definition user_byte (k : kst) (pgdir va : Z) : option Z :=
  e ← mapping k pgdir va;
  pg ← k_mem k !! P2V (PTE_ADDR e);
  pg !! Z.to_nat (va mod PGSIZE).

(** The bytes at [va]. *)
Definition user_bytes (k : kst) (pgdir va : Z) (bs : list Z) : Prop :=
  forall i c, bs !! i = Some c -> user_byte k pgdir (va + Z.of_nat i) = Some c.

(** [mem_range va n] reads the [n] bytes of a range that is mapped. *)
Lemma user_bytes_cons k pgdir va c bs :
  user_byte k pgdir va = Some c -> user_bytes k pgdir (va + 1) bs -> user_bytes k pgdir va (c :: bs).
Proof.
  intros Hc Hbs [|i] x; cbn [lookup list_lookup].
  - intros [= <-]. by rewrite Z.add_0_r.
  - intros Hi. rewrite <- (Hbs i x Hi). f_equal. lia.
Qed.

Lemma cr3_held m H : cr3 (held m H) = cr3 m.
Proof. unfold held, pushed. by repeat case_match. Qed.


(** ** Address spaces *)

Section uspace.
Context `{Lk : Linker}.
Hypothesis kend_pos : 0 < kend.

(** The tables of [pgdir] are well formed, and the pages that the user part maps are pages of memory, each
    mapped once, and none of them a table. *)
Record uspace (k : kst) (pgdir : Z) : Prop := {
  us_wf : pt_wf k pgdir [];
  us_page : forall va e, 0 <= va < KERNBASE -> mapping k pgdir va = Some e ->
    exists pg, k_mem k !! P2V (PTE_ADDR e) = Some pg /\ length pg = Z.to_nat PGSIZE;
  us_notab : forall va e, 0 <= va < KERNBASE -> mapping k pgdir va = Some e ->
    P2V (PTE_ADDR e) ≠ pgdir /\ forall d, 0 <= d < 1024 -> ptab k pgdir d ≠ Some (P2V (PTE_ADDR e));
  us_inj : forall va va' e e', 0 <= va < KERNBASE -> 0 <= va' < KERNBASE ->
    mapping k pgdir va = Some e -> mapping k pgdir va' = Some e' -> P2V (PTE_ADDR e) = P2V (PTE_ADDR e') -> same_page va va';
}.

Definition put_page (a : Z) (pg : list Z) (k : kst) : kst := k <| k_mem := <[a := pg]> (k_mem k) |>.

(** Writing a page that [va] is mapped to changes the bytes of that user page only. *)
Lemma put_page_spec k pgdir va e pg :
  uspace k pgdir -> 0 <= va < KERNBASE -> mapping k pgdir va = Some e -> length pg = Z.to_nat PGSIZE ->
  let k' := put_page (P2V (PTE_ADDR e)) pg k in
  uspace k' pgdir /\ (forall x, mapping k' pgdir x = mapping k pgdir x) /\
  forall x, 0 <= x < KERNBASE ->
    user_byte k' pgdir x = if decide (same_page va x) then pg !! Z.to_nat (x mod PGSIZE) else user_byte k pgdir x.
Proof using kend_pos.
  intros [Hwf Hpage Hnt Hinj] Hva He Hlen k'. destruct (Hnt va e Hva He) as [Hdir Htab].
  set (a := P2V (PTE_ADDR e)) in *.
  assert (Hptab : forall d, ptab k' pgdir d = ptab k pgdir d).
  { intros d. unfold ptab, k', put_page. cbn. by rewrite lookup_insert_ne. }
  assert (Hmap : forall x, mapping k' pgdir x = mapping k pgdir x).
  { intros x. unfold mapping, pte_of. rewrite Hptab. destruct (ptab k pgdir (PDX x)) as [t|] eqn:Ht; [|done].
    cbn [mbind option_bind]. unfold k', put_page. cbn [k_mem set_field]. rewrite lookup_insert_ne; [done|].
    intros ->. by apply (Htab (PDX x) (PDX_range x)). }
  split; [|split; [done|]].
  - split.
    + destruct Hwf as [H1 H2 H3]. split.
      * by apply is_table_insert.
      * intros d t Hd. rewrite Hptab. intros Ht. destruct (H2 d t Hd Ht) as [Hit Hne]. split; [|done]. by apply is_table_insert.
      * intros d d' t Hd Hd'. rewrite !Hptab. by apply H3.
    + intros x e' Hx. rewrite Hmap. intros He'. destruct (Hpage x e' Hx He') as (pg' & Hpg' & Hl').
      unfold k', put_page. cbn. destruct (decide (a = P2V (PTE_ADDR e'))) as [->|Hne].
      * exists pg. by rewrite lookup_insert_eq.
      * exists pg'. by rewrite lookup_insert_ne.
    + intros x e' Hx. rewrite Hmap. intros He'. destruct (Hnt x e' Hx He') as [H1 H2]. split; [done|].
      intros d Hd. rewrite Hptab. by apply H2.
    + intros x x' e1 e2 Hx Hx'. rewrite !Hmap. by apply Hinj.
  - intros x Hx. unfold user_byte. rewrite Hmap. case_decide as Hs.
    + assert (mapping k pgdir x = Some e) as ->.
      { rewrite <- He. destruct Hs as [H1 H2]. unfold mapping, pte_of. by rewrite <- H1, <- H2. }
      cbn [mbind option_bind]. unfold k', put_page. cbn [k_mem set_field]. fold a. by rewrite lookup_insert_eq.
    + destruct (mapping k pgdir x) as [e'|] eqn:He'; [|done]. cbn [mbind option_bind].
      unfold k', put_page. cbn [k_mem set_field]. rewrite lookup_insert_ne; [done|].
      intros Heq. apply Hs. by apply (Hinj va x e e').
Qed.

(** [k'] is [k] with the bytes [bs] stored at user address [va] of [pgdir]. *)
Record stored (pgdir va : Z) (bs : list Z) (k k' : kst) : Prop := {
  sd_uspace : uspace k' pgdir;
  sd_map : forall x, mapping k' pgdir x = mapping k pgdir x;
  sd_bytes : forall x, 0 <= x < KERNBASE -> user_byte k' pgdir x =
    if decide (va <= x < va + Z.of_nat (length bs)) then bs !! Z.to_nat (x - va) else user_byte k pgdir x;
  sd_frame : k' = k <| k_mem := k_mem k' |>;
}.

Lemma stored_nil k pgdir va : uspace k pgdir -> stored pgdir va [] k k.
Proof. intros Hu. split; [done|done| |by destruct k]. intros x Hx. rewrite decide_False by (cbn; lia). done. Qed.

Lemma stored_app k k1 k2 pgdir va bs bs' :
  stored pgdir va bs k k1 -> stored pgdir (va + Z.of_nat (length bs)) bs' k1 k2 -> stored pgdir va (bs ++ bs') k k2.
Proof.
  intros [U1 M1 B1 F1] [U2 M2 B2 F2]. split; [done|by intros; rewrite M2, M1| |].
  - intros x Hx. rewrite B2 by done. rewrite length_app. repeat case_decide; try lia.
    + rewrite lookup_app_r by lia. f_equal. lia.
    + rewrite B1, decide_True by (done || lia). symmetry. apply lookup_app_l. lia.
    + rewrite B1, decide_False by (done || lia). done.
  - rewrite F2, F1 at 1. done.
Qed.

(** Storing part of one page. *)
Lemma stored_page k pgdir va e pg bs :
  uspace k pgdir -> 0 <= va < KERNBASE -> mapping k pgdir va = Some e -> k_mem k !! P2V (PTE_ADDR e) = Some pg ->
  va mod PGSIZE + Z.of_nat (length bs) <= PGSIZE ->
  stored pgdir va bs k (put_page (P2V (PTE_ADDR e)) (wr (Z.to_nat (va mod PGSIZE)) bs pg) k).
Proof using kend_pos.
  intros Hu Hva He Hpg Hfit. destruct (us_page _ _ Hu va e Hva He) as (pg' & Hpg' & Hlen).
  rewrite Hpg in Hpg'. injection Hpg' as <-.
  pose proof (Z.mod_pos_bound va PGSIZE ltac:(done)) as Hm.
  destruct (put_page_spec k pgdir va e (wr (Z.to_nat (va mod PGSIZE)) bs pg)) as (H1 & H2 & H3);
    [done..|by rewrite length_wr|]. split; [done|done| |done].
  intros x Hx. rewrite H3 by done. unfold PGSIZE, KERNBASE in *.
  pose proof (Z.mod_le va 4096 ltac:(lia) ltac:(lia)) as Hle.
  assert (Hround : forall y, same_page va y <-> same_page (va - va mod 4096) y).
  { intros y. assert (same_page (va - va mod 4096) va) as Hs.
    - apply same_page_spec; [lia|lia| |lia]. rewrite Zminus_mod_idemp_r. by rewrite Z.sub_diag.
    - unfold same_page in *. destruct Hs as [-> ->]. done. }
  assert (Hal : (va - va mod 4096) mod 4096 = 0) by (by rewrite Zminus_mod_idemp_r, Z.sub_diag).
  case_decide as Hs.
  - apply Hround, same_page_spec in Hs; [|lia..|done].
    assert (Hxm : x mod 4096 = x - (va - va mod 4096)).
    { replace x with ((x - (va - va mod 4096)) + (va - va mod 4096)) at 1 by lia.
      rewrite Z.add_mod, Hal, Z.add_0_r, Z.mod_mod by lia. apply Z.mod_small. lia. }
    rewrite lookup_wr by lia. case_decide as Hin; case_decide as Hin'; try lia.
    + f_equal. lia.
    + unfold user_byte. assert (mapping k pgdir x = Some e) as ->.
      { rewrite <- He. assert (same_page va x) as [E1 E2] by (apply Hround, same_page_spec; [lia..|done|lia]).
        unfold mapping, pte_of. by rewrite <- E1, <- E2. }
      cbn [mbind option_bind]. rewrite Hpg. done.
  - rewrite decide_False; [done|]. intros Hin. apply Hs, Hround, same_page_spec; [lia..|done|lia].
Qed.

(** ** copyout *)

(** A lookup with [walkpgdir] that does not allocate. *)
Lemma wp_walk m co p k pgdir va v (Q : Z -> world kst -> Prop) :
  pt_wf k pgdir [] -> pte_of k pgdir va = Some v ->
  (forall t pt, valid_page t -> k_mem k !! t = Some pt -> get32 (Z.to_nat (4 * PTX va)) pt = v ->
    Q (u32 (t + 4 * PTX va)) (W m co p k)) ->
  wp (walkpgdir pgdir va false) Q (W m co p k).
Proof using kend_pos.
  intros Hwf (t & Ht & (pt & Hpt & [= Hv])%bind_Some)%bind_Some HQ.
  destruct (pw_tab _ _ _ Hwf _ _ (PDX_range va) Ht) as [(Htv & _) _].
  destruct (pw_dir _ _ _ Hwf) as (Hdv & _ & pd & Hpd & _).
  unfold ptab in Ht. rewrite Hpd in Ht. cbn [mbind option_bind] in Ht.
  destruct (has_flag (get32 (Z.to_nat (4 * PDX va)) pd) PTE_P) eqn:Hp; [|done]. injection Ht as <-.
  unfold walkpgdir. kstep. eapply (wp_word_at _ _ _ _ k pgdir pd); [done|done|done|apply PDX_range|]. cbn beta. rewrite Hp.
  kstep. by eapply HQ.
Qed.

Lemma wp_uva2ka m co p k pgdir va e (Q : Z -> world kst -> Prop) :
  pt_wf k pgdir [] -> mapping k pgdir va = Some e -> has_flag e PTE_U = true ->
  Q (P2V (PTE_ADDR e)) (W m co p k) -> wp (uva2ka pgdir va) Q (W m co p k).
Proof using kend_pos.
  intros Hwf (v & Hv & Hm)%bind_Some Hu HQ. destruct (has_flag v PTE_P) eqn:Hp; [|done]. injection Hm as ->.
  unfold uva2ka. kstep. eapply wp_walk; [done..|]. intros t pt Ht Hpt Hg. kstep.
  eapply (wp_word_at _ _ _ _ k t pt); [done|done|done|apply PTX_range|]. cbn beta. rewrite Hg, Hp, Hu. cbn [negb]. by kstep.
Qed.

(** Every byte of the range is mapped for the user. *)
Definition user_range (k : kst) (pgdir va n : Z) : Prop :=
  0 <= va /\ va + n <= KERNBASE /\
  forall x, va <= x < va + n -> exists e, mapping k pgdir x = Some e /\ has_flag e PTE_U = true /\ P2V (PTE_ADDR e) ≠ 0.

Lemma user_range_stored k k' pgdir va n va' bs :
  stored pgdir va' bs k k' -> user_range k pgdir va n -> user_range k' pgdir va n.
Proof. intros Hs (H0 & H1 & H2). split; [done|]. split; [done|]. intros x Hx. rewrite (sd_map _ _ _ _ _ Hs). by apply H2. Qed.

Lemma user_range_drop k pgdir va n i :
  user_range k pgdir va n -> 0 <= i <= n -> user_range k pgdir (va + i) (n - i).
Proof. intros (H0 & H1 & H2) Hi. split; [lia|]. split; [lia|]. intros x Hx. apply H2. lia. Qed.

Lemma round_same va : 0 <= va < KERNBASE -> same_page (PGROUNDDOWN va) va.
Proof.
  intros Hva. rewrite PGROUNDDOWN_spec. unfold PGSIZE, KERNBASE in *. pose proof (Z.mod_pos_bound va 4096).
  pose proof (Z.mod_le va 4096 ltac:(lia) ltac:(lia)). apply same_page_spec; [lia|lia| |lia].
  by rewrite Zminus_mod_idemp_r, Z.sub_diag.
Qed.

Lemma wp_copyout_turn m co p k pgdir va c b (Q : (Z * list Z) + Z -> world kst -> Prop) :
  let buf := c :: b in
  uspace k pgdir -> user_range k pgdir va (Z.of_nat (length buf)) ->
  (forall k' n, stored pgdir va (take n buf) k k' ->
    Z.of_nat n = Z.min (PGSIZE - va mod PGSIZE) (Z.of_nat (length buf)) ->
    Q (inl (PGROUNDDOWN va + PGSIZE, drop n buf)) (W m co p k')) ->
  wp (copyout_turn pgdir (va, buf)) Q (W m co p k).
Proof using kend_pos.
  intros buf Hu (H0 & H1 & H2) HQ. pose proof (Z.mod_pos_bound va PGSIZE ltac:(done)) as Hm.
  pose proof (Z.mod_le va PGSIZE ltac:(lia) ltac:(done)) as Hle.
  assert (0 < Z.of_nat (length buf)) as Hlen by (cbn; lia).
  destruct (H2 va) as (e & He & Heu & Hnz); [lia|]. assert (Hva : 0 <= va < KERNBASE) by lia.
  assert (Hva0 : va - PGROUNDDOWN va = va mod PGSIZE) by (rewrite PGROUNDDOWN_spec; lia).
  assert (He0 : mapping k pgdir (PGROUNDDOWN va) = Some e).
  { rewrite <- He. symmetry. apply mapping_same. by apply round_same. }
  destruct (us_page _ _ Hu va e Hva He) as (pg & Hpg & Hpl).
  unfold copyout_turn, page_at, set_page. fold buf. change (match buf with [] => ret (inr 0) | _ :: _ => ?g end) with g.
  kstep. eapply wp_uva2ka; [apply Hu|exact He0|done|]. rewrite (proj2 (Z.eqb_neq _ 0)) by done. ksteps. rewrite Hva0.
  replace (u32 (PGROUNDDOWN va + PGSIZE)) with (PGROUNDDOWN va + PGSIZE).
  2:{ symmetry. apply u32_id. unfold is_u32, PGSIZE, KERNBASE in *. lia. }
  eapply (HQ (put_page _ _ k)); [|lia]. apply stored_page; [done..|]. rewrite length_take. lia.
Qed.

Lemma page_end_aligned va : (PGROUNDDOWN va + PGSIZE) mod PGSIZE = 0.
Proof.
  rewrite PGROUNDDOWN_spec. unfold PGSIZE. replace (va - va mod 4096 + 4096) with ((va / 4096 + 1) * 4096).
  - by apply Z.mod_mul.
  - pose proof (Z.div_mod va 4096). lia.
Qed.

Lemma wp_copyout_loop m co p pgdir n : forall k va buf (Q : Z -> world kst -> Prop),
  uspace k pgdir -> user_range k pgdir va (Z.of_nat (length buf)) ->
  va mod PGSIZE + Z.of_nat (length buf) <= PGSIZE * (Z.of_nat n - 1) ->
  (forall k', stored pgdir va buf k k' -> Q 0 (W m co p k')) ->
  wp (loop n (copyout_turn pgdir) (va, buf)) Q (W m co p k).
Proof using kend_pos.
  induction n as [|n IH]; intros k va buf Q Hu Hr Hfuel HQ; pose proof (Z.mod_pos_bound va PGSIZE ltac:(done)) as Hm;
    [unfold PGSIZE in *; lia|]. cbn [loop]. destruct buf as [|c b]; [ksteps; apply HQ; by apply stored_nil|].
  set (buf := c :: b) in *. kstep. apply wp_copyout_turn; [done..|]. fold buf. intros k1 j Hst Hj.
  assert (Hlj : length (take j buf) = j) by (rewrite length_take; lia).
  destruct (decide (Z.of_nat (length buf) <= PGSIZE - va mod PGSIZE)) as [Hlast|Hmore].
  - assert (drop j buf = []) as -> by (apply drop_ge; lia). assert (take j buf = buf) as Htk by (apply take_ge; lia).
    rewrite Htk in Hst. destruct n as [|n]; [cbn in Hfuel; unfold PGSIZE in *; lia|]. cbn [loop]. ksteps. by apply HQ.
  - assert (Hnext : PGROUNDDOWN va + PGSIZE = va + Z.of_nat j) by (rewrite PGROUNDDOWN_spec; lia).
    eapply IH; [apply Hst| | |].
    + eapply user_range_stored; [exact Hst|]. rewrite Hnext, length_drop.
      replace (Z.of_nat (length buf - j)) with (Z.of_nat (length buf) - Z.of_nat j) by lia.
      apply user_range_drop; [done|lia].
    + rewrite page_end_aligned, length_drop. unfold PGSIZE in *. lia.
    + intros k' Hk'. apply HQ. rewrite <- (take_drop j buf). eapply stored_app; [exact Hst|]. rewrite Hlj, <- Hnext. done.
Qed.

Lemma wp_copyout m co p k pgdir va buf (Q : Z -> world kst -> Prop) :
  uspace k pgdir -> user_range k pgdir va (Z.of_nat (length buf)) ->
  (forall k', stored pgdir va buf k k' -> Q 0 (W m co p k')) ->
  wp (copyout pgdir va buf) Q (W m co p k).
Proof using kend_pos.
  intros Hu Hr HQ. apply wp_copyout_loop; [done..| |done].
  pose proof (Z.mod_pos_bound va PGSIZE ltac:(done)) as Hm. unfold PGSIZE in *. change (Z.to_nat 4096) with 4096%nat.
  pose proof (Nat.div_mod_eq (length buf) 4096). pose proof (Nat.mod_upper_bound (length buf) 4096). lia.
Qed.

(** ** Stores by user address *)

(** Every byte of the range can be written. *)
Definition write_range (k : kst) (pgdir va n : Z) : Prop :=
  0 <= va /\ va + n <= KERNBASE /\
  forall x, va <= x < va + n -> exists e, mapping k pgdir x = Some e /\ has_flag e PTE_W = true.

Lemma wp_store8 m co p k va c (Q : unit -> world kst -> Prop) :
  let pgdir := P2V (cr3 m) in
  uspace k pgdir -> write_range k pgdir va 1 ->
  (forall k', stored pgdir va [c] k k' -> Q tt (W m co p k')) -> wp (store8 va c) Q (W m co p k).
Proof using kend_pos.
  intros pgdir Hu (H0 & H1 & H2) HQ. destruct (H2 va) as (e & He & Hw); [lia|]. assert (Hva : 0 <= va < KERNBASE) by lia.
  destruct (us_page _ _ Hu va e Hva He) as (pg & Hpg & Hpl). pose proof (Z.mod_pos_bound va PGSIZE ltac:(done)) as Hm.
  unfold store8, translate, page_at, set_page. ksteps. rewrite Hw. ksteps.
  replace (<[Z.to_nat (va mod PGSIZE) := c]> pg) with (wr (Z.to_nat (va mod PGSIZE)) [c] pg).
  - apply (HQ (put_page _ _ k)). apply stored_page; [done..|cbn; lia].
  - symmetry. apply insert_wr. unfold PGSIZE in *. lia.
Qed.

Lemma wp_store_bytes m co p bs : forall k va (Q : unit -> world kst -> Prop),
  uspace k (P2V (cr3 m)) -> write_range k (P2V (cr3 m)) va (Z.of_nat (length bs)) ->
  (forall k', stored (P2V (cr3 m)) va bs k k' -> Q tt (W m co p k')) -> wp (store_bytes va bs) Q (W m co p k).
Proof using kend_pos.
  induction bs as [|c bs IH]; intros k va Q Hu (H0 & H1 & H2) HQ; cbn [store_bytes length] in *.
  - kstep. apply HQ. by apply stored_nil.
  - kstep. apply wp_store8; [done|split; [done|split; [lia|]]; intros x Hx; apply H2; lia|].
    intros k1 Hst. rewrite u32_id by (unfold is_u32, KERNBASE in *; lia). apply IH; [apply Hst| |].
    + split; [lia|]. split; [lia|]. intros x Hx. rewrite (sd_map _ _ _ _ _ Hst). apply H2. lia.
    + intros k' Hk'. apply HQ. change (c :: bs) with ([c] ++ bs). by eapply stored_app.
Qed.

End uspace.

(** User memory is part of the page memory alone. *)
Section same_mem.
Context (k k' : kst) (Hmem : k_mem k' = k_mem k).

Lemma ptab_mem pgdir d : ptab k' pgdir d = ptab k pgdir d.
Proof using Hmem. unfold ptab. by rewrite Hmem. Qed.

Lemma mapping_mem pgdir va : mapping k' pgdir va = mapping k pgdir va.
Proof using Hmem. unfold mapping, pte_of. by rewrite ptab_mem, Hmem. Qed.

Lemma user_byte_mem pgdir va : user_byte k' pgdir va = user_byte k pgdir va.
Proof using Hmem. unfold user_byte. by rewrite mapping_mem, Hmem. Qed.

Lemma uspace_mem `{Lk : Linker} pgdir : uspace k pgdir -> uspace k' pgdir.
Proof using Hmem.
  intros [[H1 H2 H3] H4 H5 H6]. unfold is_table in *. split; [split|..].
  - unfold is_table. by rewrite Hmem.
  - intros d t Hd. rewrite ptab_mem. unfold is_table. rewrite Hmem. by apply H2.
  - intros d d' t Hd Hd'. rewrite !ptab_mem. by apply H3.
  - intros va e Hva. rewrite mapping_mem, Hmem. by apply H4.
  - intros va e Hva. rewrite mapping_mem. intros He. destruct (H5 va e Hva He) as [A B]. split; [done|]. intros d Hd. rewrite ptab_mem. by apply B.
  - intros va va' e e' Hva Hva'. rewrite !mapping_mem. by apply H6.
Qed.

Lemma write_range_mem pgdir va n : write_range k pgdir va n -> write_range k' pgdir va n.
Proof using Hmem. intros (H0 & H1 & H2). split; [done|]. split; [done|]. intros x Hx. rewrite mapping_mem. by apply H2. Qed.

End same_mem.
