(* ===== verification/Sysarg.v ===== *)
(** * System call arguments (syscall.c)

    Fetching the arguments of a system call from the user stack.  The theorems show that the checks accept
    exactly the words, blocks and strings inside the process's memory, and that none of their own reads faults. *)

From S2P Require Import Prelude Kstate Spinlock Cprintf Proc Kdata Sleeplock Kalloc Bio Vm Umem.
From stdpp Require Import gmap strings list fin_maps.
Open Scope Z_scope.

(** ** syscall.c *)

(** [myproc()], dereferenced. *)
Definition curproc : MK proc :=
  let! me := myproc in
  let! i := deref me in
  proc_at i.

(** The result is -1 ([None]) or 0 with the value stored at [ip]. *)
Definition fetchint (addr : Z) : MK (option Z) :=
  let! p := curproc in
  if (p_sz p <=? addr) || (p_sz p <? u32 (addr + 4)) then ret None
  else
    let! v := load32 addr in
    ret (Some (s32 v)).

(** The result is -1 ([None]) or the length, with [*pp] set to [addr]. *)
Definition fetchstr (addr : Z) : MK (option Z) :=
  let! p := curproc in
  if p_sz p <=? addr then ret None
  else
    let ep := p_sz p in
    loop (Z.to_nat (ep - addr) + 1) (fun s =>
      if negb (s <? ep) then ret (inr None)
      else
        let! c := load8 s in
        if c =? 0 then ret (inr (Some (s - addr))) else ret (inl (s + 1))) addr.

Definition argint (n : Z) : MK (option Z) :=
  let! p := curproc in
  fetchint (u32 (tf_esp (p_tfv p) + 4 + 4 * n)).

Definition argptr (n size : Z) : MK (option Z) :=
  let! p := curproc in
  let! r := argint n in
  match r with
  | None => ret None
  | Some i =>
      if (size <? 0) || (p_sz p <=? u32 i) || (p_sz p <? u32 (u32 i + size)) then ret None
      else ret (Some (u32 i))
  end.

(** The pointer and the length of the string. *)
Definition argstr (n : Z) : MK (option (Z * Z)) :=
  let! r := argint n in
  match r with
  | None => ret None
  | Some addr =>
      let! l := fetchstr (u32 addr) in
      ret (match l with Some l => Some (u32 addr, l) | None => None end)
  end.

(** Process [i] runs in user memory of [p_sz] mapped bytes, below the kernel. *)
Record in_user (m : machine) (p : procs) (k : kst) (i : nat) (pr : proc) : Prop := {
  iu_idle : idle m;
  iu_cur : cur m = Some i;
  iu_proc : ptable p !! i = Some pr;
  iu_cr3 : P2V (cr3 m) = p_pgdir pr;
  iu_sz : 0 <= p_sz pr <= KERNBASE;
  iu_map : forall va, 0 <= va < p_sz pr -> is_Some (user_byte k (p_pgdir pr) va);
}.

Section rules.
Context (m : machine) (H : list lockid) (co : console) (p : procs) (k : kst) (i : nat) (pr : proc).
Hypothesis U : in_user m p k i pr.

Lemma wp_curproc (Q : proc -> world kst -> Prop) :
  Q pr (W (held m H) co p k) -> wp curproc Q (W (held m H) co p k).
Proof using U.
  intros HQ. destruct U as [Hm Hcur Hp _ _ _]. unfold curproc, proc_at. kstep. kstep. rewrite Hcur. ksteps. exact HQ.
Qed.

Lemma wp_load8 va c (Q : Z -> world kst -> Prop) :
  user_byte k (p_pgdir pr) va = Some c -> Q c (W (held m H) co p k) -> wp (load8 va) Q (W (held m H) co p k).
Proof using U.
  intros (e & He & (pg & Hpg & Hc)%bind_Some)%bind_Some HQ.
  unfold load8, translate, page_at. ksteps. rewrite cr3_held, (iu_cr3 _ _ _ _ _ U), He. ksteps. exact HQ.
Qed.

Lemma wp_load_bytes n : forall va (Q : list Z -> world kst -> Prop),
  0 <= va -> va + Z.of_nat n <= p_sz pr ->
  (forall bs, length bs = n -> user_bytes k (p_pgdir pr) va bs -> Q bs (W (held m H) co p k)) ->
  wp (load_bytes va n) Q (W (held m H) co p k).
Proof using U.
  pose proof (iu_sz _ _ _ _ _ U) as Hsz. unfold KERNBASE in Hsz.
  induction n as [|n IH]; intros va Q Hva Hend HQ; cbn [load_bytes].
  - kstep. apply HQ; [done|]. by intros j c Hj.
  - destruct (iu_map _ _ _ _ _ U va) as [c Hc]; [lia|]. kstep. eapply wp_load8; [exact Hc|].
    rewrite u32_id by (unfold is_u32; lia). kstep. apply IH; [lia..|]. intros bs Hlen Hbs. kstep.
    apply HQ; [by rewrite <- Hlen|]. by apply user_bytes_cons.
Qed.

Lemma wp_fetchint addr (Q : option Z -> world kst -> Prop) :
  is_u32 addr ->
  (addr + 4 <= p_sz pr -> forall bs, length bs = 4%nat -> user_bytes k (p_pgdir pr) addr bs ->
    Q (Some (s32 (le_Z bs))) (W (held m H) co p k)) ->
  (p_sz pr < addr + 4 -> Q None (W (held m H) co p k)) ->
  wp (fetchint addr) Q (W (held m H) co p k).
Proof using U.
  intros Ha Hin Hout. pose proof (iu_sz _ _ _ _ _ U) as Hsz. unfold KERNBASE, is_u32 in *.
  unfold fetchint. kstep. apply wp_curproc. destruct (Z.leb_spec (p_sz pr) addr) as [Hle|Hlt]; cbn [orb].
  - kstep. apply Hout. lia.
  - rewrite u32_id by (unfold is_u32; lia). destruct (Z.ltb_spec (p_sz pr) (addr + 4)) as [H4|H4].
    + kstep. by apply Hout.
    + unfold load32. kstep. kstep. apply wp_load_bytes; [lia..|]. intros bs Hlen Hbs. ksteps. by apply Hin.
Qed.

(** A NUL-terminated string at [va] that ends inside the process's memory. *)
Definition user_str (va : Z) (bs : list Z) : Prop :=
  user_bytes k (p_pgdir pr) va (bs ++ [0]) /\ Forall (fun c => c ≠ 0) bs /\ va + Z.of_nat (length bs) < p_sz pr.

Lemma wp_fetchstr_loop n : forall addr s bs (Q : option Z -> world kst -> Prop),
  0 <= addr -> s = addr + Z.of_nat (length bs) -> s <= p_sz pr -> (Z.to_nat (p_sz pr - s) < n)%nat ->
  user_bytes k (p_pgdir pr) addr bs -> Forall (fun c => c ≠ 0) bs ->
  (forall bs, user_str addr bs -> Q (Some (Z.of_nat (length bs))) (W (held m H) co p k)) ->
  ((forall va, addr <= va < p_sz pr -> user_byte k (p_pgdir pr) va ≠ Some 0) -> Q None (W (held m H) co p k)) ->
  wp (loop n (fun s =>
      if negb (s <? p_sz pr) then ret (inr None)
      else
        let! c := load8 s in
        if c =? 0 then ret (inr (Some (s - addr))) else ret (inl (s + 1))) s) Q (W (held m H) co p k).
Proof using U.
  induction n as [|n IH]; intros addr s bs Q Ha Hs Hle Hn Hbs Hnz Hyes Hno; [lia|]. cbn [loop]. kstep.
  destruct (Z.ltb_spec s (p_sz pr)) as [Hlt|Hge]; cbn [negb].
  - destruct (iu_map _ _ _ _ _ U s) as [c Hc]; [lia|]. kstep. eapply wp_load8; [exact Hc|].
    assert (Hsnoc : user_bytes k (p_pgdir pr) addr (bs ++ [c])).
    { intros j x [Hj|[Hlen Hj]]%lookup_app_Some; [by apply Hbs|].
      apply list_lookup_singleton_Some in Hj as [Hj <-]. rewrite <- Hc. f_equal. lia. }
    destruct (Z.eqb_spec c 0) as [->|Hc0].
    + ksteps. replace (s - addr) with (Z.of_nat (length bs)) by lia. apply Hyes. split; [done|]. split; [done|lia].
    + ksteps. eapply (IH addr (s + 1) (bs ++ [c])); [lia|rewrite length_app; cbn; lia|lia|lia|done| |done|done].
      apply Forall_app. split; [done|]. by constructor.
  - ksteps. apply Hno. intros va Hva E. destruct (lookup_lt_is_Some_2 bs (Z.to_nat (va - addr))) as [c Hc]; [lia|].
    pose proof (Hbs _ _ Hc) as Hb. rewrite Z2Nat.id in Hb by lia. replace (addr + (va - addr)) with va in Hb by lia.
    rewrite E in Hb. injection Hb as <-. rewrite Forall_lookup in Hnz. by apply (Hnz _ _ Hc).
Qed.

Lemma wp_fetchstr addr (Q : option Z -> world kst -> Prop) :
  is_u32 addr ->
  (forall bs, user_str addr bs -> Q (Some (Z.of_nat (length bs))) (W (held m H) co p k)) ->
  ((forall va, addr <= va < p_sz pr -> user_byte k (p_pgdir pr) va ≠ Some 0) -> Q None (W (held m H) co p k)) ->
  wp (fetchstr addr) Q (W (held m H) co p k).
Proof using U.
  intros Ha Hyes Hno. unfold is_u32 in Ha. unfold fetchstr. kstep. apply wp_curproc.
  destruct (Z.leb_spec (p_sz pr) addr) as [Hle|Hlt].
  - kstep. apply Hno. lia.
  - eapply (wp_fetchstr_loop _ addr addr []); [lia|cbn; lia|lia|lia|by intros ? ? ?|done|done|done].
Qed.

(** The address of the [n]-th argument. *)
Definition arg_addr (n : Z) : Z := u32 (tf_esp (p_tfv pr) + 4 + 4 * n).

(** The value of the [n]-th argument. *)
Definition is_arg (n v : Z) : Prop :=
  arg_addr n + 4 <= p_sz pr /\ exists bs, length bs = 4%nat /\ user_bytes k (p_pgdir pr) (arg_addr n) bs /\ v = s32 (le_Z bs).

Lemma wp_argint n (Q : option Z -> world kst -> Prop) :
  (forall v, is_arg n v -> Q (Some v) (W (held m H) co p k)) ->
  (p_sz pr < arg_addr n + 4 -> Q None (W (held m H) co p k)) ->
  wp (argint n) Q (W (held m H) co p k).
Proof using U.
  intros Hyes Hno. unfold argint. kstep. apply wp_curproc. apply wp_fetchint; [apply u32_range| |done].
  intros Hin bs Hlen Hbs. apply Hyes. split; [done|]. by exists bs.
Qed.

End rules.

Lemma is_arg_inj k pr n v v' : is_arg k pr n v -> is_arg k pr n v' -> v = v'.
Proof.
  intros (_ & bs & Hlen & Hbs & ->) (_ & bs' & Hlen' & Hbs' & ->). do 2 f_equal. apply list_eq_same_length with 4%nat; [done..|].
  intros i x y _ Hx Hy. specialize (Hbs i x Hx). specialize (Hbs' i y Hy). congruence.
Qed.

(** ** Properties *)

(** C36.  [argptr] reads the argument word without a fault, changes nothing, and succeeds exactly when the
    word is readable and the [size] bytes at its value lie inside the process's memory; a block it accepts is
    mapped and below the kernel, and a negative size is refused. *)
Theorem argptr_safe m H co p k i pr n size :
  in_user m p k i pr -> is_s32 size ->
  wp (argptr n size) (fun r w => w = W (held m H) co p k /\
    match r with
    | Some a => is_arg k pr n (s32 a) /\ 0 <= size /\ 0 <= a < p_sz pr /\ a + size <= p_sz pr <= KERNBASE /\
        forall va, a <= va < a + size -> is_Some (user_byte k (p_pgdir pr) va)
    | None => p_sz pr < arg_addr pr n + 4 \/
        exists v, is_arg k pr n v /\ (size < 0 \/ p_sz pr <= u32 v \/ p_sz pr < u32 v + size)
    end) (W (held m H) co p k).
Proof.
  intros U Hsize. unfold argptr. kstep. eapply wp_curproc; [done|]. kstep. pose proof (iu_sz _ _ _ _ _ U) as Hsz.
  unfold KERNBASE in *. eapply wp_argint; [done| |intros Hno; kstep; eauto]. intros v Hv.
  assert (Hs : is_s32 v) by (destruct Hv as (_ & bs & _ & _ & ->); apply s32_range).
  pose proof (u32_range v) as Hu. unfold is_u32, is_s32 in Hu, Hsize.
  destruct (Z.ltb_spec size 0) as [H0|H0]; cbn [orb]; [kstep; split; [done|]; right; exists v; eauto|].
  destruct (Z.leb_spec (p_sz pr) (u32 v)) as [H1|H1]; cbn [orb]; [kstep; split; [done|]; right; exists v; eauto|].
  rewrite (u32_id (u32 v + size)) by (unfold is_u32; lia).
  destruct (Z.ltb_spec (p_sz pr) (u32 v + size)) as [H2|H2]; kstep; split; try done.
  - right. exists v. eauto.
  - rewrite s32_u32 by done. split_and!; [done|lia..|]. intros va Hva. apply (iu_map _ _ _ _ _ U). lia.
Qed.

(** [argstr] reads the argument word and the string without a fault and changes nothing; it succeeds exactly
    when the word is readable and a NUL-terminated string starts at its value and ends inside the process's memory,
    and returns the length of that string. *)
Theorem argstr_safe m H co p k i pr n :
  in_user m p k i pr ->
  wp (argstr n) (fun r w => w = W (held m H) co p k /\
    match r with
    | Some (a, len) => is_arg k pr n (s32 a) /\ exists bs, user_str k pr a bs /\ len = Z.of_nat (length bs)
    | None => p_sz pr < arg_addr pr n + 4 \/
        exists v, is_arg k pr n v /\ forall va, u32 v <= va < p_sz pr -> user_byte k (p_pgdir pr) va ≠ Some 0
    end) (W (held m H) co p k).
Proof.
  intros U. unfold argstr. kstep. eapply wp_argint; [done| |intros Hno; kstep; eauto]. intros v Hv.
  assert (Hs : is_s32 v) by (destruct Hv as (_ & bs & _ & _ & ->); apply s32_range).
  kstep. eapply wp_fetchstr; [done|apply u32_range| |].
  - intros bs Hbs. kstep. split; [done|]. rewrite s32_u32 by done. eauto.
  - intros Hno. kstep. split; [done|]. right. eauto.
Qed.

(** ** Examples *)

(** A process of one page: its stack holds the arguments 0x100 and 3, and "ab" is at 0x100. *)
Definition ex_upage : list Z :=
  put32 0xF08 3 (put32 0xF04 0x100 (wr 0x100 [97; 98; 0] zero_page)).
Definition ex_umem_of (pg : list Z) : kst :=
  kst0 <| k_mem := {[ 0x80401000 := put32 0 0x402007 zero_page; 0x80402000 := put32 0 0x403007 zero_page;
                      0x80403000 := pg ]} |>.
Definition ex_umem : kst := ex_umem_of ex_upage.
Definition ex_uproc : proc :=
  ex_proc 4 0 18 3 <| p_sz := 4096 |> <| p_pgdir := 0x80401000 |> <| p_tfv := tf_zero <| tf_esp := 0xF00 |> |>.
Definition ex_uprocs : procs := (ex_procs 0) <| ptable := <[1%nat := ex_uproc]> (ptable (ex_procs 0)) |>.
Definition ex_umachine : machine := ex_machine <| cr3 := 0x401000 |>.

Lemma ex_umapping pg va : 0 <= va < 4096 -> mapping (ex_umem_of pg) 0x80401000 va = Some 0x403007.
Proof.
  intros Hva. unfold mapping, pte_of.
  assert (PDX va = 0) as -> by (rewrite PDX_spec, Z.div_small by lia; done).
  assert (PTX va = 0) as -> by (rewrite PTX_spec, Z.div_small by lia; done).
  vm_compute. reflexivity.
Qed.

Lemma ex_ubyte pg va : 0 <= va < 4096 -> user_byte (ex_umem_of pg) 0x80401000 va = pg !! Z.to_nat va.
Proof.
  intros Hva. unfold user_byte. rewrite ex_umapping by done. cbn [mbind option_bind].
  change (k_mem (ex_umem_of pg) !! P2V (PTE_ADDR 0x403007)) with (Some pg). cbn [mbind option_bind].
  unfold PGSIZE. by rewrite Z.mod_small.
Qed.

Lemma ex_in_user_of pg : length pg = 4096%nat -> in_user ex_umachine ex_uprocs (ex_umem_of pg) 1 ex_uproc.
Proof.
  intros Hlen. split; [apply (run_idle _ _ _ _ (ex_running 0))|done..|].
  intros va Hva. change (p_sz ex_uproc) with 4096 in Hva. change (p_pgdir ex_uproc) with 0x80401000.
  rewrite ex_ubyte by lia. apply lookup_lt_is_Some_2. lia.
Qed.

Lemma ex_in_user : in_user ex_umachine ex_uprocs ex_umem 1 ex_uproc.
Proof. apply ex_in_user_of. vm_compute. reflexivity. Qed.

Lemma argptr_safe_witness :
  exists r, argptr 0 3 (W (held ex_umachine []) ex_console ex_uprocs ex_umem) =
    Ret r (W (held ex_umachine []) ex_console ex_uprocs ex_umem).
Proof.
  destruct (wp_elim _ _ _ (argptr_safe ex_umachine [] ex_console ex_uprocs ex_umem 1 ex_uproc 0 3 ex_in_user ltac:(done)))
    as (r & w & Hrun & -> & _). exists r. exact Hrun.
Defined.

Lemma argstr_safe_witness :
  exists r, argstr 0 (W (held ex_umachine []) ex_console ex_uprocs ex_umem) =
    Ret r (W (held ex_umachine []) ex_console ex_uprocs ex_umem).
Proof.
  destruct (wp_elim _ _ _ (argstr_safe ex_umachine [] ex_console ex_uprocs ex_umem 1 ex_uproc 0 ex_in_user))
    as (r & w & Hrun & -> & _). exists r. exact Hrun.
Defined.

(** The only entries of the tables are the first ones. *)
Lemma ex_entry v i : 0 <= i < 1024 -> get32 (Z.to_nat (4 * i)) (put32 0 v zero_page) = if decide (i = 0) then u32 v else 0.
Proof.
  intros Hi. pose proof (get_put_entry zero_page 0 i v) as Hg. change (Z.to_nat (4 * 0)) with 0%nat in Hg. rewrite Hg by (done || lia).
  destruct (decide (0 = i)), (decide (i = 0)); try lia. apply get32_zero.
Qed.

Lemma ex_ptab pg d t : 0 <= d < 1024 -> ptab (ex_umem_of pg) 0x80401000 d = Some t -> d = 0 /\ t = 0x80402000.
Proof.
  intros Hd. unfold ptab. change (k_mem (ex_umem_of pg) !! 0x80401000) with (Some (put32 0 0x402007 zero_page)). cbn [mbind option_bind].
  rewrite ex_entry by done. destruct (decide (d = 0)) as [->|]; [|done]. intros [= <-]. done.
Qed.

Lemma ex_mapping pg va e : 0 <= va < KERNBASE -> mapping (ex_umem_of pg) 0x80401000 va = Some e -> same_page 0 va /\ e = 0x403007.
Proof.
  intros Hva (v & (t & Ht & (pt & Hpt & [= Hv])%bind_Some)%bind_Some & Hm)%bind_Some.
  apply ex_ptab in Ht as [Hd ->]; [|apply PDX_range].
  change (k_mem (ex_umem_of pg) !! 0x80402000) with (Some (put32 0 0x403007 zero_page)) in Hpt. injection Hpt as <-.
  rewrite ex_entry in Hv by apply PTX_range. destruct (decide (PTX va = 0)) as [Hx|]; [|by subst v].
  subst v. change (u32 0x403007) with 0x403007 in Hm. change (has_flag 0x403007 PTE_P) with true in Hm.
  injection Hm as <-. split; [|done]. split; [by rewrite Hd|by rewrite Hx].
Qed.

Lemma ex_uspace_of pg : length pg = 4096%nat -> @uspace ex_end (ex_umem_of pg) 0x80401000.
Proof.
  intros Hlen. split.
  - split.
    + split; [by apply ex_valid|]. split; [apply not_elem_of_nil|]. eexists. split; [reflexivity|]. vm_compute. reflexivity.
    + intros d t Hd [-> ->]%ex_ptab; [|done]. split; [|done]. split; [by apply ex_valid|]. split; [apply not_elem_of_nil|].
      eexists. split; [reflexivity|]. vm_compute. reflexivity.
    + intros d d' t Hd Hd' [-> _]%ex_ptab [-> _]%ex_ptab; done.
  - intros va e Hva [_ ->]%ex_mapping; [|done]. exists pg. split; [reflexivity|done].
  - intros va e Hva [_ ->]%ex_mapping; [|done]. split; [done|]. intros d Hd [_ He]%ex_ptab; [|done]. done.
  - intros va va' e e' Hva Hva' [[H1 H2] ->]%ex_mapping [[H3 H4] ->]%ex_mapping _; [|done..]. split; congruence.
Qed.

Lemma ex_uspace : @uspace ex_end ex_umem 0x80401000.
Proof. apply ex_uspace_of. vm_compute. reflexivity. Qed.
