(* ===== verification/Exec.v ===== *)
(** * exec (exec.c, elf.h, and loaduvm of vm.c)

    Replacing the image of the running process by a program read from the file system.  The theorem
    shows that the stack [exec] builds is the one the program's [main(argc, argv)] expects. *)

From S2P Require Import Prelude Kstate Spinlock Cprintf Proc Kdata Sleeplock Kalloc Bio Block Log Vm CString Fs ProcLife Umem Sysarg.
From stdpp Require Import gmap strings list fin_maps.
Open Scope Z_scope.

(** ** elf.h *)

Definition ELF_MAGIC : Z := 0x464C457F.
Definition ELF_PROG_LOAD : Z := 1.

(** The fields of [struct elfhdr] that exec uses, and where they are. *)
Record elfhdr := mkElf { e_magic : Z; e_entry : Z; e_phoff : Z; e_phnum : Z }.
Definition sizeof_elfhdr : Z := 52.
Definition get_elfhdr (d : list Z) : elfhdr := mkElf (get32 0 d) (get32 24 d) (get32 28 d) (get16 44 d).

Record proghdr := mkPh {
  ph_type : Z; ph_off : Z; ph_vaddr : Z; ph_paddr : Z; ph_filesz : Z; ph_memsz : Z; ph_flags : Z; ph_align : Z;
}.
Definition sizeof_proghdr : Z := 32.
Definition get_proghdr (d : list Z) : proghdr :=
  mkPh (get32 0 d) (get32 4 d) (get32 8 d) (get32 12 d) (get32 16 d) (get32 20 d) (get32 24 d) (get32 28 d).

Section exec_c.
Context `{Lk : Linker} `{Ld : LinkerData} `{Fu : Fuel} `{Drv : DiskDriver} `{Dev : Devices}.

(** ** loaduvm *)

(** [readi] stores what it reads in the page itself. *)
Definition loaduvm (pgdir addr : Z) (ip : nat) (offset sz : Z) : MK Z :=
  if negb (addr mod PGSIZE =? 0) then panic "loaduvm: addr must be page aligned"
  else
    loop (Z.to_nat (sz / PGSIZE) + 2) (fun i =>
      if negb (i <? sz) then ret (inr 0)
      else
        let! pte := walkpgdir pgdir (u32 (addr + i)) false in
        if pte =? 0 then panic "loaduvm: address should exist"
        else
          let! v := word_at pte in
          let pa := PTE_ADDR v in
          let n := if u32 (sz - i) <? PGSIZE then u32 (sz - i) else PGSIZE in
          let! '(r, dst) := readi ip (u32 (offset + i)) n in
          let! pg := page_at (P2V pa) in
          set_page (P2V pa) (wr 0 dst pg) ;;;
          if negb (u32 r =? n) then ret (inr (-1)) else ret (inl (u32 (i + PGSIZE)))) 0.

(** ** exec *)

(** [bad:] with the values [pgdir] and [ip] have there. *)
Definition exec_bad (pgdir : Z) (ip : option nat) : MK Z :=
  when (negb (pgdir =? 0)) (freevm pgdir) ;;;
  match ip with
  | Some ip => iunlockput ip ;;; end_op
  | None => ret tt
  end ;;;
  ret (-1).

(** One program header: the new [sz], or [None] for [goto bad]. *)
Definition load_segment (pgdir : Z) (ip : nat) (off sz : Z) : MK (option Z) :=
  let! '(r, dst) := readi ip (u32 off) sizeof_proghdr in
  if negb (r =? sizeof_proghdr) then ret None
  else
    let ph := get_proghdr dst in
    if negb (ph_type ph =? ELF_PROG_LOAD) then ret (Some sz)
    else if ph_memsz ph <? ph_filesz ph then ret None
    else if u32 (ph_vaddr ph + ph_memsz ph) <? ph_vaddr ph then ret None
    else
      let! sz := allocuvm pgdir sz (u32 (ph_vaddr ph + ph_memsz ph)) in
      if sz =? 0 then ret None
      else if negb (ph_vaddr ph mod PGSIZE =? 0) then ret None
      else
        let! r := loaduvm pgdir (ph_vaddr ph) ip (ph_off ph) (ph_filesz ph) in
        if r <? 0 then ret None else ret (Some sz).

(** The loop over the [n] program headers that are left. *)
Fixpoint load_segments (n : nat) (pgdir : Z) (ip : nat) (off sz : Z) : MK (option Z) :=
  match n with
  | O => ret (Some sz)
  | S n =>
      let! r := load_segment pgdir ip off sz in
      match r with
      | None => ret None
      | Some sz => load_segments n pgdir ip (s32 (off + sizeof_proghdr)) sz
      end
  end.

(** [(sp - (strlen(s) + 1)) & ~3] for the string [s] with its NUL. *)
Definition arg_sp (sp : Z) (s : list Z) : Z := Z.land (u32 (sp - Z.of_nat (length s))) 0xFFFFFFFC.

(** The loop that pushes the argument strings; the new [sp] and [ustack[3..3+argc)]. *)
Fixpoint push_args (pgdir : Z) (argv : list (list Z)) (ptrs : list Z) (sp : Z) : MK (option (Z * list Z)) :=
  match argv with
  | [] => ret (Some (sp, ptrs))
  | s :: argv =>
      if bool_decide (MAXARG <= length ptrs)%nat then ret None
      else
        let sp := arg_sp sp s in
        let! r := copyout pgdir sp s in
        if r <? 0 then ret None else push_args pgdir argv (ptrs ++ [sp]) sp
  end.

(** [ustack], whose [argc] pointers are [ptrs]. *)
Definition ustack (sp : Z) (ptrs : list Z) : list Z :=
  let argc := Z.of_nat (length ptrs) in
  [0xFFFFFFFF; argc; u32 (sp - (argc + 1) * 4)] ++ ptrs ++ [0].

(** Their bytes in memory. *)
Definition words (l : list Z) : list Z := concat (le_bytes 4 <$> l).

(** The stack of the new image from its top [sp]: the final [sp], or [None] for [goto bad]. *)
Definition push_stack (pgdir : Z) (argv : list (list Z)) (sp : Z) : MK (option Z) :=
  let! r := push_args pgdir argv [] sp in
  match r with
  | None => ret None
  | Some (sp, ptrs) =>
      let sp' := u32 (sp - (3 + Z.of_nat (length ptrs) + 1) * 4) in
      let! r := copyout pgdir sp' (words (ustack sp ptrs)) in
      if r <? 0 then ret None else ret (Some sp')
  end.

(** The part of the path after its last slash; the path ends at its NUL. *)
Fixpoint last_elem (s last : list Z) : list Z :=
  match s with
  | [] => last
  | c :: s' => if c =? 0 then last else last_elem s' (if c =? slash then s' else last)
  end.

(** [exec] from the load of the program on: the committed image, or [exec_bad]. *)
Definition exec_commit (cur : nat) (path : list Z) (entry pgdir sz sp : Z) : MK Z :=
  set_name cur (last_elem path path) ;;;
  let! p := proc_at cur in
  let oldpgdir := p_pgdir p in
  set_proc cur (fun p => p <| p_pgdir := pgdir |> <| p_sz := sz |>
                           <| p_tfv := p_tfv p <| tf_eip := entry |> <| tf_esp := sp |> |>) ;;;
  switchuvm (Some cur) ;;;
  freevm oldpgdir ;;;
  ret 0.

(** [path] is NUL-terminated, and so is each string of [argv]. *)
Definition exec (path : list Z) (argv : list (list Z)) : MK Z :=
  let! me := myproc in
  begin_op ;;;
  let! r := namei path in
  match r with
  | None =>
      end_op ;;;
      cprintf ("exec: fail" ++ nl)%string [] ;;;
      ret (-1)
  | Some ip =>
      ilock (Some ip) ;;;
      let! '(r, dst) := readi ip 0 sizeof_elfhdr in
      if negb (r =? sizeof_elfhdr) then exec_bad 0 (Some ip)
      else
        let elf := get_elfhdr dst in
        if negb (e_magic elf =? ELF_MAGIC) then exec_bad 0 (Some ip)
        else
          let! pgdir := setupkvm in
          if pgdir =? 0 then exec_bad 0 (Some ip)
          else
            let! r := load_segments (Z.to_nat (e_phnum elf)) pgdir ip (s32 (e_phoff elf)) 0 in
            match r with
            | None => exec_bad pgdir (Some ip)
            | Some sz =>
                iunlockput ip ;;;
                end_op ;;;
                let sz := PGROUNDUP sz in
                let! sz := allocuvm pgdir sz (u32 (sz + 2 * PGSIZE)) in
                if sz =? 0 then exec_bad pgdir None
                else
                  clearpteu pgdir (u32 (sz - 2 * PGSIZE)) ;;;
                  let! r := push_stack pgdir argv sz in
                  match r with
                  | None => exec_bad pgdir None
                  | Some sp =>
                      let! cur := deref me in
                      exec_commit cur path (e_entry elf) pgdir sz sp
                  end
            end
  end.

End exec_c.

(** ** The stack of the new image *)

Lemma align4_spec x : 0 <= x < 4294967296 -> Z.land x 0xFFFFFFFC = x - x mod 4.
Proof.
  intros Hx. change 0xFFFFFFFC with (Z.ldiff (Z.ones 32) (Z.ones 2)).
  assert (Hl : Z.land x (Z.ldiff (Z.ones 32) (Z.ones 2)) = Z.ldiff (Z.land x (Z.ones 32)) (Z.ones 2)).
  { apply Z.bits_inj'. intros n _. rewrite !Z.ldiff_spec, !Z.land_spec, Z.ldiff_spec. by rewrite andb_assoc. }
  rewrite Hl, Z.land_ones, Z.mod_small, Z.ldiff_ones_r, Z.shiftl_mul_pow2, Z.shiftr_div_pow2 by lia.
  change (2 ^ 2) with 4. pose proof (Z.div_mod x 4). lia.
Qed.

Lemma arg_sp_spec sp s :
  Z.of_nat (length s) <= sp < 4294967296 ->
  arg_sp sp s mod 4 = 0 /\ sp - Z.of_nat (length s) - 3 <= arg_sp sp s <= sp - Z.of_nat (length s) /\ 0 <= arg_sp sp s.
Proof.
  intros Hs. unfold arg_sp. rewrite u32_id by (unfold is_u32; lia). rewrite align4_spec by lia.
  set (x := sp - Z.of_nat (length s)). pose proof (Z.mod_pos_bound x 4). pose proof (Z.mod_le x 4).
  split; [by rewrite Zminus_mod_idemp_r, Z.sub_diag|lia].
Qed.

Lemma length_words l : length (words l) = (4 * length l)%nat.
Proof. unfold words. induction l as [|z l IH]; [done|]. cbn [fmap list_fmap concat]. rewrite length_app, length_le_bytes, IH. cbn. lia. Qed.

(** Room for the strings with their alignment. *)
Definition strings_room (argv : list (list Z)) : Z := foldr (fun s n => Z.of_nat (length s) + 3 + n) 0 argv.

Lemma strings_room_pos argv : 0 <= strings_room argv.
Proof. unfold strings_room. induction argv; cbn; lia. Qed.

Section stack.
Context `{Lk : Linker} (kend_pos : 0 < kend) (m : machine) (co : console) (p : procs) (pgdir : Z).

(** The address space [k'] is [k] with only bytes of [[lo, hi)] changed. *)
Record changed (lo hi : Z) (k k' : kst) : Prop := {
  ch_uspace : uspace k' pgdir;
  ch_map : forall x, mapping k' pgdir x = mapping k pgdir x;
  ch_bytes : forall x, 0 <= x < KERNBASE -> x < lo \/ hi <= x -> user_byte k' pgdir x = user_byte k pgdir x;
  ch_frame : k' = k <| k_mem := k_mem k' |>;
}.

Lemma stored_changed va bs k k' lo hi :
  stored pgdir va bs k k' -> lo <= va -> va + Z.of_nat (length bs) <= hi -> changed lo hi k k'.
Proof.
  intros [H1 H2 H3 H4] Hlo Hhi. split; [done..| |done]. intros x Hx Hout. rewrite H3 by done. by rewrite decide_False by lia.
Qed.

Lemma changed_trans lo mid hi k k1 k2 : changed mid hi k k1 -> changed lo mid k1 k2 -> lo <= mid <= hi -> changed lo hi k k2.
Proof.
  intros [A1 A2 A3 A4] [B1 B2 B3 B4] Hm. split; [done|by intros; rewrite B2, A2| |].
  - intros x Hx Hout. rewrite B3, A3 by (done || lia). done.
  - rewrite B4, A4 at 1. done.
Qed.

Lemma stored_bytes va bs k k' :
  stored pgdir va bs k k' -> 0 <= va -> va + Z.of_nat (length bs) <= KERNBASE -> user_bytes k' pgdir va bs.
Proof.
  intros [H1 H2 H3 H4] H0 Hk i c Hi. apply lookup_lt_Some in Hi as Hl. rewrite H3, decide_True by lia.
  rewrite <- Hi. f_equal. lia.
Qed.

Lemma changed_bytes lo hi k k' va bs :
  changed lo hi k k' -> hi <= va -> 0 <= va -> va + Z.of_nat (length bs) <= KERNBASE ->
  user_bytes k pgdir va bs -> user_bytes k' pgdir va bs.
Proof.
  intros [H1 H2 H3 H4] Hh H0 Hk Hb i c Hi. apply lookup_lt_Some in Hi as Hl. rewrite H3 by lia. by apply Hb.
Qed.

(** The strings [argv] are at the addresses [ptrs], between [lo] and [hi]. *)
Definition strings_at (k : kst) (lo hi : Z) (argv : list (list Z)) (ptrs : list Z) : Prop :=
  Forall2 (fun s a => user_bytes k pgdir a s /\ lo <= a /\ a + Z.of_nat (length s) <= hi) argv ptrs.

Lemma wp_push_args lo : forall argv k ptrs sp (Q : option (Z * list Z) -> world kst -> Prop),
  uspace k pgdir -> user_range k pgdir lo (sp - lo) -> 0 <= lo -> lo + strings_room argv <= sp <= KERNBASE -> sp mod 4 = 0 ->
  (length ptrs + length argv <= MAXARG)%nat ->
  (forall k' sp' new, changed sp' sp k k' -> sp - strings_room argv <= sp' <= sp -> sp' mod 4 = 0 ->
    strings_at k' sp' sp argv new -> Q (Some (sp', ptrs ++ new)) (W m co p k')) ->
  wp (push_args pgdir argv ptrs sp) Q (W m co p k).
Proof using kend_pos.
  induction argv as [|s argv IH]; intros k ptrs sp Q Hu Hr Hlo Hroom Hal Hn HQ; cbn [push_args].
  - kstep. replace ptrs with (ptrs ++ []) by apply app_nil_r. apply HQ; [|cbn; lia|done|constructor].
    split; [done|done|done|by destruct k].
  - change (strings_room (s :: argv)) with (Z.of_nat (length s) + 3 + strings_room argv) in *. cbn [length] in Hn.
    pose proof (strings_room_pos argv) as Hpos. unfold KERNBASE in *. rewrite bool_decide_eq_false_2 by lia.
    destruct (arg_sp_spec sp s) as (Ha4 & Hab & Ha0); [lia|]. set (a := arg_sp sp s) in *.
    kstep. apply wp_copyout; [done..| |].
    + destruct Hr as (H0 & H1 & H2). split; [done|]. split; [unfold KERNBASE; lia|]. intros x Hx. apply H2. lia.
    + intros k1 Hst. change (0 <? 0) with false. cbn match.
      assert (Hch : changed a sp k k1) by (by eapply stored_changed; [exact Hst|lia|lia]).
      apply IH; [apply Hst| |done|lia|done|rewrite length_app; cbn; lia|].
      * destruct Hr as (H0 & H1 & H2). split; [done|]. split; [unfold KERNBASE; lia|]. intros x Hx.
        rewrite (ch_map _ _ _ _ Hch). apply H2. lia.
      * intros k' sp' new Hch' Hsp' Hal' Hnew. rewrite <- app_assoc. apply HQ; [eapply changed_trans; [exact Hch|exact Hch'|lia]|lia|done|].
        constructor.
        -- split; [|lia]. eapply changed_bytes; [exact Hch'|lia|lia|unfold KERNBASE; lia|].
           eapply stored_bytes; [exact Hst|lia|unfold KERNBASE; lia].
        -- eapply Forall2_impl; [exact Hnew|]. intros s' a' (? & ? & ?). split; [done|lia].
Qed.

End stack.

(** ** Properties *)

(** C32.  The stack that [exec] builds below [top], in an address space whose stack page is mapped, is the one
    [main(argc, argv)] expects: from the stack pointer up it holds a fake return address, [argc], a pointer to
    the vector that follows, the addresses of the argument strings and a null pointer; each string is, NUL included,
    at its address above the vector and below [top]; and no byte outside the stack page changes. *)
Theorem exec_stack_spec `{Lk : Linker} m co p k pgdir argv top :
  0 < kend -> uspace k pgdir -> user_range k pgdir (top - PGSIZE) PGSIZE -> top mod 4 = 0 ->
  (length argv <= MAXARG)%nat -> strings_room argv + 4 * (Z.of_nat (length argv) + 4) <= PGSIZE ->
  wp (push_stack pgdir argv top) (fun r w => exists sp ptrs k', r = Some sp /\ w = W m co p k' /\
    top - PGSIZE <= sp /\ sp mod 4 = 0 /\ changed pgdir (top - PGSIZE) top k k' /\
    user_bytes k' pgdir sp (words ([0xFFFFFFFF; Z.of_nat (length argv); sp + 12] ++ ptrs ++ [0])) /\
    strings_at pgdir k' (sp + 4 * (Z.of_nat (length argv) + 4)) top argv ptrs) (W m co p k).
Proof.
  intros Hend Hu Hr Hal Hn Hroom. pose proof (strings_room_pos argv) as Hpos.
  destruct Hr as (H0 & H1 & H2). unfold push_stack. kstep.
  assert (Hrange : forall lo hi, top - PGSIZE <= lo -> hi <= top -> user_range k pgdir lo (hi - lo)).
  { intros lo hi Hlo Hhi. split; [lia|]. split; [lia|]. intros x Hx. apply H2. lia. }
  eapply (wp_push_args Hend m co p pgdir (top - PGSIZE)); [done|by apply Hrange|done|lia|done|cbn; lia|].
  intros k1 sp1 ptrs Hch1 Hsp1 Hal1 Hstr. cbn [app]. cbn match. pose proof (Forall2_length _ _ _ Hstr) as Hlen.
  set (n := Z.of_nat (length ptrs)) in *. set (sp := sp1 - (3 + n + 1) * 4).
  unfold KERNBASE, PGSIZE in *. assert (u32 sp = sp) as -> by (apply u32_id; unfold is_u32, sp; lia).
  assert (Hus : ustack sp1 ptrs = [0xFFFFFFFF; Z.of_nat (length argv); sp + 12] ++ ptrs ++ [0]).
  { unfold ustack. fold n. rewrite Hlen, u32_id by (unfold is_u32; lia). fold n. by replace (sp1 - (n + 1) * 4) with (sp + 12) by lia. }
  assert (Hwl : Z.of_nat (length (words (ustack sp1 ptrs))) = 4 * (n + 4)).
  { rewrite Hus, length_words, !length_app. cbn. lia. }
  kstep. apply wp_copyout; [done|apply Hch1| |].
  - rewrite Hwl. split; [lia|]. split; [unfold KERNBASE; lia|]. intros x Hx. rewrite (ch_map _ _ _ _ _ Hch1). apply H2. lia.
  - intros k2 Hst. change (0 <? 0) with false. cbn match. kstep. exists sp, ptrs, k2. split; [done|]. split; [done|].
    assert (Hch2 : changed pgdir sp sp1 k1 k2) by (by eapply stored_changed; [exact Hst|lia|lia]).
    split; [lia|]. split.
    { unfold sp. replace (sp1 - (3 + n + 1) * 4) with (sp1 + (- (4 + n)) * 4) by lia. by rewrite Z.mod_add. }
    split; [|split].
    + assert (changed pgdir sp top k k2) as [E1 E2 E3 E4] by (eapply changed_trans; [exact Hch1|exact Hch2|lia]).
      split; [done..| |done]. intros x Hx Hout. apply E3; [done|lia].
    + assert (Hb : user_bytes k2 pgdir sp (words (ustack sp1 ptrs))) by (eapply stored_bytes; [exact Hst|lia|unfold KERNBASE; lia]).
      rewrite Hus in Hb. exact Hb.
    + eapply Forall2_impl; [exact Hstr|]. intros s a (Hb & Hlo & Hhi). split; [|lia].
      eapply changed_bytes; [exact Hch2|lia|lia|unfold KERNBASE; lia|done].
Qed.

(** The stack of ["ls" "-l"] in a process of one page. *)
Lemma exec_stack_spec_witness :
  exists sp k', @push_stack 0x80401000 [[108; 115; 0]; [45; 108; 0]] 4096 (W ex_umachine ex_console ex_uprocs ex_umem) =
    Ret (Some sp) (W ex_umachine ex_console ex_uprocs k').
Proof.
  destruct (wp_elim _ _ _ (@exec_stack_spec ex_end ex_umachine ex_console ex_uprocs ex_umem 0x80401000
    [[108; 115; 0]; [45; 108; 0]] 4096 ltac:(done) ex_uspace ltac:(split; [done|split; [done|]]; intros x Hx; exists 0x403007;
      split; [apply ex_umapping; unfold PGSIZE in Hx; lia|done]) ltac:(done) ltac:(unfold MAXARG; cbn; lia) ltac:(done)))
    as (r & w & Hrun & sp & ptrs & k' & -> & -> & _). exists sp, k'. exact Hrun.
Defined.
