(* ===== verification/Boot.v ===== *)
(** * The boot loader (bootmain.c)

    [bootmain] reads the first page of the kernel file, checks that it is an ELF file and loads its segments, a sector
    at a time.  Memory is a function from addresses to bytes.  The theorem shows that, on a disk that follows the ATA protocol and for a kernel
    whose segments stay clear of each other and of the page at 0x10000, every segment is in memory with its zeroed tail
    when the loader jumps to the entry point. *)

From S2P Require Import Prelude Kstate Spinlock Cprintf Proc Kdata Sleeplock Hw Ide Exec.
From stdpp Require Import list.
Open Scope Z_scope.

Definition SECTSIZE : Z := 512.

(** [n] bytes of memory from [a] on, and memory with the bytes [bs] stored at [a]. *)
Definition mem_bytes (mem : Z -> Z) (a : Z) (n : nat) : list Z := (fun i => mem (a + Z.of_nat i)) <$> seq 0 n.
Definition mem_store (a : Z) (bs : list Z) (mem : Z -> Z) : Z -> Z := fun x =>
  if (a <=? x) && (x <? a + Z.of_nat (length bs)) then default 0 (bs !! Z.to_nat (x - a)) else mem x.

Section bootmain_c.
Context `{Fu : Fuel} `{Hd : Hardware}.

(** [0xC0] are the bits BSY and DRDY, and [0x40] is DRDY. *)
Definition waitdisk : MK unit := wait_ready ;;; ret tt.

Definition readsect (dst offset : Z) (mem : Z -> Z) : MK (Z -> Z) :=
  waitdisk ;;;
  outb 0x1F2 1 ;;;
  outb 0x1F3 offset ;;;
  outb 0x1F4 (Z.shiftr offset 8) ;;;
  outb 0x1F5 (Z.shiftr offset 16) ;;;
  outb 0x1F6 (Z.lor (Z.shiftr offset 24) 0xE0) ;;;
  outb 0x1F7 0x20 ;;;
  waitdisk ;;;
  let! d := insl 0x1F0 (Z.to_nat (SECTSIZE / 4)) in
  ret (mem_store dst d mem).

(** [for(; pa < epa; pa += SECTSIZE, offset++) readsect(pa, offset);] *)
Definition readseg_loop (n : nat) (epa pa offset : Z) (mem : Z -> Z) : MK (Z -> Z) :=
  loop n (fun '(pa, offset, mem) =>
    if pa <? epa then
      let! mem := readsect pa offset mem in
      ret (inl (u32 (pa + SECTSIZE), u32 (offset + 1), mem))
    else ret (inr mem)) (pa, offset, mem).

Definition readseg (pa count offset : Z) (mem : Z -> Z) : MK (Z -> Z) :=
  let epa := u32 (pa + count) in
  let pa := u32 (pa - offset mod SECTSIZE) in
  let offset := u32 (offset / SECTSIZE + 1) in
  readseg_loop (Z.to_nat (count / SECTSIZE) + 3) epa pa offset mem.

(** The loop over the program headers from [ph] on, with [n] to go. *)
Fixpoint load_segs (n : nat) (ph : Z) (mem : Z -> Z) : MK (Z -> Z) :=
  match n with
  | O => ret mem
  | Datatypes.S n =>
      let p := get_proghdr (mem_bytes mem ph 32) in
      let pa := ph_paddr p in
      let! mem := readseg pa (ph_filesz p) (ph_off p) mem in
      let mem :=
        if ph_filesz p <? ph_memsz p then
          mem_store (u32 (pa + ph_filesz p)) (replicate (Z.to_nat (ph_memsz p - ph_filesz p)) 0) mem
        else mem in
      load_segs n (u32 (ph + sizeof_proghdr)) mem
  end.

(** The entry point the loader jumps to, and memory at that time; [None] when it returns to bootasm.S. *)
Definition bootmain (mem : Z -> Z) : MK (option Z * (Z -> Z)) :=
  let elf := 0x10000 in
  let! mem := readseg elf 4096 0 mem in
  let hdr := get_elfhdr (mem_bytes mem elf 52) in
  if negb (e_magic hdr =? ELF_MAGIC) then ret (None, mem)
  else
    let! mem := load_segs (Z.to_nat (e_phnum hdr)) (u32 (elf + e_phoff hdr)) mem in
    ret (Some (e_entry (get_elfhdr (mem_bytes mem elf 52))), mem).

End bootmain_c.

(** ** Reading sectors *)

(** The command that reads a sector. *)
Definition boot_cmd (n : Z) : list hwev :=
  [PortOut 0x1F2 1; PortOut 0x1F3 (n mod 256); PortOut 0x1F4 (n / 256 mod 256); PortOut 0x1F5 (n / 65536 mod 256);
   PortOut 0x1F6 (0xE0 + n / 16777216); PortOut 0x1F7 0x20].

Section boot.
Context `{Fu : Fuel} `{Hd : Hardware}.

(** A disk with these sectors that follows the ATA protocol: it becomes ready, and once a poll after the last command has found it ready, the data port
    returns the sector of that command. *)
Record boot_disk (sect : Z -> list Z) : Prop := {
  bd_wait : forall h, exists polls r, poll fuel h = Some (polls, r);
  bd_size : forall n, length (sect n) = 512%nat;
  bd_read : forall h n vs v, 0 <= n < 2 ^ 28 -> disk_ready v = true ->
    hw_ins (h ++ boot_cmd n ++ (PortIn 0x1f7 <$> vs ++ [v])) 0x1f0 128 = sect n;
}.

Variable sect : Z -> list Z.
Hypothesis Hdisk : boot_disk sect.

(** The byte [x] of the kernel file, which starts at sector 1. *)
Definition image (x : Z) : Z := default 0 (sect (x / 512 + 1) !! Z.to_nat (x mod 512)).

Lemma u8_shift n j : 0 <= j -> u8 (Z.shiftr n j) = n / 2 ^ j mod 256.
Proof. intros Hj. unfold u8. by rewrite Z.shiftr_div_pow2. Qed.

Lemma lba_top n : 0 <= n < 2 ^ 28 -> u8 (Z.lor (Z.shiftr n 24) 0xE0) = 0xE0 + n / 16777216.
Proof.
  intros Hn. rewrite Z.shiftr_div_pow2 by lia. change (2 ^ 24) with 16777216.
  assert (Hq : 0 <= n / 16777216 < 16) by (split; [apply Z.div_pos; lia|apply Z.div_lt_upper_bound; lia]).
  generalize dependent (n / 16777216). intros q Hq.
  assert (Hall : forallb (fun q => u8 (Z.lor q 0xE0) =? 0xE0 + q) (Z.of_nat <$> seq 0 16) = true) by reflexivity.
  rewrite forallb_forall in Hall. apply Z.eqb_eq, Hall, in_map_iff. exists (Z.to_nat q). rewrite in_seq. lia.
Qed.

Lemma readsect_run dst n mem m co p k : 0 <= n < 2 ^ 28 ->
  exists k', readsect dst n mem (W m co p k) = Ret (mem_store dst (sect n) mem) (W m co p k').
Proof.
  intros Hn. unfold readsect, waitdisk. destruct (bd_wait _ Hdisk (hw_trace (k_hw k))) as (polls & r & Hp).
  erewrite bind_Ret by (erewrite bind_Ret by (by apply wait_ready_run); reflexivity). rewrite !outb_then.
  rewrite !hw_log_app. match goal with |- context [hw_log ?e k] => set (evs := e) end.
  destruct (bd_wait _ Hdisk (hw_trace (k_hw (hw_log evs k)))) as (polls2 & r2 & Hp2).
  erewrite bind_Ret by (erewrite bind_Ret by (by apply wait_ready_run); reflexivity).
  destruct (poll_events _ _ _ _ Hp2) as (Hrdy & vs & ->). rewrite hw_log_app. eexists.
  rewrite (bind_Ret _ _ _ _ _ (insl_run _ _ _ _ _ _)). rewrite hw_log_trace. change (Z.to_nat (SECTSIZE / 4)) with 128%nat.
  change 0x1F0 with 0x1f0. unfold evs. rewrite <- !app_assoc, (app_assoc _ polls). cbn [app].
  rewrite (u8_shift n 8), (u8_shift n 16), (lba_top n) by lia. change (2 ^ 8) with 256. change (2 ^ 16) with 65536.
  change (u8 1) with 1. change (u8 0x20) with 0x20. unfold u8 at 1. change (2 ^ 8) with 256.
  rewrite (bd_read _ Hdisk _ n vs r2 Hn Hrdy : hw_ins (_ ++ PortOut _ 1 :: _) _ _ = _). reflexivity.
Qed.

Lemma mem_store_at a bs mem x : a <= x < a + Z.of_nat (length bs) -> mem_store a bs mem x = default 0 (bs !! Z.to_nat (x - a)).
Proof. intros H. unfold mem_store. by rewrite (proj2 (Z.leb_le a x)), (proj2 (Z.ltb_lt x _)) by lia. Qed.

Lemma mem_store_out a bs mem x : x < a \/ a + Z.of_nat (length bs) <= x -> mem_store a bs mem x = mem x.
Proof.
  intros H. unfold mem_store. replace ((a <=? x) && (x <? a + Z.of_nat (length bs))) with false; [done|].
  symmetry. apply andb_false_iff. rewrite Z.leb_gt, Z.ltb_ge. lia.
Qed.

(** [n] sectors, from sector [off] on. *)
Lemma readseg_loop_run m co p epa n : forall fuel pa off mem k,
  (n < fuel)%nat -> 0 <= pa -> pa + 512 * Z.of_nat n < 2 ^ 32 -> 0 <= off -> off + Z.of_nat n < 2 ^ 28 ->
  epa <= pa + 512 * Z.of_nat n -> (n = 0%nat \/ pa + 512 * (Z.of_nat n - 1) < epa) ->
  exists mem' k', readseg_loop fuel epa pa off mem (W m co p k) = Ret mem' (W m co p k') /\
    forall x, mem' x = if decide (pa <= x < pa + 512 * Z.of_nat n)
      then default 0 (sect (off + (x - pa) / 512) !! Z.to_nat ((x - pa) mod 512)) else mem x.
Proof.
  unfold readseg_loop. induction n as [|n IH]; intros [|fuel] pa off mem k Hf Hpa Htop Hoff Hsec Hend Hneed; try lia; cbn [loop].
  - rewrite (proj2 (Z.ltb_ge pa epa)) by lia. rewrite (bind_Ret _ _ _ (inr mem) (W m co p k)) by done.
    exists mem, k. split; [done|]. intros x. rewrite decide_False by lia. done.
  - rewrite (proj2 (Z.ltb_lt pa epa)) by lia. destruct (readsect_run pa off mem m co p k ltac:(lia)) as (k1 & Hr).
    erewrite bind_Ret by (erewrite bind_Ret by exact Hr; reflexivity). unfold SECTSIZE. rewrite !u32_id by (unfold is_u32; lia).
    destruct (IH fuel (pa + 512) (off + 1) (mem_store pa (sect off) mem) k1) as (mem' & k' & Hrun & Hm); [lia..|].
    exists mem', k'. split; [exact Hrun|]. intros x. rewrite Hm. pose proof (bd_size _ Hdisk off) as Hl.
    destruct (decide (pa + 512 <= x < pa + 512 + 512 * Z.of_nat n)).
    + rewrite decide_True by lia. replace (x - pa) with ((x - (pa + 512)) + 1 * 512) by lia. rewrite Z.div_add, Z.mod_add by lia.
      do 3 f_equal. lia.
    + destruct (decide (pa <= x < pa + 512)).
      * rewrite decide_True, mem_store_at by lia. rewrite Z.div_small, Z.mod_small, Z.add_0_r by lia. done.
      * rewrite decide_False, mem_store_out by lia. done.
Qed.

(** The sectors [readseg] reads, and where it starts to store them. *)
Definition nsect (count offset : Z) : Z := (count + offset mod 512 + 511) / 512.
Definition seg_lo (pa offset : Z) : Z := pa - offset mod 512.
Definition seg_hi (pa count offset : Z) : Z := seg_lo pa offset + 512 * nsect count offset.

Lemma nsect_bounds count offset : 0 <= count ->
  0 <= nsect count offset /\ nsect count offset <= count / 512 + 2 /\ count + offset mod 512 <= 512 * nsect count offset < count + offset mod 512 + 512.
Proof.
  intros Hc. unfold nsect. pose proof (Z.mod_pos_bound offset 512 ltac:(lia)). set (r := offset mod 512) in *. clearbody r.
  pose proof (Z.div_mod (count + r + 511) 512). pose proof (Z.mod_pos_bound (count + r + 511) 512). pose proof (Z.div_mod count 512).
  pose proof (Z.mod_pos_bound count 512). lia.
Qed.

Lemma readseg_run pa count offset mem m co p k :
  0 <= count -> 0 <= offset -> 0 <= seg_lo pa offset -> seg_hi pa count offset < 2 ^ 32 -> offset / 512 + 1 + nsect count offset < 2 ^ 28 ->
  exists mem' k', readseg pa count offset mem (W m co p k) = Ret mem' (W m co p k') /\
    forall x, mem' x = if decide (seg_lo pa offset <= x < seg_hi pa count offset) then image (x - pa + offset) else mem x.
Proof.
  intros Hc Ho Hlo Hhi Hsec. destruct (nsect_bounds count offset Hc) as (Hn & Hn2 & Hn3). unfold readseg, SECTSIZE.
  pose proof (Z.mod_pos_bound offset 512 ltac:(lia)). pose proof (Z.div_pos offset 512 Ho ltac:(lia)). unfold seg_hi, seg_lo in *.
  rewrite !u32_id by (unfold is_u32; lia).
  destruct (readseg_loop_run m co p (pa + count) (Z.to_nat (nsect count offset)) (Z.to_nat (count / 512) + 3) (pa - offset mod 512)
    (offset / 512 + 1) mem k) as (mem' & k' & Hrun & Hm); [lia..|]. exists mem', k'. split; [exact Hrun|]. intros x. rewrite Hm, Z2Nat.id by lia.
  destruct (decide _) as [Hx|]; [|done]. unfold image. pose proof (Z.div_mod offset 512 ltac:(lia)).
  replace (x - pa + offset) with ((x - (pa - offset mod 512)) + (offset / 512) * 512) by lia. rewrite Z.div_add, Z.mod_add by lia.
  do 3 f_equal. lia.
Qed.

(** ** Loading the kernel *)

(** The headers in the kernel file. *)
Definition kernel_hdr : elfhdr := get_elfhdr (mem_bytes image 0 52).
Definition kernel_ph (i : nat) : proghdr := get_proghdr (mem_bytes image (e_phoff kernel_hdr + 32 * Z.of_nat i) 32).

(** The addresses that loading a segment may change, and the end of the segment. *)
Definition ph_lo (p : proghdr) : Z := seg_lo (ph_paddr p) (ph_off p).
Definition ph_end (p : proghdr) : Z := ph_paddr p + Z.max (ph_filesz p) (ph_memsz p).
Definition ph_top (p : proghdr) : Z := Z.max (seg_hi (ph_paddr p) (ph_filesz p) (ph_off p)) (ph_end p).

(** A kernel file that can be loaded: the headers are in the first page, the segments lie in memory and clear of that page, and loading
    a segment does not touch those before it. *)
Record kernel_ok (phnum : nat) : Prop := {
  ko_magic : e_magic kernel_hdr = ELF_MAGIC;
  ko_phnum : e_phnum kernel_hdr = Z.of_nat phnum;
  ko_table : 0 <= e_phoff kernel_hdr /\ e_phoff kernel_hdr + 32 * Z.of_nat phnum <= 4096;
  ko_file : forall i, (i < phnum)%nat -> let p := kernel_ph i in
    0 <= ph_filesz p /\ 0 <= ph_off p /\ ph_off p / 512 + 1 + nsect (ph_filesz p) (ph_off p) < 2 ^ 28;
  ko_mem : forall i, (i < phnum)%nat -> let p := kernel_ph i in
    0 <= ph_lo p /\ ph_top p < 2 ^ 32 /\ (ph_top p <= 0x10000 \/ 0x11000 <= ph_lo p);
  ko_apart : forall i j, (i < j < phnum)%nat -> ph_end (kernel_ph i) <= ph_lo (kernel_ph j) \/ ph_top (kernel_ph j) <= ph_paddr (kernel_ph i);
}.

(** The first page of the file is at 0x10000. *)
Definition page_loaded (mem : Z -> Z) : Prop := forall x, 0 <= x < 4096 -> mem (0x10000 + x) = image x.

(** A segment is in memory. *)
Definition seg_loaded (p : proghdr) (mem : Z -> Z) : Prop :=
  (forall j, 0 <= j < ph_filesz p -> mem (ph_paddr p + j) = image (ph_off p + j)) /\
  (forall j, ph_filesz p <= j < ph_memsz p -> mem (ph_paddr p + j) = 0).

Lemma page_bytes mem off n : page_loaded mem -> 0 <= off -> off + Z.of_nat n <= 4096 -> mem_bytes mem (0x10000 + off) n = mem_bytes image off n.
Proof.
  intros Hp Ho Hn. unfold mem_bytes. apply list_eq. intros i. rewrite !list_lookup_fmap. destruct (decide (i < n)%nat) as [Hi|].
  - rewrite lookup_seq_lt by done. cbn. f_equal. rewrite <- Z.add_assoc. rewrite Hp by lia. done.
  - by rewrite lookup_seq_ge by lia.
Qed.

(** One segment: it is loaded, and memory outside its range is kept. *)
Lemma load_seg_run ph mem m co p k :
  0 <= ph_filesz ph -> 0 <= ph_off ph -> ph_off ph / 512 + 1 + nsect (ph_filesz ph) (ph_off ph) < 2 ^ 28 -> 0 <= ph_lo ph -> ph_top ph < 2 ^ 32 ->
  exists mem1 k', readseg (ph_paddr ph) (ph_filesz ph) (ph_off ph) mem (W m co p k) = Ret mem1 (W m co p k') /\
    let mem2 := if ph_filesz ph <? ph_memsz ph then mem_store (u32 (ph_paddr ph + ph_filesz ph)) (replicate (Z.to_nat (ph_memsz ph - ph_filesz ph)) 0) mem1
      else mem1 in
    seg_loaded ph mem2 /\ forall x, x < ph_lo ph \/ ph_top ph <= x -> mem2 x = mem x.
Proof.
  intros Hf Ho Hs Hlo Htop. unfold ph_top, ph_end, ph_lo in *. destruct (nsect_bounds (ph_filesz ph) (ph_off ph) Hf) as (Hn & _ & Hn3).
  destruct (readseg_run (ph_paddr ph) (ph_filesz ph) (ph_off ph) mem m co p k Hf Ho) as (mem1 & k' & Hrun & Hm); [lia|lia|done|].
  exists mem1, k'. split; [exact Hrun|]. cbn zeta. unfold seg_hi, seg_lo in *. pose proof (Z.mod_pos_bound (ph_off ph) 512 ltac:(lia)) as Hr.
  assert (Hfile : forall j, 0 <= j < ph_filesz ph -> mem1 (ph_paddr ph + j) = image (ph_off ph + j)).
  { intros j Hj. rewrite Hm, decide_True by lia. f_equal. lia. }
  destruct (Z.ltb_spec (ph_filesz ph) (ph_memsz ph)) as [Hz|Hz].
  - rewrite u32_id by (unfold is_u32; lia). assert (Hlen : Z.of_nat (length (replicate (Z.to_nat (ph_memsz ph - ph_filesz ph)) 0)) = ph_memsz ph - ph_filesz ph)
      by (rewrite length_replicate; lia). split; [split|].
    + intros j Hj. rewrite mem_store_out by lia. by apply Hfile.
    + intros j Hj. rewrite mem_store_at by lia. rewrite lookup_replicate_2 by lia. done.
    + intros x Hx. rewrite mem_store_out by lia. rewrite Hm, decide_False by lia. done.
  - split; [split; [exact Hfile|intros j Hj; lia]|]. intros x Hx. rewrite Hm, decide_False by lia. done.
Qed.

Lemma load_segs_run phnum m co p n : kernel_ok phnum -> forall i mem k,
  (i + n = phnum)%nat -> page_loaded mem -> (forall j, (j < i)%nat -> seg_loaded (kernel_ph j) mem) ->
  exists mem' k', load_segs n (0x10000 + e_phoff kernel_hdr + 32 * Z.of_nat i) mem (W m co p k) = Ret mem' (W m co p k') /\
    page_loaded mem' /\ forall j, (j < phnum)%nat -> seg_loaded (kernel_ph j) mem'.
Proof.
  intros Hok. pose proof (ko_table _ Hok) as [Hph Htab]. induction n as [|n IH]; intros i mem k Hi Hpage Hdone; cbn [load_segs].
  { exists mem, k. split; [done|]. split; [done|]. intros j Hj. apply Hdone. lia. }
  rewrite <- Z.add_assoc, page_bytes by (done || lia). change (get_proghdr (mem_bytes image (e_phoff kernel_hdr + 32 * Z.of_nat i) 32)) with (kernel_ph i).
  destruct (ko_file _ Hok i ltac:(lia)) as (Hf & Ho & Hs). destruct (ko_mem _ Hok i ltac:(lia)) as (Hlo & Htop & Haway).
  destruct (load_seg_run (kernel_ph i) mem m co p k Hf Ho Hs Hlo Htop) as (mem1 & k1 & Hrun & Hseg & Hkeep).
  erewrite bind_Ret by exact Hrun. cbn zeta. unfold sizeof_proghdr. rewrite u32_id by (unfold is_u32; lia).
  match goal with |- context [load_segs n _ ?mm] => set (mem2 := mm) in * end.
  destruct (IH (Datatypes.S i) mem2 k1) as (mem' & k' & Hrun' & Hall); [lia| | |].
  - intros x Hx. rewrite Hkeep by lia. by apply Hpage.
  - intros j Hj. destruct (decide (j = i)) as [->|Hne]; [exact Hseg|]. destruct (Hdone j ltac:(lia)) as [Ha Hb].
    pose proof (ko_apart _ Hok j i ltac:(lia)) as Hap. unfold ph_end in Hap. destruct (ko_file _ Hok j ltac:(lia)) as (Hfj & _ & _).
    split; intros x Hx; rewrite Hkeep by lia; [by apply Ha|by apply Hb].
  - exists mem', k'. split; [|exact Hall]. rewrite <- Hrun'. f_equal. lia.
Qed.

(** C31.  On a disk that follows the ATA protocol, and for a loadable kernel file from sector 1 on, [bootmain] ends and jumps to the entry point of
    the file with every segment in memory, its bytes as in the file and the rest of it zero; without the ELF magic number it
    returns to bootasm.S. *)
Theorem bootmain_spec phnum mem m co p k :
  (kernel_ok phnum -> exists mem' k',
     bootmain mem (W m co p k) = Ret (Some (e_entry kernel_hdr), mem') (W m co p k') /\
     forall i, (i < phnum)%nat -> seg_loaded (kernel_ph i) mem') /\
  (e_magic kernel_hdr ≠ ELF_MAGIC -> exists mem' k', bootmain mem (W m co p k) = Ret (None, mem') (W m co p k')).
Proof.
  destruct (readseg_run 0x10000 4096 0 mem m co p k) as (mem1 & k1 & Hrun & Hm); [by vm_compute..|].
  assert (Hpage : page_loaded mem1).
  { intros x Hx. rewrite Hm. change (seg_lo 0x10000 0) with 0x10000. change (seg_hi 0x10000 4096 0) with 0x11000.
    rewrite decide_True by lia. f_equal. lia. }
  unfold bootmain. erewrite bind_Ret by exact Hrun. cbn zeta.
  rewrite (page_bytes mem1 0 52 Hpage ltac:(lia) ltac:(lia) : mem_bytes mem1 0x10000 52 = _). change (get_elfhdr (mem_bytes image 0 52)) with kernel_hdr. split.
  - intros Hok. rewrite (ko_magic _ Hok). cbn [negb Z.eqb Pos.eqb ELF_MAGIC]. rewrite (ko_phnum _ Hok), Nat2Z.id.
    pose proof (ko_table _ Hok). rewrite u32_id by (unfold is_u32; lia).
    destruct (load_segs_run phnum m co p phnum Hok 0 mem1 k1) as (mem' & k' & Hload & Hpage' & Hall); [lia|done|intros j Hj; lia|].
    rewrite Z.mul_0_r, Z.add_0_r in Hload. exists mem', k'. split; [|exact Hall]. erewrite bind_Ret by exact Hload.
    by rewrite (page_bytes mem' 0 52 Hpage' ltac:(lia) ltac:(lia) : mem_bytes mem' 0x10000 52 = _).
  - intros Hne. rewrite (proj2 (Z.eqb_neq _ _) Hne). by exists mem1, k1.
Qed.

End boot.

(** ** A small kernel *)

(** A file with one segment, of three bytes in the file and five in memory. *)
Definition ex_header : list Z :=
  le_bytes 4 ELF_MAGIC ++ replicate 20 0 ++ le_bytes 4 0x10000C ++ le_bytes 4 52 ++ replicate 12 0 ++ le_bytes 2 1 ++ replicate 6 0 ++
  le_bytes 4 1 ++ le_bytes 4 512 ++ le_bytes 4 0x80100000 ++ le_bytes 4 0x100000 ++ le_bytes 4 3 ++ le_bytes 4 5 ++ replicate 8 0.
Definition ex_sect (n : Z) : list Z :=
  if n =? 1 then ex_header ++ replicate 428 0 else if n =? 2 then [7; 8; 9] ++ replicate 509 1 else replicate 512 0.
Definition ex_boot : Hardware :=
  {| hw_in _ _ := IDE_DRDY; hw_ins h _ _ := ex_sect (ad_lba (ad_run h)); hw_mmio _ _ := 0 |}.

Lemma ex_boot_disk : boot_disk (Fu := 1%nat) (Hd := ex_boot) ex_sect.
Proof.
  split.
  - intros h. by exists [PortIn 0x1f7 IDE_DRDY], IDE_DRDY.
  - intros n. unfold ex_sect. destruct (n =? 1); [done|]. by destruct (n =? 2).
  - intros h n vs v Hn _. cbn [ex_boot hw_ins]. rewrite app_assoc, ad_polls. f_equal. unfold ad_run. rewrite foldl_app.
    cbn [boot_cmd foldl ad_step Z.eqb Pos.eqb ad3 ad4 ad5 ad6 ad_sect]. unfold ad_lba. cbn [ad3 ad4 ad5 ad6].
    by destruct (lba_decode 0 n ltac:(lia) Hn) as [Hl _].
Qed.

Lemma ex_kernel_ok : kernel_ok ex_sect 1.
Proof.
  split; [reflexivity|reflexivity|split; vm_compute; discriminate| | |intros i j Hij; lia].
  - intros i Hi. assert (i = 0%nat) as -> by lia. vm_compute. split_and!; discriminate || reflexivity.
  - intros i Hi. assert (i = 0%nat) as -> by lia. vm_compute. split_and!; [discriminate|reflexivity|right; discriminate].
Qed.

Lemma bootmain_spec_witness :
  exists mem' k', bootmain (Fu := 1%nat) (Hd := ex_boot) (fun _ => 0xFF) (W ex_machine ex_console (ex_procs 0) kst0) =
      Ret (Some 0x10000C, mem') (W ex_machine ex_console (ex_procs 0) k') /\
    mem' 0x100002 = 9 /\ mem' 0x100004 = 0.
Proof.
  destruct (bootmain_spec (Fu := 1%nat) (Hd := ex_boot) ex_sect ex_boot_disk 1 (fun _ => 0xFF) ex_machine ex_console (ex_procs 0) kst0) as [Hb _].
  destruct (Hb ex_kernel_ok) as (mem' & k' & Hrun & Hseg). exists mem', k'. destruct (Hseg 0%nat ltac:(lia)) as [Hf Hz].
  split; [exact Hrun|]. split; [apply (Hf 2); vm_compute; split; [discriminate|reflexivity]|apply (Hz 4); vm_compute; split; [discriminate|reflexivity]].
Defined.
