(* ===== verification/Sysproc.v ===== *)
(** * Process system calls (sysproc.c)

    The system calls that only fetch their arguments and call into proc.c.  The theorem shows when the [sleep]
    call gives up the CPU and what it answers when the process is scheduled again. *)

From S2P Require Import Prelude Kstate Spinlock Cprintf Proc Admission Kdata Sleeplock Kalloc Bio Block Log Vm CString Fs Pipe File ProcLife Umem Sysarg.
From stdpp Require Import gmap strings list fin_maps.
Open Scope Z_scope.

Section sysproc_c.
Context `{Lk : Linker} `{Ld : LinkerData} `{Pr : Program} `{Fu : Fuel} `{Drv : DiskDriver} `{Dev : Devices}.

Definition sys_fork : MK Z := fork.
Definition sys_exit : MK Z := exit ;;; ret 0.
Definition sys_wait : MK Z := wait.

Definition sys_kill : MK Z :=
  let! r := argint 0 in
  match r with None => ret (-1) | Some pid => kill pid end.

Definition sys_getpid : MK Z := let! p := curproc in ret (p_pid p).

Definition sys_sbrk : MK Z :=
  let! r := argint 0 in
  match r with
  | None => ret (-1)
  | Some n =>
      let! p := curproc in
      let addr := s32 (p_sz p) in
      let! r := growproc n in
      if r <? 0 then ret (-1) else ret addr
  end.

(** One turn of [while(ticks - ticks0 < n)]; the comparison is unsigned. *)
Definition sleep_turn (ticks0 n : Z) : MK (unit + Z) :=
  let! ps := get_p in
  if negb (u32 (ticks ps - ticks0) <? u32 n) then
    release Ltickslock ;;;
    ret (inr 0)
  else
    let! p := curproc in
    if negb (p_killed p =? 0) then
      release Ltickslock ;;;
      ret (inr (-1))
    else
      sleep Cticks Ltickslock ;;;
      ret (inl tt).

Definition sys_sleep : MK Z :=
  let! r := argint 0 in
  match r with
  | None => ret (-1)
  | Some n =>
      acquire Ltickslock ;;;
      let! ps := get_p in
      loop (Datatypes.S fuel) (fun _ => sleep_turn (ticks ps) n) tt
  end.

Definition sys_uptime : MK Z :=
  acquire Ltickslock ;;;
  let! ps := get_p in
  let xticks := ticks ps in
  release Ltickslock ;;;
  ret (s32 xticks).

Definition sys_printinfo : MK Z := printinfo.

(** The results of [argint] are not tested: a word that cannot be fetched leaves the C parameter as it was. *)
Definition sys_sched_policy (pid policy : Z) : MK Z :=
  let! a := argint 0 in
  let! b := argint 1 in
  sched_policy (default pid a) (default policy b).

Definition sys_exec_time (pid time : Z) : MK Z :=
  let! a := argint 0 in
  let! b := argint 1 in
  exec_time (default pid a) (default time b).

Definition sys_deadline (pid p_deadline : Z) : MK Z :=
  let! a := argint 0 in
  let! b := argint 1 in
  deadline (default pid a) (default p_deadline b).

Definition sys_rate (pid p_rate : Z) : MK Z :=
  let! a := argint 0 in
  let! b := argint 1 in
  rate (default pid a) (default p_rate b).

End sysproc_c.

(** ** Properties *)

Section sleep.
Context `{Lk : Linker} `{Ld : LinkerData} `{Pr : Program} `{Fu : Fuel} `{Drv : DiskDriver} `{Dev : Devices}.

(** A turn of the loop of [sleep] under tickslock, in each of its three cases. *)
Lemma sleep_turn_run m co p (k : kst) i pr t0 n :
  idle m -> has_lock m Lptable -> has_lock m Ltickslock -> cur m = Some i -> ptable p !! i = Some pr ->
  if decide (u32 n <= u32 (ticks p - t0)) then
    sleep_turn t0 n (W (held m [Ltickslock]) co p k) = Ret (inr 0) (W (held m []) co p k)
  else if decide (p_killed pr = 0) then
    exists kont, sleep_turn t0 n (W (held m [Ltickslock]) co p k) = Swtch (W (held m [Lptable]) co (asleep i Cticks p) k) kont /\
      forall m' co' p' k', idle m' -> has_lock m' Lptable -> has_lock m' Ltickslock ->
        kont (W (held m' [Lptable]) co' p' k') =
        Ret (inl tt) (W (held (m' <| fl_if := fl_if m |>) [Ltickslock]) co' (awake i p') k')
  else sleep_turn t0 n (W (held m [Ltickslock]) co p k) = Ret (inr (-1)) (W (held m []) co p k).
Proof.
  intros Hm Hpt Htk Hc Hi. unfold sleep_turn. destruct (decide (u32 n <= u32 (ticks p - t0))) as [Hle|Hgt].
  - erewrite bind_Ret by reflexivity. cbn [w_p]. rewrite (proj2 (Z.ltb_ge _ _)) by done. cbn [negb].
    by erewrite bind_Ret by (apply release_last; [done..|not_held]).
  - assert (Hcur : curproc (W (held m [Ltickslock]) co p k) = Ret pr (W (held m [Ltickslock]) co p k)).
    { unfold curproc. erewrite bind_Ret by (apply myproc_held; eauto with xv6). rewrite Hc.
      erewrite bind_Ret by reflexivity. unfold proc_at, bind, get_p; cbn. by rewrite Hi. }
    destruct (decide (p_killed pr = 0)) as [Hk|Hk].
    + destruct (sleep_run m Ltickslock Cticks co p k i pr) as (kont & Hrun & Hkont); [done..|].
      eexists. split.
      * erewrite bind_Ret by reflexivity. cbn [w_p]. rewrite (proj2 (Z.ltb_lt _ _)) by lia. cbn [negb].
        erewrite bind_Ret by exact Hcur. rewrite Hk. change (negb (0 =? 0)) with false. cbn match. by apply bind_Swtch.
      * intros m' co' p' k' Hm' Hpt' Htk'. cbn beta. by rewrite Hkont.
    + erewrite bind_Ret by reflexivity. cbn [w_p]. rewrite (proj2 (Z.ltb_lt _ _)) by lia. cbn [negb].
      erewrite bind_Ret by exact Hcur. rewrite (proj2 (Z.eqb_neq _ 0)) by done. cbn [negb].
      by erewrite bind_Ret by (apply release_last; [done..|not_held]).
Qed.

(** A process in slot [i] asleep in [sleep(n)] since tick [t0], with the interrupt flag [b] to restore.  Scheduled again in
    any state: once [n] ticks have passed it returns 0, if it was killed -1, and else it goes back to sleep, as often as [f] more times. *)
Fixpoint napping (f i : nat) (t0 n : Z) (b : bool) (kont : world kst -> res kst Z) : Prop :=
  forall m co p k pr, idle m -> has_lock m Lptable -> has_lock m Ltickslock -> cur m = Some i -> ptable p !! i = Some pr ->
    let m1 := m <| fl_if := b |> in
    let passed := u32 (ticks p - t0) in
    (u32 n <= passed -> kont (W (held m [Lptable]) co p k) = Ret 0 (W (held m1 []) co (awake i p) k)) /\
    (passed < u32 n -> p_killed pr ≠ 0 -> kont (W (held m [Lptable]) co p k) = Ret (-1) (W (held m1 []) co (awake i p) k)) /\
    (passed < u32 n -> p_killed pr = 0 ->
      match f with
      | O => True
      | S f => exists kont', kont (W (held m [Lptable]) co p k) = Swtch (W (held m1 [Lptable]) co (asleep i Cticks (awake i p)) k) kont' /\
          napping f i t0 n b kont'
      end).

Lemma napping_loop f i t0 n : forall b (kont : world kst -> res kst (unit + Z)),
  (forall m co p k, idle m -> has_lock m Lptable -> has_lock m Ltickslock ->
    kont (W (held m [Lptable]) co p k) = Ret (inl tt) (W (held (m <| fl_if := b |>) [Ltickslock]) co (awake i p) k)) ->
  napping f i t0 n b (fun w => bind_res (kont w) (fun x => match x with inl a => loop (S f) (fun _ => sleep_turn t0 n) a | inr r => ret r end)).
Proof.
  induction f as [|f IH]; intros b kont Hk m co p k pr Hm Hpt Htk Hc Hi; cbn zeta beta; rewrite Hk by done; cbn [bind_res].
  all: set (m2 := m <| fl_if := b |>).
  all: pose proof (sleep_turn_run m2 co (awake i p) k i (pr <| p_chan := None |>) t0 n Hm Hpt Htk Hc) as Ht2.
  all: assert (Hi2 : ptable (awake i p) !! i = Some (pr <| p_chan := None |>)) by (cbn; by rewrite list_lookup_alter_eq, Hi).
  all: specialize (Ht2 Hi2); change (ticks (awake i p)) with (ticks p) in Ht2.
  all: split; [intros Hle; rewrite decide_True in Ht2 by done; cbn [loop]; by erewrite bind_Ret by exact Ht2|].
  all: split; intros Hlt Hkill; rewrite decide_False in Ht2 by lia; try done.
  1-2: rewrite decide_False in Ht2 by done; cbn [loop]; by erewrite bind_Ret by exact Ht2.
  rewrite decide_True in Ht2 by done. destruct Ht2 as (kont' & Hrun & Hk'). eexists. split; [by apply loop_Swtch|]. by apply IH.
Qed.

End sleep.

(** C22.  The [sleep] system call.  With an argument of 0 it returns at once.  Otherwise the process gives up the CPU, asleep on the
    tick counter, and through any number of wakeups, in whatever state it is scheduled again: it returns 0 with tickslock free if at least as many ticks as asked for
    have passed since the call, whatever the counter did in between (it may wrap), -1 if it was killed before, and else it sleeps again. *)
Theorem sys_sleep_spec `{Fu : Fuel} m co p k i pr n :
  in_user m p k i pr -> has_lock m Lptable -> has_lock m Ltickslock -> p_killed pr = 0 -> (0 < fuel)%nat -> is_arg k pr 0 n ->
  if decide (u32 n = 0) then sys_sleep (W (held m []) co p k) = Ret 0 (W (held m []) co p k)
  else exists kont, sys_sleep (W (held m []) co p k) = Swtch (W (held m [Lptable]) co (asleep i Cticks p) k) kont /\
    napping (pred fuel) i (ticks p) n (fl_if m) kont.
Proof.
  intros U Hpt Htk Hlive Hfuel Hn. pose proof (iu_idle _ _ _ _ _ U) as Hm. pose proof (iu_cur _ _ _ _ _ U) as Hc.
  pose proof (iu_proc _ _ _ _ _ U) as Hi.
  assert (Hpre : forall r, loop (Datatypes.S fuel) (fun _ => sleep_turn (ticks p) n) tt (W (held m [Ltickslock]) co p k) = r ->
    sys_sleep (W (held m []) co p k) = r).
  { intros r <-. unfold sys_sleep.
    destruct (wp_elim (argint 0) (fun v w => v = Some n /\ w = W (held m []) co p k) (W (held m []) co p k)) as (v & w & Hrun & -> & ->).
    { eapply wp_argint; [done| |]; [|intros Hno; destruct Hn as [? _]; lia].
      intros v Hv. by rewrite (is_arg_inj _ _ _ _ _ Hv Hn). }
    erewrite bind_Ret by exact Hrun. cbn match. erewrite bind_Ret by (apply acquire_held; [done..|not_held]).
    by erewrite bind_Ret by reflexivity. }
  pose proof (sleep_turn_run m co p k i pr (ticks p) n Hm Hpt Htk Hc Hi) as Hturn. rewrite Z.sub_diag in Hturn.
  change (u32 0) with 0 in Hturn. pose proof (u32_range n) as Hu. unfold is_u32 in Hu.
  destruct (decide (u32 n = 0)) as [H0|H0].
  - apply Hpre. rewrite decide_True in Hturn by lia. cbn [loop]. by erewrite bind_Ret by exact Hturn.
  - rewrite decide_False, decide_True in Hturn by (done || lia). destruct Hturn as (kont & Hrun & Hk).
    eexists. split; [apply Hpre; by apply loop_Swtch|]. destruct fuel as [|f]; [lia|]. by apply (napping_loop f).
Qed.

Lemma sys_sleep_spec_witness :
  exists kont, @sys_sleep 1%nat (W (held ex_umachine []) ex_console ex_uprocs ex_umem) =
    Swtch (W (held ex_umachine [Lptable]) ex_console (asleep 1 Cticks ex_uprocs) ex_umem) kont.
Proof.
  assert (Hlk : forall lk, lk = Lptable \/ lk = Ltickslock -> has_lock ex_umachine lk).
  { intros lk Hlk. refine (ready_lock ex_machine lk (run_locks _ _ _ _ (ex_running 0)) _). destruct Hlk as [-> | ->]; set_solver. }
  pose proof (@sys_sleep_spec 1%nat ex_umachine ex_console ex_uprocs ex_umem 1 ex_uproc 0x100) as Hs.
  rewrite decide_False in Hs by (vm_compute; discriminate). destruct Hs as (kont & Hrun & _).
  - exact ex_in_user.
  - apply Hlk. auto.
  - apply Hlk. auto.
  - reflexivity.
  - exact (le_n 1).
  - split; [vm_compute; discriminate|]. exists [0; 1; 0; 0]. split; [reflexivity|]. split; [|reflexivity].
    change (arg_addr ex_uproc 0) with 0xF04. change (p_pgdir ex_uproc) with 0x80401000.
    intros [|[|[|[|j]]]] c Hj; try discriminate Hj; injection Hj as <-; unfold ex_umem; rewrite ex_ubyte by lia; vm_compute; reflexivity.
  - exists kont. exact Hrun.
Defined.
