(* ===== verification/Sysfile.v ===== *)
(** * File system calls (sysfile.c)

    The system calls on files, directories and pipes, which check their arguments and call into file.c and fs.c.
    Paths and write buffers are read from user memory where the call starts; nothing changes the process's
    memory between that point and their use.  Bytes a call returns are stored when it is done. *)

From S2P Require Import Prelude Kstate Spinlock Cprintf Proc Admission Kdata Sleeplock Kalloc Bio Bcache Block Log Vm CString Fs Pipe File ProcLife Umem Sysarg Exec.
From stdpp Require Import gmap strings list fin_maps.
Open Scope Z_scope.

(** fcntl.h *)
Definition O_RDONLY : Z := 0.
Definition O_WRONLY : Z := 1.
Definition O_RDWR : Z := 2.
Definition O_CREATE : Z := 0x200.

(** [sizeof(struct stat)] *)
Definition sizeof_stat : Z := 20.

Section sysfile_c.
Context `{Lk : Linker} `{Ld : LinkerData} `{Fu : Fuel} `{Drv : DiskDriver} `{Dev : Devices}.

(** The descriptor and the file, or [None] for -1. *)
Definition argfd (n : Z) : MK (option (nat * nat)) :=
  let! r := argint n in
  match r with
  | None => ret None
  | Some fd =>
      if (fd <? 0) || (Z.of_nat NOFILE <=? fd) then ret None
      else
        let! p := curproc in
        match p_ofile p !! Z.to_nat fd with
        | Some (Some f) => ret (Some (Z.to_nat fd, f))
        | _ => ret None
        end
  end.

(** [myproc()->ofile[fd] = f] *)
Definition set_ofile (fd : nat) (f : option nat) : MK unit :=
  let! me := myproc in
  let! i := deref me in
  set_proc i (fun p => p <| p_ofile := <[fd := f]> (p_ofile p) |>).

(** The descriptor, or [None] for -1. *)
Definition fdalloc (f : nat) : MK (option nat) :=
  let! p := curproc in
  match find_idx (fun o => bool_decide (o = None)) (p_ofile p) with
  | Some fd => set_ofile fd (Some f) ;;; ret (Some fd)
  | None => ret None
  end.

Definition sys_dup : MK Z :=
  let! r := argfd 0 in
  match r with
  | None => ret (-1)
  | Some (_, f) =>
      let! fd := fdalloc f in
      match fd with
      | None => ret (-1)
      | Some fd => filedup f ;;; ret (Z.of_nat fd)
      end
  end.

(** The file, the buffer and the count of [read] and [write]. *)
Definition arg_buffer : MK (option (nat * Z * Z)) :=
  let! r := argfd 0 in
  match r with
  | None => ret None
  | Some (_, f) =>
      let! n := argint 2 in
      match n with
      | None => ret None
      | Some n =>
          let! p := argptr 1 n in
          match p with None => ret None | Some p => ret (Some (f, p, n)) end
      end
  end.

Definition sys_read : MK Z :=
  let! r := arg_buffer in
  match r with
  | None => ret (-1)
  | Some (f, p, n) =>
      let! '(r, dst) := fileread f n in
      store_bytes p dst ;;;
      ret r
  end.

Definition sys_write : MK Z :=
  let! r := arg_buffer in
  match r with
  | None => ret (-1)
  | Some (f, p, n) =>
      let! src := load_bytes p (Z.to_nat n) in
      filewrite f src
  end.

Definition sys_close : MK Z :=
  let! r := argfd 0 in
  match r with
  | None => ret (-1)
  | Some (fd, f) =>
      set_ofile fd None ;;;
      fileclose f ;;;
      ret 0
  end.

(** [stati] stores the fields one by one; the padding of [struct stat] keeps its bytes. *)
Definition store_stat (a : Z) (st : stat) : MK unit :=
  store32 (u32 (a + 4)) (st_dev st) ;;;
  store32 (u32 (a + 8)) (st_ino st) ;;;
  store16 a (st_type st) ;;;
  store16 (u32 (a + 12)) (st_nlink st) ;;;
  store32 (u32 (a + 16)) (st_size st).

Definition sys_fstat : MK Z :=
  let! r := argfd 0 in
  match r with
  | None => ret (-1)
  | Some (_, f) =>
      let! st := argptr 1 sizeof_stat in
      match st with
      | None => ret (-1)
      | Some a =>
          let! '(r, st) := filestat f in
          match st with Some st => store_stat a st | None => ret tt end ;;;
          ret r
      end
  end.

(** A string argument, with its NUL. *)
Definition arg_path (n : Z) : MK (option (list Z)) :=
  let! r := argstr n in
  match r with
  | None => ret None
  | Some (a, len) => let! bs := load_bytes a (Z.to_nat len + 1) in ret (Some bs)
  end.

(** [name[DIRSIZ]] before it is written; what it holds then is never read. *)
Definition no_name : list Z := replicate DIRSIZ 0.

Definition set_nlink (ip : nat) (d : Z) : MK unit :=
  set_inode ip (fun i => i <| i_nlink := s16 (i_nlink i + d) |>).

(** [bad:] of [sys_link]. *)
Definition link_bad (ip : nat) : MK Z :=
  ilock (Some ip) ;;;
  set_nlink ip (-1) ;;;
  iupdate ip ;;;
  iunlockput ip ;;;
  end_op ;;;
  ret (-1).

(** [sys_link] once the inode [ip] of the old path is counted. *)
Definition link_new (ip : nat) (new : list Z) : MK Z :=
  let! '(dp, name) := nameiparent new no_name in
  match dp with
  | None => link_bad ip
  | Some dp =>
      ilock (Some dp) ;;;
      let! d := inode_at dp in
      let! i := inode_at ip in
      let! r := (if negb (i_dev d =? i_dev i) then ret (-1) else dirlink dp name (i_inum i)) in
      if r <? 0 then
        iunlockput dp ;;;
        link_bad ip
      else
        iunlockput dp ;;;
        iput ip ;;;
        end_op ;;;
        ret 0
  end.

Definition sys_link : MK Z :=
  let! old := arg_path 0 in
  match old with
  | None => ret (-1)
  | Some old =>
      let! new := arg_path 1 in
      match new with
      | None => ret (-1)
      | Some new =>
          begin_op ;;;
          let! r := namei old in
          match r with
          | None => end_op ;;; ret (-1)
          | Some ip =>
              ilock (Some ip) ;;;
              let! i := inode_at ip in
              if i_type i =? T_DIR then
                iunlockput ip ;;;
                end_op ;;;
                ret (-1)
              else
                set_nlink ip 1 ;;;
                iupdate ip ;;;
                iunlock (Some ip) ;;;
                link_new ip new
          end
      end
  end.

(** The loop of [isdirempty] from [off]. *)
Definition isdirempty (dp : nat) : MK bool :=
  let! d := inode_at dp in
  loop (Z.to_nat (i_size d / Z.of_nat sizeof_dirent) + 1) (fun off =>
    if negb (off <? i_size d) then ret (inr true)
    else
      let! de := read_dirent dp off "isdirempty: readi" in
      if negb (de_inum de =? 0) then ret (inr false)
      else ret (inl (off + Z.of_nat sizeof_dirent))) (2 * Z.of_nat sizeof_dirent).

(** [bad:] of [sys_unlink]. *)
Definition unlink_bad (dp : nat) : MK Z :=
  iunlockput dp ;;;
  end_op ;;;
  ret (-1).

(** [sys_unlink] with the locked parent [dp] and the entry's inode [ip] and offset. *)
Definition unlink_entry (dp ip : nat) (off : Z) : MK Z :=
  ilock (Some ip) ;;;
  let! i := inode_at ip in
  if i_nlink i <? 1 then panic "unlink: nlink < 1"
  else
    let! busy := (if i_type i =? T_DIR then let! e := isdirempty ip in ret (negb e) else ret false) in
    if busy then
      iunlockput ip ;;;
      unlink_bad dp
    else
      let! r := writei dp (replicate sizeof_dirent 0) off in
      if negb (r =? Z.of_nat sizeof_dirent) then panic "unlink: writei"
      else
        let! i := inode_at ip in
        when (i_type i =? T_DIR) (set_nlink dp (-1) ;;; iupdate dp) ;;;
        iunlockput dp ;;;
        set_nlink ip (-1) ;;;
        iupdate ip ;;;
        iunlockput ip ;;;
        end_op ;;;
        ret 0.

Definition sys_unlink : MK Z :=
  let! path := arg_path 0 in
  match path with
  | None => ret (-1)
  | Some path =>
      begin_op ;;;
      let! '(dp, name) := nameiparent path no_name in
      match dp with
      | None => end_op ;;; ret (-1)
      | Some dp =>
          ilock (Some dp) ;;;
          let! dot := deref (namecmp name (str "." ++ [0])) in
          let! dots := (if dot =? 0 then ret 0 else deref (namecmp name (str ".." ++ [0]))) in
          if dots =? 0 then unlink_bad dp
          else
            let! r := dirlookup dp name in
            match r with
            | None => unlink_bad dp
            | Some (ip, off) => unlink_entry dp ip off
            end
      end
  end.

(** [create] for a new name: the locked inode. *)
Definition create_new (dp : nat) (name : list Z) (type major minor : Z) : MK nat :=
  let! d := inode_at dp in
  let! ip := ialloc (i_dev d) type in
  ilock (Some ip) ;;;
  set_inode ip (fun i => i <| i_major := major |> <| i_minor := minor |> <| i_nlink := 1 |>) ;;;
  iupdate ip ;;;
  let! i := inode_at ip in
  when (type =? T_DIR)
    (set_nlink dp 1 ;;;
     iupdate dp ;;;
     let! r := dirlink ip (str "." ++ [0]) (i_inum i) in
     if r <? 0 then panic "create dots"
     else
       let! d := inode_at dp in
       let! r := dirlink ip (str ".." ++ [0]) (i_inum d) in
       if r <? 0 then panic "create dots" else ret tt) ;;;
  let! r := dirlink dp name (i_inum i) in
  if r <? 0 then panic "create: dirlink"
  else
    iunlockput dp ;;;
    ret ip.

Definition create (path : list Z) (type major minor : Z) : MK (option nat) :=
  let! '(dp, name) := nameiparent path no_name in
  match dp with
  | None => ret None
  | Some dp =>
      ilock (Some dp) ;;;
      let! r := dirlookup dp name in
      match r with
      | Some (ip, _) =>
          iunlockput dp ;;;
          ilock (Some ip) ;;;
          let! i := inode_at ip in
          if (type =? T_FILE) && (i_type i =? T_FILE) then ret (Some ip)
          else
            iunlockput ip ;;;
            ret None
      | None => let! ip := create_new dp name type major minor in ret (Some ip)
      end
  end.

(** The locked inode that [open] opens, or [None] when the call has failed. *)
Definition open_inode (path : list Z) (omode : Z) : MK (option nat) :=
  if negb (Z.land omode O_CREATE =? 0) then
    let! ip := create path T_FILE 0 0 in
    match ip with
    | None => end_op ;;; ret None
    | Some ip => ret (Some ip)
    end
  else
    let! ip := namei path in
    match ip with
    | None => end_op ;;; ret None
    | Some ip =>
        ilock (Some ip) ;;;
        let! i := inode_at ip in
        if (i_type i =? T_DIR) && negb (omode =? O_RDONLY) then
          iunlockput ip ;;;
          end_op ;;;
          ret None
        else ret (Some ip)
    end.

(** [open] with a locked inode: the file and the descriptor. *)
Definition open_file (ip : nat) (omode : Z) : MK Z :=
  let! f := filealloc in
  let! fd := match f with Some f => fdalloc f | None => ret None end in
  match f, fd with
  | Some f, Some fd =>
      iunlock (Some ip) ;;;
      end_op ;;;
      set_file f (fun x => x <| f_type := FD_INODE |> <| f_ip := Some ip |> <| f_off := 0 |>
        <| f_readable := if Z.land omode O_WRONLY =? 0 then 1 else 0 |>
        <| f_writable := if negb (Z.land omode O_WRONLY =? 0) || negb (Z.land omode O_RDWR =? 0) then 1 else 0 |>) ;;;
      ret (Z.of_nat fd)
  | _, _ =>
      match f with Some f => fileclose f | None => ret tt end ;;;
      iunlockput ip ;;;
      end_op ;;;
      ret (-1)
  end.

Definition sys_open : MK Z :=
  let! path := arg_path 0 in
  match path with
  | None => ret (-1)
  | Some path =>
      let! omode := argint 1 in
      match omode with
      | None => ret (-1)
      | Some omode =>
          begin_op ;;;
          let! ip := open_inode path omode in
          match ip with
          | None => ret (-1)
          | Some ip => open_file ip omode
          end
      end
  end.

(** [mkdir] and [mknod] from [create] on. *)
Definition made (ip : option nat) : MK Z :=
  match ip with
  | None => end_op ;;; ret (-1)
  | Some ip =>
      iunlockput ip ;;;
      end_op ;;;
      ret 0
  end.

Definition sys_mkdir : MK Z :=
  begin_op ;;;
  let! path := arg_path 0 in
  let! ip := match path with None => ret None | Some path => create path T_DIR 0 0 end in
  made ip.

Definition sys_mknod : MK Z :=
  begin_op ;;;
  let! path := arg_path 0 in
  let! ip :=
    match path with
    | None => ret None
    | Some path =>
        let! major := argint 1 in
        match major with
        | None => ret None
        | Some major =>
            let! minor := argint 2 in
            match minor with
            | None => ret None
            | Some minor => create path T_DEV (s16 major) (s16 minor)
            end
        end
    end in
  made ip.

Definition sys_chdir : MK Z :=
  let! me := myproc in
  begin_op ;;;
  let! path := arg_path 0 in
  let! ip := match path with None => ret None | Some path => namei path end in
  match ip with
  | None => end_op ;;; ret (-1)
  | Some ip =>
      ilock (Some ip) ;;;
      let! i := inode_at ip in
      if negb (i_type i =? T_DIR) then
        iunlockput ip ;;;
        end_op ;;;
        ret (-1)
      else
        iunlock (Some ip) ;;;
        let! cur := deref me in
        let! p := proc_at cur in
        let! cwd := deref (p_cwd p) in
        iput cwd ;;;
        end_op ;;;
        set_proc cur (fun p => p <| p_cwd := Some ip |>) ;;;
        ret 0
  end.

(** The loop of [sys_exec] over [i], with the strings fetched so far; [None] for -1. *)
Fixpoint fetch_argv (n : nat) (uargv : Z) (i : Z) (argv : list (list Z)) : MK (option (list (list Z))) :=
  match n with
  | O => ret None
  | S n =>
      let! uarg := fetchint (u32 (uargv + 4 * i)) in
      match uarg with
      | None => ret None
      | Some uarg =>
          if uarg =? 0 then ret (Some argv)
          else
            let! len := fetchstr (u32 uarg) in
            match len with
            | None => ret None
            | Some len =>
                let! s := load_bytes (u32 uarg) (Z.to_nat len + 1) in
                fetch_argv n uargv (i + 1) (argv ++ [s])
            end
      end
  end.

Definition sys_exec : MK Z :=
  let! path := arg_path 0 in
  match path with
  | None => ret (-1)
  | Some path =>
      let! uargv := argint 1 in
      match uargv with
      | None => ret (-1)
      | Some uargv =>
          let! argv := fetch_argv MAXARG (u32 uargv) 0 [] in
          match argv with None => ret (-1) | Some argv => exec path argv end
      end
  end.

Definition sys_pipe : MK Z :=
  let! a := argptr 0 8 in
  match a with
  | None => ret (-1)
  | Some a =>
      let! r := pipealloc in
      match r with
      | None => ret (-1)
      | Some (rf, wf) =>
          let! fd0 := fdalloc rf in
          let! fd1 := match fd0 with Some _ => fdalloc wf | None => ret None end in
          match fd0, fd1 with
          | Some fd0, Some fd1 =>
              store32 a (Z.of_nat fd0) ;;;
              store32 (u32 (a + 4)) (Z.of_nat fd1) ;;;
              ret 0
          | _, _ =>
              match fd0 with Some fd0 => set_ofile fd0 None | None => ret tt end ;;;
              fileclose rf ;;;
              fileclose wf ;;;
              ret (-1)
          end
      end
  end.

End sysfile_c.

(** ** Rules for the arguments *)

Section args.
Context (m : machine) (H : list lockid) (co : console) (p : procs) (k : kst) (i : nat) (pr : proc).
Context (U : in_user m p k i pr).

Lemma wp_is_arg n v (Q : option Z -> world kst -> Prop) :
  is_arg k pr n v -> Q (Some v) (W (held m H) co p k) -> wp (argint n) Q (W (held m H) co p k).
Proof using U.
  intros Hv HQ. eapply wp_argint; [done| |].
  - intros v' Hv'. by rewrite (is_arg_inj _ _ _ _ _ Hv' Hv).
  - intros Hno. destruct Hv as [Hin _]. lia.
Qed.

Lemma wp_argfd n fd f (Q : option (nat * nat) -> world kst -> Prop) :
  is_arg k pr n (Z.of_nat fd) -> (fd < NOFILE)%nat -> p_ofile pr !! fd = Some (Some f) ->
  Q (Some (fd, f)) (W (held m H) co p k) -> wp (argfd n) Q (W (held m H) co p k).
Proof using U.
  intros Hv Hfd Hf HQ. unfold argfd. kstep. eapply wp_is_arg; [done|]. cbn match.
  rewrite (proj2 (Z.ltb_ge _ 0)), (proj2 (Z.leb_gt _ _)) by lia. cbn [orb].
  kstep. eapply wp_curproc; [done|]. rewrite Nat2Z.id, Hf. by kstep.
Qed.

Lemma wp_argptr n size v (Q : option Z -> world kst -> Prop) :
  is_arg k pr n (s32 v) -> 0 <= v < p_sz pr -> 0 <= size -> v + size <= p_sz pr ->
  Q (Some v) (W (held m H) co p k) -> wp (argptr n size) Q (W (held m H) co p k).
Proof using U.
  intros Hv Hr Hs Hend HQ. pose proof (iu_sz _ _ _ _ _ U) as Hsz. unfold KERNBASE in Hsz.
  unfold argptr. kstep. eapply wp_curproc; [done|]. kstep. eapply wp_is_arg; [done|]. cbn match.
  assert (u32 (s32 v) = v) as ->.
  { rewrite s32_id by (unfold is_s32; lia). apply u32_id. unfold is_u32. lia. }
  rewrite (u32_id (v + size)) by (unfold is_u32; lia).
  rewrite (proj2 (Z.ltb_ge _ _)), (proj2 (Z.leb_gt _ _)), (proj2 (Z.ltb_ge _ _)) by lia. cbn [orb]. by kstep.
Qed.

Lemma wp_arg_buffer fd f n v (Q : option (nat * Z * Z) -> world kst -> Prop) :
  is_arg k pr 0 (Z.of_nat fd) -> (fd < NOFILE)%nat -> p_ofile pr !! fd = Some (Some f) ->
  is_arg k pr 2 n -> 0 <= n -> is_arg k pr 1 (s32 v) -> 0 <= v < p_sz pr -> v + n <= p_sz pr ->
  Q (Some (f, v, n)) (W (held m H) co p k) -> wp arg_buffer Q (W (held m H) co p k).
Proof using U.
  intros H0 Hfd Hf H2 Hn H1 Hv Hend HQ. unfold arg_buffer. kstep. eapply wp_argfd; [done..|]. cbn match.
  kstep. eapply wp_is_arg; [done|]. cbn match. kstep. eapply wp_argptr; [done..|]. cbn match. by kstep.
Qed.

End args.

Lemma readi_result_length view i off n r bs :
  0 <= n -> readi_result view i off n = (r, bs) -> Z.of_nat (length bs) <= n.
Proof.
  intros Hn. unfold readi_result. case_decide; intros Hr; simplify_eq; [cbn; lia|].
  unfold file_bytes. rewrite length_fmap, length_seq. lia.
Qed.

(** ** Properties *)

(** C19.  The [read] system call on an open file, from the words on the user stack to the bytes in user memory.  It
    returns the number of bytes read, the bytes of the file at its offset are in the caller's buffer and
    nothing else of the caller's memory has changed, and the offset has moved past them. *)
Theorem sys_read_spec `{Lk : Linker} `{BC : BlockCache} `{Dev : Devices} m co p me pr k hm dt view fd f x ip i n v :
  0 < kend -> running m p me (p_pid pr) -> in_user m p k me pr -> uspace k (p_pgdir pr) ->
  is_arg k pr 0 (Z.of_nat fd) -> (fd < NOFILE)%nat -> p_ofile pr !! fd = Some (Some f) ->
  is_arg k pr 2 n -> 0 <= n -> is_arg k pr 1 (s32 v) -> 0 <= v < p_sz pr -> v + n <= p_sz pr ->
  write_range k (p_pgdir pr) v n ->
  blk k (p_pid pr) hm dt view -> (size hm + size dt < NBUF)%nat ->
  k_files k !! f = Some x -> f_readable x ≠ 0 -> f_type x = FD_INODE -> f_ip x = Some ip -> is_u32 (f_off x) ->
  (ip < NINODE)%nat -> k_inodes k !! ip = Some i -> 1 <= i_ref i -> sl_locked (i_lock i) = 0 -> i_valid i ≠ 0 ->
  i_dev i = 1 -> i_type i ≠ T_DEV -> f_off x + n < 2 ^ 32 -> is_u32 (i_size i) ->
  blocks_ok k hm view i (f_off x / 512) ((Z.min (i_size i) (f_off x + n) - 1) / 512) ->
  let '(r, bs) := readi_result view i (f_off x) n in
  wp sys_read (fun c w => c = r /\ exists p' k1 k', w = W (held m []) co p' k' /\ running m p' me (p_pid pr) /\
    k_mem k1 = k_mem k /\
    uncached k1 = uncached (unlocked ip (put_file f (if 0 <? r then x <| f_off := f_off x + r |> else x) k)) /\
    stored (p_pgdir pr) v bs k1 k') (W (held m []) co p k).
Proof.
  intros Hend Hrun U Hu Ha0 Hfd Hf Ha2 Hn Ha1 Hv Hvend Hwr Hb Hroom Hx Hrd Hty Hfip Hoff Hip Hi Href Hl Hva Hdev Hnd Hov Hsz Hok.
  destruct (readi_result view i (f_off x) n) as [r bs] eqn:Hr. unfold sys_read. kstep.
  eapply wp_arg_buffer; [done..|]. cbn match. kstep. eapply wp_fileread_inode; [done..|]. rewrite Hr. cbn [fst].
  intros p' k1 Hrun' Hb' Huc. cbn match. kstep.
  assert (Hmem : k_mem k1 = k_mem k) by (apply (f_equal k_mem) in Huc; exact Huc).
  assert (Hcr : P2V (cr3 (held m [])) = p_pgdir pr) by (rewrite cr3_held; apply U).
  assert (Hlen : Z.of_nat (length bs) <= n) by (by eapply readi_result_length).
  apply (wp_store_bytes Hend); [rewrite Hcr; by eapply uspace_mem|..].
  - rewrite Hcr. apply write_range_mem with k; [done|]. destruct Hwr as (W0 & W1 & W2). split; [done|]. split; [lia|].
    intros y Hy. apply W2. lia.
  - rewrite Hcr. intros k' Hst. kstep. split; [done|]. by exists p', k1, k'.
Qed.

(** ** An example *)

(** [read(3, 0x100, 16)] in a process of one page, on the open file of 100 bytes at offset 90. *)
Definition ex_read_page : list Z := put32 0xF0C 16 (put32 0xF08 0x100 (put32 0xF04 3 zero_page)).
Definition ex_read_proc : proc := ex_uproc <| p_ofile := <[3%nat := Some 0%nat]> (p_ofile ex_uproc) |>.
Definition ex_read_procs : procs := (ex_procs 0) <| ptable := <[1%nat := ex_read_proc]> (ptable (ex_procs 0)) |>.
Definition ex_read_kst : kst := ex_files <| k_mem := k_mem (ex_umem_of ex_read_page) |>.

Lemma ex_read_len : length ex_read_page = 4096%nat.
Proof. vm_compute. reflexivity. Qed.

Lemma ex_read_byte va : 0 <= va < 4096 -> user_byte ex_read_kst 0x80401000 va = ex_read_page !! Z.to_nat va.
Proof. intros Hva. rewrite (user_byte_mem (ex_umem_of ex_read_page)) by reflexivity. by apply ex_ubyte. Qed.

Lemma ex_read_in_user : in_user ex_umachine ex_read_procs ex_read_kst 1 ex_read_proc.
Proof.
  split; [apply (run_idle _ _ _ _ (ex_running 0))|done..|].
  intros va Hva. change (p_sz ex_read_proc) with 4096 in Hva. change (p_pgdir ex_read_proc) with 0x80401000.
  rewrite ex_read_byte by lia. apply lookup_lt_is_Some_2. rewrite ex_read_len. lia.
Qed.

Lemma ex_read_running : running ex_umachine ex_read_procs 1 4.
Proof.
  destruct (ex_running 0) as [Hm Hl Hc _]. split; [exact Hm|exact Hl|reflexivity|]. exists ex_read_proc. split; reflexivity.
Qed.

Lemma ex_read_arg n v :
  0 <= n < 60 -> v = s32 (le_Z (rd (Z.to_nat (0xF04 + 4 * n)) 4 ex_read_page)) -> is_arg ex_read_kst ex_read_proc n v.
Proof.
  intros Hn Hv. unfold is_arg, arg_addr.
  change (tf_esp (p_tfv ex_read_proc)) with 0xF00. change (p_sz ex_read_proc) with 4096. change (p_pgdir ex_read_proc) with 0x80401000.
  rewrite u32_id by (unfold is_u32; lia). split; [lia|]. eexists. pose proof ex_read_len as Hlen. split; [|split; [|exact Hv]].
  - apply length_rd. lia.
  - intros j c Hj. apply lookup_lt_Some in Hj as Hl. rewrite length_rd in Hl by lia. rewrite ex_read_byte by lia.
    unfold rd in Hj. rewrite lookup_take_lt, lookup_drop in Hj by lia. rewrite <- Hj. f_equal. lia.
Qed.

Lemma ex_read_writable : write_range ex_read_kst 0x80401000 0x100 16.
Proof.
  split; [lia|]. split; [vm_compute; discriminate|]. intros y Hy. exists 0x403007. split; [|reflexivity].
  rewrite (mapping_mem (ex_umem_of ex_read_page)) by reflexivity. apply ex_umapping. lia.
Qed.

Lemma ex_read_blocks : blocks_ok ex_read_kst ∅ (ex_view ex_file_disk) ex_inode (90 / 512) ((Z.min 100 (90 + 16) - 1) / 512).
Proof.
  split.
  - intros bn Hbn. exists 5. assert (bn = 0) as -> by (change (0 <= bn <= 0) in Hbn; lia). split; [reflexivity|].
    split; [vm_compute; split; [discriminate|reflexivity]|]. intros j Hj. by rewrite lookup_empty in Hj.
  - intros Hd. change (12 <= 0) in Hd. lia.
Qed.

Lemma sys_read_spec_witness :
  exists p' k1 k', @sys_read 0%nat (@memide 0%nat) ex_devices (W (held ex_umachine []) ex_console ex_read_procs ex_read_kst) =
    Ret 10 (W (held ex_umachine []) ex_console p' k') /\
    @stored ex_end 0x80401000 0x100 (replicate 10 65) k1 k'.
Proof.
  pose proof (@sys_read_spec ex_end 0%nat (@memide 0%nat) (@bio_block_cache 0%nat) ex_devices ex_umachine ex_console ex_read_procs 1 ex_read_proc
    ex_read_kst ∅ ∅ (ex_view ex_file_disk) 3 0 ex_open 0 ex_inode 16 0x100) as Hs.
  assert (Hres : readi_result (ex_view ex_file_disk) ex_inode (f_off ex_open) 16 = (10, replicate 10 65)) by (vm_compute; reflexivity).
  rewrite Hres in Hs. clear Hres.
  specialize (Hs eq_refl ex_read_running ex_read_in_user).
  specialize (Hs (uspace_mem (ex_umem_of ex_read_page) ex_read_kst eq_refl 0x80401000 (ex_uspace_of _ ex_read_len))).
  specialize (Hs (ex_read_arg 0 3 ltac:(lia) ltac:(vm_compute; reflexivity))).
  specialize (Hs ltac:(unfold NOFILE; lia) eq_refl).
  specialize (Hs (ex_read_arg 2 16 ltac:(lia) ltac:(vm_compute; reflexivity)) ltac:(lia)).
  specialize (Hs (ex_read_arg 1 0x100 ltac:(lia) ltac:(vm_compute; reflexivity)) ltac:(vm_compute; split; [discriminate|reflexivity])).
  specialize (Hs ltac:(vm_compute; discriminate) ex_read_writable).
  specialize (Hs ltac:(apply (@blk_frame _ _ (@bio_block_cache 0%nat) ex_fs); [reflexivity..|exact ex_fs_blk])).
  specialize (Hs ltac:(rewrite map_size_empty, size_empty; unfold NBUF; lia) eq_refl ltac:(discriminate) eq_refl eq_refl).
  specialize (Hs ltac:(unfold is_u32; cbn; lia) ltac:(unfold NINODE; lia) eq_refl ltac:(cbn; lia) eq_refl ltac:(discriminate)).
  specialize (Hs eq_refl ltac:(discriminate) eq_refl ltac:(unfold is_u32; cbn; lia) ex_read_blocks).
  destruct (wp_elim _ _ _ Hs) as (c & w & Hrun & -> & p' & k1 & k' & -> & _ & _ & _ & Hst).
  exists p', k1, k'. split; [exact Hrun|exact Hst].
Defined.
