(* ===== verification/Trap.v ===== *)
(** * Traps and the system call table (trap.c, the rest of syscall.c, traps.h, syscall.h)

    Every entry into the kernel: system calls, timer and device interrupts, and faults.  The theorems
    show that a clock tick ends the time slice of a running process that has execution time left or is not a
    real-time process, and that the admission call made from user mode is decided by the admission test on the
    words of the user stack. *)

From S2P Require Import Prelude Kstate Spinlock Cprintf Proc Admission Kdata Sleeplock Hw Kalloc Bio Block Log Vm CString Fs Pipe File ConsoleIn Kbd ProcLife Umem Sysarg Exec Sysproc Sysfile.
From stdpp Require Import gmap strings list fin_maps.
Open Scope Z_scope.

(** What the interrupt handlers find in the devices, and what two of the calls find where C passes arguments. *)
Record devs := mkDevs {
  dv_codes : list Z;     (* scan codes waiting in the keyboard controller *)
  dv_rx : list Z;        (* bytes waiting in the serial port *)
  dv_mem : Z -> Z;       (* the words of kernel stacks, for procdump *)
  dv_stk : Z * Z;        (* the words where a function called without arguments finds its parameters *)
}.

(** The interrupt handler of the disk driver. *)
Class DiskIntr := ideintr : MK unit.
#[export] Instance memide_intr : DiskIntr := ret tt.

Section trap_c.
Context `{Lk : Linker} `{Ld : LinkerData} `{Pr : Program} `{Fu : Fuel} `{Drv : DiskDriver} `{Dev : Devices} `{Int : DiskIntr} `{Hd : Hardware}.

(** ** syscall *)

(** [syscalls[]], by the numbers of syscall.h. *)
Definition syscalls (d : devs) (num : Z) : option (MK Z) :=
  let '(a, b) := dv_stk d in
  match num with
  | 1 => Some sys_fork
  | 2 => Some sys_exit
  | 3 => Some sys_wait
  | 4 => Some sys_pipe
  | 5 => Some sys_read
  | 6 => Some sys_kill
  | 7 => Some sys_exec
  | 8 => Some sys_fstat
  | 9 => Some sys_chdir
  | 10 => Some sys_dup
  | 11 => Some sys_getpid
  | 12 => Some sys_sbrk
  | 13 => Some sys_sleep
  | 14 => Some sys_uptime
  | 15 => Some sys_open
  | 16 => Some sys_write
  | 17 => Some sys_mknod
  | 18 => Some sys_unlink
  | 19 => Some sys_link
  | 20 => Some sys_mkdir
  | 21 => Some sys_close
  | 22 => Some sys_printinfo
  | 23 => Some (sys_sched_policy a b)
  | 24 => Some (sys_exec_time a b)
  | 25 => Some (sys_deadline a b)
  | 26 => Some (sys_rate a b)
  | _ => None
  end.

(** [curproc->tf->eax = v] *)
Definition set_eax (i : nat) (v : Z) : MK unit :=
  set_proc i (fun p => p <| p_tfv := p_tfv p <| tf_eax := u32 v |> |>).

Definition syscall (d : devs) : MK unit :=
  let! me := myproc in
  let! i := deref me in
  let! p := proc_at i in
  let num := s32 (tf_eax (p_tfv p)) in
  match syscalls d num with
  | Some f => let! r := f in set_eax i r
  | None =>
      cprintf ("%d %s: unknown sys call %d" ++ nl)%string [AInt (p_pid p); AStr (Some (cstr (p_name p))); AInt num] ;;;
      set_eax i (-1)
  end.

(** ** trap *)

Definition tvinit : MK unit := initlock Ltickslock "time".

(** [if(myproc()->killed) exit();] *)
Definition exit_if_killed : MK unit :=
  let! p := curproc in
  when (negb (p_killed p =? 0)) exit.

(** [if(myproc() && myproc()->killed && (tf->cs&3) == DPL_USER) exit();] *)
Definition exit_if_killed_user (tf : trapframe) : MK unit :=
  let! me := myproc in
  match me with
  | None => ret tt
  | Some i =>
      let! p := proc_at i in
      when (negb (p_killed p =? 0) && (Z.land (tf_cs tf) 3 =? DPL_USER)) exit
  end.

Definition timer_intr : MK unit :=
  let! c := cpuid in
  when (c =? 0)
    (acquire Ltickslock ;;;
     upd_p (fun ps => ps <| ticks := u32 (ticks ps + 1) |>) ;;;
     wakeup Cticks ;;;
     release Ltickslock).

Definition user_fmt : string := ("pid %d %s: trap %d err %d on cpu %d eip 0x%x addr 0x%x--kill proc" ++ nl)%string.

Definition unexpected_trap (tf : trapframe) : MK unit :=
  let! me := myproc in
  let! c := cpuid in
  let! m := get_m in
  match me, negb (Z.land (tf_cs tf) 3 =? 0) with
  | Some i, true =>
      let! p := proc_at i in
      cprintf user_fmt [AInt (p_pid p); AStr (Some (cstr (p_name p))); AInt (s32 (tf_trapno tf)); AInt (s32 (tf_err tf)); AInt c;
                        AInt (s32 (tf_eip tf)); AInt (s32 (cr2 m))] ;;;
      set_proc i (fun p => p <| p_killed := 1 |>)
  | _, _ =>
      cprintf kernel_fmt [AInt (s32 (tf_trapno tf)); AInt c; AInt (s32 (tf_eip tf)); AInt (s32 (cr2 m))] ;;;
      panic "trap"
  end.

(** The [switch] on the trap number. *)
Definition trap_switch (d : devs) (tf : trapframe) : MK unit :=
  let n := tf_trapno tf in
  if n =? T_IRQ0 + IRQ_TIMER then timer_intr ;;; lapiceoi
  else if n =? T_IRQ0 + IRQ_IDE then ideintr ;;; lapiceoi
  else if n =? T_IRQ0 + IRQ_IDE + 1 then ret tt
  else if n =? T_IRQ0 + IRQ_KBD then kbdintr (dv_mem d) (dv_codes d) ;;; lapiceoi
  else if n =? T_IRQ0 + IRQ_COM1 then uartintr (dv_mem d) (dv_rx d) ;;; lapiceoi
  else if (n =? T_IRQ0 + 7) || (n =? T_IRQ0 + IRQ_SPURIOUS) then
    let! c := cpuid in
    cprintf ("cpu%d: spurious interrupt at %x:%x" ++ nl)%string [AInt c; AInt (s32 (tf_cs tf)); AInt (s32 (tf_eip tf))] ;;;
    lapiceoi
  else unexpected_trap tf.

Definition done_fmt : string := ("The arrival time and pid value of the completed process is %d %d" ++ nl)%string.

(** The end of a time slice: a real-time process whose execution time is used up exits, any other yields. *)
Definition slice_end (tf : trapframe) : MK unit :=
  let! me := myproc in
  match me with
  | None => ret tt
  | Some i =>
      let! p := proc_at i in
      when (bool_decide (p_state p = RUNNING) && (tf_trapno tf =? T_IRQ0 + IRQ_TIMER))
        (if (0 <=? p_sched_policy p) && (p_execution_time p <=? p_elapsed_time p) then
           cprintf done_fmt [AInt (p_arrival_time p); AInt (p_pid p)] ;;;
           exit
         else yield)
  end.

(** [trap(tf)]; [tf] is the address of the frame and its contents. *)
Definition trap (d : devs) (a : Z) (tf : trapframe) : MK unit :=
  if tf_trapno tf =? T_SYSCALL then
    exit_if_killed ;;;
    let! me := myproc in
    let! i := deref me in
    set_proc i (fun p => p <| p_tf := a |> <| p_tfv := tf |>) ;;;
    syscall d ;;;
    exit_if_killed
  else
    trap_switch d tf ;;;
    exit_if_killed_user tf ;;;
    slice_end tf ;;;
    exit_if_killed_user tf.

End trap_c.

(** ** A real-time system call from user mode *)

(** The process table with the trap frame of process [i] stored. *)
Definition enter (i : nat) (a : Z) (tf : trapframe) (p : procs) : procs :=
  p <| ptable := alter (fun q => q <| p_tf := a |> <| p_tfv := tf |>) i (ptable p) |>.
Definition entered (a : Z) (tf : trapframe) (pr : proc) : proc := pr <| p_tf := a |> <| p_tfv := tf |>.
Definition leave (i : nat) (r : Z) (p : procs) : procs :=
  p <| ptable := alter (fun q => q <| p_tfv := p_tfv q <| tf_eax := u32 r |> |>) i (ptable p) |>.

Lemma enter_at i a tf p pr : ptable p !! i = Some pr -> ptable (enter i a tf p) !! i = Some (entered a tf pr).
Proof. intros Hi. cbn. by rewrite list_lookup_alter_eq, Hi. Qed.

Lemma in_user_enter m p k i pr a tf : in_user m p k i pr -> in_user m (enter i a tf p) k i (entered a tf pr).
Proof. intros [H1 H2 H3 H4 H5 H6]. split; [done|done|by apply enter_at|done..]. Qed.

(** [sched_policy] sets the flag [killed] of no process but one it turns down, and changes no address space. *)
Lemma policy_step_keeps pid policy p i pr :
  ptable p !! i = Some pr -> p_pid pr ≠ pid \/ (policy_step pid policy p).1 = true ->
  exists pr', ptable (policy_step pid policy p).2 !! i = Some pr' /\
    p_killed pr' = p_killed pr /\ p_pgdir pr' = p_pgdir pr /\ p_sz pr' = p_sz pr.
Proof.
  intros Hi Hok.
  assert (Halter : forall f j, j ≠ i \/ (forall q, p_killed (f q) = p_killed q) -> (forall q, p_pgdir (f q) = p_pgdir q /\ p_sz (f q) = p_sz q) ->
    exists pr', alter f j (ptable p) !! i = Some pr' /\ p_killed pr' = p_killed pr /\ p_pgdir pr' = p_pgdir pr /\ p_sz pr' = p_sz pr).
  { intros f j Hf Hs. destruct (decide (j = i)) as [->|Hne].
    - rewrite list_lookup_alter_eq, Hi. eexists. split; [done|]. split; [by destruct Hf|apply Hs].
    - rewrite list_lookup_alter_ne by done. eauto. }
  unfold policy_step in *. destruct (find_idx _ (ptable p)) as [j|] eqn:Hf; [|eauto].
  apply find_idx_Some in Hf as [(q & Hq & Hpid) _]. rewrite Hq in *. apply Z.eqb_eq in Hpid.
  assert (Hrej : p_pid pr ≠ pid -> j ≠ i) by (intros Hne ->; congruence).
  repeat case_match; cbn [fst snd] in *; try done; try (by eauto); unfold admitted_edf, admitted_rm, rejected; cbn [ptable set_field].
  all: apply Halter; [(by right) || (destruct Hok as [Hok|Hok]; [left; by apply Hrej|done])|done].
Qed.

Lemma wp_arg m H co p k i pr n v (Q : option Z -> world kst -> Prop) :
  in_user m p k i pr -> is_arg k pr n v -> Q (Some v) (W (held m H) co p k) ->
  wp (argint n) Q (W (held m H) co p k).
Proof.
  intros U Hv HQ. eapply wp_argint; [done| |].
  - intros v' Hv'. by rewrite (is_arg_inj _ _ _ _ _ Hv' Hv).
  - intros Hno. destruct Hv as [Hin _]. lia.
Qed.

Section calls.
Context `{Lk : Linker} `{Ld : LinkerData} `{Pr : Program} `{Fu : Fuel} `{Drv : DiskDriver} `{Dev : Devices} `{Int : DiskIntr} `{Hd : Hardware}.

Lemma wp_exit_if_killed m H co p k i pr (Q : unit -> world kst -> Prop) :
  idle m -> cur m = Some i -> ptable p !! i = Some pr -> p_killed pr = 0 ->
  Q tt (W (held m H) co p k) -> wp exit_if_killed Q (W (held m H) co p k).
Proof.
  intros Hm Hc Hi Hk HQ. unfold exit_if_killed, curproc. kstep. kstep. kstep. rewrite Hc. ksteps.
  eapply wp_proc_at; [exact Hi|]. rewrite Hk. change (negb (0 =? 0)) with false. by ksteps.
Qed.

(** A system call [f] of process [i] that returns: the frame is stored, the call made and its result put in eax. *)
Lemma wp_trap_syscall m co p k i pr a tf d f (Q : unit -> world kst -> Prop) :
  in_user m p k i pr -> p_killed pr = 0 -> tf_trapno tf = T_SYSCALL -> syscalls d (s32 (tf_eax tf)) = Some f ->
  wp f (fun r w => exists m' co' p' k' pr', w = W (held m' []) co' p' k' /\ idle m' /\ cur m' = Some i /\
    ptable p' !! i = Some pr' /\ p_killed pr' = 0 /\ Q tt (W (held m' []) co' (leave i r p') k'))
    (W (held m []) co (enter i a tf p) k) ->
  wp (trap d a tf) Q (W (held m []) co p k).
Proof.
  intros U Hlive Htrap Hf Hwp. pose proof (iu_idle _ _ _ _ _ U) as Hm. pose proof (iu_cur _ _ _ _ _ U) as Hc.
  pose proof (iu_proc _ _ _ _ _ U) as Hi. unfold trap. rewrite Htrap. change (T_SYSCALL =? T_SYSCALL) with true. cbn match.
  kstep. eapply wp_exit_if_killed; [done..|]. kstep. kstep. rewrite Hc. ksteps. unfold set_proc. kstep.
  fold (enter i a tf p). unfold syscall. kstep. kstep. kstep. rewrite Hc. ksteps.
  eapply wp_proc_at; [by apply enter_at|]. unfold entered. cbn [p_tfv set_field]. rewrite Hf. kstep.
  eapply wp_mono; [exact Hwp|]. intros r w (m' & co' & p' & k' & pr' & -> & Hm' & Hc' & Hi' & Hk' & HQ).
  unfold set_eax, set_proc. kstep. fold (leave i r p').
  eapply (wp_exit_if_killed m' [] co' (leave i r p') k' i); [done..| | |exact HQ].
  - cbn. by rewrite list_lookup_alter_eq, Hi'.
  - exact Hk'.
Qed.

(** ** The clock *)

(** The process table after a tick on CPU [c]: CPU 0 counts it and wakes the processes in [sleep]. *)
Definition ticked (c : nat) (p : procs) : procs :=
  match c with
  | O => p <| ticks := u32 (ticks p + 1) |> <| ptable := wake (Some Cticks) <$> ptable p |>
  | _ => p
  end.

Lemma fl_if_held0 m : is_Some (my_cpu m) -> fl_if (held m []) = fl_if m.
Proof. intros [j Hme]. destruct (my_cpu_lookup _ _ Hme) as [c Hc]. unfold held. by rewrite (pushed_eq m [] _ j c). Qed.

Lemma wp_timer_intr m co p k c (Q : unit -> world kst -> Prop) :
  idle m -> my_cpu m = Some c -> fl_if m = false -> has_lock m Lptable -> has_lock m Ltickslock ->
  Q tt (W (held m []) co (ticked c p) k) -> wp timer_intr Q (W (held m []) co p k).
Proof.
  intros Hm Hme Hif Hpt Htk HQ. unfold timer_intr. kstep. unfold cpuid. kstep.
  eapply wp_eq; [apply mycpu_run; [unfold held; by rewrite my_cpu_pushed|rewrite fl_if_held0; eauto]|]. kstep.
  destruct c as [|c]; cbn [ticked] in HQ.
  - change (Z.of_nat 0 =? 0) with true. ksteps. eapply wp_wakeup; [done|done|not_held|]. by ksteps.
  - rewrite (proj2 (Z.eqb_neq _ 0)) by lia. by kstep.
Qed.

(** A running process is not asleep, so the tick leaves it alone. *)
Lemma ticked_at c p i pr : ptable p !! i = Some pr -> p_state pr ≠ SLEEPING -> ptable (ticked c p) !! i = Some pr.
Proof.
  intros Hi Hs. destruct c; [|done]. cbn. rewrite list_lookup_fmap, Hi. cbn. unfold wake. by rewrite bool_decide_eq_false_2.
Qed.

Lemma wp_not_killed_user m H co p k i pr tf (Q : unit -> world kst -> Prop) :
  idle m -> cur m = Some i -> ptable p !! i = Some pr -> p_killed pr = 0 ->
  Q tt (W (held m H) co p k) -> wp (exit_if_killed_user tf) Q (W (held m H) co p k).
Proof.
  intros Hm Hc Hi Hk HQ. unfold exit_if_killed_user. kstep. kstep. rewrite Hc. kstep.
  eapply wp_proc_at; [exact Hi|]. rewrite Hk. change (negb (0 =? 0)) with false. cbn [andb]. by kstep.
Qed.

End calls.

(** ** Properties *)

(** C4.  The real-time admission test from user mode.  When a process traps with system call number 23 and two words
    on its stack, the kernel decides [sched_policy] on exactly those two words: the process table changes as the
    admission test says, the caller gets 0 or -22 in eax, and goes on running. *)
Theorem trap_sched_policy `{Lk : Linker} `{Ld : LinkerData} `{Pr : Program} `{Fu : Fuel} `{Drv : DiskDriver} `{Dev : Devices} `{Int : DiskIntr} `{Hd : Hardware}
    m co p k i pr a tf d pid policy :
  in_user m p k i pr -> has_lock m Lptable -> p_killed pr = 0 ->
  tf_trapno tf = T_SYSCALL -> tf_eax tf = 23 ->
  is_arg k (entered a tf pr) 0 pid -> is_arg k (entered a tf pr) 1 policy ->
  (policy = 0 -> params_ok pid (enter i a tf p)) ->
  p_pid pr ≠ pid \/ (policy_step pid policy (enter i a tf p)).1 = true ->
  wp (trap d a tf) (fun _ w => exists m', idle m' /\ cur m' = Some i /\
    let '(ok, p') := policy_step pid policy (enter i a tf p) in
    w = W (held m' []) co (leave i (if ok then 0 else -22) p') k) (W (held m []) co p k).
Proof.
  intros U Hlk Hlive Htrap Heax H0 H1 Hpar Hok. pose proof (in_user_enter _ _ _ _ _ a tf U) as U'.
  pose proof (iu_idle _ _ _ _ _ U) as Hm. pose proof (iu_cur _ _ _ _ _ U) as Hc.
  destruct (dv_stk d) as [g0 g1] eqn:Hstk.
  eapply (wp_trap_syscall _ _ _ _ _ _ _ _ _ (sys_sched_policy g0 g1)); [done..| |].
  { rewrite Heax. unfold syscalls. by rewrite Hstk. }
  unfold sys_sched_policy. kstep. eapply wp_arg; [done..|]. kstep. eapply wp_arg; [done..|]. change (default g0 (Some pid)) with pid. change (default g1 (Some policy)) with policy.
  eapply wp_eq; [apply sched_policy_run; [by apply idle_held| |done]|].
  { apply has_lock_held; eauto with xv6. }
  destruct (policy_step_keeps pid policy (enter i a tf p) i (entered a tf pr)) as (pr' & Hpr' & Hkilled & _);
    [apply enter_at, (iu_proc _ _ _ _ _ U)|done|].
  exists (sti_machine (held m [])), co, (policy_step pid policy (enter i a tf p)).2, k, pr'.
  assert (Hm' : idle (sti_machine (held m []))) by (apply idle_sti; by apply idle_held).
  assert (Hc' : cur (sti_machine (held m [])) = Some i) by (rewrite <- Hc, <- (cur_held m []); done).
  split_and!; [done..|by rewrite Hkilled|]. exists (sti_machine (held m [])). split; [done|]. split; [done|].
  destruct (policy_step pid policy (enter i a tf p)) as [ok p']. destruct ok; reflexivity.
Qed.

(** C21.  The clock ends a time slice.  A timer interrupt on a running process that is not killed, and is either not a
    real-time process or has execution time left, counts the tick on CPU 0 and wakes the processes in [sleep], acknowledges
    the interrupt at the local APIC, makes the process RUNNABLE and gives the CPU to the scheduler with only ptable.lock held; when the scheduler picks the process
    again, and it was not killed, the trap returns to it. *)
Theorem timer_preempts `{Lk : Linker} `{Ld : LinkerData} `{Pr : Program} `{Fu : Fuel} `{Drv : DiskDriver} `{Dev : Devices} `{Int : DiskIntr} `{Hd : Hardware}
    m co p k i pr a tf d c :
  idle m -> my_cpu m = Some c -> fl_if m = false -> has_lock m Lptable -> has_lock m Ltickslock ->
  cur m = Some i -> ptable p !! i = Some pr -> p_state pr = RUNNING -> p_killed pr = 0 ->
  tf_trapno tf = T_IRQ0 + IRQ_TIMER -> p_sched_policy pr < 0 \/ p_elapsed_time pr < p_execution_time pr ->
  exists m1 kont, idle m1 /\ cur m1 = Some i /\
    trap d a tf (W (held m []) co p k) =
      Swtch (W (held m1 [Lptable]) co
        (ticked c p <| ptable := <[i := pr <| p_state := RUNNABLE |>]> (ptable (ticked c p)) |>) (hw_log (eoi_evs k) k)) kont /\
    forall m' co' p' k' pr', idle m' -> has_lock m' Lptable -> cur m' = Some i -> ptable p' !! i = Some pr' -> p_killed pr' = 0 ->
      kont (W (held m' [Lptable]) co' p' k') = Ret tt (W (held (m' <| fl_if := fl_if m1 |>) []) co' p' k').
Proof.
  intros Hm Hme Hif Hpt Htk Hc Hi Hst Hk Htrap Hslice.
  assert (Hi1 : ptable (ticked c p) !! i = Some pr) by (apply ticked_at; [done|by rewrite Hst]).
  assert (Hnk : forall m' co' p' k' pr', idle m' -> cur m' = Some i -> ptable p' !! i = Some pr' -> p_killed pr' = 0 ->
    exit_if_killed_user tf (W (held m' []) co' p' k') = Ret tt (W (held m' []) co' p' k')).
  { intros m' co' p' k' pr' Hm' Hc' Hi' Hk'. destruct (wp_elim (exit_if_killed_user tf)
      (fun _ w => w = W (held m' []) co' p' k') (W (held m' []) co' p' k')) as ([] & w & Hrun & ->); [|done].
    by eapply wp_not_killed_user. }
  destruct (wp_elim timer_intr (fun _ w => w = W (held m []) co (ticked c p) k) (W (held m []) co p k)) as ([] & w & Hrun & ->);
    [by eapply wp_timer_intr|].
  destruct (yield_run (held m []) co (ticked c p) (hw_log (eoi_evs k) k) i pr) as (kont & Hy & Hkont);
    [by apply idle_held|apply has_lock_held; eauto with xv6|by rewrite cur_held|done|].
  rewrite (alter_is_insert _ _ i pr) in Hy by done.
  exists (held m []). eexists. split; [by apply idle_held|]. split; [by rewrite cur_held|]. split.
  - unfold trap, trap_switch. rewrite Htrap. change (T_IRQ0 + IRQ_TIMER =? T_SYSCALL) with false.
    change (T_IRQ0 + IRQ_TIMER =? T_IRQ0 + IRQ_TIMER) with true. cbn match.
    erewrite bind_Ret by (erewrite bind_Ret by exact Hrun; apply lapiceoi_run). erewrite bind_Ret by (by eapply Hnk).
    apply bind_Swtch. unfold slice_end. erewrite bind_Ret by (apply myproc_held; eauto with xv6). rewrite Hc.
    erewrite bind_Ret by (by apply proc_at_run). rewrite Hst, Htrap. change (T_IRQ0 + IRQ_TIMER =? T_IRQ0 + IRQ_TIMER) with true.
    rewrite bool_decide_eq_true_2 by done. cbn [andb when].
    replace ((0 <=? p_sched_policy pr) && (p_execution_time pr <=? p_elapsed_time pr)) with false; [exact Hy|].
    destruct Hslice as [Hs|Hs]; [rewrite (proj2 (Z.leb_gt 0 _)) by done; done|].
    by rewrite (proj2 (Z.leb_gt (p_execution_time pr) _)), andb_false_r.
  - intros m' co' p' k' pr' Hm' Hpt' Hc' Hi' Hk'. cbn beta. rewrite Hkont by done. cbn [bind_res]. by eapply Hnk.
Qed.

(** ** Examples *)

(** The stack of a process that calls [sched_policy(5, 0)]. *)
Definition ex_call_page : list Z := put32 0xF08 0 (put32 0xF04 5 zero_page).
Definition ex_call : trapframe := tf_zero <| tf_esp := 0xF00 |> <| tf_trapno := T_SYSCALL |> <| tf_eax := 23 |>.
Definition ex_devs : devs := mkDevs [] [] (fun _ => 0) (0, 0).

Lemma ex_lock_at m lk : locks m = locks ex_machine -> lk = Lptable \/ lk = Ltickslock -> has_lock m lk.
Proof.
  intros Hm Hlk. unfold has_lock. rewrite Hm.
  refine (ready_lock ex_machine lk (run_locks _ _ _ _ (ex_running 0)) _). destruct Hlk as [-> | ->]; set_solver.
Qed.

Lemma ex_arg pg n v bs :
  length pg = 4096%nat -> 0 <= n < 60 -> bs = rd (Z.to_nat (0xF04 + 4 * n)) 4 pg -> v = s32 (le_Z bs) ->
  is_arg (ex_umem_of pg) (entered 0 ex_call ex_uproc) n v.
Proof.
  intros Hlen Hn Hbs ->. unfold is_arg, arg_addr.
  change (tf_esp (p_tfv (entered 0 ex_call ex_uproc))) with 0xF00. change (p_sz (entered 0 ex_call ex_uproc)) with 4096.
  change (p_pgdir (entered 0 ex_call ex_uproc)) with 0x80401000.
  rewrite u32_id by (unfold is_u32; lia). split; [lia|]. exists bs. split; [subst bs; apply length_rd; lia|]. split; [|done].
  intros j c Hj. apply lookup_lt_Some in Hj as Hl. subst bs. rewrite length_rd in Hl by lia. rewrite ex_ubyte by lia.
  unfold rd in Hj. rewrite lookup_take_lt, lookup_drop in Hj by lia. rewrite <- Hj. f_equal. lia.
Qed.

Lemma trap_sched_policy_witness :
  wp (@trap ex_end 0 ex_program 0%nat (@memide 0%nat) ex_devices memide_intr ex_hardware ex_devs 0 ex_call) (fun _ w => exists m', idle m' /\ cur m' = Some 1%nat /\
    let '(ok, p') := policy_step 5 0 (enter 1 0 ex_call ex_uprocs) in
    w = W (held m' []) ex_console (leave 1 (if ok then 0 else -22) p') (ex_umem_of ex_call_page))
    (W (held ex_umachine []) ex_console ex_uprocs (ex_umem_of ex_call_page)).
Proof.
  assert (Hlen : length ex_call_page = 4096%nat) by (vm_compute; reflexivity).
  apply (@trap_sched_policy ex_end 0 ex_program 0%nat (@memide 0%nat) ex_devices memide_intr ex_hardware
    ex_umachine ex_console ex_uprocs (ex_umem_of ex_call_page) 1 ex_uproc 0 ex_call ex_devs 5 0).
  - by apply ex_in_user_of.
  - apply ex_lock_at; [reflexivity|auto].
  - reflexivity.
  - reflexivity.
  - reflexivity.
  - eapply ex_arg; [done|lia|reflexivity|vm_compute; reflexivity].
  - eapply ex_arg; [done|lia|reflexivity|vm_compute; reflexivity].
  - intros _. split; [vm_compute; split; [intros [=]|reflexivity]|]. intros j pr Hj Hpr. vm_compute in Hj. injection Hj as <-. injection Hpr as <-. split; [discriminate|]. intros [_ H]. discriminate H.
  - left. discriminate.
Defined.

(** A process running on the boot CPU, interrupts off. *)
Definition ex_ticking : procs := (ex_procs 0) <| ptable := <[1%nat := ex_proc 4 (-1) 0 1 <| p_state := RUNNING |>]> (ptable (ex_procs 0)) |>.
Definition ex_tick : trapframe := tf_zero <| tf_trapno := T_IRQ0 + IRQ_TIMER |> <| tf_cs := 0x1B |>.

Lemma timer_preempts_witness :
  exists w kont, @trap ex_end 0 ex_program 0%nat (@memide 0%nat) ex_devices memide_intr ex_hardware ex_devs 0 ex_tick
    (W (held (ex_machine <| fl_if := false |>) []) ex_console ex_ticking kst0) = Swtch w kont.
Proof.
  destruct (@timer_preempts ex_end 0 ex_program 0%nat (@memide 0%nat) ex_devices memide_intr ex_hardware (ex_machine <| fl_if := false |>) ex_console
    ex_ticking kst0 1 (ex_proc 4 (-1) 0 1 <| p_state := RUNNING |>) 0 ex_tick ex_devs 0) as (m1 & kont & _ & _ & Hrun & _).
  - apply (run_idle _ _ _ _ (ex_running 0)).
  - reflexivity.
  - reflexivity.
  - apply ex_lock_at; [reflexivity|auto].
  - apply ex_lock_at; [reflexivity|auto].
  - reflexivity.
  - reflexivity.
  - reflexivity.
  - reflexivity.
  - reflexivity.
  - left. reflexivity.
  - eexists _, kont. exact Hrun.
Defined.
