(* ===== verification/Main.v ===== *)
(** * Start-up (main.c)

    [main], which the boot CPU runs after the boot loader, [startothers], which starts the other CPUs, and [mpenter], which these run.  The
    descriptor tables that [seginit] and [idtinit] give to the processor are those of [Desc]; [lgdt] and [lidt] are recorded among the accesses
    to the hardware.  The example is a run of [startothers] on four CPUs. *)

From S2P Require Import Prelude Ring Kstate Spinlock Cprintf Proc Scheduler Admission Kdata Sleeplock Hw Mp Desc Kalloc Bio Ide Bcache Block Log Vm CString Fs Pipe File ConsoleIn ProcLife Trap.
From stdpp Require Import gmap strings list fin_maps.
Open Scope Z_scope.

(** What the linker puts in the kernel: the code of entryother.S, and the addresses of [mpenter] and [entrypgdir]. *)
Class Startup := {
  entryother : list Z;
  mpenter_addr : Z;
  entrypgdir_addr : Z;
  vectors : Z -> Z;
}.

(** ** The page directory of entry.S *)

Definition PDXSHIFT : Z := 22.
Definition PTE_PS : Z := 0x080.

Definition entrypgdir : list Z :=
  let big := Z.lor 0 (Z.lor PTE_P (Z.lor PTE_W PTE_PS)) in
  <[Z.to_nat (Z.shiftr KERNBASE PDXSHIFT) := big]> (<[0%nat := big]> (replicate NPDENTRIES 0)).

Section main_c.
Context `{Lk : Linker} `{Ld : LinkerData} `{Pr : Program} `{Fu : Fuel} `{Drv : DiskDriver} `{Dev : Devices} `{Hd : Hardware} `{St : Startup}.

(** ** Descriptor tables *)

(** [seginit] of the current CPU: its table, and [lgdt] of it. *)
Definition load_gdt : MK unit :=
  let! id := cpuid in
  let! c := cpu_at (Z.to_nat id) in
  set_cpu (Z.to_nat id) (c <| c_gdt := seginit (c_gdt c) |>) ;;;
  upd_s (hw_add (LoadGdt (seg_word <$> seginit (c_gdt c)))).

(** The table [idt], which only [tvinit] writes. *)
Definition idt : list gatedesc := tvinit_idt vectors (replicate 256 gate_zero).

Definition idtinit : MK unit := upd_s (hw_add (LoadIdt (gate_word <$> idt))).

(** ** mpmain *)

(** [mpmain] up to the scheduler. *)
Definition mp_started : MK unit :=
  let! id := cpuid in
  let! id' := cpuid in
  cprintf ("cpu%d: starting %d" ++ nl)%string [AInt id; AInt id'] ;;;
  idtinit ;;;
  let! c := mycpu in
  let! x := cpu_at c in
  set_cpu c (x <| started := 1 |>).

Definition mpmain : MK unit :=
  mp_started ;;;
  scheduler fuel.

(** [mpenter] up to the scheduler. *)
Definition mp_entered : MK unit :=
  switchkvm ;;;
  load_gdt ;;;
  lapicinit ;;;
  mp_started.

Definition mpenter : MK unit :=
  mp_entered ;;;
  scheduler fuel.

(** ** Starting the other CPUs *)

(** [code] *)
Definition ap_code : Z := P2V 0x7000.

(** What the CPU with APIC id [id] does when it is started, until the scheduler: entryother.S loads the page directory and the entry point
    that it finds before its code, with interrupts off.  The CPU has its own registers, so those of the boot CPU stay. *)
Definition ap_run (id : Z) : MK unit :=
  let! pgdir := word_at (u32 (ap_code - 12)) in
  let! entry := word_at (u32 (ap_code - 8)) in
  if negb (entry =? mpenter_addr) then undef
  else
    let! m := get_m in
    put_m (m <| lapic_id := id |> <| fl_if := false |> <| cr3 := pgdir |>) ;;;
    mp_entered ;;;
    let! m' := get_m in
    put_m (m' <| lapic_id := lapic_id m |> <| fl_if := fl_if m |> <| cr3 := cr3 m |>).

(** [while(c->started == 0);] *)
Definition wait_started (c : nat) : MK unit :=
  loop fuel (fun _ =>
    let! x := cpu_at c in
    if started x =? 0 then ret (inl tt) else ret (inr tt)) tt.

(** A turn of the loop over [cpus]: the other CPU runs while this one waits. *)
Definition start_other (c : nat) : MK unit :=
  let! me := mycpu in
  if (c =? me)%nat then ret tt
  else
    let! stack := kalloc in
    set_word (u32 (ap_code - 4)) (u32 (stack + KSTACKSIZE)) ;;;
    set_word (u32 (ap_code - 8)) mpenter_addr ;;;
    set_word (u32 (ap_code - 12)) (V2P entrypgdir_addr) ;;;
    let! x := cpu_at c in
    lapicstartap (apicid x) (V2P ap_code) ;;;
    ap_run (apicid x) ;;;
    wait_started c.

(** The code of entryother.S is less than a page. *)
Definition startothers : MK unit :=
  let! pg := page_at ap_code in
  (if PGSIZE <? Z.of_nat (length entryother) then undef else set_page ap_code (wr 0 entryother pg)) ;;;
  let! m := get_m in
  for_list (seq 0 (length (cpus m))) start_other.

(** ** main *)

(** [mem]: the bytes of low memory and the BIOS, where [mpinit] looks for its table. *)
Definition main (mem : Z -> Z) : MK unit :=
  kinit1 kend (P2V (4 * 1024 * 1024)) ;;;
  kvmalloc ;;;
  mpinit mem ;;;
  lapicinit ;;;
  load_gdt ;;;
  picinit ;;;
  ioapicinit ;;;
  consoleinit ;;;
  uartinit ;;;
  pinit ;;;
  tvinit ;;;
  binit ;;;
  fileinit ;;;
  ideinit ;;;
  startothers ;;;
  kinit2 (P2V (4 * 1024 * 1024)) (P2V PHYSTOP) ;;;
  userinit ;;;
  mpmain.
End main_c.

(** ** An example *)

(** Four CPUs and three free pages for their stacks. *)
Definition ex_startup : Startup :=
  {| entryother := replicate 138 0x90; mpenter_addr := 0x80102f20; entrypgdir_addr := 0x80109000; vectors i := 0x80105b00 + 9 * i |}.

Definition ex_free_page (next : Z) : list Z := put32 0 next (replicate (Z.to_nat PGSIZE) 1).
Definition ex_boot : world kst :=
  W (mkMachine 0 false (V2P 0x803FF000) 0 0 (mkImage 0x80112780 0x801042c5) (new_cpu <$> [0; 1; 2; 3]) ∅) (mkConsole false false true [] (replicate crt_size 0) 0)
    (mkProcs [] None 0 0 1 1 0 0x803FF000)
    (kst0 <| k_use_lock := false |> <| k_freelist := 0x80400000 |> <| k_hw := mkHw [] 0xFEE00000 0 |>
       <| k_mem := list_to_map [(0x80006000, zero_page); (0x80007000, zero_page); (0x80400000, ex_free_page 0x80401000);
                                (0x80401000, ex_free_page 0x80402000); (0x80402000, ex_free_page 0)] |>).

(** The addresses the STARTUP messages carry, with the APIC id that was selected last. *)
Definition startup_ipis (lapic : Z) (h : list hwev) : list (Z * Z) :=
  (foldl (fun '(id, l) ev =>
     match ev with
     | MemW a v =>
         if a =? lapic_at lapic ICRHI then (Z.shiftr v 24, l)
         else if (a =? lapic_at lapic ICRLO) && (Z.land v 0x700 =? STARTUP) then (id, l ++ [(id, Z.shiftl (Z.land v 0xff) 12)])
         else (id, l)
     | _ => (id, l)
     end) (0, []) h).2.

Definition others_up (r : res kst unit) : bool :=
  match r with
  | Ret _ w =>
      let h := hw_trace (k_hw (w_s w)) in
      bool_decide (started <$> cpus (w_m w) = [0; 1; 1; 1]) && bool_decide ((lapic_id (w_m w), fl_if (w_m w), cr3 (w_m w)) = (0, false, V2P 0x803FF000)) &&
      bool_decide (uart_out (w_c w) = str ("cpu1: starting 1" ++ nl ++ "cpu2: starting 2" ++ nl ++ "cpu3: starting 3" ++ nl)) &&
      bool_decide (startup_ipis 0xFEE00000 h = [(1, 0x7000); (1, 0x7000); (2, 0x7000); (2, 0x7000); (3, 0x7000); (3, 0x7000)]) &&
      bool_decide (k_freelist (w_s w) = 0)
  | _ => false
  end.

(** [startothers] on this machine starts the three other CPUs at address 0x7000, with the two STARTUP messages each that the Intel manual asks for;
    each says so and sets its [started]; the registers of the boot CPU are as before. *)
Example startothers_four :
  others_up ((initlock Lcons "console" ;;;
    startothers (Fu := 10%nat) (Hd := ex_hardware) (St := ex_startup)) ex_boot) = true.
Proof. vm_compute. reflexivity. Qed.
