(* ===== verification/Grep.v ===== *)
(** * grep (grep.c)

    The regular expression matcher and the line loop of the user program grep.  The matcher is proved to decide the language
    of the pattern read as a regular expression, in the usual sense of the substring of the text that
    it denotes; the line loop is proved to print exactly the matching lines when every buffer it fills
    holds the end of a line, and to lose text otherwise.  C strings are lists of non-zero bytes without
    their NUL. *)

From S2P Require Import Prelude.
From stdpp Require Import list strings sets.
Open Scope Z_scope.

(** The characters the matcher treats specially. *)
Definition CARET : Z := 94.
Definition DOLLAR : Z := 36.
Definition DOT : Z := 46.
Definition STAR : Z := 42.
Definition NEWLINE : Z := 10.

(** ** The matcher *)

(** The [do] loop of [matchstar], over [matchhere(re, _)]. *)
Fixpoint matchstar (here : list Z -> bool) (c : Z) (text : list Z) : bool :=
  here text ||
  match text with
  | [] => false
  | x :: text' => if (x =? c) || (c =? DOT) then matchstar here c text' else false
  end.

Fixpoint matchhere (re text : list Z) : bool :=
  match re with
  | [] => true
  | c :: re' =>
      match re' with
      | s :: re'' =>
          if s =? STAR then matchstar (matchhere re'') c text
          else
            match text with
            | x :: text' => if (c =? DOT) || (c =? x) then matchhere re' text' else false
            | [] => false
            end
      | [] =>
          if c =? DOLLAR then match text with [] => true | _ => false end
          else
            match text with
            | x :: text' => if (c =? DOT) || (c =? x) then matchhere re' text' else false
            | [] => false
            end
      end
  end.

(** The [do] loop of [match]. *)
Fixpoint match_anywhere (re text : list Z) : bool :=
  matchhere re text || match text with [] => false | _ :: text' => match_anywhere re text' end.

Definition grep_match (re text : list Z) : bool :=
  match re with
  | c :: re' => if c =? CARET then matchhere re' text else match_anywhere re text
  | [] => match_anywhere re text
  end.

(** ** The line loop *)

(** [strchr(p, '\n')], which stops at a NUL: the text before the newline and after it. *)
Fixpoint split_line (p : list Z) : option (list Z * list Z) :=
  match p with
  | [] => None
  | c :: p =>
      if c =? 0 then None
      else if c =? NEWLINE then Some ([], p)
      else match split_line p with Some (l, rest) => Some (c :: l, rest) | None => None end
  end.

(** The inner loop: what it writes and where [p] ends; a line is at least its newline. *)
Fixpoint grep_lines (n : nat) (pattern p : list Z) : list Z * list Z :=
  match n with
  | O => ([], p)
  | S n =>
      match split_line p with
      | None => ([], p)
      | Some (line, rest) =>
          let '(out, p') := grep_lines n pattern rest in
          ((if grep_match pattern line then line ++ [NEWLINE] else []) ++ out, p')
      end
  end.

(** [grep] on the results of its [read] calls, up to the one that returns nothing; [held] are the [m] bytes kept
    at the start of the buffer.  [p == buf] holds when the buffer had no newline. *)
Fixpoint grep_reads (pattern held : list Z) (reads : list (list Z)) : list Z :=
  match reads with
  | [] => []
  | chunk :: reads =>
      let buf := held ++ chunk in
      let '(out, p) := grep_lines (length buf) pattern buf in
      let held' := if bool_decide (length p = length buf) then [] else p in
      out ++ grep_reads pattern held' reads
  end.

Definition grep (pattern : list Z) (reads : list (list Z)) : list Z := grep_reads pattern [] reads.

(** ** Regular expressions *)

(** A pattern is a sequence of atoms, each possibly starred, and possibly an anchor at the end. *)
Inductive item := One (c : Z) | Many (c : Z).

Definition atom (c x : Z) : Prop := c = DOT \/ c = x.

(** The language of a sequence of items. *)
Fixpoint lang (r : list item) (s : list Z) : Prop :=
  match r with
  | [] => s = []
  | One c :: r => exists x s', s = x :: s' /\ atom c x /\ lang r s'
  | Many c :: r => exists s1 s2, s = s1 ++ s2 /\ Forall (atom c) s1 /\ lang r s2
  end.

(** The regular expression of a pattern, without a leading caret, and whether it is anchored at the end. *)
Fixpoint parse (re : list Z) : list item * bool :=
  match re with
  | [] => ([], false)
  | c :: re' =>
      match re' with
      | s :: re'' =>
          if s =? STAR then let '(r, e) := parse re'' in (Many c :: r, e)
          else let '(r, e) := parse re' in (One c :: r, e)
      | [] => if c =? DOLLAR then ([], true) else ([One c], false)
      end
  end.

(** [text] starts with a string of the language, which is all of it if the pattern is anchored at the end. *)
Definition starts (re text : list Z) : Prop :=
  exists mid post, text = mid ++ post /\ lang (parse re).1 mid /\ ((parse re).2 = true -> post = []).

(** The meaning of a pattern: a substring of the text is in its language. *)
Definition matches (re text : list Z) : Prop :=
  match re with
  | c :: re' =>
      if c =? CARET then starts re' text
      else exists pre text', text = pre ++ text' /\ starts re text'
  | [] => exists pre text', text = pre ++ text' /\ starts [] text'
  end.

(** ** The matcher decides the language *)

Lemma atom_dec c x : (x =? c) || (c =? DOT) = true <-> atom c x.
Proof. unfold atom. rewrite orb_true_iff, !Z.eqb_eq. intuition. Qed.

Lemma atom_dec' c x : (c =? DOT) || (c =? x) = true <-> atom c x.
Proof. unfold atom. rewrite orb_true_iff, !Z.eqb_eq. intuition. Qed.

Lemma matchstar_spec here c (P : list Z -> Prop) text :
  (forall t, here t = true <-> P t) ->
  matchstar here c text = true <-> exists s1 s2, text = s1 ++ s2 /\ Forall (atom c) s1 /\ P s2.
Proof.
  intros Hh. induction text as [|x text IH]; cbn [matchstar].
  - rewrite orb_false_r, Hh. split.
    + intros HP. by exists [], [].
    + intros (s1 & s2 & Heq & _ & HP). symmetry in Heq. apply app_eq_nil in Heq as [-> ->]. done.
  - rewrite orb_true_iff, Hh. split.
    + intros [HP|Hloop]; [by exists [], (x :: text)|]. destruct ((x =? c) || (c =? DOT)) eqn:Ha; [|done].
      apply atom_dec in Ha. apply IH in Hloop as (s1 & s2 & -> & Hs1 & HP). exists (x :: s1), s2. split_and!; [done| |done]. by constructor.
    + intros (s1 & s2 & Heq & Hs1 & HP). destruct s1 as [|y s1]; [left; by rewrite Heq|right].
      injection Heq as -> ->. apply list.Forall_cons in Hs1 as [Ha Hs1]. rewrite (proj2 (atom_dec c y) Ha). apply IH. by exists s1, s2.
Qed.

Lemma starts_nil text : starts [] text.
Proof. by exists [], text. Qed.

Lemma starts_star c re text :
  starts (c :: STAR :: re) text <-> exists s1 s2, text = s1 ++ s2 /\ Forall (atom c) s1 /\ starts re s2.
Proof.
  unfold starts. cbn [parse]. change (STAR =? STAR) with true. cbn match. destruct (parse re) as [r e]. cbn [fst snd]. split.
  - intros (mid & post & -> & (s1 & s2 & -> & Hs1 & Hr) & He). exists s1, (s2 ++ post). split; [by rewrite app_assoc|]. eauto 6.
  - intros (s1 & s2 & -> & Hs1 & mid & post & -> & Hr & He). exists (s1 ++ mid), post. split; [by rewrite app_assoc|].
    split; [|done]. by exists s1, mid.
Qed.

(** A pattern that starts with one unstarred atom. *)
Lemma starts_one c re text :
  head re ≠ Some STAR -> ~ (c = DOLLAR /\ re = []) ->
  starts (c :: re) text <-> exists x t, text = x :: t /\ atom c x /\ starts re t.
Proof.
  intros Hstar Hend. unfold starts.
  assert (Hp : parse (c :: re) = (One c :: (parse re).1, (parse re).2)).
  { cbn [parse]. destruct re as [|s re].
    - rewrite (proj2 (Z.eqb_neq c DOLLAR)); [done|]. intros ->. by apply Hend.
    - rewrite (proj2 (Z.eqb_neq s STAR)) by (intros ->; done). by destruct (parse (s :: re)). }
  rewrite Hp. cbn [fst snd lang]. split.
  - intros (mid & post & -> & (x & s & -> & Ha & Hr) & He). exists x, (s ++ post). split; [done|]. eauto 6.
  - intros (x & t & -> & Ha & mid & post & -> & Hr & He). exists (x :: mid), post. split; [done|]. split; [|done]. eauto.
Qed.

Lemma matchhere_spec n : forall re text, (length re <= n)%nat -> matchhere re text = true <-> starts re text.
Proof.
  induction n as [|n IH]; intros re text Hlen.
  { destruct re; [|cbn in Hlen; lia]. split; [intros _; apply starts_nil|done]. }
  assert (Hone : forall c re', (length re' <= n)%nat -> head re' ≠ Some STAR -> ~ (c = DOLLAR /\ re' = []) ->
    match text with x :: t => if (c =? DOT) || (c =? x) then matchhere re' t else false | [] => false end = true <->
    starts (c :: re') text).
  { intros c re' Hl H1 H2. rewrite starts_one by done. destruct text as [|x t].
    - split; [done|]. by intros (? & ? & ? & _).
    - destruct ((c =? DOT) || (c =? x)) eqn:Ha.
      + apply atom_dec' in Ha. rewrite IH by done. split; [by intros; exists x, t|]. intros (? & ? & ? & _ & ?). by simplify_eq.
      + split; [done|]. intros (y & t' & Heq & Hat & _). injection Heq as <- <-. apply atom_dec' in Hat. congruence. }
  destruct re as [|c [|s re]].
  - split; [intros _; apply starts_nil|done].
  - cbn [matchhere]. destruct (Z.eqb_spec c DOLLAR) as [->|Hne].
    + unfold starts. change (parse [DOLLAR]) with (@nil item, true). cbn [fst snd lang]. split.
      * destruct text; [|done]. intros _. by exists [], [].
      * intros (mid & post & -> & -> & He). by rewrite He.
    + apply (Hone c []); [cbn; lia|done|]. by intros [? _].
  - cbn [length] in Hlen. cbn [matchhere]. destruct (Z.eqb_spec s STAR) as [->|Hne].
    + rewrite starts_star. apply matchstar_spec. intros t. apply IH. lia.
    + apply (Hone c (s :: re)); [cbn; lia|by intros [=]|by intros [_ ?]].
Qed.

Lemma match_anywhere_spec re text :
  match_anywhere re text = true <-> exists pre text', text = pre ++ text' /\ starts re text'.
Proof.
  induction text as [|x text IH]; cbn [match_anywhere]; rewrite orb_true_iff, (matchhere_spec (length re)) by done.
  - split.
    + intros [Hs|?]; [|done]. by exists [], [].
    + intros (pre & t & Heq & Hs). symmetry in Heq. apply app_eq_nil in Heq as [-> ->]. by left.
  - rewrite IH. split.
    + intros [Hs|(pre & t & -> & Hs)]; [by exists [], (x :: text)|by exists (x :: pre), t].
    + intros (pre & t & Heq & Hs). destruct pre as [|y pre]; [left; by rewrite Heq|right].
      injection Heq as -> ->. by exists pre, t.
Qed.

(** ** Lines *)

Definition flatten (ls : list (list Z)) : list Z := concat ((fun l => l ++ [NEWLINE]) <$> ls).

(** [text] is the lines [ls], each ended by a newline, and a last line without one. *)
Record lines (text : list Z) (ls : list (list Z)) (rest : list Z) : Prop := {
  ln_text : text = flatten ls ++ rest;
  ln_ls : Forall (fun l => NEWLINE ∉ l) ls;
  ln_rest : NEWLINE ∉ rest;
}.

Lemma flatten_cons l ls : flatten (l :: ls) = l ++ NEWLINE :: flatten ls.
Proof. unfold flatten. cbn. by rewrite <- app_assoc. Qed.

Lemma flatten_app ls ls' : flatten (ls ++ ls') = flatten ls ++ flatten ls'.
Proof. unfold flatten. by rewrite fmap_app, concat_app. Qed.

Lemma lines_exist text : exists ls rest, lines text ls rest.
Proof.
  induction text as [|c text (ls & rest & [-> Hls Hrest])].
  - exists [], []. split; [done|constructor|apply not_elem_of_nil].
  - destruct (decide (c = NEWLINE)) as [->|Hc].
    + exists ([] :: ls), rest. split; [by rewrite flatten_cons|constructor; [apply not_elem_of_nil|done]|done].
    + destruct ls as [|l ls].
      * exists [], (c :: rest). split; [done|constructor|]. rewrite elem_of_cons. naive_solver.
      * exists ((c :: l) :: ls), rest. apply list.Forall_cons in Hls as [Hl Hls]. split; [by rewrite !flatten_cons|constructor; [|done]|done].
        rewrite elem_of_cons. naive_solver.
Qed.

(** A list up to its first newline. *)
Lemma before_newline a b x y : NEWLINE ∉ a -> NEWLINE ∉ b -> a ++ NEWLINE :: x = b ++ NEWLINE :: y -> a = b /\ x = y.
Proof.
  revert b. induction a as [|c a IH]; intros b Ha Hb E; destruct b as [|d b]; cbn in E; simplify_eq.
  - done.
  - by destruct Hb; left.
  - by destruct Ha; left.
  - destruct (IH b) as [-> ->]; [by intros ?; apply Ha; right|by intros ?; apply Hb; right|done..].
Qed.

Lemma lines_unique text ls rest ls' rest' : lines text ls rest -> lines text ls' rest' -> ls = ls' /\ rest = rest'.
Proof.
  intros [-> H1 H2] [E H3 H4]. revert ls' H3 E. induction ls as [|l ls IH]; intros [|l' ls'] H3 E.
  - done.
  - exfalso. apply H2. change (rest = flatten (l' :: ls') ++ rest') in E. rewrite E, flatten_cons. set_solver.
  - exfalso. apply H4. change (flatten (l :: ls) ++ rest = rest') in E. rewrite <- E, flatten_cons. set_solver.
  - rewrite !flatten_cons, <- !app_assoc in E. cbn [app] in E. apply list.Forall_cons in H1 as [Hl H1], H3 as [Hl' H3].
    apply before_newline in E as [-> E]; [|done..]. by destruct (IH H1 ls' H3 E) as [-> ->].
Qed.

Lemma split_line_none p : NEWLINE ∉ p -> split_line p = None.
Proof.
  induction p as [|c p IH]; [done|]. rewrite not_elem_of_cons. intros [Hc Hp]. cbn.
  rewrite (proj2 (Z.eqb_neq c NEWLINE)), IH by done. by destruct (c =? 0).
Qed.

Lemma split_line_some l rest : NEWLINE ∉ l -> 0 ∉ l -> split_line (l ++ NEWLINE :: rest) = Some (l, rest).
Proof.
  induction l as [|c l IH]; [done|]. rewrite !not_elem_of_cons. intros [Hc Hl] [H0 Hz]. cbn.
  rewrite (proj2 (Z.eqb_neq c 0)), (proj2 (Z.eqb_neq c NEWLINE)), IH by done. done.
Qed.

(** The lines that match, as they are printed. *)
Definition printed (pattern : list Z) (ls : list (list Z)) : list Z :=
  flatten (filter (fun l => grep_match pattern l = true) ls).

Lemma grep_lines_spec pattern n text ls rest :
  lines text ls rest -> 0 ∉ text -> (length text <= n)%nat -> grep_lines n pattern text = (printed pattern ls, rest).
Proof.
  intros [-> Hls Hrest]. revert n. induction ls as [|l ls IH]; intros n Hz Hn.
  - destruct n; cbn [flatten app] in *; [done|]. cbn [grep_lines]. by rewrite split_line_none.
  - apply list.Forall_cons in Hls as [Hl Hls]. rewrite flatten_cons, <- app_assoc in Hz, Hn |- *. cbn [app] in Hz, Hn |- *.
    rewrite length_app in Hn. cbn [length] in Hn. destruct n as [|n]; [lia|]. cbn [grep_lines].
    rewrite elem_of_app, elem_of_cons in Hz. rewrite split_line_some, IH by (done || naive_solver || lia).
    unfold printed. rewrite filter_cons. destruct (grep_match pattern l); [by rewrite decide_True, flatten_cons, <- app_assoc|].
    by rewrite decide_False.
Qed.

(** Every read brings the end of a line: the lines that match are printed. *)
Lemma grep_reads_spec pattern reads : forall held ls rest,
  lines (held ++ concat reads) ls rest -> NEWLINE ∉ held -> 0 ∉ held ++ concat reads ->
  Forall (fun chunk => NEWLINE ∈ chunk) reads ->
  grep_reads pattern held reads = printed pattern ls.
Proof.
  induction reads as [|chunk reads IH]; intros held ls rest Hlines Hheld Hz Hnl; cbn [grep_reads concat] in *.
  - rewrite app_nil_r in *. destruct (lines_unique held ls rest [] held) as [-> _]; [done|by split|done].
  - apply list.Forall_cons in Hnl as [Hc Hnl]. rewrite app_assoc in Hlines, Hz.
    destruct (lines_exist (held ++ chunk)) as (ls1 & r1 & Hl1).
    destruct (lines_exist (r1 ++ concat reads)) as (ls2 & r2 & Hl2).
    assert (Hall : lines ((held ++ chunk) ++ concat reads) (ls1 ++ ls2) r2).
    { destruct Hl1 as [E1 A1 B1], Hl2 as [E2 A2 B2]. split; [|by apply Forall_app|done].
      rewrite E1, <- app_assoc, E2, flatten_app. by rewrite app_assoc. }
    destruct (lines_unique _ _ _ _ _ Hlines Hall) as [-> ->].
    rewrite (grep_lines_spec pattern _ _ ls1 r1) by (done || (rewrite elem_of_app in Hz; naive_solver)).
    assert (Hlt : (length r1 < length (held ++ chunk))%nat).
    { destruct ls1 as [|l ls1]; [|rewrite (ln_text _ _ _ Hl1), flatten_cons, !length_app; cbn; lia].
      destruct Hl1 as [E _ B]. exfalso. apply B. cbn [flatten app] in E. change (flatten []) with (@nil Z) in E. cbn [app] in E. rewrite <- E. set_solver. }
    rewrite bool_decide_eq_false_2 by lia.
    rewrite (IH r1 ls2 r2); [|done|apply Hl1| |done].
    + unfold printed. by rewrite filter_app, flatten_app.
    + rewrite (ln_text _ _ _ Hl1), <- app_assoc in Hz. rewrite elem_of_app in Hz. naive_solver.
Qed.

(** ** Properties *)

(** C25.  The matcher decides the language of the pattern: [match(re, text)] is true exactly when a substring of the
    text is in the language of the regular expression that the pattern denotes (characters, dot, star), where a
    leading caret asks for a prefix and a final dollar for a suffix. *)
Theorem match_correct re text : grep_match re text = true <-> matches re text.
Proof.
  unfold grep_match, matches. destruct re as [|c re].
  - apply match_anywhere_spec.
  - destruct (c =? CARET); [by apply (matchhere_spec (length re))|apply match_anywhere_spec].
Qed.

(** When every [read] returns the end of some line, grep prints exactly the complete lines that match, in order;
    but a read that returns no newline, with nothing held over, is dropped: the line it starts is never seen whole. *)
Theorem grep_prints pattern reads :
  (forall ls rest, lines (concat reads) ls rest -> 0 ∉ concat reads -> Forall (fun chunk => NEWLINE ∈ chunk) reads ->
    grep pattern reads = printed pattern ls) /\
  (forall chunk, NEWLINE ∉ chunk -> grep pattern (chunk :: reads) = grep pattern reads).
Proof.
  split.
  - intros ls rest Hl Hz Hnl. by apply (grep_reads_spec pattern reads [] ls rest); [|apply not_elem_of_nil|..].
  - intros chunk Hc. unfold grep. cbn [grep_reads app].
    assert (Hg : forall n, grep_lines n pattern chunk = ([], chunk)) by (intros [|n]; [done|]; cbn; by rewrite split_line_none).
    rewrite Hg, bool_decide_eq_true_2 by done. done.
Qed.

(** The line "hello" read in two pieces is lost. *)
Lemma grep_loses_text :
  grep (str "hello") [str "hel"; str "lo" ++ [NEWLINE]] = [] /\
  grep (str "hello") [str "hello" ++ [NEWLINE]] = str "hello" ++ [NEWLINE].
Proof. split; vm_compute; reflexivity. Qed.

Lemma grep_prints_witness :
  let reads := [str "a b" ++ [NEWLINE]; str "xax" ++ [NEWLINE] ++ str "tail"] in
  grep (str "a.*$") reads = str "a b" ++ [NEWLINE] ++ str "xax" ++ [NEWLINE].
Proof.
  intros reads. destruct (grep_prints (str "a.*$") reads) as [Hp _].
  rewrite (Hp [str "a b"; str "xax"] (str "tail")); [vm_compute; reflexivity| | |].
  - split; [reflexivity| |]; [repeat constructor|]; vm_compute; set_solver.
  - vm_compute. set_solver.
  - repeat constructor; vm_compute; set_solver.
Defined.
