(* ===== verification/Umalloc.v ===== *)
(** * The user memory allocator (umalloc.c)

    Kernighan and Ritchie's [malloc] and [free] on a circular list of free blocks in address order.  The
    list is read as a sorted list of blocks; the theorems show that [free] and [malloc] refine
    the allocator whose state is a set of free addresses: [free] adds the block's addresses, [malloc]
    takes the addresses of one block away (asking the kernel for more only when no block is large enough), both loops end,
    and adjacent free blocks are always merged.  Addresses and sizes have 32 bits; user memory ends at [KERNBASE], where
    allocuvm of vm.c refuses to grow a process. *)

From S2P Require Import Prelude.
From stdpp Require Import gmap list sets fin_maps.
Open Scope Z_scope.

(** ** The code *)

(** [Header]; [size] counts units of [sizeof(Header)] bytes. *)
Record header := mkHdr { h_ptr : Z; h_size : Z }.
Definition UNIT : Z := 8.

(** The headers in memory, [freep], and the end of the process's memory. *)
Record heap := mkHeap { hp_mem : gmap Z header; hp_freep : Z; hp_brk : Z }.

Definition set_hdr (a : Z) (x : header) (h : heap) : heap := mkHeap (<[a := x]> (hp_mem h)) (hp_freep h) (hp_brk h).
Definition set_freep (a : Z) (h : heap) : heap := mkHeap (hp_mem h) a (hp_brk h).

Section umalloc_c.
(** The address of the static [base], and the kernel's answer to [sbrk(n)] at a given size: granted or not. *)
Context (base : Z) (grant : Z -> Z -> bool).

(** The search loop of [free]. *)
Fixpoint free_find (fuel : nat) (h : heap) (bp p : Z) : option Z :=
  match fuel with
  | O => None
  | S fuel =>
      hp ← hp_mem h !! p;
      if (p <? bp) && (bp <? h_ptr hp) then Some p
      else if (h_ptr hp <=? p) && ((p <? bp) || (bp <? h_ptr hp)) then Some p
      else free_find fuel h bp (h_ptr hp)
  end.

Definition free (fuel : nat) (ap : Z) (h : heap) : option heap :=
  let bp := u32 (ap - UNIT) in
  p ← free_find fuel h bp (hp_freep h);
  hp ← hp_mem h !! p;
  hb ← hp_mem h !! bp;
  hb ← (if u32 (bp + UNIT * h_size hb) =? h_ptr hp then
          hn ← hp_mem h !! h_ptr hp;
          Some (mkHdr (h_ptr hn) (u32 (h_size hb + h_size hn)))
        else Some (mkHdr (h_ptr hp) (h_size hb)));
  let h := set_hdr bp hb h in
  let h :=
    if u32 (p + UNIT * h_size hp) =? bp then set_hdr p (mkHdr (h_ptr hb) (u32 (h_size hp + h_size hb))) h
    else set_hdr p (mkHdr bp (h_size hp)) h in
  Some (set_freep p h).

(** [sbrk(n)]: the old size, or -1. *)
Definition sbrk (n : Z) (h : heap) : Z * heap :=
  if grant (hp_brk h) n then (hp_brk h, mkHeap (hp_mem h) (hp_freep h) (hp_brk h + n)) else (-1, h).

(** The result is [freep] or 0. *)
Definition morecore (fuel : nat) (nu : Z) (h : heap) : option (Z * heap) :=
  let nu := if nu <? 4096 then 4096 else nu in
  let '(p, h) := sbrk (s32 (u32 (nu * UNIT))) h in
  if p =? -1 then Some (0, h)
  else
    h ← free fuel (u32 (p + UNIT)) (set_hdr p (mkHdr 0 nu) h);
    Some (hp_freep h, h).

(** The [for(;;)] of [malloc] at [prevp] and [p]; [fuel] bounds its turns and those of the loop of [free]. *)
Fixpoint malloc_loop (n fuel : nat) (nunits prevp p : Z) (h : heap) : option (Z * heap) :=
  match n with
  | O => None
  | S n =>
      hp ← hp_mem h !! p;
      if nunits <=? h_size hp then
        if h_size hp =? nunits then
          hq ← hp_mem h !! prevp;
          Some (u32 (p + UNIT), set_freep prevp (set_hdr prevp (mkHdr (h_ptr hp) (h_size hq)) h))
        else
          let h := set_hdr p (mkHdr (h_ptr hp) (u32 (h_size hp - nunits))) h in
          let p' := u32 (p + UNIT * u32 (h_size hp - nunits)) in
          let old := match hp_mem h !! p' with Some x => h_ptr x | None => 0 end in
          Some (u32 (p' + UNIT), set_freep prevp (set_hdr p' (mkHdr old nunits) h))
      else if p =? hp_freep h then
        '(p, h) ← morecore fuel nunits h;
        if p =? 0 then Some (0, h)
        else
          hp ← hp_mem h !! p;
          malloc_loop n fuel nunits p (h_ptr hp) h
      else malloc_loop n fuel nunits p (h_ptr hp) h
  end.

Definition units (nbytes : Z) : Z := u32 (nbytes + UNIT - 1) / UNIT + 1.

Definition malloc (n fuel : nat) (nbytes : Z) (h : heap) : option (Z * heap) :=
  let nunits := units nbytes in
  let h := if hp_freep h =? 0 then set_freep base (set_hdr base (mkHdr base 0) h) else h in
  let prevp := hp_freep h in
  hq ← hp_mem h !! prevp;
  malloc_loop n fuel nunits prevp (h_ptr hq) h.

End umalloc_c.

(** ** The free list *)

(** A free block: its address and its size. *)
Notation block := (Z * Z)%type.

(** The address of the first block, or [nx]. *)
Definition first_addr (bs : list block) (nx : Z) : Z := match bs with [] => nx | (b, _) :: _ => b end.

(** Every block of the list and the address of its successor, which is [nx] for the last. *)
Fixpoint each (P : Z -> Z -> Z -> Prop) (bs : list block) (nx : Z) : Prop :=
  match bs with
  | [] => True
  | (a, s) :: bs' => P a s (first_addr bs' nx) /\ each P bs' nx
  end.

(** The blocks are linked in this order. *)
Definition links (mem : gmap Z header) : list block -> Z -> Prop := each (fun a s n => mem !! a = Some (mkHdr n s)).

Lemma first_app l l' nx : first_addr (l ++ l') nx = first_addr l (first_addr l' nx).
Proof. by destruct l as [|[] ?]. Qed.

Lemma each_app P l l' nx : each P (l ++ l') nx <-> each P l (first_addr l' nx) /\ each P l' nx.
Proof. induction l as [|[a s] l IH]; [cbn; tauto|]. cbn [app each]. rewrite IH, first_app. tauto. Qed.

Lemma each_impl (P Q : Z -> Z -> Z -> Prop) l nx :
  each P l nx -> (forall a s n, (a, s) ∈ l -> P a s n -> Q a s n) -> each Q l nx.
Proof.
  induction l as [|[a s] l IH]; [done|]. intros [H1 H2] HPQ. split; [apply HPQ; [left|done]|].
  apply IH; [done|]. intros. apply HPQ; [by right|done].
Qed.

(** A circular list. *)
Definition closed (mem : gmap Z header) (bs : list block) : Prop := links mem bs (first_addr bs 0).

Lemma closed_rotate mem l l' : closed mem (l ++ l') -> closed mem (l' ++ l).
Proof.
  unfold closed, links. rewrite !each_app, !first_app. intros [H1 H2]. destruct l as [|[]], l' as [|[]]; cbn in *; tauto.
Qed.

(** Address order, with no two blocks that touch. *)
Fixpoint spaced (bs : list block) : Prop :=
  match bs with
  | [] => True
  | (a, s) :: bs' => match bs' with [] => True | (b, _) :: _ => a + UNIT * s < b end /\ spaced bs'
  end.

Definition covered (bs : list block) (u : Z) : Prop := exists a s, (a, s) ∈ bs /\ a <= u < a + UNIT * s.

(** The free list of a heap, in address order from [base], in user memory, which ends at [KERNBASE]. *)
Record free_list (base : Z) (h : heap) (bs : list block) : Prop := {
  fl_base : 0 < base;
  fl_closed : closed (hp_mem h) ((base, 0) :: bs);
  fl_spaced : spaced ((base, 0) :: bs);
  fl_sizes : forall a s, (a, s) ∈ bs -> 1 <= s;
  fl_brk : forall a s, (a, s) ∈ bs -> a + UNIT * s <= hp_brk h;
  fl_freep : hp_freep h ∈ ((base, 0) :: bs).*1;
  fl_top : hp_brk h <= 2 ^ 31;
}.

(** ** Lists of blocks *)

Lemma links_insert mem x hd l nx : x ∉ l.*1 -> links mem l nx -> links (<[x := hd]> mem) l nx.
Proof.
  intros Hx Hl. eapply each_impl; [exact Hl|]. intros a s n Ha Hm. cbn beta in *. rewrite lookup_insert_ne; [done|].
  intros ->. apply Hx. apply list_elem_of_fmap. by exists (a, s).
Qed.

Lemma spaced_app l x l' : spaced (l ++ x :: l') <-> spaced (l ++ [x]) /\ spaced (x :: l').
Proof.
  induction l as [|[a s] l IH]; [destruct x; cbn; tauto|]. cbn [app spaced]. rewrite IH.
  destruct l as [|[b t] l]; cbn; destruct x; tauto.
Qed.

Definition sized (l : list block) : Prop := forall a s, (a, s) ∈ l -> 0 <= s.

Lemma spaced_lt a s l b t : sized ((a, s) :: l) -> spaced ((a, s) :: l) -> (b, t) ∈ l -> a + UNIT * s < b.
Proof.
  revert a s. induction l as [|[c u] l IH]; intros a s Hs Hsp Hin; [by apply not_elem_of_nil in Hin|].
  destruct Hsp as [Hac Hsp]. apply elem_of_cons in Hin as [[= -> ->]|Hin]; [done|].
  assert (c + UNIT * u < b) by (apply IH; [intros ? ? ?; by apply (Hs a0 s0); right|done|done]).
  assert (0 <= u) by (apply (Hs c u); right; left). unfold UNIT in *. lia.
Qed.

Lemma spaced_gt l b t a s : sized (l ++ [(b, t)]) -> spaced (l ++ [(b, t)]) -> (a, s) ∈ l -> a + UNIT * s < b.
Proof.
  intros Hs Hsp (l1 & l2 & ->)%list_elem_of_split. rewrite <- app_assoc in Hsp, Hs. cbn [app] in Hsp, Hs.
  apply spaced_app in Hsp as [_ Hsp]. eapply spaced_lt; [|exact Hsp|].
  - intros a' s' Hin. apply (Hs a' s'). apply elem_of_app. by right.
  - apply elem_of_app. right. left.
Qed.

Lemma spaced_fresh l1 a s l2 : sized (l1 ++ (a, s) :: l2) -> spaced (l1 ++ (a, s) :: l2) -> a ∉ l1.*1 /\ a ∉ l2.*1.
Proof.
  intros Hs Hsp. apply spaced_app in Hsp as [H1 H2].
  assert (Hin1 : sized (l1 ++ [(a, s)])) by (intros ? ? ?; apply (Hs a0 s0); set_solver).
  assert (Hin2 : sized ((a, s) :: l2)) by (intros ? ? ?; apply (Hs a0 s0); set_solver).
  assert (0 <= s) by (apply (Hs a s); set_solver). unfold UNIT in *.
  split; intros ([b t] & -> & Hin)%list_elem_of_fmap; cbn [fst] in *.
  - assert (0 <= t) by (apply (Hs b t); set_solver). pose proof (spaced_gt _ _ _ _ _ Hin1 H1 Hin). unfold UNIT in *. lia.
  - pose proof (spaced_lt _ _ _ _ _ Hin2 H2 Hin). unfold UNIT in *. lia.
Qed.

(** ** The search of free *)

Definition stops (bp p nxt : Z) : bool :=
  ((p <? bp) && (bp <? nxt)) || ((nxt <=? p) && ((p <? bp) || (bp <? nxt))).

Lemma free_find_walk h bp w a s : forall n nx fuel,
  links (hp_mem h) (w ++ [(a, s)]) nx -> each (fun p _ nxt => stops bp p nxt = false) w a -> stops bp a nx = true ->
  fuel = (length w + S n)%nat -> free_find fuel h bp (first_addr w a) = Some a.
Proof.
  induction w as [|[p t] w IH]; intros n nx fuel Hl Hw Ha ->.
  - destruct Hl as [Hm _]. cbn [length plus free_find first_addr]. rewrite Hm. cbn [mbind option_bind h_ptr].
    change (first_addr [] nx) with nx. unfold stops in Ha. destruct ((a <? bp) && (bp <? nx)); [done|]. cbn [orb] in Ha. by rewrite Ha.
  - destruct Hl as [Hm Hl], Hw as [Hp Hw]. cbn [length plus free_find first_addr]. cbn [app] in Hm. rewrite Hm. cbn [mbind option_bind h_ptr].
    rewrite first_app. cbn [first_addr]. unfold stops in Hp. apply orb_false_iff in Hp as [H1 H2]. rewrite H1, H2.
    by apply (IH n nx).
Qed.

(** Before the place of [bp] and after it the search goes on; at its place it stops. *)
Lemma before_goes_on bp l a s : sized (l ++ [(a, s)]) -> spaced (l ++ [(a, s)]) -> a < bp ->
  each (fun p _ nxt => stops bp p nxt = false) l a.
Proof.
  induction l as [|[p t] l IH]; intros Hs Hsp Ha; [done|]. split.
  - assert (Hn : p < first_addr l a <= a).
    { assert (0 <= t) by (apply (Hs p t); left). destruct l as [|[b u] l]; cbn in Hsp |- *; unfold UNIT in *; [lia|].
      assert (0 <= u) by (apply (Hs b u); right; left).
      assert (b + UNIT * u < a); [|unfold UNIT in *; lia]. apply (spaced_gt ((b, u) :: l) a s b u); [|cbn; tauto|left].
      intros ? ? ?. apply (Hs a0 s0). by right. }
    unfold stops. rewrite (proj2 (Z.ltb_ge bp _)), (proj2 (Z.leb_gt _ p)), andb_false_r by lia. done.
  - apply IH; [intros ? ? ?; apply (Hs a0 s0); by right|by destruct l as [|[]]; cbn in Hsp |- *; tauto|done].
Qed.

Lemma after_goes_on bp base l : sized l -> spaced l -> base < bp -> (forall a s, (a, s) ∈ l -> bp < a) ->
  each (fun p _ nxt => stops bp p nxt = false) l base.
Proof.
  induction l as [|[p t] l IH]; intros Hs Hsp Hb Hall; [done|]. split.
  - assert (bp < p) by (apply (Hall p t); left). unfold stops. rewrite (proj2 (Z.ltb_ge p bp)) by lia. cbn [andb orb].
    destruct l as [|[b u] l]; cbn [first_addr].
    + by rewrite (proj2 (Z.ltb_ge bp base)), andb_false_r by lia.
    + assert (bp < b) by (apply (Hall b u); right; left). assert (p < b).
      { assert (0 <= t) by (apply (Hs p t); left). destruct Hsp as [Hsp _]. unfold UNIT in *. lia. }
      by rewrite (proj2 (Z.leb_gt b p)) by lia.
  - apply IH; [intros ? ? ?; apply (Hs a s); by right|by destruct l as [|[]]; cbn in Hsp |- *; tauto|done|].
    intros a s Hin. apply (Hall a s). by right.
Qed.

Lemma free_find_spec h base pre a s post bp fuel f :
  let bs := pre ++ (a, s) :: post in
  first_addr bs 0 = base -> closed (hp_mem h) bs -> spaced bs -> sized bs -> a < bp -> base < bp ->
  (forall b t, (b, t) ∈ post -> bp < b) -> base <= a -> f ∈ bs.*1 -> (length bs <= fuel)%nat ->
  free_find fuel h bp f = Some a.
Proof.
  intros bs Hbase Hcl Hsp Hs Ha Hb Hpost Hba Hf Hfuel. unfold closed, links in Hcl. rewrite Hbase in Hcl.
  unfold bs in *. pose proof Hsp as Hsp0. apply spaced_app in Hsp as [Hsp1 Hsp2]. rewrite length_app in Hfuel. cbn [length] in Hfuel.
  set (nx := first_addr post base).
  assert (Hstop : stops bp a nx = true).
  { unfold stops, nx. destruct post as [|[b t] post]; cbn [first_addr].
    - rewrite (proj2 (Z.leb_le base a)), (proj2 (Z.ltb_lt a bp)) by done. by rewrite orb_true_r.
    - assert (bp < b) by (apply (Hpost b t); left). by rewrite (proj2 (Z.ltb_lt a bp)), (proj2 (Z.ltb_lt bp b)). }
  apply each_app in Hcl as [Hl1 [Hla Hl2]]. cbn [first_addr] in Hl1. fold nx in Hla.
  assert (Hlpre : forall u v, pre = u ++ v -> links (hp_mem h) (v ++ [(a, s)]) nx).
  { intros u v ->. apply each_app in Hl1 as [_ Hv]. apply each_app. split; [done|]. by split. }
  assert (Hgo : forall u v, pre = u ++ v -> each (fun p _ nxt => stops bp p nxt = false) v a).
  { intros u v ->. apply (before_goes_on bp v a s); [| |done].
    - intros x y Hin. apply (Hs x y). clear -Hin. set_solver.
    - destruct v as [|x v]; [done|]. rewrite <- app_assoc in Hsp1. cbn [app] in Hsp1. apply spaced_app in Hsp1 as [_ Hsp1]. exact Hsp1. }
  rewrite fmap_app, fmap_cons, elem_of_app, elem_of_cons in Hf. cbn [fst] in Hf. destruct Hf as [Hf|[->|Hf]].
  - apply list_elem_of_fmap in Hf as ([f' t] & -> & (u & v & ->)%list_elem_of_split). cbn [fst].
    rewrite length_app in Hfuel. cbn [length] in Hfuel.
    apply (free_find_walk h bp ((f', t) :: v) a s (fuel - S (S (length v)))%nat nx);
      [by eapply Hlpre|by eapply Hgo|done|cbn; lia].
  - apply (free_find_walk h bp [] a s (fuel - 1)%nat nx); [by apply (Hlpre pre); rewrite app_nil_r|done|done|cbn; lia].
  - apply list_elem_of_fmap in Hf as ([f' t] & -> & (u & v & ->)%list_elem_of_split). cbn [fst].
    rewrite length_app in Hfuel. cbn [length] in Hfuel.
    assert (Hfirst : first_addr (pre ++ [(a, s)]) nx = base).
    { rewrite <- Hbase, !first_app. by destruct pre as [|[]]. }
    apply (free_find_walk h bp (((f', t) :: v) ++ pre) a s (fuel - S (S (length v + length pre)))%nat nx).
    + rewrite <- app_assoc. apply each_app. rewrite Hfirst. split; [|by apply (Hlpre [])].
      apply each_app in Hl2 as [_ Hl2]. exact Hl2.
    + apply each_app. assert (first_addr pre a = base) as ->.
      { rewrite <- Hbase, !first_app. by destruct pre as [|[]]. }
      split; [|by apply (Hgo [])]. apply after_goes_on; [| |done|].
      * intros x y Hin. apply (Hs x y). clear -Hin. set_solver.
      * change ((a, s) :: u ++ (f', t) :: v) with (((a, s) :: u) ++ (f', t) :: v) in Hsp2. by apply spaced_app in Hsp2 as [_ Hsp2].
      * intros x y Hin. apply (Hpost x y). rewrite elem_of_app. by right.
    + done.
    + rewrite length_app. cbn. lia.
Qed.

(** ** free *)

(** Put a block in front of a list, merged with its first block if they touch. *)
Definition join (x : block) (l : list block) : list block :=
  match l with
  | (b, t) :: l' => if x.1 + UNIT * x.2 =? b then (x.1, x.2 + t) :: l' else x :: l
  | [] => [x]
  end.

Lemma join_first x l nx : first_addr (join x l) nx = x.1.
Proof. destruct x as [a s]. unfold join. destruct l as [|[b t] l]; [done|]. cbn [fst snd]. by destruct (a + UNIT * s =? b). Qed.

Lemma join_covered x l u : 0 <= x.2 -> sized l -> covered (join x l) u <-> covered (x :: l) u.
Proof.
  destruct x as [a s]. cbn [fst snd]. intros Hs Hl. unfold join. destruct l as [|[b t] l]; [done|]. cbn [fst snd].
  destruct (Z.eqb_spec (a + UNIT * s) b) as [E|]; [|done]. assert (0 <= t) by (apply (Hl b t); left).
  unfold covered, UNIT in *. split.
  - intros (c & v & [[= -> ->]|Hin]%elem_of_cons & Hu).
    + destruct (decide (u < b)); [exists a, s|exists b, t]; (split; [set_solver|lia]).
    + exists c, v. split; [set_solver|done].
  - intros (c & v & [[= -> ->]|[[= -> ->]|Hin]%elem_of_cons]%elem_of_cons & Hu).
    + exists a, (s + t). split; [left|lia].
    + exists a, (s + t). split; [left|lia].
    + exists c, v. split; [by right|done].
Qed.

Lemma join_spaced x l : 0 <= x.2 -> sized l -> spaced l -> x.1 + UNIT * x.2 <= first_addr l (x.1 + UNIT * x.2) -> spaced (join x l).
Proof.
  destruct x as [a s]. cbn [fst snd]. intros Hs Hl Hsp Hle. unfold join. destruct l as [|[b t] l]; [done|]. cbn [fst snd first_addr] in *.
  destruct (Z.eqb_spec (a + UNIT * s) b) as [E|Hne].
  - destruct l as [|[c v] l]; [done|]. cbn in Hsp |- *. unfold UNIT in *. split; [lia|tauto].
  - cbn in Hsp |- *. split; [lia|tauto].
Qed.

Lemma join_sized x l : 0 <= x.2 -> sized l -> sized (join x l).
Proof.
  destruct x as [a s]. cbn [fst snd]. intros Hs Hl. unfold join. destruct l as [|[b t] l]; cbn [fst snd].
  - intros ? ? [[= -> ->]|Hin%elem_of_nil]%elem_of_cons; done.
  - assert (0 <= t) by (apply (Hl b t); left). destruct (a + UNIT * s =? b).
    + intros c v [[= -> ->]|Hin]%elem_of_cons; [lia|]. apply (Hl c v). by right.
    + intros c v [[= -> ->]|Hin]%elem_of_cons; [done|]. by apply (Hl c v).
Qed.

Lemma join_addrs x l c : c ∈ (join x l).*1 -> c = x.1 \/ c ∈ l.*1.
Proof.
  destruct x as [a s]. unfold join. destruct l as [|[b t] l]; cbn [fst snd].
  - set_solver.
  - destruct (a + UNIT * s =? b); rewrite !fmap_cons; set_solver.
Qed.

(** The header that [free] gives block [(a, s)] once it is joined with the list behind it. *)
Definition joined (mem : gmap Z header) (a s nxt : Z) : option header :=
  if a + UNIT * s =? nxt then hn ← mem !! nxt; Some (mkHdr (h_ptr hn) (s + h_size hn)) else Some (mkHdr nxt s).

Lemma joined_links mem a s l nx :
  links mem l nx -> a ∉ l.*1 -> a + UNIT * s ≠ nx \/ l ≠ [] ->
  exists hd, joined mem a s (first_addr l nx) = Some hd /\ links (<[a := hd]> mem) (join (a, s) l) nx.
Proof.
  intros Hl Ha Hnx. unfold joined, join. destruct l as [|[b t] l]; cbn [first_addr fst snd].
  - destruct Hnx as [Hnx|?]; [|done]. rewrite (proj2 (Z.eqb_neq _ _)) by done. eexists. split; [done|]. split; [|done].
    by rewrite lookup_insert_eq.
  - destruct Hl as [Hb Hl]. rewrite fmap_cons, not_elem_of_cons in Ha. cbn [fst] in Ha. destruct Ha as [Hab Ha].
    destruct (a + UNIT * s =? b).
    + rewrite Hb. cbn [mbind option_bind h_ptr h_size]. eexists. split; [done|]. split; [by rewrite lookup_insert_eq|].
      by apply links_insert.
    + eexists. split; [done|]. split; [by rewrite lookup_insert_eq|]. apply links_insert; [set_solver|by split].
Qed.

Lemma free_joined fuel bp h a hp hb hd1 hd2 :
  free_find fuel h bp (hp_freep h) = Some a -> hp_mem h !! a = Some hp -> hp_mem h !! bp = Some hb ->
  is_u32 bp -> is_u32 (bp + UNIT * h_size hb) -> is_u32 (a + UNIT * h_size hp) -> is_u32 (h_size hd1) -> is_u32 (h_size hd2) ->
  joined (hp_mem h) bp (h_size hb) (h_ptr hp) = Some hd1 ->
  joined (<[bp := hd1]> (hp_mem h)) a (h_size hp) bp = Some hd2 ->
  free fuel (bp + UNIT) h = Some (mkHeap (<[a := hd2]> (<[bp := hd1]> (hp_mem h))) a (hp_brk h)).
Proof.
  intros Hf Ha Hb B0 B1 B2 B3 B4 H1 H2. unfold free. rewrite Z.add_simpl_r, (u32_id bp), Hf by done. cbn [mbind option_bind]. rewrite Ha. cbn [mbind option_bind].
  rewrite Hb. cbn [mbind option_bind]. rewrite (u32_id (bp + _)), (u32_id (a + _)) by done.
  assert (H1' : (if bp + UNIT * h_size hb =? h_ptr hp then hn ← hp_mem h !! h_ptr hp; Some (mkHdr (h_ptr hn) (u32 (h_size hb + h_size hn)))
                 else Some (mkHdr (h_ptr hp) (h_size hb))) = Some hd1).
  { unfold joined in H1. destruct (_ =? h_ptr hp); [|done]. destruct (hp_mem h !! h_ptr hp); [|done]. cbn in H1 |- *. injection H1 as <-. by rewrite u32_id. }
  rewrite H1'. cbn [mbind option_bind]. unfold joined in H2. rewrite lookup_insert_eq in H2. cbn [mbind option_bind] in H2.
  destruct (a + UNIT * h_size hp =? bp); injection H2 as <-; [by rewrite u32_id|done].
Qed.

(** The place of a new block in the list. *)
Lemma find_place bp l a s :
  sized ((a, s) :: l) -> spaced ((a, s) :: l) -> a < bp -> bp ∉ l.*1 ->
  exists pre b t post, (a, s) :: l = pre ++ (b, t) :: post /\ b < bp /\ forall c v, (c, v) ∈ post -> bp < c.
Proof.
  revert a s. induction l as [|[b t] l IH]; intros a s Hs Hsp Ha Hn.
  - exists [], a, s, []. split; [done|]. split; [done|]. by intros c v Hin%not_elem_of_nil.
  - rewrite fmap_cons, not_elem_of_cons in Hn. cbn [fst] in Hn. destruct Hn as [Hne Hn].
    assert (Hs' : sized ((b, t) :: l)) by (intros c v Hin; apply (Hs c v); by right).
    destruct Hsp as [Hab Hsp]. destruct (decide (b < bp)) as [Hlt|Hge].
    + destruct (IH b t Hs' Hsp Hlt Hn) as (pre & c & v & post & E & Hc & Hpost).
      exists ((a, s) :: pre), c, v, post. by rewrite E.
    + exists [], a, s, ((b, t) :: l). split; [done|]. split; [done|]. intros c v [[= -> ->]|Hin]%elem_of_cons; [lia|].
      pose proof (spaced_lt b t l c v Hs' Hsp Hin). assert (0 <= t) by (apply (Hs' b t); left). unfold UNIT in *. lia.
Qed.

Lemma covered_app l l' u : covered (l ++ l') u <-> covered l u \/ covered l' u.
Proof. unfold covered. setoid_rewrite elem_of_app. naive_solver. Qed.

Lemma covered_cons x l u : covered (x :: l) u <-> x.1 <= u < x.1 + UNIT * x.2 \/ covered l u.
Proof. destruct x as [a s]. unfold covered. setoid_rewrite elem_of_cons. cbn. split; [intros (? & ? & [[= -> ->]|?] & ?); eauto|intros [?|(? & ? & ? & ?)]; eauto 6]. Qed.

Lemma spaced_last l a s s' : spaced (l ++ [(a, s)]) -> spaced (l ++ [(a, s')]).
Proof.
  induction l as [|[b t] l IH]; [done|]. cbn [app spaced]. intros [H1 H2]. split; [|by apply IH].
  by destruct l as [|[]].
Qed.

(** The first block of [join x l] holds [x], and ends no earlier. *)
Lemma join_head x l : exists t l', join x l = (x.1, t) :: l' /\ (sized l -> x.2 <= t).
Proof.
  destruct x as [a s]. unfold join. destruct l as [|[b t] l]; cbn [fst snd]; [by eexists _, _|].
  destruct (a + UNIT * s =? b); eexists _, _; (split; [done|]); [|done]. intros Hl. assert (0 <= t) by (apply (Hl b t); left). lia.
Qed.

(** Blocks that end below [top]. *)
Definition below (top : Z) (l : list block) : Prop := forall a s, (a, s) ∈ l -> 0 <= s /\ a + UNIT * s <= top.

Lemma below_join top x l : below top (x :: l) -> below top (join x l).
Proof.
  destruct x as [a s]. intros Hl. destruct (Hl a s) as [H1 H2]; [left|]. unfold join. destruct l as [|[b t] l]; [done|]. cbn [fst snd].
  destruct (Hl b t) as [H3 H4]; [right; left|]. destruct (Z.eqb_spec (a + UNIT * s) b) as [E|Hne]; [|done].
  intros c v [[= -> ->]|Hin]%elem_of_cons; [unfold UNIT in *; lia|]. apply (Hl c v). by do 2 right.
Qed.

(** The header of the first block of a joined list has a size of 32 bits. *)
Lemma join_size mem x l nx hd : 0 <= x.1 -> below (2 ^ 31) (x :: l) -> links (<[x.1 := hd]> mem) (join x l) nx -> is_u32 (h_size hd).
Proof.
  intros Hx Hl Hk. apply below_join in Hl. destruct (join_head x l) as (t & l' & E & _). rewrite E in Hk, Hl.
  destruct Hk as [Hk _]. rewrite lookup_insert_eq in Hk. injection Hk as ->. destruct (Hl x.1 t) as [H1 H2]; [left|]. cbn.
  unfold is_u32, UNIT in *. lia.
Qed.

(** [free] on the list split at the place of the block. *)
Lemma free_list_join h base pre a s post bp hb fuel :
  let bs := pre ++ (a, s) :: post in
  first_addr bs 0 = base -> closed (hp_mem h) bs -> spaced bs -> sized bs -> base <= a -> hp_freep h ∈ bs.*1 ->
  hp_mem h !! bp = Some hb -> 1 <= h_size hb -> bp ∉ bs.*1 -> a + UNIT * s <= bp -> a < bp ->
  bp + UNIT * h_size hb <= first_addr post (bp + UNIT * h_size hb) -> (forall c v, (c, v) ∈ post -> bp < c) ->
  (length bs <= fuel)%nat -> 0 < base -> below (2 ^ 31) ((bp, h_size hb) :: bs) ->
  let bs' := pre ++ join (a, s) (join (bp, h_size hb) post) in
  exists mem', free fuel (bp + UNIT) h = Some (mkHeap mem' a (hp_brk h)) /\ closed mem' bs' /\ spaced bs' /\ sized bs' /\
    forall x, x ≠ a -> x ≠ bp -> mem' !! x = hp_mem h !! x.
Proof.
  intros bs Hbase Hcl Hsp Hs Hba Hfp Hhb Hsz Hbp Ha Hlt Hpost Hgt Hfuel Hb0 Htop bs'.
  assert (Hsa : 0 <= s) by (apply (Hs a s); set_solver). assert (Hbb : base < bp) by lia.
  assert (Hspost : sized post) by (intros x y Hin; apply (Hs x y); set_solver).
  assert (Hspre : sized pre) by (intros x y Hin; apply (Hs x y); set_solver).
  destruct (spaced_fresh _ _ _ _ Hs Hsp) as [Hapre Hapost].
  assert (Hfind : free_find fuel h bp (hp_freep h) = Some a) by (eapply free_find_spec; [exact Hbase|done..]).
  unfold closed, links in Hcl. rewrite Hbase in Hcl. unfold bs in Hcl. apply each_app in Hcl as [Hl1 [Hla Hl2]]. cbn [first_addr] in Hl1.
  unfold bs in Hbp. rewrite fmap_app, fmap_cons, not_elem_of_app, not_elem_of_cons in Hbp. cbn [fst] in Hbp. destruct Hbp as (Hbpre & Hba' & Hbpost).
  destruct (joined_links (hp_mem h) bp (h_size hb) post base) as (hd1 & Hj1 & Hk1); [done|done|left; unfold UNIT; lia|].
  destruct (joined_links (<[bp := hd1]> (hp_mem h)) a s (join (bp, h_size hb) post) base) as (hd2 & Hj2 & Hk2);
    [done|intros Hin%join_addrs; naive_solver|right; unfold join; by repeat case_match|].
  rewrite join_first in Hj2. cbn [fst] in Hj2.
  assert (Htop1 : below (2 ^ 31) ((bp, h_size hb) :: post)) by (intros c v Hin; apply Htop; clear -Hin; set_solver).
  assert (Htop2 : below (2 ^ 31) ((a, s) :: join (bp, h_size hb) post)).
  { intros c v [[= -> ->]|Hin]%elem_of_cons; [apply Htop; clear; set_solver|]. by apply (below_join _ _ _ Htop1). }
  destruct (Htop2 a s) as [_ Htopa]; [left|]. destruct (Htop1 bp (h_size hb)) as [_ Htopb]; [left|].
  eexists. split.
  { eapply free_joined; [exact Hfind|exact Hla|exact Hhb| | | | | |exact Hj1|exact Hj2].
    1-3: unfold is_u32, UNIT in *; cbn; lia.
    - by apply (join_size _ (bp, h_size hb) _ _ _ ltac:(cbn; lia) Htop1 Hk1).
    - by apply (join_size _ (a, s) _ _ _ ltac:(cbn; lia) Htop2 Hk2). }
  unfold bs'. apply spaced_app in Hsp as [Hsp1 Hsp2].
  set (l1 := join (bp, h_size hb) post) in *.
  assert (Hl1s : sized l1) by (apply join_sized; [cbn; lia|done]).
  assert (Hl1sp : spaced l1).
  { apply join_spaced; [cbn; lia|done| |done]. destruct post as [|[]]; [done|]. cbn in Hsp2 |- *. tauto. }
  split_and!.
  - unfold closed. rewrite first_app, join_first. cbn [fst]. unfold links. rewrite each_app, join_first. cbn [fst].
    assert (Hfa : first_addr pre a = base) by (rewrite <- Hbase; unfold bs; by rewrite first_app).
    rewrite Hfa. split; [|exact Hk2]. by apply links_insert; [|apply links_insert].
  - assert (Hj : spaced (join (a, s) l1)).
    { apply join_spaced; [done|done|done|]. unfold l1. rewrite join_first. cbn [fst snd]. done. }
    pose proof (join_first (a, s) l1 (a + 1)) as Hf. destruct (join (a, s) l1) as [|[c v] l2]; cbn in Hf; [lia|subst c].
    apply spaced_app. split; [|done]. by eapply spaced_last.
  - intros x y [Hin|Hin]%elem_of_app; [by apply (Hspre x y)|]. by apply (join_sized (a, s) l1 Hsa Hl1s x y).
  - intros x Hxa Hxb. by rewrite !lookup_insert_ne.
Qed.

(** Blocks of the heap: at least one unit, inside the process's memory. *)
Definition in_heap (brk : Z) (l : list block) : Prop := forall a s, (a, s) ∈ l -> 1 <= s /\ a + UNIT * s <= brk.

Lemma in_heap_join brk x l : in_heap brk [x] -> in_heap brk l -> in_heap brk (join x l).
Proof.
  destruct x as [a s]. intros Hx Hl. destruct (Hx a s) as [H1 H2]; [left|]. unfold join. destruct l as [|[b t] l]; [done|]. cbn [fst snd].
  destruct (Hl b t) as [H3 H4]; [left|]. destruct (Z.eqb_spec (a + UNIT * s) b) as [E|Hne].
  - intros c v [[= -> ->]|Hin]%elem_of_cons; [unfold UNIT in *; lia|]. apply (Hl c v). by right.
  - intros c v [[= -> ->]|Hin]%elem_of_cons; [done|]. by apply (Hl c v).
Qed.

Lemma in_heap_sub brk l l' : (forall x, x ∈ l -> x ∈ l') -> in_heap brk l' -> in_heap brk l.
Proof. intros Hsub Hl a s Hin. by apply Hl, Hsub. Qed.

Lemma in_heap_app brk l l' : in_heap brk l -> in_heap brk l' -> in_heap brk (l ++ l').
Proof. intros H1 H2 a s [Hin|Hin]%elem_of_app; [by apply H1|by apply H2]. Qed.

Lemma join_length x l : (length (join x l) <= S (length l))%nat.
Proof. destruct x as [a s]. unfold join. destruct l as [|[b t] l]; cbn; [lia|]. destruct (_ =? b); cbn; lia. Qed.

(** Joining makes no block smaller. *)
Lemma join_big x l b t : 0 <= x.2 -> (b, t) ∈ l -> exists c v, (c, v) ∈ join x l /\ t <= v.
Proof.
  destruct x as [a s]. cbn [fst snd]. intros Hs Hin. unfold join. destruct l as [|[c v] l]; [by apply not_elem_of_nil in Hin|]. cbn [fst snd].
  destruct (a + UNIT * s =? c).
  - apply elem_of_cons in Hin as [[= <- <-]|Hin]; [exists a, (s + t); split; [left|lia]|exists b, t; split; [by right|done]].
  - exists b, t. split; [by right|done].
Qed.

Section free_ok.
Context (base : Z) (h : heap) (bs : list block) (bp : Z) (hb : header) (fuel : nat).
Context (Hfl : free_list base h bs) (Hhb : hp_mem h !! bp = Some hb) (Hsz : 1 <= h_size hb).
Context (Hbp : base < bp) (Hbrk : bp + UNIT * h_size hb <= hp_brk h).
Context (Hdis : forall u, bp <= u < bp + UNIT * h_size hb -> ~ covered bs u) (Hfuel : (S (length bs) <= fuel)%nat).

(** The list split where [bp] goes: the block before it, possibly [base], and the blocks behind. *)
Lemma free_place : exists pre a s post,
  (base, 0) :: bs = pre ++ (a, s) :: post /\ a < bp /\ a + UNIT * s <= bp /\ (forall c v, (c, v) ∈ post -> bp < c) /\
  bp + UNIT * h_size hb <= first_addr post (bp + UNIT * h_size hb) /\ bp ∉ ((base, 0) :: bs).*1.
Proof using All.
  destruct Hfl as [Hb0 Hcl Hsp Hsizes Hends Hfp].
  assert (Hs : sized ((base, 0) :: bs)).
  { intros a s [[= -> ->]|Hin]%elem_of_cons; [done|]. specialize (Hsizes a s Hin). lia. }
  assert (Hn : bp ∉ bs.*1).
  { intros ([c v] & -> & Hin)%list_elem_of_fmap. cbn [fst] in *. apply (Hdis c); [unfold UNIT; lia|].
    specialize (Hsizes c v Hin). exists c, v. split; [done|unfold UNIT; lia]. }
  destruct (find_place bp bs base 0 Hs Hsp Hbp Hn) as (pre & a & s & post & E & Ha & Hpost).
  exists pre, a, s, post. split; [done|]. split; [done|]. split_and!.
  - assert (Hin : (a, s) ∈ (base, 0) :: bs) by (rewrite E; set_solver).
    apply elem_of_cons in Hin as [[= -> ->]|Hin]; [unfold UNIT; lia|].
    apply Z.nlt_ge. intros Hlt. apply (Hdis bp); [unfold UNIT; lia|]. exists a, s. split; [done|lia].
  - exact Hpost.
  - destruct post as [|[c v] post]; cbn [first_addr]; [lia|]. specialize (Hpost c v ltac:(left)).
    assert (Hin : (c, v) ∈ (base, 0) :: bs) by (rewrite E; set_solver).
    apply elem_of_cons in Hin as [[= -> ->]|Hin]; [lia|]. specialize (Hsizes c v Hin).
    apply Z.nlt_ge. intros Hlt. apply (Hdis c); [lia|]. exists c, v. split; [done|unfold UNIT; lia].
  - rewrite fmap_cons, not_elem_of_cons. cbn [fst]. split; [lia|done].
Qed.

Lemma free_ok : exists h' bs',
  free fuel (bp + UNIT) h = Some h' /\ free_list base h' bs' /\ hp_brk h' = hp_brk h /\
  (forall u, covered bs' u <-> covered bs u \/ bp <= u < bp + UNIT * h_size hb) /\
  (forall x, x ≠ base -> ~ covered bs' x -> hp_mem h' !! x = hp_mem h !! x) /\
  (length bs' <= S (length bs))%nat /\ exists a s, (a, s) ∈ bs' /\ h_size hb <= s.
Proof using All.
  destruct free_place as (pre & a & s & post & E & Ha & Has & Hpost & Hfirst & Hnin).
  pose proof Hfl as [Hb0 Hcl Hsp Hsizes Hends Hfp].
  assert (Hs : sized ((base, 0) :: bs)).
  { intros c v [[= -> ->]|Hin]%elem_of_cons; [done|]. specialize (Hsizes c v Hin). lia. }
  assert (Hba : base <= a).
  { assert (Hin : (a, s) ∈ (base, 0) :: bs) by (rewrite E; set_solver). apply elem_of_cons in Hin as [[= -> ->]|Hin]; [done|].
    pose proof (spaced_lt base 0 bs a s Hs Hsp Hin). unfold UNIT in *. lia. }
  assert (Htop : below (2 ^ 31) ((bp, h_size hb) :: (base, 0) :: bs)).
  { pose proof (fl_top _ _ _ Hfl) as Ht. intros c v [[= -> ->]|[[= -> ->]|Hin]%elem_of_cons]%elem_of_cons; [lia|unfold UNIT in *; lia|].
    specialize (Hsizes c v Hin). specialize (Hends c v Hin). lia. }
  destruct (free_list_join h base pre a s post bp hb fuel) as (mem' & Hrun & Hcl' & Hsp' & Hs' & Hframe);
    rewrite <- ?E; [done..|].
  set (l1 := join (bp, h_size hb) post) in *.
  assert (Hheap : in_heap (hp_brk h) bs) by (intros c v Hin; split; [by apply (Hsizes c v)|by apply (Hends c v)]).
  assert (Hcov : forall u, covered (pre ++ join (a, s) l1) u <-> covered ((base, 0) :: bs) u \/ bp <= u < bp + UNIT * h_size hb).
  { intros u. rewrite E, !covered_app. assert (Hsp2 : sized post) by (intros c v Hin; apply (Hs c v); rewrite E; set_solver).
    rewrite join_covered; [|cbn; apply (Hs a s); rewrite E; set_solver|apply join_sized; [cbn; lia|done]].
    rewrite !covered_cons. unfold l1. rewrite join_covered by (done || (cbn; lia)). rewrite covered_cons. cbn [fst snd]. tauto. }
  assert (Hl1 : in_heap (hp_brk h) l1).
  { apply in_heap_join; [intros c v [[= -> ->]|?%elem_of_nil]%elem_of_cons; done|].
    destruct pre; simplify_eq; (eapply in_heap_sub; [|exact Hheap]); set_solver. }
  assert (Hsplit : exists bs', pre ++ join (a, s) l1 = (base, 0) :: bs' /\ in_heap (hp_brk h) bs' /\ (length bs' <= S (length bs))%nat /\
    (a ≠ base -> covered bs' a)).
  { destruct pre as [|x pre]; cbn [app] in E |- *.
    - injection E as Ea Es E2. rewrite <- Ea, <- Es, E2. exists l1. destruct (join_head (bp, h_size hb) post) as (t & l' & Ej & _). split_and!; [|done|apply join_length|done].
      unfold l1. rewrite Ej. cbn [join fst snd]. by rewrite (proj2 (Z.eqb_neq _ _)) by (unfold UNIT; lia).
    - injection E as <- E2. exists (pre ++ join (a, s) l1). split; [done|]. rewrite E2 in Hheap |- *. destruct (Hheap a s) as [Hs1 Hs2]; [set_solver|]. split_and!.
      + apply in_heap_app; [by eapply in_heap_sub; [|exact Hheap]; set_solver|]. apply in_heap_join; [|done].
        intros c v [[= -> ->]|?%elem_of_nil]%elem_of_cons; done.
      + rewrite !length_app. cbn [length]. pose proof (join_length (a, s) l1). pose proof (join_length (bp, h_size hb) post). unfold l1 in *. lia.
      + intros _. apply covered_app. right. destruct (join_head (a, s) l1) as (t & l' & -> & Ht). apply covered_cons. left. cbn [fst snd].
        assert (sized l1) by (intros c v Hin; destruct (Hl1 c v Hin); lia). cbn in Ht. specialize (Ht H). unfold UNIT. lia. }
  destruct Hsplit as (bs' & E' & Hh' & Hlen' & Hcova). rewrite E' in *. exists (mkHeap mem' a (hp_brk h)), bs'.
  assert (Hcov' : forall u, covered bs' u <-> covered bs u \/ bp <= u < bp + UNIT * h_size hb).
  { intros u. specialize (Hcov u). rewrite !covered_cons in Hcov. cbn [fst snd] in Hcov. unfold UNIT in *. split; [|]; intros HH.
    - destruct (proj1 Hcov (or_intror HH)) as [[?|?]|?]; [lia|tauto..].
    - destruct (proj2 Hcov) as [?|?]; [tauto|lia|done]. }
  split_and!; [done| |done|exact Hcov'| |done|].
  - split; [done|done|done|intros c v Hin; by apply (Hh' c v)|intros c v Hin; by apply (Hh' c v)| |apply Hfl]. cbn [hp_freep]. rewrite <- E', fmap_app, elem_of_app. right.
    destruct (join_head (a, s) l1) as (t & l' & -> & _). rewrite fmap_cons. left.
  - intros x Hx Hnc. apply Hframe.
    + intros ->. by apply Hnc, Hcova.
    + intros ->. apply Hnc, Hcov'. right. unfold UNIT. lia.
  - destruct (join_head (bp, h_size hb) post) as (t & l' & Ej & Ht). cbn in Ej, Ht.
    assert (Hsp2 : sized post) by (intros c v Hin; apply (Hs c v); rewrite E; set_solver).
    destruct (join_big (a, s) l1 bp t) as (c & v & Hin & Hle); [cbn; apply (Hs a s); rewrite E; set_solver|unfold l1; rewrite Ej; left|].
    exists c, v. specialize (Ht Hsp2). split; [|lia].
    assert (Hin' : (c, v) ∈ (base, 0) :: bs') by (rewrite <- E'; apply elem_of_app; by right).
    apply elem_of_cons in Hin' as [[= -> ->]|?]; [lia|done].
Qed.

End free_ok.

(** ** malloc *)

Fixpoint last_addr (d : Z) (l : list block) : Z := match l with [] => d | (a, _) :: l => last_addr a l end.

Lemma last_addr_app d l a s l' : last_addr d (l ++ (a, s) :: l') = last_addr a l'.
Proof. revert d; induction l as [|[b t] l IH]; intros d; [done|]. apply IH. Qed.

(** Blocks that are too small are passed by. *)
Lemma malloc_skip grant n fuel nunits h v : forall prevp nx,
  links (hp_mem h) v nx -> Forall (fun x => x.2 < nunits /\ x.1 ≠ hp_freep h) v ->
  malloc_loop grant (length v + n) fuel nunits prevp (first_addr v nx) h = malloc_loop grant n fuel nunits (last_addr prevp v) nx h.
Proof.
  induction v as [|[a s] v IH]; intros prevp nx Hl Hv; [done|].
  destruct Hl as [Ha Hl]. apply list.Forall_cons in Hv as [[Hs Hf] Hv]. cbn [fst snd] in Hs, Hf.
  cbn [length plus malloc_loop first_addr last_addr]. rewrite Ha. cbn [mbind option_bind h_size h_ptr].
  rewrite (proj2 (Z.leb_gt _ _)), (proj2 (Z.eqb_neq _ _)) by done. by apply IH.
Qed.

(** The first block of a list that is large enough. *)
Lemma find_fit nunits (l : list block) :
  Forall (fun x => x.2 < nunits) l \/ exists l1 a s l2, l = l1 ++ (a, s) :: l2 /\ Forall (fun x => x.2 < nunits) l1 /\ nunits <= s.
Proof.
  induction l as [|[a s] l [IH|(l1 & b & t & l2 & -> & H1 & H2)]]; [by left| |].
  - destruct (decide (s < nunits)); [left; by constructor|]. right. exists [], a, s, l. split_and!; [done|done|lia].
  - destruct (decide (s < nunits)); [right; exists ((a, s) :: l1), b, t, l2; split_and!; [done|by constructor|done]|].
    right. exists [], a, s, (l1 ++ (b, t) :: l2). split_and!; [done|done|lia].
Qed.

(** The heap after [nunits] were taken from block [(p, s)], which follows [q] in the list. *)
Definition taken (nunits q p s : Z) (h : heap) (hp hq : header) : Z * heap :=
  if s =? nunits then (p + UNIT, set_freep q (set_hdr q (mkHdr (h_ptr hp) (h_size hq)) h))
  else
    let h := set_hdr p (mkHdr (h_ptr hp) (s - nunits)) h in
    let p' := p + UNIT * (s - nunits) in
    let old := match hp_mem h !! p' with Some x => h_ptr x | None => 0 end in
    (p' + UNIT, set_freep q (set_hdr p' (mkHdr old nunits) h)).

Definition rest_of (nunits p s : Z) : list block := if s =? nunits then [] else [(p, s - nunits)].

(** The list with what follows [q] replaced. *)
Lemma relist (base : Z) (bs pre : list block) (q sq : Z) (l l' : list block) :
  (base, 0) :: bs = pre ++ (q, sq) :: l ->
  exists bs', pre ++ (q, sq) :: l' = (base, 0) :: bs' /\ (forall x, x ∈ bs' -> x ∈ bs \/ x ∈ l') /\ (length bs' + length l = length bs + length l')%nat.
Proof.
  intros E. destruct pre as [|y pre]; cbn [app] in *.
  - injection E as <- <- ->. exists l'. split; [done|]. split; [tauto|lia].
  - injection E as <- ->. exists (pre ++ (q, sq) :: l'). split; [done|]. split.
    + intros x. rewrite !elem_of_app, !elem_of_cons. tauto.
    + rewrite !length_app. cbn. lia.
Qed.

Lemma spaced_shrink a s s' l : s' <= s -> spaced ((a, s) :: l) -> spaced ((a, s') :: l).
Proof. intros Hs [H1 H2]. split; [|done]. destruct l as [|[b t] l]; [done|]. unfold UNIT in *. lia. Qed.

Lemma spaced_drop q sq p s l : 0 <= s -> spaced ((q, sq) :: (p, s) :: l) -> spaced ((q, sq) :: l).
Proof. intros Hs (H1 & H2 & H3). split; [|done]. destruct l as [|[b t] l]; [done|]. unfold UNIT in *. lia. Qed.

Lemma rest_covered nunits p s u : 1 <= nunits <= s ->
  p <= u < p + UNIT * s <-> covered (rest_of nunits p s) u \/ p + UNIT * (s - nunits) <= u < p + UNIT * s.
Proof.
  intros Hn. unfold rest_of, UNIT. destruct (Z.eqb_spec s nunits) as [->|Hne].
  - split; [intros; right; lia|]. intros [(? & ? & ?%elem_of_nil & _)|?]; [done|lia].
  - rewrite covered_cons. cbn [fst snd]. unfold UNIT. split; [lia|]. intros [[?|(? & ? & ?%elem_of_nil & _)]|?]; [lia|done|lia].
Qed.

Section taken_ok.
Context (base nunits : Z) (h : heap) (bs : list block) (q sq p s : Z) (pre post : list block).
Context (Hfl : free_list base h bs) (Hn : 1 <= nunits <= s) (E : (base, 0) :: bs = pre ++ (q, sq) :: (p, s) :: post).
Lemma fl_sized : sized (pre ++ (q, sq) :: (p, s) :: post).
Proof using Hfl E.
  rewrite <- E. destruct Hfl as [_ _ _ Hs _ _]. intros a t [[= -> ->]|Hin]%elem_of_cons; [done|]. specialize (Hs a t Hin). lia.
Qed.

Lemma fl_order : spaced (pre ++ (q, sq) :: (p, s) :: post) /\ q + UNIT * sq < p /\ base <= q /\
  (forall a t, (a, t) ∈ post -> p + UNIT * s < a) /\ (forall a t, (a, t) ∈ pre -> a + UNIT * t < q) /\ 0 <= sq.
Proof using All.
  pose proof fl_sized as Hs. destruct Hfl as [_ _ Hsp _ _ _]. rewrite E in Hsp. split; [done|].
  assert (Hsq : 0 <= sq) by (apply (Hs q sq); set_solver).
  apply spaced_app in Hsp as [H1 H2]. pose proof H2 as (H3 & H4). split_and!; [done| | | |done].
  - destruct pre as [|x pre']; cbn [app] in E; injection E as E1.
    + lia.
    + subst x. assert (base + UNIT * 0 < q); [|unfold UNIT in *; lia]. eapply spaced_gt; [|exact H1|left].
      intros a t Hin. apply (Hs a t). clear -Hin. set_solver.
  - intros a t Hin. eapply spaced_lt; [|exact H4|exact Hin]. intros b v Hin'. apply (Hs b v). clear -Hin'. set_solver.
  - intros a t Hin. eapply spaced_gt; [|exact H1|exact Hin]. intros b v Hin'. apply (Hs b v). clear -Hin'. set_solver.
Qed.

Lemma taken_mem :
  let bp := p + UNIT * (s - nunits) in
  let res := taken nunits q p s h (mkHdr (first_addr post base) s) (mkHdr p sq) in
  res.1 = bp + UNIT /\ hp_freep res.2 = q /\ hp_brk res.2 = hp_brk h /\
  closed (hp_mem res.2) (pre ++ (q, sq) :: rest_of nunits p s ++ post) /\
  (exists hd, hp_mem res.2 !! bp = Some hd /\ h_size hd = nunits) /\
  (forall x, x ≠ q -> x ≠ p -> x ≠ bp -> hp_mem res.2 !! x = hp_mem h !! x).
Proof using All.
  intros bp res. pose proof fl_sized as Hsized.
  destruct fl_order as (Hsp & Hqp & Hbq & Hpost & Hpre & Hsq). destruct Hfl as [_ Hcl _ Hs _ _]. rewrite E in Hcl.
  assert (Hfirst : first_addr (pre ++ (q, sq) :: (p, s) :: post) 0 = base) by (by rewrite <- E).
  unfold closed, links in Hcl. rewrite Hfirst in Hcl. apply each_app in Hcl as [Hl1 (Hlq & Hlp & Hl2)]. cbn [first_addr] in Hl1, Hlq.
  assert (Hfirst' : first_addr (pre ++ (q, sq) :: rest_of nunits p s ++ post) 0 = base) by (rewrite <- Hfirst, !first_app; done).
  assert (Hout : forall x, q <= x <= p + UNIT * s -> x ∉ post.*1 /\ (x ≠ q -> x ∉ pre.*1)).
  { intros x Hx. split; [|intros Hxq]; intros ([a t] & -> & Hin)%list_elem_of_fmap; cbn [fst] in *; [specialize (Hpost a t Hin); lia|].
    specialize (Hpre a t Hin). assert (0 <= t) by (apply (Hsized a t); clear -Hin; set_solver). unfold UNIT in *. lia. }
  assert (Hqpre : q ∉ pre.*1).
  { intros ([a t] & -> & Hin)%list_elem_of_fmap. cbn [fst] in *. specialize (Hpre a t Hin).
    assert (0 <= t) by (apply (Hsized a t); clear -Hin; set_solver). unfold UNIT in *. lia. }
  unfold res, bp, taken, rest_of, closed, set_freep, set_hdr in *. rewrite Hfirst'. unfold UNIT in *. destruct (Z.eqb_spec s nunits) as [->|Hne]; cbn [fst snd app h_ptr h_size hp_mem hp_freep hp_brk].
  - replace (p + 8 * (nunits - nunits)) with p by lia. split_and!; [done|done|done| |exists (mkHdr (first_addr post base) nunits); split; [|done]|].
    + apply each_app. split; [by apply links_insert|]. split; [by rewrite lookup_insert_eq|]. apply links_insert; [apply Hout; lia|done].
    + cbn. rewrite lookup_insert_ne by lia. done.
    + intros x Hx _ _. cbn. by rewrite lookup_insert_ne.
  - set (p' := p + 8 * (s - nunits)). split_and!; [done|done|done| |eexists; split; [cbn; by rewrite lookup_insert_eq|done]|].
    + apply each_app. cbn [first_addr]. split; [apply links_insert, links_insert; [apply Hout; lia..|done]|]. cbn [each first_addr app].
      split; [cbn; rewrite !lookup_insert_ne by lia; done|]. split; [cbn; by rewrite lookup_insert_ne, lookup_insert_eq by lia|].
      apply links_insert, links_insert; [apply Hout; lia..|done].
    + intros x Hx Hxp Hxp'. cbn. by rewrite !lookup_insert_ne.
Qed.

Lemma taken_ok :
  let bp := p + UNIT * (s - nunits) in
  let res := taken nunits q p s h (mkHdr (first_addr post base) s) (mkHdr p sq) in
  res.1 = bp + UNIT /\ hp_brk res.2 = hp_brk h /\ base < bp /\ bp + UNIT * nunits <= hp_brk h /\
  (exists hd, hp_mem res.2 !! bp = Some hd /\ h_size hd = nunits) /\
  exists bs', free_list base res.2 bs' /\ (length bs' <= length bs)%nat /\
    (forall u, covered bs u <-> covered bs' u \/ bp <= u < bp + UNIT * nunits) /\
    (forall u, bp <= u < bp + UNIT * nunits -> ~ covered bs' u) /\
    (forall x, x ≠ base -> x ≠ bp -> ~ covered bs' x -> hp_mem res.2 !! x = hp_mem h !! x).
Proof using All.
  intros bp res. destruct taken_mem as (H1 & Hfp & H2 & Hcl' & H3 & Hframe). fold bp res in H1, Hfp, H2, Hcl', H3, Hframe.
  pose proof fl_sized as Hsized. destruct fl_order as (Hsp & Hqp & Hbq & Hpost & Hpre & Hsq).
  pose proof Hfl as [Hb0 _ _ Hs Hends _].
  assert (Hinbs : forall x, x ∈ pre ++ (q, sq) :: (p, s) :: post -> x ∈ bs \/ x = (base, 0)) by (intros x; rewrite <- E, elem_of_cons; tauto).
  assert (Hpin : (p, s) ∈ bs) by (destruct (Hinbs (p, s)) as [?|[= -> ->]]; [set_solver|done|lia]).
  pose proof (Hends p s Hpin) as Hpend. unfold UNIT in *.
  destruct (relist base bs pre q sq ((p, s) :: post) (rest_of nunits p s ++ post) E) as (bs' & E' & Hsub & Hlen).
  assert (Hrest : forall a t, (a, t) ∈ rest_of nunits p s -> a = p /\ t = s - nunits /\ s ≠ nunits).
  { unfold rest_of. intros a t. destruct (Z.eqb_spec s nunits); [by intros ?%elem_of_nil|]. by intros [[= -> ->]|?%elem_of_nil]%elem_of_cons. }
  assert (Hheap : in_heap (hp_brk h) bs').
  { intros a t Hin. destruct (Hsub _ Hin) as [Hin'|[Hin'|Hin']%elem_of_app]; [split; [by apply (Hs a t)|by apply (Hends a t)]| |].
    - destruct (Hrest a t Hin') as (-> & -> & Hne). unfold UNIT. lia.
    - destruct (Hinbs (a, t)) as [Hb|[= -> ->]]; [set_solver|split; [by apply (Hs a t)|by apply (Hends a t)]|]. specialize (Hpost _ _ Hin'). lia. }
  assert (Hspaced : spaced (pre ++ (q, sq) :: rest_of nunits p s ++ post)).
  { apply spaced_app in Hsp as [Hsp1 Hsp2]. apply spaced_app. split; [done|]. unfold rest_of. destruct (Z.eqb_spec s nunits); cbn [app].
    - eapply spaced_drop; [|exact Hsp2]. lia.
    - destruct Hsp2 as [Hq Hsp2]. split; [done|]. eapply spaced_shrink; [|exact Hsp2]. lia. }
  assert (Hcov0 : forall l u, covered ((base, 0) :: l) u <-> covered l u) by (intros l u; rewrite covered_cons; cbn; unfold UNIT; intuition lia).
  split_and!; [done|done|unfold bp; lia|unfold bp; lia|done|]. rewrite E' in Hcl', Hspaced. exists bs'. split_and!.
  - split; [done|done|done|intros a t Hin; by apply (Hheap a t)|intros a t Hin; rewrite H2; by apply (Hheap a t)| |rewrite H2; apply Hfl].
    rewrite Hfp, <- E', fmap_app, elem_of_app, fmap_cons. right. left.
  - rewrite length_app in Hlen. cbn [length] in Hlen. assert (length (rest_of nunits p s) <= 1)%nat by (unfold rest_of; destruct (s =? nunits); cbn; lia). lia.
  - intros u. rewrite <- (Hcov0 bs), <- (Hcov0 bs'), E, <- E', !covered_app, !covered_cons, covered_app. cbn [fst snd].
    pose proof (rest_covered nunits p s u Hn) as Hr. unfold UNIT, bp in *. replace (p + 8 * (s - nunits) + 8 * nunits) with (p + 8 * s) by lia. tauto.
  - intros u Hu Hc. apply Hcov0 in Hc. rewrite <- E', covered_app, covered_cons, covered_app in Hc. cbn [fst snd] in Hc. unfold bp, UNIT in *.
    destruct Hc as [(a & t & Hin & Hr)|[?|[(a & t & Hin & Hr)|(a & t & Hin & Hr)]]].
    + specialize (Hpre a t Hin). unfold UNIT in *. lia.
    + lia.
    + destruct (Hrest a t Hin) as (-> & -> & _). unfold UNIT in *. lia.
    + specialize (Hpost a t Hin). unfold UNIT in *. lia.
  - intros x Hxb Hxbp Hnc. apply Hframe; [| |done].
    + intros ->. destruct (Hinbs (q, sq)) as [Hb|[= -> ->]]; [set_solver| |done]. apply Hnc, Hcov0. rewrite <- E', covered_app, covered_cons. right. left.
      cbn. specialize (Hs q sq Hb). unfold UNIT. lia.
    + intros ->. unfold bp in Hxbp. destruct (decide (s = nunits)) as [->|Hne]; [lia|]. apply Hnc, Hcov0. rewrite <- E', covered_app, covered_cons, covered_app.
      right. right. left. unfold rest_of. rewrite (proj2 (Z.eqb_neq _ _)) by done. apply covered_cons. left. cbn. unfold UNIT. lia.
Qed.

End taken_ok.

Lemma last_snoc (x : block) l : exists l' q sq, x :: l = l' ++ [(q, sq)] /\ forall d, last_addr d (x :: l) = q.
Proof.
  revert x. induction l as [|y l IH]; intros [a s].
  - by exists [], a, s.
  - destruct (IH y) as (l' & q & sq & E & Hq). exists ((a, s) :: l'), q, sq. split; [by rewrite E|]. intros d. exact (Hq a).
Qed.

Section malloc_ok.
Context (base : Z) (grant : Z -> Z -> bool) (nunits : Z) (Hn : 1 <= nunits).
(** User memory ends below the kernel. *)
Context (Hgrant : forall brk n, grant brk n = true -> brk + n <= 2 ^ 31).

(** The turn that finds a block. *)
Lemma malloc_take n fuel h q p s hp hq :
  hp_mem h !! p = Some hp -> h_size hp = s -> nunits <= s -> hp_mem h !! q = Some hq -> 0 <= p -> p + UNIT * s <= 2 ^ 31 ->
  malloc_loop grant (S n) fuel nunits q p h = Some (taken nunits q p s h hp hq).
Proof using Hn.
  intros Hp Hs Hle Hq H0 Htop. cbn [malloc_loop]. rewrite Hp. cbn [mbind option_bind]. rewrite Hs, (proj2 (Z.leb_le _ _)) by done.
  unfold taken, UNIT in *. rewrite (u32_id (p + 8)), (u32_id (s - nunits)) by (unfold is_u32; lia).
  rewrite (u32_id (p + 8 * (s - nunits))) by (unfold is_u32; lia). rewrite (u32_id (p + 8 * (s - nunits) + 8)) by (unfold is_u32; lia).
  destruct (s =? nunits); [|done]. by rewrite Hq.
Qed.

(** A block of the list lies between [base] and the end of user memory. *)
Lemma fl_block h bs p s : free_list base h bs -> (p, s) ∈ (base, 0) :: bs -> 1 <= s -> 0 <= p /\ p + UNIT * s <= 2 ^ 31.
Proof using Type.
  intros [Hb0 _ Hsp Hs He _ Ht] Hin Hs1. apply elem_of_cons in Hin as [[= -> ->]|Hin]; [lia|].
  specialize (He p s Hin). split; [|lia]. assert (base + UNIT * 0 < p); [|unfold UNIT in *; lia]. eapply spaced_lt; [|exact Hsp|exact Hin].
  intros a t [[= -> ->]|Hin']%elem_of_cons; [done|]. specialize (Hs a t Hin'). lia.
Qed.

(** The walk over the blocks [w] to a block [(p, s)] that follows [x] in the list. *)
Lemma malloc_reach n fuel h bs x0 X p s post w :
  free_list base h bs -> (base, 0) :: bs = (x0 :: X) ++ (p, s) :: post -> nunits <= s ->
  links (hp_mem h) w p -> Forall (fun x => x.2 < nunits /\ x.1 ≠ hp_freep h) w -> last_addr (hp_freep h) w = last_addr 0 (x0 :: X) ->
  exists q sq pre, (base, 0) :: bs = pre ++ (q, sq) :: (p, s) :: post /\
    malloc_loop grant (length w + S n) fuel nunits (hp_freep h) (first_addr w p) h =
    Some (taken nunits q p s h (mkHdr (first_addr post base) s) (mkHdr p sq)).
Proof using Hn.
  intros Hfl E Hle Hw Hsmall Hlast. destruct (last_snoc x0 X) as (l & q & sq & EX & Hq). rewrite EX, <- app_assoc in E. cbn [app] in E.
  exists q, sq, l. split; [done|]. rewrite malloc_skip by done. rewrite Hlast, Hq.
  pose proof (fl_closed _ _ _ Hfl) as Hcl. rewrite E in Hcl.
  assert (Hfirst : first_addr (l ++ (q, sq) :: (p, s) :: post) 0 = base) by (by rewrite <- E).
  unfold closed, links in Hcl. rewrite Hfirst in Hcl. apply each_app in Hcl as [_ (Hlq & Hlp & _)].
  destruct (fl_block h bs p s Hfl) as [Hp1 Hp2]; [by rewrite E; clear; set_solver|lia|]. eapply malloc_take; [exact Hlp|done|done|exact Hlq|lia|lia].
Qed.

(** Walking round the list from the block [(f, sf)], the first block that is large enough: it is not the sentinel
    [base], so it has a predecessor in the list. *)
Lemma fit_cyclic bs f sf u v a0 s0 :
  (base, 0) :: bs = u ++ (f, sf) :: v -> f ∉ u.*1 -> f ∉ v.*1 -> (a0, s0) ∈ bs -> nunits <= s0 ->
  exists x0 X p s post w rest, (base, 0) :: bs = (x0 :: X) ++ (p, s) :: post /\ v ++ u ++ [(f, sf)] = w ++ (p, s) :: rest /\ nunits <= s /\
    Forall (fun x => x.2 < nunits) w /\ f ∉ w.*1 /\ last_addr f w = last_addr 0 (x0 :: X).
Proof using Hn.
  clear grant Hgrant. intros E Hfu Hfv Hin Hle.
  destruct (find_fit nunits v) as [Hsv|(v1 & p & s & v2 & -> & Hs1 & Hps)].
  2:{ assert (exists x0 X, x0 :: X = u ++ (f, sf) :: v1) as (x0 & X & EX) by (destruct u; cbn; eauto).
    exists x0, X, p, s, v2, v1, (v2 ++ u ++ [(f, sf)]). rewrite EX, E, last_addr_app, <- !app_assoc. split_and!; try done.
    intros Hi. apply Hfv. rewrite fmap_app. set_solver. }
  destruct u as [|y u].
  { injection E as <- <- ->. rewrite Forall_forall in Hsv. specialize (Hsv _ Hin). cbn in Hsv. lia. }
  assert (Hlast : forall w, last_addr f (v ++ y :: w) = last_addr 0 (y :: w)) by (intros w; destruct y; exact (last_addr_app _ _ _ _ _)).
  destruct (find_fit nunits (y :: u)) as [Hsu|(u1 & p & s & u2 & Eu & Hs1 & Hps)].
  - assert (Hsf : nunits <= sf).
    { destruct (decide (nunits <= sf)); [done|]. exfalso. assert (Hin' : (a0, s0) ∈ (base, 0) :: bs) by (by right).
      rewrite E in Hin'. rewrite !Forall_forall in *.
      apply elem_of_app in Hin' as [Hi|[[= -> ->]|Hi]%elem_of_cons]; [specialize (Hsu _ Hi)|lia|specialize (Hsv _ Hi)]; cbn in *; lia. }
    exists y, u, f, sf, v, (v ++ y :: u), []. rewrite <- app_assoc. split_and!; try done; [by apply Forall_app|].
    rewrite fmap_app, elem_of_app. tauto.
  - destruct u1 as [|z u1]; [injection Eu as -> ->; injection E as <- <- _; lia|].
    injection Eu as <- ->. exists y, u1, p, s, (u2 ++ (f, sf) :: v), (v ++ y :: u1), (u2 ++ [(f, sf)]).
    rewrite E. rewrite <- !app_assoc. cbn [app]. rewrite <- !app_assoc. split_and!; try done; [by apply Forall_app|].
    rewrite fmap_app, elem_of_app. cbn [fmap list_fmap] in *. rewrite fmap_app in Hfu. set_solver.
Qed.

Lemma malloc_hit n fuel h bs a0 s0 hf :
  free_list base h bs -> (a0, s0) ∈ bs -> nunits <= s0 -> (S (length bs) <= n)%nat -> hp_mem h !! hp_freep h = Some hf ->
  exists q sq p s pre post, (base, 0) :: bs = pre ++ (q, sq) :: (p, s) :: post /\ nunits <= s /\
    malloc_loop grant n fuel nunits (hp_freep h) (h_ptr hf) h =
    Some (taken nunits q p s h (mkHdr (first_addr post base) s) (mkHdr p sq)).
Proof using Hn.
  intros Hfl Hin Hle Hlen Hhf. pose proof Hfl as [Hb0 Hcl Hsp Hs _ Hfp].
  apply list_elem_of_fmap in Hfp as ([f sf] & Hf & Hfin). cbn [fst] in Hf. apply list_elem_of_split in Hfin as (u & v & E).
  assert (Hsized : sized (u ++ (f, sf) :: v)) by (rewrite <- E; intros c t [[= -> ->]|Hc]%elem_of_cons; [done|specialize (Hs c t Hc); lia]).
  rewrite E in Hcl, Hsp. destruct (spaced_fresh _ _ _ _ Hsized Hsp) as [Hfu Hfv].
  destruct (fit_cyclic bs f sf u v a0 s0) as (x0 & X & p & s & post & w & rest & E' & EW & Hps & Hsw & Hfw & Hlast); try done.
  pose proof (closed_rotate _ u ((f, sf) :: v) Hcl) as [Hlf Hrest]. cbn [app first_addr] in Hlf, Hrest.
  rewrite Hf, Hlf in Hhf. injection Hhf as <-. cbn [h_ptr].
  assert (Hfirst : first_addr (v ++ u) f = first_addr w p).
  { transitivity (first_addr (v ++ u ++ [(f, sf)]) f); [by rewrite !first_app|]. by rewrite EW, first_app. }
  assert (Hlw : links (hp_mem h) w p).
  { assert (links (hp_mem h) (v ++ u ++ [(f, sf)]) (first_addr (v ++ u) f)) as Hall.
    { rewrite app_assoc. apply each_app. cbn [first_addr]. by split; [|split]. }
    rewrite EW in Hall. apply each_app in Hall. apply Hall. }
  assert (Hlw' : (length w + S (n - S (length w)) = n)%nat).
  { apply (f_equal length) in E, EW. rewrite !length_app in *. cbn [length] in *. lia. }
  destruct (malloc_reach (n - S (length w)) fuel h bs x0 X p s post w) as (q & sq & pre & E'' & Hrun); try done.
  { rewrite Hf, Forall_forall in *. intros x Hx. split; [by apply Hsw|]. intros <-. apply Hfw, list_elem_of_fmap. eauto. }
  { by rewrite Hf. }
  rewrite Hlw' in Hrun. rewrite Hfirst. by exists q, sq, p, s, pre, post.
Qed.

(** No block is large enough: one turn round the list, then [morecore]. *)
Lemma malloc_miss n fuel h bs hf :
  free_list base h bs -> Forall (fun x => x.2 < nunits) bs -> hp_mem h !! hp_freep h = Some hf ->
  malloc_loop grant (length bs + S n) fuel nunits (hp_freep h) (h_ptr hf) h =
  ('(p, h) ← morecore grant fuel nunits h;
   if p =? 0 then Some (0, h) else hp ← hp_mem h !! p; malloc_loop grant n fuel nunits p (h_ptr hp) h).
Proof using Hn.
  intros Hfl Hsmall Hhf. pose proof Hfl as [Hb0 Hcl Hsp Hs _ Hfp].
  apply list_elem_of_fmap in Hfp as ([f sf] & Hf & Hfin). cbn [fst] in Hf. apply list_elem_of_split in Hfin as (u & v & E).
  assert (Hsized : sized (u ++ (f, sf) :: v)) by (rewrite <- E; intros c t [[= -> ->]|Hc]%elem_of_cons; [done|specialize (Hs c t Hc); lia]).
  assert (Hsmall' : Forall (fun x => x.2 < nunits) (u ++ (f, sf) :: v)) by (rewrite <- E; constructor; [cbn; lia|done]).
  rewrite E in Hcl, Hsp. destruct (spaced_fresh _ _ _ _ Hsized Hsp) as [Hfu Hfv].
  pose proof (closed_rotate _ u ((f, sf) :: v) Hcl) as [Hlf Hrest]. cbn [app first_addr] in Hlf, Hrest.
  rewrite Hf, Hlf in Hhf. injection Hhf as <-. cbn [h_ptr].
  assert (length bs = length (v ++ u)) as -> by (apply (f_equal length) in E; rewrite length_app in *; cbn [length] in E; lia).
  apply Forall_app in Hsmall' as [Hsu Hsv]. apply list.Forall_cons in Hsv as [Hsf Hsv]. cbn [snd] in Hsf.
  rewrite malloc_skip; [|exact Hrest|].
  - cbn [malloc_loop]. rewrite Hlf. cbn [mbind option_bind h_size]. rewrite (proj2 (Z.leb_gt _ _)) by done. by rewrite Hf, Z.eqb_refl.
  - rewrite Hf. apply Forall_app. rewrite !Forall_forall in *.
    split; intros x Hx; (split; [by auto|]); intros <-; [apply Hfv|apply Hfu]; apply list_elem_of_fmap; eauto.
Qed.

(** What [morecore] asks the kernel for, in bytes. *)
Definition core : Z := UNIT * Z.max nunits 4096.

Lemma morecore_run fuel h : nunits < 2 ^ 28 -> 0 <= hp_brk h <= 2 ^ 31 ->
  morecore grant fuel nunits h =
  if grant (hp_brk h) core then
    h' ← free fuel (hp_brk h + UNIT) (mkHeap (<[hp_brk h := mkHdr 0 (Z.max nunits 4096)]> (hp_mem h)) (hp_freep h) (hp_brk h + core));
    Some (hp_freep h', h')
  else Some (0, h).
Proof using Hn.
  intros Hlt Hbrk. unfold morecore, sbrk, core. replace (if nunits <? 4096 then 4096 else nunits) with (Z.max nunits 4096) by (destruct (Z.ltb_spec nunits 4096); lia).
  rewrite s32_u32 by (unfold is_s32, UNIT; lia). rewrite (Z.mul_comm _ UNIT).
  destruct (grant (hp_brk h) (UNIT * Z.max nunits 4096)); [|done]. rewrite (proj2 (Z.eqb_neq _ _)) by lia.
  by rewrite u32_id by (unfold is_u32, UNIT; lia).
Qed.

Lemma free_list_brk h bs brk : free_list base h bs -> base < hp_brk h -> hp_brk h <= brk <= 2 ^ 31 -> forall hd,
  free_list base (mkHeap (<[hp_brk h := hd]> (hp_mem h)) (hp_freep h) brk) bs /\ (forall u, hp_brk h <= u -> ~ covered bs u).
Proof using Type.
  intros [Hb0 Hcl Hsp Hs He Hfp Ht] Hbb Hbrk hd. split.
  - split; try done; [|intros a s Hin; cbn; specialize (He a s Hin); lia|cbn; lia]. cbn [hp_mem]. apply links_insert; [|done].
    rewrite fmap_cons, not_elem_of_cons. cbn [fst]. split; [lia|]. intros ([a s] & Ha & Hin)%list_elem_of_fmap. cbn in Ha.
    specialize (Hs a s Hin). specialize (He a s Hin). unfold UNIT in *. lia.
  - intros u Hu (a & s & Hin & Hr). specialize (He a s Hin). lia.
Qed.

Lemma morecore_granted fuel h bs :
  free_list base h bs -> base < hp_brk h -> nunits < 2 ^ 28 -> (S (length bs) <= fuel)%nat -> grant (hp_brk h) core = true ->
  exists h' bs', morecore grant fuel nunits h = Some (hp_freep h', h') /\ free_list base h' bs' /\ hp_brk h' = hp_brk h + core /\
    (forall u, covered bs' u <-> covered bs u \/ hp_brk h <= u < hp_brk h + core) /\
    (forall x, x ≠ base -> ~ covered bs' x -> hp_mem h' !! x = hp_mem h !! x) /\
    (length bs' <= S (length bs))%nat /\ exists a s, (a, s) ∈ bs' /\ nunits <= s.
Proof using Hn Hgrant.
  intros Hfl Hbb Hlt Hfuel Hg. pose proof (fl_base _ _ _ Hfl) as Hb0. pose proof (fl_top _ _ _ Hfl) as Ht. pose proof (Hgrant _ _ Hg) as Hcore. rewrite morecore_run, Hg by (done || lia).
  destruct (free_list_brk h bs (hp_brk h + core) Hfl Hbb ltac:(unfold core, UNIT in *; lia) (mkHdr 0 (Z.max nunits 4096))) as [Hfl1 Hdis].
  destruct (free_ok base _ bs (hp_brk h) (mkHdr 0 (Z.max nunits 4096)) fuel Hfl1) as (h' & bs' & Hrun & Hfl' & Hbrk & Hcov & Hframe & Hlen & a & s & Hin & Hs);
    cbn [h_size hp_brk hp_mem] in *; [by rewrite lookup_insert_eq|lia|done|unfold core; lia|by intros u [Hu _]; apply Hdis|done|].
  exists h', bs'. rewrite Hrun. split_and!; try done.
  - intros x Hx Hnc. rewrite Hframe by done. rewrite lookup_insert_ne; [done|]. intros <-. apply Hnc, Hcov. right. unfold core, UNIT. lia.
  - exists a, s. split; [done|lia].
Qed.

(** What a call leaves: the block, or the refusal of the kernel. *)
Definition malloc_post (h : heap) (bs : list block) (r : Z) (h' : heap) : Prop :=
  (r = 0 /\ h' = h /\ Forall (fun x => x.2 < nunits) bs /\ grant (hp_brk h) core = false) \/
  exists bs', let bp := r - UNIT in
    base < bp /\ free_list base h' bs' /\ base < hp_brk h' /\ bp + UNIT * nunits <= hp_brk h' /\
    (exists hd, hp_mem h' !! bp = Some hd /\ h_size hd = nunits) /\
    hp_brk h' = hp_brk h + (if decide (Exists (fun x => nunits <= x.2) bs) then 0 else core) /\
    (forall u, covered bs u \/ hp_brk h <= u < hp_brk h' <-> covered bs' u \/ bp <= u < bp + UNIT * nunits) /\
    (forall u, bp <= u < bp + UNIT * nunits -> ~ covered bs' u) /\
    (forall x, x ≠ base -> ~ covered bs x -> ~ hp_brk h <= x < hp_brk h' -> hp_mem h' !! x = hp_mem h !! x).

Lemma fl_lookup h bs : free_list base h bs -> exists hf, hp_mem h !! hp_freep h = Some hf.
Proof using Type.
  intros [Hb0 Hcl Hsp Hs _ Hfp]. apply list_elem_of_fmap in Hfp as ([f sf] & -> & Hfin). apply list_elem_of_split in Hfin as (u & v & E).
  rewrite E in Hcl. apply each_app in Hcl as [_ [Hf _]]. eauto.
Qed.

Lemma malloc_loop_fit n fuel h bs hf :
  free_list base h bs -> Exists (fun x => nunits <= x.2) bs -> (S (length bs) <= n)%nat -> hp_mem h !! hp_freep h = Some hf -> base < hp_brk h ->
  exists r h', malloc_loop grant n fuel nunits (hp_freep h) (h_ptr hf) h = Some (r, h') /\ malloc_post h bs r h'.
Proof using Hn.
  intros Hfl Hex Hlen Hhf Hbb. pose proof Hex as ([a0 s0] & Hin & Hle)%Exists_exists.
  destruct (malloc_hit n fuel h bs a0 s0 hf) as (q & sq & p & s & pre & post & E & Hps & Hrun); try done.
  destruct (taken_ok base nunits h bs q sq p s pre post) as (Hr & Hbrk & Hbp & Hend & Hhd & bs' & Hfl' & _ & Hcov & Hdis & Hframe); [done|done|done|].
  rewrite Hrun. destruct (taken _ _ _ _ _ _ _) as [r h']. cbn [fst snd] in *. exists r, h'. split; [done|]. right. exists bs'. subst r.
  replace (p + UNIT * (s - nunits) + UNIT - UNIT) with (p + UNIT * (s - nunits)) by lia. rewrite decide_True by done. rewrite Hbrk.
  split_and!; try done; [lia| |].
  - intros u. rewrite <- Hcov. intuition lia.
  - intros x Hx Hnc _. apply Hframe; [done|intros ->|]; [apply Hnc, Hcov; right; unfold UNIT; lia|]. intros Hc. apply Hnc, Hcov. by left.
Qed.

Lemma malloc_loop_ok n fuel h bs hf :
  free_list base h bs -> base < hp_brk h -> nunits < 2 ^ 28 -> (2 * length bs + 3 <= n)%nat -> (S (length bs) <= fuel)%nat ->
  hp_mem h !! hp_freep h = Some hf ->
  exists r h', malloc_loop grant n fuel nunits (hp_freep h) (h_ptr hf) h = Some (r, h') /\ malloc_post h bs r h'.
Proof using Hn Hgrant.
  intros Hfl Hbb Hlt Hlen Hfuel Hhf. destruct (decide (Exists (fun x => nunits <= x.2) bs)) as [Hex|Hno]; [apply malloc_loop_fit; (done || lia)|].
  assert (Hsmall : Forall (fun x => x.2 < nunits) bs).
  { rewrite Forall_forall. intros x Hx. apply Z.nle_gt. intros Hle. apply Hno, Exists_exists. eauto. }
  replace n with (length bs + S (n - S (length bs)))%nat by lia. rewrite malloc_miss by done.
  pose proof (fl_base _ _ _ Hfl) as Hb0. pose proof (fl_top _ _ _ Hfl) as Ht.
  destruct (grant (hp_brk h) core) eqn:Hg; [|rewrite morecore_run, Hg by (done || lia); exists 0, h; split; [done|left; done]].
  destruct (morecore_granted fuel h bs) as (h1 & bs1 & -> & Hfl1 & Hbrk1 & Hcov1 & Hframe1 & Hlen1 & Hfit); try done. cbn [mbind option_bind].
  destruct (fl_lookup h1 bs1 Hfl1) as [hf1 Hhf1].
  assert (Hfp : 0 < hp_freep h1).
  { pose proof Hfl1 as [_ _ Hsp1 Hs1 _ Hfp1]. apply list_elem_of_fmap in Hfp1 as ([a s] & -> & [[= -> ->]|Hin]%elem_of_cons); [done|].
    assert (base + UNIT * 0 < a); [|cbn in *; lia]. eapply spaced_lt; [|exact Hsp1|exact Hin].
    intros c t [[= -> ->]|Hc]%elem_of_cons; [done|specialize (Hs1 c t Hc); lia]. }
  rewrite (proj2 (Z.eqb_neq _ _)) by lia. rewrite Hhf1. cbn [mbind option_bind].
  destruct (malloc_loop_fit (n - S (length bs)) fuel h1 bs1 hf1 Hfl1) as (r & h' & Hrun & Hpost); try done.
  { apply Exists_exists. destruct Hfit as (a & s & Hin & Hs). by exists (a, s). } { lia. } { unfold core, UNIT in *; lia. }
  exists r, h'. split; [done|].
  right. destruct Hpost as [(-> & -> & Hsm & _)|(bs' & Hbp & Hfl' & Hbb' & Hend & Hhd & Hbrk' & Hcov' & Hdis' & Hframe')].
  { destruct Hfit as (a & s & Hin & Hs). rewrite Forall_forall in Hsm. specialize (Hsm _ Hin). cbn in Hsm. lia. }
  rewrite decide_True in Hbrk' by (apply Exists_exists; destruct Hfit as (a & s & Hin & Hs); by exists (a, s)).
  exists bs'. cbn zeta. rewrite decide_False by done. split_and!; try done; [lia| |].
  - intros u. rewrite <- Hcov', Hcov1, Hbrk', Hbrk1. intuition lia.
  - intros x Hx Hnc Hout. assert (Hnc1 : ~ covered bs1 x) by (rewrite Hcov1; intros [?|?]; [done|lia]).
    rewrite Hframe' by (done || lia). by apply Hframe1.
Qed.

End malloc_ok.

(** The heap before the first call or between calls: [bs] are the free blocks. *)
Definition heap_ok (base : Z) (h : heap) (bs : list block) : Prop :=
  base < hp_brk h <= 2 ^ 31 /\ (free_list base h bs \/ hp_freep h = 0 /\ bs = [] /\ 0 < base).

(** The first call makes the list that holds [base] only. *)
Lemma free_list_init base h : 0 < base -> hp_brk h <= 2 ^ 31 -> free_list base (set_freep base (set_hdr base (mkHdr base 0) h)) [].
Proof.
  intros Hb Ht. split; [done| | |by intros a s ?%elem_of_nil|by intros a s ?%elem_of_nil|left|done].
  - split; [|done]. cbn. by rewrite lookup_insert_eq.
  - done.
Qed.

Lemma freep_pos base h bs : free_list base h bs -> 0 < hp_freep h.
Proof.
  intros [Hb _ Hsp Hs _ Hfp]. apply list_elem_of_fmap in Hfp as ([a s] & -> & [[= -> ->]|Hin]%elem_of_cons); [done|].
  assert (base + UNIT * 0 < a); [|cbn in *; lia]. eapply spaced_lt; [|exact Hsp|exact Hin].
  intros c t [[= -> ->]|Hc]%elem_of_cons; [done|specialize (Hs c t Hc); lia].
Qed.

Lemma units_bound nbytes : 0 <= nbytes <= 2 ^ 31 - 16 -> 1 <= units nbytes < 2 ^ 28 /\ nbytes + UNIT <= UNIT * units nbytes < nbytes + 2 * UNIT.
Proof.
  intros H. unfold units, UNIT. rewrite u32_id by (unfold is_u32; lia). pose proof (Z.div_mod (nbytes + 8 - 1) 8). pose proof (Z.mod_pos_bound (nbytes + 8 - 1) 8). lia.
Qed.

(** C16. On a kernel that lets user memory grow up to [KERNBASE] only, [malloc(nbytes)] for up to 2^31 - 16 bytes, at the first call or later, returns.  It returns 0 only when no
    free block is large enough and the kernel refuses to grow the process; the free list is then as it was.
    Otherwise the result is behind a header with the block's size, which is [nbytes] rounded up to units and one unit for
    the header; the block was free before, or is part of what [sbrk] gave; the rest of that memory, and
    nothing else, is the free list; [sbrk] is only called when no block fits; and no header outside the free blocks
    is written, so that the other blocks in use keep theirs. *)
Theorem malloc_spec (base : Z) (grant : Z -> Z -> bool) (n fuel : nat) (nbytes : Z) (h : heap) (bs : list block)
    (Hgrant : forall brk n, grant brk n = true -> brk + n <= 2 ^ 31) (Hok : heap_ok base h bs) (Hnb : 0 <= nbytes <= 2 ^ 31 - 16)
    (Hn : (2 * length bs + 3 <= n)%nat) (Hfuel : (S (length bs) <= fuel)%nat) :
  nbytes + UNIT <= UNIT * units nbytes < nbytes + 2 * UNIT /\
  exists r h', malloc base grant n fuel nbytes h = Some (r, h') /\
    ((r = 0 /\ heap_ok base h' bs /\ Forall (fun x => x.2 < units nbytes) bs /\ grant (hp_brk h) (core (units nbytes)) = false /\
      hp_brk h' = hp_brk h /\ forall x, x ≠ base -> hp_mem h' !! x = hp_mem h !! x) \/
     exists bs', let bp := r - UNIT in
      base < bp /\ heap_ok base h' bs' /\ bp + UNIT * units nbytes <= hp_brk h' /\
      (exists hd, hp_mem h' !! bp = Some hd /\ h_size hd = units nbytes) /\
      hp_brk h' = hp_brk h + (if decide (Exists (fun x => units nbytes <= x.2) bs) then 0 else core (units nbytes)) /\
      (forall u, covered bs u \/ hp_brk h <= u < hp_brk h' <-> covered bs' u \/ bp <= u < bp + UNIT * units nbytes) /\
      (forall u, bp <= u < bp + UNIT * units nbytes -> ~ covered bs' u) /\
      (forall x, x ≠ base -> ~ covered bs x -> ~ hp_brk h <= x < hp_brk h' -> hp_mem h' !! x = hp_mem h !! x)).
Proof.
  destruct (units_bound nbytes Hnb) as [Hu Hsz]. split; [done|]. destruct Hok as [[Hbb Hbt] Hok]. unfold malloc.
  set (h0 := if hp_freep h =? 0 then set_freep base (set_hdr base (mkHdr base 0) h) else h).
  assert (H0 : free_list base h0 bs /\ hp_brk h0 = hp_brk h /\ forall x, x ≠ base -> hp_mem h0 !! x = hp_mem h !! x).
  { subst h0. destruct Hok as [Hfl|(Hz & -> & Hb)].
    - pose proof (freep_pos _ _ _ Hfl). by rewrite (proj2 (Z.eqb_neq _ _)) by lia.
    - rewrite Hz, Z.eqb_refl. split_and!; [by apply free_list_init|done|]. intros x Hx. cbn. by rewrite lookup_insert_ne. }
  destruct H0 as (Hfl & Hbrk & Hmem). destruct (fl_lookup base h0 bs Hfl) as [hf Hhf].
  destruct (malloc_loop_ok base grant (units nbytes) ltac:(lia) Hgrant n fuel h0 bs hf) as (r & h' & Hrun & Hpost); try done; [lia..|].
  exists r, h'. rewrite Hhf. split; [exact Hrun|]. destruct Hpost as [(-> & -> & Hsm & Hg)|(bs' & Hbp & Hfl' & Hbb' & Hend & Hhd & Hbrk' & Hcov & Hdis & Hframe)].
  - left. rewrite Hbrk in Hg. split_and!; try done. split; [lia|by left].
  - pose proof (fl_top _ _ _ Hfl') as Ht'. right. exists bs'. rewrite <- Hbrk. split_and!; try done; [split; [done|by left]|]. intros x Hx Hnc Hout. rewrite Hframe by done. by apply Hmem.
Qed.

(** C24. [free] of a block in use (its header holds its size, it lies in the process's memory behind [base] and no part of
    it is free) returns; the free memory is then what was free and the block; neighbouring free blocks are
    joined, so that no two of them touch; and no header outside the free blocks is written. *)
Theorem free_spec (base : Z) (h : heap) (bs : list block) (ap : Z) (hb : header) (fuel : nat)
    (Hfl : free_list base h bs) (Hbb : base < hp_brk h) (Hhb : hp_mem h !! (ap - UNIT) = Some hb) (Hsz : 1 <= h_size hb)
    (Hap : base < ap - UNIT) (Hbrk : ap - UNIT + UNIT * h_size hb <= hp_brk h)
    (Hdis : forall u, ap - UNIT <= u < ap - UNIT + UNIT * h_size hb -> ~ covered bs u)
    (Hfuel : (S (length bs) <= fuel)%nat) :
  exists h' bs', free fuel ap h = Some h' /\ heap_ok base h' bs' /\ spaced bs' /\ hp_brk h' = hp_brk h /\
    (forall u, covered bs' u <-> covered bs u \/ ap - UNIT <= u < ap - UNIT + UNIT * h_size hb) /\
    (forall x, x ≠ base -> ~ covered bs' x -> hp_mem h' !! x = hp_mem h !! x).
Proof.
  destruct (free_ok base h bs (ap - UNIT) hb fuel) as (h' & bs' & Hrun & Hfl' & Hb & Hcov & Hframe & _); try done.
  replace (ap - UNIT + UNIT) with ap in Hrun by lia. exists h', bs'. pose proof (fl_spaced _ _ _ Hfl') as [_ Hsp]. split_and!; try done. split; [pose proof (fl_top _ _ _ Hfl'); lia|by left].
Qed.

(** ** Witnesses *)

(** A process of 16 KiB with [base] at 4096: the first call asks the kernel for 32 KiB. *)
Definition ex_heap : heap := mkHeap ∅ 0 16384.

Definition ex_grant (brk n : Z) : bool := brk + n <=? 65536.

Lemma ex_grant_ok brk n : ex_grant brk n = true -> brk + n <= 2 ^ 31.
Proof. unfold ex_grant. intros H%Z.leb_le. lia. Qed.

(** After [malloc(100)]: 14 units at the end of what the kernel gave. *)
Definition ex_used : heap := match malloc 4096 ex_grant 3 1 100 ex_heap with Some (_, h) => h | None => ex_heap end.

Lemma malloc_spec_witness : heap_ok 4096 ex_heap [] /\ exists r h', malloc 4096 ex_grant 3 1 100 ex_heap = Some (r, h') /\ r = 49048.
Proof.
  assert (Hok : heap_ok 4096 ex_heap []) by (split; [done|by right]). split; [exact Hok|].
  destruct (malloc_spec 4096 ex_grant 3 1 100 ex_heap [] ex_grant_ok Hok ltac:(lia) ltac:(cbn; lia) ltac:(cbn; lia)) as (_ & r & h' & Hrun & _).
  exists r, h'. split; [exact Hrun|]. vm_compute in Hrun. by injection Hrun as <- _.
Defined.

Lemma ex_used_list : free_list 4096 ex_used [(16384, 4082)].
Proof.
  assert (Hin : forall a s, (a, s) ∈ [(16384, 4082)] -> a = 16384 /\ s = 4082) by (intros a s [[= -> ->]|?%elem_of_nil]%elem_of_cons; done).
  split; [done|by split_and!|by split_and!|intros a s [-> ->]%Hin; done|intros a s [-> ->]%Hin; done|vm_compute; by left|vm_compute; discriminate].
Qed.

Lemma free_spec_witness : exists h' bs', free 2 49048 ex_used = Some h' /\ heap_ok 4096 h' bs' /\ covered bs' 49100.
Proof.
  destruct (free_spec 4096 ex_used [(16384, 4082)] 49048 (mkHdr 0 14) 2 ex_used_list) as (h' & bs' & Hrun & Hok & _ & _ & Hcov & _);
    [done..| |done|].
  - intros u Hu (a & s & Hin & Hr). apply elem_of_cons in Hin as [[= -> ->]|?%elem_of_nil]; [|done]. unfold UNIT in *. cbn in Hu. lia.
  - exists h', bs'. split_and!; [exact Hrun|exact Hok|]. apply Hcov. right. unfold UNIT. cbn. lia.
Defined.
