(* ===== verification/Sh.v ===== *)
(** * The shell's parser (sh.c)

    The recursive-descent parser of the shell, on the line it was given.  A [char*] into the line is a position;
    commands are cells of a heap, allocated in order, because [parseexec] fills the [argv] of a command after
    redirections have been wrapped around it; [nulterminate] then overwrites the byte behind every word.  The theorems show that
    the parser is total and safe on every line, that what it accepts is a well-formed command tree, and that
    it inverts the printer of such trees.  Bytes are numbers and a line holds none that is 0. *)

From S2P Require Import Prelude.
From stdpp Require Import list strings sets.
Open Scope Z_scope.

(** ** Characters *)

(** [strchr(s, c) != 0] for a [c] that is not 0. *)
Definition has_char (s : list Z) (c : Z) : bool := existsb (Z.eqb c) s.

(** Space, tab, carriage return, newline and vertical tab. *)
Definition whitespace : list Z := [32; 9; 13; 10; 11].
Definition symbols : list Z := str "<|>&;()".

Definition is_space (c : Z) : bool := has_char whitespace c.
Definition is_symbol (c : Z) : bool := has_char symbols c.

(** The character of a token that is a word, and of [>>]. *)
Definition tok_word : Z := 97.
Definition tok_append : Z := 43.
Definition LT : Z := 60.
Definition GT : Z := 62.

Definition O_RDONLY : Z := 0.
Definition O_WRONLY : Z := 1.
Definition O_CREATE : Z := 0x200.
Definition MAXARGS : nat := 10.

(** ** Commands *)

(** [struct cmd] and the structs it is cast to; a [struct cmd*] is an index into the heap. *)
Inductive node :=
| EXEC (argv eargv : list (option nat))
| REDIR (cmd file efile : nat) (mode fd : Z)
| PIPE (left right : nat)
| LIST (left right : nat)
| BACK (cmd : nat).

(** Where the parser is: the cells allocated so far and [*ps]. *)
Record sh := mkSh { sh_heap : list node; sh_pos : nat }.

(** The end of a run: a result, [panic] (which exits; [lo] is the rest of the line that [parsecmd] prints as leftovers before it, if it does), a read beyond the NUL of the line or of a cell that is not
    there, or a recursion cut short. *)
Inductive outcome (A : Type) :=
| Done (a : A) (s : sh)
| Exits (lo : option (list Z)) (msg : string)
| Wild
| Cut.
Arguments Done {A}. Arguments Exits {A}. Arguments Wild {A}. Arguments Cut {A}.

Definition P (A : Type) : Type := sh -> outcome A.
Definition yield_ {A} (a : A) : P A := fun s => Done a s.
Definition andthen {A B} (m : P A) (f : A -> P B) : P B := fun s =>
  match m s with Done a s => f a s | Exits lo msg => Exits lo msg | Wild => Wild | Cut => Cut end.
Definition sh_panic {A} (msg : string) : P A := fun _ => Exits None msg.

Declare Scope sh_scope.
Notation "'let!' x := c 'in' d" := (andthen c (fun x => d))
  (at level 10, x name, d at level 200) : sh_scope.
Notation "'let!' ' p := c 'in' d" := (andthen c (fun x => match x with p => d end))
  (at level 10, p pattern, d at level 200) : sh_scope.
Open Scope sh_scope.

(** ** Constructors *)

Definition new_cmd (n : node) : P nat := fun s => Done (length (sh_heap s)) (mkSh (sh_heap s ++ [n]) (sh_pos s)).

Definition execcmd : P nat := new_cmd (EXEC (replicate MAXARGS None) (replicate MAXARGS None)).
Definition redircmd (subcmd file efile : nat) (mode fd : Z) : P nat := new_cmd (REDIR subcmd file efile mode fd).
Definition pipecmd (left right : nat) : P nat := new_cmd (PIPE left right).
Definition listcmd (left right : nat) : P nat := new_cmd (LIST left right).
Definition backcmd (subcmd : nat) : P nat := new_cmd (BACK subcmd).

(** [cmd->argv[argc] = q; cmd->eargv[argc] = eq;] *)
Definition set_arg (cmd argc : nat) (q eq : option nat) : P unit := fun s =>
  match sh_heap s !! cmd with
  | Some (EXEC argv eargv) =>
      if decide (argc < MAXARGS)%nat then
        Done tt (mkSh (<[cmd := EXEC (<[argc := q]> argv) (<[argc := eq]> eargv)]> (sh_heap s)) (sh_pos s))
      else Wild
  | _ => Wild
  end.

(** ** Scanning *)

Section sh_c.
(** The line without its NUL. *)
Context (line : list Z).

Definition es : nat := length line.

(** [*s] *)
Definition char_at (s : nat) : option Z := if decide (s = es) then Some 0 else line !! s.

(** [while(s < es && test( *s )) s++;] *)
Fixpoint skip_loop (test : Z -> bool) (n s : nat) : nat :=
  match n with
  | O => s
  | S n => match line !! s with Some c => if test c then skip_loop test n (S s) else s | None => s end
  end.
Definition skip (test : Z -> bool) (s : nat) : nat := skip_loop test (es - s) s.

Definition is_word (c : Z) : bool := negb (is_space c) && negb (is_symbol c).

(** The token, [q], [eq] and the position behind the token and the spaces after it. *)
Definition token (s : nat) : option (Z * nat * nat * nat) :=
  let s := skip is_space s in
  c ← char_at s;
  '(r, e) ← (if c =? 0 then Some (0, s)
             else if has_char (str "|();&<") c then Some (c, S s)
             else if c =? GT then
               d ← char_at (S s);
               Some (if d =? GT then (tok_append, S (S s)) else (c, S s))
             else Some (tok_word, skip is_word s));
  Some (r, s, e, skip is_space e).

Definition gettoken : P (Z * nat * nat) := fun s =>
  match token (sh_pos s) with
  | Some (r, q, e, ps) => Done (r, q, e) (mkSh (sh_heap s) ps)
  | None => Wild
  end.

Definition peek (toks : string) : P bool := fun s =>
  let ps := skip is_space (sh_pos s) in
  match char_at ps with
  | Some c => Done (negb (c =? 0) && has_char (str toks) c) (mkSh (sh_heap s) ps)
  | None => Wild
  end.

(** ** Parsing *)

(** The loops take at most one turn for each byte that is left. *)
Fixpoint parseredirs_loop (n : nat) (cmd : nat) : P nat :=
  match n with
  | O => fun _ => Cut
  | S n =>
      let! b := peek "<>" in
      if (b : bool) then
        let! '(tok, _, _) := gettoken in
        let! '(t, q, eq) := gettoken in
        if negb (t =? tok_word) then sh_panic "missing file for redirection"
        else
          let! cmd := (if tok =? LT then redircmd cmd q eq O_RDONLY 0
                   else if tok =? GT then redircmd cmd q eq (Z.lor O_WRONLY O_CREATE) 1
                   else if tok =? tok_append then redircmd cmd q eq (Z.lor O_WRONLY O_CREATE) 1
                   else yield_ cmd) in
          parseredirs_loop n cmd
      else yield_ cmd
  end.
Definition parseredirs (cmd : nat) : P nat := parseredirs_loop (S es) cmd.

Fixpoint parseexec_args (n : nat) (cmd argc ret : nat) : P (nat * nat) :=
  match n with
  | O => fun _ => Cut
  | S n =>
      let! b := peek "|)&;" in
      if (b : bool) then yield_ (argc, ret)
      else
        let! '(tok, q, eq) := gettoken in
        if tok =? 0 then yield_ (argc, ret)
        else if negb (tok =? tok_word) then sh_panic "syntax"
        else
          let! unused := set_arg cmd argc (Some q) (Some eq) in
          if decide (MAXARGS <= S argc)%nat then sh_panic "too many args"
          else
            let! ret := parseredirs ret in
            parseexec_args n cmd (S argc) ret
  end.

(** [while(peek(ps, es, "&"))] *)
Fixpoint parse_backs (n : nat) (cmd : nat) : P nat :=
  match n with
  | O => fun _ => Cut
  | S n =>
      let! b := peek "&" in
      if (b : bool) then let! unused := gettoken in let! cmd := backcmd cmd in parse_backs n cmd else yield_ cmd
  end.

Fixpoint parseline (fuel : nat) : P nat :=
  match fuel with
  | O => fun _ => Cut
  | S fuel =>
      let! cmd := parsepipe fuel in
      let! cmd := parse_backs (S es) cmd in
      let! b := peek ";" in
      if (b : bool) then let! unused := gettoken in let! right := parseline fuel in listcmd cmd right else yield_ cmd
  end
with parsepipe (fuel : nat) : P nat :=
  match fuel with
  | O => fun _ => Cut
  | S fuel =>
      let! cmd := parseexec fuel in
      let! b := peek "|" in
      if (b : bool) then let! unused := gettoken in let! right := parsepipe fuel in pipecmd cmd right else yield_ cmd
  end
with parseexec (fuel : nat) : P nat :=
  match fuel with
  | O => fun _ => Cut
  | S fuel =>
      let! b := peek "(" in
      if (b : bool) then parseblock fuel
      else
        let! cmd := execcmd in
        let! ret := parseredirs cmd in
        let! '(argc, ret) := parseexec_args (S es) cmd 0 ret in
        let! unused := set_arg cmd argc None None in
        yield_ ret
  end
with parseblock (fuel : nat) : P nat :=
  match fuel with
  | O => fun _ => Cut
  | S fuel =>
      let! b := peek "(" in
      if negb b then sh_panic "parseblock"
      else
        let! unused := gettoken in
        let! cmd := parseline fuel in
        let! b := peek ")" in
        if negb b then sh_panic "syntax - missing )"
        else let! unused := gettoken in parseredirs cmd
  end.

End sh_c.

(** ** NUL termination *)

(** [*p = 0] *)
Definition put_nul (p : nat) (buf : list Z) : option (list Z) :=
  if decide (p < length buf)%nat then Some (<[p := 0]> buf) else None.

(** [for(i=0; ecmd->argv[i]; i++) *ecmd->eargv[i] = 0;] *)
Fixpoint nul_args (argv eargv : list (option nat)) (buf : list Z) : option (list Z) :=
  match argv, eargv with
  | None :: _, _ => Some buf
  | Some _ :: argv, Some e :: eargv => buf ← put_nul e buf; nul_args argv eargv buf
  | _, _ => None
  end.

Fixpoint nulterminate (fuel : nat) (heap : list node) (cmd : nat) (buf : list Z) : option (list Z) :=
  match fuel with
  | O => None
  | S fuel =>
      n ← heap !! cmd;
      match n with
      | EXEC argv eargv => nul_args argv eargv buf
      | REDIR cmd file efile _ _ => buf ← nulterminate fuel heap cmd buf; put_nul efile buf
      | PIPE l r | LIST l r => buf ← nulterminate fuel heap l buf; nulterminate fuel heap r buf
      | BACK cmd => nulterminate fuel heap cmd buf
      end
  end.

(** The command, the heap and the line as [parsecmd] leaves them. *)
Definition parsecmd (line : list Z) : outcome (nat * list Z) :=
  match parseline line (4 * length line + 4) (mkSh [] 0) with
  | Done cmd s =>
      match peek line EmptyString s with
      | Done _ s =>
          if decide (sh_pos s = es line) then
            match nulterminate (length (sh_heap s)) (sh_heap s) cmd (line ++ [0]) with
            | Some buf => Done (cmd, buf) s
            | None => Wild
            end
          else Exits (Some (drop (sh_pos s) line)) "syntax"
      | Exits lo msg => Exits lo msg | Wild => Wild | Cut => Cut
      end
  | Exits lo msg => Exits lo msg | Wild => Wild | Cut => Cut
  end.

(** ** Command trees *)

(** A command as a tree over positions of the line: a word is where it begins and ends. *)
Inductive tree :=
| TExec (args : list (nat * nat))
| TRedir (c : tree) (file efile : nat) (mode fd : Z)
| TPipe (l r : tree)
| TList (l r : tree)
| TBack (c : tree).

Definition argv_of (ps : list nat) : list (option nat) := (Some <$> ps) ++ replicate (MAXARGS - length ps) None.

(** The cell [p] of the heap is the root of a tree whose cells were allocated in order. *)
Inductive reads (h : list node) : nat -> tree -> Prop :=
| reads_exec p args : h !! p = Some (EXEC (argv_of args.*1) (argv_of args.*2)) -> (length args < MAXARGS)%nat -> reads h p (TExec args)
| reads_redir p c t f e m fd : h !! p = Some (REDIR c f e m fd) -> (c < p)%nat -> reads h c t -> reads h p (TRedir t f e m fd)
| reads_pipe p l r tl tr : h !! p = Some (PIPE l r) -> (l < p)%nat -> (r < p)%nat -> reads h l tl -> reads h r tr -> reads h p (TPipe tl tr)
| reads_list p l r tl tr : h !! p = Some (LIST l r) -> (l < p)%nat -> (r < p)%nat -> reads h l tl -> reads h r tr -> reads h p (TList tl tr)
| reads_back p c t : h !! p = Some (BACK c) -> (c < p)%nat -> reads h c t -> reads h p (TBack t).
Create HintDb sh.
#[export] Hint Constructors reads : sh.

Lemma reads_prefix h h' p t : reads h p t -> h `prefix_of` h' -> reads h' p t.
Proof. intros Hr Hp. induction Hr; eauto using prefix_lookup_Some with sh. Qed.

Lemma reads_lt h p t : reads h p t -> (p < length h)%nat.
Proof. intros Hr. inversion Hr; by eapply lookup_lt_Some. Qed.

(** A redirection around a command: the file's name, the mode and the descriptor. *)
Record redir := mkRedir { r_file : nat; r_efile : nat; r_mode : Z; r_fd : Z }.

(** The cell [p] holds the redirections [rs], the outermost first, around the cell [c]. *)
Fixpoint chain (h : list node) (p c : nat) (rs : list redir) : Prop :=
  match rs with
  | [] => p = c
  | r :: rs => exists q, h !! p = Some (REDIR q (r_file r) (r_efile r) (r_mode r) (r_fd r)) /\ (q < p)%nat /\ chain h q c rs
  end.

Definition wrap (rs : list redir) (t : tree) : tree :=
  foldr (fun r t => TRedir t (r_file r) (r_efile r) (r_mode r) (r_fd r)) t rs.

Lemma chain_reads h rs : forall p c t, chain h p c rs -> reads h c t -> reads h p (wrap rs t).
Proof. induction rs as [|r rs IH]; intros p c t; cbn; [by intros ->|]. intros (q & Hq & Hlt & Hc) Hr. eauto with sh. Qed.

Lemma chain_app h rs rs' : forall p q c, chain h p q rs -> chain h q c rs' -> chain h p c (rs ++ rs').
Proof. induction rs as [|r rs IH]; intros p q c; cbn; [by intros ->|]. intros (x & Hx & Hlt & Hc) Hr. eauto. Qed.

Lemma chain_prefix h h' rs : forall p c, chain h p c rs -> h `prefix_of` h' -> chain h' p c rs.
Proof. induction rs as [|r rs IH]; intros p c; cbn; [done|]. intros (q & Hq & Hlt & Hc) Hp. exists q. split_and!; [by eapply prefix_lookup_Some|done|by eapply IH]. Qed.

(** A command below the redirections may be filled in. *)
Lemma chain_set h x argv eargv n rs : forall p c, chain h p c rs -> h !! x = Some (EXEC argv eargv) -> chain (<[x := n]> h) p c rs.
Proof.
  induction rs as [|r rs IH]; intros p c; cbn; [done|]. intros (q & Hq & Hlt & Hc) Hx. exists q.
  rewrite list_lookup_insert_ne by congruence. eauto.
Qed.

Section trees.
Context (line : list Z).
Abbreviation es := (es line).

(** A word of the line, as long as it can be. *)
Definition word_at (q e : nat) : Prop :=
  (q < e <= es)%nat /\ (forall i c, (q <= i < e)%nat -> line !! i = Some c -> is_word c = true) /\
  (forall c, line !! e = Some c -> is_word c = false).

Definition redir_ok (m fd : Z) : Prop := (m = O_RDONLY /\ fd = 0) \/ (m = Z.lor O_WRONLY O_CREATE /\ fd = 1).

Fixpoint tree_ok (t : tree) : Prop :=
  match t with
  | TExec args => Forall (fun x => word_at x.1 x.2) args /\ (length args < MAXARGS)%nat
  | TRedir c f e m fd => tree_ok c /\ word_at f e /\ redir_ok m fd
  | TPipe l r | TList l r => tree_ok l /\ tree_ok r
  | TBack c => tree_ok c
  end.

Definition rs_ok (rs : list redir) : Prop := Forall (fun r => word_at (r_file r) (r_efile r) /\ redir_ok (r_mode r) (r_fd r)) rs.

Lemma wrap_ok rs t : rs_ok rs -> tree_ok t -> tree_ok (wrap rs t).
Proof. induction 1 as [|r rs [? ?] _ IH]; cbn; [done|]. auto. Qed.

(** ** Total correctness, up to [panic] *)

Definition ensures {A} (m : P A) (Q : A -> sh -> Prop) (s : sh) : Prop :=
  match m s with Done a s => Q a s | Exits _ _ => True | Wild | Cut => False end.

Lemma ensures_bind {A B} (m : P A) (f : A -> P B) Q s : ensures m (fun a s => ensures (f a) Q s) s -> ensures (andthen m f) Q s.
Proof. unfold ensures, andthen. by destruct (m s). Qed.

Lemma ensures_mono {A} (m : P A) (Q Q' : A -> sh -> Prop) s : ensures m Q s -> (forall a s, Q a s -> Q' a s) -> ensures m Q' s.
Proof. unfold ensures. destruct (m s); auto. Qed.

Lemma ensures_new n (Q : nat -> sh -> Prop) h pos : Q (length h) (mkSh (h ++ [n]) pos) -> ensures (new_cmd n) Q (mkSh h pos).
Proof. done. Qed.

(** *** Scanning *)

Lemma skip_loop_spec test n : forall s, (s + n = es)%nat ->
  let r := skip_loop line test n s in
  (s <= r <= es)%nat /\ (forall i c, (s <= i < r)%nat -> line !! i = Some c -> test c = true) /\
  (forall c, line !! r = Some c -> test c = false).
Proof.
  induction n as [|n IH]; intros s Hs; cbn.
  - split_and!; [lia|lia|intros; lia|]. intros c Hc. apply lookup_lt_Some in Hc. unfold Sh.es in *. lia.
  - destruct (line !! s) as [c|] eqn:Hc; [|apply lookup_ge_None in Hc; unfold Sh.es in *; lia].
    destruct (test c) eqn:Ht.
    + destruct (IH (S s) ltac:(lia)) as (H1 & H2 & H3). split_and!; [lia|lia| |done]. intros i d Hi Hd.
      destruct (decide (i = s)) as [->|]; [congruence|]. apply (H2 i d); [lia|done].
    + split_and!; [lia|lia|intros; lia|]. congruence.
Qed.

Lemma skip_spec test s : (s <= es)%nat ->
  (s <= skip line test s <= es)%nat /\ (forall i c, (s <= i < skip line test s)%nat -> line !! i = Some c -> test c = true) /\
  (forall c, line !! skip line test s = Some c -> test c = false).
Proof. intros Hs. apply skip_loop_spec. lia. Qed.

Lemma char_at_in s : (s <= es)%nat -> exists c, char_at line s = Some c /\ (c ≠ 0 -> line !! s = Some c).
Proof.
  intros Hs. unfold char_at. destruct (decide (s = es)) as [->|]; [by exists 0|].
  destruct (lookup_lt_is_Some_2 line s) as [c Hc]; [unfold Sh.es in *; lia|]. eauto.
Qed.

Lemma ensures_peek toks (Q : bool -> sh -> Prop) h pos : (pos <= es)%nat ->
  (forall b pos', (pos <= pos' <= es)%nat -> (b = true -> (pos' < es)%nat /\ exists c, line !! pos' = Some c /\ is_space c = false /\ c ≠ 0) -> Q b (mkSh h pos')) ->
  ensures (peek line toks) Q (mkSh h pos).
Proof.
  intros Hpos HQ. unfold ensures, peek. cbn [sh_pos sh_heap]. destruct (skip_spec is_space pos Hpos) as (H1 & _ & H3).
  destruct (char_at_in _ (proj2 H1)) as (c & -> & Hc). apply HQ; [done|].
  intros [Hne Ht]%andb_prop. apply negb_true_iff, Z.eqb_neq in Hne. specialize (Hc Hne).
  split; [by eapply lookup_lt_Some|]. exists c. split_and!; [done|by apply H3|done].
Qed.

Lemma has_char_in l c : has_char l c = true <-> c ∈ l.
Proof.
  unfold has_char. rewrite existsb_exists. split.
  - intros (x & Hx & ->%Z.eqb_eq). by apply list_elem_of_In.
  - intros Hc. exists c. split; [by apply list_elem_of_In|apply Z.eqb_refl].
Qed.

Lemma symbol_split c : is_symbol c = true -> has_char (str "|();&<") c = true \/ c = GT.
Proof. unfold is_symbol. rewrite !has_char_in. unfold symbols, GT. cbn. rewrite !elem_of_cons. tauto. Qed.

(** A token: where it lies, and that it is not empty unless the line is over. *)
Lemma ensures_gettoken (Q : Z * nat * nat -> sh -> Prop) h pos : (pos <= es)%nat ->
  (forall r q e pos', (pos <= q <= e)%nat -> (e <= pos' <= es)%nat -> (r ≠ 0 -> (q < e)%nat) -> (r = tok_word -> word_at q e) ->
    (forall c, line !! pos = Some c -> is_space c = false -> c ≠ 0 -> r ≠ 0) -> Q (r, q, e) (mkSh h pos')) ->
  ensures (gettoken line) Q (mkSh h pos).
Proof.
  intros Hpos HQ. unfold ensures, gettoken, token. cbn [sh_pos sh_heap].
  destruct (skip_spec is_space pos Hpos) as (H1 & _ & H3). set (q := skip line is_space pos) in *.
  destruct (char_at_in _ (proj2 H1)) as (c & Hc & Hc0). rewrite Hc. cbn [mbind option_bind].
  assert (Hstart : forall d, line !! pos = Some d -> is_space d = false -> d ≠ 0 -> c ≠ 0).
  { intros d Hd Hs Hd0. assert (q = pos) as Hq.
    { unfold q, skip. destruct (es - pos)%nat; [done|]. cbn [skip_loop]. by rewrite Hd, Hs. }
    unfold char_at in Hc. rewrite Hq in Hc. destruct (decide (pos = es)) as [->|]; [|congruence].
    apply lookup_lt_Some in Hd. unfold Sh.es in Hd. lia. }
  assert (Hone : forall r e, (q < e <= es)%nat -> r ≠ 0 -> (r = tok_word -> word_at q e) -> Q (r, q, e) (mkSh h (skip line is_space e))).
  { intros r e He Hr Hw. destruct (skip_spec is_space e (proj2 He)) as (H4 & _ & _). apply HQ; [lia|lia|lia|done|done]. }
  assert (Hlt : c ≠ 0 -> (q < es)%nat) by (intros Hne; by eapply lookup_lt_Some, Hc0).
  destruct (Z.eqb_spec c 0) as [->|Hne]; cbn [mbind option_bind].
  { destruct (skip_spec is_space q (proj2 H1)) as (H4 & _ & _). apply HQ; [lia|lia|done|done|]. intros d Hd Hs Hd0. by destruct (Hstart d Hd Hs Hd0). }
  specialize (Hlt Hne). destruct (has_char (str "|();&<") c) eqn:Hsym; cbn [mbind option_bind].
  { apply Hone; [lia|done|]. intros ->. done. }
  destruct (Z.eqb_spec c GT) as [->|Hgt].
  - destruct (char_at_in (S q)) as (d & Hd & Hd0); [lia|]. rewrite Hd. cbn [mbind option_bind].
    destruct (Z.eqb_spec d GT) as [->|]; cbn [mbind option_bind]; apply Hone; try done; [|lia].
    assert (S q < es)%nat by (by eapply lookup_lt_Some, Hd0). lia.
  - cbn [mbind option_bind]. specialize (Hc0 Hne). destruct (skip_spec is_word q (proj2 H1)) as (H5 & H6 & H7).
    assert (Hw : is_word c = true).
    { unfold is_word. rewrite (H3 c Hc0). destruct (is_symbol c) eqn:Hs; [|done]. apply symbol_split in Hs as [Hs|Hs]; congruence. }
    assert (q < skip line is_word q)%nat.
    { destruct (decide (q = skip line is_word q)) as [Heq|]; [|lia]. rewrite <- Heq in H7. rewrite (H7 c Hc0) in Hw. done. }
    apply Hone; [lia|done|]. intros _. split_and!; [lia|lia|done|done].
Qed.

(** *** The loops *)

Lemma ensures_redirs_loop n : forall cmd h pos (Q : nat -> sh -> Prop), (pos <= es)%nat -> (es - pos < n)%nat -> (cmd < length h)%nat ->
  (forall p h' pos' rs, h `prefix_of` h' -> (pos <= pos' <= es)%nat -> chain h' p cmd rs -> rs_ok rs -> (p < length h')%nat -> Q p (mkSh h' pos')) ->
  ensures (parseredirs_loop line n cmd) Q (mkSh h pos).
Proof.
  induction n as [|n IH]; intros cmd h pos Q Hpos Hn Hcmd HQ; [lia|]. cbn [parseredirs_loop].
  apply ensures_bind, ensures_peek; [done|]. intros b pos1 H1 Hb. destruct b.
  2:{ apply (HQ cmd h pos1 []); first [done|constructor]. }
  destruct Hb as [Hlt (c & Hc & Hs & Hc0)]; [done|].
  apply ensures_bind, ensures_gettoken; [lia|]. intros r q e pos2 H2 H3 Hr _ Hr0. specialize (Hr (Hr0 c Hc Hs Hc0)).
  apply ensures_bind, ensures_gettoken; [lia|]. intros t q' e' pos3 H4 H5 _ Hw _.
  destruct (Z.eqb_spec t tok_word) as [->|]; [|done]. cbn [negb]. specialize (Hw eq_refl).
  assert (Hgo : forall m fd, redir_ok m fd -> ensures (let! x := redircmd cmd q' e' m fd in parseredirs_loop line n x) Q (mkSh h pos3)).
  { intros m fd Hm. apply ensures_bind, ensures_new. apply IH; [lia|lia|rewrite length_app; cbn; lia|].
    intros p h' pos' rs Hp H6 Hch Hrs Hlt'. apply (HQ p h' pos' (rs ++ [mkRedir q' e' m fd])); [by etrans; [apply prefix_app_r|]|lia| | |done].
    - eapply chain_app; [exact Hch|]. exists cmd. cbn [r_file r_efile r_mode r_fd]. split_and!; [|done|done].
      eapply prefix_lookup_Some; [|exact Hp]. by rewrite lookup_app_r, Nat.sub_diag by lia.
    - apply Forall_app. split; [done|]. constructor; [done|constructor]. }
  destruct (r =? LT); [apply Hgo; by left|]. destruct (r =? GT); [apply Hgo; by right|].
  destruct (r =? tok_append); [apply Hgo; by right|]. apply ensures_bind. apply IH; [lia|lia|done|].
  intros p h' pos' rs Hp H6 Hch Hrs Hlt'. apply (HQ p h' pos' rs); [done|lia|done|done|done].
Qed.

Lemma ensures_redirs cmd h pos (Q : nat -> sh -> Prop) : (pos <= es)%nat -> (cmd < length h)%nat ->
  (forall p h' pos' rs, h `prefix_of` h' -> (pos <= pos' <= es)%nat -> chain h' p cmd rs -> rs_ok rs -> (p < length h')%nat -> Q p (mkSh h' pos')) ->
  ensures (parseredirs line cmd) Q (mkSh h pos).
Proof. intros Hpos Hcmd HQ. apply ensures_redirs_loop; [done|lia|done|done]. Qed.

(** The cell of a simple command with these words. *)
Definition exec_cell (args : list (nat * nat)) : node := EXEC (argv_of args.*1) (argv_of args.*2).

Lemma argv_snoc ps x : (length ps < MAXARGS)%nat -> <[length ps := Some x]> (argv_of ps) = argv_of (ps ++ [x]).
Proof.
  intros Hlt. unfold argv_of. rewrite insert_app_r_alt by (by rewrite length_fmap). rewrite length_fmap, Nat.sub_diag, length_app, fmap_app, <- app_assoc. f_equal. cbn [length].
  destruct (MAXARGS - length ps)%nat eqn:E; [lia|]. replace (MAXARGS - (length ps + 1))%nat with n by lia. done.
Qed.

Lemma argv_end ps : (length ps < MAXARGS)%nat -> <[length ps := None]> (argv_of ps) = argv_of ps.
Proof.
  intros Hlt. apply list_insert_id. unfold argv_of. rewrite lookup_app_r by (by rewrite length_fmap).
  rewrite length_fmap, Nat.sub_diag. apply lookup_replicate_2. lia.
Qed.

Lemma set_arg_run cmd args q e h pos : h !! cmd = Some (exec_cell args) -> (length args < MAXARGS)%nat ->
  set_arg cmd (length args) (Some q) (Some e) (mkSh h pos) = Done tt (mkSh (<[cmd := exec_cell (args ++ [(q, e)])]> h) pos).
Proof.
  intros Hc Hlt. unfold set_arg. cbn [sh_heap sh_pos]. rewrite Hc. unfold exec_cell. rewrite decide_True by done.
  rewrite !fmap_app. cbn [fmap list_fmap fst snd]. rewrite <- !argv_snoc by (by rewrite length_fmap). by rewrite !length_fmap.
Qed.

Lemma end_args_run cmd args h pos : h !! cmd = Some (exec_cell args) -> (length args < MAXARGS)%nat ->
  set_arg cmd (length args) None None (mkSh h pos) = Done tt (mkSh h pos).
Proof.
  intros Hc Hlt. unfold set_arg. cbn [sh_heap sh_pos]. rewrite Hc. unfold exec_cell. rewrite decide_True by done.
  pose proof (argv_end args.*1 ltac:(by rewrite length_fmap)) as E1. pose proof (argv_end args.*2 ltac:(by rewrite length_fmap)) as E2.
  rewrite length_fmap in E1, E2. rewrite E1, E2. by rewrite list_insert_id.
Qed.

Lemma ensures_eq {A} (m : P A) (Q : A -> sh -> Prop) s a s' : m s = Done a s' -> Q a s' -> ensures m Q s.
Proof. unfold ensures. by intros ->. Qed.

Lemma prefix_insert (h0 h : list node) x n : h0 `prefix_of` h -> (length h0 <= x)%nat -> h0 `prefix_of` <[x := n]> h.
Proof. intros [l ->] Hx. exists (<[x - length h0 := n]> l)%nat. by rewrite insert_app_r_alt. Qed.

Lemma ensures_args n : forall cmd args ret rs h0 h pos (Q : nat * nat -> sh -> Prop),
  (pos <= es)%nat -> (es - pos < n)%nat -> h0 `prefix_of` h -> (length h0 <= cmd)%nat ->
  h !! cmd = Some (exec_cell args) -> chain h ret cmd rs -> (ret < length h)%nat -> tree_ok (TExec args) -> rs_ok rs ->
  (forall args' ret' rs' h' pos', (pos <= pos' <= es)%nat -> h0 `prefix_of` h' -> h' !! cmd = Some (exec_cell args') -> chain h' ret' cmd rs' ->
    tree_ok (TExec args') -> rs_ok rs' -> Q (length args', ret') (mkSh h' pos')) ->
  ensures (parseexec_args line n cmd (length args) ret) Q (mkSh h pos).
Proof.
  induction n as [|n IH]; intros cmd args ret rs h0 h pos Q Hpos Hn H0 Hcmd Hc Hch Hret Hargs Hrs HQ; [lia|]. cbn [parseexec_args].
  apply ensures_bind, ensures_peek; [done|]. intros b pos1 H1 _. destruct b; [by apply (HQ args ret rs)|].
  apply ensures_bind, ensures_gettoken; [lia|]. intros r q e pos2 H2 H3 Hr Hw _.
  destruct (Z.eqb_spec r 0) as [->|Hr0]; [apply (HQ args ret rs); (done || lia)|]. specialize (Hr Hr0).
  destruct (Z.eqb_spec r tok_word) as [->|]; [|done]. cbn [negb]. specialize (Hw eq_refl). pose proof Hargs as [Hws Hlt].
  apply ensures_bind. eapply ensures_eq; [by apply set_arg_run|]. destruct (decide _) as [|Hmax]; [done|].
  apply ensures_bind, ensures_redirs; [lia|by rewrite length_insert|].
  intros p h' pos' rs' Hp H4 Hch' Hrs' Hlt'.
  replace (S (length args)) with (length (args ++ [(q, e)])) in * by (rewrite length_app; cbn; lia).
  apply (IH _ _ _ (rs' ++ rs) h0); [lia|lia| |done| | |done| |by apply Forall_app|].
  - etrans; [by apply prefix_insert|done].
  - eapply prefix_lookup_Some; [|exact Hp]. apply list_lookup_insert_eq. by eapply lookup_lt_Some.
  - eapply chain_app; [exact Hch'|]. eapply chain_prefix; [|exact Hp]. by eapply chain_set.
  - split; [|unfold MAXARGS in *; lia]. apply Forall_app. split; [done|]. constructor; [done|constructor].
  - intros args' ret' rs2 h2 pos2' H5. apply HQ. lia.
Qed.

Lemma ensures_backs n : forall cmd t h pos (Q : nat -> sh -> Prop),
  (pos <= es)%nat -> (es - pos < n)%nat -> reads h cmd t -> tree_ok t ->
  (forall p t' h' pos', (pos <= pos' <= es)%nat -> h `prefix_of` h' -> reads h' p t' -> tree_ok t' -> Q p (mkSh h' pos')) ->
  ensures (parse_backs line n cmd) Q (mkSh h pos).
Proof.
  induction n as [|n IH]; intros cmd t h pos Q Hpos Hn Hr Ht HQ; [lia|]. cbn [parse_backs].
  apply ensures_bind, ensures_peek; [done|]. intros b pos1 H1 Hb. destruct b; [|by apply (HQ cmd t)].
  destruct Hb as [Hlt (c & Hc & Hs & Hc0)]; [done|].
  apply ensures_bind, ensures_gettoken; [lia|]. intros r q e pos2 H2 H3 Hr1 _ Hr0. specialize (Hr1 (Hr0 c Hc Hs Hc0)).
  apply ensures_bind, ensures_new. apply (IH _ (TBack t)); [lia|lia| |done|].
  - econstructor; [by rewrite lookup_app_r, Nat.sub_diag by lia|by eapply reads_lt|]. eapply reads_prefix; [done|by apply prefix_app_r].
  - intros p t' h' pos' H4 Hp. apply HQ; [lia|]. by etrans; [apply prefix_app_r|].
Qed.

(** *** The grammar *)

(** What a parsing function leaves behind. *)
Definition parsed (h : list node) (pos : nat) (p : nat) (s : sh) : Prop :=
  (pos <= sh_pos s <= es)%nat /\ h `prefix_of` sh_heap s /\ exists t, reads (sh_heap s) p t /\ tree_ok t.

(** A symbol that was seen by [peek] is passed. *)
Lemma ensures_pass {A} (f : P A) Q h pos c : (pos < es)%nat -> line !! pos = Some c -> is_space c = false -> c ≠ 0 ->
  (forall pos', (pos < pos' <= es)%nat -> ensures f Q (mkSh h pos')) -> ensures (let! unused := gettoken line in f) Q (mkSh h pos).
Proof.
  intros Hlt Hc Hs Hc0 HQ. apply ensures_bind, ensures_gettoken; [lia|]. intros r q e pos2 H2 H3 Hr _ Hr0. specialize (Hr (Hr0 c Hc Hs Hc0)).
  apply HQ. lia.
Qed.

(** Two commands parsed one after the other are joined by a new cell. *)
Lemma parsed_pair h h1 pos pos1 p s r (node_of : nat -> nat -> node) (tree_of : tree -> tree -> tree) t :
  (forall h p l r tl tr, h !! p = Some (node_of l r) -> (l < p)%nat -> (r < p)%nat -> reads h l tl -> reads h r tr -> reads h p (tree_of tl tr)) ->
  (forall tl tr, tree_ok tl -> tree_ok tr -> tree_ok (tree_of tl tr)) ->
  h `prefix_of` h1 -> reads h1 p t -> tree_ok t -> (pos <= pos1)%nat -> parsed h1 pos1 r s ->
  parsed h pos (length (sh_heap s)) (mkSh (sh_heap s ++ [node_of p r]) (sh_pos s)).
Proof.
  intros Hreads Hok Hp Hr Ht Hpos (H1 & H2 & t2 & Hr2 & Ht2). split; [cbn; lia|]. cbn [sh_heap sh_pos]. split.
  - etrans; [exact Hp|]. etrans; [exact H2|]. by apply prefix_app_r.
  - exists (tree_of t t2). split; [|by apply Hok]. pose proof (reads_prefix _ _ _ _ Hr H2) as Hr'. eapply Hreads.
    + by rewrite lookup_app_r, Nat.sub_diag by lia.
    + by eapply reads_lt.
    + by eapply reads_lt.
    + eapply reads_prefix; [exact Hr'|by apply prefix_app_r].
    + eapply reads_prefix; [exact Hr2|by apply prefix_app_r].
Qed.

Lemma parsed_weaken h h1 pos pos1 p s : h `prefix_of` h1 -> (pos <= pos1)%nat -> parsed h1 pos1 p s -> parsed h pos p s.
Proof. intros Hp Hpos (H1 & H2 & H3). split; [lia|]. split; [by etrans|done]. Qed.

Lemma parse_total fuel : forall h pos, (pos <= es)%nat ->
  ((4 * (es - pos) + 4 <= fuel)%nat -> ensures (parseline line fuel) (parsed h pos) (mkSh h pos)) /\
  ((4 * (es - pos) + 3 <= fuel)%nat -> ensures (parsepipe line fuel) (parsed h pos) (mkSh h pos)) /\
  ((4 * (es - pos) + 2 <= fuel)%nat -> ensures (parseexec line fuel) (parsed h pos) (mkSh h pos)) /\
  ((4 * (es - pos) + 1 <= fuel)%nat -> ensures (parseblock line fuel) (parsed h pos) (mkSh h pos)).
Proof.
  induction fuel as [|fuel IH]; intros h pos Hpos; [lia|]. split_and!; intros Hf.
  - cbn [parseline]. apply ensures_bind. eapply ensures_mono; [apply (IH h pos Hpos); lia|].
    intros p [h1 pos1] (H1 & H2 & t & Hr & Ht). cbn [sh_heap sh_pos] in *.
    apply ensures_bind, (ensures_backs _ _ t); [lia|lia|done|done|]. intros p' t' h2 pos2 H3 H4 Hr' Ht'.
    apply ensures_bind, ensures_peek; [lia|]. intros b pos3 H5 Hb. destruct b.
    + destruct Hb as [Hlt (c & Hc & Hs & Hc0)]; [done|]. eapply ensures_pass; [done..|]. intros pos4 H6.
      apply ensures_bind. eapply ensures_mono; [apply (IH h2 pos4); lia|]. intros r s Hs'.
      apply (parsed_pair h h2 pos pos4 p' s r LIST TList t'); try done; [by econstructor|by etrans|lia].
    + split; [cbn; lia|]. split; [by etrans|]. by exists t'.
  - cbn [parsepipe]. apply ensures_bind. eapply ensures_mono; [apply (IH h pos Hpos); lia|].
    intros p [h1 pos1] (H1 & H2 & t & Hr & Ht). cbn [sh_heap sh_pos] in *.
    apply ensures_bind, ensures_peek; [lia|]. intros b pos3 H5 Hb. destruct b.
    + destruct Hb as [Hlt (c & Hc & Hs & Hc0)]; [done|]. eapply ensures_pass; [done..|]. intros pos4 H6.
      apply ensures_bind. eapply ensures_mono; [apply (IH h1 pos4); lia|]. intros r s Hs'.
      apply (parsed_pair h h1 pos pos4 p s r PIPE TPipe t); try done; [by econstructor|lia].
    + split; [cbn; lia|]. split; [done|]. by exists t.
  - cbn [parseexec]. apply ensures_bind, ensures_peek; [done|]. intros b pos1 H1 _. destruct b.
    { eapply ensures_mono; [apply (IH h pos1); lia|]. intros p s. by apply parsed_weaken; [|lia]. }
    apply ensures_bind, ensures_new, ensures_bind, ensures_redirs; [lia|rewrite length_app; cbn; lia|].
    intros ret h1 pos2 rs H2 H3 Hch Hrs Hlt.
    assert (Hcell : h1 !! length h = Some (exec_cell [])).
    { eapply prefix_lookup_Some; [|exact H2]. by rewrite lookup_app_r, Nat.sub_diag by lia. }
    apply ensures_bind, (ensures_args _ _ [] _ rs h); [lia|lia| |done|done|done|done| |done|].
    { by etrans; [apply prefix_app_r|]. } { split; [constructor|unfold MAXARGS; cbn; lia]. }
    intros args ret' rs' h2 pos3 H4 H5 Hcell' Hch' Hargs Hrs'. apply ensures_bind. eapply ensures_eq; [apply end_args_run; [done|apply Hargs]|].
    split; [cbn; lia|]. split; [done|]. exists (wrap rs' (TExec args)). split; [|by apply wrap_ok].
    eapply chain_reads; [exact Hch'|]. constructor; [done|apply Hargs].
  - cbn [parseblock]. apply ensures_bind, ensures_peek; [done|]. intros b pos1 H1 Hb. destruct b; [|done]. cbn [negb].
    destruct Hb as [Hlt (c & Hc & Hs & Hc0)]; [done|]. eapply ensures_pass; [done..|]. intros pos2 H2.
    apply ensures_bind. eapply ensures_mono; [apply (IH h pos2); lia|]. intros p [h1 pos3] (H3 & H4 & t & Hr & Ht). cbn [sh_heap sh_pos] in *.
    apply ensures_bind, ensures_peek; [lia|]. intros b pos4 H5 Hb. destruct b; [|done]. cbn [negb].
    destruct Hb as [Hlt' (c' & Hc' & Hs' & Hc0')]; [done|]. eapply ensures_pass; [done..|]. intros pos5 H6.
    apply ensures_redirs; [lia|by eapply reads_lt|]. intros ret h2 pos6 rs H7 H8 Hch Hrs _.
    split; [cbn; lia|]. split; [by etrans|]. exists (wrap rs t). split; [|by apply wrap_ok].
    eapply chain_reads; [exact Hch|]. by eapply reads_prefix.
Qed.

(** *** NUL termination *)

(** The ends of the words of a tree. *)
Fixpoint ends (t : tree) : list nat :=
  match t with
  | TExec args => args.*2
  | TRedir c _ e _ _ => ends c ++ [e]
  | TPipe l r | TList l r => ends l ++ ends r
  | TBack c => ends c
  end.

Definition nulled (E : list nat) (buf : list Z) : list Z := foldl (fun b e => <[e := 0]> b) buf E.

Lemma length_nulled E : forall buf, length (nulled E buf) = length buf.
Proof. induction E as [|e E IH]; intros buf; [done|]. cbn [nulled foldl]. unfold nulled in IH. rewrite IH. apply length_insert. Qed.

Lemma nulled_app E E' buf : nulled (E ++ E') buf = nulled E' (nulled E buf).
Proof. apply foldl_app. Qed.

Lemma nulled_lookup E : forall buf i, (i < length buf)%nat -> nulled E buf !! i = if decide (i ∈ E) then Some 0 else buf !! i.
Proof.
  induction E as [|e E IH]; intros buf i Hi; [by rewrite decide_False by apply not_elem_of_nil|]. cbn [nulled foldl]. fold (nulled E (<[e := 0]> buf)).
  rewrite IH by (by rewrite length_insert). destruct (decide (i ∈ E)) as [Hin|Hni]; [by rewrite decide_True by (by right)|].
  destruct (decide (i = e)) as [->|Hne].
  - rewrite decide_True by left. by apply list_lookup_insert_eq.
  - rewrite decide_False by (by apply not_elem_of_cons). by apply list_lookup_insert_ne.
Qed.

Lemma put_nul_run e buf : (e < length buf)%nat -> put_nul e buf = Some (nulled [e] buf).
Proof. intros He. unfold put_nul. by rewrite decide_True. Qed.

Lemma nul_args_run ps : forall es' n buf, (0 < n)%nat -> length ps = length es' -> Forall (fun e => e < length buf)%nat es' ->
  nul_args ((Some <$> ps) ++ replicate n None) ((Some <$> es') ++ replicate n None) buf = Some (nulled es' buf).
Proof.
  induction ps as [|p ps IH]; intros [|e es'] n buf Hn Hlen Hall; try done.
  - destruct n; [lia|done].
  - apply list.Forall_cons in Hall as [He Hall]. cbn [fmap list_fmap app nul_args]. rewrite put_nul_run by done. cbn [mbind option_bind].
    rewrite IH; [done|done|by injection Hlen|]. eapply Forall_impl; [exact Hall|]. intros x Hx. by rewrite length_nulled.
Qed.

Lemma word_end q e : word_at q e -> (e < length (line ++ [0]%Z))%nat.
Proof. intros [H _]. rewrite length_app. unfold Sh.es in H. cbn. lia. Qed.

Lemma nulterminate_run h p t : reads h p t -> tree_ok t -> forall fuel buf, (p < fuel)%nat -> length buf = length (line ++ [0]%Z) ->
  nulterminate fuel h p buf = Some (nulled (ends t) buf).
Proof.
  induction 1 as [p args Hp Hlt|p c t f e m fd Hp Hc _ IH|p l r tl tr Hp Hl Hr _ IHl _ IHr|p l r tl tr Hp Hl Hr _ IHl _ IHr|p c t Hp Hc _ IH];
    intros Hok [|fuel] buf Hf Hlen; try lia; cbn [nulterminate]; rewrite Hp; cbn [mbind option_bind]; cbn [tree_ok] in Hok.
  - destruct Hok as [Hws _]. unfold argv_of. rewrite !length_fmap. apply nul_args_run; [lia|cbn [ends]; by rewrite !length_fmap|]. cbn [ends].
    apply Forall_fmap. eapply Forall_impl; [exact Hws|]. intros [q e] Hw. rewrite Hlen. by eapply word_end.
  - destruct Hok as (Hok & Hw & _). rewrite IH by (done || lia). cbn [mbind option_bind ends].
    rewrite put_nul_run, nulled_app; [done|]. rewrite length_nulled, Hlen. by eapply word_end.
  - destruct Hok as [H1 H2]. rewrite IHl by (done || lia). cbn [mbind option_bind ends]. rewrite nulled_app. apply IHr; [done|lia|by rewrite length_nulled].
  - destruct Hok as [H1 H2]. rewrite IHl by (done || lia). cbn [mbind option_bind ends]. rewrite nulled_app. apply IHr; [done|lia|by rewrite length_nulled].
  - apply IH; (done || lia).
Qed.

End trees.

(** ** Commands as the shell runs them *)

(** The C string at [q]. *)
Fixpoint until_nul (l : list Z) : option (list Z) :=
  match l with [] => None | c :: l => if c =? 0 then Some [] else cons c <$> until_nul l end.
Definition cstring (buf : list Z) (q : nat) : option (list Z) := until_nul (drop q buf).

(** A command with its words. *)
Inductive command :=
| CExec (args : list (list Z))
| CRedir (c : command) (file : list Z) (mode fd : Z)
| CPipe (l r : command)
| CList (l r : command)
| CBack (c : command).

(** What the cells from [p] down show, reading their strings in the buffer; a cell points to earlier ones only. *)
Inductive shows (h : list node) (buf : list Z) : nat -> command -> Prop :=
| shows_exec p argv eargv qs rest args : h !! p = Some (EXEC argv eargv) -> argv = (Some <$> qs) ++ None :: rest ->
    Forall2 (fun q w => cstring buf q = Some w) qs args -> shows h buf p (CExec args)
| shows_redir p c f e m fd a w : h !! p = Some (REDIR c f e m fd) -> (c < p)%nat -> cstring buf f = Some w -> shows h buf c a -> shows h buf p (CRedir a w m fd)
| shows_pipe p l r a b : h !! p = Some (PIPE l r) -> (l < p)%nat -> (r < p)%nat -> shows h buf l a -> shows h buf r b -> shows h buf p (CPipe a b)
| shows_list p l r a b : h !! p = Some (LIST l r) -> (l < p)%nat -> (r < p)%nat -> shows h buf l a -> shows h buf r b -> shows h buf p (CList a b)
| shows_back p c a : h !! p = Some (BACK c) -> (c < p)%nat -> shows h buf c a -> shows h buf p (CBack a).

(** A word is not empty and has neither spaces, symbols nor NULs. *)
Definition word_ok (w : list Z) : Prop := w ≠ [] /\ Forall (fun c => is_word c = true /\ c ≠ 0) w.

Fixpoint command_ok (a : command) : Prop :=
  match a with
  | CExec args => Forall word_ok args /\ (length args < MAXARGS)%nat
  | CRedir c f m fd => command_ok c /\ word_ok f /\ redir_ok m fd
  | CPipe l r | CList l r => command_ok l /\ command_ok r
  | CBack c => command_ok c
  end.

Section words.
Context (line : list Z) (Hline : 0 ∉ line).

Definition sub (q e : nat) : list Z := take (e - q) (drop q line).

Fixpoint command_of (t : tree) : command :=
  match t with
  | TExec args => CExec ((fun x => sub x.1 x.2) <$> args)
  | TRedir c f e m fd => CRedir (command_of c) (sub f e) m fd
  | TPipe l r => CPipe (command_of l) (command_of r)
  | TList l r => CList (command_of l) (command_of r)
  | TBack c => CBack (command_of c)
  end.

Lemma sub_cons q e c : (q < e)%nat -> line !! q = Some c -> sub q e = c :: sub (S q) e.
Proof using Type.
  intros Hlt Hc. unfold sub. rewrite (drop_S line c q Hc). replace (e - q)%nat with (S (e - S q)) by lia. done.
Qed.

Lemma sub_word q e : word_at line q e -> word_ok (sub q e).
Proof using Hline.
  intros ((H1 & H2) & H3 & _). unfold es in H2. split.
  - destruct (lookup_lt_is_Some_2 line q ltac:(lia)) as [c Hc]. by rewrite (sub_cons q e c).
  - apply Forall_lookup. intros i c Hc. unfold sub in Hc. apply lookup_take_Some in Hc as [Hc Hi]. rewrite lookup_drop in Hc.
    split; [apply (H3 (q + i)%nat); [lia|done]|]. intros ->. apply Hline. by eapply list_elem_of_lookup_2.
Qed.

Lemma command_of_ok t : tree_ok line t -> command_ok (command_of t).
Proof using Hline.
  induction t; cbn; try naive_solver.
  - intros [H1 H2]. rewrite length_fmap. split; [|done]. apply Forall_fmap. eapply Forall_impl; [exact H1|]. intros [q e]. apply sub_word.
  - intros (H1 & H2 & H3). split_and!; [auto|by apply sub_word|done].
Qed.

(** Zeros at ends of words leave the words alone. *)
Lemma cstring_word E q e : word_at line q e -> e ∈ E -> (forall x, x ∈ E -> exists q', word_at line q' x) ->
  cstring (nulled E (line ++ [0])) q = Some (sub q e).
Proof using Hline.
  intros ((H1 & H2) & H3 & H4) HE Hall. unfold cstring. unfold es in H2.
  remember (e - q)%nat as n eqn:Hn. revert q H1 H3 Hn. induction n as [|n IH]; intros q H1 H3 Hn; [lia|].
  destruct (lookup_lt_is_Some_2 line q ltac:(lia)) as [c Hc].
  assert (Hq : nulled E (line ++ [0]) !! q = Some c).
  { rewrite nulled_lookup by (rewrite length_app; cbn; lia). rewrite lookup_app_l by lia. rewrite decide_False; [done|].
    intros Hin. destruct (Hall q Hin) as (q' & _ & _ & Hnw). specialize (Hnw c Hc). rewrite (H3 q c) in Hnw; [done|lia|done]. }
  rewrite (drop_S _ c q Hq). cbn [until_nul]. assert (c ≠ 0) by (intros ->; apply Hline; by eapply list_elem_of_lookup_2).
  rewrite (proj2 (Z.eqb_neq _ _)) by done. rewrite (sub_cons q e c) by done.
  destruct (decide (S q < e)%nat) as [Hlt|Hge].
  - rewrite IH; [done|lia|intros i d Hi; apply H3; lia|lia].
  - assert (e = S q) as -> by lia.
    assert (Hz : nulled E (line ++ [0]) !! S q = Some 0) by (rewrite nulled_lookup by (rewrite length_app; cbn; lia); by rewrite decide_True).
    rewrite (drop_S _ 0 (S q) Hz). cbn [until_nul]. unfold sub. by rewrite Nat.sub_diag.
Qed.

Lemma ends_words t : tree_ok line t -> forall x, x ∈ ends t -> exists q, word_at line q x.
Proof using Type.
  induction t; cbn [tree_ok ends].
  - intros [H _] x ([q e] & -> & Hin)%list_elem_of_fmap. exists q. rewrite Forall_forall in H. by apply (H (q, e)).
  - intros (H1 & H2 & _) x [Hx|Hx]%elem_of_app; [by apply IHt|]. apply list_elem_of_singleton in Hx as ->. by exists file.
  - intros (H1 & H2) x [Hx|Hx]%elem_of_app; auto.
  - intros (H1 & H2) x [Hx|Hx]%elem_of_app; auto.
  - auto.
Qed.

Lemma reads_shows h p t : reads h p t -> tree_ok line t -> forall E, (forall x, x ∈ ends t -> x ∈ E) -> (forall x, x ∈ E -> exists q, word_at line q x) ->
  shows h (nulled E (line ++ [0])) p (command_of t).
Proof using Hline.
  induction 1 as [p args Hp Hlt|p c t f e m fd Hp Hc _ IH|p l r tl tr Hp Hl Hr _ IHl _ IHr|p l r tl tr Hp Hl Hr _ IHl _ IHr|p c t Hp Hc _ IH];
    intros Hok E Hsub HE; cbn [tree_ok ends command_of] in *.
  - destruct Hok as [Hws _]. unfold argv_of in Hp. rewrite !length_fmap in Hp.
    eapply (shows_exec _ _ _ _ _ args.*1 (replicate (MAXARGS - length args - 1) None)); [exact Hp| |].
    + destruct (MAXARGS - length args)%nat eqn:Hm; [lia|]. cbn. by rewrite Nat.sub_0_r.
    + rewrite Forall2_fmap. apply Forall_Forall2_diag. apply Forall_forall. intros [q e] Hin. rewrite Forall_forall in Hws.
      apply cstring_word; [by apply (Hws (q, e))| |done]. apply Hsub. apply list_elem_of_fmap. by exists (q, e).
  - destruct Hok as (H1 & H2 & _). econstructor; [done|done| |].
    + apply cstring_word; [done|apply Hsub, elem_of_app; right; left|done].
    + apply IH; [done| |done]. intros x Hx. apply Hsub, elem_of_app. by left.
  - destruct Hok. econstructor; [done|done|done|apply IHl|apply IHr]; try done; intros x Hx; apply Hsub, elem_of_app; auto.
  - destruct Hok. econstructor; [done|done|done|apply IHl|apply IHr]; try done; intros x Hx; apply Hsub, elem_of_app; auto.
  - econstructor; [done|done|]. by apply IH.
Qed.

End words.

(** ** Printing *)

Inductive tok := Word (w : list Z) | Sym (c : Z).

Definition tok_text (t : tok) : list Z := match t with Word w => w | Sym c => [c] end.
Definition tok_code (t : tok) : Z := match t with Word _ => tok_word | Sym c => c end.
Definition tok_ok (t : tok) : Prop := match t with Word w => word_ok w | Sym c => c ∈ symbols end.

(** Every token is followed by a space. *)
Definition text (ts : list tok) : list Z := concat ((fun t => tok_text t ++ [32]) <$> ts).

(** The places of the grammar where a command can stand. *)
Inductive level := Lline | Lback | Lpipe | Lexec.

Definition paren (b : bool) (ts : list tok) : list tok := if b then Sym 40 :: ts ++ [Sym 41] else ts.

Fixpoint pr (l : level) (a : command) : list tok :=
  match a with
  | CExec args => Word <$> args
  | CRedir c f m _ => pr Lexec c ++ [Sym (if m =? O_RDONLY then LT else GT); Word f]
  | CPipe x y => paren (match l with Lexec => true | _ => false end) (pr Lexec x ++ Sym 124 :: pr Lpipe y)
  | CBack x => paren (match l with Lline | Lback => false | _ => true end) (pr Lback x ++ [Sym 38])
  | CList x y => paren (match l with Lline => false | _ => true end) (pr Lback x ++ Sym 59 :: pr Lline y)
  end.

Definition print (a : command) : list Z := text (pr Lline a).

Section roundtrip.
Context (line : list Z).
Abbreviation es := (es line).

Definition yields {A} (m : P A) (Q : A -> sh -> Prop) (s : sh) : Prop := match m s with Done a s => Q a s | _ => False end.

Lemma yields_bind {A B} (m : P A) (f : A -> P B) Q s : yields m (fun a s => yields (f a) Q s) s -> yields (andthen m f) Q s.
Proof. unfold yields, andthen. by destruct (m s). Qed.

Lemma yields_eq {A} (m : P A) (Q : A -> sh -> Prop) s a s' : m s = Done a s' -> Q a s' -> yields m Q s.
Proof. unfold yields. by intros ->. Qed.

Lemma yields_mono {A} (m : P A) (Q Q' : A -> sh -> Prop) s : yields m Q s -> (forall a s, Q a s -> Q' a s) -> yields m Q' s.
Proof. unfold yields. destruct (m s); auto. Qed.

(** The parser stands before the tokens [ts], which end the line. *)
Record before (pos : nat) (ts : list tok) : Prop := {
  bf_pos : (pos <= es)%nat;
  bf_text : drop pos line = text ts;
  bf_ok : Forall tok_ok ts;
}.

Lemma skip_over test w rest pos : (pos <= es)%nat -> drop pos line = w ++ rest -> Forall (fun c => test c = true) w ->
  (forall c r, rest = c :: r -> test c = false) -> skip line test pos = (pos + length w)%nat.
Proof.
  intros Hpos Hd Hw Hr. unfold skip. assert (Hlen : length (drop pos line) = (es - pos)%nat) by (apply length_drop).
  rewrite Hd, length_app in Hlen. remember (es - pos)%nat as n eqn:Hn. clear Hn Hpos. revert pos n Hd Hlen.
  induction Hw as [|c w Hc _ IH]; intros pos n Hd Hlen; cbn [length app] in *.
  - rewrite Nat.add_0_r. destruct n as [|n]; [done|]. cbn [skip_loop]. destruct rest as [|c r]; [done|].
    assert (line !! pos = Some c) as -> by (rewrite <- (Nat.add_0_r pos), <- lookup_drop, Hd; done). by rewrite (Hr c r eq_refl).
  - destruct n as [|n]; [lia|]. cbn [skip_loop].
    assert (line !! pos = Some c) as -> by (rewrite <- (Nat.add_0_r pos), <- lookup_drop, Hd; done). rewrite Hc.
    rewrite IH; [lia| |lia]. rewrite <- Nat.add_1_r, <- drop_drop, Hd. done.
Qed.

Lemma tok_first t : tok_ok t -> exists c r, tok_text t = c :: r /\ is_space c = false /\ c ≠ 0.
Proof.
  destruct t as [w|c]; cbn [tok_ok tok_text].
  - intros [Hne Hall]. destruct w as [|c w]; [done|]. exists c, w. split; [done|]. apply list.Forall_cons in Hall as [[Hw Hc] _].
    split; [|done]. unfold is_word in Hw. by destruct (is_space c).
  - intros Hc. exists c, []. split; [done|]. unfold symbols in Hc. cbn in Hc.
    repeat (apply elem_of_cons in Hc as [->|Hc]; [done|]). by apply elem_of_nil in Hc.
Qed.

Lemma text_first ts c r : Forall tok_ok ts -> text ts = c :: r -> is_space c = false.
Proof.
  intros Hok Ht. destruct ts as [|t ts]; [done|]. apply list.Forall_cons in Hok as [(d & r' & Hd & Hs & _)%tok_first _].
  unfold text in Ht. cbn in Ht. rewrite Hd in Ht. by injection Ht as -> _.
Qed.

Lemma before_char pos t ts : before pos (t :: ts) -> exists c r, tok_text t = c :: r /\ is_space c = false /\ c ≠ 0 /\
  (pos < es)%nat /\ line !! pos = Some c.
Proof.
  intros [Hpos Hd Hok]. apply list.Forall_cons in Hok as [(c & r & Hc & Hs & Hc0)%tok_first _]. exists c, r.
  assert (Hl : line !! pos = Some c) by (rewrite <- (Nat.add_0_r pos), <- lookup_drop, Hd; unfold text; cbn; by rewrite Hc).
  split_and!; try done. by eapply lookup_lt_Some.
Qed.

Definition first_in (toks : string) (ts : list tok) : bool :=
  match ts with [] => false | t :: _ => has_char (str toks) (hd 0 (tok_text t)) end.

Lemma skip_here pos ts : before pos ts -> skip line is_space pos = pos.
Proof.
  intros [Hpos Hd Hok]. rewrite (skip_over is_space [] (text ts)); [cbn; lia|done|done|constructor|]. intros c r Hc. by eapply text_first.
Qed.

Lemma before_nil pos : before pos [] -> pos = es.
Proof. intros [Hpos Hd _]. apply (f_equal length) in Hd. rewrite length_drop in Hd. cbn in Hd. unfold Sh.es in *. lia. Qed.

Lemma text_length ts : (length ts <= length (text ts))%nat.
Proof. induction ts as [|t ts IH]; [done|]. unfold text. cbn [fmap list_fmap concat length]. fold (text ts). rewrite !length_app. cbn. lia. Qed.

Lemma before_length pos ts : before pos ts -> (length ts <= es - pos)%nat.
Proof. intros [_ Hd _]. pose proof (text_length ts) as Ht. rewrite <- Hd, length_drop in Ht. exact Ht. Qed.

Lemma before_le pos l pos' ts : before pos (l ++ ts) -> before pos' ts -> (pos <= pos')%nat.
Proof.
  intros [Hp Hd _] [Hp' Hd' _]. apply (f_equal length) in Hd, Hd'. rewrite length_drop in Hd, Hd'. unfold text in *.
  rewrite fmap_app, concat_app, length_app in Hd. unfold Sh.es in *. lia.
Qed.

Lemma yields_peek toks (Q : bool -> sh -> Prop) h pos ts : before pos ts -> Q (first_in toks ts) (mkSh h pos) -> yields (peek line toks) Q (mkSh h pos).
Proof.
  intros Hb HQ. unfold yields, peek. cbn [sh_pos sh_heap]. rewrite (skip_here pos ts Hb). destruct ts as [|t ts].
  - apply before_nil in Hb. subst pos. unfold char_at. by rewrite decide_True.
  - destruct (before_char _ _ _ Hb) as (c & r & Hc & _ & Hc0 & Hlt & Hl). unfold char_at. rewrite decide_False, Hl by lia.
    cbn [first_in] in HQ. rewrite Hc in HQ. cbn [hd] in HQ. by rewrite (proj2 (Z.eqb_neq _ _)).
Qed.

Lemma before_next pos t ts : before pos (t :: ts) -> before (pos + length (tok_text t) + 1) ts /\ (pos + length (tok_text t) < es)%nat.
Proof.
  intros [Hpos Hd Hok]. apply list.Forall_cons in Hok as [_ Hok]. unfold text in Hd. cbn [fmap list_fmap concat] in Hd. fold (text ts) in Hd.
  pose proof (f_equal length Hd) as Hlen. rewrite length_drop, !length_app in Hlen. cbn in Hlen. unfold Sh.es in *. split; [|lia].
  split; [unfold Sh.es; lia| |done]. rewrite <- Nat.add_assoc, <- drop_drop, Hd. by rewrite drop_app_length' by (rewrite length_app; cbn; lia).
Qed.

(** What a word of the tokens says in the line. *)
Lemma before_sub pos t ts : before pos (t :: ts) -> sub line pos (pos + length (tok_text t)) = tok_text t.
Proof.
  intros [_ Hd _]. unfold text in Hd. cbn [fmap list_fmap concat] in Hd. unfold sub. rewrite Hd, <- app_assoc.
  replace (pos + length (tok_text t) - pos)%nat with (length (tok_text t)) by lia. by rewrite take_app_length.
Qed.

Lemma before_word pos w ts : before pos (Word w :: ts) -> word_at line pos (pos + length w).
Proof.
  intros Hb. pose proof (before_next _ _ _ Hb) as [_ Hlt]. pose proof Hb as [Hpos Hd Hok]. cbn [tok_text] in Hlt.
  apply list.Forall_cons in Hok as [[Hne Hw] _]. unfold text in Hd. cbn [fmap list_fmap concat tok_text] in Hd. rewrite <- app_assoc in Hd.
  split_and!; [destruct w; [done|cbn; lia]|lia| |].
  - intros i c Hi Hc. replace i with (pos + (i - pos))%nat in Hc by lia. rewrite <- lookup_drop, Hd, lookup_app_l in Hc by lia.
    rewrite Forall_lookup in Hw. by apply (Hw (i - pos)%nat).
  - intros c Hc. rewrite <- lookup_drop, Hd, lookup_app_r, Nat.sub_diag in Hc by lia. by injection Hc as <-.
Qed.

Lemma yields_gettoken (Q : Z * nat * nat -> sh -> Prop) h pos t ts : before pos (t :: ts) ->
  Q (tok_code t, pos, (pos + length (tok_text t))%nat) (mkSh h (pos + length (tok_text t) + 1)) -> yields (gettoken line) Q (mkSh h pos).
Proof.
  intros Hb HQ. pose proof (before_next _ _ _ Hb) as [Hb' Hlt]. pose proof (before_char _ _ _ Hb) as (c & r & Hc & Hs & Hc0 & Hlt' & Hl).
  assert (Hend : drop (pos + length (tok_text t)) line = [32] ++ text ts).
  { rewrite <- drop_drop, (bf_text _ _ Hb). unfold text. cbn [fmap list_fmap concat]. by rewrite <- app_assoc, drop_app_length. }
  assert (Hskip : skip line is_space (pos + length (tok_text t)) = (pos + length (tok_text t) + 1)%nat).
  { rewrite (skip_over is_space [32] (text ts)); [done|lia|done|by repeat constructor|]. intros d r' Hd. eapply text_first; [|exact Hd]. apply Hb'. }
  unfold yields, gettoken, token. cbn [sh_pos sh_heap]. rewrite (skip_here pos _ Hb).
  assert (char_at line pos = Some c) as -> by (unfold char_at; rewrite decide_False by lia; done).
  cbn [mbind option_bind]. rewrite (proj2 (Z.eqb_neq _ _)) by done. pose proof (bf_ok _ _ Hb) as [Hok _]%list.Forall_cons.
  destruct t as [w|s]; cbn [tok_text tok_code tok_ok] in *.
  - subst w. destruct Hok as [_ Hw]. pose proof Hw as [[Hcw _] _]%list.Forall_cons.
    assert (Hsym : is_symbol c = false) by (unfold is_word in Hcw; by destruct (is_symbol c); rewrite ?andb_false_r in Hcw).
    assert (Hns : has_char (str "|();&<") c = false /\ c ≠ GT).
    { split; [apply not_true_is_false; intros Hh; apply not_true_iff_false in Hsym; apply Hsym|intros ->; by apply not_true_iff_false in Hsym].
      unfold is_symbol. apply has_char_in. apply has_char_in in Hh. unfold symbols. cbn in *. rewrite !elem_of_cons in *. tauto. }
    rewrite (proj1 Hns), (proj2 (Z.eqb_neq _ _) (proj2 Hns)). cbn [mbind option_bind].
    rewrite (skip_over is_word (c :: r) ([32] ++ text ts)); [by rewrite Hskip|lia| | |by intros d r' [= <- _]].
    + rewrite (bf_text _ _ Hb). unfold text. cbn [fmap list_fmap concat tok_text]. by rewrite <- app_assoc.
    + eapply Forall_impl; [exact Hw|]. by intros ? [].
  - injection Hc as -> _. cbn [length] in *. rewrite Nat.add_1_r in Hskip, Hend, HQ.
    destruct (has_char (str "|();&<") c) eqn:Hh; cbn [mbind option_bind]; [by rewrite Hskip|].
    assert (c = GT) as -> by (destruct (symbol_split c) as [|]; [by apply has_char_in|congruence|done]). rewrite Z.eqb_refl.
    unfold char_at. rewrite decide_False by lia. assert (line !! S pos = Some 32) as -> by (rewrite <- (Nat.add_0_r (S pos)), <- lookup_drop, Hend; done).
    cbn [mbind option_bind]. change (32 =? GT) with false. cbn [mbind option_bind]. by rewrite Hskip.
Qed.

Lemma yields_gettoken_end (Q : Z * nat * nat -> sh -> Prop) h pos : before pos [] -> Q (0, pos, pos) (mkSh h pos) -> yields (gettoken line) Q (mkSh h pos).
Proof.
  intros Hb HQ. unfold yields, gettoken, token. cbn [sh_pos sh_heap]. rewrite (skip_here pos _ Hb).
  assert (char_at line pos = Some 0) as -> by (unfold char_at; by rewrite (before_nil _ Hb), decide_True). cbn [mbind option_bind Z.eqb].
  by rewrite (skip_here pos _ Hb).
Qed.

(** The tokens that can follow a command at each place. *)
Definition stop (cs : list Z) (ts : list tok) : Prop := ts = [] \/ exists c ts', ts = Sym c :: ts' /\ c ∈ cs.

Lemma stop_first cs toks ts : stop cs ts -> forallb (fun c => negb (has_char (str toks) c)) cs = true -> first_in toks ts = false.
Proof.
  intros [->|(c & ts' & -> & Hc)] Hall; [done|]. rewrite forallb_forall in Hall. cbn. apply negb_true_iff, Hall. by apply list_elem_of_In.
Qed.

Lemma stop_weaken cs cs' ts : stop cs ts -> (forall c, c ∈ cs -> c ∈ cs') -> stop cs' ts.
Proof. intros [->|(c & ts' & -> & Hc)] Hsub; [by left|]. right. eauto. Qed.

(** Redirections around a command, the innermost first. *)
Definition credir : Type := list Z * Z * Z.
Definition cwrap (b : command) (crs : list credir) : command := foldl (fun c '(f, m, fd) => CRedir c f m fd) b crs.
Definition pr_redirs (crs : list credir) : list tok :=
  concat ((fun '(f, m, fd) => [Sym (if m =? O_RDONLY then LT else GT); Word f]) <$> crs).
Definition crs_ok (crs : list credir) : Prop := Forall (fun '(f, m, fd) => word_ok f /\ redir_ok m fd) crs.

Lemma cwrap_pr crs : forall b, pr Lexec (cwrap b crs) = pr Lexec b ++ pr_redirs crs.
Proof. induction crs as [|[[f m] fd] crs IH]; intros b; cbn; [by rewrite app_nil_r|]. rewrite IH. cbn. by rewrite <- app_assoc. Qed.

Definition is_redir (a : command) : bool := match a with CRedir _ _ _ _ => true | _ => false end.

Lemma unwrap a : command_ok a -> exists b crs, a = cwrap b crs /\ is_redir b = false /\ command_ok b /\ crs_ok crs.
Proof.
  induction a as [args|c IH f m fd|l _ r _|l _ r _|c _]; intros Hok; try (by eexists _, []; split_and!; [done|done|done|constructor]).
  destruct Hok as (Hc & Hf & Hr). destruct (IH Hc) as (b & crs & -> & Hb & Hok & Hcrs). exists b, (crs ++ [(f, m, fd)]).
  split_and!; [unfold cwrap; by rewrite foldl_app|done|done|]. apply Forall_app. split; [done|]. constructor; [done|constructor].
Qed.

(** The result of a loop over redirections. *)
Definition wrapped (h : list node) (cmd : nat) (crs : list credir) (ts : list tok) (p : nat) (s : sh) : Prop :=
  h `prefix_of` sh_heap s /\ before (sh_pos s) ts /\ (p < length (sh_heap s))%nat /\
  exists rs, chain (sh_heap s) p cmd rs /\ rs_ok line rs /\ forall t, command_of line (wrap rs t) = cwrap (command_of line t) crs.

Lemma yields_redirs_loop ts n : forall crs cmd h pos, (length crs < n)%nat -> (cmd < length h)%nat -> crs_ok crs ->
  before pos (pr_redirs crs ++ ts) -> first_in "<>" ts = false ->
  yields (parseredirs_loop line n cmd) (wrapped h cmd crs ts) (mkSh h pos).
Proof.
  induction n as [|n IH]; intros crs cmd h pos Hn Hcmd Hok Hb Hts; [lia|]. cbn [parseredirs_loop].
  apply yields_bind. eapply yields_peek; [exact Hb|]. destruct crs as [|[[f m] fd] crs].
  { cbn [pr_redirs fmap list_fmap concat app] in *. rewrite Hts. split_and!; [done|done|done|]. exists []. split_and!; [done|constructor|done]. }
  apply list.Forall_cons in Hok as [[Hf Hm] Hok]. cbn [pr_redirs fmap list_fmap concat app] in Hb. fold (pr_redirs crs) in Hb.
  set (c := if m =? O_RDONLY then LT else GT) in *. assert (Hc : has_char (str "<>") c = true) by (unfold c; by destruct (m =? O_RDONLY)).
  cbn [first_in tok_text hd app pr_redirs fmap list_fmap concat]. fold c. rewrite Hc.
  apply yields_bind. eapply yields_gettoken; [exact Hb|]. pose proof (before_next _ _ _ Hb) as [Hb1 _].
  apply yields_bind. eapply yields_gettoken; [exact Hb1|]. pose proof (before_next _ _ _ Hb1) as [Hb2 _].
  pose proof (before_word _ _ _ Hb1) as Hw. pose proof (before_sub _ _ _ Hb1) as Hsub. cbn [tok_code tok_text] in *. rewrite Z.eqb_refl. cbn [negb].
  set (q := (pos + length [c] + 1)%nat) in *. set (e := (q + length f)%nat) in *.
  assert (Hgo : yields (let! x := redircmd cmd q e m fd in parseredirs_loop line n x) (wrapped h cmd ((f, m, fd) :: crs) ts) (mkSh h (e + 1))).
  { apply yields_bind. unfold yields at 1. cbn [redircmd new_cmd sh_heap sh_pos]. eapply yields_mono; [apply (IH crs); try done|].
    - cbn in Hn. lia.
    - rewrite length_app. cbn. lia.
    - intros p [h' pos'] (H1 & H2 & H3 & rs & Hch & Hrs & Hwr). cbn [sh_heap sh_pos] in *. split_and!; [by etrans; [apply prefix_app_r|]|done|done|].
      exists (rs ++ [mkRedir q e m fd]). split_and!.
      + eapply chain_app; [exact Hch|]. exists cmd. cbn [r_file r_efile r_mode r_fd]. split_and!; [|done|done].
        eapply prefix_lookup_Some; [|exact H1]. by rewrite lookup_app_r, Nat.sub_diag by lia.
      + apply Forall_app. split; [done|]. constructor; [done|constructor].
      + intros t. unfold wrap. rewrite foldr_app. fold (wrap rs (foldr (fun r t => TRedir t (r_file r) (r_efile r) (r_mode r) (r_fd r)) t [mkRedir q e m fd])).
        rewrite Hwr. cbn [foldr command_of r_file r_efile r_mode r_fd]. by rewrite Hsub. }
  destruct Hm as [[-> ->]|[-> ->]]; exact Hgo.
Qed.

Lemma redirs_length crs pos ts : before pos (pr_redirs crs ++ ts) -> (length crs <= es - pos)%nat.
Proof.
  intros Hb%before_length. rewrite length_app in Hb. enough (length crs <= length (pr_redirs crs))%nat by lia. clear.
  induction crs as [|[[f m] fd] crs IH]; cbn; [lia|]. unfold pr_redirs in IH. cbn in IH. lia.
Qed.

Lemma yields_redirs ts crs cmd h pos : (cmd < length h)%nat -> crs_ok crs -> before pos (pr_redirs crs ++ ts) -> first_in "<>" ts = false ->
  yields (parseredirs line cmd) (wrapped h cmd crs ts) (mkSh h pos).
Proof. intros Hcmd Hok Hb Hts. pose proof (redirs_length _ _ _ Hb). apply yields_redirs_loop; try done. lia. Qed.


(** The words of a simple command, and the redirections behind the last of them. *)
Definition args_text (ws : list (list Z)) (crs : list credir) : list tok :=
  (Word <$> ws) ++ (match ws with [] => [] | _ => pr_redirs crs end).

Definition filled (h0 : list node) (cmd : nat) (ws : list (list Z)) (crs : list credir) (ts : list tok) (r : nat * nat) (s : sh) : Prop :=
  h0 `prefix_of` sh_heap s /\ before (sh_pos s) ts /\ exists args rs,
    r.1 = length args /\ sh_heap s !! cmd = Some (exec_cell args) /\ chain (sh_heap s) r.2 cmd rs /\
    tree_ok line (TExec args) /\ rs_ok line rs /\ (fun x => sub line x.1 x.2) <$> args = ws /\
    forall t, command_of line (wrap rs t) = cwrap (command_of line t) crs.

Lemma words_length ws crs pos ts : before pos (args_text ws crs ++ ts) -> (length ws <= es - pos)%nat.
Proof. intros Hb%before_length. unfold args_text in Hb. rewrite !length_app, length_fmap in Hb. lia. Qed.

Lemma word_first w toks : word_ok w -> forallb is_symbol (str toks) = true -> has_char (str toks) (hd 0 w) = false.
Proof.
  intros [Hne Hw] Hsym. destruct w as [|c w]; [done|]. cbn [hd]. apply list.Forall_cons in Hw as [[Hcw _] _].
  apply not_true_is_false. intros Hh%has_char_in. rewrite forallb_forall in Hsym. unfold is_word in Hcw.
  rewrite Hsym in Hcw by (by apply list_elem_of_In). by rewrite andb_false_r in Hcw.
Qed.

Lemma yields_args ts n : forall ws args crs0 rs0 cmd ret crs h0 h pos,
  (length ws < n)%nat -> h0 `prefix_of` h -> (length h0 <= cmd)%nat -> h !! cmd = Some (exec_cell args) ->
  chain h ret cmd rs0 -> (ret < length h)%nat -> rs_ok line rs0 -> (forall t, command_of line (wrap rs0 t) = cwrap (command_of line t) crs0) ->
  (crs0 = [] \/ ws = []) -> tree_ok line (TExec args) -> (length args + length ws < MAXARGS)%nat -> crs_ok crs ->
  before pos (args_text ws crs ++ ts) -> stop [41; 38; 59; 124] ts ->
  yields (parseexec_args line n cmd (length args) ret)
    (filled h0 cmd (((fun x => sub line x.1 x.2) <$> args) ++ ws) (crs0 ++ match ws with [] => [] | _ => crs end) ts) (mkSh h pos).
Proof.
  induction n as [|n IH]; intros ws args crs0 rs0 cmd ret crs h0 h pos Hn H0 Hcmd Hc Hch Hret Hrs0 Hwr Hor Hargs Hlen Hok Hb Hts; [lia|].
  cbn [parseexec_args]. destruct ws as [|w ws].
  - assert (Hend : forall p', before p' ts -> filled h0 cmd (((fun x => sub line x.1 x.2) <$> args) ++ []) (crs0 ++ []) ts (length args, ret) (mkSh h p')).
    { intros p' Hb'. split_and!; [done|done|]. exists args, rs0. rewrite !app_nil_r. split_and!; try done. }
    cbn [args_text fmap list_fmap app] in Hb. apply yields_bind. eapply yields_peek; [exact Hb|]. destruct Hts as [->|(c & ts' & -> & Hts)].
    + cbn [first_in]. apply yields_bind, yields_gettoken_end; [done|]. cbn. by apply Hend.
    + assert (first_in "|)&;" (Sym c :: ts') = true) as ->.
      { cbn [first_in tok_text hd]. apply has_char_in. cbn. rewrite !elem_of_cons in Hts |- *. tauto. }
      by apply Hend.
  - destruct Hor as [->|]; [|done]. cbn [args_text fmap list_fmap app] in Hb. apply yields_bind. eapply yields_peek; [exact Hb|].
    assert (first_in "|)&;" (Word w :: (Word <$> ws) ++ pr_redirs crs ++ ts) = false) as Hf.
    { pose proof (bf_ok _ _ Hb) as [Hw _]%list.Forall_cons. by apply (word_first w). }
    rewrite <- app_assoc, Hf. rewrite <- app_assoc in Hb. clear Hf.
    apply yields_bind. eapply yields_gettoken; [exact Hb|]. pose proof (before_next _ _ _ Hb) as [Hb1 _].
    pose proof (before_word _ _ _ Hb) as Hw. pose proof (before_sub _ _ _ Hb) as Hsub. cbn [tok_code tok_text] in *.
    set (e := (pos + length w)%nat) in *. rewrite Z.eqb_refl. cbn [negb]. change (tok_word =? 0) with false.
    pose proof Hargs as [Hws Hlt]. cbn [length] in Hlen. apply yields_bind.
    eapply yields_eq; [by apply set_arg_run|]. rewrite decide_False by lia.
    replace (S (length args)) with (length (args ++ [(pos, e)])) by (rewrite length_app; cbn; lia).
    assert (Hargs' : tree_ok line (TExec (args ++ [(pos, e)]))).
    { split; [apply Forall_app; split; [done|]; constructor; [done|constructor]|rewrite length_app; cbn; lia]. }
    assert (Hsubs : ((fun x => sub line x.1 x.2) <$> args) ++ w :: ws = ((fun x => sub line x.1 x.2) <$> args ++ [(pos, e)]) ++ ws).
    { rewrite fmap_app, <- app_assoc. cbn [fmap list_fmap fst snd app]. by rewrite Hsub. }
    set (crs1 := match ws with [] => crs | _ => [] end). set (ts1 := args_text ws crs ++ ts).
    assert (Hb1' : before (e + 1) (pr_redirs crs1 ++ ts1)).
    { unfold ts1, crs1, args_text. destruct ws; [exact Hb1|]. by rewrite <- app_assoc. }
    apply yields_bind. eapply yields_mono; [apply (yields_redirs ts1 crs1); [by rewrite length_insert|by unfold crs1; destruct ws; [|constructor]|exact Hb1'|]|].
    + unfold ts1, args_text. destruct ws as [|w' ws']; [by eapply stop_first|]. cbn [fmap list_fmap app first_in tok_text].
      pose proof (bf_ok _ _ Hb1) as [Hw' _]%list.Forall_cons. by apply (word_first w').
    + intros p [h' pos'] (H1 & H2 & H3 & rs & Hch' & Hrs & Hwr'). cbn [sh_heap sh_pos] in *. cbn [app]. rewrite Hsubs.
      assert (Hcrs : crs = ([] ++ crs1) ++ match ws with [] => [] | _ => crs end) by (unfold crs1; destruct ws; by rewrite ?app_nil_r).
      rewrite Hcrs. apply (IH ws (args ++ [(pos, e)]) ([] ++ crs1) (rs ++ rs0)); try done.
      * cbn in Hn. lia.
      * etrans; [by apply prefix_insert|done].
      * eapply prefix_lookup_Some; [|exact H1]. apply list_lookup_insert_eq. by eapply lookup_lt_Some.
      * eapply chain_app; [exact Hch'|]. eapply chain_prefix; [|exact H1]. by eapply chain_set.
      * by apply Forall_app.
      * intros t. unfold wrap. rewrite foldr_app. fold (wrap rs0 t). fold (wrap rs (wrap rs0 t)). rewrite Hwr', Hwr. done.
      * unfold crs1. destruct ws; [by right|by left].
      * rewrite length_app. cbn. lia.
Qed.

(** What a parsing function leaves when it stood before the text of the command [a]. *)
Definition built (h : list node) (ts : list tok) (a : command) (p : nat) (s : sh) : Prop :=
  h `prefix_of` sh_heap s /\ before (sh_pos s) ts /\
  exists t, reads (sh_heap s) p t /\ tree_ok line t /\ command_of line t = a.

(** Passing a symbol. *)
Lemma yields_pass {A} (f : P A) Q h pos c ts : before pos (Sym c :: ts) -> (forall pos', before pos' ts -> (pos < pos')%nat -> yields f Q (mkSh h pos')) ->
  yields (let! unused := gettoken line in f) Q (mkSh h pos).
Proof.
  intros Hb HQ. pose proof (before_next _ _ _ Hb) as [Hb1 _]. cbn [tok_text length] in Hb1. apply yields_bind. eapply yields_gettoken; [exact Hb|]. cbn [tok_text length].
  apply HQ; [done|lia].
Qed.

Lemma built_pair h h1 p t r s (node_of : nat -> nat -> node) (tree_of : tree -> tree -> tree) (cmd_of : command -> command -> command) a b ts :
  (forall h p l r tl tr, h !! p = Some (node_of l r) -> (l < p)%nat -> (r < p)%nat -> reads h l tl -> reads h r tr -> reads h p (tree_of tl tr)) ->
  (forall tl tr, tree_ok line tl -> tree_ok line tr -> tree_ok line (tree_of tl tr)) ->
  (forall tl tr, command_of line (tree_of tl tr) = cmd_of (command_of line tl) (command_of line tr)) ->
  h `prefix_of` h1 -> reads h1 p t -> tree_ok line t -> command_of line t = a -> built h1 ts b r s ->
  built h ts (cmd_of a b) (length (sh_heap s)) (mkSh (sh_heap s ++ [node_of p r]) (sh_pos s)).
Proof.
  intros Hreads Hok Hcmd Hp Hr Ht Ha (H1 & H2 & t2 & Hr2 & Ht2 & Hb). split_and!; cbn [sh_heap sh_pos]; [|done|].
  - etrans; [exact Hp|]. etrans; [exact H1|]. by apply prefix_app_r.
  - exists (tree_of t t2). pose proof (reads_prefix _ _ _ _ Hr H1) as Hr'. split_and!; [|by apply Hok|by rewrite Hcmd, Ha, Hb]. eapply Hreads.
    + by rewrite lookup_app_r, Nat.sub_diag by lia.
    + by eapply reads_lt.
    + by eapply reads_lt.
    + eapply reads_prefix; [exact Hr'|by apply prefix_app_r].
    + eapply reads_prefix; [exact Hr2|by apply prefix_app_r].
Qed.

(** Commands in the background, [k] times. *)
Definition backs (k : nat) (b : command) : command := Nat.iter k CBack b.
Definition is_back (a : command) : bool := match a with CBack _ => true | _ => false end.

Lemma unback a : exists b k, a = backs k b /\ is_back b = false /\ (command_ok a -> command_ok b) /\ pr Lback a = pr Lpipe b ++ replicate k (Sym 38).
Proof.
  induction a as [args|c IH f m fd|l _ r _|l _ r _|c (b & k & -> & Hb & Hok & Hpr)];
    try (eexists _, 0%nat; split_and!; [done|done|done|cbn; by rewrite app_nil_r]).
  exists b, (S k). split_and!; [done|done|done|]. cbn [backs Nat.iter pr paren]. fold (backs k b). rewrite Hpr, <- app_assoc. f_equal.
  change [Sym 38] with (replicate 1 (Sym 38)). rewrite <- replicate_add. by rewrite Nat.add_comm.
Qed.

Lemma yields_backs ts n : forall k a t cmd h0 h pos, (k < n)%nat -> h0 `prefix_of` h -> reads h cmd t -> tree_ok line t -> command_of line t = a ->
  before pos (replicate k (Sym 38) ++ ts) -> first_in "&" ts = false ->
  yields (parse_backs line n cmd) (built h0 ts (backs k a)) (mkSh h pos).
Proof.
  induction n as [|n IH]; intros k a t cmd h0 h pos Hn H0 Hr Ht Ha Hb Hts; [lia|]. cbn [parse_backs].
  apply yields_bind. eapply yields_peek; [exact Hb|]. destruct k as [|k].
  - cbn [replicate app] in *. rewrite Hts. split_and!; [done|done|]. by exists t.
  - cbn [replicate app] in *. change (first_in "&" (Sym 38 :: replicate k (Sym 38) ++ ts)) with true. cbn match. eapply yields_pass; [exact Hb|].
    intros pos1 Hb1 _. apply yields_bind. eapply yields_eq; [done|]. cbn [sh_heap sh_pos].
    replace (backs (S k) a) with (backs k (CBack a)) by (unfold backs; by rewrite Nat.iter_swap).
    apply (IH _ _ (TBack t)); try done; [lia|by etrans; [|apply prefix_app_r]| |by rewrite <- Ha].
    econstructor; [by rewrite lookup_app_r, Nat.sub_diag by lia|by eapply reads_lt|]. eapply reads_prefix; [done|by apply prefix_app_r].
Qed.

Lemma before_count k c pos ts : before pos (replicate k (Sym c) ++ ts) -> (k <= es - pos)%nat.
Proof. intros Hb%before_length. rewrite length_app, length_replicate in Hb. lia. Qed.

Definition is_list (a : command) : bool := match a with CList _ _ => true | _ => false end.
Definition is_pipe (a : command) : bool := match a with CPipe _ _ => true | _ => false end.

(** The first part of [parseline]. *)
Lemma yields_line_start fuel a ts h pos :
  (forall b ts, command_ok b -> before pos (pr Lpipe b ++ ts) -> stop [41; 38; 59] ts -> yields (parsepipe line fuel) (built h ts b) (mkSh h pos)) ->
  command_ok a -> before pos (pr Lback a ++ ts) -> stop [41; 59] ts ->
  yields (let! cmd := parsepipe line fuel in parse_backs line (S es) cmd) (built h ts a) (mkSh h pos).
Proof.
  intros IH Hok Hb Hts. destruct (unback a) as (b & k & -> & _ & Hok' & Hpr). rewrite Hpr, <- app_assoc in Hb.
  apply yields_bind. eapply yields_mono; [apply (IH b (replicate k (Sym 38) ++ ts)); [by apply Hok'|done|]|].
  - destruct k; [eapply stop_weaken; [exact Hts|set_solver]|]. right. eexists _, _. split; [done|]. set_solver.
  - intros p [h1 pos1] (H1 & H2 & t & Hr & Ht & Hc). cbn [sh_heap sh_pos] in *. pose proof (before_count _ _ _ _ H2) as Hk.
    eapply yields_backs; try done; [lia|by eapply stop_first].
Qed.

(** The text of a command at a place where it needs no parentheses is that of the place below. *)
Lemma pr_line_back a : is_list a = false -> pr Lline a = pr Lback a.
Proof. by destruct a. Qed.
Lemma pr_pipe_exec a : is_pipe a = false -> pr Lpipe a = pr Lexec a.
Proof. by destruct a. Qed.
Lemma pr_exec_block a : is_redir a = false -> (exists args, a = CExec args) \/ pr Lexec a = Sym 40 :: pr Lline a ++ [Sym 41].
Proof. destruct a; try done; [left; eauto|by right..]. Qed.

Lemma stop_redir_first cs crs toks ts : stop cs ts -> forallb (fun c => negb (has_char (str toks) c)) (LT :: GT :: cs) = true ->
  first_in toks (pr_redirs crs ++ ts) = false.
Proof.
  intros Hts Hall. cbn [forallb] in Hall. apply andb_prop in Hall as [H1 [H2 H3]%andb_prop]. destruct crs as [|[[f m] fd] crs]; [by eapply stop_first|].
  cbn [pr_redirs fmap list_fmap concat app first_in tok_text hd]. destruct (m =? O_RDONLY); by apply negb_true_iff.
Qed.

Lemma yields_exec_simple ws crs ts h pos : command_ok (CExec ws) -> crs_ok crs -> before pos (pr Lexec (cwrap (CExec ws) crs) ++ ts) -> stop [41; 38; 59; 124] ts ->
  yields (let! cmd := execcmd in
          let! ret := parseredirs line cmd in
          let! '(argc, ret) := parseexec_args line (S es) cmd 0 ret in
          let! unused := set_arg cmd argc None None in
          yield_ ret) (built h ts (cwrap (CExec ws) crs)) (mkSh h pos).
Proof.
  intros [Hws Hlen] Hcrs Hb Hts. rewrite cwrap_pr in Hb. cbn [pr] in Hb. apply yields_bind. eapply yields_eq; [done|]. cbn [sh_heap sh_pos].
  set (crs0 := match ws with [] => crs | _ => [] end). set (ts0 := args_text ws crs ++ ts).
  assert (Hb0 : before pos (pr_redirs crs0 ++ ts0)).
  { unfold crs0, ts0, args_text. destruct ws; [done|]. by rewrite <- app_assoc in Hb |- *. }
  apply yields_bind. eapply yields_mono; [apply (yields_redirs ts0 crs0); [rewrite length_app; cbn; lia|by unfold crs0; destruct ws; [|constructor]|exact Hb0|]|].
  { unfold ts0, args_text. destruct ws as [|w ws']; [by eapply stop_first|]. apply list.Forall_cons in Hws as [Hw _]. by apply (word_first w). }
  intros ret [h1 pos1] (H1 & H2 & H3 & rs & Hch & Hrs & Hwr). cbn [sh_heap sh_pos] in *.
  pose proof (words_length _ _ _ _ H2) as Hwl. change 0%nat with (length (A := nat * nat) []).
  apply yields_bind. eapply yields_mono; [apply (yields_args ts _ ws [] crs0 rs _ ret crs h); try done|].
  - lia.
  - by etrans; [apply prefix_app_r|].
  - eapply prefix_lookup_Some; [|exact H1]. by rewrite lookup_app_r, Nat.sub_diag by lia.
  - unfold crs0. destruct ws; [by right|by left].
  - split; [constructor|unfold MAXARGS; cbn; lia].
  - intros [argc ret'] [h2 pos2] (H4 & H5 & args & rs' & Hac & Hc & Hch' & Hargs & Hrs' & Hsub & Hwr'). cbn [sh_heap sh_pos fst snd] in *. subst argc.
    apply yields_bind. eapply yields_eq; [apply end_args_run; [done|apply Hargs]|]. split_and!; [done|done|].
    exists (wrap rs' (TExec args)). split_and!.
    + eapply chain_reads; [exact Hch'|]. constructor; [done|apply Hargs].
    + by apply wrap_ok.
    + rewrite Hwr'. cbn [command_of]. rewrite Hsub. cbn [fmap list_fmap app]. unfold crs0. destruct ws; by rewrite ?app_nil_r.
Qed.

Lemma parse_printed fuel : forall h pos a ts, (pos <= es)%nat -> command_ok a ->
  ((4 * (es - pos) + 4 <= fuel)%nat -> before pos (pr Lline a ++ ts) -> stop [41] ts -> yields (parseline line fuel) (built h ts a) (mkSh h pos)) /\
  ((4 * (es - pos) + 3 <= fuel)%nat -> before pos (pr Lpipe a ++ ts) -> stop [41; 38; 59] ts -> yields (parsepipe line fuel) (built h ts a) (mkSh h pos)) /\
  ((4 * (es - pos) + 2 <= fuel)%nat -> before pos (pr Lexec a ++ ts) -> stop [41; 38; 59; 124] ts -> yields (parseexec line fuel) (built h ts a) (mkSh h pos)) /\
  ((4 * (es - pos) + 1 <= fuel)%nat -> forall crs, crs_ok crs -> before pos (Sym 40 :: pr Lline a ++ Sym 41 :: pr_redirs crs ++ ts) -> stop [41; 38; 59; 124] ts ->
    yields (parseblock line fuel) (built h ts (cwrap a crs)) (mkSh h pos)).
Proof.
  induction fuel as [|fuel IH]; intros h pos a ts Hpos Hok; [lia|]. split_and!; intros Hf.
  - intros Hb Hts. cbn [parseline].
    assert (Hstart : forall x ts, command_ok x -> before pos (pr Lback x ++ ts) -> stop [41; 59] ts ->
      yields (let! cmd := parsepipe line fuel in parse_backs line (S es) cmd) (built h ts x) (mkSh h pos)).
    { intros x ts' Hx Hbx Hsx. apply yields_line_start; try done. intros b ts2 Hb2. apply IH; [done|done|lia]. }
    assert (Hre : forall x ts (Q : nat -> sh -> Prop) (k : nat -> P nat), command_ok x -> before pos (pr Lback x ++ ts) -> stop [41; 59] ts ->
      (forall p s, built h ts x p s -> yields (k p) Q s) ->
      yields (let! cmd := parsepipe line fuel in let! cmd := parse_backs line (S es) cmd in k cmd) Q (mkSh h pos)).
    { intros x ts' Q k Hx Hbx Hsx HQ. pose proof (Hstart x ts' Hx Hbx Hsx) as Hy. unfold yields, andthen in *.
      destruct (parsepipe line fuel (mkSh h pos)) as [p s| | |]; try done. destruct (parse_backs line (S es) p s) as [p' s'| | |]; try done. by apply HQ. }
    destruct (is_list a) eqn:Hl.
    + destruct a as [| | |x y|]; try done. destruct Hok as [Hx Hy]. cbn [pr paren] in Hb. rewrite <- app_assoc in Hb. cbn [app] in Hb.
      apply (Hre x (Sym 59 :: pr Lline y ++ ts)); [done|done|right; eexists _, _; split; [done|set_solver]|].
      intros p [h1 pos1] (H1 & H2 & t & Hr & Ht & Hc). cbn [sh_heap sh_pos] in *.
      apply yields_bind. eapply yields_peek; [exact H2|]. change (first_in ";" (Sym 59 :: pr Lline y ++ ts)) with true. cbn match.
      eapply yields_pass; [exact H2|]. intros pos2 Hb2 Hlt. pose proof (bf_pos _ _ Hb2). pose proof (bf_pos _ _ H2).
      pose proof (before_le _ _ _ _ Hb H2) as Hle.
      apply yields_bind. eapply yields_mono; [apply (IH h1 pos2 y ts); [lia|done|lia|done|done]|]. intros r s Hs.
      apply (built_pair h h1 p t r s LIST TList CList x y ts); try done. by econstructor.
    + rewrite (pr_line_back a Hl) in Hb. apply (Hre a ts); [done|done|eapply stop_weaken; [exact Hts|set_solver]|].
      intros p [h1 pos1] (H1 & H2 & t & Hr & Ht & Hc). cbn [sh_heap sh_pos] in *.
      apply yields_bind. eapply yields_peek; [exact H2|]. rewrite (stop_first [41]) by done. split_and!; [done|done|]. by exists t.
  - intros Hb Hts. cbn [parsepipe]. destruct (is_pipe a) eqn:Hl.
    + destruct a as [| |x y| |]; try done. destruct Hok as [Hx Hy]. cbn [pr paren] in Hb. rewrite <- app_assoc in Hb. cbn [app] in Hb.
      apply yields_bind. eapply yields_mono; [apply (IH h pos x (Sym 124 :: pr Lpipe y ++ ts)); [done|done|lia|done|right; eexists _, _; split; [done|set_solver]]|].
      intros p [h1 pos1] (H1 & H2 & t & Hr & Ht & Hc). cbn [sh_heap sh_pos] in *. pose proof (before_le _ _ _ _ Hb H2) as Hle.
      apply yields_bind. eapply yields_peek; [exact H2|]. change (first_in "|" (Sym 124 :: pr Lpipe y ++ ts)) with true. cbn match.
      eapply yields_pass; [exact H2|]. intros pos2 Hb2 Hlt. pose proof (bf_pos _ _ Hb2).
      apply yields_bind. eapply yields_mono; [apply (IH h1 pos2 y ts); [lia|done|lia|done|done]|]. intros r s Hs.
      apply (built_pair h h1 p t r s PIPE TPipe CPipe x y ts); try done. by econstructor.
    + rewrite (pr_pipe_exec a Hl) in Hb. apply yields_bind.
      eapply yields_mono; [apply (IH h pos a ts); [done|done|lia|done|eapply stop_weaken; [exact Hts|set_solver]]|].
      intros p [h1 pos1] (H1 & H2 & t & Hr & Ht & Hc). cbn [sh_heap sh_pos] in *.
      apply yields_bind. eapply yields_peek; [exact H2|]. rewrite (stop_first [41; 38; 59]) by done. split_and!; [done|done|]. by exists t.
  - intros Hb Hts. cbn [parseexec]. apply yields_bind. eapply yields_peek; [exact Hb|].
    destruct (unwrap a Hok) as (b & crs & -> & Hb' & Hbok & Hcrs). destruct (pr_exec_block b Hb') as [[ws ->]|Hpr].
    + assert (first_in "(" (pr Lexec (cwrap (CExec ws) crs) ++ ts) = false) as ->; [|by apply yields_exec_simple].
      rewrite cwrap_pr, <- app_assoc. cbn [pr]. destruct ws as [|w ws]; [by eapply stop_redir_first|]. destruct Hbok as [[Hw _]%list.Forall_cons _].
      by apply (word_first w).
    + rewrite cwrap_pr, Hpr in Hb |- *. cbn [app] in Hb |- *. rewrite <- !app_assoc in Hb. cbn [app] in Hb.
      change (first_in "(" (Sym 40 :: _)) with true. cbn match. apply IH; (done || lia).
  - intros crs Hcrs Hb Hts. cbn [parseblock]. apply yields_bind. eapply yields_peek; [exact Hb|]. change (first_in "(" (Sym 40 :: _)) with true. cbn [negb].
    eapply yields_pass; [exact Hb|]. intros pos1 Hb1 Hlt. pose proof (bf_pos _ _ Hb1) as Hp1.
    apply yields_bind. eapply yields_mono; [apply (IH h pos1 a (Sym 41 :: pr_redirs crs ++ ts)); [done|done|lia|done|right; eexists _, _; split; [done|set_solver]]|].
    intros p [h1 pos2] (H1 & H2 & t & Hr & Ht & Hc). cbn [sh_heap sh_pos] in *.
    apply yields_bind. eapply yields_peek; [exact H2|]. change (first_in ")" (Sym 41 :: _)) with true. cbn [negb].
    eapply yields_pass; [exact H2|]. intros pos3 Hb3 _.
    eapply yields_mono; [apply (yields_redirs ts crs); [by eapply reads_lt|done|done|by eapply stop_first]|].
    intros p' [h2 pos4] (H3 & H4 & _ & rs & Hch & Hrs & Hwr). cbn [sh_heap sh_pos] in *. split_and!; [by etrans|done|].
    exists (wrap rs t). split_and!; [|by apply wrap_ok|by rewrite Hwr, Hc]. eapply chain_reads; [exact Hch|]. by eapply reads_prefix.
Qed.
End roundtrip.

Lemma pr_ok a : command_ok a -> forall l, Forall tok_ok (pr l a).
Proof.
  assert (Hparen : forall b ts, Forall tok_ok ts -> Forall tok_ok (paren b ts)).
  { intros [] ts Hts; [|done]. constructor; [cbn; set_solver|]. apply Forall_app. split; [done|]. constructor; [cbn; set_solver|constructor]. }
  induction a as [args|c IH f m fd|x IHx y IHy|x IHx y IHy|c IH]; intros Hok l; cbn [pr command_ok] in *.
  - apply Forall_fmap. by destruct Hok.
  - destruct Hok as (Hc & Hf & _). apply Forall_app. split; [by apply IH|]. constructor; [destruct (m =? O_RDONLY); cbn; set_solver|]. by repeat constructor; apply Hf.
  - destruct Hok as [Hx Hy]. apply Hparen, Forall_app. split; [by apply IHx|]. constructor; [cbn; set_solver|by apply IHy].
  - destruct Hok as [Hx Hy]. apply Hparen, Forall_app. split; [by apply IHx|]. constructor; [cbn; set_solver|by apply IHy].
  - apply Hparen, Forall_app. split; [by apply IH|]. constructor; [cbn; set_solver|constructor].
Qed.

Lemma text_no_nul ts : Forall tok_ok ts -> 0 ∉ text ts.
Proof.
  induction 1 as [|t ts Ht _ IH]; [apply not_elem_of_nil|]. unfold text. cbn [fmap list_fmap concat]. fold (text ts).
  rewrite !not_elem_of_app. split_and!; [|set_solver|done]. destruct t as [w|c]; cbn [tok_text tok_ok] in *.
  - intros Hin. destruct Ht as [_ Hw]. rewrite Forall_forall in Hw. by destruct (Hw 0 Hin).
  - intros <-%list_elem_of_singleton. unfold symbols in Ht. cbn in Ht. rewrite !elem_of_cons in Ht. set_solver.
Qed.

(** The end of [parsecmd], once the line has been parsed to its end. *)
Lemma parsecmd_ends line p s t : 0 ∉ line -> reads (sh_heap s) p t -> tree_ok line t ->
  nulterminate (length (sh_heap s)) (sh_heap s) p (line ++ [0]) = Some (nulled (ends t) (line ++ [0])) /\
  shows (sh_heap s) (nulled (ends t) (line ++ [0])) p (command_of line t).
Proof.
  intros Hline Hr Ht. split.
  - eapply nulterminate_run; [done|done|by eapply reads_lt|done].
  - apply reads_shows; [done|done|done|done|]. by apply ends_words.
Qed.

Lemma argv_inj (qs qs' : list nat) : forall rest rest', (Some <$> qs) ++ None :: rest = (Some <$> qs') ++ None :: rest' -> qs = qs'.
Proof.
  revert qs'. induction qs as [|q qs IH]; intros [|q' qs'] rest rest' E; try done. cbn in E. injection E as -> E. f_equal. by eapply IH.
Qed.

(** The cells and the buffer determine the command. *)
Lemma shows_inj h buf p a : shows h buf p a -> forall a', shows h buf p a' -> a' = a.
Proof.
  induction 1 as [p argv eargv qs rest args Hp -> Hq|p c f e m fd a w Hp Hc Hw _ IH|p l r a b Hp Hl Hr _ IHl _ IHr|p l r a b Hp Hl Hr _ IHl _ IHr|p c a Hp Hc _ IH];
    intros a' Ha'; inversion Ha'; simplify_eq; try (f_equal; naive_solver).
  match goal with E : _ ++ _ = _ ++ _ |- _ => apply argv_inj in E; subst end. f_equal.
  match goal with H1 : Forall2 _ qs args, H2 : Forall2 _ qs _ |- _ => clear -H1 H2; revert H2; revert args0 end.
  induction Hq as [|q w qs args Hw _ IH]; intros args0 H2; inversion H2; simplify_eq; [done|]. f_equal. by apply IH.
Qed.

(** The printed text is parsed. *)
Lemma parsecmd_prints a :
  command_ok a -> exists p buf s, parsecmd (print a) = Done (p, buf) s /\ shows (sh_heap s) buf p a.
Proof.
  intros Ha. pose proof (pr_ok a Ha Lline) as Hok. set (line := print a).
  assert (Hb : before line 0 (pr Lline a ++ [])) by (rewrite app_nil_r; split; [lia|by rewrite drop_0|done]).
  destruct (parse_printed line (4 * length line + 4) [] 0 a []) as (Hparse & _); [lia|done|].
  specialize (Hparse ltac:(unfold es; lia) Hb (or_introl eq_refl)). unfold yields in Hparse. unfold parsecmd.
  destruct (parseline _ _ _) as [p [h pos]| | |]; try done. destruct Hparse as (_ & Hb' & t & Hr & Ht & Hc). cbn [sh_heap sh_pos] in *.
  pose proof (yields_peek line EmptyString (fun _ s => s = mkSh h pos) h pos [] Hb' eq_refl) as Hpeek. unfold yields in Hpeek.
  destruct (peek _ _ _) as [b s| | |]; try done. subst s. cbn [sh_heap sh_pos]. rewrite decide_True by (by apply before_nil).
  destruct (parsecmd_ends line p (mkSh h pos) t) as [Hnul Hshow]; [by apply text_no_nul|done|done|]. cbn [sh_heap] in Hnul, Hshow. rewrite Hnul.
  eexists _, _, _. split; [done|]. by rewrite <- Hc.
Qed.

(** ** Properties *)

(** C35.  The shell's parser is total and safe.  On every line it either returns a command or stops with an error message;
    it never reads past the end of the line, never stores past the end of [argv], and always ends.  The
    command it returns, with its strings read in the buffer that [nulterminate] has cut into words, is well
    formed: every word is non-empty and has no spaces or symbols, a simple command has fewer than
    MAXARGS words, and redirections open for reading on 0 or for writing on 1. *)
Theorem parsecmd_total line :
  0 ∉ line ->
  match parsecmd line with
  | Done (p, buf) s => exists a, shows (sh_heap s) buf p a /\ command_ok a
  | Exits _ _ => True
  | Wild | Cut => False
  end.
Proof.
  intros Hline. unfold parsecmd. destruct (parse_total line (4 * length line + 4) [] 0) as (Hparse & _); [lia|].
  specialize (Hparse ltac:(unfold es; lia)). unfold ensures in Hparse. destruct (parseline _ _ _) as [p [h pos]| | |]; try done.
  destruct Hparse as (H1 & _ & t & Hr & Ht). cbn [sh_heap sh_pos] in *.
  pose proof (ensures_peek line EmptyString (fun _ s => sh_heap s = h) h pos (proj2 H1) ltac:(done)) as Hpeek. unfold ensures in Hpeek.
  destruct (peek _ _ _) as [b s| | |]; try done. subst h. destruct (decide _); [|done].
  destruct (parsecmd_ends line p s t Hline Hr Ht) as [-> Hshow]. exists (command_of line t). split; [done|]. by apply command_of_ok.
Qed.

(** C11.  Parsing inverts printing: the text of a well-formed command, with the parentheses the grammar needs, is parsed, and the
    cells and strings the shell then works with show exactly that command and no other. *)
Theorem parsecmd_print a :
  command_ok a -> exists p buf s, parsecmd (print a) = Done (p, buf) s /\ forall a', shows (sh_heap s) buf p a' <-> a' = a.
Proof.
  intros Ha. destruct (parsecmd_prints a Ha) as (p & buf & s & Hrun & Hshow). exists p, buf, s. split; [done|].
  intros a'. split; [by apply shows_inj|by intros ->].
Qed.

(** ** Witnesses *)

(** [(a | b > f) & ; c d] *)
Definition ex_command : command :=
  CList (CBack (CPipe (CExec [str "a"]) (CRedir (CExec [str "b"]) (str "f") 513 1))) (CExec [str "c"; str "d"]).

Lemma ex_command_ok : command_ok ex_command.
Proof.
  unfold ex_command. cbn [command_ok].
  assert (Hw : forall c, is_word c = true -> c ≠ 0 -> word_ok [c]) by (intros c H1 H2; split; [done|by repeat constructor]).
  unfold redir_ok, MAXARGS. repeat (constructor || split); try (apply Hw; done); cbn; auto; lia.
Qed.

Lemma parsecmd_total_witness : exists p buf s, parsecmd (str "ls<f|wc") = Done (p, buf) s /\ exists a, shows (sh_heap s) buf p a /\ command_ok a.
Proof.
  assert (Hline : 0 ∉ str "ls<f|wc") by (vm_compute; set_solver). pose proof (parsecmd_total (str "ls<f|wc") Hline) as H.
  destruct (parsecmd (str "ls<f|wc")) as [[p buf] s| | |] eqn:E; [|vm_compute in E; discriminate..]. exists p, buf, s. split; [reflexivity|exact H].
Defined.

Lemma parsecmd_print_witness : print ex_command = str "a | b > f & ; c d " /\
  exists p buf s, parsecmd (print ex_command) = Done (p, buf) s /\ forall a', shows (sh_heap s) buf p a' <-> a' = ex_command.
Proof.
  split; [reflexivity|]. apply (parsecmd_print ex_command ex_command_ok).
Defined.
