(* ===== verification/Shrun.v ===== *)
(** * Running commands (runcmd, fork1 and main of sh.c)

    [runcmd] as the tree of system calls a process makes, with one branch for every answer of the kernel.  [launch] runs
    such a tree against a kernel that keeps the descriptor table of each process (copied by fork, lowest free slot
    first) and collects the programs that are executed with the descriptors they get.  The theorem shows
    that a line typed at the shell starts exactly the programs its command names, each with its input and output on
    the right files or pipes and with no other descriptor open. *)

From S2P Require Import Prelude Sh.
From stdpp Require Import list strings.
Open Scope Z_scope.

(** ** The code *)

(** The system calls of sh.c.  [exec] returns only when it fails; a child gets 0 from [fork]; [Complain] prints a format with one string. *)
Inductive prog :=
| Exit
| Exec (path : list Z) (argv : list (list Z)) (failed : prog)
| Complain (msg : string) (s : list Z) (k : prog)
| Close (fd : Z) (k : prog)
| Dup (fd : Z) (k : prog)
| Open (file : list Z) (mode : Z) (k : Z -> prog)
| Pipe (k : option (Z * Z) -> prog)
| Fork (k : Z -> prog)
| Wait (k : prog)
| Chdir (path : list Z) (k : Z -> prog).

(** [panic(s)] of sh.c: print and exit. *)
Definition panic_exit (s : string) : prog := Complain "%s" (str s) Exit.

Definition fork1 (k : Z -> prog) : prog := Fork (fun pid => if pid =? -1 then panic_exit "fork" else k pid).

Fixpoint runcmd (cmd : command) : prog :=
  match cmd with
  | CExec [] => Exit
  | CExec (path :: args) => Exec path (path :: args) (Complain "exec %s failed" path Exit)
  | CRedir c file mode fd =>
      Close fd (Open file mode (fun r => if r <? 0 then Complain "open %s failed" file Exit else runcmd c))
  | CList l r => fork1 (fun pid => if pid =? 0 then runcmd l else Wait (runcmd r))
  | CPipe l r =>
      Pipe (fun p =>
        match p with
        | None => panic_exit "pipe"
        | Some (p0, p1) =>
            fork1 (fun pid =>
              if pid =? 0 then Close 1 (Dup p1 (Close p0 (Close p1 (runcmd l))))
              else fork1 (fun pid =>
                if pid =? 0 then Close 0 (Dup p0 (Close p0 (Close p1 (runcmd r))))
                else Close p0 (Close p1 (Wait (Wait Exit)))))
        end)
  | CBack c => fork1 (fun pid => if pid =? 0 then runcmd c else Exit)
  end.

(** The command in the heap that [parsecmd] leaves. *)
Fixpoint argv_strings (buf : list Z) (argv : list (option nat)) : option (list (list Z)) :=
  match argv with
  | Some q :: argv => w ← cstring buf q; ws ← argv_strings buf argv; Some (w :: ws)
  | None :: _ => Some []
  | [] => None
  end.

Fixpoint read_cmd (fuel : nat) (h : list node) (buf : list Z) (p : nat) : option command :=
  match fuel with
  | O => None
  | S fuel =>
      n ← h !! p;
      match n with
      | EXEC argv _ => CExec <$> argv_strings buf argv
      | REDIR c f _ m fd => a ← read_cmd fuel h buf c; w ← cstring buf f; Some (CRedir a w m fd)
      | PIPE l r => a ← read_cmd fuel h buf l; b ← read_cmd fuel h buf r; Some (CPipe a b)
      | LIST l r => a ← read_cmd fuel h buf l; b ← read_cmd fuel h buf r; Some (CList a b)
      | BACK c => a ← read_cmd fuel h buf c; Some (CBack a)
      end
  end.

(** What the child does with the line; [None] if a pointer of the command is wild. *)
Definition run_line (line : list Z) : option prog :=
  match parsecmd line with
  | Done (p, buf) s => runcmd <$> read_cmd (length (sh_heap s)) (sh_heap s) buf p
  | Exits None msg => Some (panic_exit msg)
  | Exits (Some s) msg => Some (Complain "leftovers: %s" s (panic_exit msg))
  | Wild | Cut => None
  end.

(** One turn of the loop of [main] on the line that [getcmd] left in [buf] (which cuts what is typed into pieces of at most 99 characters: [getcmd] of
    [Shmain]), before it reads the next one ([Exit] stands for going on).  [cd] is done by the shell itself. *)
Definition main_turn (line : list Z) : option prog :=
  if bool_decide (take 3 line = str "cd ") then
    let path := drop 3 (take (length line - 1) line) in
    Some (Chdir path (fun r => if r <? 0 then Complain "cannot cd %s" path Exit else Exit))
  else
    child ← run_line line;
    Some (fork1 (fun pid => if pid =? 0 then child else Wait Exit)).

(** ** The kernel the shell runs on *)

Inductive file := Tty | Named (name : list Z) (mode : Z) | Rd (n : nat) | Wr (n : nat).

Definition NOFILE : nat := 16.
Definition fds : Type := list (option file).

(** The lowest free descriptor gets the file. *)
Definition fd_alloc (f : file) (t : fds) : option (nat * fds) :=
  i ← find_idx (fun x => negb (bool_decide (is_Some x))) t; Some (i, <[i := Some f]> t).

Definition fd_close (fd : Z) (t : fds) : fds := if fd <? 0 then t else <[Z.to_nat fd := None]> t.

Definition fd_file (fd : Z) (t : fds) : option file := if fd <? 0 then None else f ← t !! Z.to_nat fd; f.

Section kernel.
(** Which files can be opened. *)
Context (can_open : list Z -> Z -> bool).

(** The programs started by a process with the descriptors [t], and by its children; [n] numbers the pipes. *)
Fixpoint launch (p : prog) (t : fds) (n : nat) : list (list (list Z) * fds) * nat :=
  match p with
  | Exit => ([], n)
  | Exec path argv failed => ([(argv, t)], n)
  | Complain _ _ k => launch k t n
  | Close fd k => launch k (fd_close fd t) n
  | Dup fd k =>
      match fd_file fd t with
      | Some f => match fd_alloc f t with Some (_, t) => launch k t n | None => launch k t n end
      | None => launch k t n
      end
  | Open name mode k =>
      if can_open name mode then
        match fd_alloc (Named name mode) t with Some (i, t) => launch (k (Z.of_nat i)) t n | None => launch (k (-1)) t n end
      else launch (k (-1)) t n
  | Pipe k =>
      match fd_alloc (Rd n) t with
      | Some (p0, t') =>
          match fd_alloc (Wr n) t' with
          | Some (p1, t') => launch (k (Some (Z.of_nat p0, Z.of_nat p1))) t' (S n)
          | None => launch (k None) t n
          end
      | None => launch (k None) t n
      end
  | Fork k => let '(l, n) := launch (k 0) t n in let '(l', n) := launch (k 1) t n in (l ++ l', n)
  | Wait k => launch k t n
  | Chdir _ k => launch (k 0) t n
  end.

(** ** What a command means *)

(** The programs of a command, with what they read from and write to. *)
Fixpoint meaning (a : command) (i o : file) (n : nat) : list (list (list Z) * (file * file)) * nat :=
  match a with
  | CExec [] => ([], n)
  | CExec args => ([(args, (i, o))], n)
  | CRedir c f m fd => if can_open f m then (if fd =? 0 then meaning c (Named f m) o n else meaning c i (Named f m) n) else ([], n)
  | CPipe l r => let '(x, n') := meaning l i (Wr n) (S n) in let '(y, n') := meaning r (Rd n) o n' in (x ++ y, n')
  | CList l r => let '(x, n) := meaning l i o n in let '(y, n) := meaning r i o n in (x ++ y, n)
  | CBack c => meaning c i o n
  end.

(** Three descriptors and no others. *)
Definition stdio (i o e : file) : fds := Some i :: Some o :: Some e :: replicate (NOFILE - 3) None.

Definition with_stdio (e : file) (x : list (list Z) * (file * file)) : list (list Z) * fds := (x.1, stdio x.2.1 x.2.2 e).

Lemma launch_runcmd a e : command_ok a -> forall i o n,
  launch (runcmd a) (stdio i o e) n = (with_stdio e <$> (meaning a i o n).1, (meaning a i o n).2).
Proof.
  induction a as [args|c IH f m fd|l IHl r IHr|l IHl r IHr|c IH]; intros Hok i o n.
  - by destruct args.
  - destruct Hok as (Hc & _ & [[-> ->]|[-> ->]]); cbn [runcmd launch meaning]; destruct (can_open f _) eqn:Hf; cbn; rewrite ?Hf; try done; by apply IH.
  - destruct Hok as [Hl Hr]. cbn [runcmd meaning]. unfold fork1.
    cbn. destruct (meaning l i (Wr n) (S n)) as [x n1] eqn:E1. destruct (meaning r (Rd n) o n1) as [y n2] eqn:E2.
    change ((let '(l0, n0) := launch (runcmd l) (stdio i (Wr n) e) (S n) in
      let '(l', n3) := (let '(l1, n3) := launch (runcmd r) (stdio (Rd n) o e) n0 in (l1 ++ [], n3)) in (l0 ++ l', n3)) = (with_stdio e <$> x ++ y, n2)).
    rewrite IHl, E1 by done. cbn [fst snd]. rewrite IHr, E2 by done. cbn [fst snd]. by rewrite app_nil_r, fmap_app.
  - destruct Hok as [Hl Hr]. cbn. rewrite IHl by done. destruct (meaning l i o n) as [x n1]. cbn [fst snd]. rewrite IHr by done.
    destruct (meaning r i o n1) as [y n2]. cbn [fst snd]. by rewrite fmap_app.
  - cbn. rewrite IH by done. destruct (meaning c i o n) as [x n1]. cbn [fst snd]. by rewrite app_nil_r.
Qed.

(** ** From the line to the programs *)

Lemma argv_strings_run buf qs rest args :
  Forall2 (fun q w => cstring buf q = Some w) qs args -> argv_strings buf ((Some <$> qs) ++ None :: rest) = Some args.
Proof. induction 1 as [|q w qs args Hq _ IH]; [done|]. cbn [fmap list_fmap app argv_strings]. rewrite Hq. cbn [mbind option_bind]. by rewrite IH. Qed.

Lemma read_cmd_run h buf p a : shows h buf p a -> forall fuel, (p < fuel)%nat -> read_cmd fuel h buf p = Some a.
Proof.
  induction 1 as [p argv eargv qs rest args Hp -> Hq|p c f e m fd a w Hp Hc Hw _ IH|p l r a b Hp Hl Hr _ IHl _ IHr|p l r a b Hp Hl Hr _ IHl _ IHr|p c a Hp Hc _ IH];
    intros [|fuel] Hf; try lia; cbn [read_cmd]; rewrite Hp; cbn [mbind option_bind].
  - by rewrite (argv_strings_run _ _ _ _ Hq).
  - by rewrite IH, Hw by lia.
  - by rewrite IHl, IHr by lia.
  - by rewrite IHl, IHr by lia.
  - by rewrite IH by lia.
Qed.

Lemma shows_lt h buf p a : shows h buf p a -> (p < length h)%nat.
Proof. intros Hs. inversion Hs; by eapply lookup_lt_Some. Qed.

(** ** Properties *)

(** C18.  A command given to the shell.  For the text of any well-formed command (that does not begin with "cd ") in its line buffer, a turn of
    the shell's loop starts exactly the programs the command means, with the arguments
    written: the two sides of a pipe are joined by a pipe of their own, redirections go to the named files or, when
    the file cannot be opened, start nothing, and every program runs with its input, its output and the
    shell's error output as its only open descriptors, so that no stray end keeps a pipe open. *)
Theorem shell_runs a i o e n :
  command_ok a -> take 3 (print a) ≠ str "cd " ->
  exists p, main_turn (print a) = Some p /\
    launch p (stdio i o e) n = (with_stdio e <$> (meaning a i o n).1, (meaning a i o n).2).
Proof.
  intros Ha Hcd. destruct (parsecmd_prints a Ha) as (p & buf & s & Hparse & Hshow).
  exists (fork1 (fun pid => if pid =? 0 then runcmd a else Wait Exit)). split.
  - unfold main_turn. rewrite bool_decide_eq_false_2 by done. unfold run_line. rewrite Hparse.
    by rewrite (read_cmd_run _ _ _ _ Hshow) by (by eapply shows_lt).
  - cbn. rewrite launch_runcmd by done. cbn [fst snd]. by rewrite app_nil_r.
Qed.
End kernel.

(** ** Witnesses *)

Lemma shell_runs_witness : exists p, main_turn (print ex_command) = Some p /\
  launch (fun _ _ => true) p (stdio Tty Tty Tty) 0 =
  ([([str "a"], stdio Tty (Wr 0) Tty); ([str "b"], stdio (Rd 0) (Named (str "f") 513) Tty); ([str "c"; str "d"], stdio Tty Tty Tty)], 1%nat).
Proof.
  apply (shell_runs (fun _ _ => true) ex_command Tty Tty Tty 0); [exact ex_command_ok|discriminate].
Defined.
