(* ===== verification/Ulib.v ===== *)
(** * The user library (ulib.c, printf.c), the counting of wc.c and the names of ls.c

    A [char*] is the list of bytes from it on; an access beyond the list is [None].  Output is the list of
    bytes written.  The theorems show that [atoi] reads back what [printf] prints, that [strcmp] is the lexicographic order
    of the strings, that [gets] returns the next line as far as it fits, and that [wc] counts
    lines, words and characters however the input is split into reads. *)

From S2P Require Import Prelude Kdata CString.
From stdpp Require Import list strings.
Open Scope Z_scope.

(** ** ulib.c *)

(** The bytes [strcpy] stores. *)
Fixpoint strcpy (t : list Z) : option (list Z) :=
  match t with
  | [] => None
  | c :: t => if c =? 0 then Some [0] else cons c <$> strcpy t
  end.

Fixpoint strcmp (p q : list Z) : option Z :=
  match p, q with
  | a :: p', b :: q' => if negb (a =? 0) && (a =? b) then strcmp p' q' else Some (u8 a - u8 b)
  | _, _ => None
  end.

Fixpoint strlen (s : list Z) : option nat :=
  match s with
  | [] => None
  | c :: s => if c =? 0 then Some 0%nat else S <$> strlen s
  end.

Definition memset (mem : list Z) (dst : nat) (c : Z) (n : nat) : option (list Z) := stosb mem dst c n.

(** The offset of the character; [Some None] is the null pointer. *)
Fixpoint strchr (s : list Z) (c : Z) : option (option nat) :=
  match s with
  | [] => None
  | x :: s => if x =? 0 then Some None else if x =? c then Some (Some 0%nat) else r ← strchr s c; Some (option_map S r)
  end.

(** [gets(buf, max)] when the reads return the bytes of [input] one by one and then nothing: the bytes stored in
    [buf] and the input that is left.  [i] bytes have been stored. *)
Fixpoint gets_loop (input : list Z) (i max : Z) : list Z * list Z :=
  match input with
  | [] => ([0], [])
  | c :: rest =>
      if i + 1 <? max then
        if (c =? 10) || (c =? 13) then ([c; 0], rest)
        else let '(buf, rest) := gets_loop rest (i + 1) max in (c :: buf, rest)
      else ([0], input)
  end.
Definition gets (input : list Z) (max : Z) : list Z * list Z := gets_loop input 0 max.

Fixpoint atoi_loop (s : list Z) (n : Z) : option Z :=
  match s with
  | [] => None
  | c :: s => if (48 <=? c) && (c <=? 57) then atoi_loop s (s32 (s32 (n * 10) + c - 48)) else Some n
  end.
Definition atoi (s : list Z) : option Z := atoi_loop s 0.

(** [while(n-- > 0) *dst++ = *src++;] *)
Definition memmove (mem : list Z) (dst src : nat) (n : Z) : option (list Z) := move_up mem dst src (Z.to_nat n).

(** ** printf.c *)

Definition digits : list Z := str "0123456789ABCDEF".

(** [do buf[i++] = digits[x % base]; while((x /= base) != 0);] *)
Fixpoint printint_loop (fuel : nat) (x base : Z) : list Z :=
  match fuel with
  | O => []
  | S fuel => default 0 (digits !! Z.to_nat (x mod base)) :: (if x / base =? 0 then [] else printint_loop fuel (x / base) base)
  end.

(** The buffer when it is full; [buf] has 16 bytes. *)
Definition printint_buf (xx base : Z) (sgn : bool) : list Z :=
  let neg := sgn && (xx <? 0) in
  printint_loop 16 (u32 (if neg then - xx else xx)) base ++ (if neg then [45] else []).

Definition printint (xx base : Z) (sgn : bool) : list Z := rev (printint_buf xx base sgn).

(** An argument of [printf]: a word, or a pointer to a string that may be null. *)
Inductive arg := Int (z : Z) | Str (s : option (list Z)).

(** The loop over the format, in [state] 0 or ['%']; [None] when an argument is missing or of the other kind. *)
Fixpoint printf_loop (fmt : list Z) (percent : bool) (ap : list arg) : option (list Z) :=
  match fmt with
  | [] => Some []
  | c :: fmt =>
      if negb percent then
        if c =? 37 then printf_loop fmt true ap else cons c <$> printf_loop fmt false ap
      else if c =? 100 then
        match ap with Int z :: ap => app (printint (s32 z) 10 true) <$> printf_loop fmt false ap | _ => None end
      else if (c =? 120) || (c =? 112) then
        match ap with Int z :: ap => app (printint (s32 z) 16 false) <$> printf_loop fmt false ap | _ => None end
      else if c =? 115 then
        match ap with Str s :: ap => app (default (str "(null)") s) <$> printf_loop fmt false ap | _ => None end
      else if c =? 99 then
        match ap with Int z :: ap => cons (u8 z) <$> printf_loop fmt false ap | _ => None end
      else if c =? 37 then cons c <$> printf_loop fmt false ap
      else app [37; c] <$> printf_loop fmt false ap
  end.
Definition printf (fmt : string) (ap : list arg) : option (list Z) := printf_loop (str fmt) false ap.

(** ** wc.c and ls.c *)

(** [l], [w], [c] and [inword]. *)
Record counts := mkCounts { wc_l : Z; wc_w : Z; wc_c : Z; wc_in : bool }.

(** [strchr(" \r\t\n\v", buf[i])] *)
Definition wc_space (c : Z) : bool := existsb (Z.eqb c) [32; 13; 9; 10; 11].

Definition wc_char (k : counts) (c : Z) : counts :=
  let l := if c =? 10 then s32 (wc_l k + 1) else wc_l k in
  let n := s32 (wc_c k + 1) in
  if wc_space c then mkCounts l (wc_w k) n false
  else if wc_in k then mkCounts l (wc_w k) n true
  else mkCounts l (s32 (wc_w k + 1)) n true.

(** The loop over what the reads return, each of them not empty, up to the end of the file. *)
Definition wc_count (reads : list (list Z)) : counts := foldl (foldl wc_char) (mkCounts 0 0 0 false) reads.

(** The characters after the last slash: the scan goes down from the end. *)
Fixpoint basename (rpath name : list Z) : list Z :=
  match rpath with
  | [] => name
  | c :: rpath => if c =? 47 then name else basename rpath (c :: name)
  end.

Definition fmtname (path : list Z) : list Z :=
  let p := basename (rev path) [] in
  if decide (DIRSIZ <= length p)%nat then p else p ++ replicate (DIRSIZ - length p) 32.

(** ** Numbers *)

Lemma digits_10 d : 0 <= d < 10 -> default 0 (digits !! Z.to_nat d) = 48 + d.
Proof. intros Hd. assert (Hc : d ∈ (Z.of_nat <$> seq 0 10)) by (apply list_elem_of_fmap; exists (Z.to_nat d); rewrite elem_of_seq; lia).
  cbn in Hc. repeat (apply elem_of_cons in Hc as [->|Hc]; [done|]). by apply elem_of_nil in Hc. Qed.

Lemma atoi_digit d s n : 0 <= d < 10 -> 0 <= n -> n * 10 + d < 2 ^ 31 -> atoi_loop ((48 + d) :: s) n = atoi_loop s (n * 10 + d).
Proof.
  intros Hd Hn Hb. cbn [atoi_loop]. rewrite (proj2 (Z.leb_le _ _)), (proj2 (Z.leb_le _ _)) by lia. cbn [andb].
  rewrite (s32_id (n * 10)) by (unfold is_s32; lia). rewrite s32_id by (unfold is_s32; lia). f_equal. lia.
Qed.

(** The numeral of [x], read by [atoi] behind the digits already read. *)
Lemma atoi_numeral fuel : forall x rest n, 0 <= x < 10 ^ Z.of_nat fuel -> (0 < fuel)%nat -> 0 <= n ->
  n * 10 ^ Z.of_nat (length (printint_loop fuel x 10)) + x < 2 ^ 31 ->
  atoi_loop (rev (printint_loop fuel x 10) ++ rest) n = atoi_loop rest (n * 10 ^ Z.of_nat (length (printint_loop fuel x 10)) + x).
Proof.
  induction fuel as [|fuel IH]; intros x rest n Hx Hf Hn Hb; [lia|]. cbn [printint_loop] in *.
  pose proof (Z.mod_pos_bound x 10 ltac:(lia)) as Hm. rewrite digits_10 in * by lia. pose proof (Z.div_mod x 10 ltac:(lia)) as Hdiv.
  rewrite Nat2Z.inj_succ, Z.pow_succ_r in Hx by lia.
  assert (Hq : 0 <= x / 10 < 10 ^ Z.of_nat fuel) by (split; [apply Z.div_pos; lia|apply Z.div_lt_upper_bound; lia]).
  cbn [rev length] in *. rewrite <- app_assoc. cbn [app]. destruct (Z.eqb_spec (x / 10) 0) as [Hz|Hz]; cbn [rev app length] in *.
  - change (Z.of_nat 1) with 1 in *. rewrite Z.pow_1_r in *. rewrite atoi_digit by lia. f_equal. lia.
  - set (l := printint_loop fuel (x / 10) 10) in *. rewrite Nat2Z.inj_succ, Z.pow_succ_r in * by lia.
    assert (0 < 10 ^ Z.of_nat (length l)) by (apply Z.pow_pos_nonneg; lia).
    assert (Hf' : (0 < fuel)%nat) by (destruct fuel; [cbn in Hq|]; lia).
    pose proof (IH (x / 10) ((48 + x mod 10) :: rest) n Hq Hf' Hn) as E. fold l in E. rewrite E by nia. rewrite atoi_digit by nia. f_equal. nia.
Qed.

Lemma printint_loop_length fuel : forall x base n, 2 <= base -> 0 <= x < base ^ Z.of_nat n -> (0 < n)%nat -> (length (printint_loop fuel x base) <= n)%nat.
Proof.
  induction fuel as [|fuel IH]; intros x base n Hb Hx Hn; cbn [printint_loop length]; [lia|]. destruct n as [|n]; [lia|].
  rewrite Nat2Z.inj_succ, Z.pow_succ_r in Hx by lia.
  assert (0 <= x / base < base ^ Z.of_nat n) by (split; [apply Z.div_pos; lia|apply Z.div_lt_upper_bound; lia]).
  destruct (Z.eqb_spec (x / base) 0) as [|Hne]; cbn [length]; [lia|]. destruct n as [|n]; [cbn in *; lia|].
  specialize (IH (x / base) base (S n) Hb ltac:(done) ltac:(lia)). lia.
Qed.

Lemma printint_fits z base sgn : base = 10 \/ base = 16 -> (length (printint_buf z base sgn) <= 11)%nat.
Proof.
  intros Hb. unfold printint_buf. set (x := u32 _). pose proof (u32_range (if sgn && (z <? 0) then - z else z)) as Hx. fold x in Hx. unfold is_u32 in Hx.
  assert ((length (printint_loop 16 x base) <= 10)%nat).
  { apply printint_loop_length; [destruct Hb; lia| |lia]. destruct Hb as [-> | ->]; cbn; lia. }
  rewrite length_app. destruct (sgn && (z <? 0)); cbn [length]; lia.
Qed.

(** ** Strings *)

(** The order of words by their bytes. *)
Fixpoint lex (s t : list Z) : bool :=
  match s, t with
  | [], [] | _ :: _, [] => false
  | [], _ :: _ => true
  | a :: s, b :: t => (a <? b) || ((a =? b) && lex s t)
  end.

Lemma strcmp_lex s : forall t r r', Forall is_u8 s -> Forall is_u8 t -> 0 ∉ s -> 0 ∉ t ->
  exists d, strcmp (s ++ 0 :: r) (t ++ 0 :: r') = Some d /\ (d = 0 <-> s = t) /\ (d < 0 <-> lex s t = true).
Proof.
  induction s as [|a s IH]; intros [|b t] r r' Hs Ht Hs0 Ht0; cbn [app strcmp lex].
  - by exists 0.
  - apply list.Forall_cons in Ht as [Hb _]. apply not_elem_of_cons in Ht0 as [Hb0 _]. exists (u8 0 - u8 b). unfold is_u8 in Hb.
    rewrite !(u8_id b) by (unfold is_u8; lia). change (u8 0) with 0. split; [done|]. split; [split; [lia|done]|]. split; [done|lia].
  - apply list.Forall_cons in Hs as [Ha _]. apply not_elem_of_cons in Hs0 as [Ha0 _]. unfold is_u8 in Ha. rewrite (proj2 (Z.eqb_neq a 0)) by lia. cbn [negb andb].
    exists (u8 a - u8 0). rewrite !(u8_id a) by (unfold is_u8; lia). change (u8 0) with 0. split; [done|]. split; [split; [lia|done]|]. split; [lia|done].
  - apply list.Forall_cons in Hs as [Ha Hs], Ht as [Hb Ht]. apply not_elem_of_cons in Hs0 as [Ha0 Hs0], Ht0 as [Hb0 Ht0]. rewrite (proj2 (Z.eqb_neq a 0)) by lia.
    cbn [negb andb]. destruct (Z.eqb_spec a b) as [->|Hne].
    + destruct (IH t r r' Hs Ht Hs0 Ht0) as (d & Hd & H1 & H2). exists d. split; [done|]. rewrite Z.ltb_irrefl. cbn [orb andb]. split; [|done].
      rewrite H1. split; [by intros ->|by intros [= ->]].
    + exists (u8 a - u8 b). rewrite !u8_id by done. split; [done|]. split; [split; [lia|intros [= -> _]; lia]|].
      rewrite andb_false_l, orb_false_r, Z.ltb_lt. lia.
Qed.

Lemma gets_loop_spec input : forall i max, let '(buf, rest) := gets_loop input i max in
  i + 1 <= max -> exists l, buf = l ++ [0] /\ input = l ++ rest /\ Z.of_nat (length l) <= max - 1 - i /\
    (forall a c b, l = a ++ c :: b -> c = 10 \/ c = 13 -> b = []) /\
    (rest = [] \/ Z.of_nat (length l) = max - 1 - i \/ exists a c, l = a ++ [c] /\ (c = 10 \/ c = 13)).
Proof.
  induction input as [|c input IH]; intros i max; cbn [gets_loop].
  - intros Hi. exists []. split_and!; [done|done|cbn; lia|by intros [] ? ?|by left].
  - destruct (Z.ltb_spec (i + 1) max) as [Hlt|Hge].
    + destruct ((c =? 10) || (c =? 13)) eqn:Hc.
      * apply orb_prop in Hc. rewrite !Z.eqb_eq in Hc. intros _. exists [c]. split_and!; [done|done|cbn; lia| |].
        -- intros [|x a] y b E _; injection E; [done|]. intros E' _. by destruct a.
        -- right. right. by exists [], c.
      * specialize (IH (i + 1) max). destruct (gets_loop input (i + 1) max) as [buf rest]. intros _.
        destruct IH as (l & -> & -> & Hl & Hnl & Hend); [lia|]. exists (c :: l). apply orb_false_iff in Hc. rewrite !Z.eqb_neq in Hc. split_and!; [done|done|cbn; lia| |].
        -- intros [|x a] y b E Hy; injection E; [lia|]. intros E' _. by apply (Hnl a y b).
        -- destruct Hend as [->|[Hend|(a & d & -> & Hd)]]; [by left|right; left; cbn; lia|]. right. right. by exists (c :: a), d.
    + intros Hi. exists []. split_and!; [done|done|cbn; lia|by intros [] ? ?|]. right. left. cbn. lia.
Qed.

(** ** Counting *)

(** The number of characters that begin a word: not a space, and behind a space or at the start. *)
Fixpoint words_in (inword : bool) (s : list Z) : Z :=
  match s with
  | [] => 0
  | c :: s => if wc_space c then words_in false s else (if inword then 0 else 1) + words_in true s
  end.

Lemma words_bound s : forall b, 0 <= words_in b s <= Z.of_nat (length s).
Proof. induction s as [|c s IH]; intros b; cbn [words_in length]; [lia|]. destruct (wc_space c); [specialize (IH false)|specialize (IH true); destruct b]; lia. Qed.

Definition newlines (s : list Z) : Z := Z.of_nat (length (filter (fun c => c = 10) s)).

Lemma wc_run s : forall k, 0 <= wc_l k <= wc_c k -> 0 <= wc_w k <= wc_c k -> wc_c k + Z.of_nat (length s) < 2 ^ 31 ->
  let k' := foldl wc_char k s in
  wc_l k' = wc_l k + newlines s /\ wc_w k' = wc_w k + words_in (wc_in k) s /\ wc_c k' = wc_c k + Z.of_nat (length s).
Proof.
  induction s as [|c s IH]; intros k Hl Hw Hb; cbn [foldl words_in length]; [unfold newlines; cbn; lia|]. cbn [length] in Hb.
  assert (Hk : wc_l (wc_char k c) = wc_l k + (if c =? 10 then 1 else 0) /\ wc_c (wc_char k c) = wc_c k + 1 /\
    wc_w (wc_char k c) = wc_w k + (if wc_space c then 0 else if wc_in k then 0 else 1) /\ wc_in (wc_char k c) = negb (wc_space c)).
  { unfold wc_char. destruct (wc_space c), (wc_in k), (c =? 10); cbn [wc_l wc_w wc_c wc_in negb]; rewrite ?s32_id by (unfold is_s32; lia); lia || (split_and!; lia || done). }
  destruct Hk as (Hk1 & Hk2 & Hk3 & Hk4). destruct (IH (wc_char k c)) as (H1 & H2 & H3).
  { rewrite Hk1, Hk2. destruct (c =? 10); lia. } { rewrite Hk3, Hk2. destruct (wc_space c), (wc_in k); lia. } { lia. }
  rewrite H1, H2, H3, Hk1, Hk2, Hk3, Hk4. unfold newlines. rewrite filter_cons.
  destruct (Z.eqb_spec c 10); case_decide; try done; cbn [length]; destruct (wc_space c), (wc_in k); cbn [negb]; split_and!; lia.
Qed.

(** The text [s] is the words [ws] with spaces between them, and possibly before and after them. *)
Inductive spelled : list (list Z) -> list Z -> Prop :=
| spelled_end sp : Forall (fun c => wc_space c = true) sp -> spelled [] sp
| spelled_last sp w : Forall (fun c => wc_space c = true) sp -> w ≠ [] -> Forall (fun c => wc_space c = false) w -> spelled [w] (sp ++ w)
| spelled_word sp w c s ws : Forall (fun c => wc_space c = true) sp -> w ≠ [] -> Forall (fun c => wc_space c = false) w ->
    wc_space c = true -> spelled ws (c :: s) -> spelled (w :: ws) (sp ++ w ++ c :: s).

Lemma words_spaces sp s : Forall (fun c => wc_space c = true) sp -> words_in false (sp ++ s) = words_in false s.
Proof. induction 1 as [|c sp Hc _ IH]; [done|]. cbn [app words_in]. by rewrite Hc. Qed.

Lemma words_word w s : Forall (fun c => wc_space c = false) w -> words_in true (w ++ s) = words_in true s.
Proof. induction 1 as [|c w Hc _ IH]; [done|]. cbn [app words_in]. by rewrite Hc, IH. Qed.

Lemma words_spelled ws s : spelled ws s -> words_in false s = Z.of_nat (length ws).
Proof.
  assert (Hone : forall w s, w ≠ [] -> Forall (fun c => wc_space c = false) w -> words_in false (w ++ s) = 1 + words_in true s).
  { intros [|c w] t Hne Hw; [done|]. apply list.Forall_cons in Hw as [Hc Hw]. cbn [app words_in]. by rewrite Hc, words_word. }
  induction 1 as [sp Hsp|sp w Hsp Hne Hw|sp w c s ws Hsp Hne Hw Hc _ IH].
  - rewrite <- (app_nil_r sp), words_spaces; done.
  - rewrite words_spaces, <- (app_nil_r w), Hone by done. done.
  - rewrite words_spaces, Hone by done. cbn [words_in] in IH |- *. rewrite Hc in IH |- *. cbn [length]. lia.
Qed.

(** ** Properties *)

(** [printf] and [atoi].  The numeral that ["%d"] prints for a number from 0 on is the one [atoi] reads back, whatever
    follows it that is not a digit; and no word fills the 16-byte buffer of [printint], in base 10 or 16. *)
Theorem atoi_printf n rest :
  0 <= n < 2 ^ 31 -> (forall c r, rest = c :: r -> ~ 48 <= c <= 57) -> rest ≠ [] ->
  (exists out, printf "%d" [Int n] = Some out /\ atoi (out ++ rest) = Some n) /\
  forall z base sgn, base = 10 \/ base = 16 -> (length (printint_buf z base sgn) < 16)%nat.
Proof.
  intros Hn Hr Hne. split; [|intros z base sgn Hb; pose proof (printint_fits z base sgn Hb); lia].
  exists (rev (printint_loop 16 n 10)). split.
  - unfold printf. cbn. unfold printint, printint_buf. rewrite s32_id by (unfold is_s32; lia). rewrite (proj2 (Z.ltb_ge _ _)) by lia. cbn [andb].
    rewrite u32_id by (unfold is_u32; lia). by rewrite !app_nil_r.
  - unfold atoi. rewrite atoi_numeral; [|cbn; lia|lia|lia|lia]. destruct rest as [|c r]; [done|]. cbn [atoi_loop].
    specialize (Hr c r eq_refl). replace ((48 <=? c) && (c <=? 57)) with false by (symmetry; apply andb_false_iff; rewrite !Z.leb_gt; lia). done.
Qed.

(** [wc] on an input of fewer than 2^31 bytes counts its newlines, the words it spells and its bytes, however the reads
    split it, also in the middle of words. *)
Theorem wc_spec reads ws :
  Z.of_nat (length (concat reads)) < 2 ^ 31 -> spelled ws (concat reads) ->
  let k := wc_count reads in let s := concat reads in
  wc_l k = newlines s /\ wc_w k = Z.of_nat (length ws) /\ wc_c k = Z.of_nat (length s).
Proof.
  intros Hb Hws k s. pose proof (words_spelled _ _ Hws) as Hcount. fold s in Hcount. assert (Hk : k = foldl wc_char (mkCounts 0 0 0 false) s).
  { unfold k, wc_count, s. generalize (mkCounts 0 0 0 false). clear. induction reads as [|r reads IH]; intros k0; [done|]. cbn [concat foldl]. by rewrite foldl_app. }
  rewrite Hk. destruct (wc_run s (mkCounts 0 0 0 false)) as (H1 & H2 & H3); cbn [wc_l wc_w wc_c wc_in] in *; [lia|lia|unfold s; lia|]. split_and!; lia.
Qed.

(** ** Witnesses *)

Lemma atoi_printf_witness : exists out, printf "%d" [Int 2095] = Some out /\ atoi (out ++ [0]) = Some 2095.
Proof. apply (atoi_printf 2095 [0]); [lia|intros c r [= <- _]; lia|discriminate]. Defined.

Lemma wc_spec_witness : wc_w (wc_count [str "one tw"; str "o"]) = 2.
Proof.
  assert (Hws : spelled [str "one"; str "two"] (concat [str "one tw"; str "o"])).
  { apply (spelled_word [] (str "one") 32 (str "two")); [constructor|discriminate|by repeat constructor|reflexivity|].
    apply (spelled_last [32] (str "two")); [by repeat constructor|discriminate|by repeat constructor]. }
  exact (proj1 (proj2 (wc_spec [str "one tw"; str "o"] _ ltac:(vm_compute; reflexivity) Hws))).
Defined.
