(* ===== verification/Usys.v ===== *)
(** * User programs and their system calls (user.h, usys.S, printf.c, stat of ulib.c)

    A user program is an interaction tree whose events are the system calls of user.h, so programs that never end,
    as init, are programs too.  [ensures] is total correctness of such a program against a kernel given
    as a relation: whatever the kernel answers, the program ends, by returning or by [exit], in a state with the
    given property.  Its rules follow the structure of the programs. *)

From S2P Require Import Prelude Kdata Ulib.
From stdpp Require Import list strings gmap.
From ITree Require Import Core.ITreeDefinition.
Open Scope Z_scope.

(** ** System calls *)

(** The calls of user.h with what they return.  [read] gives the bytes it stores, [fstat] the structure it fills and
    [pipe] the two descriptors, [None] being -1; [exit] does not return, [exec] only when it fails. *)
Inductive sysE : Type -> Type :=
| Fork : sysE Z
| Exit : sysE Empty_set
| Wait : sysE Z
| Pipe : sysE (option (Z * Z))
| Write (fd : Z) (bs : list Z) : sysE Z
| Read (fd n : Z) : sysE (option (list Z))
| Close (fd : Z) : sysE Z
| Kill (pid : Z) : sysE Z
| Exec (path : list Z) (argv : list (list Z)) : sysE Z
| Open (path : list Z) (mode : Z) : sysE Z
| Mknod (path : list Z) (major minor : Z) : sysE Z
| Unlink (path : list Z) : sysE Z
| Fstat (fd : Z) : sysE (option stat)
| Link (old new : list Z) : sysE Z
| Mkdir (path : list Z) : sysE Z
| Chdir (path : list Z) : sysE Z
| Dup (fd : Z) : sysE Z
| Getpid : sysE Z
| Sbrk (n : Z) : sysE Z
| Sleep (n : Z) : sysE Z
| Uptime : sysE Z
| Printinfo : sysE Z
| SchedPolicy (pid policy : Z) : sysE Z
| ExecTime (pid time : Z) : sysE Z
| Deadline (pid d : Z) : sysE Z
| Rate (pid r : Z) : sysE Z.

Definition uprog : Type -> Type := itree sysE.

#[export] Instance uprog_ret : MRet uprog := fun A a => Ret a.
#[export] Instance uprog_bind : MBind uprog := fun A B f t => ITree.bind t f.

Definition sys {X} (e : sysE X) : uprog X := ITree.trigger e.

(** [exit()], at any type. *)
Definition uexit {A} : uprog A := x ← sys Exit; match (x : Empty_set) with end.

(** [putc] of printf.c, for every byte that [printf] renders. *)
Fixpoint putcs (fd : Z) (bs : list Z) : uprog unit :=
  match bs with
  | [] => mret tt
  | c :: bs => _ ← sys (Write fd [c]); putcs fd bs
  end.

(** [printf(fd, fmt, ...)]; a missing argument would be read off the stack, which no caller below does. *)
Definition uprintf (fd : Z) (fmt : list Z) (ap : list arg) : uprog unit :=
  match printf_loop fmt false ap with
  | Some out => putcs fd out
  | None => ITree.spin
  end.

(** A format that ends in a newline. *)
Definition line (s : string) : list Z := str s ++ [10].

(** [stat] of ulib.c. *)
Definition ustat (n : list Z) : uprog (option stat) :=
  fd ← sys (Open n 0);
  if fd <? 0 then mret None
  else
    r ← sys (Fstat fd);
    _ ← sys (Close fd);
    mret r.

Lemma observe_ubind {A B} (c : uprog A) (k : A -> uprog B) :
  observe (c ≫= k) =
    match observe c with
    | RetF r => observe (k r)
    | TauF t => TauF (ITree.bind t k)
    | VisF e h => VisF e (fun x => ITree.bind (h x) k)
    end.
Proof.
  change (observe (c ≫= k)) with (observe (match observe c with RetF r => k r | TauF t => Tau (ITree.bind t k)
    | VisF e h => Vis e (fun x => ITree.bind (h x) k) end)). by destruct (observe c).
Qed.

(** ** Total correctness *)

Section ensures.
Context {S : Type}.
(** [K s e x s']: the kernel in the state [s] may answer [x] to [e] and go to [s']. *)
Variable K : S -> forall X, sysE X -> X -> S -> Prop.

Inductive ensures {R} (Q : R -> S -> Prop) (E : S -> Prop) (t : uprog R) (s : S) : Prop :=
| ens_ret r : observe t = RetF r -> Q r s -> ensures Q E t s
| ens_tau t' : observe t = TauF t' -> ensures Q E t' s -> ensures Q E t s
| ens_exit k : observe t = VisF Exit k -> E s -> ensures Q E t s
| ens_vis X (e : sysE X) k : observe t = VisF e k -> (exists x s', K s X e x s') ->
    (forall x s', K s X e x s' -> ensures Q E (k x) s') -> ensures Q E t s.

Lemma ensures_observe {R} (Q : R -> S -> Prop) E t t' s : observe t = observe t' -> ensures Q E t s -> ensures Q E t' s.
Proof.
  intros Ho H. destruct H as [r Hr HQ|t1 Ht H|k Hk H|X e k Hk Hex H]; rewrite Ho in *;
    [by eapply ens_ret|by eapply ens_tau|by eapply ens_exit|by eapply ens_vis].
Qed.

Lemma ensures_ret {R} (Q : R -> S -> Prop) E r s : Q r s -> ensures Q E (mret r) s.
Proof. intros H. by eapply ens_ret. Qed.

Lemma ensures_ubind {A B} (Q : B -> S -> Prop) E (c : uprog A) (k : A -> uprog B) s :
  ensures (fun a s => ensures Q E (k a) s) E c s -> ensures Q E (c ≫= k) s.
Proof.
  intros H. induction H as [c s r Hr HQ|c s c' Hc H IH|c s h Hh H|c s X e h Hh Hex H IH].
  - eapply ensures_observe; [|exact HQ]. by rewrite observe_ubind, Hr.
  - eapply (ens_tau _ _ _ _ (ITree.bind c' k)); [|exact IH]. by rewrite observe_ubind, Hc.
  - eapply (ens_exit _ _ _ _ (fun x => ITree.bind (h x) k)); [|exact H]. by rewrite observe_ubind, Hh.
  - eapply (ens_vis _ _ _ _ X e (fun x => ITree.bind (h x) k)); [|exact Hex|exact IH]. by rewrite observe_ubind, Hh.
Qed.

Lemma ensures_sys {X} (e : sysE X) (Q : X -> S -> Prop) E s :
  (exists x s', K s X e x s') -> (forall x s', K s X e x s' -> Q x s') -> ensures Q E (sys e) s.
Proof. intros Hex H. eapply ens_vis; [reflexivity|exact Hex|]. intros x s' Hx. apply ensures_ret. by apply H. Qed.

Lemma ensures_exit {R} (Q : R -> S -> Prop) (E : S -> Prop) s : E s -> ensures Q E uexit s.
Proof. intros H. eapply ens_exit; [unfold uexit; rewrite observe_ubind; reflexivity|exact H]. Qed.

(** One turn of a loop. *)
Lemma ensures_iter {I R} (f : I -> uprog (I + R)) (Q : R -> S -> Prop) E i s :
  ensures (fun r s => match r with inl i => ensures Q E (ITree.iter f i) s | inr r => Q r s end) E (f i) s ->
  ensures Q E (ITree.iter f i) s.
Proof.
  intros H. eapply (ensures_observe _ _ (f i ≫= fun r => match r with inl i => Tau (ITree.iter f i) | inr r => mret r end)); [reflexivity|].
  apply ensures_ubind. revert H. generalize (f i) as t. intros t H.
  induction H as [c s [j|r] Hr HQ|c s c' Hc H IH|c s h Hh H|c s X e h Hh Hex H IH];
    [eapply ens_ret; [exact Hr|]; by eapply ens_tau|eapply ens_ret; [exact Hr|]; by apply ensures_ret|
     by eapply ens_tau|by eapply ens_exit|by eapply ens_vis].
Qed.

Lemma ensures_umono {R} (Q Q' : R -> S -> Prop) (E E' : S -> Prop) t s :
  ensures Q E t s -> (forall r s, Q r s -> Q' r s) -> (forall s, E s -> E' s) -> ensures Q' E' t s.
Proof.
  intros H HQ HE. induction H as [c s r Hr H|c s c' Hc H IH|c s h Hh H|c s X e h Hh Hex H IH];
    [by eapply ens_ret; eauto|by eapply ens_tau|by eapply ens_exit; eauto|by eapply ens_vis].
Qed.

End ensures.
