(* ===== verification/Shmain.v ===== *)
(** * The shell as a program (getcmd and main of sh.c, gets of ulib.c)

    The rest of sh.c on the system calls of [Usys]: the loop of [main] around the parser of [Sh] and the commands of [Shrun]. *)

From S2P Require Import Prelude Kdata Ulib Sh Shrun Usys.
From stdpp Require Import list strings.
From ITree Require Import Core.ITreeDefinition.
Open Scope Z_scope.

(** The calls a command makes. *)
Fixpoint calls (p : prog) : uprog unit :=
  match p with
  | Shrun.Exit => uexit
  | Shrun.Exec path argv failed => _ ← sys (Exec path argv); calls failed
  | Complain fmt s k => _ ← uprintf 2 (line fmt) [Str (Some s)]; calls k
  | Shrun.Close fd k => _ ← sys (Close fd); calls k
  | Shrun.Dup fd k => _ ← sys (Dup fd); calls k
  | Shrun.Open file mode k => r ← sys (Open file mode); calls (k r)
  | Shrun.Pipe k => r ← sys Pipe; calls (k r)
  | Shrun.Fork k => r ← sys Fork; calls (k r)
  | Shrun.Wait k => _ ← sys Wait; calls k
  | Shrun.Chdir path k => r ← sys (Chdir path); calls (k r)
  end.

(** [gets(buf, max)]: the bytes stored, without the NUL. *)
Definition gets_turn (max : Z) (buf : list Z) : uprog (list Z + list Z) :=
  if negb (Z.of_nat (length buf) + 1 <? max) then mret (inr buf)
  else
    r ← sys (Read 0 1);
    match r with
    | Some (c :: _) =>
        let buf := buf ++ [c] in
        mret (if (c =? 10) || (c =? 13) then inr buf else inl buf)
    | _ => mret (inr buf)
    end.
Definition ugets (max : Z) : uprog (list Z) := ITree.iter (gets_turn max) [].

(** The string in [buf], or [None] for -1. *)
Definition getcmd (nbuf : Z) : uprog (option (list Z)) :=
  _ ← uprintf 2 (str "$ ") [];
  buf ← ugets nbuf;
  mret (match cstr buf with [] => None | s => Some s end).

(** [while((fd = open("console", O_RDWR)) >= 0)] *)
Definition open_turn (_ : unit) : uprog (unit + unit) :=
  fd ← sys (Open (str "console") 2);
  if fd <? 0 then mret (inr tt)
  else if 3 <=? fd then _ ← sys (Close fd); mret (inr tt)
  else mret (inl tt).

(** One command; a command with a wild pointer has no meaning. *)
Definition sh_turn (_ : unit) : uprog (unit + unit) :=
  cmd ← getcmd 100;
  match cmd with
  | None => mret (inr tt)
  | Some s =>
      if bool_decide (take 3 s = str "cd ") then
        let path := drop 3 (take (length s - 1) s) in
        r ← sys (Chdir path);
        _ ← (if r <? 0 then uprintf 2 (line "cannot cd %s") [Str (Some path)] else mret tt);
        mret (inl tt)
      else
        pid ← sys Fork;
        _ ← (if pid =? -1 then calls (panic_exit "fork")
             else if pid =? 0 then match run_line s with Some p => calls p | None => ITree.spin end
             else mret tt);
        _ ← sys Wait;
        mret (inl tt)
  end.

Definition sh_main : uprog unit :=
  _ ← ITree.iter open_turn tt;
  _ ← ITree.iter sh_turn tt;
  uexit.
