(* ===== verification/Uprog.v ===== *)
(** * The user programs (echo.c, cat.c, wc.c, grep.c, ls.c, ln.c, rm.c, mkdir.c, kill.c, zombie.c, init.c, stressfs.c, forktest.c)

    [main] of every program as a tree of system calls; [argv] starts with the name of the program.  The theorems run them
    against a kernel that keeps files, open descriptors and what is written to the two output descriptors, and whose reads may
    return as little as one byte: [cat] prints the files it is given, [wc] their counts and [grep] what its line loop
    finds, each up to the first file that cannot be opened.  [forktest] ends with its success message on every
    process table with fewer than 1000 free slots. *)

From S2P Require Import Prelude Kdata Fs Dir Grep Ulib Usys.
From stdpp Require Import list strings gmap.
From ITree Require Import Core.ITreeDefinition.
Open Scope Z_scope.

(** ** echo.c *)

Fixpoint echo_loop (args : list (list Z)) : uprog unit :=
  match args with
  | [] => mret tt
  | a :: rest =>
      _ ← uprintf 1 (str "%s%s") [Str (Some a); Str (Some (match rest with [] => [10] | _ => [32] end))];
      echo_loop rest
  end.
Definition echo_main (argv : list (list Z)) : uprog unit := _ ← echo_loop (tail argv); uexit.

(** ** cat.c *)

Definition cat_turn (fd : Z) (_ : unit) : uprog (unit + unit) :=
  r ← sys (Read fd 512);
  match r with
  | None => _ ← uprintf 1 (line "cat: read error") []; uexit
  | Some [] => mret (inr tt)
  | Some bs =>
      n ← sys (Write 1 bs);
      if negb (n =? Z.of_nat (length bs)) then _ ← uprintf 1 (line "cat: write error") []; uexit
      else mret (inl tt)
  end.
Definition cat (fd : Z) : uprog unit := ITree.iter (cat_turn fd) tt.

(** [for(i = 1; i < argc; i++)]: open the file, [f(fd, argv[i])], close it; the message when it cannot be opened. *)
Fixpoint for_files (msg : list Z) (f : Z -> list Z -> uprog unit) (args : list (list Z)) : uprog unit :=
  match args with
  | [] => uexit
  | a :: args =>
      fd ← sys (Open a 0);
      if fd <? 0 then _ ← uprintf 1 msg [Str (Some a)]; uexit
      else
        _ ← f fd a;
        _ ← sys (Close fd);
        for_files msg f args
  end.

Definition cat_main (argv : list (list Z)) : uprog unit :=
  match tail argv with
  | [] => _ ← cat 0; uexit
  | args => for_files (line "cat: cannot open %s") (fun fd _ => cat fd) args
  end.

(** ** wc.c *)

Definition wc_turn (fd : Z) (name : list Z) (k : counts) : uprog (counts + unit) :=
  r ← sys (Read fd 512);
  match r with
  | None => _ ← uprintf 1 (line "wc: read error") []; uexit
  | Some [] =>
      _ ← uprintf 1 (line "%d %d %d %s") [Int (wc_l k); Int (wc_w k); Int (wc_c k); Str (Some name)];
      mret (inr tt)
  | Some bs => mret (inl (foldl wc_char k bs))
  end.
Definition wc (fd : Z) (name : list Z) : uprog unit := ITree.iter (wc_turn fd name) (mkCounts 0 0 0 false).

Definition wc_main (argv : list (list Z)) : uprog unit :=
  match tail argv with
  | [] => _ ← wc 0 []; uexit
  | args => for_files (line "wc: cannot open %s") wc args
  end.

(** ** grep.c *)

(** The inner loop: every line that matches is written; the text after the last newline is returned. *)
Fixpoint grep_line_loop (n : nat) (pattern p : list Z) : uprog (list Z) :=
  match n with
  | O => mret p
  | S n =>
      match split_line p with
      | None => mret p
      | Some (l, rest) =>
          _ ← (if grep_match pattern l then sys (Write 1 (l ++ [NEWLINE])) else mret 0);
          grep_line_loop n pattern rest
      end
  end.

(** [held] are the [m] bytes kept at the start of the buffer of 1024. *)
Definition grep_turn (pattern : list Z) (fd : Z) (held : list Z) : uprog (list Z + unit) :=
  r ← sys (Read fd (1024 - Z.of_nat (length held) - 1));
  match r with
  | Some ((_ :: _) as chunk) =>
      let buf := held ++ chunk in
      p ← grep_line_loop (length buf) pattern buf;
      mret (inl (if bool_decide (length p = length buf) then [] else p))
  | _ => mret (inr tt)
  end.
Definition grep_fd (pattern : list Z) (fd : Z) : uprog unit := ITree.iter (grep_turn pattern fd) [].

Definition grep_main (argv : list (list Z)) : uprog unit :=
  match tail argv with
  | [] => _ ← uprintf 2 (line "usage: grep pattern [file ...]") []; uexit
  | [pattern] => _ ← grep_fd pattern 0; uexit
  | pattern :: args => for_files (line "grep: cannot open %s") (fun fd _ => grep_fd pattern fd) args
  end.

(** ** ls.c *)

(** [printf(1, "%s %d %d %d\n", fmtname(path), st.type, st.ino, st.size)] *)
Definition ls_print (path : list Z) (st : stat) : uprog unit :=
  uprintf 1 (line "%s %d %d %d") [Str (Some (fmtname path)); Int (st_type st); Int (st_ino st); Int (st_size st)].

(** One entry of a directory: [buf] holds the path, a slash and the name up to its first NUL. *)
Definition ls_turn (fd : Z) (path : list Z) (_ : unit) : uprog (unit + unit) :=
  r ← sys (Read fd (Z.of_nat sizeof_dirent));
  match r with
  | Some bs =>
      if bool_decide (length bs = sizeof_dirent) then
        let de := get_dirent bs in
        if de_inum de =? 0 then mret (inl tt)
        else
          let buf := path ++ [slash] ++ name_str (de_name de) in
          st ← ustat buf;
          match st with
          | None => _ ← uprintf 1 (line "ls: cannot stat %s") [Str (Some buf)]; mret (inl tt)
          | Some st => _ ← ls_print buf st; mret (inl tt)
          end
      else mret (inr tt)
  | None => mret (inr tt)
  end.

Definition ls (path : list Z) : uprog unit :=
  fd ← sys (Open path 0);
  if fd <? 0 then uprintf 2 (line "ls: cannot open %s") [Str (Some path)]
  else
    st ← sys (Fstat fd);
    match st with
    | None =>
        _ ← uprintf 2 (line "ls: cannot stat %s") [Str (Some path)];
        _ ← sys (Close fd);
        mret tt
    | Some st =>
        _ ← (if st_type st =? T_FILE then ls_print path st
             else if st_type st =? T_DIR then
               if 512 <? Z.of_nat (length path + 1 + DIRSIZ + 1) then uprintf 1 (line "ls: path too long") []
               else ITree.iter (ls_turn fd path) tt
             else mret tt);
        _ ← sys (Close fd);
        mret tt
    end.

Fixpoint ls_loop (args : list (list Z)) : uprog unit :=
  match args with
  | [] => uexit
  | a :: args => _ ← ls a; ls_loop args
  end.
Definition ls_main (argv : list (list Z)) : uprog unit :=
  match tail argv with
  | [] => _ ← ls (str "."); uexit
  | args => ls_loop args
  end.

(** ** ln.c, rm.c, mkdir.c, kill.c, zombie.c *)

Definition ln_main (argv : list (list Z)) : uprog unit :=
  match argv with
  | [_; old; new] =>
      r ← sys (Link old new);
      _ ← (if r <? 0 then uprintf 2 (line "link %s %s: failed") [Str (Some old); Str (Some new)] else mret tt);
      uexit
  | _ => _ ← uprintf 2 (line "Usage: ln old new") []; uexit
  end.

(** [for(i = 1; i < argc; i++) if(f(argv[i]) < 0){ printf(2, msg, argv[i]); break; }] *)
Fixpoint for_names (msg : list Z) (f : list Z -> sysE Z) (args : list (list Z)) : uprog unit :=
  match args with
  | [] => uexit
  | a :: args =>
      r ← sys (f a);
      if r <? 0 then _ ← uprintf 2 msg [Str (Some a)]; uexit else for_names msg f args
  end.

Definition rm_main (argv : list (list Z)) : uprog unit :=
  match tail argv with
  | [] => _ ← uprintf 2 (line "Usage: rm files...") []; uexit
  | args => for_names (line "rm: %s failed to delete") Unlink args
  end.

Definition mkdir_main (argv : list (list Z)) : uprog unit :=
  match tail argv with
  | [] => _ ← uprintf 2 (line "Usage: mkdir files...") []; uexit
  | args => for_names (line "mkdir: %s failed to create") Mkdir args
  end.

Fixpoint kill_loop (args : list (list Z)) : uprog unit :=
  match args with
  | [] => uexit
  | a :: args => _ ← sys (Kill (default 0 (atoi (a ++ [0])))); kill_loop args
  end.
Definition kill_main (argv : list (list Z)) : uprog unit :=
  match tail argv with
  | [] => _ ← uprintf 2 (line "usage: kill pid...") []; uexit
  | args => kill_loop args
  end.

Definition zombie_main : uprog unit :=
  pid ← sys Fork;
  _ ← (if 0 <? pid then sys (Sleep 5) else mret 0);
  uexit.

(** ** init.c *)

(** [while((wpid = wait()) >= 0 && wpid != pid) printf(1, "zombie!\n");] *)
Definition init_reap (pid : Z) (_ : unit) : uprog (unit + unit) :=
  wpid ← sys Wait;
  if (0 <=? wpid) && negb (wpid =? pid) then _ ← uprintf 1 (line "zombie!") []; mret (inl tt) else mret (inr tt).

Definition init_turn (_ : unit) : uprog (unit + unit) :=
  _ ← uprintf 1 (line "init: starting sh") [];
  pid ← sys Fork;
  if pid <? 0 then _ ← uprintf 1 (line "init: fork failed") []; uexit
  else if pid =? 0 then
    _ ← sys (Exec (str "sh") [str "sh"]);
    _ ← uprintf 1 (line "init: exec sh failed") [];
    uexit
  else
    _ ← ITree.iter (init_reap pid) tt;
    mret (inl tt).

(** The three descriptors on the console. *)
Definition init_open : uprog unit :=
  fd ← sys (Open (str "console") 2);
  _ ← (if fd <? 0 then _ ← sys (Mknod (str "console") 1 1); sys (Open (str "console") 2) else mret 0);
  _ ← sys (Dup 0);
  _ ← sys (Dup 0);
  mret tt.
Definition init_main : uprog unit := _ ← init_open; ITree.iter init_turn tt.

(** ** stressfs.c *)

(** [for(i = 0; i < 4; i++) if(fork() > 0) break;] with [togo] turns to go. *)
Fixpoint stress_forks (togo : nat) (i : Z) : uprog Z :=
  match togo with
  | O => mret i
  | S togo => pid ← sys Fork; if 0 <? pid then mret i else stress_forks togo (i + 1)
  end.

Fixpoint times (n : nat) (c : uprog unit) : uprog unit :=
  match n with
  | O => mret tt
  | S n => _ ← c; times n c
  end.

Definition stressfs_main : uprog unit :=
  _ ← uprintf 1 (line "stressfs starting") [];
  let data := replicate 512 97 in
  i ← stress_forks 4 0;
  _ ← uprintf 1 (line "write %d") [Int i];
  let path := str "stressfs" ++ [48 + i] in
  fd ← sys (Open path (Z.lor 0x200 2));
  _ ← times 20 (_ ← sys (Write fd data); mret tt);
  _ ← sys (Close fd);
  _ ← uprintf 1 (line "read") [];
  fd ← sys (Open path 0);
  _ ← times 20 (_ ← sys (Read fd 512); mret tt);
  _ ← sys (Close fd);
  _ ← sys Wait;
  uexit.

(** ** forktest.c *)

(** Its own [printf]: [write(fd, s, strlen(s))]. *)
Definition ft_print (s : list Z) : uprog unit := _ ← sys (Write 1 s); mret tt.

Definition N : nat := 1000.

(** [for(n=0; n<N; n++)], with [togo] turns to go: the number of children. *)
Fixpoint ft_forks (togo n : nat) : uprog nat :=
  match togo with
  | O => mret n
  | S togo =>
      pid ← sys Fork;
      if pid <? 0 then mret n else if pid =? 0 then uexit else ft_forks togo (S n)
  end.

Fixpoint ft_waits (n : nat) : uprog unit :=
  match n with
  | O => mret tt
  | S n =>
      r ← sys Wait;
      if r <? 0 then _ ← ft_print (line "wait stopped early"); uexit else ft_waits n
  end.

Definition forktest : uprog unit :=
  _ ← ft_print (line "fork test");
  n ← ft_forks N 0;
  _ ← (if bool_decide (n = N) then _ ← ft_print (line "fork claimed to work N times!"); uexit else mret tt);
  _ ← ft_waits n;
  r ← sys Wait;
  _ ← (if negb (r =? -1) then _ ← ft_print (line "wait got too many"); uexit else mret tt);
  ft_print (line "fork test OK").
Definition forktest_main : uprog unit := _ ← forktest; uexit.

(** ** A kernel with files *)

(** The files by name, the bytes that each open descriptor has left, and the output and error output so far. *)
Record ukern := mkUk { u_files : gmap (list Z) (list Z); u_fds : gmap Z (list Z); u_out : list Z; u_err : list Z }.

Definition u_opened (fd : Z) (c : list Z) (s : ukern) : ukern := mkUk (u_files s) (<[fd := c]> (u_fds s)) (u_out s) (u_err s).
Definition u_closed (fd : Z) (s : ukern) : ukern := mkUk (u_files s) (delete fd (u_fds s)) (u_out s) (u_err s).
Definition u_wrote (bs : list Z) (s : ukern) : ukern := mkUk (u_files s) (u_fds s) (u_out s ++ bs) (u_err s).

(** A read returns some bytes, at most the [n] asked for, and none only at the end of the file. *)
Definition ukernel (s : ukern) X (e : sysE X) : X -> ukern -> Prop :=
  match e in sysE X return X -> ukern -> Prop with
  | Open path mode => fun r s' =>
      match u_files s !! path with
      | Some c => 3 <= r /\ u_fds s !! r = None /\ s' = u_opened r c s
      | None => r = -1 /\ s' = s
      end
  | Read fd n => fun r s' => exists bs rest,
      u_fds s !! fd = Some (bs ++ rest) /\ Z.of_nat (length bs) <= n /\ (bs = [] -> rest = []) /\
      r = Some bs /\ s' = u_opened fd rest s
  | Write fd bs => fun r s' =>
      r = Z.of_nat (length bs) /\
      (fd = 1 /\ s' = u_wrote bs s \/ fd = 2 /\ s' = mkUk (u_files s) (u_fds s) (u_out s) (u_err s ++ bs))
  | Close fd => fun r s' => u_fds s !! fd ≠ None /\ r = 0 /\ s' = u_closed fd s
  | _ => fun _ _ => False
  end.

Abbreviation uensures := (ensures ukernel).

Lemma u_wrote_nil s : u_wrote [] s = s.
Proof. destruct s. unfold u_wrote. cbn. by rewrite app_nil_r. Qed.

Lemma u_wrote_app a b s : u_wrote b (u_wrote a s) = u_wrote (a ++ b) s.
Proof. unfold u_wrote. cbn. by rewrite app_assoc. Qed.

Lemma ensures_write bs (Q : Z -> ukern -> Prop) E s : Q (Z.of_nat (length bs)) (u_wrote bs s) -> uensures Q E (sys (Write 1 bs)) s.
Proof.
  intros HQ. apply ensures_sys; [eexists _, _; split; [reflexivity|]; left; by split|].
  intros r s' [-> [[_ ->]|[? _]]]; done.
Qed.

Lemma ensures_putcs bs (Q : unit -> ukern -> Prop) E : forall s, Q tt (u_wrote bs s) -> uensures Q E (putcs 1 bs) s.
Proof.
  induction bs as [|c bs IH]; intros s HQ; [rewrite u_wrote_nil in HQ; by apply ensures_ret|].
  cbn [putcs]. apply ensures_ubind, ensures_write, IH. by rewrite u_wrote_app.
Qed.

Lemma ensures_printf fmt ap out (Q : unit -> ukern -> Prop) E s :
  printf_loop fmt false ap = Some out -> Q tt (u_wrote out s) -> uensures Q E (uprintf 1 fmt ap) s.
Proof. intros Hout HQ. unfold uprintf. rewrite Hout. by apply ensures_putcs. Qed.

(** A read of at least one byte. *)
Lemma ensures_read fd n c (Q : option (list Z) -> ukern -> Prop) E s :
  u_fds s !! fd = Some c -> 1 <= n ->
  (forall bs rest, c = bs ++ rest -> Z.of_nat (length bs) <= n -> (bs = [] -> rest = []) -> Q (Some bs) (u_opened fd rest s)) ->
  uensures Q E (sys (Read fd n)) s.
Proof.
  intros Hfd Hn HQ. apply ensures_sys.
  - exists (Some (take 1 c)), (u_opened fd (drop 1 c) s), (take 1 c), (drop 1 c). rewrite take_drop. split_and!; [done| | |done|done].
    + rewrite length_take. lia.
    + by destruct c.
  - intros r s' (bs & rest & Hfd' & Hlen & Hend & -> & ->). rewrite Hfd in Hfd'. injection Hfd' as ->. by apply HQ.
Qed.

Lemma u_opened_opened fd a b s : u_opened fd b (u_opened fd a s) = u_opened fd b s.
Proof. unfold u_opened. cbn. by rewrite insert_insert_eq. Qed.

Lemma u_opened_same fd c s : u_fds s !! fd = Some c -> u_opened fd c s = s.
Proof. intros H. destruct s as [fs fds o e]. unfold u_opened. cbn in *. by rewrite insert_id. Qed.

(** A loop that consumes what is left of a file. *)
Lemma ensures_consume {I} (f : I -> uprog (I + unit)) (P : I -> list Z -> ukern -> Prop) (Q : unit -> ukern -> Prop) E :
  (forall i c s, P i c s -> uensures (fun r s' => match r with
     | inl i' => exists c', (length c' < length c)%nat /\ P i' c' s' | inr r => Q r s' end) E (f i) s) ->
  forall i c s, P i c s -> uensures Q E (ITree.iter f i) s.
Proof.
  intros Hf i c. remember (length c) as n eqn:Hn. revert i c Hn. induction (lt_wf n) as [n _ IH]. intros i c -> s HP.
  apply ensures_iter. eapply ensures_umono; [by apply Hf| |done]. intros [i'|r] s' H; [|done].
  destruct H as (c' & Hlt & HP'). by eapply IH.
Qed.

(** [cat] copies what is left. *)
Lemma ensures_cat fd (Q : unit -> ukern -> Prop) E c s :
  u_fds s !! fd = Some c -> Q tt (u_wrote c (u_opened fd [] s)) -> uensures Q E (cat fd) s.
Proof.
  intros Hfd HQ. unfold cat.
  apply (ensures_consume _ (fun _ r s' => u_fds s' !! fd = Some r /\ u_wrote r (u_opened fd [] s') = u_wrote c (u_opened fd [] s)) Q E)
    with (c := c); [|done]. clear Hfd. intros [] r s' [Hfd Hsame]. unfold cat_turn. apply ensures_ubind.
  eapply ensures_read; [exact Hfd|lia|]. intros [|b bs] rest -> Hlen Hend.
  - specialize (Hend eq_refl) as ->. apply ensures_ret. cbn [app] in Hsame. rewrite u_wrote_nil in Hsame. by rewrite Hsame.
  - apply ensures_ubind, ensures_write. rewrite Z.eqb_refl. cbn [negb]. apply ensures_ret. exists rest. split; [cbn; rewrite length_app; lia|].
    split; [apply lookup_insert_eq|]. rewrite <- Hsame. unfold u_wrote, u_opened. cbn [u_files u_fds u_out u_err]. by rewrite insert_insert_eq, <- app_assoc.
Qed.

(** The text [wc] prints for a file. *)
Definition wc_text (name c : list Z) : list Z :=
  default [] (printf_loop (line "%d %d %d %s") false
    [Int (newlines c); Int (words_in false c); Int (Z.of_nat (length c)); Str (Some name)]).

Lemma ensures_wc fd name (Q : unit -> ukern -> Prop) E c s :
  u_fds s !! fd = Some c -> Z.of_nat (length c) < 2 ^ 31 -> Q tt (u_wrote (wc_text name c) (u_opened fd [] s)) ->
  uensures Q E (wc fd name) s.
Proof.
  intros Hfd Hc HQ. unfold wc. set (k0 := mkCounts 0 0 0 false).
  apply (ensures_consume _ (fun k r s' => u_fds s' !! fd = Some r /\ u_opened fd [] s' = u_opened fd [] s /\
    foldl wc_char k r = foldl wc_char k0 c) Q E) with (c := c); [|done].
  clear Hfd. intros k r s' (Hfd & Hsame & Hk). unfold wc_turn. apply ensures_ubind.
  eapply ensures_read; [exact Hfd|lia|]. intros [|b bs] rest -> Hlen Hend.
  - specialize (Hend eq_refl) as ->. cbn [foldl app] in Hk. destruct (wc_run c k0) as (H1 & H2 & H3); [done|done|done|].
    rewrite <- Hk in H1, H2, H3. apply ensures_ubind. eapply ensures_printf; [reflexivity|]. apply ensures_ret.
    rewrite Hsame. rewrite H1, H2, H3. exact HQ.
  - apply ensures_ret. exists rest. split; [cbn; rewrite length_app; lia|]. split; [apply lookup_insert_eq|]. split.
    + rewrite <- Hsame. apply u_opened_opened.
    + rewrite <- Hk. by rewrite foldl_app.
Qed.

(** The inner loop writes what [grep_lines] finds. *)
Lemma ensures_grep_lines pattern n (Q : list Z -> ukern -> Prop) E : forall p s,
  Q (grep_lines n pattern p).2 (u_wrote (grep_lines n pattern p).1 s) -> uensures Q E (grep_line_loop n pattern p) s.
Proof.
  induction n as [|n IH]; intros p s HQ; cbn [grep_line_loop grep_lines] in *; [rewrite u_wrote_nil in HQ; by apply ensures_ret|].
  destruct (split_line p) as [[l rest]|]; [|rewrite u_wrote_nil in HQ; by apply ensures_ret].
  destruct (grep_lines n pattern rest) as [out p'] eqn:Hg. cbn [fst snd] in HQ. rewrite <- u_wrote_app in HQ. apply ensures_ubind.
  destruct (grep_match pattern l).
  - apply ensures_write, IH. by rewrite Hg.
  - rewrite u_wrote_nil in HQ. apply ensures_ret, IH. by rewrite Hg.
Qed.

Lemma grep_lines_length n pattern : forall p, (length (grep_lines n pattern p).2 <= length p)%nat.
Proof.
  induction n as [|n IH]; intros p; cbn [grep_lines]; [done|]. destruct (split_line p) as [[l rest]|] eqn:Hs; [|done].
  specialize (IH rest). destruct (grep_lines n pattern rest) as [out p']. cbn [snd] in *.
  assert (Hlt : (length rest < length p)%nat); [|lia]. clear IH. revert l Hs. induction p as [|c p IHp]; intros l Hs; [done|]. cbn [split_line length] in *.
  destruct (c =? 0); [done|]. destruct (c =? NEWLINE); [injection Hs as <- <-; lia|].
  destruct (split_line p) as [[l0 r0]|]; [|done]. injection Hs as <- ->. specialize (IHp _ eq_refl). lia.
Qed.

(** [grep] prints what the model of its loop prints, for some split of the file into reads. *)
Lemma ensures_grep pattern fd (Q : unit -> ukern -> Prop) E c s :
  u_fds s !! fd = Some c ->
  (forall reads, concat reads = c -> Forall (fun r => r ≠ []) reads -> Q tt (u_wrote (grep pattern reads) (u_opened fd [] s))) ->
  uensures Q E (grep_fd pattern fd) s.
Proof.
  intros Hfd HQ. unfold grep_fd.
  apply (ensures_consume _ (fun held r s' => u_fds s' !! fd = Some r /\ (length held <= 1022)%nat /\
    forall reads, concat reads = r -> Forall (fun r => r ≠ []) reads -> Q tt (u_wrote (grep_reads pattern held reads) (u_opened fd [] s'))) Q E)
    with (c := c); [|by split; [done|]; split; [cbn; lia|]]. clear Hfd HQ. intros held r s' (Hfd & Hheld & HQ). unfold grep_turn. apply ensures_ubind.
  eapply ensures_read; [exact Hfd|lia|]. intros [|b bs] rest -> Hlen Hend.
  - specialize (Hend eq_refl) as ->. apply ensures_ret. specialize (HQ [] eq_refl (Forall_nil_2 _)). cbn [grep_reads] in HQ. by rewrite u_wrote_nil in HQ.
  - set (chunk := b :: bs) in *. apply ensures_ubind, ensures_grep_lines, ensures_ret. exists rest.
    split; [unfold chunk; cbn; rewrite length_app; lia|]. split; [apply lookup_insert_eq|].
    pose proof (grep_lines_length (length (held ++ chunk)) pattern (held ++ chunk)) as Hp.
    destruct (grep_lines (length (held ++ chunk)) pattern (held ++ chunk)) as [out p] eqn:Hg. cbn [fst snd] in *. split.
    + pose proof (length_app held chunk) as Hl. case_bool_decide; [cbn; lia|]. lia.
    + intros reads Hreads Hne. specialize (HQ (chunk :: reads)). cbn [concat grep_reads] in HQ. rewrite Hg in HQ.
      specialize (HQ ltac:(by rewrite Hreads) ltac:(by constructor)). rewrite <- u_wrote_app in HQ.
      unfold u_wrote, u_opened in *. cbn [u_files u_fds u_out u_err] in *. by rewrite insert_insert_eq.
Qed.

(** ** Several files *)

(** [out] is what is printed for the files [args] in turn: [T] relates a name and its contents to the text; the first name without a file
    gives the message. *)
Fixpoint files_text (fs : gmap (list Z) (list Z)) (msg : list Z) (T : list Z -> list Z -> list Z -> Prop) (args : list (list Z)) (out : list Z) : Prop :=
  match args with
  | [] => out = []
  | a :: args =>
      match fs !! a with
      | None => printf_loop msg false [Str (Some a)] = Some out
      | Some c => exists o1 o2, out = o1 ++ o2 /\ T a c o1 /\ files_text fs msg T args o2
      end
  end.

Lemma fresh_fd (m : gmap Z (list Z)) : exists fd, 3 <= fd /\ m !! fd = None.
Proof.
  destruct (exist_fresh (set_map (fun z => Z.to_nat (z - 3)) (dom m) : gset nat)) as [n Hn]. exists (Z.of_nat n + 3). split; [lia|].
  apply not_elem_of_dom. intros Hin. apply Hn, elem_of_map. exists (Z.of_nat n + 3). split; [lia|done].
Qed.

Lemma ensures_open path mode (Q : Z -> ukern -> Prop) E s :
  (forall c fd, u_files s !! path = Some c -> 3 <= fd -> u_fds s !! fd = None -> Q fd (u_opened fd c s)) ->
  (u_files s !! path = None -> Q (-1) s) -> uensures Q E (sys (Open path mode)) s.
Proof.
  intros Hsome Hnone. apply ensures_sys; cbn [ukernel].
  - destruct (u_files s !! path) as [c|]; [|by exists (-1), s]. destruct (fresh_fd (u_fds s)) as (fd & Hfd & Hfree). by exists fd, (u_opened fd c s).
  - intros r s' Hr. destruct (u_files s !! path) as [c|]; [|by destruct Hr as [-> ->]; apply Hnone].
    destruct Hr as (Hr & Hfree & ->). by apply Hsome.
Qed.

Lemma ensures_close fd (Q : Z -> ukern -> Prop) E s :
  u_fds s !! fd ≠ None -> Q 0 (u_closed fd s) -> uensures Q E (sys (Close fd)) s.
Proof. intros Hfd HQ. apply ensures_sys; [by exists 0, (u_closed fd s)|]. by intros r s' (_ & -> & ->). Qed.

Lemma ensures_files msg T f (ok : list Z -> Prop) args : forall s,
  (forall a, is_Some (printf_loop msg false [Str (Some a)])) ->
  (forall fd a c s (Q : unit -> ukern -> Prop) E, u_fds s !! fd = Some c -> ok c ->
     (forall out, T a c out -> Q tt (u_wrote out (u_opened fd [] s))) -> uensures Q E (f fd a) s) ->
  (forall a c, a ∈ args -> u_files s !! a = Some c -> ok c) ->
  forall E : ukern -> Prop, (forall out, files_text (u_files s) msg T args out -> E (u_wrote out s)) ->
  uensures (fun _ _ => False) E (for_files msg f args) s.
Proof.
  induction args as [|a args IH]; intros s Hmsg Hf Hok E HE; cbn [for_files files_text] in *.
  { apply ensures_exit. rewrite <- (u_wrote_nil s). by apply HE. }
  apply ensures_ubind, ensures_open.
  - intros c fd Ha Hfd Hfree. rewrite (proj2 (Z.ltb_ge fd 0)) by lia. rewrite Ha in HE.
    apply ensures_ubind. eapply (Hf fd a c); [apply lookup_insert_eq|eapply Hok; [apply elem_of_cons; by left|exact Ha]|].
    intros out Hout. apply ensures_ubind, ensures_close; [unfold u_wrote, u_opened; cbn [u_fds]; by rewrite lookup_insert_eq|].
    assert (Hs : u_closed fd (u_wrote out (u_opened fd [] (u_opened fd c s))) = u_wrote out s).
    { destruct s as [fs fds o e]. unfold u_closed, u_wrote, u_opened. cbn [u_files u_fds u_out u_err] in *. by rewrite insert_insert_eq, delete_insert_id. }
    rewrite Hs. apply IH; [done|done| |].
    + intros b d Hb. apply Hok. apply elem_of_cons. by right.
    + intros o2 Ho2. rewrite u_wrote_app. apply HE. by exists out, o2.
  - intros Ha. cbn [Z.ltb Z.compare]. destruct (Hmsg a) as [out Hout]. apply ensures_ubind. eapply ensures_printf; [exact Hout|].
    apply ensures_exit. apply HE. by rewrite Ha.
Qed.

Lemma printf_named pre a : forallb (fun c => negb (c =? 37)) (str pre) = true ->
  is_Some (printf_loop (line (pre ++ "%s")) false [Str (Some a)]).
Proof.
  unfold line. intros H. rewrite str_app. change (str "%s") with [37; 115]. induction (str pre) as [|c l IH]; [cbn; by eexists|]. cbn [forallb] in H. apply andb_true_iff in H as [Hc H].
  cbn [app printf_loop negb]. rewrite (proj1 (negb_true_iff _) Hc). destruct (IH H) as [out Hout]. rewrite Hout. by eexists.
Qed.

(** What grep prints for a file: its line loop, on some split of the file into reads. *)
Definition grep_text (pattern _name c out : list Z) : Prop :=
  exists reads, concat reads = c /\ Forall (fun r => r ≠ []) reads /\ out = grep pattern reads.

(** C38.  [cat], [wc] and [grep] on a list of files, however the kernel cuts their reads: each program ends by [exit] with its descriptors closed,
    having printed for the files in turn, up to the first that does not exist and for which it prints its message, the
    contents of the file, the number of its lines, words and bytes (when it has less than 2^31 bytes), or what the line loop
    of grep prints for some split of the file into reads. *)
Theorem filters_print s name pattern args :
  args ≠ [] -> (forall a c, a ∈ args -> u_files s !! a = Some c -> Z.of_nat (length c) < 2 ^ 31) ->
  let prints T msg s' := exists out, files_text (u_files s) (line msg) T args out /\ s' = u_wrote out s in
  ensures ukernel (fun _ _ => False) (prints (fun _ c out => out = c) "cat: cannot open %s") (cat_main (name :: args)) s /\
  ensures ukernel (fun _ _ => False) (prints (fun a c out => out = wc_text a c) "wc: cannot open %s") (wc_main (name :: args)) s /\
  ensures ukernel (fun _ _ => False) (prints (grep_text pattern) "grep: cannot open %s") (grep_main (name :: pattern :: args)) s.
Proof.
  intros Hargs Hsize prints. destruct args as [|a args]; [done|]. cbn [cat_main wc_main grep_main tail]. split_and!.
  - apply (ensures_files _ (fun _ c out => out = c) _ (fun _ => True)); [intros b; by apply (printf_named "cat: cannot open ")| |done|].
    + intros fd b c s0 Q E Hfd _ HQ. eapply ensures_cat; [exact Hfd|by apply HQ].
    + intros out Hout. by exists out.
  - apply (ensures_files _ (fun b c out => out = wc_text b c) _ (fun c => Z.of_nat (length c) < 2 ^ 31));
      [intros b; by apply (printf_named "wc: cannot open ")| |done|].
    + intros fd b c s0 Q E Hfd Hc HQ. eapply ensures_wc; [exact Hfd|exact Hc|by apply HQ].
    + intros out Hout. by exists out.
  - apply (ensures_files _ (grep_text pattern) _ (fun _ => True)); [intros b; by apply (printf_named "grep: cannot open ")| |done|].
    + intros fd b c s0 Q E Hfd _ HQ. eapply ensures_grep; [exact Hfd|]. intros reads Hr Hne. apply HQ. by exists reads.
    + intros out Hout. by exists out.
Qed.

(** ** forktest *)

(** The free slots of the process table, the children of the caller and what it wrote. *)
Record fkern := mkFk { f_slots : nat; f_kids : nat; f_out : list Z }.

Definition fkernel (s : fkern) X (e : sysE X) : X -> fkern -> Prop :=
  match e in sysE X return X -> fkern -> Prop with
  | Fork => fun r s' =>
      match f_slots s with
      | O => r = -1 /\ s' = s
      | S n => 0 < r /\ s' = mkFk n (S (f_kids s)) (f_out s)
      end
  | Wait => fun r s' =>
      match f_kids s with
      | O => r = -1 /\ s' = s
      | S n => 0 < r /\ s' = mkFk (S (f_slots s)) n (f_out s)
      end
  | Write fd bs => fun r s' => fd = 1 /\ r = Z.of_nat (length bs) /\ s' = mkFk (f_slots s) (f_kids s) (f_out s ++ bs)
  | _ => fun _ _ => False
  end.

Lemma ensures_ft_print bs (Q : unit -> fkern -> Prop) E s :
  Q tt (mkFk (f_slots s) (f_kids s) (f_out s ++ bs)) -> ensures fkernel Q E (ft_print bs) s.
Proof.
  intros HQ. apply ensures_ubind, ensures_sys; [eexists _, _; by split|]. intros r s' (_ & _ & ->). by apply ensures_ret.
Qed.

Lemma ensures_ft_forks togo (Q : nat -> fkern -> Prop) E : forall n s,
  (f_slots s < togo)%nat -> Q (n + f_slots s)%nat (mkFk 0 (f_kids s + f_slots s) (f_out s)) -> ensures fkernel Q E (ft_forks togo n) s.
Proof.
  induction togo as [|togo IH]; intros n [slots kids out] Hlt HQ; cbn [f_slots f_kids f_out] in *; [lia|]. cbn [ft_forks].
  apply ensures_ubind, ensures_sys; cbn [fkernel f_slots]; destruct slots as [|slots].
  - by exists (-1), (mkFk 0 kids out).
  - by exists 1, (mkFk slots (S kids) out).
  - intros r s' [-> ->]. apply ensures_ret. by rewrite !Nat.add_0_r in HQ.
  - intros r s' [Hr ->]. rewrite (proj2 (Z.ltb_ge r 0)), (proj2 (Z.eqb_neq r 0)) by lia. apply IH; [cbn; lia|]. cbn [f_slots f_kids f_out].
    by replace (S n + slots)%nat with (n + S slots)%nat by lia; replace (S kids + slots)%nat with (kids + S slots)%nat by lia.
Qed.

Lemma ensures_ft_waits n (Q : unit -> fkern -> Prop) E : forall s,
  f_kids s = n -> Q tt (mkFk (f_slots s + n) 0 (f_out s)) -> ensures fkernel Q E (ft_waits n) s.
Proof.
  induction n as [|n IH]; intros [slots kids out] Hk HQ; cbn [f_slots f_kids f_out] in *; subst kids; cbn [ft_waits];
    [apply ensures_ret; by rewrite Nat.add_0_r in HQ|].
  apply ensures_ubind, ensures_sys; [by exists 1, (mkFk (S slots) n out)|]. intros r s' [Hr ->].
  rewrite (proj2 (Z.ltb_ge r 0)) by lia. apply IH; [done|]. cbn [f_slots f_out]. by replace (S slots + n)%nat with (slots + S n)%nat by lia.
Qed.

(** [forktest], on a process table with fewer than 1000 free slots where every fork and wait of the parent succeeds as long as it can,
    fills the table, collects every child, leaves the table as it was and ends with its success message. *)
Theorem forktest_ok slots out :
  (slots < 1000)%nat ->
  ensures fkernel (fun _ _ => False) (fun s' => s' = mkFk slots 0 (out ++ line "fork test" ++ line "fork test OK"))
    forktest_main (mkFk slots 0 out).
Proof.
  intros Hslots. unfold forktest_main, forktest. apply ensures_ubind, ensures_ubind, ensures_ft_print. cbn [f_slots f_kids f_out].
  apply ensures_ubind, ensures_ft_forks; [exact Hslots|]. cbn [f_slots f_kids f_out Nat.add].
  rewrite bool_decide_eq_false_2 by (unfold N; lia). apply ensures_ubind, ensures_ret, ensures_ubind, ensures_ft_waits; [done|].
  cbn [f_slots f_kids f_out Nat.add]. apply ensures_ubind, ensures_sys; [by exists (-1), (mkFk slots 0 (out ++ line "fork test"))|].
  intros r s' [-> ->]. apply ensures_ubind, ensures_ret, ensures_ft_print, ensures_exit. cbn [f_slots f_kids f_out]. by rewrite <- app_assoc.
Qed.

(** ** Examples *)

Definition ex_ukern : ukern := mkUk {[str "a" := str "x y" ++ [10]; str "b" := str "z"]} ∅ [] [].

Lemma filters_print_witness :
  ensures ukernel (fun _ _ => False) (fun s' => u_out s' = str "x y" ++ [10] ++ str "z" ++ line "cat: cannot open c")
    (cat_main [str "cat"; str "a"; str "b"; str "c"]) ex_ukern.
Proof.
  eapply ensures_umono; [apply (filters_print ex_ukern (str "cat") [] [str "a"; str "b"; str "c"])|done|].
  - discriminate.
  - intros a c _ Hc. unfold ex_ukern in Hc. cbn [u_files] in Hc. apply lookup_insert_Some in Hc as [[_ <-]|[_ Hc]]; [done|].
    by apply lookup_singleton_Some in Hc as [_ <-].
  - intros s' (out & Hout & ->). destruct Hout as (o1 & o2 & -> & -> & o3 & o4 & -> & -> & Ho). vm_compute in Ho. injection Ho as <-. reflexivity.
Defined.

Lemma forktest_ok_witness :
  ensures fkernel (fun _ _ => False) (fun s' => s' = mkFk 61 0 (line "fork test" ++ line "fork test OK")) forktest_main (mkFk 61 0 []).
Proof. apply (forktest_ok 61 []). lia. Defined.
