(* ===== verification/Assig.v ===== *)
(** * The test programs of the real-time scheduler (assig2_1.c to assig2_5.c, ppi.c)

    Each program makes itself and its children real-time processes and then loops for ever. *)

From S2P Require Import Prelude Ulib Usys.
From stdpp Require Import list strings gmap.
From ITree Require Import Core.ITreeDefinition.
Open Scope Z_scope.

(** ** The programs *)

(** [while(1) { }] *)
Definition busy {A} : uprog A := ITree.spin.

(** The loop over the children, with the value of [deadline_value] or [rate_value] and of [exectime] for each: the
    parent sets the parameters of the child and asks for the policy, the child loops. *)
Fixpoint spawn (param : Z -> Z -> sysE Z) (policy : Z) (tasks : list (Z * Z)) : uprog unit :=
  match tasks with
  | [] => mret tt
  | (v, t) :: tasks =>
      cid ← sys Fork;
      if negb (cid =? 0) then
        _ ← sys (param cid v);
        _ ← sys (ExecTime cid t);
        _ ← sys (SchedPolicy cid policy);
        spawn param policy tasks
      else busy
  end.

(** The calls of the parent, first for itself, with [v] and [t]. *)
Definition rt_setup (param : Z -> Z -> sysE Z) (policy v t : Z) (tasks : list (Z * Z)) : uprog unit :=
  parent_pid ← sys Getpid;
  _ ← sys (param parent_pid v);
  _ ← sys (ExecTime parent_pid t);
  _ ← sys (SchedPolicy parent_pid policy);
  spawn param policy tasks.

(** The body that the programs share. *)
Definition rt_main (param : Z -> Z -> sysE Z) (policy v t : Z) (tasks : list (Z * Z)) : uprog unit :=
  _ ← rt_setup param policy v t tasks;
  busy.

Definition assig2_1 : uprog unit := rt_main Deadline 0 19 4 [(18, 5); (24, 6); (21, 4)].
Definition assig2_2 : uprog unit := rt_main Rate 1 1 10 [(21, 1); (11, 2)].
Definition assig2_3 : uprog unit := rt_main Deadline 0 23 5 [(16, 4); (14, 9); (18, 6); (21, 8)].
Definition assig2_4 : uprog unit := rt_main Deadline 0 19 6 [(20, 8); (20, 4); (24, 5); (52, 4)].
Definition assig2_5 : uprog unit := rt_main Rate 1 2 5 [(22, 1); (11, 3); (4, 5); (2, 4)].
Definition ppi : uprog unit := rt_main Rate 1 1 10 [(21, 1); (11, 2)].
