(* ===== verification/Usertests.v ===== *)
(** * The kernel's test program (usertests.c)

    The tests of usertests.c as trees of system calls.  A test that uses the global [buf] takes its 8192 bytes and returns them as it leaves
    them; a test that ends the process calls [exit] after it has printed what went wrong.  [forever] and busy loops are the tree
    that never answers.  The tests that read or write memory at addresses they choose themselves ([mem], [sbrktest],
    [validatetest], [uio], [argptest]) are not trees of system calls; [main] takes them as arguments. *)

From S2P Require Import Prelude Kdata Ulib Usys.
From stdpp Require Import list strings gmap.
From ITree Require Import Core.ITreeDefinition.
Open Scope Z_scope.

(** ** Loops, messages and the buffer *)

(** A loop over [l] that carries a state. *)
Fixpoint carry {A S} (l : list A) (f : A -> S -> uprog S) (s : S) : uprog S :=
  match l with
  | [] => mret s
  | a :: l => s ← f a s; carry l f s
  end.
Definition each {A} (l : list A) (f : A -> uprog unit) : uprog unit := carry l (fun a _ => f a) tt.
Definition upto (n : nat) : list Z := Z.of_nat <$> seq 0 n.

(** [if(bad){ printf(1, msg, ...); exit(); }] *)
Definition oops (bad : bool) (msg : list Z) (ap : list arg) : uprog unit :=
  if bad then _ ← uprintf 1 msg ap; uexit else mret tt.
Definition say (msg : string) : uprog unit := uprintf 1 (line msg) [].

(** The calls whose result is not looked at. *)
Definition do_ (e : sysE Z) : uprog unit := _ ← sys e; mret tt.

(** What [read] returns, and what it leaves at the start of the buffer. *)
Definition count (r : option (list Z)) : Z := match r with None => -1 | Some bs => Z.of_nat (length bs) end.
Definition fill (r : option (list Z)) (buf : list Z) : list Z := match r with None => buf | Some bs => wr 0 bs buf end.
Definition char_of (buf : list Z) (i : nat) : Z := default 0 (buf !! i).

Definition sizeof_buf : nat := Z.to_nat 8192.
Definition buf0 : list Z := replicate sizeof_buf 0.

(** fcntl.h *)
Definition O_RDONLY : Z := 0.
Definition O_WRONLY : Z := 1.
Definition O_RDWR : Z := 2.
Definition O_CREATE : Z := 0x200.

(** ** Directories and inode references *)

Definition iputtest : uprog unit :=
  _ ← say "iput test";
  r ← sys (Mkdir (str "iputdir"));
  _ ← oops (r <? 0) (line "mkdir failed") [];
  r ← sys (Chdir (str "iputdir"));
  _ ← oops (r <? 0) (line "chdir iputdir failed") [];
  r ← sys (Unlink (str "../iputdir"));
  _ ← oops (r <? 0) (line "unlink ../iputdir failed") [];
  r ← sys (Chdir (str "/"));
  _ ← oops (r <? 0) (line "chdir / failed") [];
  say "iput test ok".

Definition exitiputtest : uprog unit :=
  _ ← say "exitiput test";
  pid ← sys Fork;
  _ ← oops (pid <? 0) (line "fork failed") [];
  _ ← (if pid =? 0 then
         r ← sys (Mkdir (str "iputdir"));
         _ ← oops (r <? 0) (line "mkdir failed") [];
         r ← sys (Chdir (str "iputdir"));
         _ ← oops (r <? 0) (line "child chdir failed") [];
         r ← sys (Unlink (str "../iputdir"));
         _ ← oops (r <? 0) (line "unlink ../iputdir failed") [];
         uexit
       else mret tt);
  _ ← sys Wait;
  say "exitiput test ok".

Definition openiputtest : uprog unit :=
  _ ← say "openiput test";
  r ← sys (Mkdir (str "oidir"));
  _ ← oops (r <? 0) (line "mkdir oidir failed") [];
  pid ← sys Fork;
  _ ← oops (pid <? 0) (line "fork failed") [];
  _ ← (if pid =? 0 then
         fd ← sys (Open (str "oidir") O_RDWR);
         _ ← oops (0 <=? fd) (line "open directory for write succeeded") [];
         uexit
       else mret tt);
  _ ← sys (Sleep 1);
  r ← sys (Unlink (str "oidir"));
  _ ← oops (negb (r =? 0)) (line "unlink failed") [];
  _ ← sys Wait;
  say "openiput test ok".

(** ** Simple file system tests *)

Definition opentest : uprog unit :=
  _ ← say "open test";
  fd ← sys (Open (str "echo") 0);
  _ ← oops (fd <? 0) (line "open echo failed!") [];
  _ ← sys (Close fd);
  fd ← sys (Open (str "doesnotexist") 0);
  _ ← oops (0 <=? fd) (line "open doesnotexist succeeded!") [];
  say "open test ok".

Definition writetest (buf : list Z) : uprog (list Z) :=
  _ ← say "small file test";
  fd ← sys (Open (str "small") (Z.lor O_CREATE O_RDWR));
  _ ← (if 0 <=? fd then say "creat small succeeded; ok" else oops true (line "error: creat small failed!") []);
  _ ← each (upto 100) (fun i =>
    r ← sys (Write fd (str "aaaaaaaaaa"));
    _ ← oops (negb (r =? 10)) (line "error: write aa %d new file failed") [Int i];
    r ← sys (Write fd (str "bbbbbbbbbb"));
    oops (negb (r =? 10)) (line "error: write bb %d new file failed") [Int i]);
  _ ← say "writes ok";
  _ ← sys (Close fd);
  fd ← sys (Open (str "small") O_RDONLY);
  _ ← (if 0 <=? fd then say "open small succeeded ok" else oops true (line "error: open small failed!") []);
  r ← sys (Read fd 2000);
  _ ← (if count r =? 2000 then say "read succeeded ok" else oops true (line "read failed") []);
  _ ← sys (Close fd);
  u ← sys (Unlink (str "small"));
  _ ← oops (u <? 0) (line "unlink small failed") [];
  _ ← say "small file test ok";
  mret (fill r buf).

(** The [for(;;)] of [writetest1], with [n] blocks read. *)
Definition big_read_turn (fd : Z) (nb : Z * list Z) : uprog (Z * list Z + list Z) :=
  let '(n, buf) := nb in
  r ← sys (Read fd 512);
  let i := count r in
  let buf := fill r buf in
  if i =? 0 then
    _ ← oops (n =? MAXFILE - 1) (str "read only %d blocks from big") [Int n];
    mret (inr buf)
  else
    _ ← oops (negb (i =? 512)) (line "read failed %d") [Int i];
    _ ← oops (negb (s32 (get32 0 buf) =? n)) (line "read content of block %d is %d") [Int n; Int (s32 (get32 0 buf))];
    mret (inl (n + 1, buf)).

Definition writetest1 (buf : list Z) : uprog (list Z) :=
  _ ← say "big files test";
  fd ← sys (Open (str "big") (Z.lor O_CREATE O_RDWR));
  _ ← oops (fd <? 0) (line "error: creat big failed!") [];
  buf ← carry (upto (Z.to_nat MAXFILE)) (fun i buf =>
    let buf := put32 0 i buf in
    r ← sys (Write fd (take 512 buf));
    _ ← oops (negb (r =? 512)) (line "error: write big file failed") [Int i];
    mret buf) buf;
  _ ← sys (Close fd);
  fd ← sys (Open (str "big") O_RDONLY);
  _ ← oops (fd <? 0) (line "error: open big failed!") [];
  buf ← ITree.iter (big_read_turn fd) (0, buf);
  _ ← sys (Close fd);
  u ← sys (Unlink (str "big"));
  _ ← oops (u <? 0) (line "unlink big failed") [];
  _ ← say "big files ok";
  mret buf.

Definition createtest : uprog unit :=
  _ ← say "many creates, followed by unlink test";
  _ ← each (upto 52) (fun i => fd ← sys (Open [97; 48 + i] (Z.lor O_CREATE O_RDWR)); do_ (Close fd));
  _ ← each (upto 52) (fun i => do_ (Unlink [97; 48 + i]));
  say "many creates, followed by unlink; ok".

Definition dirtest : uprog unit :=
  _ ← say "mkdir test";
  r ← sys (Mkdir (str "dir0"));
  _ ← oops (r <? 0) (line "mkdir failed") [];
  r ← sys (Chdir (str "dir0"));
  _ ← oops (r <? 0) (line "chdir dir0 failed") [];
  r ← sys (Chdir (str ".."));
  _ ← oops (r <? 0) (line "chdir .. failed") [];
  r ← sys (Unlink (str "dir0"));
  _ ← oops (r <? 0) (line "unlink dir0 failed") [];
  say "mkdir test ok".

Definition echoargv : list (list Z) := [str "echo"; str "ALL"; str "TESTS"; str "PASSED"].

Definition exectest : uprog unit :=
  _ ← say "exec test";
  r ← sys (Exec (str "echo") echoargv);
  oops (r <? 0) (line "exec echo failed") [].

(** ** Processes and pipes *)

(** The child's turn: [for(i = 0; i < 1033; i++) buf[i] = seq++;] and the write. *)
Definition pipe1_write (fd : Z) (n : Z) (buf : list Z) : uprog (list Z) :=
  let buf := wr 0 ((fun i => u8 (1033 * n + i)) <$> upto 1033) buf in
  r ← sys (Write fd (take 1033 buf));
  _ ← oops (negb (r =? 1033)) (line "pipe1 oops 1") [];
  mret buf.

(** The parent's [while]: [seq], [total], [cc] and the buffer; [None] when the function returns from inside it. *)
Definition pipe1_turn (fd : Z) (s : Z * Z * Z * list Z) : uprog (Z * Z * Z * list Z + option Z * list Z) :=
  let '(seq, total, cc, buf) := s in
  r ← sys (Read fd cc);
  let n := count r in
  let buf := fill r buf in
  if negb (0 <? n) then mret (inr (Some total, buf))
  else if forallb (fun i => Z.land (char_of buf (Z.to_nat i)) 0xff =? Z.land (seq + i) 0xff) (upto (Z.to_nat n)) then
    let cc := cc * 2 in
    mret (inl (seq + n, total + n, if Z.of_nat sizeof_buf <? cc then Z.of_nat sizeof_buf else cc, buf))
  else
    _ ← say "pipe1 oops 2";
    mret (inr (None, buf)).

Definition pipe1 (buf : list Z) : uprog (list Z) :=
  p ← sys Pipe;
  match p with
  | None => _ ← oops true (line "pipe() failed") []; mret buf
  | Some (fds0, fds1) =>
      pid ← sys Fork;
      if pid =? 0 then
        _ ← sys (Close fds0);
        _ ← carry (upto 5) (pipe1_write fds1) buf;
        uexit
      else if 0 <? pid then
        _ ← sys (Close fds1);
        '(total, buf) ← ITree.iter (pipe1_turn fds0) (0, 0, 1, buf);
        match total with
        | None => mret buf
        | Some total =>
            _ ← oops (negb (total =? 5 * 1033)) (line "pipe1 oops 3 total %d") [Int total];
            _ ← sys (Close fds0);
            _ ← sys Wait;
            _ ← say "pipe1 ok";
            mret buf
        end
      else
        _ ← oops true (line "fork() failed") [];
        mret buf
  end.

(** [for(;;) ;] *)
Definition forever {A} : uprog A := ITree.spin.

(** [junk] is what [pfds] holds when [pipe] fails, which the function does not look at. *)
Definition preempt (junk : Z * Z) (buf : list Z) : uprog (list Z) :=
  _ ← uprintf 1 (str "preempt: ") [];
  pid1 ← sys Fork;
  if pid1 =? 0 then forever
  else
  pid2 ← sys Fork;
  if pid2 =? 0 then forever
  else
  p ← sys Pipe;
  let '(pfds0, pfds1) := default junk p in
  pid3 ← sys Fork;
  if pid3 =? 0 then
    _ ← sys (Close pfds0);
    r ← sys (Write pfds1 (str "x"));
    _ ← (if negb (r =? 1) then uprintf 1 (str "preempt write error") [] else mret tt);
    _ ← sys (Close pfds1);
    forever
  else
  _ ← sys (Close pfds1);
  r ← sys (Read pfds0 (Z.of_nat sizeof_buf));
  if negb (count r =? 1) then
    _ ← uprintf 1 (str "preempt read error") [];
    mret (fill r buf)
  else
  _ ← sys (Close pfds0);
  _ ← uprintf 1 (str "kill... ") [];
  _ ← sys (Kill pid1);
  _ ← sys (Kill pid2);
  _ ← sys (Kill pid3);
  _ ← uprintf 1 (str "wait... ") [];
  _ ← sys Wait;
  _ ← sys Wait;
  _ ← sys Wait;
  _ ← say "preempt ok";
  mret (fill r buf).

(** The loop with [togo] turns to go; the function returns from inside it with a message. *)
Fixpoint exitwait_loop (togo : nat) : uprog unit :=
  match togo with
  | O => say "exitwait ok"
  | S togo =>
      pid ← sys Fork;
      if pid <? 0 then say "fork failed"
      else if negb (pid =? 0) then
        w ← sys Wait;
        if negb (w =? pid) then say "wait wrong pid" else exitwait_loop togo
      else uexit
  end.
Definition exitwait : uprog unit := exitwait_loop 100.

(** ** More file system tests *)

(** [for(i = 0; i < 1000; i++)], which a failed write ends. *)
Fixpoint shared_writes (togo : nat) (fd : Z) (buf : list Z) : uprog unit :=
  match togo with
  | O => mret tt
  | S togo =>
      r ← sys (Write fd buf);
      if negb (r =? 10) then say "fstests: write sharedfd failed" else shared_writes togo fd buf
  end.

(** The counts [nc] and [np]; the whole of [buf] is counted, however much was read. *)
Definition shared_turn (fd : Z) (s : Z * Z * list Z) : uprog (Z * Z * list Z + Z * Z) :=
  let '(nc, np, buf) := s in
  r ← sys (Read fd 10);
  if negb (0 <? count r) then mret (inr (nc, np))
  else
    let buf := fill r buf in
    let number c := Z.of_nat (length (filter (fun x => x = c) buf)) in
    mret (inl (nc + number 99, np + number 112, buf)).

Definition sharedfd : uprog unit :=
  _ ← say "sharedfd test";
  _ ← sys (Unlink (str "sharedfd"));
  fd ← sys (Open (str "sharedfd") (Z.lor O_CREATE O_RDWR));
  if fd <? 0 then uprintf 1 (str "fstests: cannot open sharedfd for writing") []
  else
    pid ← sys Fork;
    let buf := replicate 10 (if pid =? 0 then 99 else 112) in
    _ ← shared_writes 1000 fd buf;
    _ ← (if pid =? 0 then uexit else sys Wait);
    _ ← sys (Close fd);
    fd ← sys (Open (str "sharedfd") 0);
    if fd <? 0 then say "fstests: cannot open sharedfd for reading"
    else
      '(nc, np) ← ITree.iter (shared_turn fd) (0, 0, buf);
      _ ← sys (Close fd);
      _ ← sys (Unlink (str "sharedfd"));
      if (nc =? 10000) && (np =? 10000) then say "sharedfd ok"
      else oops true (line "sharedfd oops %d %d") [Int nc; Int np].

(** The work of child [pi]. *)
Definition four_child (pi : Z) (fname buf : list Z) : uprog unit :=
  fd ← sys (Open fname (Z.lor O_CREATE O_RDWR));
  _ ← oops (fd <? 0) (line "create failed") [];
  let buf := wr 0 (replicate 512 (48 + pi)) buf in
  _ ← each (upto 12) (fun _ =>
    n ← sys (Write fd (take 500 buf));
    oops (negb (n =? 500)) (line "write failed %d") [Int n]);
  uexit.

(** [while((n = read(fd, buf, sizeof(buf))) > 0)] over file [i]. *)
Definition four_turn (fd i : Z) (s : Z * list Z) : uprog (Z * list Z + Z * list Z) :=
  let '(total, buf) := s in
  r ← sys (Read fd (Z.of_nat sizeof_buf));
  let buf := fill r buf in
  let n := count r in
  if negb (0 <? n) then mret (inr (total, buf))
  else
    _ ← oops (negb (forallb (fun c => c =? 48 + i) (take (Z.to_nat n) buf))) (line "wrong char") [];
    mret (inl (total + n, buf)).

Definition fourfiles (buf : list Z) : uprog (list Z) :=
  let fname (i : Z) := [102; 48 + i] in
  _ ← say "fourfiles test";
  _ ← each (upto 4) (fun pi =>
    _ ← sys (Unlink (fname pi));
    pid ← sys Fork;
    _ ← oops (pid <? 0) (line "fork failed") [];
    if pid =? 0 then four_child pi (fname pi) buf else mret tt);
  _ ← each (upto 4) (fun _ => do_ Wait);
  buf ← carry (upto 2) (fun i buf =>
    fd ← sys (Open (fname i) 0);
    '(total, buf) ← ITree.iter (four_turn fd i) (0, buf);
    _ ← sys (Close fd);
    _ ← oops (negb (total =? 12 * 500)) (line "wrong length %d") [Int total];
    _ ← sys (Unlink (fname i));
    mret buf) buf;
  _ ← say "fourfiles ok";
  mret buf.

Definition pname (pi i : Z) : list Z := [112 + pi; 48 + i].

(** What child [pi] does in turn [i]. *)
Definition createdelete_turn (pi i : Z) : uprog unit :=
  fd ← sys (Open (pname pi i) (Z.lor O_CREATE O_RDWR));
  _ ← oops (fd <? 0) (line "create failed") [];
  _ ← sys (Close fd);
  if (0 <? i) && (i mod 2 =? 0) then
    r ← sys (Unlink (pname pi (i / 2)));
    oops (r <? 0) (line "unlink failed") []
  else mret tt.

Definition createdelete : uprog unit :=
  let N := 20 in
  _ ← say "createdelete test";
  _ ← each (upto 4) (fun pi =>
    pid ← sys Fork;
    _ ← oops (pid <? 0) (line "fork failed") [];
    if pid =? 0 then _ ← each (upto 20) (createdelete_turn pi); uexit else mret tt);
  _ ← each (upto 4) (fun _ => do_ Wait);
  _ ← each (upto 20) (fun i => each (upto 4) (fun pi =>
    fd ← sys (Open (pname pi i) 0);
    _ ← (if ((i =? 0) || (N / 2 <=? i)) && (fd <? 0) then
           oops true (line "oops createdelete %s didn't exist") [Str (Some (pname pi i))]
         else oops ((1 <=? i) && (i <? N / 2) && (0 <=? fd)) (line "oops createdelete %s did exist") [Str (Some (pname pi i))]);
    if 0 <=? fd then do_ (Close fd) else mret tt));
  _ ← each (upto 20) (fun i => each (upto 4) (fun _ => do_ (Unlink (pname i i))));
  say "createdelete ok".

Definition unlinkread (buf : list Z) : uprog (list Z) :=
  _ ← say "unlinkread test";
  fd ← sys (Open (str "unlinkread") (Z.lor O_CREATE O_RDWR));
  _ ← oops (fd <? 0) (line "create unlinkread failed") [];
  _ ← sys (Write fd (str "hello"));
  _ ← sys (Close fd);
  fd ← sys (Open (str "unlinkread") O_RDWR);
  _ ← oops (fd <? 0) (line "open unlinkread failed") [];
  r ← sys (Unlink (str "unlinkread"));
  _ ← oops (negb (r =? 0)) (line "unlink unlinkread failed") [];
  fd1 ← sys (Open (str "unlinkread") (Z.lor O_CREATE O_RDWR));
  _ ← sys (Write fd1 (str "yyy"));
  _ ← sys (Close fd1);
  r ← sys (Read fd (Z.of_nat sizeof_buf));
  let buf := fill r buf in
  _ ← oops (negb (count r =? 5)) (str "unlinkread read failed") [];
  _ ← oops (negb (char_of buf 0 =? 104)) (line "unlinkread wrong data") [];
  r ← sys (Write fd (take 10 buf));
  _ ← oops (negb (r =? 10)) (line "unlinkread write failed") [];
  _ ← sys (Close fd);
  _ ← sys (Unlink (str "unlinkread"));
  _ ← say "unlinkread ok";
  mret buf.

Definition linktest (buf : list Z) : uprog (list Z) :=
  _ ← say "linktest";
  _ ← sys (Unlink (str "lf1"));
  _ ← sys (Unlink (str "lf2"));
  fd ← sys (Open (str "lf1") (Z.lor O_CREATE O_RDWR));
  _ ← oops (fd <? 0) (line "create lf1 failed") [];
  r ← sys (Write fd (str "hello"));
  _ ← oops (negb (r =? 5)) (line "write lf1 failed") [];
  _ ← sys (Close fd);
  r ← sys (Link (str "lf1") (str "lf2"));
  _ ← oops (r <? 0) (line "link lf1 lf2 failed") [];
  _ ← sys (Unlink (str "lf1"));
  fd ← sys (Open (str "lf1") 0);
  _ ← oops (0 <=? fd) (line "unlinked lf1 but it is still there!") [];
  fd ← sys (Open (str "lf2") 0);
  _ ← oops (fd <? 0) (line "open lf2 failed") [];
  r ← sys (Read fd (Z.of_nat sizeof_buf));
  let buf := fill r buf in
  _ ← oops (negb (count r =? 5)) (line "read lf2 failed") [];
  _ ← sys (Close fd);
  r ← sys (Link (str "lf2") (str "lf2"));
  _ ← oops (0 <=? r) (line "link lf2 lf2 succeeded! oops") [];
  _ ← sys (Unlink (str "lf2"));
  r ← sys (Link (str "lf2") (str "lf1"));
  _ ← oops (0 <=? r) (line "link non-existant succeeded! oops") [];
  r ← sys (Link (str ".") (str "lf1"));
  _ ← oops (0 <=? r) (line "link . lf1 succeeded! oops") [];
  _ ← say "linktest ok";
  mret buf.

Definition cname (i : Z) : list Z := [67; 48 + i].

Definition concreate_turn (i : Z) : uprog unit :=
  let file := cname i in
  _ ← sys (Unlink file);
  pid ← sys Fork;
  _ ← (if negb (pid =? 0) && (i mod 3 =? 1) then do_ (Link (str "C0") file)
       else if (pid =? 0) && (i mod 5 =? 1) then do_ (Link (str "C0") file)
       else
         fd ← sys (Open file (Z.lor O_CREATE O_RDWR));
         _ ← oops (fd <? 0) (line "concreate create %s failed") [Str (Some file)];
         do_ (Close fd));
  if pid =? 0 then uexit else do_ Wait.

(** The scan of the directory: [n], [fa] and the bytes of [de]. *)
Definition concreate_scan (fd : Z) (s : Z * list Z * list Z) : uprog (Z * list Z * list Z + Z) :=
  let '(n, fa, de) := s in
  r ← sys (Read fd 16);
  if negb (0 <? count r) then mret (inr n)
  else
    let de := fill r de in
    let name := drop 2 de in
    if get16 0 de =? 0 then mret (inl (n, fa, de))
    else if (char_of name 0 =? 67) && (char_of name 2 =? 0) then
      let i := s8 (char_of name 1) - 48 in
      _ ← oops ((i <? 0) || (40 <=? i)) (line "concreate weird file %s") [Str (Some (cstr name))];
      _ ← oops (negb (char_of fa (Z.to_nat i) =? 0)) (line "concreate duplicate file %s") [Str (Some (cstr name))];
      mret (inl (n + 1, <[Z.to_nat i := 1]> fa, de))
    else mret (inl (n, fa, de)).

Definition concreate_undo (i : Z) : uprog unit :=
  let file := cname i in
  pid ← sys Fork;
  _ ← oops (pid <? 0) (line "fork failed") [];
  _ ← (if (i mod 3 =? 0) && (pid =? 0) || (i mod 3 =? 1) && negb (pid =? 0) then
         each (upto 4) (fun _ => fd ← sys (Open file 0); do_ (Close fd))
       else each (upto 4) (fun _ => do_ (Unlink file)));
  if pid =? 0 then uexit else do_ Wait.

Definition concreate : uprog unit :=
  _ ← say "concreate test";
  _ ← each (upto 40) concreate_turn;
  fd ← sys (Open (str ".") 0);
  n ← ITree.iter (concreate_scan fd) (0, replicate 40 0, replicate 16 0);
  _ ← sys (Close fd);
  _ ← oops (negb (n =? 40)) (line "concreate not enough files in directory listing") [];
  _ ← each (upto 40) concreate_undo;
  say "concreate ok".

(** [x = x * 1103515245 + 12345] and what it selects. *)
Definition linkunlink_turn (_ : Z) (x : Z) : uprog Z :=
  let x := u32 (x * 1103515245 + 12345) in
  _ ← (if x mod 3 =? 0 then fd ← sys (Open (str "x") (Z.lor O_RDWR O_CREATE)); do_ (Close fd)
       else if x mod 3 =? 1 then do_ (Link (str "cat") (str "x"))
       else do_ (Unlink (str "x")));
  mret x.

Definition linkunlink : uprog unit :=
  _ ← say "linkunlink test";
  _ ← sys (Unlink (str "x"));
  pid ← sys Fork;
  _ ← oops (pid <? 0) (line "fork failed") [];
  _ ← carry (upto 100) linkunlink_turn (if negb (pid =? 0) then 1 else 97);
  _ ← (if negb (pid =? 0) then sys Wait else uexit);
  say "linkunlink ok".

Definition bdname (i : Z) : list Z := [120; 48 + i / 64; 48 + i mod 64].

Definition bigdir : uprog unit :=
  _ ← say "bigdir test";
  _ ← sys (Unlink (str "bd"));
  fd ← sys (Open (str "bd") O_CREATE);
  _ ← oops (fd <? 0) (line "bigdir create failed") [];
  _ ← sys (Close fd);
  _ ← each (upto 500) (fun i =>
    r ← sys (Link (str "bd") (bdname i));
    oops (negb (r =? 0)) (line "bigdir link failed") []);
  _ ← sys (Unlink (str "bd"));
  _ ← each (upto 500) (fun i =>
    r ← sys (Unlink (bdname i));
    oops (negb (r =? 0)) (str "bigdir unlink failed") []);
  say "bigdir ok".

(** ** Path names *)

(** A call that must succeed, and one that must not. *)
Definition works (e : sysE Z) (msg : string) : uprog unit := r ← sys e; oops (negb (r =? 0)) (line msg) [].
Definition refused (e : sysE Z) (msg : string) : uprog unit := r ← sys e; oops (r =? 0) (line msg) [].
Definition not_opened (path : string) (mode : Z) (msg : string) : uprog unit :=
  fd ← sys (Open (str path) mode); oops (0 <=? fd) (line msg) [].

Definition subdir_make (buf : list Z) : uprog (list Z) :=
  _ ← sys (Unlink (str "ff"));
  _ ← works (Mkdir (str "dd")) "subdir mkdir dd failed";
  fd ← sys (Open (str "dd/ff") (Z.lor O_CREATE O_RDWR));
  _ ← oops (fd <? 0) (line "create dd/ff failed") [];
  _ ← sys (Write fd (str "ff"));
  _ ← sys (Close fd);
  r ← sys (Unlink (str "dd"));
  _ ← oops (0 <=? r) (line "unlink dd (non-empty dir) succeeded!") [];
  _ ← works (Mkdir (str "/dd/dd")) "subdir mkdir dd/dd failed";
  fd ← sys (Open (str "dd/dd/ff") (Z.lor O_CREATE O_RDWR));
  _ ← oops (fd <? 0) (line "create dd/dd/ff failed") [];
  _ ← sys (Write fd (str "FF"));
  _ ← sys (Close fd);
  fd ← sys (Open (str "dd/dd/../ff") 0);
  _ ← oops (fd <? 0) (line "open dd/dd/../ff failed") [];
  r ← sys (Read fd (Z.of_nat sizeof_buf));
  let buf := fill r buf in
  _ ← oops (negb (count r =? 2) || negb (char_of buf 0 =? 102)) (line "dd/dd/../ff wrong content") [];
  _ ← sys (Close fd);
  _ ← works (Link (str "dd/dd/ff") (str "dd/dd/ffff")) "link dd/dd/ff dd/dd/ffff failed";
  _ ← works (Unlink (str "dd/dd/ff")) "unlink dd/dd/ff failed";
  _ ← not_opened "dd/dd/ff" O_RDONLY "open (unlinked) dd/dd/ff succeeded";
  mret buf.

Definition subdir_walk (buf : list Z) : uprog (list Z) :=
  _ ← works (Chdir (str "dd")) "chdir dd failed";
  _ ← works (Chdir (str "dd/../../dd")) "chdir dd/../../dd failed";
  _ ← works (Chdir (str "dd/../../../dd")) "chdir dd/../../dd failed";
  _ ← works (Chdir (str "./..")) "chdir ./.. failed";
  fd ← sys (Open (str "dd/dd/ffff") 0);
  _ ← oops (fd <? 0) (line "open dd/dd/ffff failed") [];
  r ← sys (Read fd (Z.of_nat sizeof_buf));
  let buf := fill r buf in
  _ ← oops (negb (count r =? 2)) (line "read dd/dd/ffff wrong len") [];
  _ ← sys (Close fd);
  mret buf.

Definition subdir_errors : uprog unit :=
  _ ← not_opened "dd/dd/ff" O_RDONLY "open (unlinked) dd/dd/ff succeeded!";
  _ ← not_opened "dd/ff/ff" (Z.lor O_CREATE O_RDWR) "create dd/ff/ff succeeded!";
  _ ← not_opened "dd/xx/ff" (Z.lor O_CREATE O_RDWR) "create dd/xx/ff succeeded!";
  _ ← not_opened "dd" O_CREATE "create dd succeeded!";
  _ ← not_opened "dd" O_RDWR "open dd rdwr succeeded!";
  _ ← not_opened "dd" O_WRONLY "open dd wronly succeeded!";
  _ ← refused (Link (str "dd/ff/ff") (str "dd/dd/xx")) "link dd/ff/ff dd/dd/xx succeeded!";
  _ ← refused (Link (str "dd/xx/ff") (str "dd/dd/xx")) "link dd/xx/ff dd/dd/xx succeeded!";
  _ ← refused (Link (str "dd/ff") (str "dd/dd/ffff")) "link dd/ff dd/dd/ffff succeeded!";
  _ ← refused (Mkdir (str "dd/ff/ff")) "mkdir dd/ff/ff succeeded!";
  _ ← refused (Mkdir (str "dd/xx/ff")) "mkdir dd/xx/ff succeeded!";
  _ ← refused (Mkdir (str "dd/dd/ffff")) "mkdir dd/dd/ffff succeeded!";
  _ ← refused (Unlink (str "dd/xx/ff")) "unlink dd/xx/ff succeeded!";
  _ ← refused (Unlink (str "dd/ff/ff")) "unlink dd/ff/ff succeeded!";
  _ ← refused (Chdir (str "dd/ff")) "chdir dd/ff succeeded!";
  refused (Chdir (str "dd/xx")) "chdir dd/xx succeeded!".

Definition subdir_remove : uprog unit :=
  _ ← works (Unlink (str "dd/dd/ffff")) "unlink dd/dd/ff failed";
  _ ← works (Unlink (str "dd/ff")) "unlink dd/ff failed";
  _ ← refused (Unlink (str "dd")) "unlink non-empty dd succeeded!";
  r ← sys (Unlink (str "dd/dd"));
  _ ← oops (r <? 0) (line "unlink dd/dd failed") [];
  r ← sys (Unlink (str "dd"));
  oops (r <? 0) (line "unlink dd failed") [].

Definition subdir (buf : list Z) : uprog (list Z) :=
  _ ← say "subdir test";
  buf ← subdir_make buf;
  buf ← subdir_walk buf;
  _ ← subdir_errors;
  _ ← subdir_remove;
  _ ← say "subdir ok";
  mret buf.

Definition fourteen : uprog unit :=
  _ ← say "fourteen test";
  _ ← works (Mkdir (str "12345678901234")) "mkdir 12345678901234 failed";
  _ ← works (Mkdir (str "12345678901234/123456789012345")) "mkdir 12345678901234/123456789012345 failed";
  fd ← sys (Open (str "123456789012345/123456789012345/123456789012345") O_CREATE);
  _ ← oops (fd <? 0) (line "create 123456789012345/123456789012345/123456789012345 failed") [];
  _ ← sys (Close fd);
  fd ← sys (Open (str "12345678901234/12345678901234/12345678901234") 0);
  _ ← oops (fd <? 0) (line "open 12345678901234/12345678901234/12345678901234 failed") [];
  _ ← sys (Close fd);
  _ ← refused (Mkdir (str "12345678901234/12345678901234")) "mkdir 12345678901234/12345678901234 succeeded!";
  _ ← refused (Mkdir (str "123456789012345/12345678901234")) "mkdir 12345678901234/123456789012345 succeeded!";
  say "fourteen ok".

Definition rmdot : uprog unit :=
  _ ← say "rmdot test";
  _ ← works (Mkdir (str "dots")) "mkdir dots failed";
  _ ← works (Chdir (str "dots")) "chdir dots failed";
  _ ← refused (Unlink (str ".")) "rm . worked!";
  _ ← refused (Unlink (str "..")) "rm .. worked!";
  _ ← works (Chdir (str "/")) "chdir / failed";
  _ ← refused (Unlink (str "dots/.")) "unlink dots/. worked!";
  _ ← refused (Unlink (str "dots/..")) "unlink dots/.. worked!";
  _ ← works (Unlink (str "dots")) "unlink dots failed!";
  say "rmdot ok".

Definition dirfile : uprog unit :=
  _ ← say "dir vs file";
  fd ← sys (Open (str "dirfile") O_CREATE);
  _ ← oops (fd <? 0) (line "create dirfile failed") [];
  _ ← sys (Close fd);
  _ ← refused (Chdir (str "dirfile")) "chdir dirfile succeeded!";
  _ ← not_opened "dirfile/xx" 0 "create dirfile/xx succeeded!";
  _ ← not_opened "dirfile/xx" O_CREATE "create dirfile/xx succeeded!";
  _ ← refused (Mkdir (str "dirfile/xx")) "mkdir dirfile/xx succeeded!";
  _ ← refused (Unlink (str "dirfile/xx")) "unlink dirfile/xx succeeded!";
  _ ← refused (Link (str "README") (str "dirfile/xx")) "link to dirfile/xx succeeded!";
  _ ← works (Unlink (str "dirfile")) "unlink dirfile failed!";
  _ ← not_opened "." O_RDWR "open . for writing succeeded!";
  fd ← sys (Open (str ".") 0);
  r ← sys (Write fd (str "x"));
  _ ← oops (0 <? r) (line "write . succeeded!") [];
  _ ← sys (Close fd);
  say "dir vs file OK".

(** [fd = open(path, O_CREATE); if(fd >= 0) close(fd);] *)
Definition touch (path : list Z) : uprog unit :=
  fd ← sys (Open path O_CREATE);
  if 0 <=? fd then do_ (Close fd) else mret tt.

Definition iref : uprog unit :=
  _ ← say "empty file name";
  _ ← each (upto 51) (fun _ =>
    _ ← works (Mkdir (str "irefd")) "mkdir irefd failed";
    _ ← works (Chdir (str "irefd")) "chdir irefd failed";
    _ ← sys (Mkdir []);
    _ ← sys (Link (str "README") []);
    _ ← touch [];
    _ ← touch (str "xx");
    do_ (Unlink (str "xx")));
  _ ← sys (Chdir (str "/"));
  say "empty file name OK".

(** ** Large files *)

(** [for(sz = 499; sz < 12*512; sz += 471)]: twelve sizes, the last of them 5680. *)
Definition bigwrite (buf : list Z) : uprog unit :=
  _ ← say "bigwrite test";
  _ ← sys (Unlink (str "bigwrite"));
  _ ← each ((fun k => 499 + 471 * k) <$> upto 12) (fun sz =>
    fd ← sys (Open (str "bigwrite") (Z.lor O_CREATE O_RDWR));
    _ ← oops (fd <? 0) (line "cannot create bigwrite") [];
    _ ← each (upto 2) (fun _ =>
      cc ← sys (Write fd (take (Z.to_nat sz) buf));
      oops (negb (cc =? sz)) (line "write(%d) ret %d") [Int sz; Int cc]);
    _ ← sys (Close fd);
    do_ (Unlink (str "bigwrite")));
  say "bigwrite ok".

(** The [for(i = 0; ; i++)] of [bigfile]. *)
Definition bigfile_turn (fd : Z) (s : Z * Z * list Z) : uprog (Z * Z * list Z + Z * list Z) :=
  let '(i, total, buf) := s in
  r ← sys (Read fd 300);
  let cc := count r in
  let buf := fill r buf in
  _ ← oops (cc <? 0) (line "read bigfile failed") [];
  if cc =? 0 then mret (inr (total, buf))
  else
    _ ← oops (negb (cc =? 300)) (line "short read bigfile") [];
    _ ← oops (negb (s8 (char_of buf 0) =? i / 2) || negb (s8 (char_of buf 299) =? i / 2)) (line "read bigfile wrong data") [];
    mret (inl (i + 1, total + cc, buf)).

Definition bigfile (buf : list Z) : uprog (list Z) :=
  _ ← say "bigfile test";
  _ ← sys (Unlink (str "bigfile"));
  fd ← sys (Open (str "bigfile") (Z.lor O_CREATE O_RDWR));
  _ ← oops (fd <? 0) (str "cannot create bigfile") [];
  buf ← carry (upto 20) (fun i buf =>
    let buf := wr 0 (replicate 600 i) buf in
    r ← sys (Write fd (take 600 buf));
    _ ← oops (negb (r =? 600)) (line "write bigfile failed") [];
    mret buf) buf;
  _ ← sys (Close fd);
  fd ← sys (Open (str "bigfile") 0);
  _ ← oops (fd <? 0) (line "cannot open bigfile") [];
  '(total, buf) ← ITree.iter (bigfile_turn fd) (0, 0, buf);
  _ ← sys (Close fd);
  _ ← oops (negb (total =? 20 * 600)) (line "read bigfile wrong total") [];
  _ ← sys (Unlink (str "bigfile"));
  _ ← say "bigfile test ok";
  mret buf.

Definition fname (n : Z) : list Z :=
  [102; 48 + n / 1000; 48 + (n mod 1000) / 100; 48 + (n mod 100) / 10; 48 + n mod 10].

(** [while(1)]: the bytes that could be written. *)
Definition full_writes (fd : Z) (buf : list Z) (total : Z) : uprog (Z + Z) :=
  cc ← sys (Write fd (take 512 buf));
  mret (if cc <? 512 then inr total else inl (total + cc)).

Definition full_turn (buf : list Z) (nfiles : Z) : uprog (Z + Z) :=
  let name := fname nfiles in
  _ ← uprintf 1 (line "writing %s") [Str (Some name)];
  fd ← sys (Open name (Z.lor O_CREATE O_RDWR));
  if fd <? 0 then _ ← uprintf 1 (line "open %s failed") [Str (Some name)]; mret (inr nfiles)
  else
    total ← ITree.iter (full_writes fd buf) 0;
    _ ← uprintf 1 (line "wrote %d bytes") [Int total];
    _ ← sys (Close fd);
    mret (if total =? 0 then inr nfiles else inl (nfiles + 1)).

Definition fsfull (buf : list Z) : uprog unit :=
  _ ← say "fsfull test";
  nfiles ← ITree.iter (full_turn buf) 0;
  _ ← each (rev (upto (Z.to_nat (nfiles + 1)))) (fun n => do_ (Unlink (fname n)));
  say "fsfull test finished".

(** ** The rest *)

(** [for(n=0; n<1000; n++)], with [togo] turns to go. *)
Fixpoint fork_loop (togo : nat) (n : Z) : uprog Z :=
  match togo with
  | O => mret n
  | S togo =>
      pid ← sys Fork;
      if pid <? 0 then mret n else if pid =? 0 then uexit else fork_loop togo (n + 1)
  end.

Definition forktest : uprog unit :=
  _ ← say "fork test";
  n ← fork_loop 1000 0;
  _ ← oops (n =? 1000) (line "fork claimed to work 1000 times!") [];
  _ ← each (upto (Z.to_nat n)) (fun _ => r ← sys Wait; oops (r <? 0) (line "wait stopped early") []);
  r ← sys Wait;
  _ ← oops (negb (r =? -1)) (line "wait got too many") [];
  say "fork test OK".

(** [uninit] is the array of that name as the test finds it. *)
Definition bsstest (uninit : list Z) : uprog unit :=
  _ ← say "bss test";
  _ ← oops (negb (forallb (fun c => c =? 0) uninit)) (line "bss test failed") [];
  say "bss test ok".

Definition bigarg : list Z := line "bigargs test: failed" ++ replicate 199 32.

Definition bigargtest : uprog unit :=
  _ ← sys (Unlink (str "bigarg-ok"));
  pid ← sys Fork;
  _ ← (if pid =? 0 then
         _ ← say "bigarg test";
         _ ← sys (Exec (str "echo") (replicate 31 bigarg));
         _ ← say "bigarg test ok";
         fd ← sys (Open (str "bigarg-ok") O_CREATE);
         _ ← sys (Close fd);
         uexit
       else oops (pid <? 0) (line "bigargtest: fork failed") []);
  _ ← sys Wait;
  fd ← sys (Open (str "bigarg-ok") 0);
  _ ← oops (fd <? 0) (line "bigarg test failed!") [];
  _ ← sys (Close fd);
  do_ (Unlink (str "bigarg-ok")).

(** [main]; [junk] is as in [preempt]. *)
Definition main (argptest sbrktest validatetest mem uio : uprog unit) (uninit : list Z) (junk : Z * Z) : uprog unit :=
  _ ← say "usertests starting";
  fd ← sys (Open (str "usertests.ran") 0);
  _ ← oops (0 <=? fd) (line "already ran user tests -- rebuild fs.img") [];
  fd ← sys (Open (str "usertests.ran") O_CREATE);
  _ ← sys (Close fd);
  _ ← argptest;
  _ ← createdelete;
  _ ← linkunlink;
  _ ← concreate;
  buf ← fourfiles buf0;
  _ ← sharedfd;
  _ ← bigargtest;
  _ ← bigwrite buf;
  _ ← bigargtest;
  _ ← bsstest uninit;
  _ ← sbrktest;
  _ ← validatetest;
  _ ← opentest;
  buf ← writetest buf;
  buf ← writetest1 buf;
  _ ← createtest;
  _ ← openiputtest;
  _ ← exitiputtest;
  _ ← iputtest;
  _ ← mem;
  buf ← pipe1 buf;
  buf ← preempt junk buf;
  _ ← exitwait;
  _ ← rmdot;
  _ ← fourteen;
  buf ← bigfile buf;
  buf ← subdir buf;
  buf ← linktest buf;
  buf ← unlinkread buf;
  _ ← dirfile;
  _ ← iref;
  _ ← forktest;
  _ ← bigdir;
  _ ← uio;
  _ ← exectest;
  uexit.
