(* ===== verification/Mkfs.v ===== *)
(** * The file system image tool (mkfs.c)

    mkfs.c runs on the build machine and writes the disk image that the kernel boots from.  The image is the list of
    its blocks; the structures in memory are lists of bytes, read and written in the byte order of the build machine,
    so that [xint] and [xshort] are what they are in the source.  [exit(1)] and a failed [assert] are [None].

    The theorems read the image with the kernel's own definitions (fs.c, log.c): on a little-endian machine, the super
    block, the inode, the contents and the blocks of every file, the entries of the root directory and the free map are
    those that the kernel finds. *)

From S2P Require Import Prelude Kstate Kdata Block Log CString Fs Dir.
From stdpp Require Import list.
Open Scope Z_scope.

(** ** The build machine *)

Inductive endian := Little | Big.

(** An unsigned integer of the build machine and its bytes in memory. *)
Definition load (e : endian) (bs : list Z) : Z := le_Z (match e with Little => bs | Big => rev bs end).
Definition store (e : endian) (n : nat) (z : Z) : list Z :=
  match e with Little => le_bytes n z | Big => rev (le_bytes n z) end.

(** [xshort]: the bytes of [y] are set one by one. *)
Definition xshort (e : endian) (x : Z) : Z := load e [u8 x; u8 (Z.shiftr x 8)].
Definition xint (e : endian) (x : Z) : Z :=
  load e [u8 x; u8 (Z.shiftr x 8); u8 (Z.shiftr x 16); u8 (Z.shiftr x 24)].

(** Fields of a structure. *)
Definition uint_at (e : endian) (off : nat) (d : list Z) : Z := load e (rd off 4 d).
Definition set_uint (e : endian) (off : nat) (z : Z) (d : list Z) : list Z := wr off (store e 4 z) d.
Definition set_ushort (e : endian) (off : nat) (z : Z) (d : list Z) : list Z := wr off (store e 2 z) d.

(** ** mkfs.c *)

Definition NINODES : Z := 200.
Definition nbitmap : Z := FSSIZE / (Z.of_nat BSIZE * 8) + 1.
Definition ninodeblocks : Z := NINODES / IPB + 1.
Definition nlog : Z := LOGSIZE.
Definition nmeta : Z := 2 + nlog + ninodeblocks + nbitmap.
Definition nblocks : Z := FSSIZE - nmeta.

(** The offsets of the fields of [struct dinode]. *)
Definition o_type : nat := 0.
Definition o_nlink : nat := 6.
Definition o_size : nat := 8.
Definition o_addrs (i : nat) : nat := 12 + 4 * i.

(** The image file and the globals that change after the start of [main]. *)
Record fsimg := mkImg { img : list (list Z); freeinode : Z; freeblock : Z }.
#[export] Instance eta_fsimg : Eta fsimg := fun s => mkImg (img s) (freeinode s) (freeblock s).

Definition zeroes : list Z := replicate BSIZE 0.

(** [lseek(fsfd, sec * BSIZE, 0)]: the product is an [uint]. *)
Definition seek (sec : Z) : nat := Z.to_nat (u32 (sec * Z.of_nat BSIZE) / Z.of_nat BSIZE).

(** A write past the end of the file extends it, and leaves a hole of zeros. *)
Definition wsect (sec : Z) (buf : list Z) (s : fsimg) : fsimg :=
  let n := length (img s) in
  s <| img := if (seek sec <? n)%nat then <[seek sec := buf]> (img s)
              else img s ++ replicate (seek sec - n) zeroes ++ [buf] |>.

(** A read past the end of the file returns fewer than [BSIZE] bytes. *)
Definition rsect (sec : Z) (s : fsimg) : option (list Z) := img s !! seek sec.

Section mkfs_c.
Context (e : endian).

Definition sb : superblock :=
  mkSb (xint e FSSIZE) (xint e nblocks) (xint e NINODES) (xint e nlog) (xint e 2) (xint e (2 + nlog))
    (xint e (2 + nlog + ninodeblocks)).

Definition winode (inum : Z) (din : list Z) (s : fsimg) : option fsimg :=
  buf ← rsect (IBLOCK inum sb) s;
  Some (wsect (IBLOCK inum sb) (wr (dinode_off inum) din buf) s).

Definition rinode (inum : Z) (s : fsimg) : option (list Z) :=
  buf ← rsect (IBLOCK inum sb) s;
  Some (rd (dinode_off inum) sizeof_dinode buf).

Definition ialloc (type : Z) (s : fsimg) : option (Z * fsimg) :=
  let inum := freeinode s in
  let s := s <| freeinode := u32 (freeinode s + 1) |> in
  let din := replicate sizeof_dinode 0 in
  let din := set_ushort e o_type (xshort e type) din in
  let din := set_ushort e o_nlink (xshort e 1) din in
  let din := set_uint e o_size (xint e 0) din in
  s ← winode inum din s;
  Some (inum, s).

Definition balloc (used : Z) (s : fsimg) : option fsimg :=
  if negb (used <? Z.of_nat BSIZE * 8) then None
  else
    let buf := foldl (fun buf i => set_map_bit i buf) zeroes (seq 0 (Z.to_nat used)) in
    Some (wsect (sb_bmapstart sb) buf s).

(** [xint(freeblock++)] *)
Definition next_block (s : fsimg) : Z * fsimg :=
  (xint e (freeblock s), s <| freeblock := u32 (freeblock s + 1) |>).

(** [if(xint(din.addrs[i]) == 0) din.addrs[i] = xint(freeblock++);] *)
Definition ensure_addr (i : nat) (din : list Z) (s : fsimg) : list Z * fsimg :=
  if xint e (uint_at e (o_addrs i) din) =? 0 then
    let '(x, s) := next_block s in (set_uint e (o_addrs i) x din, s)
  else (din, s).

(** The block [x] that holds block [fbn] of the file. *)
Definition iappend_block (fbn : Z) (din : list Z) (s : fsimg) : option (Z * list Z * fsimg) :=
  if fbn <? Z.of_nat NDIRECT then
    let '(din, s) := ensure_addr (Z.to_nat fbn) din s in
    Some (xint e (uint_at e (o_addrs (Z.to_nat fbn)) din), din, s)
  else
    let '(din, s) := ensure_addr NDIRECT din s in
    let ind := xint e (uint_at e (o_addrs NDIRECT) din) in
    let j := (4 * Z.to_nat (fbn - Z.of_nat NDIRECT))%nat in
    indirect ← rsect ind s;
    let '(indirect, s) :=
      if uint_at e j indirect =? 0 then
        let '(x, s) := next_block s in
        let indirect := set_uint e j x indirect in (indirect, wsect ind indirect s)
      else (indirect, s) in
    Some (xint e (uint_at e j indirect), din, s).

(** The [while(n > 0)] loop; [p] holds the [n] bytes that are left. *)
Fixpoint iappend_loop (fuel : nat) (p : list Z) (off : Z) (din : list Z) (s : fsimg) : option (Z * list Z * fsimg) :=
  if negb (0 <? Z.of_nat (length p)) then Some (off, din, s)
  else
    match fuel with
    | O => None
    | Datatypes.S fuel =>
        let fbn := off / Z.of_nat BSIZE in
        if negb (fbn <? MAXFILE) then None
        else
          '(x, din, s) ← iappend_block fbn din s;
          let n1 := Z.to_nat (Z.min (Z.of_nat (length p)) ((fbn + 1) * Z.of_nat BSIZE - off)) in
          buf ← rsect x s;
          let s := wsect x (wr (Z.to_nat (off - fbn * Z.of_nat BSIZE)) (take n1 p) buf) s in
          iappend_loop fuel (drop n1 p) (off + Z.of_nat n1) din s
    end.

Definition iappend (inum : Z) (p : list Z) (s : fsimg) : option fsimg :=
  din ← rinode inum s;
  let off := xint e (uint_at e o_size din) in
  '(off, din, s) ← iappend_loop (length p) p off din s;
  winode inum (set_uint e o_size (xint e off) din) s.

(** [de.inum = xshort(inum)] and the name, filled up with zeros by [bzero]
    and [strncpy]. *)
Definition direntry (inum : Z) (name : list Z) : list Z :=
  store e 2 (xshort e inum) ++ take DIRSIZ (name ++ replicate DIRSIZ 0).

(** A file of the command line: its name and what [read(fd, buf, sizeof(buf))]
    returns until the end of the file; [None] when [open] fails. *)
Record hostfile := mkHost { h_name : list Z; h_reads : option (list (list Z)) }.

(** [index(argv[i], '/') == 0] *)
Definition no_slash (name : list Z) : bool := forallb (fun c => negb (c =? 47)) name.

(** [if(argv[i][0] == '_') ++argv[i];] *)
Definition skip_underscore (name : list Z) : list Z :=
  match name with
  | c :: rest => if c =? 95 then rest else name
  | [] => []
  end.

(** [while((cc = read(fd, buf, sizeof(buf))) > 0) iappend(inum, buf, cc);] *)
Fixpoint append_reads (inum : Z) (reads : list (list Z)) (s : fsimg) : option fsimg :=
  match reads with
  | [] => Some s
  | buf :: reads => s ← iappend inum buf s; append_reads inum reads s
  end.

(** One turn of the loop over [argv]. *)
Definition add_file (rootino : Z) (f : hostfile) (s : fsimg) : option fsimg :=
  if negb (no_slash (h_name f)) then None
  else
    reads ← h_reads f;
    let name := skip_underscore (h_name f) in
    '(inum, s) ← ialloc T_FILE s;
    s ← iappend rootino (direntry inum name) s;
    append_reads inum reads s.

Fixpoint add_files (rootino : Z) (fs : list hostfile) (s : fsimg) : option fsimg :=
  match fs with
  | [] => Some s
  | f :: fs => s ← add_file rootino f s; add_files rootino fs s
  end.

(** The bytes of [sb]. *)
Definition sb_bytes : list Z :=
  concat (store e 4 <$> [sb_size sb; sb_nblocks sb; sb_ninodes sb; sb_nlog sb; sb_logstart sb; sb_inodestart sb;
                         sb_bmapstart sb]).

(** [fix size of root inode dir] *)
Definition fix_root (rootino : Z) (s : fsimg) : option fsimg :=
  din ← rinode rootino s;
  let off := xint e (uint_at e o_size din) in
  let off := (off / Z.of_nat BSIZE + 1) * Z.of_nat BSIZE in
  winode rootino (set_uint e o_size (xint e off) din) s.

(** [main], from the empty file that [open] with [O_TRUNC] leaves. *)
Definition main (fs : list hostfile) : option fsimg :=
  let s := mkImg [] 1 nmeta in
  let s := foldl (fun s i => wsect (Z.of_nat i) zeroes s) s (seq 0 (Z.to_nat FSSIZE)) in
  let s := wsect 1 (wr 0 sb_bytes zeroes) s in
  '(rootino, s) ← ialloc T_DIR s;
  if negb (rootino =? ROOTINO) then None
  else
    s ← iappend rootino (direntry rootino [46]) s;
    s ← iappend rootino (direntry rootino [46; 46]) s;
    s ← add_files rootino fs s;
    s ← fix_root rootino s;
    balloc (freeblock s) s.

End mkfs_c.

(** ** Reading the image as the kernel does *)

Definition imgblk (I : list (list Z)) (b : Z) : list Z := I !!! Z.to_nat b.

Definition sized (I : list (list Z)) : Prop :=
  Z.of_nat (length I) = FSSIZE /\ Forall (fun b => length b = BSIZE) I.

Lemma seek_id sec : 0 <= sec < 2 ^ 23 -> seek sec = Z.to_nat sec.
Proof.
  intros H. unfold seek. rewrite u32_id by (unfold is_u32, BSIZE; lia). by rewrite Z.div_mul by (unfold BSIZE; lia).
Qed.

Lemma xint_little x : xint Little x = u32 x.
Proof.
  unfold xint, load. transitivity (le_Z (le_bytes 4 x)); [|apply le_Z_bytes]. f_equal. cbn [le_bytes].
  rewrite !Z.shiftr_div_pow2 by lia. rewrite !Z.div_div by lia. done.
Qed.

Lemma xint_id x : is_u32 x -> xint Little x = x.
Proof. rewrite xint_little. apply u32_id. Qed.

Lemma xshort_little x : xshort Little x = u16 x.
Proof.
  unfold xshort, load. transitivity (le_Z (le_bytes 2 x)); [|apply le_Z_bytes]. f_equal. cbn [le_bytes].
  by rewrite !Z.shiftr_div_pow2 by lia.
Qed.

Lemma uint_at_little off d : uint_at Little off d = get32 off d.
Proof. done. Qed.

Lemma set_uint_little off x d : set_uint Little off x d = put32 off x d.
Proof. done. Qed.

Lemma rsect_blk s sec : sized (img s) -> 0 <= sec < FSSIZE -> rsect sec s = Some (imgblk (img s) sec).
Proof.
  intros [Hl _] H. unfold rsect, imgblk. rewrite seek_id by (unfold FSSIZE in *; lia).
  apply list_lookup_lookup_total_lt. lia.
Qed.

Lemma wsect_img s sec buf :
  sized (img s) -> 0 <= sec < FSSIZE ->
  wsect sec buf s = mkImg (<[Z.to_nat sec := buf]> (img s)) (freeinode s) (freeblock s).
Proof.
  intros [Hl _] H. unfold wsect. rewrite seek_id by (unfold FSSIZE in *; lia).
  destruct (Nat.ltb_spec (Z.to_nat sec) (length (img s))); [done|lia].
Qed.

Lemma blk_insert I b buf b' :
  sized I -> 0 <= b < FSSIZE -> 0 <= b' ->
  imgblk (<[Z.to_nat b := buf]> I) b' = if b =? b' then buf else imgblk I b'.
Proof.
  intros [Hl _] Hb Hb'. unfold imgblk. destruct (Z.eqb_spec b b') as [->|Hne].
  - apply list_lookup_total_insert_eq. lia.
  - apply list_lookup_total_insert_ne. lia.
Qed.

Lemma sized_insert I b buf : sized I -> length buf = BSIZE -> sized (<[b := buf]> I).
Proof. intros [Hl Hf] Hb. split; [by rewrite length_insert|by apply Forall_insert]. Qed.

Lemma sized_blk I b : sized I -> 0 <= b < FSSIZE -> length (imgblk I b) = BSIZE.
Proof.
  intros [Hl Hf] Hb. rewrite list.Forall_lookup in Hf. apply (Hf (Z.to_nat b)). apply list_lookup_lookup_total_lt. lia.
Qed.
#[export] Hint Resolve sized_insert sized_blk : xv6.

(** The inode in the 64 bytes of a [struct dinode]. *)
Definition dino (din : list Z) : inode := get_dinode 0 din inode_zero.

Lemma dino_addrs_lookup din k : (k < 13)%nat -> i_addrs (dino din) !! k = Some (get32 (o_addrs k) din).
Proof.
  intros Hk. unfold dino, get_dinode. cbn [i_addrs set_field]. rewrite list_lookup_fmap, lookup_seq_lt by (unfold NDIRECT; lia).
  done.
Qed.

Lemma dino_addrs_length din : length (i_addrs (dino din)) = 13%nat.
Proof. done. Qed.

Lemma get_dinode_rd off d : get_dinode off d inode_zero = dino (rd off sizeof_dinode d).
Proof.
  unfold dino, get_dinode, get16, get32, sizeof_dinode. rewrite !rd_rd by lia. rewrite Nat.add_0_r. cbn [Nat.add]. f_equal.
  apply list_fmap_ext. intros j k Hk%lookup_seq. unfold NDIRECT in Hk. rewrite rd_rd by lia. do 2 f_equal. lia.
Qed.

(** ** The invariant of the image *)

(** What a data block is used for: block [k] of [addrs] of an inode (the last one is the indirect block), or entry
    [k] of its indirect block. *)
Inductive slot := Adr (inum : Z) (k : nat) | Ind (inum : Z) (k : nat).
Definition slot_inum (sl : slot) : Z := match sl with Adr i _ | Ind i _ => i end.
Definition slot_of (inum bn : Z) : slot :=
  if bn <? Z.of_nat NDIRECT then Adr inum (Z.to_nat bn) else Ind inum (Z.to_nat (bn - Z.of_nat NDIRECT)).

(** [own !! j] is the use of block [nmeta + j]; a pointer in use names the block of its slot, the others are 0. *)
Definition points (own : list slot) (sl : slot) (used : bool) (a : Z) : Prop :=
  if used then exists j, a = nmeta + Z.of_nat j /\ own !! j = Some sl else a = 0.

(** The first [n] blocks of the file of inode [i] are mapped, and no others. *)
Record mapped (I : list (list Z)) (own : list slot) (i : Z) (d : inode) (n : Z) : Prop := {
  mp_range : 0 <= n <= MAXFILE;
  mp_len : length (i_addrs d) = 13%nat;
  mp_adr : forall k a, i_addrs d !! k = Some a -> points own (Adr i k) (Z.of_nat k <? n) a;
  mp_ind : forall b k, 12 < n -> i_addrs d !! NDIRECT = Some b -> (k < NINDIRECT)%nat ->
    points own (Ind i k) (12 + Z.of_nat k <? n) (get32 (4 * k) (imgblk I b));
}.

Definition pad (bs : list Z) : list Z := bs ++ replicate (BSIZE - length bs) 0.

(** Mapped blocks hold the bytes [f], followed by zeros. *)
Definition holds (I : list (list Z)) (d : inode) (n : Z) (f : list Z) : Prop :=
  forall bn a, 0 <= bn < n -> block_addr (imgblk I) d bn = Some a -> imgblk I a = pad (rd (Z.to_nat (512 * bn)) 512 f).

Definition file_on (I : list (list Z)) (own : list slot) (i : Z) (d : inode) (n : Z) (f : list Z) : Prop :=
  mapped I own i d n /\ holds I d n f.

Lemma mapped_adr I own i d n k :
  mapped I own i d n -> (k < 13)%nat -> exists a, i_addrs d !! k = Some a /\ points own (Adr i k) (Z.of_nat k <? n) a.
Proof.
  intros [_ Hl Ha _] Hk. destruct (lookup_lt_is_Some_2 (i_addrs d) k) as [a Hka]; [lia|]. eauto.
Qed.

Lemma points_used own sl a : points own sl true a <-> exists j, a = nmeta + Z.of_nat j /\ own !! j = Some sl.
Proof. done. Qed.

Lemma mapped_block I own i d n bn :
  mapped I own i d n -> 0 <= bn < n ->
  exists j, block_addr (imgblk I) d bn = Some (nmeta + Z.of_nat j) /\ own !! j = Some (slot_of i bn).
Proof.
  intros Hm Hbn. destruct Hm as [Hr Hl Ha Hi] eqn:E. clear E. unfold block_addr, slot_of.
  unfold MAXFILE, NDIRECT, NINDIRECT in *. destruct (Z.ltb_spec bn (Z.of_nat 12)).
  - destruct (mapped_adr _ _ _ _ _ (Z.to_nat bn) Hm) as (a & -> & Hp); [lia|]. cbn [mbind option_bind].
    destruct (Z.ltb_spec (Z.of_nat (Z.to_nat bn)) n); [|lia]. destruct Hp as (j & -> & Hj). exists j.
    destruct (Z.eqb_spec (nmeta + Z.of_nat j) 0) as [Hz|]; [change nmeta with 59 in Hz; lia|done].
  - destruct (Z.ltb_spec (bn - Z.of_nat 12) (Z.of_nat 128)); [|lia].
    destruct (mapped_adr _ _ _ _ _ 12 Hm) as (b & Hb & Hp); [lia|]. rewrite Hb. cbn [mbind option_bind].
    destruct (Z.ltb_spec (Z.of_nat 12) n); [|lia]. destruct Hp as (jb & -> & Hjb).
    specialize (Hi _ (Z.to_nat (bn - Z.of_nat 12)) ltac:(lia) Hb ltac:(lia)).
    destruct (Z.ltb_spec (12 + Z.of_nat (Z.to_nat (bn - Z.of_nat 12))) n); [|lia]. destruct Hi as (j & Hg & Hj).
    destruct (Z.eqb_spec (nmeta + Z.of_nat jb) 0) as [Hz|]; [change nmeta with 59 in Hz; lia|].
    rewrite Hg. destruct (Z.eqb_spec (nmeta + Z.of_nat j) 0) as [Hz|]; [change nmeta with 59 in Hz; lia|]. eauto.
Qed.

Lemma points_mono own own' sl u a : own `prefix_of` own' -> points own sl u a -> points own' sl u a.
Proof.
  intros Hp. destruct u; [|done]. intros (j & -> & Hj). exists j. split; [done|]. by eapply prefix_lookup_Some.
Qed.

(** A file is not affected by writes to blocks that belong to others. *)
Lemma file_at_frame I own I' own' i d n f :
  own `prefix_of` own' ->
  (forall j sl, own !! j = Some sl -> slot_inum sl = i -> imgblk I' (nmeta + Z.of_nat j) = imgblk I (nmeta + Z.of_nat j)) ->
  file_on I own i d n f -> file_on I' own' i d n f.
Proof.
  intros Hp Hfr [Hm Hh].
  assert (Hind : forall b, 12 < n -> i_addrs d !! NDIRECT = Some b -> imgblk I' b = imgblk I b).
  { intros b Hn Hb. destruct (mapped_adr _ _ _ _ _ 12 Hm) as (b' & Hb' & Hpb); [lia|]. unfold NDIRECT in Hb. simplify_eq.
    destruct (Z.ltb_spec (Z.of_nat 12) n); [|lia]. destruct Hpb as (j & -> & Hj). by eapply Hfr. }
  assert (Hm' : mapped I' own' i d n).
  { destruct Hm as [Hr Hl Ha Hi]. split; [done|done| |].
    - intros k a Hk. eapply points_mono; [done|]. eauto.
    - intros b k Hn Hb Hk. rewrite (Hind b Hn Hb). eapply points_mono; eauto. }
  split; [done|]. intros bn a Hbn Hba. destruct (mapped_block _ _ _ _ _ _ Hm' Hbn) as (j' & Hj' & _).
  assert (Hsame : block_addr (imgblk I') d bn = block_addr (imgblk I) d bn).
  { unfold block_addr. destruct (bn <? Z.of_nat NDIRECT) eqn:Hd; [done|].
    destruct (i_addrs d !! NDIRECT) as [b|] eqn:Hb; [|done]. cbn [mbind option_bind].
    rewrite (Hind b); [done| |done]. apply Z.ltb_ge in Hd. unfold NDIRECT in Hd. lia. }
  rewrite Hsame in Hba. destruct (mapped_block _ _ _ _ _ _ Hm Hbn) as (j & Hj & Hoj).
  rewrite Hj in Hba. injection Hba as <-. rewrite (Hfr j _ Hoj); [by apply Hh|].
  unfold slot_of. by destruct (bn <? Z.of_nat NDIRECT).
Qed.

(** A file of the image: the bytes of its inode, its mapped blocks, its contents. *)
Record ent := mkEnt { en_din : list Z; en_n : Z; en_bytes : list Z }.

(** The blocks taken by a file with [n] mapped blocks. *)
Definition cost (n : Z) : Z := if 12 <? n then n + 1 else n.
Definition total (fl : list ent) : Z := foldr (fun x t => cost (en_n x) + t) 0 fl.

Record image_ok (s : fsimg) (own : list slot) (fl : list ent) : Prop := {
  im_sized : sized (img s);
  im_free : freeblock s = nmeta + Z.of_nat (length own);
  im_fits : freeblock s <= FSSIZE;
  im_total : Z.of_nat (length own) = total fl;
  im_files : forall k x, fl !! k = Some x ->
    file_on (img s) own (Z.of_nat k + 1) (dino (en_din x)) (en_n x) (en_bytes x);
  im_fresh : forall b, freeblock s <= b < FSSIZE -> imgblk (img s) b = zeroes;
}.

Lemma total_insert fl k x y : fl !! k = Some x -> total (<[k := y]> fl) = total fl + cost (en_n y) - cost (en_n x).
Proof.
  revert k. induction fl as [|z fl IH]; intros k Hk; [done|]. destruct k as [|k].
  - injection Hk as <-. cbn. lia.
  - change (cost (en_n z) + total (<[k := y]> fl) = cost (en_n z) + total fl + cost (en_n y) - cost (en_n x)).
    rewrite (IH k Hk). lia.
Qed.

(** One file changes: some of its blocks are written, and [new] blocks become its own. *)
Lemma image_ok_update s own fl k x s' new y :
  image_ok s own fl -> fl !! k = Some x ->
  sized (img s') -> freeblock s' = nmeta + Z.of_nat (length (own ++ new)) -> freeblock s' <= FSSIZE ->
  Z.of_nat (length new) = cost (en_n y) - cost (en_n x) ->
  (forall j sl, own !! j = Some sl -> slot_inum sl ≠ Z.of_nat k + 1 ->
     imgblk (img s') (nmeta + Z.of_nat j) = imgblk (img s) (nmeta + Z.of_nat j)) ->
  (forall b, freeblock s' <= b < FSSIZE -> imgblk (img s') b = imgblk (img s) b) ->
  file_on (img s') (own ++ new) (Z.of_nat k + 1) (dino (en_din y)) (en_n y) (en_bytes y) ->
  image_ok s' (own ++ new) (<[k := y]> fl).
Proof.
  intros [Hs Hf Hc Ht Hfl Hz] Hk Hs' Hf' Hc' Hn Hfr Hzf Hy. split; [done|done|done| | |].
  - rewrite (total_insert _ _ _ _ Hk), length_app. lia.
  - intros k' x' Hk'. destruct (decide (k = k')) as [<-|Hne].
    + rewrite list_lookup_insert_eq in Hk' by (by eapply lookup_lt_Some). by simplify_eq.
    + rewrite list_lookup_insert_ne in Hk' by done. eapply file_at_frame; [| |by apply Hfl].
      * by apply prefix_app_r.
      * intros j sl Hj Hi. apply (Hfr j sl Hj). lia.
  - intros b Hb. rewrite Hzf by done. apply Hz. rewrite length_app in *. lia.
Qed.

(** ** Mapping one more block *)

Lemma pad_past n f : Z.of_nat (length f) <= 512 * n -> pad (rd (Z.to_nat (512 * n)) 512 f) = zeroes.
Proof. intros H. unfold rd. rewrite drop_ge by lia. by rewrite take_nil. Qed.

Lemma dino_addrs_put din k a j :
  length din = sizeof_dinode -> (k < 13)%nat -> is_u32 a ->
  i_addrs (dino (put32 (o_addrs k) a din)) !! j = if decide (j = k) then Some a else i_addrs (dino din) !! j.
Proof.
  unfold sizeof_dinode. intros Hl Hk Ha. destruct (decide (j < 13)%nat) as [Hj|Hj].
  - rewrite !dino_addrs_lookup by done. case_decide as E.
    + subst j. rewrite get_put32, u32_id by (done || (unfold o_addrs; lia)). done.
    + rewrite get_put32_ne by (unfold o_addrs; lia). done.
  - case_decide; [lia|]. by rewrite !lookup_ge_None_2 by (rewrite dino_addrs_length; lia).
Qed.

Lemma file_at_adr I own i din n f :
  file_on I own i (dino din) n f -> length din = sizeof_dinode -> n < 12 -> Z.of_nat (length f) <= 512 * n ->
  is_u32 (nmeta + Z.of_nat (length own)) -> imgblk I (nmeta + Z.of_nat (length own)) = zeroes ->
  let din' := put32 (o_addrs (Z.to_nat n)) (nmeta + Z.of_nat (length own)) din in
  file_on I (own ++ [Adr i (Z.to_nat n)]) i (dino din') (n + 1) f /\
  block_addr (imgblk I) (dino din') n = Some (nmeta + Z.of_nat (length own)).
Proof.
  intros [Hm Hh] Hl Hn Hf Hu Hz din'. destruct Hm as [Hr Hla Ha Hi] eqn:E. clear E.
  assert (Hput : forall j, i_addrs (dino din') !! j =
    if decide (j = Z.to_nat n) then Some (nmeta + Z.of_nat (length own)) else i_addrs (dino din) !! j).
  { intros j. apply dino_addrs_put; [done|lia|done]. }
  assert (Hnew : block_addr (imgblk I) (dino din') n = Some (nmeta + Z.of_nat (length own))).
  { unfold block_addr, NDIRECT. destruct (Z.ltb_spec n (Z.of_nat 12)); [|lia]. rewrite Hput, decide_True by done.
    cbn [mbind option_bind]. destruct (Z.eqb_spec (nmeta + Z.of_nat (length own)) 0) as [H0|]; [|done].
    change nmeta with 59 in H0. lia. }
  split; [|done]. split.
  - split; [unfold MAXFILE in *; lia|done| |].
    + intros k a Hk. rewrite Hput in Hk. case_decide as Hd.
      * injection Hk as <-. subst k. destruct (Z.ltb_spec (Z.of_nat (Z.to_nat n)) (n + 1)); [|lia].
        exists (length own). split; [done|]. by rewrite list_lookup_middle.
      * specialize (Ha k a Hk). replace (Z.of_nat k <? n + 1) with (Z.of_nat k <? n)
          by (destruct (Z.ltb_spec (Z.of_nat k) n), (Z.ltb_spec (Z.of_nat k) (n + 1)); lia).
        eapply points_mono; [|done]. by apply prefix_app_r.
    + intros b k Hn'. lia.
  - intros bn a Hbn Hba. destruct (decide (bn = n)) as [->|Hne].
    + rewrite Hnew in Hba. injection Hba as <-. rewrite Hz. by rewrite pad_past.
    + apply Hh; [lia|]. unfold block_addr, NDIRECT in Hba |- *. destruct (Z.ltb_spec bn (Z.of_nat 12)); [|lia].
      rewrite Hput, decide_False in Hba by lia. done.
Qed.

Lemma block_addr_ind view d b bn a :
  12 <= bn < MAXFILE -> i_addrs d !! NDIRECT = Some b -> b ≠ 0 ->
  get32 (4 * Z.to_nat (bn - 12)) (view b) = a -> a ≠ 0 -> block_addr view d bn = Some a.
Proof.
  intros Hbn Hb Hb0 Hg Ha0. unfold block_addr, NDIRECT, NINDIRECT, MAXFILE in *.
  destruct (Z.ltb_spec bn (Z.of_nat 12)); [lia|]. destruct (Z.ltb_spec (bn - Z.of_nat 12) (Z.of_nat 128)); [|lia].
  rewrite Hb. cbn [mbind option_bind]. rewrite (proj2 (Z.eqb_neq b 0)) by done. change (Z.of_nat 12) with 12.
  rewrite Hg. by rewrite (proj2 (Z.eqb_neq a 0)).
Qed.

Section file_at_ind.
Context (I I' : list (list Z)) (own own' : list slot) (i : Z) (d d' : inode) (n : Z) (f : list Z) (jb jn : nat).
Let b := nmeta + Z.of_nat jb.
Let a := nmeta + Z.of_nat jn.
Hypothesis Hf : file_on I own i d n f.
Hypothesis Hn : 12 <= n < MAXFILE.
Hypothesis Hlen : Z.of_nat (length f) <= 512 * n.
Hypothesis Hown : own `prefix_of` own'.
Hypothesis Hl' : length (i_addrs d') = 13%nat.
Hypothesis Hd' : forall k, (k < 12)%nat -> i_addrs d' !! k = i_addrs d !! k.
Hypothesis Hb : i_addrs d' !! NDIRECT = Some b.
Hypothesis Hsame : 12 < n -> i_addrs d !! NDIRECT = Some b.
Hypothesis Hjb : own' !! jb = Some (Adr i NDIRECT).
Hypothesis Hents : forall k, (k < NINDIRECT)%nat -> points own' (Ind i k) (12 + Z.of_nat k <? n) (get32 (4 * k) (imgblk I b)).
Hypothesis Hjn : own' !! jn = Some (Ind i (Z.to_nat (n - 12))).
Hypothesis Hsize : length (imgblk I b) = BSIZE.
Hypothesis Ha : is_u32 a.
Hypothesis Hput : imgblk I' b = put32 (4 * Z.to_nat (n - 12)) a (imgblk I b).
Hypothesis Hfr : forall b', 0 <= b' -> b' ≠ b -> imgblk I' b' = imgblk I b'.
Hypothesis Hz : imgblk I a = zeroes.

Let meta_pos j : nmeta + Z.of_nat j ≠ 0.
Proof. change nmeta with 59. lia. Qed.

(** The entry [k] of the indirect block after the new one was stored. *)
Lemma ind_entry k : (k < NINDIRECT)%nat ->
  get32 (4 * k) (imgblk I' b) = if decide (k = Z.to_nat (n - 12)) then a else get32 (4 * k) (imgblk I b).
Proof.
  unfold NINDIRECT, MAXFILE, BSIZE in *. intros Hk. rewrite Hput. case_decide as E.
  - subst k. rewrite get_put32 by lia. by apply u32_id.
  - rewrite get_put32_ne by lia. done.
Qed.

Lemma file_at_ind_new : block_addr (imgblk I') d' n = Some a.
Proof.
  apply (block_addr_ind _ _ b); [done|done|apply meta_pos| |apply meta_pos].
  rewrite ind_entry by (unfold NINDIRECT, MAXFILE in *; lia). by rewrite decide_True.
Qed.

Lemma file_at_ind_mapped : mapped I' own' i d' (n + 1).
Proof.
  destruct Hf as [[Hr Hl Hadr _] _]. split; [unfold MAXFILE in *; lia|done| |].
  - intros k x Hk. assert (k < 13)%nat by (apply lookup_lt_Some in Hk; lia).
    destruct (Z.ltb_spec (Z.of_nat k) (n + 1)); [|lia].
    destruct (decide (k = 12%nat)) as [->|Hne].
    + unfold NDIRECT in Hb. rewrite Hb in Hk. injection Hk as <-. by exists jb.
    + rewrite Hd' in Hk by lia. specialize (Hadr k x Hk). destruct (Z.ltb_spec (Z.of_nat k) n); [|lia].
      by eapply points_mono.
  - intros b' k _ Hb' Hk. rewrite Hb in Hb'. injection Hb' as <-. rewrite ind_entry by done. case_decide as E.
    + subst k. destruct (Z.ltb_spec (12 + Z.of_nat (Z.to_nat (n - 12))) (n + 1)); [|lia]. by exists jn.
    + specialize (Hents k Hk). replace (12 + Z.of_nat k <? n + 1) with (12 + Z.of_nat k <? n); [done|].
      destruct (Z.ltb_spec (12 + Z.of_nat k) n), (Z.ltb_spec (12 + Z.of_nat k) (n + 1)); lia.
Qed.

(** The blocks that were mapped keep their place. *)
Lemma file_at_ind_old bn : 0 <= bn < n -> block_addr (imgblk I') d' bn = block_addr (imgblk I) d bn.
Proof.
  intros Hbn. unfold block_addr. destruct (Z.ltb_spec bn (Z.of_nat NDIRECT)) as [Hlt|Hge].
  - rewrite Hd' by (unfold NDIRECT in *; lia). done.
  - unfold NDIRECT, MAXFILE in Hge, Hn. destruct (Z.ltb_spec (bn - Z.of_nat NDIRECT) (Z.of_nat NINDIRECT)) as [Hi|]; [|done].
    rewrite Hb, Hsame by lia. cbn [mbind option_bind]. rewrite ind_entry by (unfold NDIRECT, NINDIRECT in *; lia).
    rewrite decide_False by (unfold NDIRECT; lia). done.
Qed.

Lemma file_at_ind : file_on I' own' i d' (n + 1) f /\ block_addr (imgblk I') d' n = Some a.
Proof using All.
  split; [|apply file_at_ind_new]. split; [apply file_at_ind_mapped|]. intros bn x Hbn Hx.
  assert (Hne : jn ≠ jb) by (intros ->; rewrite Hjb in Hjn; discriminate).
  destruct (decide (bn = n)) as [->|].
  - rewrite file_at_ind_new in Hx. injection Hx as <-. rewrite Hfr, Hz by (unfold a, b; change nmeta with 59 in *; lia).
    by rewrite pad_past.
  - rewrite file_at_ind_old in Hx by lia. destruct Hf as [Hm Hh].
    destruct (mapped_block _ _ _ _ _ bn Hm) as (j & Hj & Hoj); [lia|]. rewrite Hj in Hx. injection Hx as <-.
    assert (j ≠ jb). { intros ->. rewrite (prefix_lookup_Some _ _ _ _ Hoj Hown) in Hjb. unfold slot_of, NDIRECT in Hjb.
      destruct (Z.ltb_spec bn (Z.of_nat 12)); [|done]. injection Hjb. lia. }
    rewrite Hfr by (unfold b; change nmeta with 59 in *; lia). apply Hh; [lia|done].
Qed.

End file_at_ind.

Lemma ensure_addr_old k din s a :
  get32 (o_addrs k) din = a -> is_u32 a -> a ≠ 0 -> ensure_addr Little k din s = (din, s).
Proof.
  intros Hg Hu Hne. unfold ensure_addr. rewrite uint_at_little, Hg, xint_id by done. by rewrite (proj2 (Z.eqb_neq a 0)).
Qed.

Lemma ensure_addr_new k din s :
  get32 (o_addrs k) din = 0 -> 0 <= freeblock s <= FSSIZE ->
  ensure_addr Little k din s = (put32 (o_addrs k) (freeblock s) din, mkImg (img s) (freeinode s) (freeblock s + 1)).
Proof.
  intros Hg Hu. unfold ensure_addr, next_block. rewrite uint_at_little, Hg. cbn [Z.eqb]. change (xint Little 0) with 0.
  cbn [Z.eqb]. rewrite xint_id, u32_id by (unfold is_u32, FSSIZE in *; lia). by rewrite set_uint_little.
Qed.

(** The indirect branch, when the entry is not in use. *)
Lemma iappend_block_ind fbn din s din' s1 b :
  12 <= fbn < MAXFILE -> ensure_addr Little NDIRECT din s = (din', s1) -> get32 (o_addrs NDIRECT) din' = b ->
  0 <= b < FSSIZE -> sized (img s1) -> get32 (4 * Z.to_nat (fbn - 12)) (imgblk (img s1) b) = 0 ->
  0 <= freeblock s1 <= FSSIZE ->
  iappend_block Little fbn din s = Some (freeblock s1, din',
    mkImg (<[Z.to_nat b := put32 (4 * Z.to_nat (fbn - 12)) (freeblock s1) (imgblk (img s1) b)]> (img s1))
      (freeinode s1) (freeblock s1 + 1)).
Proof.
  intros Hfbn He Hb Hbr Hs Hg Hu. unfold iappend_block. unfold NDIRECT at 1. unfold MAXFILE in Hfbn.
  destruct (Z.ltb_spec fbn (Z.of_nat 12)); [lia|]. rewrite He.
  rewrite !uint_at_little, Hb, xint_id by (unfold is_u32, FSSIZE in *; lia).
  rewrite rsect_blk by done. cbn [mbind option_bind]. change (Z.of_nat NDIRECT) with 12.
  rewrite uint_at_little, Hg. cbn [Z.eqb]. unfold next_block.
  rewrite (xint_id (freeblock s1)), (u32_id (freeblock s1 + 1)) by (unfold is_u32, FSSIZE in *; lia).
  rewrite set_uint_little, wsect_img by done.
  rewrite uint_at_little, get_put32 by (rewrite sized_blk by done; unfold BSIZE; lia).
  rewrite u32_id, xint_id by (unfold is_u32, FSSIZE in *; lia). done.
Qed.

(** What else [iappend] leaves alone. *)
Definition quiet (s : fsimg) (din : list Z) (s' : fsimg) (din' : list Z) : Prop :=
  freeinode s' = freeinode s /\ length din' = length din /\ rd 0 12 din' = rd 0 12 din /\
  forall b, 0 <= b < nmeta -> imgblk (img s') b = imgblk (img s) b.

Lemma quiet_refl s din : quiet s din s din.
Proof. done. Qed.

Lemma quiet_trans s din s1 din1 s2 din2 : quiet s din s1 din1 -> quiet s1 din1 s2 din2 -> quiet s din s2 din2.
Proof.
  intros (Hf & Hl & Hr & Hb) (Hf' & Hl' & Hr' & Hb'). split; [congruence|]. split; [congruence|]. split; [congruence|].
  intros b Hbr. by rewrite Hb', Hb.
Qed.

Lemma rd_put_addr k a din : length din = sizeof_dinode -> (k < 13)%nat -> rd 0 12 (put32 (o_addrs k) a din) = rd 0 12 din.
Proof. unfold sizeof_dinode, o_addrs. intros Hl Hk. apply rd_wr_disj; rewrite length_le_bytes; lia. Qed.

Lemma block_addr_ind_inv view d bn b a :
  block_addr view d bn = Some a -> 12 <= bn -> i_addrs d !! NDIRECT = Some b ->
  get32 (4 * Z.to_nat (bn - 12)) (view b) = a /\ a ≠ 0.
Proof.
  intros Hba Hbn Hb. unfold block_addr in Hba. rewrite Hb in Hba. change (Z.of_nat NDIRECT) with 12 in Hba.
  destruct (Z.ltb_spec bn 12); [lia|]. destruct (bn - 12 <? Z.of_nat NINDIRECT); [|done]. cbn [mbind option_bind] in Hba.
  destruct (b =? 0); [done|]. destruct (Z.eqb_spec (get32 (4 * Z.to_nat (bn - 12)) (view b)) 0); [done|].
  injection Hba as <-. done.
Qed.

Lemma le_Z_zeros n : le_Z (replicate n 0) = 0.
Proof. induction n; [done|]. cbn. by rewrite IHn. Qed.

Lemma get32_zeroes off : get32 off zeroes = 0.
Proof. unfold get32, rd, zeroes. rewrite drop_replicate, take_replicate. apply le_Z_zeros. Qed.

Section iappend_block.
Context (s : fsimg) (own : list slot) (fl : list ent) (k : nat) (x : ent).
Hypothesis Hok : image_ok s own fl.
Hypothesis Hk : fl !! k = Some x.
Hypothesis Hdin : length (en_din x) = sizeof_dinode.
Hypothesis Hlen : Z.of_nat (length (en_bytes x)) <= 512 * en_n x.
Let n := en_n x.
Let din := en_din x.

Definition block_at fbn n' :=
  exists a din' s' own', iappend_block Little fbn din s = Some (a, din', s') /\
    image_ok s' own' (<[k := mkEnt din' n' (en_bytes x)]> fl) /\
    block_addr (imgblk (img s')) (dino din') fbn = Some a /\ quiet s din s' din'.

Lemma iappend_block_old fbn : 0 <= fbn < n -> block_at fbn n.
Proof.
  intros Hfbn. destruct Hok as [Hs Hf Hc Ht Hfl Hz]. destruct (Hfl k x Hk) as [Hm Hh].
  fold din n in Hm, Hh. pose proof (mp_range _ _ _ _ _ Hm) as Hr. unfold MAXFILE in Hr.
  destruct (mapped_block _ _ _ _ _ _ Hm Hfbn) as (j & Hj & Hoj).
  assert (Hown : forall j sl, own !! j = Some sl -> nmeta + Z.of_nat j < FSSIZE).
  { intros j' sl Hl%lookup_lt_Some. lia. }
  pose proof (Hown _ _ Hoj) as Hjr. change nmeta with 59 in *. unfold FSSIZE in *.
  exists (59 + Z.of_nat j), din, s, own. split; [|split; [|split; [done|apply quiet_refl]]].
  - unfold iappend_block. destruct (Z.ltb_spec fbn (Z.of_nat NDIRECT)) as [Hd|Hd]; unfold NDIRECT in Hd.
    + unfold block_addr, NDIRECT in Hj. destruct (Z.ltb_spec fbn (Z.of_nat 12)); [|lia].
      rewrite dino_addrs_lookup in Hj by lia. cbn [mbind option_bind] in Hj. case_match; [done|]. injection Hj as Hj.
      rewrite (ensure_addr_old _ _ _ _ Hj) by (unfold is_u32; lia).
      rewrite uint_at_little, Hj, xint_id by (unfold is_u32; lia). done.
    + destruct (mapped_adr _ _ _ _ _ 12 Hm) as (b & Hb & Hp); [lia|]. rewrite dino_addrs_lookup in Hb by lia.
      injection Hb as Hb. destruct (Z.ltb_spec (Z.of_nat 12) n); [|lia]. destruct Hp as (jb & Eb & Hjb).
      pose proof (Hown _ _ Hjb). change nmeta with 59 in Eb.
      rewrite (ensure_addr_old NDIRECT _ _ _ Hb) by (unfold is_u32; lia).
      destruct (block_addr_ind_inv _ _ _ b _ Hj) as [Hg Hg0]; [lia|by rewrite dino_addrs_lookup, <- Hb by (unfold NDIRECT; lia)|].
      rewrite uint_at_little. change (get32 (o_addrs NDIRECT) din = b) in Hb. rewrite Hb.
      rewrite xint_id, rsect_blk by (unfold is_u32, FSSIZE; (done || lia)). cbn [mbind option_bind].
      change (Z.of_nat NDIRECT) with 12. rewrite uint_at_little, Hg, (proj2 (Z.eqb_neq _ 0)) by done.
      rewrite uint_at_little, Hg, xint_id by (unfold is_u32; lia). done.
  - unfold n, din. replace (mkEnt (en_din x) (en_n x) (en_bytes x)) with x by (by destruct x). by rewrite list_insert_id.
Qed.

Let own_lt j sl : own !! j = Some sl -> nmeta + Z.of_nat j < freeblock s.
Proof. intros Hl%lookup_lt_Some. rewrite (im_free _ _ _ Hok). lia. Qed.

Lemma iappend_block_adr : n < 12 -> freeblock s < FSSIZE -> block_at n (n + 1).
Proof.
  intros Hn Hcap. destruct Hok as [Hs Hf Hc Ht Hfl Hz]. destruct (Hfl k x Hk) as [Hm Hh] eqn:E. clear E. fold n din in Hm.
  pose proof (mp_range _ _ _ _ _ Hm) as Hr. destruct (mapped_adr _ _ _ _ _ (Z.to_nat n) Hm) as (a & Ha & Hp); [lia|].
  destruct (Z.ltb_spec (Z.of_nat (Z.to_nat n)) n); [lia|]. cbn in Hp. subst a.
  rewrite dino_addrs_lookup in Ha by lia. injection Ha as Ha. change nmeta with 59 in Hf. unfold FSSIZE in *.
  destruct (file_at_adr (img s) own (Z.of_nat k + 1) din n (en_bytes x)) as [Hfa Hba];
    [by apply Hfl|done|done|done|unfold is_u32; change nmeta with 59; lia|apply Hz; change nmeta with 59; lia|].
  change nmeta with 59 in Hba, Hfa. rewrite <- Hf in Hba, Hfa.
  exists (freeblock s), (put32 (o_addrs (Z.to_nat n)) (freeblock s) din), (mkImg (img s) (freeinode s) (freeblock s + 1)),
    (own ++ [Adr (Z.of_nat k + 1) (Z.to_nat n)]). split; [|split; [|split; [done|]]].
  - unfold iappend_block, NDIRECT. destruct (Z.ltb_spec n (Z.of_nat 12)); [|lia].
    rewrite ensure_addr_new by (done || (unfold FSSIZE; lia)).
    rewrite uint_at_little, get_put32 by (unfold din; rewrite Hdin; unfold sizeof_dinode, o_addrs; lia).
    rewrite u32_id, xint_id by (unfold is_u32; lia). done.
  - eapply (image_ok_update s own fl k x); [done|done|done| | | | | |].
    + cbn [freeblock]. rewrite length_app. cbn [length]. change nmeta with 59. lia.
    + cbn [freeblock]. unfold FSSIZE. lia.
    + cbn [en_n length]. fold n. unfold cost. destruct (Z.ltb_spec 12 n), (Z.ltb_spec 12 (n + 1)); lia.
    + done.
    + done.
    + done.
  - split; [done|]. split; [apply length_put32|]. split; [by apply rd_put_addr; [|lia]|done].
Qed.

(** The indirect branch, from the facts about the indirect block. *)
Lemma iappend_block_entry din' s1 jb jn new :
  (jn + 1 = length own + length new)%nat ->
  12 <= n < MAXFILE -> nmeta + Z.of_nat jn < FSSIZE ->
  ensure_addr Little NDIRECT din s = (din', s1) -> s1 = mkImg (img s) (freeinode s) (nmeta + Z.of_nat jn) ->
  get32 (o_addrs NDIRECT) din' = nmeta + Z.of_nat jb -> (jb < jn)%nat ->
  (forall j, (j < 12)%nat -> i_addrs (dino din') !! j = i_addrs (dino din) !! j) ->
  (12 < n -> i_addrs (dino din) !! NDIRECT = Some (nmeta + Z.of_nat jb)) ->
  (own ++ new) !! jb = Some (Adr (Z.of_nat k + 1) NDIRECT) ->
  (own ++ new) !! jn = Some (Ind (Z.of_nat k + 1) (Z.to_nat (n - 12))) ->
  (forall j, (j < NINDIRECT)%nat -> points (own ++ new) (Ind (Z.of_nat k + 1) j) (12 + Z.of_nat j <? n)
     (get32 (4 * j) (imgblk (img s) (nmeta + Z.of_nat jb)))) ->
  new ≠ [] -> Z.of_nat (length new) = cost (n + 1) - cost n ->
  length din' = length din -> rd 0 12 din' = rd 0 12 din ->
  block_at n (n + 1).
Proof.
  intros Ejn Hn Hcap He Es1 Hb Hjbn Hadr Hsame Hjb Hjn Hents Hnew Hcost Hl' Hrd.
  destruct Hok as [Hs Hf Hc Ht Hfl Hz]. assert (Hm59 : nmeta = 59) by done.
  destruct new as [|sl0 new0] eqn:Enew; [done|]. rewrite <- Enew in *. assert (0 < length new)%nat by (subst new; cbn; lia).
  assert (Hfree : freeblock s <= nmeta + Z.of_nat jn) by lia.
  assert (Hzn : imgblk (img s) (nmeta + Z.of_nat jn) = zeroes) by (apply Hz; lia).
  set (b := nmeta + Z.of_nat jb) in *. set (a := nmeta + Z.of_nat jn) in *.
  assert (Hg0 : get32 (4 * Z.to_nat (n - 12)) (imgblk (img s) b) = 0).
  { specialize (Hents (Z.to_nat (n - 12))). destruct (Z.ltb_spec (12 + Z.of_nat (Z.to_nat (n - 12))) n); [lia|].
    apply Hents. unfold NINDIRECT, MAXFILE in *. lia. }
  pose proof (iappend_block_ind n din s din' s1 b Hn He Hb) as Hrun. subst s1.
  cbn [img freeblock freeinode] in Hrun. specialize (Hrun ltac:(lia) Hs Hg0 ltac:(lia)).
  eexists a, din', _, (own ++ new). split; [exact Hrun|].
  set (I' := <[Z.to_nat b := put32 (4 * Z.to_nat (n - 12)) a (imgblk (img s) b)]> (img s)).
  assert (HbI : length (imgblk (img s) b) = BSIZE) by (apply sized_blk; [done|lia]).
  assert (HIb : forall b', 0 <= b' -> b' ≠ b -> imgblk I' b' = imgblk (img s) b').
  { intros b' Hb' Hne. unfold I'. rewrite blk_insert by (assumption || lia). by rewrite (proj2 (Z.eqb_neq b b')). }
  assert (Hput : imgblk I' b = put32 (4 * Z.to_nat (n - 12)) a (imgblk (img s) b)).
  { unfold I'. rewrite blk_insert by (assumption || lia). by rewrite Z.eqb_refl. }
  assert (Hua : is_u32 a) by (unfold is_u32, FSSIZE in *; lia).
  assert (Hb12 : i_addrs (dino din') !! NDIRECT = Some b).
  { rewrite dino_addrs_lookup by (unfold NDIRECT; lia). by rewrite Hb. }
  assert (Hpre : own `prefix_of` own ++ new) by (by apply prefix_app_r).
  destruct (file_at_ind (img s) I' own (own ++ new) (Z.of_nat k + 1) (dino din) (dino din') n (en_bytes x) jb jn
    (Hfl k x Hk) Hn Hlen Hpre (dino_addrs_length _) Hadr Hb12 Hsame Hjb Hents Hjn HbI Hua Hput HIb Hzn) as [Hfa Hba].
  split; [|split; [exact Hba|]].
  - eapply (image_ok_update s own fl k x); [done|done| | | | | | |exact Hfa].
    + cbn [img]. apply sized_insert; [done|]. by rewrite length_put32.
    + cbn [freeblock]. rewrite length_app. lia.
    + cbn [freeblock]. lia.
    + exact Hcost.
    + intros j sl Hj Hne. apply HIb; [lia|]. intros Eb. assert (j = jb) as -> by lia.
      rewrite (prefix_lookup_Some _ _ _ _ Hj Hpre) in Hjb. injection Hjb as ->. by apply Hne.
    + intros b' Hb'. cbn [freeblock] in Hb'. apply HIb; lia.
  - split; [done|]. split; [done|]. split; [done|]. intros b' Hb'. apply HIb; lia.
Qed.

Lemma iappend_block_first : n = 12 -> freeblock s + 1 < FSSIZE -> block_at n (n + 1).
Proof.
  intros Hn Hcap. destruct Hok as [Hs Hf Hc Ht Hfl Hz]. destruct (Hfl k x Hk) as [Hm Hh] eqn:E. clear E. fold n din in Hm.
  destruct (mapped_adr _ _ _ _ _ 12 Hm) as (a & Ha & Hp); [lia|]. destruct (Z.ltb_spec (Z.of_nat 12) n); [lia|]. cbn in Hp. subst a.
  rewrite dino_addrs_lookup in Ha by lia. injection Ha as Ha. assert (Hm59 : nmeta = 59) by done.
  assert (Hz0 : imgblk (img s) (nmeta + Z.of_nat (length own)) = zeroes) by (apply Hz; lia).
  apply (iappend_block_entry (put32 (o_addrs NDIRECT) (freeblock s) din) (mkImg (img s) (freeinode s) (freeblock s + 1))
    (length own) (length own + 1) [Adr (Z.of_nat k + 1) NDIRECT; Ind (Z.of_nat k + 1) 0]).
  - cbn [length]. lia.
  - rewrite Hn. unfold MAXFILE. lia.
  - lia.
  - apply ensure_addr_new; [done|lia].
  - f_equal. lia.
  - rewrite get_put32 by (unfold din; rewrite Hdin; unfold sizeof_dinode, o_addrs, NDIRECT; lia).
    rewrite u32_id by (unfold is_u32, FSSIZE in *; lia). done.
  - lia.
  - intros j Hj. rewrite dino_addrs_put; [|done|unfold NDIRECT; lia|unfold is_u32, FSSIZE in *; lia].
    rewrite decide_False by (unfold NDIRECT; lia). done.
  - lia.
  - by rewrite list_lookup_middle.
  - rewrite lookup_app_r by lia. replace (length own + 1 - length own)%nat with 1%nat by lia. by rewrite Hn.
  - intros j Hj. rewrite Hz0, Hn. destruct (Z.ltb_spec (12 + Z.of_nat j) 12); [lia|]. apply get32_zeroes.
  - done.
  - by rewrite Hn.
  - apply length_put32.
  - apply rd_put_addr; [done|unfold NDIRECT; lia].
Qed.

Lemma iappend_block_next : 12 < n < MAXFILE -> freeblock s < FSSIZE -> block_at n (n + 1).
Proof.
  intros Hn Hcap. destruct Hok as [Hs Hf Hc Ht Hfl Hz]. destruct (Hfl k x Hk) as [Hm Hh] eqn:E. clear E. fold n din in Hm.
  destruct (mapped_adr _ _ _ _ _ 12 Hm) as (b & Hb & Hp); [lia|]. destruct (Z.ltb_spec (Z.of_nat 12) n); [|lia].
  destruct Hp as (jb & -> & Hjb). pose proof (own_lt _ _ Hjb). assert (Hm59 : nmeta = 59) by done.
  pose proof Hb as Hg. rewrite dino_addrs_lookup in Hg by lia. injection Hg as Hg.
  apply (iappend_block_entry din s jb (length own) [Ind (Z.of_nat k + 1) (Z.to_nat (n - 12))]).
  - done.
  - lia.
  - lia.
  - by apply (ensure_addr_old NDIRECT din s _ Hg); [unfold is_u32, FSSIZE in *; lia|lia].
  - rewrite <- Hf. by destruct s.
  - done.
  - apply lookup_lt_Some in Hjb. lia.
  - done.
  - done.
  - by apply lookup_app_l_Some.
  - by rewrite list_lookup_middle.
  - intros j Hj. eapply points_mono; [by apply prefix_app_r|]. apply (mp_ind _ _ _ _ _ Hm); [lia|done|done].
  - done.
  - unfold cost. destruct (Z.ltb_spec 12 n), (Z.ltb_spec 12 (n + 1)); cbn [length]; lia.
  - done.
  - done.
Qed.

(** [iappend] finds block [fbn] of the file, or maps it when it is the next one. *)
Lemma iappend_block_spec fbn :
  0 <= fbn <= n -> fbn < MAXFILE ->
  freeblock s + cost (Z.max n (fbn + 1)) - cost n <= FSSIZE -> block_at fbn (Z.max n (fbn + 1)).
Proof.
  intros Hfbn Hmax Hcap. destruct (decide (fbn < n)) as [Hlt|Hge].
  - rewrite Z.max_l by lia. apply iappend_block_old. lia.
  - replace fbn with n in * by lia. rewrite Z.max_r in Hcap |- * by lia. unfold cost in Hcap.
    destruct (decide (n < 12)), (decide (n = 12)); destruct (Z.ltb_spec 12 n), (Z.ltb_spec 12 (n + 1)); try lia;
      [apply iappend_block_adr|apply iappend_block_first|apply iappend_block_next]; lia.
Qed.
End iappend_block.

(** ** Appending to a file *)

Lemma wr_pad c q : (length c + length q <= BSIZE)%nat -> wr (length c) q (pad c) = pad (c ++ q).
Proof.
  intros H. unfold wr, pad. rewrite take_app_length, length_app, length_replicate, (take_ge q) by lia.
  rewrite <- app_assoc. f_equal. f_equal. rewrite drop_app_ge, drop_replicate by lia. rewrite length_app. f_equal. lia.
Qed.

Lemma rd_app_l off n (f q : list Z) : (off + n <= length f)%nat -> rd off n (f ++ q) = rd off n f.
Proof. intros H. unfold rd. rewrite drop_app_le by lia. by rewrite take_app_le by (rewrite length_drop; lia). Qed.

Lemma rd_rest off n (f : list Z) : (length f <= off + n)%nat -> rd off n f = drop off f.
Proof. intros H. unfold rd. apply take_ge. rewrite length_drop. lia. Qed.

Lemma slot_of_inj i bn bn' : 0 <= bn -> 0 <= bn' -> slot_of i bn = slot_of i bn' -> bn = bn'.
Proof.
  intros H H'. unfold slot_of, NDIRECT. destruct (Z.ltb_spec bn (Z.of_nat 12)), (Z.ltb_spec bn' (Z.of_nat 12)); intros [=]; lia.
Qed.

Lemma slot_of_inum i bn : slot_inum (slot_of i bn) = i.
Proof. unfold slot_of. by destruct (bn <? Z.of_nat NDIRECT). Qed.

Lemma holds_append I I' i own d bn a f q :
  file_on I own i d (bn + 1) f -> 0 <= bn -> block_addr (imgblk I) d bn = Some a ->
  512 * bn <= Z.of_nat (length f) -> Z.of_nat (length f) + Z.of_nat (length q) <= 512 * (bn + 1) ->
  imgblk I' a = wr (Z.to_nat (Z.of_nat (length f) - 512 * bn)) q (imgblk I a) ->
  (forall b, 0 <= b -> b ≠ a -> imgblk I' b = imgblk I b) ->
  (forall bn', 0 <= bn' <= bn -> block_addr (imgblk I') d bn' = block_addr (imgblk I) d bn') ->
  holds I' d (bn + 1) (f ++ q).
Proof.
  intros [Hm Hh] Hbn Ha Hlo Hhi Hw Hfr Hsame bn' a' Hbn' Ha'. rewrite Hsame in Ha' by lia.
  destruct (decide (bn' = bn)) as [->|Hne].
  - rewrite Ha in Ha'. injection Ha' as <-. rewrite Hw, (Hh bn a) by (done || lia).
    rewrite !rd_rest by (rewrite ?length_app; lia). rewrite drop_app_le by lia.
    rewrite <- wr_pad by (rewrite length_drop; unfold BSIZE; lia). f_equal. rewrite length_drop. lia.
  - destruct (mapped_block _ _ _ _ _ bn Hm) as (j & Hj & Ho); [lia|].
    destruct (mapped_block _ _ _ _ _ bn' Hm) as (j' & Hj' & Ho'); [lia|].
    rewrite Ha in Hj. rewrite Ha' in Hj'. injection Hj as ->. injection Hj' as ->.
    rewrite Hfr; [|change nmeta with 59; lia|].
    + rewrite rd_app_l by lia. apply Hh; [lia|done].
    + intros E. assert (j' = j) as -> by lia. rewrite Ho in Ho'. injection Ho' as Ho'. apply slot_of_inj in Ho'; lia.
Qed.

(** The block [a] that the bytes go to belongs to the file, and is not its indirect block. *)
Lemma image_ok_write s own fl k din bn f a q :
  image_ok s own fl -> fl !! k = Some (mkEnt din (bn + 1) f) -> 0 <= bn -> block_addr (imgblk (img s)) (dino din) bn = Some a ->
  512 * bn <= Z.of_nat (length f) -> Z.of_nat (length f) + Z.of_nat (length q) <= 512 * (bn + 1) ->
  let r := Z.to_nat (Z.of_nat (length f) - 512 * bn) in
  let s' := mkImg (<[Z.to_nat a := wr r q (imgblk (img s) a)]> (img s)) (freeinode s) (freeblock s) in
  nmeta <= a < FSSIZE /\ image_ok s' own (<[k := mkEnt din (bn + 1) (f ++ q)]> fl) /\ quiet s din s' din.
Proof.
  intros Hok Hk Hbn Ha Hlo Hhi r s'. destruct Hok as [Hs Hf Hc Ht Hfl Hz] eqn:E. clear E.
  assert (Hm59 : nmeta = 59) by done. destruct (Hfl k _ Hk) as [Hm Hh] eqn:E. clear E. cbn [en_din en_n en_bytes] in Hm, Hh.
  destruct (mapped_block _ _ _ _ _ bn Hm) as (j & Hj & Ho); [lia|]. rewrite Ha in Hj. injection Hj as ->.
  pose proof (lookup_lt_Some _ _ _ Ho) as Hjl. set (a := nmeta + Z.of_nat j) in *.
  assert (Har : nmeta <= a < FSSIZE) by lia. split; [done|].
  assert (HIb : forall b, 0 <= b -> b ≠ a -> imgblk (img s') b = imgblk (img s) b).
  { intros b Hb Hne. cbn [img s']. rewrite blk_insert by (assumption || lia). by rewrite (proj2 (Z.eqb_neq a b)) by done. }
  assert (HIa : imgblk (img s') a = wr r q (imgblk (img s) a)).
  { cbn [img s']. rewrite blk_insert by (assumption || lia). by rewrite Z.eqb_refl. }
  assert (Hind : forall b, 12 < bn + 1 -> i_addrs (dino din) !! NDIRECT = Some b -> imgblk (img s') b = imgblk (img s) b).
  { intros b Hlt Hb. pose proof (mp_adr _ _ _ _ _ Hm NDIRECT b Hb) as Hp. unfold NDIRECT in Hp.
    destruct (Z.ltb_spec (Z.of_nat 12) (bn + 1)); [|lia]. destruct Hp as (jb & -> & Hjb). apply HIb; [lia|].
    intros E. assert (jb = j) as -> by lia. rewrite Ho in Hjb. injection Hjb as Hjb. unfold slot_of, NDIRECT in Hjb.
    destruct (Z.ltb_spec bn (Z.of_nat 12)); [injection Hjb; lia|done]. }
  split; [|split; [done|]; split; [done|]; split; [done|]; intros b Hb; apply HIb; lia].
  rewrite <- (app_nil_r own). eapply (image_ok_update s own fl k _ s' []); [done|exact Hk| | | | | | |]; rewrite ?app_nil_r.
  - apply sized_insert; [done|]. rewrite length_wr. apply sized_blk; [done|lia].
  - done.
  - done.
  - cbn [en_n length]. lia.
  - intros j' sl Hj' Hne. apply HIb; [lia|]. intros E. assert (j' = j) as -> by lia. rewrite Ho in Hj'. injection Hj' as <-.
    by rewrite slot_of_inum in Hne.
  - intros b Hb. cbn [freeblock s'] in Hb. apply HIb; lia.
  - cbn [en_din en_n en_bytes]. split.
    + destruct Hm as [Hr Hl Hadr Hi]. split; [done|done|done|]. intros b i Hlt Hb Hi'. rewrite (Hind b Hlt Hb). eauto.
    + eapply (holds_append (img s)); [exact (Hfl k _ Hk)|done|exact Ha|done|done|done|done|].
      intros bn' Hbn'. unfold block_addr. destruct (Z.ltb_spec bn' (Z.of_nat NDIRECT)) as [|Hge]; [done|].
      destruct (i_addrs (dino din) !! NDIRECT) as [b|] eqn:Hb; [|done]. cbn [mbind option_bind].
      rewrite (Hind b); [done|unfold NDIRECT in *; lia|done].
Qed.

Definition nblk (f : list Z) : Z := (Z.of_nat (length f) + 511) / 512.

Lemma nblk_turn f q :
  (0 < length q)%nat -> Z.of_nat (length f) + Z.of_nat (length q) <= 512 * (Z.of_nat (length f) / 512 + 1) ->
  nblk (f ++ q) = Z.of_nat (length f) / 512 + 1 /\ Z.max (nblk f) (Z.of_nat (length f) / 512 + 1) = nblk (f ++ q) /\
  Z.of_nat (length f) / 512 <= nblk f /\ Z.of_nat (length f) <= 512 * nblk f.
Proof.
  intros Hq Hb. unfold nblk. rewrite length_app, Nat2Z.inj_add. set (m := Z.of_nat (length f)) in *.
  set (l := Z.of_nat (length q)) in *. assert (0 < l) by lia.
  assert (Hm : 0 <= m) by lia. clearbody m l. Z.to_euclidean_division_equations. lia.
Qed.

Lemma nblk_mono (f g : list Z) : (length f <= length g)%nat -> nblk f <= nblk g.
Proof. intros H. unfold nblk. apply Z.div_le_mono; lia. Qed.

Lemma cost_mono n m : n <= m -> cost n <= cost m.
Proof. intros H. unfold cost. destruct (Z.ltb_spec 12 n), (Z.ltb_spec 12 m); lia. Qed.

Lemma image_ok_free s own fl : image_ok s own fl -> freeblock s = nmeta + total fl.
Proof. intros H. rewrite (im_free _ _ _ H), (im_total _ _ _ H). done. Qed.

Lemma iappend_loop_spec fuel p : forall s own fl k din f,
  image_ok s own fl -> fl !! k = Some (mkEnt din (nblk f) f) -> length din = sizeof_dinode -> (length p <= fuel)%nat ->
  Z.of_nat (length (f ++ p)) <= 512 * MAXFILE ->
  freeblock s + cost (nblk (f ++ p)) - cost (nblk f) <= FSSIZE ->
  exists din' s' own', iappend_loop Little fuel p (Z.of_nat (length f)) din s = Some (Z.of_nat (length (f ++ p)), din', s') /\
    image_ok s' own' (<[k := mkEnt din' (nblk (f ++ p)) (f ++ p)]> fl) /\ quiet s din s' din'.
Proof.
  revert p. induction fuel as [|fuel IH]; intros p s own fl k din f Hok Hk Hl Hp Hmax Hcap.
  all: destruct (decide (p = [])) as [->|Hne].
  1,3: rewrite app_nil_r; exists din, s, own; rewrite list_insert_id by done; auto using quiet_refl.
  { destruct p; [done|]. cbn in Hp. lia. }
  assert (Hp0 : (0 < length p)%nat) by (destruct p; [done|cbn; lia]).
  cbn [iappend_loop]. destruct (Z.ltb_spec 0 (Z.of_nat (length p))); [|lia]. cbn [negb].
  change (Z.of_nat BSIZE) with 512. set (m := Z.of_nat (length f)) in *. set (fbn := m / 512) in *.
  assert (Hfbn : 512 * fbn <= m < 512 * fbn + 512). { unfold fbn. pose proof (Z.div_mod m 512). pose proof (Z.mod_pos_bound m 512). lia. }
  set (n1 := Z.to_nat (Z.min (Z.of_nat (length p)) ((fbn + 1) * 512 - m))).
  assert (Hn1 : (0 < n1 <= length p)%nat) by lia.
  assert (Hq : length (take n1 p) = n1) by (rewrite length_take; lia).
  rewrite length_app in Hmax. destruct (Z.ltb_spec fbn MAXFILE); [|lia]. cbn [negb].
  destruct (nblk_turn f (take n1 p)) as (En & Emax & Hle & Hf512); [lia|fold m fbn; lia|]. fold m fbn in En, Emax, Hle.
  assert (Hmono : cost (nblk (f ++ take n1 p)) <= cost (nblk (f ++ p))).
  { apply cost_mono, nblk_mono. rewrite !length_app, Hq. lia. }
  destruct (iappend_block_spec s own fl k _ Hok Hk Hl Hf512 fbn) as (a & din1 & s1 & own1 & Hrun & Hok1 & Hba & Hq1);
    cbn [en_n en_din en_bytes] in *; [lia|done|rewrite Emax; lia|]. rewrite Hrun. cbn [mbind option_bind].
  rewrite Emax, En in Hok1. pose proof (lookup_lt_Some _ _ _ Hk) as Hkl.
  destruct (image_ok_write s1 own1 _ k din1 fbn f a (take n1 p) Hok1) as (Har & Hok2 & Hq2);
    [by rewrite list_lookup_insert_eq|lia|done|lia|rewrite Hq; lia|]. fold m in Hok2, Hq2.
  rewrite rsect_blk; [|apply (im_sized _ _ _ Hok1)|change nmeta with 59 in Har; lia]. cbn [mbind option_bind].
  rewrite wsect_img; [|apply (im_sized _ _ _ Hok1)|change nmeta with 59 in Har; lia].
  replace (m - fbn * 512) with (m - 512 * fbn) by lia. rewrite list_insert_insert_eq, <- En in Hok2.
  match type of Hok2 with image_ok ?s2 _ _ => set (s2' := s2) in * end.
  assert (Ef : (f ++ take n1 p) ++ drop n1 p = f ++ p) by (by rewrite <- app_assoc, take_drop).
  pose proof (image_ok_free _ _ _ Hok) as Hfr. pose proof (image_ok_free _ _ _ Hok2) as Hfr2.
  rewrite (total_insert _ _ _ _ Hk) in Hfr2. cbn [en_n] in Hfr2.
  destruct (IH (drop n1 p) s2' own1 _ k din1 (f ++ take n1 p) Hok2) as (din3 & s3 & own3 & Hrun3 & Hok3 & Hq3).
  - by rewrite list_lookup_insert_eq.
  - destruct Hq1 as (_ & -> & _). done.
  - rewrite length_drop. lia.
  - rewrite Ef, length_app. lia.
  - rewrite Ef. lia.
  - exists din3, s3, own3. rewrite Ef in Hrun3, Hok3. rewrite list_insert_insert_eq in Hok3. split; [|split; [done|]].
    + rewrite length_app, Hq in Hrun3. rewrite <- Hrun3. f_equal. lia.
    + eapply quiet_trans; [exact Hq1|]. eapply quiet_trans; [exact Hq2|exact Hq3].
Qed.

(** ** The file system as a list of files *)

(** The first eight bytes of a [struct dinode] of the given type with one link. *)
Definition head (type : Z) : list Z := le_bytes 2 type ++ [0; 0; 0; 0; 1; 0].

Record ent_ok (x : ent) (tf : Z * list Z) : Prop := {
  eo_len : length (en_din x) = sizeof_dinode;
  eo_bytes : en_bytes x = tf.2;
  eo_n : en_n x = nblk tf.2;
  eo_max : Z.of_nat (length tf.2) <= 512 * MAXFILE;
  eo_size : get32 o_size (en_din x) = Z.of_nat (length tf.2);
  eo_head : rd 0 8 (en_din x) = head tf.1;
}.

Definition dinode_at (s : fsimg) (inum : Z) : list Z :=
  rd (dinode_off inum) sizeof_dinode (imgblk (img s) (inum / IPB + 32)).

(** The image holds the files [A]: inode [k + 1] has the type and the contents of element
    [k], and the other inodes are free. *)
Definition fs_ok (s : fsimg) (A : list (Z * list Z)) : Prop :=
  exists own fl, image_ok s own fl /\ Forall2 ent_ok fl A /\ freeinode s = Z.of_nat (length A) + 1 /\
    (length A < 208)%nat /\
    (forall k x, fl !! k = Some x -> dinode_at s (Z.of_nat k + 1) = en_din x) /\
    forall inum, Z.of_nat (length A) < inum < 208 -> dinode_at s inum = replicate sizeof_dinode 0.

(** The data blocks that the files take. *)
Definition blocks_used (A : list (Z * list Z)) : Z := foldr (fun tf t => cost (nblk tf.2) + t) 0 A.

Lemma total_used fl A : Forall2 ent_ok fl A -> total fl = blocks_used A.
Proof.
  induction 1 as [|x tf fl A Hx _ IH]; [done|]. cbn [total blocks_used foldr]. fold (total fl) (blocks_used A).
  by rewrite (eo_n _ _ Hx), IH.
Qed.

Lemma fs_ok_free s A : fs_ok s A -> freeblock s = nmeta + blocks_used A.
Proof. intros (own & fl & Hok & Hfl & _). rewrite (image_ok_free _ _ _ Hok). by rewrite (total_used _ _ Hfl). Qed.

(** What every step leaves alone: the boot block, the super block, the log and the free map. *)
Definition low (s s' : fsimg) : Prop := forall b, 0 <= b < 32 \/ b = 58 -> imgblk (img s') b = imgblk (img s) b.

Lemma low_trans s s1 s2 : low s s1 -> low s1 s2 -> low s s2.
Proof. intros H1 H2 b Hb. by rewrite H2, H1. Qed.

Lemma sb_little : sb Little = mkSb FSSIZE nblocks NINODES nlog 2 32 58.
Proof. reflexivity. Qed.

Lemma inode_block inum : 0 <= inum < 208 -> 32 <= inum / IPB + 32 < 58.
Proof. unfold IPB. intros H. Z.to_euclidean_division_equations. lia. Qed.

Lemma rinode_run s inum : sized (img s) -> 0 <= inum < 208 -> rinode Little inum s = Some (dinode_at s inum).
Proof.
  intros Hs Hi. pose proof (inode_block inum Hi). unfold rinode. rewrite sb_little. unfold IBLOCK. cbn [sb_inodestart].
  rewrite rsect_blk by (done || (unfold FSSIZE; lia)). done.
Qed.

Lemma winode_run s inum din :
  sized (img s) -> 0 <= inum < 208 -> length din = sizeof_dinode ->
  exists I', winode Little inum din s = Some (mkImg I' (freeinode s) (freeblock s)) /\ sized I' /\
    (forall inum', 0 <= inum' -> dinode_at (mkImg I' (freeinode s) (freeblock s)) inum' =
       if decide (inum' = inum) then din else dinode_at s inum') /\
    forall b, 0 <= b -> ~ 32 <= b < 58 -> imgblk I' b = imgblk (img s) b.
Proof.
  intros Hs Hi Hd. pose proof (inode_block inum Hi) as Hb. set (bn := inum / IPB + 32) in *.
  pose proof (dinode_off_bound inum) as Hoff. assert (Hbn : 0 <= bn < FSSIZE) by (unfold FSSIZE; lia).
  pose proof (sized_blk _ _ Hs Hbn) as Hl.
  exists (<[Z.to_nat bn := wr (dinode_off inum) din (imgblk (img s) bn)]> (img s)). split_and!.
  - unfold winode. rewrite sb_little. unfold IBLOCK. cbn [sb_inodestart]. fold bn.
    rewrite rsect_blk by done. cbn [mbind option_bind]. by rewrite wsect_img.
  - apply sized_insert; [done|]. by rewrite length_wr.
  - intros inum' Hi'. unfold dinode_at. cbn [img]. rewrite blk_insert; [|done|done|unfold IPB; pose proof (Z.div_pos inum' 8); lia].
    case_decide as E.
    + subst inum'. fold bn. rewrite Z.eqb_refl, <- Hd. apply rd_wr_same. rewrite Hl. lia.
    + destruct (Z.eqb_spec bn (inum' / IPB + 32)) as [Eb|]; [|done]. rewrite <- Eb.
      apply rd_wr_disj; [rewrite Hl; lia|]. unfold dinode_off, bn, IPB, sizeof_dinode in *.
      rewrite Hd. pose proof (Z.div_mod inum 8). pose proof (Z.div_mod inum' 8). pose proof (Z.mod_pos_bound inum 8).
      pose proof (Z.mod_pos_bound inum' 8). lia.
  - intros b Hb0 Hnb. rewrite blk_insert by done. destruct (Z.eqb_spec bn b); [lia|done].
Qed.

Lemma image_ok_meta s own fl I' fi :
  image_ok s own fl -> sized I' -> (forall b, nmeta <= b -> imgblk I' b = imgblk (img s) b) ->
  image_ok (mkImg I' fi (freeblock s)) own fl.
Proof.
  intros [Hs Hf Hc Ht Hfl Hz] Hs' Hb. split; cbn [img freeblock]; [done|done|done|done| |].
  - intros k x Hk. eapply file_at_frame; [done| |by apply Hfl]. intros j sl _ _. apply Hb. lia.
  - intros b Hbr. rewrite Hb by lia. by apply Hz.
Qed.

Lemma dinode_at_low s s' inum :
  (forall b, 0 <= b < nmeta -> imgblk (img s') b = imgblk (img s) b) -> 0 <= inum < 208 -> dinode_at s' inum = dinode_at s inum.
Proof.
  intros Hb Hi. unfold dinode_at. pose proof (inode_block inum Hi). rewrite Hb; [done|]. change nmeta with 59. lia.
Qed.

Lemma blocks_used_insert A k ty f tf :
  A !! k = Some (ty, f) -> blocks_used (<[k := tf]> A) = blocks_used A + cost (nblk tf.2) - cost (nblk f).
Proof.
  revert k. induction A as [|z A IH]; intros k Hk; [done|]. destruct k as [|k].
  - injection Hk as ->. cbn. lia.
  - change (cost (nblk z.2) + blocks_used (<[k := tf]> A) = cost (nblk z.2) + blocks_used A + cost (nblk tf.2) - cost (nblk f)).
    rewrite (IH k Hk). lia.
Qed.

(** Only the addresses of an inode matter to where the contents are. *)
Lemma image_ok_addrs s own fl k x din' :
  image_ok s own fl -> fl !! k = Some x -> i_addrs (dino din') = i_addrs (dino (en_din x)) ->
  image_ok s own (<[k := mkEnt din' (en_n x) (en_bytes x)]> fl).
Proof.
  intros Hok Hk Ha. rewrite <- (app_nil_r own). eapply (image_ok_update s own fl k x s []); [done|done|..]; rewrite ?app_nil_r.
  - apply Hok.
  - apply (im_free _ _ _ Hok).
  - apply Hok.
  - cbn. lia.
  - done.
  - done.
  - cbn [en_din en_n en_bytes]. destruct (im_files _ _ _ Hok k x Hk) as [[Hr Hl Hadr Hi] Hh]. split.
    + split; rewrite ?Ha; done.
    + intros bn a Hbn Hba. apply Hh; [done|]. unfold block_addr in *. by rewrite Ha in Hba.
Qed.

Lemma dino_addrs_size din v : length din = sizeof_dinode -> i_addrs (dino (put32 o_size v din)) = i_addrs (dino din).
Proof.
  intros Hl. apply list_eq. intros j. destruct (decide (j < 13)%nat).
  - rewrite !dino_addrs_lookup by done. rewrite get_put32_ne; [done| |]; rewrite ?Hl; unfold sizeof_dinode, o_size, o_addrs; lia.
  - by rewrite !lookup_ge_None_2 by (rewrite dino_addrs_length; lia).
Qed.

(** [iappend] appends to one file and leaves the others as they are. *)
Lemma iappend_spec s A k ty f p :
  fs_ok s A -> A !! k = Some (ty, f) -> Z.of_nat (length (f ++ p)) <= 512 * MAXFILE ->
  nmeta + blocks_used (<[k := (ty, f ++ p)]> A) <= FSSIZE ->
  exists s', iappend Little (Z.of_nat k + 1) p s = Some s' /\ fs_ok s' (<[k := (ty, f ++ p)]> A) /\ low s s'.
Proof.
  intros Hfs Hk Hmax Hcap. pose proof (fs_ok_free _ _ Hfs) as Hfree. destruct Hfs as (own & fl & Hok & Hfl & Hfi & HA & Hdisk & Hfreei).
  destruct (Forall2_lookup_r _ _ _ _ _ Hfl Hk) as (x & Hx & Hex). pose proof (lookup_lt_Some _ _ _ Hk) as HkA.
  pose proof (lookup_lt_Some _ _ _ Hx) as Hkl.
  destruct Hex as [Hl Hby Hn Hm Hsz Hhd]. cbn [fst snd] in *. assert (Ex : x = mkEnt (en_din x) (nblk f) f) by (destruct x; cbn in *; congruence).
  rewrite (blocks_used_insert _ _ _ _ _ Hk) in Hcap. cbn [snd] in Hcap. unfold MAXFILE in Hmax, Hm.
  unfold iappend. rewrite rinode_run by ((by apply Hok) || lia). cbn [mbind option_bind]. rewrite (Hdisk k x Hx).
  rewrite uint_at_little, Hsz, xint_id by (unfold is_u32; lia).
  destruct (iappend_loop_spec (length p) p s own fl k (en_din x) f) as (din1 & s1 & own1 & Hrun & Hok1 & Hfi1 & Hl1 & Hrd1 & Hb1);
    [done|by rewrite <- Ex|done|lia|done|lia|]. rewrite Hrun. cbn [mbind option_bind].
  rewrite xint_id by (unfold is_u32; lia). rewrite set_uint_little.
  set (din2 := put32 o_size (Z.of_nat (length (f ++ p))) din1). rewrite Hl in Hl1.
  assert (Hl2 : length din2 = sizeof_dinode) by (unfold din2; by rewrite length_put32).
  destruct (winode_run s1 (Z.of_nat k + 1) din2) as (I' & Hw & Hs' & Hd' & Hb'); [apply Hok1|lia|done|].
  eexists. split; [exact Hw|]. split.
  - exists own1, (<[k := mkEnt din2 (nblk (f ++ p)) (f ++ p)]> fl). split_and!.
    + apply image_ok_meta; [|done|intros b Hb; apply Hb'; change nmeta with 59 in Hb; lia].
      rewrite <- (list_insert_insert_eq fl k _ (mkEnt din1 (nblk (f ++ p)) (f ++ p))).
      apply (image_ok_addrs s1 own1 _ k (mkEnt din1 (nblk (f ++ p)) (f ++ p))); [done|by rewrite list_lookup_insert_eq|].
      cbn [en_din]. by apply dino_addrs_size.
    + apply Forall2_insert; [done|]. split; cbn [en_din en_n en_bytes fst snd]; [done|done|done|unfold MAXFILE; lia| |].
      * unfold din2. rewrite get_put32, u32_id; [done|unfold is_u32; lia|rewrite Hl1; unfold sizeof_dinode, o_size; lia].
      * unfold din2. unfold put32. rewrite rd_wr_disj by (rewrite length_le_bytes, ?Hl1; unfold sizeof_dinode, o_size; lia).
        rewrite <- Hhd. transitivity (rd 0 8 (rd 0 12 din1)); [by rewrite rd_rd by lia|]. rewrite Hrd1. by rewrite rd_rd by lia.
    + cbn [freeinode]. rewrite length_insert. lia.
    + by rewrite length_insert.
    + intros k' x' Hk'. rewrite Hd' by lia. case_decide as E.
      * assert (k' = k) as -> by lia. rewrite list_lookup_insert_eq in Hk' by done. by injection Hk' as <-.
      * rewrite list_lookup_insert_ne in Hk' by lia. pose proof (lookup_lt_Some _ _ _ Hk') as Hk'l.
        rewrite (Forall2_length _ _ _ Hfl) in Hk'l.
        rewrite (dinode_at_low s s1) by (done || lia). by apply Hdisk.
    + intros inum Hi. rewrite length_insert in Hi. rewrite Hd', decide_False by lia.
      rewrite (dinode_at_low s s1) by (done || lia). by apply Hfreei.
  - intros b Hb. cbn [img]. rewrite Hb' by lia. apply Hb1. change nmeta with 59. lia.
Qed.

(** The inode that [ialloc] writes. *)
Definition new_din (ty : Z) : list Z := put32 o_size 0 (put16 o_nlink 1 (put16 o_type ty (replicate sizeof_dinode 0))).

Lemma new_ent_ok ty : ent_ok (mkEnt (new_din ty) 0 []) (ty, []).
Proof. by split. Qed.

Lemma new_file_at I own i ty : file_on I own i (dino (new_din ty)) 0 [].
Proof.
  split; [|intros bn a Hbn; lia]. split; [done|done| |intros b k Hn; lia].
  intros k a Hk. destruct (Z.ltb_spec (Z.of_nat k) 0); [lia|].
  assert (Hall : Forall (fun a => a = 0) (i_addrs (dino (new_din ty)))) by (repeat constructor).
  by apply (Forall_lookup_1 _ _ _ _ Hall Hk).
Qed.

(** [ialloc] adds an empty file. *)
Lemma ialloc_spec s A ty :
  fs_ok s A -> (length A < 207)%nat -> 0 <= ty < 2 ^ 16 ->
  exists s', ialloc Little ty s = Some (Z.of_nat (length A) + 1, s') /\ fs_ok s' (A ++ [(ty, [])]) /\ low s s'.
Proof.
  intros (own & fl & Hok & Hfl & Hfi & HA & Hdisk & Hfreei) HA' Hty.
  assert (Hu : u32 (freeinode s + 1) = Z.of_nat (length A) + 2) by (rewrite u32_id; [lia|unfold is_u32; lia]).
  assert (Hdin : set_uint Little o_size (xint Little 0) (set_ushort Little o_nlink (xshort Little 1)
    (set_ushort Little o_type (xshort Little ty) (replicate sizeof_dinode 0))) = new_din ty).
  { rewrite (xshort_little ty). unfold u16. by rewrite Z.mod_small by done. }
  unfold ialloc. rewrite Hdin. rewrite Hfi in Hu |- *. rewrite Hu. set (s1 := s <| freeinode := _ |>).
  destruct (winode_run s1 (Z.of_nat (length A) + 1) (new_din ty)) as (I' & Hw & Hs' & Hd' & Hb'); [apply Hok|lia|done|].
  rewrite Hw. cbn [mbind option_bind].
  eexists. split; [reflexivity|]. split.
  - pose proof (Forall2_length _ _ _ Hfl) as HL. exists own, (fl ++ [mkEnt (new_din ty) 0 []]). split_and!.
    + assert (Hok' : image_ok (mkImg I' (freeinode s1) (freeblock s)) own fl).
      { apply image_ok_meta; [done|done|]. intros b Hb. apply Hb'; change nmeta with 59 in Hb; lia. }
      destruct Hok' as [H1 H2 H3 H4 H5 H6]. split; [done|done|done| | |done].
      * rewrite H4. unfold total. rewrite foldr_app. done.
      * intros k x Hk. apply lookup_app_Some in Hk as [Hk|[Hge Hk]]; [by apply H5|].
        apply list_lookup_singleton_Some in Hk as [_ <-]. apply new_file_at.
    + apply Forall2_app; [done|]. constructor; [apply new_ent_ok|constructor].
    + cbn [freeinode]. rewrite length_app. cbn [length]. unfold s1. cbn [freeinode set_field]. lia.
    + rewrite length_app. cbn [length]. lia.
    + intros k x Hk. rewrite Hd' by lia. apply lookup_app_Some in Hk as [Hk|[Hge Hk]].
      * pose proof (lookup_lt_Some _ _ _ Hk). rewrite decide_False by lia. by apply Hdisk.
      * apply list_lookup_singleton_Some in Hk as [Hk <-]. rewrite decide_True by lia. done.
    + intros inum Hi. rewrite length_app in Hi. cbn [length] in Hi. rewrite Hd', decide_False by lia. apply Hfreei. lia.
  - intros b Hb. cbn [img]. apply Hb'; lia.
Qed.

(** ** The whole run *)

(** The entry that the kernel reads back. *)
Definition dir_entry (inum : Z) (name : list Z) : list Z := put_dirent (mkDe inum (take DIRSIZ (name ++ replicate DIRSIZ 0))).

Lemma direntry_little inum name : 0 <= inum < 2 ^ 16 -> direntry Little inum name = dir_entry inum name.
Proof. intros H. unfold direntry, dir_entry, put_dirent. rewrite xshort_little. unfold u16. by rewrite Z.mod_small by done. Qed.

Lemma length_dir_entry inum name : length (dir_entry inum name) = 16%nat.
Proof.
  unfold dir_entry, put_dirent. cbn [de_inum de_name]. rewrite length_app, length_le_bytes, length_take, length_app, length_replicate.
  unfold DIRSIZ. lia.
Qed.

(** The entries of the files, which get the inodes from [n] on. *)
Fixpoint dir_entries (n : Z) (fs : list hostfile) : list Z :=
  match fs with
  | [] => []
  | f :: fs => dir_entry n (skip_underscore (h_name f)) ++ dir_entries (n + 1) fs
  end.

Lemma length_dir_entries n fs : length (dir_entries n fs) = (16 * length fs)%nat.
Proof. revert n. induction fs as [|f fs IH]; intros n; [done|]. cbn [dir_entries length]. rewrite length_app, length_dir_entry, IH. lia. Qed.

Definition contents (f : hostfile) : list Z := concat (default [] (h_reads f)).

Lemma blocks_used_app A B : blocks_used (A ++ B) = blocks_used A + blocks_used B.
Proof. induction A as [|tf A IH]; [done|]. cbn [blocks_used foldr app] in *. fold (blocks_used (A ++ B)) (blocks_used A). lia. Qed.

Lemma cost_nonneg f : 0 <= cost (nblk f).
Proof. unfold cost, nblk. destruct (12 <? _); pose proof (Z.div_pos (Z.of_nat (length f) + 511) 512); lia. Qed.

Lemma blocks_used_nonneg A : 0 <= blocks_used A.
Proof. induction A as [|tf A IH]; [done|]. cbn [blocks_used foldr]. fold (blocks_used A). pose proof (cost_nonneg tf.2). lia. Qed.

Lemma cost_app f g : cost (nblk f) <= cost (nblk (f ++ g)).
Proof. apply cost_mono, nblk_mono. rewrite length_app. lia. Qed.

Lemma append_reads_spec reads : forall s A k ty f,
  fs_ok s A -> A !! k = Some (ty, f) -> Z.of_nat (length (f ++ concat reads)) <= 512 * MAXFILE ->
  nmeta + blocks_used (<[k := (ty, f ++ concat reads)]> A) <= FSSIZE ->
  exists s', append_reads Little (Z.of_nat k + 1) reads s = Some s' /\
    fs_ok s' (<[k := (ty, f ++ concat reads)]> A) /\ low s s'.
Proof.
  induction reads as [|p reads IH]; intros s A k ty f Hfs Hk Hmax Hcap; cbn [append_reads concat] in *.
  - exists s. rewrite app_nil_r, list_insert_id by done. done.
  - rewrite app_assoc in Hmax, Hcap |- *. pose proof (lookup_lt_Some _ _ _ Hk) as Hkl.
    destruct (iappend_spec s A k ty f p Hfs Hk) as (s1 & Hrun & Hfs1 & Hlow1).
    + rewrite length_app in Hmax. lia.
    + rewrite !(blocks_used_insert _ _ _ _ _ Hk) in *. cbn [snd] in *. pose proof (cost_app (f ++ p) (concat reads)). lia.
    + rewrite Hrun. cbn [mbind option_bind].
      destruct (IH s1 _ k ty (f ++ p) Hfs1) as (s2 & Hrun2 & Hfs2 & Hlow2);
        [by rewrite list_lookup_insert_eq|done|by rewrite list_insert_insert_eq|].
      rewrite list_insert_insert_eq in Hfs2. exists s2. split; [done|]. split; [done|by eapply low_trans].
Qed.

(** The files that mkfs can store. *)
Definition storable (f : hostfile) : Prop :=
  no_slash (h_name f) = true /\ h_reads f ≠ None /\ Z.of_nat (length (contents f)) <= 512 * MAXFILE.

Definition file_entry (f : hostfile) : Z * list Z := (T_FILE, contents f).

Lemma add_file_spec s r A f :
  fs_ok s ((T_DIR, r) :: A) -> storable f -> (length A < 206)%nat ->
  let r' := r ++ dir_entry (Z.of_nat (length A) + 2) (skip_underscore (h_name f)) in
  Z.of_nat (length r') <= 512 * MAXFILE ->
  nmeta + blocks_used ((T_DIR, r') :: A ++ [file_entry f]) <= FSSIZE ->
  exists s', add_file Little ROOTINO f s = Some s' /\ fs_ok s' ((T_DIR, r') :: A ++ [file_entry f]) /\ low s s'.
Proof.
  intros Hfs (Hsl & Hrd & Hmax) HA r' Hr Hcap. unfold add_file. rewrite Hsl. cbn [negb].
  unfold file_entry, contents in *. destruct (h_reads f) as [reads|]; [|done]. cbn [default mbind option_bind] in *. unfold id in *.
  destruct (ialloc_spec s _ T_FILE Hfs) as (s1 & -> & Hfs1 & Hlow1); [cbn [length]; lia|done|]. cbn [mbind option_bind].
  cbn [length]. replace (Z.of_nat (Datatypes.S (length A)) + 1) with (Z.of_nat (length A) + 2) by lia.
  rewrite direntry_little by lia. cbn [blocks_used foldr snd] in Hcap. fold (blocks_used (A ++ [(T_FILE, concat reads)])) in Hcap.
  rewrite blocks_used_app in Hcap. cbn [blocks_used foldr snd] in Hcap.
  pose proof (cost_nonneg (concat reads)) as Hc0.
  destruct (iappend_spec s1 _ 0 T_DIR r (dir_entry (Z.of_nat (length A) + 2) (skip_underscore (h_name f))) Hfs1)
    as (s2 & Hrun2 & Hfs2 & Hlow2); [done|done| |].
  { fold r'. cbn [app insert list_insert blocks_used foldr snd]. fold (blocks_used (A ++ [(T_FILE, [])])).
    rewrite blocks_used_app. cbn [blocks_used foldr snd]. change (cost (nblk [])) with 0. lia. }
  change (Z.of_nat 0 + 1) with ROOTINO in Hrun2. rewrite Hrun2. cbn [mbind option_bind]. fold r' in Hfs2.
  change (<[0%nat := (T_DIR, r')]> (((T_DIR, r) :: A) ++ [(T_FILE, [])])) with ((T_DIR, r') :: A ++ [(T_FILE, [])]) in Hfs2.
  assert (Hins : forall g, <[Datatypes.S (length A) := (T_FILE, g)]> ((T_DIR, r') :: A ++ [(T_FILE, [])]) =
    (T_DIR, r') :: A ++ [(T_FILE, g)]).
  { intros g. change ((T_DIR, r') :: <[length A := (T_FILE, g)]> (A ++ [(T_FILE, [])]) = (T_DIR, r') :: A ++ [(T_FILE, g)]).
    rewrite insert_app_r_alt by lia. by rewrite Nat.sub_diag. }
  destruct (append_reads_spec reads s2 _ (Datatypes.S (length A)) T_FILE [] Hfs2) as (s3 & Hrun3 & Hfs3 & Hlow3).
  - change ((A ++ [(T_FILE, [])]) !! length A = Some (T_FILE, [])). by rewrite list_lookup_middle.
  - done.
  - rewrite Hins. cbn [blocks_used foldr snd app]. fold (blocks_used (A ++ [(T_FILE, concat reads)])).
    rewrite blocks_used_app. cbn [blocks_used foldr snd]. lia.
  - rewrite Hins in Hfs3. exists s3. split; [|split; [done|]].
    + rewrite <- Hrun3. f_equal. lia.
    + eapply low_trans; [exact Hlow1|]. by eapply low_trans.
Qed.

Lemma add_files_spec fs : forall s r A,
  fs_ok s ((T_DIR, r) :: A) -> Forall storable fs -> (length A + length fs < 207)%nat ->
  let r' := r ++ dir_entries (Z.of_nat (length A) + 2) fs in
  Z.of_nat (length r') <= 512 * MAXFILE ->
  nmeta + blocks_used ((T_DIR, r') :: A ++ (file_entry <$> fs)) <= FSSIZE ->
  exists s', add_files Little ROOTINO fs s = Some s' /\ fs_ok s' ((T_DIR, r') :: A ++ (file_entry <$> fs)) /\ low s s'.
Proof.
  induction fs as [|f fs IH]; intros s r A Hfs Hst HA r' Hr Hcap; cbn [add_files].
  - exists s. unfold r'. cbn [dir_entries fmap list_fmap]. rewrite !app_nil_r. done.
  - apply list.Forall_cons in Hst as [Hf Hst]. cbn [length] in HA. unfold r' in *. cbn [dir_entries fmap list_fmap] in *.
    rewrite app_assoc in Hr, Hcap |- *. set (r1 := r ++ dir_entry _ _) in *.
    cbn [blocks_used foldr snd] in Hcap. fold (blocks_used (A ++ file_entry f :: (file_entry <$> fs))) in Hcap.
    change (A ++ file_entry f :: (file_entry <$> fs)) with (A ++ [file_entry f] ++ (file_entry <$> fs)) in *.
    rewrite app_assoc in Hcap |- *. pose proof (cost_app r1 (dir_entries (Z.of_nat (length A) + 2 + 1) fs)).
    pose proof (blocks_used_nonneg (file_entry <$> fs)).
    destruct (add_file_spec s r A f Hfs Hf) as (s1 & Hrun1 & Hfs1 & Hlow1); [lia| | |].
    + fold r1. rewrite length_app in Hr. lia.
    + fold r1. cbn [blocks_used foldr snd]. fold (blocks_used (A ++ [file_entry f])). rewrite blocks_used_app in Hcap. lia.
    + rewrite Hrun1. cbn [mbind option_bind]. fold r1 in Hfs1.
      replace (Z.of_nat (length A) + 2 + 1) with (Z.of_nat (length (A ++ [file_entry f])) + 2) in *
        by (rewrite length_app; cbn [length]; lia).
      destruct (IH s1 r1 (A ++ [file_entry f]) Hfs1 Hst) as (s2 & Hrun2 & Hfs2 & Hlow2);
        [rewrite length_app; cbn [length]; lia|done|done|].
      exists s2. split; [done|]. split; [done|by eapply low_trans].
Qed.

(** The image before the first file. *)
Definition empty_image : fsimg := mkImg (<[1%nat := wr 0 (sb_bytes Little) zeroes]> (replicate 1000 zeroes)) 1 nmeta.

Lemma zero_fill n : (n <= 1000)%nat ->
  foldl (fun s i => wsect (Z.of_nat i) zeroes s) (mkImg [] 1 nmeta) (seq 0 n) = mkImg (replicate n zeroes) 1 nmeta.
Proof.
  induction n as [|n IH]; intros Hn; [done|]. rewrite seq_S, foldl_app, IH by lia. cbn [foldl].
  unfold wsect. rewrite seek_id by lia. cbn [img]. rewrite Nat2Z.id, length_replicate. cbn [Nat.add].
  destruct (Nat.ltb_spec n n); [lia|]. rewrite Nat.sub_diag, replicate_S_end. done.
Qed.

Lemma empty_image_run :
  wsect 1 (wr 0 (sb_bytes Little) zeroes)
    (foldl (fun s i => wsect (Z.of_nat i) zeroes s) (mkImg [] 1 nmeta) (seq 0 (Z.to_nat FSSIZE))) = empty_image.
Proof.
  rewrite zero_fill by (unfold FSSIZE; lia). rewrite wsect_img; [done| |unfold FSSIZE; lia].
  split; [done|]. apply Forall_replicate. done.
Qed.

Lemma empty_image_blk b : 0 <= b < FSSIZE -> b ≠ 1 -> imgblk (img empty_image) b = zeroes.
Proof.
  intros Hb Hne. unfold imgblk. cbn [img empty_image]. rewrite list_lookup_total_insert_ne by lia.
  apply lookup_total_replicate_2. unfold FSSIZE in Hb. lia.
Qed.

Lemma fs_ok_empty : fs_ok empty_image [].
Proof.
  exists [], []. split_and!; [|constructor|done|cbn; lia|done|].
  - split; [|done|done|done|done|].
    + split; [done|]. apply Forall_insert; [by apply Forall_replicate|done].
    + intros b Hb. apply empty_image_blk; change (freeblock empty_image) with 59 in Hb; lia.
  - intros inum Hi. unfold dinode_at. pose proof (inode_block inum ltac:(cbn in Hi; lia)).
    rewrite empty_image_blk by (unfold FSSIZE; lia). pose proof (dinode_off_bound inum).
    unfold rd, zeroes. rewrite drop_replicate, take_replicate. f_equal. lia.
Qed.

Lemma map_bits_spec used b : (used <= 4096)%nat ->
  length (foldl (fun buf i => set_map_bit i buf) zeroes (seq 0 used)) = BSIZE /\
  map_bit (foldl (fun buf i => set_map_bit i buf) zeroes (seq 0 used)) b = bool_decide (b < used)%nat.
Proof.
  induction used as [|used IH]; intros Hu.
  - split; [done|]. unfold map_bit. cbn [seq foldl]. rewrite bool_decide_eq_false_2 by lia.
    assert (default 0 (zeroes !! (b / 8)%nat) = 0) as ->; [|by rewrite Z.land_0_l].
    destruct (zeroes !! (b / 8)%nat) as [z|] eqn:Hz; [|done]. by apply lookup_replicate in Hz as [-> _].
  - rewrite seq_S, foldl_app. destruct IH as [Hl Hb]; [lia|]. cbn [foldl Nat.add]. split.
    + unfold set_map_bit. by rewrite length_alter.
    + rewrite map_bit_set, Hb.
      * destruct (decide (used = b)) as [->|]; [rewrite (bool_decide_eq_true_2 (b = b)), (bool_decide_eq_true_2 (b < Datatypes.S b)%nat) by lia; done|].
        rewrite (bool_decide_eq_false_2 (used = b)) by done. cbn [orb]. apply bool_decide_ext. lia.
      * rewrite Hl. unfold BSIZE. apply Nat.Div0.div_lt_upper_bound. lia.
Qed.

(** The inode as [ilock] reads it, with the super block that [readsb] reads. *)
Definition kinode (I : list (list Z)) (inum : Z) : inode :=
  get_dinode (dinode_off inum) (imgblk I (IBLOCK inum (sb_of (imgblk I 1)))) inode_zero.

Definition root_size (r : list Z) : Z := (Z.of_nat (length r) / 512 + 1) * 512.

(** The finished image. *)
Record finished (s : fsimg) (own : list slot) (fl : list ent) (r : list Z) (A : list (Z * list Z)) : Prop := {
  fi_image : image_ok s own fl;
  fi_files : Forall2 (fun x tf => en_bytes x = tf.2 /\ en_n x = nblk tf.2 /\ rd 0 8 (en_din x) = head tf.1) fl
               ((T_DIR, r) :: A);
  fi_disk : forall k x, fl !! k = Some x -> kinode (img s) (Z.of_nat k + 1) = dino (en_din x);
  fi_size : forall k x, fl !! k = Some x ->
    get32 o_size (en_din x) = if decide (k = 0)%nat then root_size r else Z.of_nat (length (en_bytes x));
  fi_free : forall inum, Z.of_nat (length A) + 1 < inum < 208 -> i_type (kinode (img s) inum) = 0;
  fi_sb : sb_of (imgblk (img s) 1) = mkSb FSSIZE nblocks NINODES nlog 2 32 58;
  fi_log : imgblk (img s) 2 = zeroes;
  fi_map : forall b, map_bit (imgblk (img s) 58) b = bool_decide (Z.of_nat b < freeblock s);
  fi_used : freeblock s = nmeta + blocks_used ((T_DIR, r) :: A);
}.

Lemma kinode_dino s inum :
  sb_of (imgblk (img s) 1) = mkSb FSSIZE nblocks NINODES nlog 2 32 58 -> kinode (img s) inum = dino (dinode_at s inum).
Proof. intros Hsb. unfold kinode. rewrite Hsb. apply get_dinode_rd. Qed.

Lemma fix_root_spec s r A :
  fs_ok s ((T_DIR, r) :: A) ->
  exists s' own fl, fix_root Little ROOTINO s = Some s' /\ low s s' /\ image_ok s' own fl /\ freeblock s' = freeblock s /\
    Forall2 (fun x tf => en_bytes x = tf.2 /\ en_n x = nblk tf.2 /\ rd 0 8 (en_din x) = head tf.1) fl ((T_DIR, r) :: A) /\
    (forall k x, fl !! k = Some x -> dinode_at s' (Z.of_nat k + 1) = en_din x /\
       get32 o_size (en_din x) = if decide (k = 0)%nat then root_size r else Z.of_nat (length (en_bytes x))) /\
    forall inum, Z.of_nat (length A) + 1 < inum < 208 -> dinode_at s' inum = replicate sizeof_dinode 0.
Proof.
  intros (own & fl & Hok & Hfl & Hfi & HA & Hdisk & Hfree). cbn [length] in *.
  destruct (Forall2_cons_inv_r _ _ _ _ Hfl) as (x & fl' & Hx & Hfl' & ->).
  destruct Hx as [Hl Hby Hn Hmax Hsz Hhd]. cbn [fst snd] in *. unfold MAXFILE in Hmax. pose proof (im_sized _ _ _ Hok) as Hs.
  assert (Hrs : is_u32 (root_size r)).
  { unfold is_u32, root_size. pose proof (Z.div_le_upper_bound (Z.of_nat (length r)) 512 140).
    pose proof (Z.div_pos (Z.of_nat (length r)) 512). lia. }
  set (din := put32 o_size (root_size r) (en_din x)).
  destruct (winode_run s ROOTINO din) as (I' & Hw & Hs' & Hd' & Hb'); [done|unfold ROOTINO; lia|unfold din; by rewrite length_put32|].
  exists (mkImg I' (freeinode s) (freeblock s)), own, (<[0%nat := mkEnt din (en_n x) (en_bytes x)]> (x :: fl')). split_and!.
  - unfold fix_root. rewrite rinode_run by (done || (unfold ROOTINO; lia)). cbn [mbind option_bind].
    replace (dinode_at s ROOTINO) with (en_din x) by (symmetry; exact (Hdisk 0%nat x eq_refl)). rewrite uint_at_little, Hsz.
    rewrite (xint_id (Z.of_nat (length r))) by (unfold is_u32; lia). change (Z.of_nat BSIZE) with 512. fold (root_size r).
    rewrite (xint_id (root_size r)), set_uint_little by done. fold din. exact Hw.
  - intros b Hb. cbn [img]. apply Hb'; lia.
  - apply image_ok_meta; [|done|intros b Hb; apply Hb'; change nmeta with 59 in Hb; lia].
    apply image_ok_addrs; [done|done|]. unfold din. by apply dino_addrs_size.
  - done.
  - constructor; [|eapply Forall2_impl; [exact Hfl'|]; intros y tf [? ? ? ? ? ?]; done]. cbn [en_din en_n en_bytes fst snd].
    split; [done|]. split; [done|]. unfold din, put32. rewrite rd_wr_disj; [done| |];
      rewrite length_le_bytes; unfold o_size; [rewrite Hl; unfold sizeof_dinode|]; lia.
  - intros k y Hk. pose proof (lookup_lt_Some _ _ _ Hk) as Hkl. rewrite length_insert in Hkl.
    rewrite (Forall2_length _ _ _ Hfl) in Hkl. cbn [length] in Hkl. rewrite Hd' by lia. destruct k as [|k].
    + injection Hk as <-. rewrite !decide_True by done. split; [done|]. cbn [en_din]. unfold din.
      rewrite get_put32, u32_id; [done|done|rewrite Hl; unfold sizeof_dinode, o_size; lia].
    + rewrite !decide_False by (done || (unfold ROOTINO; lia)). split; [by apply (Hdisk (Datatypes.S k))|].
      change (fl' !! k = Some y) in Hk. destruct (Forall2_lookup_l _ _ _ _ _ Hfl' Hk) as (tf & _ & [H1 H2 H3 H4 H5 H6]).
      by rewrite H5, H2.
  - intros inum Hi. rewrite Hd', decide_False by (unfold ROOTINO; lia). apply Hfree. lia.
Qed.

(** What the command line must satisfy for [mkfs] to succeed. *)
Definition root_bytes (fs : list hostfile) : list Z := dir_entry 1 [46] ++ dir_entry 1 [46; 46] ++ dir_entries 2 fs.
Definition fits (fs : list hostfile) : Prop :=
  Forall storable fs /\ (length fs <= 206)%nat /\
  nmeta + blocks_used ((T_DIR, root_bytes fs) :: (file_entry <$> fs)) <= FSSIZE.

Lemma files_written fs : fits fs ->
  exists s1 s2 s3 s, ialloc Little T_DIR empty_image = Some (ROOTINO, s1) /\
    iappend Little ROOTINO (direntry Little ROOTINO [46]) s1 = Some s2 /\
    iappend Little ROOTINO (direntry Little ROOTINO [46; 46]) s2 = Some s3 /\
    add_files Little ROOTINO fs s3 = Some s /\
    fs_ok s ((T_DIR, root_bytes fs) :: (file_entry <$> fs)) /\ low empty_image s.
Proof.
  intros (Hst & Hlen & Hcap). pose proof (blocks_used_nonneg (file_entry <$> fs)) as Hpos.
  cbn [blocks_used foldr snd] in Hcap. fold (blocks_used (file_entry <$> fs)) in Hcap.
  set (e1 := dir_entry 1 [46]) in *. set (e2 := dir_entry 1 [46; 46]) in *.
  assert (Hl1 : length e1 = 16%nat) by done. assert (Hl2 : length e2 = 16%nat) by done.
  assert (Hc : forall l, (length l <= 32)%nat -> nmeta + (cost (nblk l) + 0) <= FSSIZE).
  { intros l Hl. assert (cost (nblk l) <= 1); [|change nmeta with 59; unfold FSSIZE; lia]. change 1 with (cost (nblk (replicate 32 0))).
    apply cost_mono, nblk_mono. by rewrite length_replicate. }
  destruct (ialloc_spec empty_image [] T_DIR fs_ok_empty) as (s1 & H1 & Hfs1 & Hlow1); [cbn; lia|done|].
  destruct (iappend_spec s1 _ 0 T_DIR [] e1 Hfs1) as (s2 & H2 & Hfs2 & Hlow2); [done|done|apply (Hc e1); lia|].
  cbn [app] in Hfs2. change (<[0%nat := (T_DIR, e1)]> [(T_DIR, [])]) with [(T_DIR, e1)] in Hfs2.
  destruct (iappend_spec s2 _ 0 T_DIR e1 e2 Hfs2) as (s3 & H3 & Hfs3 & Hlow3);
    [done|rewrite length_app; unfold MAXFILE; lia|apply (Hc (e1 ++ e2)); rewrite length_app; lia|].
  change (<[0%nat := (T_DIR, e1 ++ e2)]> [(T_DIR, e1)]) with [(T_DIR, e1 ++ e2)] in Hfs3.
  destruct (add_files_spec fs s3 (e1 ++ e2) [] Hfs3 Hst) as (s & H4 & Hfs4 & Hlow4).
  - cbn [length]. lia.
  - rewrite !length_app, length_dir_entries. unfold MAXFILE. lia.
  - rewrite <- app_assoc. cbn [app blocks_used foldr snd]. fold (blocks_used (file_entry <$> fs)). exact Hcap.
  - rewrite <- app_assoc in Hfs4. exists s1, s2, s3, s. split; [exact H1|]. split; [exact H2|]. split; [exact H3|].
    split; [exact H4|]. split; [exact Hfs4|]. eapply low_trans; [exact Hlow1|]. eapply low_trans; [exact Hlow2|].
    by eapply low_trans.
Qed.

Lemma main_finished fs : fits fs ->
  exists s own fl, main Little fs = Some s /\ finished s own fl (root_bytes fs) (file_entry <$> fs).
Proof.
  intros Hfits. destruct (files_written fs Hfits) as (s1 & s2 & s3 & s4 & H1 & H2 & H3 & H4 & Hfs4 & Hlow4).
  destruct (fix_root_spec s4 _ _ Hfs4) as (s5 & own & fl & H5 & Hlow5 & Hok & Hfr & Hfl & Hdisk & Hfree).
  unfold main. rewrite empty_image_run, H1. cbn [mbind option_bind]. change (ROOTINO =? ROOTINO) with true. cbn [negb].
  rewrite H2. cbn [mbind option_bind]. rewrite H3. cbn [mbind option_bind]. rewrite H4. cbn [mbind option_bind].
  rewrite H5. cbn [mbind option_bind]. pose proof (fs_ok_free _ _ Hfs4) as Hused. pose proof (im_fits _ _ _ Hok) as Hcap.
  pose proof (im_free _ _ _ Hok) as Hfree5. change nmeta with 59 in Hfree5. unfold FSSIZE in Hcap.
  unfold balloc. change (Z.of_nat BSIZE * 8) with 4096. destruct (Z.ltb_spec (freeblock s5) 4096); [|lia]. cbn [negb].
  rewrite sb_little. cbn [sb_bmapstart]. rewrite wsect_img; [|apply Hok|unfold FSSIZE; lia].
  set (bits := foldl _ _ _). destruct (map_bits_spec (Z.to_nat (freeblock s5)) 0) as [Hbl _]; [lia|]. fold bits in Hbl.
  set (I' := <[Z.to_nat 58 := bits]> (img s5)).
  assert (HI : forall b, 0 <= b -> b ≠ 58 -> imgblk I' b = imgblk (img s5) b).
  { intros b Hb Hne. unfold I'. rewrite blk_insert; [|apply Hok|unfold FSSIZE; lia|done].
    destruct (Z.eqb_spec 58 b); [lia|done]. }
  set (s6 := mkImg I' (freeinode s5) (freeblock s5)).
  assert (Hd6 : forall inum, 0 <= inum < 208 -> dinode_at s6 inum = dinode_at s5 inum).
  { intros inum Hi. unfold dinode_at. cbn [img s6]. pose proof (inode_block inum Hi). rewrite HI; [done|lia|lia]. }
  assert (Hsb : sb_of (imgblk (img s6) 1) = mkSb FSSIZE nblocks NINODES nlog 2 32 58).
  { cbn [img s6]. rewrite HI, (Hlow5 1), (Hlow4 1) by lia. reflexivity. }
  pose proof (Forall2_length _ _ _ Hfl) as HL. cbn [length] in HL. destruct Hfits as (_ & Hlen & _).
  rewrite length_fmap in HL, Hfree.
  exists s6, own, fl. split; [done|]. split.
  - apply image_ok_meta; [done| |intros b Hb; apply HI; change nmeta with 59 in Hb; lia].
    apply sized_insert; [apply Hok|done].
  - done.
  - intros k x Hk. rewrite kinode_dino by done. pose proof (lookup_lt_Some _ _ _ Hk). rewrite Hd6 by lia.
    f_equal. by apply Hdisk.
  - intros k x Hk. by apply Hdisk.
  - intros inum Hi. rewrite length_fmap in Hi. rewrite kinode_dino by done. rewrite Hd6, Hfree by lia. reflexivity.
  - done.
  - cbn [img s6]. rewrite HI, (Hlow5 2), (Hlow4 2) by lia. by apply empty_image_blk.
  - intros b. cbn [img s6 freeblock]. unfold I'. rewrite blk_insert; [|apply Hok|unfold FSSIZE; lia|lia]. cbn [Z.eqb Pos.eqb].
    destruct (map_bits_spec (Z.to_nat (freeblock s5)) b) as [_ Hm]; [lia|]. fold bits in Hm. rewrite Hm.
    apply bool_decide_ext. lia.
  - cbn [freeblock s6]. by rewrite Hfr.
Qed.

(** ** What the kernel finds *)

Lemma pad_lookup n f r : (r < 512)%nat -> (n + r < length f)%nat -> pad (rd n 512 f) !! r = f !! (n + r)%nat.
Proof.
  intros Hr Hl. unfold pad, rd. rewrite lookup_app_l by (rewrite length_take, length_drop; lia).
  rewrite lookup_take_lt by done. by rewrite lookup_drop.
Qed.

Lemma file_at_bytes I own i d f : file_on I own i d (nblk f) f -> file_bytes (imgblk I) d 0 (length f) = f.
Proof.
  intros [Hm Hh]. apply list_eq. intros j. unfold file_bytes. rewrite list_lookup_fmap.
  destruct (decide (j < length f)%nat) as [Hj|Hj].
  - rewrite lookup_seq_lt by done. cbn [fmap option_fmap option_map Nat.add]. rewrite Z.add_0_l. unfold file_byte.
    change (Z.of_nat BSIZE) with 512. set (pos := Z.of_nat j). pose proof (Z.div_mod pos 512). pose proof (Z.mod_pos_bound pos 512).
    assert (Hbn : 0 <= pos / 512 < nblk f).
    { split; [apply Z.div_pos; lia|]. unfold nblk. apply Z.div_lt_upper_bound; [lia|].
      pose proof (Z.div_mod (Z.of_nat (length f) + 511) 512). pose proof (Z.mod_pos_bound (Z.of_nat (length f) + 511) 512). lia. }
    destruct (mapped_block _ _ _ _ _ _ Hm Hbn) as (jb & Hjb & _). rewrite Hjb. cbn [default from_option id].
    rewrite (Hh _ _ Hbn Hjb), pad_lookup by lia. replace (Z.to_nat (512 * (pos / 512)) + Z.to_nat (pos mod 512))%nat with j by lia.
    destruct (lookup_lt_is_Some_2 f j Hj) as [c ->]. done.
  - rewrite lookup_seq_ge by lia. symmetry. apply lookup_ge_None. lia.
Qed.

Lemma head_fields din ty :
  rd 0 8 din = head ty -> is_s16 ty -> i_type (dino din) = ty /\ i_nlink (dino din) = 1 /\ i_major (dino din) = 0 /\
    i_minor (dino din) = 0.
Proof.
  intros Hh Hty. assert (Hg : forall j, (j + 2 <= 8)%nat -> get16 j din = get16 j (head ty)).
  { intros j Hj. unfold get16. rewrite <- Hh. by rewrite rd_rd by lia. }
  unfold dino, get_dinode. cbn [i_type i_nlink i_major i_minor set_field Nat.add]. rewrite !Hg by lia. split_and!; [|done|done|done].
  change (get16 0 (head ty)) with (le_Z (le_bytes 2 ty)). rewrite le_Z_bytes. by apply s16_u16.
Qed.

(** The inodes that the kernel must see: the root directory, then the files in the order of the command line. *)
Definition expected (fs : list hostfile) : list (Z * list Z) := (T_DIR, root_bytes fs) :: (file_entry <$> fs).

(** C8.  On a little-endian machine, when the files fit on the disk, [mkfs] succeeds, and the kernel finds on the image the super block,
    an empty log, and for the root directory and every file an inode of the right type with one link, its size and
    exactly its bytes; the root directory consists of [.], [..] and one entry per file, with the inode of that file.
    The inodes that are left are free. *)
Theorem mkfs_contents fs : fits fs ->
  exists s, main Little fs = Some s /\
    let I := img s in
    sb_of (imgblk I 1) = mkSb FSSIZE nblocks NINODES nlog 2 32 58 /\ get32 0 (imgblk I 2) = 0 /\
    (forall k ty f, expected fs !! k = Some (ty, f) ->
       let i := kinode I (Z.of_nat k + 1) in
       i_type i = ty /\ i_nlink i = 1 /\
       i_size i = (if decide (k = 0)%nat then root_size f else Z.of_nat (length f)) /\
       file_bytes (imgblk I) i 0 (length f) = f) /\
    forall inum, Z.of_nat (length fs) + 1 < inum < 208 -> i_type (kinode I inum) = 0.
Proof.
  intros Hfits. destruct (main_finished fs Hfits) as (s & own & fl & Hrun & [Hok Hfl Hdisk Hsz Hfree Hsb Hlog _ _]).
  exists s. split; [done|]. split; [done|]. split; [rewrite Hlog; apply get32_zeroes|]. split.
  - intros k ty f Hk. destruct (Forall2_lookup_r _ _ _ _ _ Hfl Hk) as (x & Hx & Hby & Hn & Hhd). cbn [fst snd] in *.
    rewrite (Hdisk k x Hx). assert (Hty : is_s16 ty).
    { destruct k as [|k]; [injection Hk as <- _; unfold is_s16, T_DIR; lia|]. change ((file_entry <$> fs) !! k = Some (ty, f)) in Hk.
      rewrite list_lookup_fmap in Hk. destruct (fs !! k); [|done]. injection Hk as <- _. unfold is_s16, T_FILE. lia. }
    destruct (head_fields _ _ Hhd Hty) as (Ht & Hl & _). split; [done|]. split; [done|]. split.
    + change (i_size (dino (en_din x))) with (get32 o_size (en_din x)). rewrite (Hsz k x Hx), Hby. case_decide; [|reflexivity].
      subst k. injection Hk as _ <-. reflexivity.
    + pose proof (im_files _ _ _ Hok k x Hx) as Hf. rewrite Hby, Hn in Hf. by eapply file_at_bytes.
  - intros inum Hi. apply Hfree. by rewrite length_fmap.
Qed.

(** On that image every block of every file is mapped to a data block of the disk that the free map marks as used,
    no data block holds two blocks of files, and the free map marks exactly the blocks below [freeblock]: the meta
    data, and as many blocks as the files need. *)
Theorem mkfs_free_map fs : fits fs ->
  exists s, main Little fs = Some s /\
    let I := img s in
    let addr k bn := block_addr (imgblk I) (kinode I (Z.of_nat k + 1)) bn in
    (forall k ty f bn, expected fs !! k = Some (ty, f) -> 0 <= bn < nblk f ->
       exists b, addr k bn = Some b /\ nmeta <= b < FSSIZE /\ map_bit (imgblk I (BBLOCK b (sb_of (imgblk I 1)))) (Z.to_nat b) = true /\
         forall k' ty' f' bn', expected fs !! k' = Some (ty', f') -> 0 <= bn' < nblk f' -> addr k' bn' = Some b ->
           k' = k /\ bn' = bn) /\
    (forall b, map_bit (imgblk I 58) b = bool_decide (Z.of_nat b < freeblock s)) /\
    freeblock s = nmeta + blocks_used (expected fs).
Proof.
  intros Hfits. destruct (main_finished fs Hfits) as (s & own & fl & Hrun & [Hok Hfl Hdisk _ _ Hsb _ Hmap Hused]).
  exists s. split; [done|]. cbn zeta. split; [|split; [exact Hmap|exact Hused]].
  assert (Haddr : forall k ty f bn, expected fs !! k = Some (ty, f) -> 0 <= bn < nblk f ->
    exists j, block_addr (imgblk (img s)) (kinode (img s) (Z.of_nat k + 1)) bn = Some (nmeta + Z.of_nat j) /\
      own !! j = Some (slot_of (Z.of_nat k + 1) bn)).
  { intros k ty f bn Hk Hbn. destruct (Forall2_lookup_r _ _ _ _ _ Hfl Hk) as (x & Hx & Hby & Hn & _). cbn [fst snd] in *.
    rewrite (Hdisk k x Hx). pose proof (im_files _ _ _ Hok k x Hx) as [Hm _]. rewrite Hn in Hm. by eapply mapped_block. }
  intros k ty f bn Hk Hbn. destruct (Haddr k ty f bn Hk Hbn) as (j & Hj & Ho). pose proof (lookup_lt_Some _ _ _ Ho) as Hjl.
  pose proof (im_free _ _ _ Hok) as Hfree. pose proof (im_fits _ _ _ Hok) as Hcap. change nmeta with 59 in *. unfold FSSIZE in *.
  exists (59 + Z.of_nat j). split; [done|]. split; [lia|]. split.
  - rewrite Hsb. unfold BBLOCK, BPB. cbn [sb_bmapstart]. rewrite Z.div_small by lia. rewrite Z.add_0_l, Hmap.
    apply bool_decide_eq_true_2. lia.
  - intros k' ty' f' bn' Hk' Hbn' Hj'. destruct (Haddr k' ty' f' bn' Hk' Hbn') as (j' & Hj'' & Ho').
    rewrite Hj' in Hj''. injection Hj'' as Hjj. assert (j' = j) as -> by lia. rewrite Ho in Ho'. injection Ho' as Hsl.
    assert (Z.of_nat k + 1 = Z.of_nat k' + 1). { rewrite <- (slot_of_inum _ bn), Hsl. apply slot_of_inum. }
    assert (k' = k) as -> by lia. split; [done|]. apply slot_of_inj in Hsl; lia.
Qed.

(** ** Looking files up on the image *)

(** The name a file gets, and the entries of the root directory. *)
Definition file_name (f : hostfile) : list Z := skip_underscore (h_name f).
Definition root_ents (fs : list hostfile) : list (Z * list Z) :=
  (1, [46]) :: (1, [46; 46]) :: imap (fun k f => (Z.of_nat k + 2, file_name f)) fs.

Lemma root_ents_file fs j : root_ents fs !! Datatypes.S (Datatypes.S j) = (fun f => (Z.of_nat j + 2, file_name f)) <$> (fs !! j).
Proof.
  change (root_ents fs !! Datatypes.S (Datatypes.S j)) with (imap (fun k f => (Z.of_nat k + 2, file_name f)) fs !! j).
  apply list_lookup_imap.
Qed.

Lemma dir_entries_concat fs : forall n,
  dir_entries n fs = concat ((fun e => dir_entry e.1 e.2) <$> imap (fun k f => (Z.of_nat k + n, file_name f)) fs).
Proof.
  induction fs as [|f fs IH]; intros n; [done|]. cbn [dir_entries imap fmap list_fmap concat fst snd]. rewrite Z.add_0_l, IH.
  do 3 f_equal. apply imap_ext. intros k x _. cbn [compose]. f_equal. lia.
Qed.

Lemma root_bytes_concat fs : root_bytes fs = concat ((fun e => dir_entry e.1 e.2) <$> root_ents fs).
Proof. unfold root_bytes. by rewrite dir_entries_concat. Qed.

(** The entry [j] of a list of entries of 16 bytes. *)
Lemma concat_entry {A} (l : list (list A)) j e :
  Forall (fun x => length x = 16%nat) l -> l !! j = Some e -> take 16 (drop (16 * j) (concat l)) = e.
Proof.
  intros Hl. revert j. induction Hl as [|x l Hx Hl IH]; intros j Hj; [done|]. cbn [concat]. destruct j as [|j].
  - injection Hj as ->. rewrite Nat.mul_0_r, drop_0. by apply take_app_length'.
  - rewrite drop_app_ge by lia. replace (16 * Datatypes.S j - length x)%nat with (16 * j)%nat by lia. by apply IH.
Qed.

(** The kernel's entries of a directory that holds these bytes. *)
Lemma dir_ents_of view i fs n j e :
  file_bytes view i 0 (length (root_bytes fs)) = root_bytes fs -> (length fs <= 206)%nat ->
  root_ents fs !! j = Some e -> (2 + length fs <= n)%nat -> dir_ents view i n !! j = Some (mkDe e.1 (pad_name e.2)).
Proof.
  intros Hb Hfs Hj Hn. assert (Hjl : (j < 2 + length fs)%nat).
  { apply lookup_lt_Some in Hj. unfold root_ents in Hj. cbn [length] in Hj. by rewrite length_imap in Hj. }
  rewrite dir_ents_lookup by lia. f_equal.
  assert (Hlen : length (root_bytes fs) = (16 * j + (16 + 16 * (2 + length fs - j - 1)))%nat).
  { unfold root_bytes. rewrite !length_app, !length_dir_entry, length_dir_entries. lia. }
  rewrite Hlen, !file_bytes_app in Hb.
  assert (He : take 16 (drop (16 * j) (root_bytes fs)) = dir_entry e.1 e.2).
  { rewrite root_bytes_concat. apply concat_entry; [apply Forall_fmap, Forall_true; intros x; apply length_dir_entry|].
    by rewrite list_lookup_fmap, Hj. }
  rewrite <- Hb, drop_app_length' in He by (by rewrite length_file_bytes). rewrite take_app_length' in He by (by rewrite length_file_bytes).
  replace (16 * Z.of_nat j) with (0 + Z.of_nat (16 * j)) by lia. rewrite He. apply get_put_dirent; [|apply length_pad_name].
  destruct j as [|[|j]]; [by injection Hj as <-..|]. rewrite root_ents_file in Hj.
  destruct (fs !! j) eqn:Hf; [|done]. injection Hj as <-. apply lookup_lt_Some in Hf. cbn [fst]. lia.
Qed.

(** The names are usable: without a NUL, not [.] or [..], and distinct in their first [DIRSIZ] bytes. *)
Definition names_ok (fs : list hostfile) : Prop :=
  Forall (fun f => 0 ∉ file_name f) fs /\ NoDup ([46] :: [46; 46] :: ((fun f => take DIRSIZ (file_name f)) <$> fs)).

Lemma root_ents_names fs : (fun e => take DIRSIZ e.2) <$> root_ents fs = [46] :: [46; 46] :: ((fun f => take DIRSIZ (file_name f)) <$> fs).
Proof. cbn [root_ents fmap list_fmap snd]. do 2 f_equal. rewrite fmap_imap. exact (imap_const (fun f => take DIRSIZ (file_name f)) fs). Qed.

Lemma root_names_inj fs j k e e' :
  names_ok fs -> root_ents fs !! j = Some e -> root_ents fs !! k = Some e' -> take DIRSIZ e'.2 = take DIRSIZ e.2 -> j = k.
Proof.
  intros [_ Hnd] Hj Hk Heq. rewrite <- root_ents_names in Hnd. eapply NoDup_lookup; [exact Hnd| |].
  - by rewrite list_lookup_fmap, Hj.
  - rewrite list_lookup_fmap, Hk. cbn [fmap option_fmap option_map]. by rewrite Heq.
Qed.

Lemma root_ents_nul fs j e : names_ok fs -> root_ents fs !! j = Some e -> 0 ∉ e.2 /\ e.1 ≠ 0.
Proof.
  intros [Hz _] Hj. destruct j as [|[|j]]; [injection Hj as <-; split; [apply (bool_decide_unpack _); exact I|done]..|].
  rewrite root_ents_file in Hj. destruct (fs !! j) eqn:Hf; [|done].
  injection Hj as <-. split; [exact (Forall_lookup_1 _ _ _ _ Hz Hf)|cbn [fst]; lia].
Qed.

Lemma entry_matches_name fs j e name :
  names_ok fs -> root_ents fs !! j = Some e -> length name = DIRSIZ ->
  entry_matches name (mkDe e.1 (pad_name e.2)) = bool_decide (name_str name = take DIRSIZ e.2).
Proof.
  intros Hn Hj Hl. destruct (root_ents_nul _ _ _ Hn Hj) as [Hz H0]. unfold entry_matches. cbn [de_inum de_name].
  rewrite (proj2 (Z.eqb_neq _ _) H0). cbn [negb andb]. apply bool_decide_ext. unfold namecmp.
  rewrite strncmp_zero by (rewrite ?length_pad_name; lia). rewrite !take_ge by (rewrite ?length_pad_name; lia). by rewrite pad_name_str.
Qed.

Lemma root_on_image fs : fits fs ->
  exists s, main Little fs = Some s /\
    file_bytes (imgblk (img s)) (kinode (img s) ROOTINO) 0 (length (root_bytes fs)) = root_bytes fs.
Proof.
  intros Hfits. destruct (main_finished fs Hfits) as (s & own & fl & Hrun & [Hok Hfl Hdisk _ _ _ _ _ _]). exists s. split; [done|].
  destruct (Forall2_lookup_r _ _ _ 0%nat _ Hfl eq_refl) as (x & Hx & Hby & Hn & _). cbn [fst snd] in *.
  change ROOTINO with (Z.of_nat 0 + 1). rewrite (Hdisk 0%nat x Hx). pose proof (im_files _ _ _ Hok 0%nat x Hx) as Hf.
  rewrite Hby, Hn in Hf. by eapply file_at_bytes.
Qed.

(** On that image the kernel finds every file by name: whatever buffer of [DIRSIZ] bytes holds the file's name (without the leading
    underscore and cut at [DIRSIZ] bytes), the search of [dirlookup] through the root directory stops at the entry of that file, which
    names its inode. *)
Theorem mkfs_lookup fs : fits fs -> names_ok fs ->
  exists s, main Little fs = Some s /\
    forall k f name n, fs !! k = Some f -> length name = DIRSIZ -> name_str name = take DIRSIZ (file_name f) -> (2 + length fs <= n)%nat ->
      find_entry name (dir_ents (imgblk (img s)) (kinode (img s) ROOTINO) n) =
        Some (k + 2, mkDe (Z.of_nat k + 2) (pad_name (file_name f)))%nat.
Proof.
  intros Hfits Hnames. destruct (root_on_image fs Hfits) as (s & Hrun & Hb). exists s. split; [done|].
  intros k f name n Hk Hl Hname Hn. pose proof (proj1 (proj2 Hfits)) as Hlen.
  assert (He : forall j e, root_ents fs !! j = Some e -> dir_ents (imgblk (img s)) (kinode (img s) ROOTINO) n !! j = Some (mkDe e.1 (pad_name e.2)))
    by (intros j e Hj; by eapply dir_ents_of).
  assert (Hke : root_ents fs !! (k + 2)%nat = Some (Z.of_nat k + 2, file_name f)).
  { rewrite Nat.add_comm. change (2 + k)%nat with (Datatypes.S (Datatypes.S k)). by rewrite root_ents_file, Hk. }
  unfold find_entry. rewrite (proj2 (find_idx_Some _ _ (k + 2)%nat)).
  - cbn [mbind option_bind]. by rewrite (He _ _ Hke).
  - split.
    + exists (mkDe (Z.of_nat k + 2) (pad_name (file_name f))). split; [by apply (He _ _ Hke)|].
      pose proof (entry_matches_name fs (k + 2) _ name Hnames Hke Hl) as Hm. cbn [fst snd] in Hm. rewrite Hm.
      apply bool_decide_eq_true_2. exact Hname.
    + intros j de Hj Hde. assert (is_Some (root_ents fs !! j)) as [e Hje].
      { apply lookup_lt_is_Some_2. apply lookup_lt_Some in Hke. lia. }
      rewrite (He _ _ Hje) in Hde. injection Hde as <-. rewrite (entry_matches_name fs j _ name Hnames Hje Hl).
      apply bool_decide_eq_false_2. rewrite Hname. intros Heq. apply (root_names_inj fs j (k + 2) e _ Hnames Hje Hke) in Heq. lia.
Qed.

(** Two programs, the second with more than twelve blocks. *)
Definition ex_files : list hostfile :=
  [mkHost [95; 99; 97; 116] (Some [replicate 512 7; replicate 100 8]);
   mkHost [95; 108; 115] (Some (replicate 13 (replicate 512 9)))].

Lemma ex_files_fit : fits ex_files.
Proof.
  split; [|split; [cbn; lia|by vm_compute]]. repeat constructor; try done; by vm_compute.
Defined.

Lemma mkfs_contents_witness :
  exists s, main Little ex_files = Some s /\ i_size (kinode (img s) 3) = 6656 /\
    file_bytes (imgblk (img s)) (kinode (img s) 3) 0 6656 = contents (mkHost [] (Some (replicate 13 (replicate 512 9)))).
Proof.
  destruct (mkfs_contents ex_files ex_files_fit) as (s & Hrun & _ & _ & Hf & _). exists s. split; [exact Hrun|].
  destruct (Hf 2%nat T_FILE (concat (replicate 13 (replicate 512 9))) eq_refl) as (_ & _ & Hsz & Hb).
  split; [exact Hsz|exact Hb].
Defined.

Lemma mkfs_free_map_witness :
  exists s, main Little ex_files = Some s /\ freeblock s = 76.
Proof.
  destruct (mkfs_free_map ex_files ex_files_fit) as (s & Hrun & _ & _ & Hu). exists s. split; [exact Hrun|exact Hu].
Defined.

Lemma mkfs_lookup_witness :
  exists s, main Little ex_files = Some s /\
    find_entry (pad_name [108; 115]) (dir_ents (imgblk (img s)) (kinode (img s) ROOTINO) 32) = Some (3%nat, mkDe 3 (pad_name [108; 115])).
Proof.
  destruct (mkfs_lookup ex_files ex_files_fit) as (s & Hrun & Hf).
  - split; [repeat constructor; apply (bool_decide_unpack _); exact I|]. apply (bool_decide_unpack _). vm_compute. exact I.
  - exists s. split; [exact Hrun|]. apply (Hf 1%nat _ (pad_name [108; 115]) 32%nat eq_refl); [reflexivity|reflexivity|cbn; lia].
Defined.

(** [winode] uses [sb.inodestart] without [xint], so on a big-endian machine it writes the root inode to the boot block. *)
Lemma big_endian_inode : seek (IBLOCK ROOTINO (sb Big)) = 0%nat /\ seek (IBLOCK ROOTINO (sb Little)) = 32%nat.
Proof. split; reflexivity. Qed.
