(* ===== verification/Urun.v ===== *)
(** * User programs on the kernel (usys.S)

    The stubs of usys.S join the two halves of the development: a system call of a program in [Usys] puts its
    arguments in the memory of the process and enters the kernel by [trap], as the processor does.  [urun] runs the program of
    one process this way; its children are made but do not run, and a program that an [exec] starts is not run either. *)

From S2P Require Import Prelude Kstate Spinlock Cprintf Proc Admission Kdata Sleeplock Hw Kalloc Bio Block Log Vm CString Fs Pipe File ConsoleIn Kbd ProcLife Umem Sysarg Exec Sysproc Sysfile Trap Ulib Usys.
From stdpp Require Import gmap strings list fin_maps.
From ITree Require Import Core.ITreeDefinition.
Open Scope Z_scope.

Section urun.
Context `{Lk : Linker} `{Ld : LinkerData} `{Pr : Program} `{Fu : Fuel} `{Drv : DiskDriver} `{Dev : Devices} `{Int : DiskIntr} `{Hd : Hardware}.
(** The devices, the address of the trap frame on the kernel stack, the stack pointer at the call, and a buffer. *)
Context (d : devs) (frame esp ubuf : Z).

(** [SYSCALL(name)] *)
Definition SYSCALL (num : Z) (args : list Z) : MK Z :=
  store_bytes (u32 (esp + 4)) (concat (le_bytes 4 <$> args)) ;;;
  let! p := curproc in
  trap d frame (p_tfv p <| tf_esp := esp |> <| tf_trapno := T_SYSCALL |> <| tf_eax := num |>) ;;;
  let! p := curproc in
  ret (s32 (tf_eax (p_tfv p))).

(** The bytes a call points to. *)
Definition spill (bs : list Z) : MK unit := store_bytes ubuf bs.

(** A system call and what it stores for the program. *)
Definition usyscall {X} (e : sysE X) : MK X :=
  match e in sysE X return MK X with
  | Fork => SYSCALL 1 []
  | Exit => SYSCALL 2 [] ;;; undef
  | Wait => SYSCALL 3 []
  | Usys.Pipe =>
      let! r := SYSCALL 4 [ubuf] in
      if r <? 0 then ret None else let! a := load32 ubuf in let! b := load32 (u32 (ubuf + 4)) in ret (Some (s32 a, s32 b))
  | Write fd bs => spill bs ;;; SYSCALL 16 [fd; ubuf; Z.of_nat (length bs)]
  | Read fd n =>
      let! r := SYSCALL 5 [fd; ubuf; n] in
      if r <? 0 then ret None else let! bs := load_bytes ubuf (Z.to_nat r) in ret (Some bs)
  | Close fd => SYSCALL 21 [fd]
  | Kill pid => SYSCALL 6 [pid]
  | Usys.Exec path argv =>
      let strings := (fun s => s ++ [0]) <$> path :: argv in
      let starts := (fun n => u32 (ubuf + Z.of_nat (length (concat (take n strings))))) <$> seq 0 (length strings + 1) in
      spill (concat strings ++ concat (le_bytes 4 <$> tail (take (length strings) starts) ++ [0])) ;;;
      let! r := SYSCALL 7 [ubuf; List.last starts 0] in
      if r <? 0 then ret r else undef
  | Open path mode => spill (path ++ [0]) ;;; SYSCALL 15 [ubuf; mode]
  | Mknod path a b => spill (path ++ [0]) ;;; SYSCALL 17 [ubuf; a; b]
  | Unlink path => spill (path ++ [0]) ;;; SYSCALL 18 [ubuf]
  | Fstat fd =>
      let! r := SYSCALL 8 [fd; ubuf] in
      if r <? 0 then ret None
      else
        let! t := load_bytes ubuf 2 in let! dv := load32 (u32 (ubuf + 4)) in let! ino := load32 (u32 (ubuf + 8)) in
        let! nl := load_bytes (u32 (ubuf + 12)) 2 in let! sz := load32 (u32 (ubuf + 16)) in
        ret (Some (mkStat (s16 (le_Z t)) (s32 dv) ino (s16 (le_Z nl)) sz))
  | Link old new =>
      spill (old ++ 0 :: new ++ [0]) ;;; SYSCALL 19 [ubuf; u32 (ubuf + Z.of_nat (length old) + 1)]
  | Mkdir path => spill (path ++ [0]) ;;; SYSCALL 20 [ubuf]
  | Chdir path => spill (path ++ [0]) ;;; SYSCALL 9 [ubuf]
  | Dup fd => SYSCALL 10 [fd]
  | Getpid => SYSCALL 11 []
  | Sbrk n => SYSCALL 12 [n]
  | Sleep n => SYSCALL 13 [n]
  | Uptime => SYSCALL 14 []
  | Printinfo => SYSCALL 22 []
  | SchedPolicy pid policy => SYSCALL 23 [pid; policy]
  | ExecTime pid t => SYSCALL 24 [pid; t]
  | Deadline pid t => SYSCALL 25 [pid; t]
  | Rate pid r => SYSCALL 26 [pid; r]
  end.

(** At most [n] calls and silent steps. *)
Fixpoint urun {R} (n : nat) (t : uprog R) : MK (option R) :=
  match n with
  | O => hang
  | S n =>
      match observe t with
      | RetF r => ret (Some r)
      | TauF t => urun n t
      | VisF e k => let! x := usyscall e in urun n (k x)
      end
  end.
End urun.
