(* ===== verification/Realtime.v ===== *)
(** * Real-time programs on the kernel

    A user program sets its scheduling parameters by [getpid], [deadline], [exec_time], [rate] and [sched_policy].  [rt_step]
    says what these calls answer and do to the process table, as functions on it.  The theorem is a simulation: the kernel runs every
    program of such calls, through the stubs of usys.S, [trap] and the argument checks, as [rt_step] runs it. *)

From S2P Require Import Prelude Kstate Spinlock Cprintf Proc Admission Kdata Sleeplock Hw Kalloc Bio Block Log Vm CString Fs Pipe File ConsoleIn Kbd ProcLife Umem Sysarg Exec Sysproc Sysfile Trap Ulib Usys Assig Urun.
From stdpp Require Import gmap strings list fin_maps.
From ITree Require Import Core.ITreeDefinition.
Open Scope Z_scope.

(** ** The calls as functions on the process table *)

(** The process table without the trap frames, which every call changes. *)
Definition unframed (q : proc) : proc := q <| p_tf := 0 |> <| p_tfv := tf_zero |>.
Definition tables (p : procs) : procs := p <| ptable := unframed <$> ptable p |>.

(** The EDF division does not trap. *)
Definition divides (pid : Z) (p : procs) : bool :=
  bool_decide (is_s32 (utf_edf p)) && match task_of p pid with Some pr => bool_decide (divides_ok pr) | None => true end.

Definition put_param (pid : Z) (f : proc -> proc) (p : procs) : Z * procs :=
  match find_idx (has_pid pid) (ptable p) with
  | Some i => (0, p <| ptable := alter f i (ptable p) |>)
  | None => (-22, p)
  end.

(** A call of the process in slot [me]; [None] when it is another call, an argument is no [int], the admission test divides by zero,
    or the caller has itself turned down, which ends it. *)
Definition rt_step (me : nat) {X} (e : sysE X) (p : procs) : option (X * procs) :=
  let ints a b := bool_decide (is_s32 a) && bool_decide (is_s32 b) in
  match e in sysE X return option (X * procs) with
  | Getpid => pr ← ptable p !! me; if bool_decide (is_s32 (p_pid pr)) then Some (p_pid pr, p) else None
  | SchedPolicy pid policy =>
      pr ← ptable p !! me;
      let '(ok, p') := policy_step pid policy p in
      if ints pid policy && (negb (policy =? 0) || divides pid p) && (ok || negb (p_pid pr =? pid))
      then Some (if ok then 0 else -22, p') else None
  | ExecTime pid t => if ints pid t then Some (put_param pid (fun q => q <| p_execution_time := t |>) p) else None
  | Deadline pid d => if ints pid d then Some (put_param pid (fun q => q <| p_deadline := d |>) p) else None
  | Rate pid r => if ints pid r then Some (put_param pid (fun q => q <| p_rate := r |> <| p_priority := priority_of_rate r |>) p) else None
  | _ => None
  end.

(** A program that ends within [n] calls and silent steps. *)
Fixpoint rt_run {R} (me n : nat) (t : uprog R) (p : procs) : option (R * procs) :=
  match n with
  | O => None
  | S n =>
      match observe t with
      | RetF r => Some (r, p)
      | TauF t => rt_run me n t p
      | VisF e k => r ← rt_step me e p; rt_run me n (k r.1) r.2
      end
  end.

(** ** The functions do not look at the trap frames *)

Lemma find_idx_unframed pid t : find_idx (has_pid pid) (unframed <$> t) = find_idx (has_pid pid) t.
Proof. induction t as [|q t IH]; [done|]. cbn. change (has_pid pid (unframed q)) with (has_pid pid q). destruct (has_pid pid q); [done|]. by rewrite <- IH. Qed.

Lemma alter_unframed f (i : nat) (t : list proc) : (forall q, f (unframed q) = unframed (f q)) -> alter f i (unframed <$> t) = unframed <$> alter f i t.
Proof. intros Hf. revert i. induction t as [|q t IH]; intros [|i]; [done..| |]; cbn; [by rewrite Hf|]. f_equal. apply IH. Qed.

Lemma alter_framed f (i : nat) (t : list proc) : (forall q, unframed (f q) = unframed q) -> unframed <$> alter f i t = unframed <$> t.
Proof. intros Hf. revert i. induction t as [|q t IH]; intros [|i]; [done..| |]; cbn; [by rewrite Hf|]. f_equal. apply IH. Qed.

Lemma tables_enter i a tf p : tables (enter i a tf p) = tables p.
Proof. unfold tables, enter. cbn. by rewrite alter_framed. Qed.

Lemma tables_leave i r p : tables (leave i r p) = tables p.
Proof. unfold tables, leave. cbn. by rewrite alter_framed. Qed.

Lemma put_param_tables pid f p :
  (forall q, f (unframed q) = unframed (f q)) -> put_param pid f (tables p) = ((put_param pid f p).1, tables (put_param pid f p).2).
Proof.
  intros Hf. unfold put_param. change (ptable (tables p)) with (unframed <$> ptable p). rewrite find_idx_unframed.
  destruct (find_idx _ _) as [i|]; [|done]. cbn. unfold tables. cbn. by rewrite alter_unframed.
Qed.

Lemma policy_step_tables pid policy p :
  policy_step pid policy (tables p) = ((policy_step pid policy p).1, tables (policy_step pid policy p).2).
Proof.
  unfold policy_step. change (fun q => p_pid q =? pid) with (has_pid pid). change (ptable (tables p)) with (unframed <$> ptable p).
  rewrite find_idx_unframed. destruct (find_idx _ _) as [i|]; [|done]. rewrite list_lookup_fmap.
  destruct (ptable p !! i) as [pr|] eqn:Hi; [|done]. cbn.
  change (edf_fits (tables p) (unframed pr)) with (edf_fits p pr).
  change (rm_fits (tables p) (unframed pr) (s32 (pid - 2))) with (rm_fits p pr (s32 (pid - 2))).
  repeat case_match; cbn; try done; unfold tables, admitted_edf, admitted_rm, rejected; cbn; by rewrite alter_unframed.
Qed.

Lemma divides_tables pid p : divides pid (tables p) = true -> params_ok pid p.
Proof.
  unfold divides. intros [H1 H3]%andb_true_iff. apply bool_decide_eq_true in H1. split; [done|]. intros i pr Hf Hi.
  revert H3. unfold task_of. change (fun q => p_pid q =? pid) with (has_pid pid) in *. change (ptable (tables p)) with (unframed <$> ptable p).
  rewrite find_idx_unframed, Hf. cbn. rewrite list_lookup_fmap, Hi. cbn. intros H. by apply bool_decide_eq_true in H.
Qed.

(** ** The simulation *)

Section simulation.
Context `{Lk : Linker} `{Ld : LinkerData} `{Pr : Program} `{Fu : Fuel} `{Drv : DiskDriver} `{Dev : Devices} `{Int : DiskIntr} `{Hd : Hardware}.
Context (d : devs) (frame esp ubuf : Z) (me : nat) (pgdir : Z) (co : console).
Hypothesis kend_pos : 0 < kend.

(** Process [me] runs, not killed, in the address space [pgdir], with room for two arguments on its stack. *)
Record rt_user (m : machine) (p : procs) (k : kst) (pr : proc) : Prop := {
  ru_user : in_user m p k me pr;
  ru_pgdir : p_pgdir pr = pgdir;
  ru_lock : has_lock m Lptable;
  ru_live : p_killed pr = 0;
  ru_space : uspace k pgdir;
  ru_stack : write_range k pgdir (esp + 4) 8;
  ru_top : 0 <= esp /\ esp + 12 <= p_sz pr;
}.

(** Only the words of the arguments differ. *)
Definition scratch (k k' : kst) : Prop :=
  k' = k <| k_mem := k_mem k' |> /\
  forall x, 0 <= x < KERNBASE -> ~ (esp + 4 <= x < esp + 12) -> user_byte k' pgdir x = user_byte k pgdir x.

Lemma scratch_refl k : scratch k k.
Proof. split; [by destruct k|done]. Qed.

Lemma scratch_trans k1 k2 k3 : scratch k1 k2 -> scratch k2 k3 -> scratch k1 k3.
Proof.
  intros [H1 H2] [H3 H4]. split; [by rewrite H3, H1|]. intros x Hx Hn. by rewrite H4, H2.
Qed.

Lemma stored_scratch k k' bs : (length bs <= 8)%nat -> stored pgdir (esp + 4) bs k k' -> scratch k k'.
Proof.
  intros Hl [_ _ Hb Hf]. split; [done|]. intros x Hx Hn. rewrite Hb by done. by rewrite decide_False by lia.
Qed.

Lemma rt_user_stored m p k k' pr bs :
  (length bs <= 8)%nat -> stored pgdir (esp + 4) bs k k' -> rt_user m p k pr -> rt_user m p k' pr.
Proof.
  intros Hl [Hs Hm Hb Hf] [[U1 U2 U3 U4 U5 U6] R2 R3 R4 R5 (R6 & R7 & R8) R9]. split; try done.
  - split; try done. intros va Hva. rewrite R2 in *. rewrite Hb by lia. case_decide; [|by apply U6].
    apply lookup_lt_is_Some_2. lia.
  - split; [done|]. split; [done|]. intros x Hx. rewrite Hm. by apply R8.
Qed.

Lemma rt_user_proc m p p' k pr pr' :
  rt_user m p k pr -> ptable p' !! me = Some pr' -> p_killed pr' = p_killed pr -> p_pgdir pr' = p_pgdir pr -> p_sz pr' = p_sz pr ->
  rt_user m p' k pr'.
Proof.
  intros [[U1 U2 U3 U4 U5 U6] R2 R3 R4 R5 R6 R7] Hi H1 H2 H3. split; rewrite ?H1, ?H2, ?H3; try done.
  split; rewrite ?H2, ?H3; done.
Qed.

Lemma rt_user_sti m p k pr : rt_user m p k pr -> rt_user (sti_machine (held m [])) p k pr.
Proof.
  intros [[U1 U2 U3 U4 U5 U6] R2 R3 R4 R5 R6 R7]. split; try done.
  - split; try done.
    + apply idle_sti. by apply idle_held.
    + rewrite <- U2, <- (cur_held m []). done.
    + change (cr3 (sti_machine (held m []))) with (cr3 (held m [])). by rewrite cr3_held.
  - apply has_lock_sti, has_lock_held; eauto with xv6.
Qed.

(** What a call leaves: the answer [r] and the table [q]. *)
Definition answers {X} (k : kst) (r : X) (q : procs) (x : X) (w : world kst) : Prop :=
  x = r /\ exists m' p' k' pr', w = W (held m' []) co p' k' /\ rt_user m' p' k' pr' /\ tables p' = q /\ scratch k k'.

(** A call through the stub. *)
Lemma wp_SYSCALL m p k pr num args f r q :
  rt_user m p k pr -> (length args <= 2)%nat -> syscalls d (s32 num) = Some f -> is_s32 r ->
  let tf := p_tfv pr <| tf_esp := esp |> <| tf_trapno := T_SYSCALL |> <| tf_eax := num |> in
  (forall k1, user_bytes k1 pgdir (esp + 4) (concat (le_bytes 4 <$> args)) ->
    rt_user m (enter me frame tf p) k1 (entered frame tf pr) ->
    wp f (answers k1 r q) (W (held m []) co (enter me frame tf p) k1)) ->
  wp (SYSCALL d frame esp num args) (answers k r q) (W (held m []) co p k).
Proof using kend_pos.
  intros R Hargs Hf Hr tf Hwp. pose proof (ru_user _ _ _ _ R) as U. pose proof (ru_top _ _ _ _ R) as Htop.
  pose proof (iu_sz _ _ _ _ _ U) as Hsz. pose proof (iu_cr3 _ _ _ _ _ U) as Hcr3. rewrite (ru_pgdir _ _ _ _ R) in Hcr3.
  set (bs := concat (le_bytes 4 <$> args)) in *.
  assert (Hbs : (length bs <= 8)%nat).
  { unfold bs. clear -Hargs. destruct args as [|? [|? [|? ?]]]; cbn in *; rewrite ?length_app, ?length_le_bytes; cbn; lia. }
  unfold SYSCALL. fold bs. rewrite u32_id by (unfold is_u32, KERNBASE in *; lia).
  kstep. apply wp_store_bytes; rewrite ?cr3_held, ?Hcr3; [done|apply R| |].
  { destruct (ru_stack _ _ _ _ R) as (R6 & R7 & R8). split; [lia|]. split; [lia|]. intros x Hx. apply R8. lia. }
  intros k1 Hst. pose proof (rt_user_stored _ _ _ _ _ _ Hbs Hst R) as R1. pose proof (ru_user _ _ _ _ R1) as U1.
  kstep. eapply wp_curproc; [exact U1|]. kstep. fold tf.
  eapply wp_trap_syscall; [exact U1|apply R1|done|exact Hf|].
  eapply wp_mono; [apply Hwp; [eapply stored_bytes; [exact Hst|lia..]|]|].
  { eapply rt_user_proc; [exact R1|apply enter_at, U1|done..]. }
  intros r' w (-> & m' & p' & k' & pr' & -> & R' & Hq & Hs). exists m', co, p', k', pr'.
  pose proof (ru_user _ _ _ _ R') as U'. split_and!; [done|apply U'|apply U'|apply U'|apply R'|].
  assert (Hi : ptable (leave me r p') !! me = Some (pr' <| p_tfv := p_tfv pr' <| tf_eax := u32 r |> |>))
    by (cbn; by rewrite list_lookup_alter_eq, (iu_proc _ _ _ _ _ U')).
  assert (R2 : rt_user m' (leave me r p') k' (pr' <| p_tfv := p_tfv pr' <| tf_eax := u32 r |> |>)) by (by eapply rt_user_proc).
  kstep. eapply wp_curproc; [apply R2|]. kstep. split; [by apply s32_u32|].
  exists m', (leave me r p'), k', (pr' <| p_tfv := p_tfv pr' <| tf_eax := u32 r |> |>). split; [done|]. split; [done|].
  split; [by rewrite tables_leave|]. eapply scratch_trans; [by eapply stored_scratch|done].
Qed.

(** The two argument words. *)
Lemma wp_rt_args m p k pr a b g0 g1 (body : Z -> Z -> MK Z) (Q : Z -> world kst -> Prop) :
  rt_user m p k pr -> tf_esp (p_tfv pr) = esp -> is_s32 a -> is_s32 b ->
  user_bytes k pgdir (esp + 4) (concat (le_bytes 4 <$> [a; b])) ->
  wp (body a b) Q (W (held m []) co p k) ->
  wp (let! x := argint 0 in let! y := argint 1 in body (default g0 x) (default g1 y)) Q (W (held m []) co p k).
Proof.
  intros R Hesp Ha Hb Hbs HQ. pose proof (ru_user _ _ _ _ R) as U. pose proof (ru_top _ _ _ _ R) as Htop. pose proof (iu_sz _ _ _ _ _ U) as Hsz.
  assert (Harg : forall n v l1 l2, concat (le_bytes 4 <$> [a; b]) = l1 ++ le_bytes 4 v ++ l2 -> Z.of_nat (length l1) = 4 * n -> 0 <= n < 2 -> is_s32 v ->
    is_arg k pr n v).
  { intros n v l1 l2 Hl Hn Hn2 Hv. unfold is_arg, arg_addr. rewrite Hesp, u32_id by (unfold is_u32, KERNBASE in *; lia). split; [lia|].
    exists (le_bytes 4 v). split; [apply length_le_bytes|]. split.
    - intros j c Hj. rewrite (ru_pgdir _ _ _ _ R). replace (esp + 4 + 4 * n + Z.of_nat j) with (esp + 4 + Z.of_nat (length l1 + j)) by lia.
      apply Hbs. rewrite Hl, lookup_app_r by lia. rewrite Nat.add_comm, Nat.add_sub. by apply lookup_app_l_Some.
    - rewrite le_Z_bytes. change (256 ^ Z.of_nat 4) with 4294967296. symmetry. by apply s32_u32. }
  kstep. eapply wp_arg; [exact U|by apply (Harg 0 a [] (le_bytes 4 b ++ []))|].
  kstep. eapply wp_arg; [exact U|by apply (Harg 1 b (le_bytes 4 a) [])|]. exact HQ.
Qed.

(** A call of two arguments that answers [r] at once. *)
Lemma wp_rt_call m p k pr num a b f g0 g1 (body : Z -> Z -> MK Z) r q :
  rt_user m p k pr -> syscalls d (s32 num) = Some f ->
  f = (let! x := argint 0 in let! y := argint 1 in body (default g0 x) (default g1 y)) ->
  is_s32 a -> is_s32 b -> is_s32 r ->
  (forall p1 pr1, tables p1 = tables p -> ptable p1 !! me = Some pr1 -> p_pid pr1 = p_pid pr ->
    exists q1 pr', tables q1 = q /\ ptable q1 !! me = Some pr' /\
      (p_killed pr' = p_killed pr1 /\ p_pgdir pr' = p_pgdir pr1 /\ p_sz pr' = p_sz pr1) /\
      forall m1 k1, idle m1 -> has_lock m1 Lptable -> body a b (W m1 co p1 k1) = Kstate.Ret r (W (held (sti_machine m1) []) co q1 k1)) ->
  wp (SYSCALL d frame esp num [a; b]) (answers k r q) (W (held m []) co p k).
Proof using kend_pos.
  intros R Hf Hfb Ha Hb Hr Hbody. eapply wp_SYSCALL; [exact R|done|exact Hf|done|]. intros k1 Hbs R1. subst f.
  pose proof (ru_user _ _ _ _ R1) as U1. eapply wp_rt_args; [exact R1|reflexivity|exact Ha|exact Hb|exact Hbs|].
  destruct (Hbody _ _ (tables_enter me frame _ p) (iu_proc _ _ _ _ _ U1) eq_refl) as (q1 & pr' & Hq & Hi & (H1 & H2 & H3) & Hrun).
  eapply wp_eq; [apply Hrun; [apply idle_held, U1|apply has_lock_held; [eauto with xv6|apply R1]]|].
  { apply idle_my_cpu, U1. }
  split; [done|]. exists (sti_machine (held m [])), q1, k1, pr'. split; [done|]. split; [|split; [done|apply scratch_refl]].
  apply rt_user_sti. by eapply rt_user_proc.
Qed.

Lemma put_param_at pid f p pr :
  (forall q, p_killed (f q) = p_killed q /\ p_pgdir (f q) = p_pgdir q /\ p_sz (f q) = p_sz q) -> ptable p !! me = Some pr ->
  exists pr', ptable (put_param pid f p).2 !! me = Some pr' /\ p_killed pr' = p_killed pr /\ p_pgdir pr' = p_pgdir pr /\ p_sz pr' = p_sz pr.
Proof.
  intros Hf Hi. unfold put_param. destruct (find_idx _ _) as [j|]; [|eauto]. cbn. destruct (decide (j = me)) as [->|Hne].
  - rewrite list_lookup_alter_eq, Hi. eexists. split; [done|apply Hf].
  - rewrite list_lookup_alter_ne by done. eauto.
Qed.

(** [deadline], [exec_time] and [rate]. *)
Lemma wp_rt_param m p k pr num a b g (sys : Z -> Z -> MK Z) (call : Z -> Z -> MK Z) (upd : Z -> proc -> proc) r q :
  rt_user m p k pr -> syscalls d (s32 num) = Some (sys g.1 g.2) ->
  (forall g0 g1, sys g0 g1 = let! x := argint 0 in let! y := argint 1 in call (default g0 x) (default g1 y)) ->
  (forall pid v, call pid v = with_pid pid (upd v)) ->
  (forall v q, upd v (unframed q) = unframed (upd v q)) ->
  (forall v q, p_killed (upd v q) = p_killed q /\ p_pgdir (upd v q) = p_pgdir q /\ p_sz (upd v q) = p_sz q) ->
  is_s32 a -> is_s32 b -> put_param a (upd b) (tables p) = (r, q) ->
  wp (SYSCALL d frame esp num [a; b]) (answers k r q) (W (held m []) co p k).
Proof using kend_pos.
  intros R Hf Hsys Hcall Hframe Hkeep Ha Hb Hput.
  eapply wp_rt_call; [exact R|exact Hf|apply Hsys|done|done| |].
  { revert Hput. unfold put_param. destruct (find_idx _ _); intros [= <- _]; unfold is_s32; lia. }
  intros p1 pr1 Htab Hi1 _. rewrite <- Htab, put_param_tables in Hput by done. injection Hput as <- <-.
  destruct (put_param_at a (upd b) p1 pr1 (Hkeep b) Hi1) as (pr' & Hi' & Hk').
  exists (put_param a (upd b) p1).2, pr'. split; [done|]. split; [done|]. split; [done|]. intros m1 k1 Hm1 Hlk1.
  rewrite Hcall, with_pid_run by done. unfold put_param. by destruct (find_idx _ _).
Qed.

Lemma wp_rt_policy m p k pr pid policy r q :
  rt_user m p k pr -> rt_step me (SchedPolicy pid policy) (tables p) = Some (r, q) ->
  wp (SYSCALL d frame esp 23 [pid; policy]) (answers k r q) (W (held m []) co p k).
Proof using kend_pos.
  intros R Hstep. cbn in Hstep. rewrite list_lookup_fmap, (iu_proc _ _ _ _ _ (ru_user _ _ _ _ R)) in Hstep. cbn in Hstep.
  rewrite policy_step_tables in Hstep. destruct (_ && _ && _) eqn:Hg in Hstep; [|done]. injection Hstep as <- <-.
  apply andb_true_iff in Hg as [[[Ha Hb]%andb_true_iff Hdiv]%andb_true_iff Hself].
  apply bool_decide_eq_true in Ha, Hb.
  destruct (dv_stk d) as [g0 g1] eqn:Hstk.
  eapply (wp_rt_call _ _ _ _ _ _ _ (sys_sched_policy g0 g1)); [exact R| |reflexivity|done|done| |].
  { change (s32 23) with 23. unfold syscalls. by rewrite Hstk. }
  { unfold is_s32. destruct ((policy_step pid policy p).1); lia. }
  intros p1 pr1 Htab Hi1 Hpid1.
  pose proof (policy_step_tables pid policy p1) as E1. rewrite Htab, policy_step_tables in E1.
  pose proof (f_equal snd E1) as E2. apply (f_equal fst) in E1. cbn [fst snd] in E1, E2.
  destruct (policy_step_keeps pid policy p1 me pr1) as (pr' & Hi' & Hk'); [done| |].
  { rewrite <- E1, Hpid1. apply orb_true_iff in Hself as [->|Hne%negb_true_iff]; [by right|left; by apply Z.eqb_neq]. }
  exists (policy_step pid policy p1).2, pr'. split; [done|]. split; [done|]. split; [done|]. intros m1 k1 Hm1 Hlk1.
  rewrite sched_policy_run; [by rewrite <- E1|done|done|]. intros ->. cbn in Hdiv. rewrite <- Htab in Hdiv. by apply divides_tables.
Qed.

Lemma wp_rt_getpid m p k pr r q :
  rt_user m p k pr -> rt_step me Getpid (tables p) = Some (r, q) ->
  wp (SYSCALL d frame esp 11 []) (answers k r q) (W (held m []) co p k).
Proof using kend_pos.
  intros R Hstep. cbn in Hstep. rewrite list_lookup_fmap, (iu_proc _ _ _ _ _ (ru_user _ _ _ _ R)) in Hstep. cbn in Hstep.
  case_bool_decide as Hs; [|done]. injection Hstep as <- <-.
  eapply (wp_SYSCALL _ _ _ _ _ _ sys_getpid); [exact R|cbn; lia| |done|].
  { change (s32 11) with 11. unfold syscalls. by destruct (dv_stk d). }
  intros k1 _ R1. unfold sys_getpid. kstep. eapply wp_curproc; [apply R1|]. kstep. split; [done|].
  eexists _, _, _, _. split; [done|]. split; [exact R1|]. split; [apply tables_enter|apply scratch_refl].
Qed.

(** One call. *)
Lemma wp_usyscall {X} (e : sysE X) m p k pr r q :
  rt_user m p k pr -> rt_step me e (tables p) = Some (r, q) ->
  wp (usyscall d frame esp ubuf e) (answers k r q) (W (held m []) co p k).
Proof using kend_pos.
  intros R Hstep. destruct e; try discriminate Hstep; cbn [usyscall]; [by eapply wp_rt_getpid|by eapply wp_rt_policy|..].
  all: cbn in Hstep; destruct (_ && _) eqn:Hg in Hstep; [|done]; injection Hstep as Hstep.
  all: apply andb_true_iff in Hg as [Ha Hb]; apply bool_decide_eq_true in Ha, Hb.
  - eapply (wp_rt_param _ _ _ _ _ _ _ (dv_stk d) sys_exec_time exec_time (fun t q => q <| p_execution_time := t |>)); try done.
    unfold syscalls. by destruct (dv_stk d).
  - eapply (wp_rt_param _ _ _ _ _ _ _ (dv_stk d) sys_deadline deadline (fun t q => q <| Kstate.p_deadline := t |>)); try done.
    unfold syscalls. by destruct (dv_stk d).
  - eapply (wp_rt_param _ _ _ _ _ _ _ (dv_stk d) sys_rate rate (fun r q => q <| p_rate := r |> <| p_priority := priority_of_rate r |>)); try done.
    unfold syscalls. by destruct (dv_stk d).
Qed.

Lemma answers_mono {X} k k' (r : X) q x w : scratch k k' -> answers k' r q x w -> answers k r q x w.
Proof.
  intros Hs (-> & m' & p' & k2 & pr' & -> & R & Hq & Hs'). split; [done|]. exists m', p', k2, pr'.
  split; [done|]. split; [done|]. split; [done|]. by eapply scratch_trans.
Qed.

Lemma wp_urun {R} n : forall (t : uprog R) m p k pr r q,
  rt_user m p k pr -> rt_run me n t (tables p) = Some (r, q) ->
  wp (urun d frame esp ubuf n t) (answers k (Some r) q) (W (held m []) co p k).
Proof using kend_pos.
  induction n as [|n IH]; intros t m p k pr r q Hr Hrun; [done|]. cbn [rt_run urun] in *.
  destruct (observe t) as [x|t'|X e c].
  - injection Hrun as <- <-. kstep. split; [done|]. exists m, p, k, pr. split_and!; [done|done|done|apply scratch_refl].
  - by eapply IH.
  - destruct (rt_step me e (tables p)) as [[x q1]|] eqn:Hstep; [|done]. cbn in Hrun. kstep.
    eapply wp_mono; [by eapply wp_usyscall|]. intros y w (-> & m' & p' & k' & pr' & -> & R' & <- & Hs). cbn beta.
    eapply wp_mono; [by eapply IH|]. intros. by eapply answers_mono.
Qed.

End simulation.

(** ** Properties *)

(** C5.  Real-time programs on the kernel.  A user program that sets scheduling parameters by [getpid], [deadline], [exec_time], [rate]
    and [sched_policy], and ends, runs on the kernel to its end, through the stubs of usys.S, [trap] and the argument checks: it gets the answers, and
    leaves the process table but for the trap frames, that the calls as functions on the table give; the process runs on, nothing else of the kernel's state
    changes, and of user memory at most the two words of stack where the arguments go. *)
Theorem rt_programs_run `{Lk : Linker} `{Ld : LinkerData} `{Pr : Program} `{Fu : Fuel} `{Drv : DiskDriver} `{Dev : Devices} `{Int : DiskIntr} `{Hd : Hardware}
    {R} d frame esp ubuf me m co p k pr (t : uprog R) n r q :
  0 < kend -> rt_user esp me (p_pgdir pr) m p k pr -> rt_run me n t (tables p) = Some (r, q) ->
  wp (urun d frame esp ubuf n t) (fun x w => x = Some r /\ exists m' p' k' pr',
    w = W (held m' []) co p' k' /\ tables p' = q /\ in_user m' p' k' me pr' /\ p_pgdir pr' = p_pgdir pr /\
    k' = k <| k_mem := k_mem k' |> /\
    forall x, 0 <= x < KERNBASE -> ~ (esp + 4 <= x < esp + 12) -> user_byte k' (p_pgdir pr) x = user_byte k (p_pgdir pr) x)
    (W (held m []) co p k).
Proof.
  intros Hk R0 Hrun. eapply wp_mono; [by eapply wp_urun|].
  intros x w (-> & m' & p' & k' & pr' & -> & R' & Hq & Hs1 & Hs2). split; [done|]. exists m', p', k', pr'.
  split_and!; [done|done|apply R'|apply R'|done|done].
Qed.

(** ** Examples *)

(** The calls that assig2_1.c makes for its own process. *)
Definition ex_setup : uprog unit := rt_setup Deadline 0 19 4 [].

Lemma ex_rt_user : @rt_user ex_end 0xF00 1 0x80401000 ex_umachine ex_uprocs (ex_umem_of zero_page) ex_uproc.
Proof.
  split; [by apply ex_in_user_of|done| |done|by apply ex_uspace_of| |].
  - apply ex_lock_at; [reflexivity|auto].
  - split; [lia|]. split; [unfold KERNBASE; lia|]. intros x Hx. exists 0x403007. split; [apply ex_umapping; lia|reflexivity].
  - change (p_sz ex_uproc) with 4096. lia.
Qed.

Lemma rt_programs_run_witness :
  exists m' p' k',
    @urun ex_end 0 ex_program 0%nat (@memide 0%nat) ex_devices memide_intr ex_hardware ex_devs 0 0xF00 0 _ 20 ex_setup
      (W (held ex_umachine []) ex_console ex_uprocs (ex_umem_of zero_page)) = Kstate.Ret (Some tt) (W (held m' []) ex_console p' k') /\
    rt_run 1 20 ex_setup (tables ex_uprocs) = Some (tt, tables p') /\ utf_edf p' = 21.
Proof.
  assert (Hload : (fun r => utf_edf (snd r)) <$> rt_run 1 20 ex_setup (tables ex_uprocs) = Some 21) by (vm_compute; reflexivity).
  destruct (rt_run 1 20 ex_setup (tables ex_uprocs)) as [[[] q]|] eqn:Hrun; [|discriminate Hload].
  pose proof (@rt_programs_run ex_end 0 ex_program 0%nat (@memide 0%nat) ex_devices memide_intr ex_hardware unit ex_devs 0 0xF00 0 1 ex_umachine
    ex_console ex_uprocs (ex_umem_of zero_page) ex_uproc ex_setup 20 tt q ltac:(reflexivity) ex_rt_user Hrun) as Hwp.
  destruct (wp_elim _ _ _ Hwp) as (x & w & Hk & -> & m' & p' & k' & pr' & -> & Hq & _). exists m', p', k'.
  split; [exact Hk|]. split; [rewrite Hq; reflexivity|]. change (utf_edf p') with (utf_edf (tables p')). rewrite Hq. injection Hload as Hload. exact Hload.
Defined.
